(* ===== verification/_CoqProject ===== *)
-Q . S2P
Prelude.v
Config.v
Macro.v
Decode.v
Machine.v
HostMem.v
Region.v
IoMap.v
DevBasic.v
Keyboard.v
Sdcard.v
Device.v
Paddr.v
Isa.v
RvSpec.v
IsaSelect.v
IsaRefine.v
Difftest.v
Watchpoint.v
Expr.v
ExprSpec.v
Cpu.v
Int64.v
Digits.v
GenExpr.v
KlibMem.v
KlibString.v
KlibStdio.v
KlibStdlib.v
Trace.v
Gdb.v
Sdb.v
Monitor.v
AmBus.v
AmNemu.v
AmOnNemu.v
Bootloader.v
AmNpc.v
AmSoc.v
AmCte.v
MiniRv.v
MiniRvTables.v
MiniRvProof.v
MiniRvOps.v
MiniRvShift.v
MiniRvMain.v
MiniRvBranch.v
NpcDatapath.v
NpcCore.v
NpcArch.v
NpcExec.v
NpcLanes.v
NpcPipe.v
NpcRefine.v
NpcLive.v
NpcCorrect.v
NpcCache.v
NpcMemory.v
NpcSim.v
NpcSimProof.v
NpcNemu.v
NpcDifftest.v
NpcFabric.v
NpcFabricProof.v
NpcFabricInv.v
NpcFabricRun.v
NpcSdb.v
NpcSdbProof.v
NpcSdbDemo.v
NpcFabricSim.v
NpcFabricDemo.v
NpcCacheSim.v
X86Vme.v
X86VmeTree.v
X86VmeWalk.v
X86VmeMap.v
X86VmeFree.v
X86VmeInit.v
X86VmeLife.v
X86VmeDemo.v
