(* ===== verification/Prelude.v ===== *)
(** Verification of the RISCV32 repository: the emulator NEMU ([nemu/]), the processor
    ysyx_25120302 ([npc/]), the abstract machine that programs run on
    ([abstract-machine/]) and its tools.

    * The program

    NEMU interprets 32-bit RISC-V programs. Its memory ([memory/]) sends an address to a
    RAM region or over the I/O bus ([device/io/]) to a device ([device/]); the interpreter
    ([isa/riscv32/]) fetches, decodes by textual patterns ([include/cpu/decode.h]) and
    executes; the engine ([cpu/cpu-exec.c]) repeats this, checks watchpoints and compares
    each step with a reference ([cpu/difftest/]); the debugger ([monitor/sdb/]) evaluates
    expressions, keeps the watchpoints and drives the engine, and the monitor
    ([monitor/monitor.c], [nemu-main.c]) starts it all. Beside it are a generator of test
    expressions ([tools/gen-expr]) and a GDB client that makes QEMU the reference
    ([tools/qemu-diff]).

    The processor ([npc/vsrc/]) is a pipeline of five stages: [IFU] fetches, in the build for
    the SoC through an instruction cache ([ICACHE]), [IDU] decodes, checks hazards and reads
    the registers, [EXU] computes, redirects the fetch and holds the control registers, [LSU]
    accesses the data memory, [WBU] commits. Stages hand over by valid and ready, memories
    answer on AXI channels; in the build [ARCH_NPC] an arbiter and a crossbar lead both ports
    to the memory, the UART and the clock. Its simulator ([npc/csrc/]) clocks it, provides the memory and compares every
    committed instruction with NEMU.

    A guest program is linked with the abstract machine: a C library ([klib/]), one
    platform per target ([am/src/platform/nemu], [am/src/riscv/npc],
    [am/src/riscv/ysyxsoc]) with its trap code and boot loader, and for the smallest
    processor a set of assembler macros that replace most instructions ([tools/minirv]).

    * The model

    The language is C, modelled by a state and error monad ([M] below): a result is [Ok]
    of a value and the next state, or [Abort] with the reason, which is a failed
    assertion, a panic, an exit, or undefined behaviour of C. C integers are [Z] with the
    conversions written out ([wrap], [sgn]); globals and statics are fields of a state
    record; what the host provides is a parameter. Preprocessor options are the fields of
    the class [Config].

    - [Prelude]: this file; record update, machine integers, bytes, the monad, and the
      triples [keeps] and [within] with their hints.
    - [Config], [Macro], [Machine]: the build configuration, [include/macro.h], and the
      state of NEMU with the class [Host] of the outside world (clock, SDL events, SD card
      image, reference simulator).
    - [Decode]: [include/cpu/decode.h].
    - [HostMem], [Region], [Paddr]: [include/memory/host.h], [include/memory/paddr.h],
      [memory/paddr.c] and [vaddr.c].
    - [IoMap]: [device/io/*]; the bus calls the devices through the class [Callbacks], whose
      instance is in [Device] ([device/device.c]) and is made of [DevBasic] (timer, alarm,
      serial, VGA, audio), [Keyboard] and [Sdcard].
    - [Isa]: [isa/riscv32/inst.c], [reg.c], [init.c], [system/*], [hostcall.c]. [RvSpec] is
      an independent specification of RV32IM; [IsaSelect] and [IsaRefine] prove that the
      interpreter implements it.
    - [Difftest], [Cpu]: [cpu/difftest/*], [isa/riscv32/difftest/dut.c], [cpu/cpu-exec.c],
      [utils/state.c].
    - [Watchpoint], [Expr], [ExprSpec], [Trace], [Sdb], [Monitor]: [monitor/sdb/*],
      [monitor/monitor.c], [nemu-main.c].
    - [GenExpr], [Gdb]: [tools/gen-expr/gen-expr.c], [tools/qemu-diff/src/*].
    - [Int64], [Digits], [KlibMem], [KlibString], [KlibStdio], [KlibStdlib]: [klib/src/*].
    - [AmBus], [AmNemu], [AmOnNemu], [AmNpc], [AmSoc], [AmCte], [Bootloader]: the platforms
      over the class [Bus] of loads and stores; [AmOnNemu] instantiates it with the emulator.
    - [MiniRv] and [MiniRvTables] to [MiniRvBranch]: [tools/minirv/inst-replace.h] and
      [gen-lut.c], and the proofs.

    - [NpcDatapath], [NpcCore]: the combinational parts and the stages of [npc/vsrc/]; the
      registers of a stage are a record, a clock edge is a function of the input wires, and
      [cycle] connects the stages as [ysyx_25120302.v] does. [NpcArch] is the sequential
      machine of the instructions of [RvSpec], [NpcExec] and [NpcLanes] show the data path
      and the byte lanes against it, [NpcPipe] and [NpcRefine] hold the invariant that says
      which instruction of the run each stage holds, [NpcLive] the distance to the next
      commit, [NpcCorrect] the theorems. [NpcCache] is [ICACHE.sv] and the processor behind
      it, [NpcMemory] the memory of [npc/csrc/memory.cpp], [NpcCacheSim] the cache
      simulator [npc/tools/cachesim/cachesim.cpp].
    - [NpcFabric]: [Arbiter.sv], [Xbar.sv], [MEM.sv], [UART.sv] and [CLINT.sv] behind the two
      ports, and the whole design [soc_step]. [NpcFabricProof] follows a read and a write
      through it, [NpcFabricInv] has the invariant of processor and fabric, [NpcFabricRun]
      the theorems. [NpcFabricSim] makes the fabric a [Board] of the simulator, and
      [NpcFabricDemo] has a program and a session.
    - [NpcSim]: the simulator that clocks the processor, [npc/csrc/sim_main.cpp],
      [cpu/cpu-exec.cpp] and [cpu/difftest/dut.cpp], over the classes [Board] (the input
      wires) and [DiffRef] (the reference). [NpcSimProof] proves it against the class
      [RefTracks] of what a reference promises; [NpcNemu] shows that the emulator, through
      [nemu/src/cpu/difftest/ref.c], keeps that promise, and [NpcDifftest] puts the two together.
    - [NpcSdb]: its debugger and [main] ([npc/csrc/monitor/], [sim_main.cpp]), which share the
      expression evaluator through the class [Debuggee] of [Expr] and the watchpoint pool;
      [NpcSdbProof] has the specification of a session and the refinement, [NpcSdbDemo] a
      session.
    - [X86Vme]: the virtual memory of the x86 platform, [am/src/x86/qemu/vme.c], for both
      widths. [X86VmeTree] has the translation that the processor makes, the promises of the
      page allocator and the tree of tables, [X86VmeWalk] the walk, [X86VmeMap], [X86VmeFree]
      and [X86VmeInit] the operations, [X86VmeLife] their composition, [X86VmeDemo] an
      allocator and examples.

    * The theorems

    - Virtual memory: the tables of an address space refine a partial function on addresses
      that [map] changes at one page; address spaces do not see each other; [unprotect]
      gives every table back; the kernel is mapped to itself. Hypotheses: the allocator
      hands out pages that nobody has and touches only free ones.
    - Processor: after a reset, for every timing of the memories, the commits are the sequential
      run of the program, with and without the instruction cache; there are at most 23
      cycles per commit and 8 to begin with, not counting those in which a memory leaves the
      handshake unanswered that the oldest instruction needs, if the two channels of a write
      are taken in the same cycle; a write that is split stops it. Hypotheses: the program
      uses the implemented instructions of RV32E with aligned accesses and does not change
      itself; memories answer with the right word. The cache simulator hits exactly when the
      cache does while no flush comes, and at least when it does otherwise.
    - Whole design of the build [ARCH_NPC]: the last hypothesis goes, since arbiter, crossbar
      and memory answer with the right words; commits, terminal and memory are those of the
      sequential run of the program in the memory, with at most 66 cycles per commit, up to
      the first [fence.i], which stops it. Hypotheses: the registers that nothing resets start
      at zero; the program loads from the memory and stores there or bytes to the UART. The
      simulator with its debugger behaves on it as on the sequential machine, for programs
      without [fence.i] and without a zero among the words that may be fetched, which the
      checks of the design take for an error.
    - Processor against emulator: the simulator runs a program to the requested count or
      to its [ebreak] and reports its registers and exit status; with NEMU as the
      reference every comparison of the difftest succeeds, for programs that keep to the
      instructions and the memory that both have, do not change themselves and have no zero
      among the words that may be fetched. From its command line to the exit status,
      any session of the debugger prints what a debugger of the sequential machine prints;
      the memory of the program and the register display are out of its reach.

    - Interpreter: one [isa_exec_once] is one step of [RvSpec] for every word, keeps the
      machine well formed, and aborts on unimplemented words; the pattern test is the
      bitwise fit, and no word fits two patterns but for the last, which fits all.
    - Memory and bus: a load reads what was stored, a store changes nothing else, where
      reads are defined, and MMIO ranges stay disjoint. The keyboard ring is a queue.
    - Engine and debugger: [cpu_exec] keeps the invariant, does not return while running and
      counts at most [n] instructions; the watchpoint pool refines two lists; [expr] ends on
      every string that its array of tokens holds, in a listed way, and computes the value
      of every printed expression, also of those the generator writes unless one has a
      literal 0; every typed input keeps the watchpoints numbered uniquely; [init_monitor]
      leaves the image at the reset vector.
    - Difftest and GDB: which differences a checked step finds, and decoding of every
      encoding of a reply.
    - C library: division against quotient and remainder, [memmove] with overlap, the
      order of [strcmp], the text of [vsprintf] against what C asks for, with the cases in
      which it differs.
    - Platforms: on the emulator the drawn rectangle, the delivered key events and the uptime
      are those of the devices; the PS/2 decoder recovers any event sequence from scan code
      set 2; a thread that yields is resumed with its registers; the boot loader places the
      whole words of every section.
    - Minirv: every expansion computes what [RvSpec] says of the replaced instruction.

    Several theorems state what the code does where it departs from its intent (the
    comparison operators of expressions, the register copy of the reference, a watchpoint
    that overrides the end of a program, the debugger of npc that cannot show memory, the
    instruction fence that never ends, the zero word behind a jump that ends the simulation).

    * Bounds and fuel

    Loops that are not structural take fuel and report undefined behaviour when it runs out; the
    theorems state enough fuel and show the result. [eval] takes one more than the length of
    its range, string loops one more than the number of mapped bytes, list loops the size of
    the pool, [gen_rand_expr] the levels left below 100; [cpu_exec(-1)] is total by
    recursion on the binary count. The polling loops of the platforms end when the device
    answers, which their theorems assume of the clock or prove of the emulated device. The
    loop of the simulator takes one unit of fuel per clock cycle; 8 and 23 for each
    instruction, with the cycles in which a memory lets the processor wait ([stalls]), are
    enough after the reset, 22 and 23 for each instruction from any other state; for the
    whole design 66 and 66 for each instruction.

    * Not modelled

    Printing of traces and logs, [utils/disasm.c] and the libraries behind it (capstone,
    readline, SDL drawing); sockets and processes of the QEMU reference; the kvm and spike
    references; the other instruction sets and platforms, which are templates or unused
    here; the virtual memory of the nemu platform, which the source leaves unfinished; the
    TLB, which the x86 platform flushes by loading [cr3]; the copied GCC files of
    [libgcc]; the vendored kconfig and fixdep; of the processor the performance counters
    and the summary that [main] prints of them, the crossbar to ysyxSoC and its devices, which are a
    submodule; of its simulator the wave file, the traces (copies of those of nemu) and
    NVBoard. [_trm_init] of npc and ysyxsoc prints two control registers before it calls
    [main], which is left out. *)

From Stdlib Require Export ZArith Lia Btauto String.
From stdpp Require Export base gmap list strings.
From coqutil Require Export Z.bitblast.

#[global] Set Default Goal Selector "!".
#[global] Open Scope Z_scope.

(** * Record update

    [x <| f := v |>] is the record [x] with field [f] replaced, and
    [x <| f -> g := v |>] replaces a field of a field. A record type declares its
    eta expansion once ([Eta]); the setter of a field is found from it. *)

Class Eta (R : Type) : Type := eta : R -> R.
Class Setter {R T : Type} (proj : R -> T) : Type := update : (T -> T) -> R -> R.
Arguments update {R T} proj {Setter} f r.

Ltac find_setter :=
  lazymatch goal with
  | |- @Setter ?R ?T ?proj =>
      let e := constr:(_ : Eta R) in
      let e := eval hnf in e in
      lazymatch eval pattern proj in e with
      | ?g _ => let s := eval cbv beta in (fun f : T -> T => g (fun r => f (proj r))) in exact s
      end
  end.
#[export] Hint Extern 1 (@Setter _ _ _) => find_setter : typeclass_instances.

Notation "x <| f := v |>" := (update f (fun _ => v) x)
  (at level 1, f at level 0, v at level 99, left associativity, format "x <| f  :=  v |>").
Notation "x <| f -> g := v |>" := (update f (update g (fun _ => v)) x)
  (at level 1, f at level 0, g at level 0, v at level 99, left associativity,
   format "x <| f -> g  :=  v |>").

(** * Machine integers

    Every C integer of the program is a [Z]; its width is written out where
    the source converts. [wrap n] is conversion to an unsigned [n]-bit type,
    [sgn n] is conversion to a signed (two's complement) [n]-bit type. *)

Definition wrap (n x : Z) : Z := x mod 2 ^ n.
Definition sgn (n x : Z) : Z :=
  let y := wrap n x in if y <? 2 ^ (n - 1) then y else y - 2 ^ n.

Abbreviation u8 := (wrap 8).
Abbreviation u16 := (wrap 16).
Abbreviation u32 := (wrap 32).
Abbreviation u64 := (wrap 64).
Abbreviation s32 := (sgn 32).
Abbreviation s64 := (sgn 64).

(** [in_u n x]: [x] is the value of an unsigned [n]-bit object. *)
Definition in_u (n x : Z) : Prop := 0 <= x < 2 ^ n.

#[global] Instance in_u_dec n x : Decision (in_u n x).
Proof. unfold in_u. apply _. Defined.

(** C truth values as integers. *)
Definition b2z (b : bool) : Z := if b then 1 else 0.

Create HintDb nemu.
Create Rewrite HintDb wraps.

Lemma wrap_range n x : 0 <= n -> 0 <= wrap n x < 2 ^ n.
Proof. intros. apply Z.mod_pos_bound, Z.pow_pos_nonneg; lia. Qed.

Lemma wrap_in_u n x : 0 <= n -> in_u n (wrap n x).
Proof. apply wrap_range. Qed.

Lemma wrap_id n x : in_u n x -> wrap n x = x.
Proof. intros. apply Z.mod_small; done. Qed.

Lemma wrap_wrap n x : wrap n (wrap n x) = wrap n x.
Proof. apply Zmod_mod. Qed.

Lemma wrap_add_l n x y : wrap n (wrap n x + y) = wrap n (x + y).
Proof. apply Zplus_mod_idemp_l. Qed.

Lemma wrap_add_r n x y : wrap n (x + wrap n y) = wrap n (x + y).
Proof. apply Zplus_mod_idemp_r. Qed.

Lemma wrap_sub_l n x y : wrap n (wrap n x - y) = wrap n (x - y).
Proof. apply Zminus_mod_idemp_l. Qed.

Lemma wrap_sub_r n x y : wrap n (x - wrap n y) = wrap n (x - y).
Proof. apply Zminus_mod_idemp_r. Qed.

Lemma wrap_mul_l n x y : wrap n (wrap n x * y) = wrap n (x * y).
Proof. apply Zmult_mod_idemp_l. Qed.

Lemma wrap_mul_r n x y : wrap n (x * wrap n y) = wrap n (x * y).
Proof. apply Zmult_mod_idemp_r. Qed.

Lemma wrap_wrap_le n m x : 0 <= n <= m -> wrap n (wrap m x) = wrap n x.
Proof.
  intros. unfold wrap. replace m with (n + (m - n)) by lia.
  rewrite Z.pow_add_r by lia.
  rewrite Z.rem_mul_r by (apply Z.pow_nonzero || apply Z.pow_pos_nonneg; lia).
  rewrite <- Zplus_mod_idemp_r, Z.mul_comm, Z_mod_mult, Z.add_0_r.
  apply Zmod_mod.
Qed.

Lemma wrap_shift n x k : wrap n (x + k * 2 ^ n) = wrap n x.
Proof. apply Z_mod_plus_full. Qed.

Lemma sgn_range n x : 0 < n -> - 2 ^ (n - 1) <= sgn n x < 2 ^ (n - 1).
Proof.
  intros. unfold sgn. pose proof (wrap_range n x ltac:(lia)).
  assert (2 ^ n = 2 * 2 ^ (n - 1)) by (rewrite <- Z.pow_succ_r by lia; f_equal; lia).
  destruct (Z.ltb_spec (wrap n x) (2 ^ (n - 1))); lia.
Qed.

Lemma wrap_sgn n x : wrap n (sgn n x) = wrap n x.
Proof.
  unfold sgn. destruct (_ <? _); [apply wrap_wrap|].
  replace (wrap n x - 2 ^ n) with (wrap n x + (-1) * 2 ^ n) by ring.
  rewrite wrap_shift. apply wrap_wrap.
Qed.

Lemma sgn_wrap n x : sgn n (wrap n x) = sgn n x.
Proof. unfold sgn. by rewrite wrap_wrap. Qed.

Lemma sgn_id n x : 0 < n -> - 2 ^ (n - 1) <= x < 2 ^ (n - 1) -> sgn n x = x.
Proof.
  intros Hn Hx. unfold sgn, wrap.
  assert (2 ^ n = 2 * 2 ^ (n - 1)) as E by (rewrite <- Z.pow_succ_r by lia; f_equal; lia).
  destruct (Z.ltb_spec x 0).
  - assert (x mod 2 ^ n = x + 2 ^ n) as ->.
    { symmetry. apply Zmod_unique with (-1); lia. }
    destruct (Z.ltb_spec (x + 2 ^ n) (2 ^ (n - 1))); lia.
  - rewrite Z.mod_small by lia. destruct (Z.ltb_spec x (2 ^ (n - 1))); lia.
Qed.

Lemma sgn_small n x : 0 < n -> 0 <= x < 2 ^ (n - 1) -> sgn n x = x.
Proof. intros. apply sgn_id; lia. Qed.

Lemma sgn_congr n x y : wrap n x = wrap n y -> sgn n x = sgn n y.
Proof. intros E. unfold sgn. by rewrite E. Qed.

#[export] Hint Rewrite wrap_wrap wrap_add_l wrap_add_r wrap_sub_l wrap_sub_r
  wrap_mul_l wrap_mul_r wrap_sgn sgn_wrap : wraps.

(** * Words put together from parts *)

Lemma testbit_above y k i : 0 <= y < 2 ^ k -> 0 <= k <= i -> Z.testbit y i = false.
Proof. intros. rewrite <- (Z.mod_small y (2 ^ k)) by done. apply Z.mod_pow2_bits_high. lia. Qed.

Lemma land_high_low a y k : 0 <= k -> 0 <= y < 2 ^ k -> Z.land (a * 2 ^ k) y = 0.
Proof.
  intros Hk Hy. rewrite <- Z.shiftl_mul_pow2 by done. apply Z.bits_inj'. intros i Hi.
  rewrite Z.land_spec, Z.shiftl_spec, Z.bits_0 by done.
  destruct (Z.ltb_spec i k); [by rewrite Z.testbit_neg_r by lia|].
  rewrite (testbit_above y k i) by lia. apply andb_false_r.
Qed.

Lemma lor_add a y k : 0 <= k -> 0 <= y < 2 ^ k -> Z.lor (a * 2 ^ k) y = a * 2 ^ k + y.
Proof.
  intros Hk Hy. pose proof (land_high_low a y k Hk Hy) as E.
  rewrite <- Z.lxor_lor by done. symmetry. by apply Z.add_nocarry_lxor.
Qed.

Lemma lor_shiftl_add a k y : 0 <= k -> 0 <= y < 2 ^ k -> Z.lor (Z.shiftl a k) y = a * 2 ^ k + y.
Proof. intros. rewrite Z.shiftl_mul_pow2 by done. by apply lor_add. Qed.

(** * Little-endian byte sequences *)

Fixpoint le_split (n : nat) (x : Z) : list Z :=
  match n with
  | O => []
  | S n => u8 x :: le_split n (x / 256)
  end.

Fixpoint le_combine (bs : list Z) : Z :=
  match bs with
  | [] => 0
  | b :: bs => b + 256 * le_combine bs
  end.

Lemma length_le_split n x : length (le_split n x) = n.
Proof. revert x; induction n; intros; simpl; auto. Qed.

Lemma le_combine_split n x : le_combine (le_split n x) = wrap (8 * Z.of_nat n) x.
Proof.
  revert x; induction n as [|n IH]; intros x.
  - unfold wrap. simpl. by rewrite Z.mod_1_r.
  - cbn [le_split le_combine]. rewrite IH. unfold wrap.
    replace (8 * Z.of_nat (S n)) with (8 + 8 * Z.of_nat n) by lia.
    rewrite Z.pow_add_r by lia. change (2 ^ 8) with 256.
    by rewrite Z.rem_mul_r by lia.
Qed.

Lemma le_combine_range bs :
  Forall (in_u 8) bs -> in_u (8 * Z.of_nat (length bs)) (le_combine bs).
Proof.
  unfold in_u. induction 1 as [|b bs Hb _ IH]; cbn [le_combine length]; [lia|].
  replace (8 * Z.of_nat (S (length bs))) with (8 + 8 * Z.of_nat (length bs)) by lia.
  rewrite Z.pow_add_r by lia. change (2 ^ 8) with 256 in *. nia.
Qed.

Lemma le_split_bytes n x : Forall (in_u 8) (le_split n x).
Proof. revert x; induction n; intros; cbn; constructor; auto. by apply wrap_in_u. Qed.

Lemma le_split_combine bs :
  Forall (in_u 8) bs -> le_split (length bs) (le_combine bs) = bs.
Proof.
  induction 1 as [|b bs Hb _ IH]; cbn [le_combine length le_split]; [done|].
  unfold in_u in Hb. change (2 ^ 8) with 256 in *.
  f_equal.
  - unfold wrap. change (2 ^ 8) with 256.
    rewrite Z.mul_comm, Z_mod_plus_full. apply Z.mod_small; lia.
  - rewrite Z.mul_comm, Z.div_add, Z.div_small, Z.add_0_l by lia. done.
Qed.

(** * Results of code that may stop

    A call of the program returns a value, or the process stops: an [Assert]
    or [panic] of the source ([AAssert], [APanic]), or an execution that C
    leaves undefined ([AUndef]: an access outside an object, a division by
    zero). *)

Inductive abort : Type :=
| APanic (msg : string)
| AAssert (cond : string)
| AUndef (why : string).

Inductive result (A : Type) : Type :=
| Ok (a : A)
| Abort (e : abort).
Arguments Ok {A} a.
Arguments Abort {A} e.

#[global] Instance abort_eq_dec : EqDecision abort.
Proof. solve_decision. Defined.

(** Computations without state that may stop. *)
#[global] Instance result_ret : MRet result := fun A a => Ok a.
#[global] Instance result_bind : MBind result := fun A B f m =>
  match m with Ok a => f a | Abort e => Abort e end.

Definition is_ok {A} (r : result A) : bool := match r with Ok _ => true | Abort _ => false end.

(** State-passing computations that may stop. *)
Definition M (S A : Type) : Type := S -> result (A * S).

#[global] Instance M_ret {S} : MRet (M S) := fun A a s => Ok (a, s).
#[global] Instance M_bind {S} : MBind (M S) := fun A B f m s =>
  match m s with
  | Ok (a, s') => f a s'
  | Abort e => Abort e
  end.

Definition get {S} : M S S := fun s => Ok (s, s).
Definition gets {S A} (f : S -> A) : M S A := fun s => Ok (f s, s).
Definition modify {S} (f : S -> S) : M S unit := fun s => Ok (tt, f s).
Definition stop {S A} (e : abort) : M S A := fun _ => Abort e.
Definition panic {S A} (msg : string) : M S A := stop (APanic msg).
Definition undef {S A} (why : string) : M S A := stop (AUndef why).
(** [assert(cond)]. *)
Definition c_assert {S} (cond : bool) (text : string) : M S unit :=
  if cond then mret tt else stop (AAssert text).
Definition when {S} (b : bool) (m : M S unit) : M S unit := if b then m else mret tt.

(** The state a computation ends in ([s] when it stops); used on closed terms. *)
Definition final {S A} (m : M S A) (s : S) : S :=
  match m s with Ok (_, s') => s' | Abort _ => s end.

Lemma bind_Ok {S A B} (m : M S A) (f : A -> M S B) s b s'' :
  (m ≫= f) s = Ok (b, s'') <->
  exists a s', m s = Ok (a, s') /\ f a s' = Ok (b, s'').
Proof.
  unfold mbind, M_bind. split.
  - destruct (m s) as [[a s']|e]; [|done]. eauto.
  - intros (a & s' & -> & ?). done.
Qed.

Lemma bind_run {S A B} (m : M S A) (f : A -> M S B) s a s' :
  m s = Ok (a, s') -> (m ≫= f) s = f a s'.
Proof. unfold mbind, M_bind. by intros ->. Qed.

Lemma bind_abort {S A B} (m : M S A) (f : A -> M S B) s e :
  m s = Abort e -> (m ≫= f) s = Abort e.
Proof. unfold mbind, M_bind. by intros ->. Qed.

Lemma bind_assoc {S A B C} (m : M S A) (f : A -> M S B) (g : B -> M S C) s :
  ((m ≫= f) ≫= g) s = (m ≫= fun a => f a ≫= g) s.
Proof. unfold mbind, M_bind. by destruct (m s) as [[a s']|]. Qed.

Lemma c_assert_Ok {S} b text (s s' : S) u :
  c_assert b text s = Ok (u, s') <-> b = true /\ s' = s.
Proof.
  unfold c_assert. destruct u, b; cbn; split.
  - by intros [= ->].
  - by intros [_ ->].
  - done.
  - by intros [? _].
Qed.

(** ** Hoare triples for partial correctness *)

Definition triple {S A} (P : S -> Prop) (m : M S A) (Q : A -> S -> Prop) : Prop :=
  forall s, P s -> match m s with Ok (a, s') => Q a s' | Abort _ => True end.

(** [m] keeps the invariant [I]. *)
Definition keeps {S A} (I : S -> Prop) (m : M S A) : Prop := triple I m (fun _ => I).

Lemma triple_use {S A} (P : S -> Prop) (m : M S A) Q s a s' :
  triple P m Q -> P s -> m s = Ok (a, s') -> Q a s'.
Proof. intros H HP E. specialize (H s HP). by rewrite E in H. Qed.

Lemma keeps_use {S A} (I : S -> Prop) (m : M S A) s a s' :
  keeps I m -> I s -> m s = Ok (a, s') -> I s'.
Proof. intros H HI E. specialize (H s HI). by rewrite E in H. Qed.

Lemma triple_intro {S A} (P : S -> Prop) (m : M S A) Q :
  (forall s a s', P s -> m s = Ok (a, s') -> Q a s') -> triple P m Q.
Proof. intros H s HP. destruct (m s) as [[a s']|] eqn:E; eauto. Qed.

Lemma triple_bind {S A B} P (m : M S A) (f : A -> M S B) R Q :
  triple P m R -> (forall a, triple (R a) (f a) Q) -> triple P (m ≫= f) Q.
Proof.
  intros Hm Hf s HP. unfold mbind, M_bind. specialize (Hm s HP).
  destruct (m s) as [[a s']|]; [|done]. by apply Hf.
Qed.

Lemma triple_conseq {S A} P P' (m : M S A) Q Q' :
  triple P' m Q' -> (forall s, P s -> P' s) -> (forall a s, Q' a s -> Q a s) -> triple P m Q.
Proof.
  intros H HP HQ s Hs. specialize (H s (HP s Hs)).
  destruct (m s) as [[a s']|]; auto.
Qed.

Lemma triple_ret {S A} P (a : A) (Q : A -> S -> Prop) :
  (forall s, P s -> Q a s) -> triple P (mret a) Q.
Proof. intros H s Hs. by apply H. Qed.

Lemma triple_stop {S A} P e (Q : A -> S -> Prop) : triple P (stop e) Q.
Proof. intros s ?. exact I. Qed.

Lemma keeps_ret {S A} I (a : A) : keeps (S:=S) I (mret a).
Proof. intros s ?. done. Qed.

Lemma keeps_stop {S A} (J : S -> Prop) e : keeps (A:=A) J (stop e).
Proof. intros s ?. exact I. Qed.

Lemma keeps_panic {S A} (J : S -> Prop) msg : keeps (A:=A) J (panic msg).
Proof. intros s ?. exact I. Qed.

Lemma keeps_undef {S A} (J : S -> Prop) msg : keeps (A:=A) J (undef msg).
Proof. intros s ?. exact I. Qed.

Lemma keeps_assert {S} (I : S -> Prop) b msg : keeps I (c_assert b msg).
Proof. intros s Hs. by destruct b. Qed.

Lemma keeps_get {S} (I : S -> Prop) : keeps I get.
Proof. intros s ?. done. Qed.

Lemma keeps_gets {S A} (I : S -> Prop) (f : S -> A) : keeps I (gets f).
Proof. intros s ?. done. Qed.

Lemma keeps_when {S} (I : S -> Prop) b m : keeps I m -> keeps I (when b m).
Proof. intros. destruct b; [done|]. apply keeps_ret. Qed.

Lemma keeps_bind {S A B} I (m : M S A) (f : A -> M S B) :
  keeps I m -> (forall a, keeps I (f a)) -> keeps I (m ≫= f).
Proof. intros. by eapply triple_bind. Qed.

Lemma keeps_modify {S} (I : S -> Prop) f : (forall s, I s -> I (f s)) -> keeps I (modify f).
Proof. intros H s Hs. by apply H. Qed.

#[export] Hint Resolve keeps_ret keeps_stop keeps_panic keeps_undef keeps_assert keeps_get
  keeps_gets keeps_when : nemu.

(** ** Frame relations: [m] relates its start state to its end state by [R] *)

Definition within {S A} (R : S -> S -> Prop) (m : M S A) : Prop :=
  forall s a s', m s = Ok (a, s') -> R s s'.

Section Within.
Context {S : Type} (R : S -> S -> Prop) `{!Reflexive R} `{!Transitive R}.

Lemma within_ret {A} (a : A) : within R (mret a).
Proof. intros s ? s' H. by inversion H. Qed.

Lemma within_stop {A} e : within R (stop (A:=A) e).
Proof. intros s ? s' H. by inversion H. Qed.

Lemma within_assert b t : within R (c_assert b t).
Proof. intros s u s' H. by apply c_assert_Ok in H as [_ ->]. Qed.

Lemma within_get : within R get.
Proof. intros s ? s' H. by inversion H. Qed.

Lemma within_gets {A} (f : S -> A) : within R (gets f).
Proof. intros s ? s' H. by inversion H. Qed.

Lemma within_bind {A B} (m : M S A) (f : A -> M S B) :
  within R m -> (forall a, within R (f a)) -> within R (m ≫= f).
Proof.
  intros Hm Hf s b s'' H. apply bind_Ok in H as (a & s' & H1 & H2).
  transitivity s'; [by eapply Hm|by eapply Hf].
Qed.

Lemma within_modify f : (forall s, R s (f s)) -> within R (modify f).
Proof. intros Hf s ? s' H. inversion H. subst. apply Hf. Qed.

End Within.

(** * Tactics *)

(** Invert every equation [m s = Ok _] of the context that is a [bind]. *)
Ltac inv_ok :=
  repeat match goal with
  | H : (_ ≫= _) _ = Ok _ |- _ =>
      let a := fresh "a" in let s := fresh "s" in
      let H1 := fresh "Hm" in let H2 := fresh "Hk" in
      apply bind_Ok in H as (a & s & H1 & H2)
  | H : mret _ _ = Ok _ |- _ => unfold mret, M_ret in H
  | H : get _ = Ok _ |- _ => unfold get in H
  | H : gets _ _ = Ok _ |- _ => unfold gets in H
  | H : modify _ _ = Ok _ |- _ => unfold modify in H
  | H : c_assert _ _ _ = Ok _ |- _ =>
      let E := fresh "Ha" in apply c_assert_Ok in H as [E H]
  | H : stop _ _ = Ok _ |- _ => discriminate H
  | H : panic _ _ = Ok _ |- _ => discriminate H
  | H : undef _ _ = Ok _ |- _ => discriminate H
  | H : Ok _ = Ok _ |- _ => injection H; clear H; intros
  | H : ?x = ?y |- _ => is_var y; subst y
  | H : ?x = ?y |- _ => is_var x; subst x
  | H : Abort _ = Ok _ |- _ => discriminate H
  end.

(** The same, with a case split on the conditionals that are run. *)
Ltac inv_all :=
  repeat (inv_ok;
    match goal with
    | H : (if ?b then _ else _) _ = Ok _ |- _ => let E := fresh "Hb" in destruct b eqn:E
    end); inv_ok.

(** Structural proof that a computation keeps an invariant. *)
Ltac keeps_step :=
  match goal with
  | |- keeps _ (_ ≫= _) => apply keeps_bind; [|intros ?]
  | |- keeps _ (modify _) => apply keeps_modify; intros ? ?
  | |- keeps _ (match ?x with _ => _ end) => destruct x
  | |- keeps _ (if ?x then _ else _) => destruct x
  | |- keeps _ _ => solve [auto with nemu]
  end.
Ltac keeps := repeat keeps_step.

(** Structural proof that a computation stays within a frame relation. *)
Ltac within_step :=
  match goal with
  | |- within _ (_ ≫= _) => apply within_bind; [apply _| |intros ?]
  | |- within _ (mret _) => apply within_ret; apply _
  | |- within _ (c_assert _ _) => apply within_assert; apply _
  | |- within _ get => apply within_get; apply _
  | |- within _ (gets _) => apply within_gets; apply _
  | |- within _ (stop _) => apply within_stop
  | |- within _ (panic _) => apply within_stop
  | |- within _ (undef _) => apply within_stop
  | |- within _ (when _ _) => unfold when
  | |- within _ (match ?x with _ => _ end) => destruct x
  | |- within _ (if ?x then _ else _) => destruct x
  | |- within _ _ => solve [auto with nemu]
  end.
Ltac within := repeat within_step.

(** Case split on the outcome of [m s], run on both sides of an equation. *)
Ltac run_case m s :=
  let E := fresh "E" in
  destruct (m s) as [[? ?]|?] eqn:E;
  [rewrite ?(bind_run _ _ _ _ _ E) in *|rewrite ?(bind_abort _ _ _ _ E) in *].

(** Case split on a boolean comparison of [Z]. *)
Ltac zcase :=
  match goal with
  | |- context [?x <? ?y] => destruct (Z.ltb_spec x y)
  | |- context [?x <=? ?y] => destruct (Z.leb_spec x y)
  | |- context [?x =? ?y] => destruct (Z.eqb_spec x y)
  end.

(** Linear goals with quotients and remainders. *)
Ltac dlia := Z.to_euclidean_division_equations; lia.

(** Turn the boolean comparisons of the hypotheses into propositions. *)
Ltac breflect :=
  repeat match goal with
  | H : _ && _ = true |- _ => apply andb_true_iff in H as [? ?]
  | H : _ || _ = false |- _ => apply orb_false_iff in H as [? ?]
  | H : negb _ = true |- _ => apply negb_true_iff in H
  | H : negb _ = false |- _ => apply negb_false_iff in H
  | H : (_ <? _) = true |- _ => apply Z.ltb_lt in H
  | H : (_ <? _) = false |- _ => apply Z.ltb_ge in H
  | H : (_ <=? _) = true |- _ => apply Z.leb_le in H
  | H : (_ <=? _) = false |- _ => apply Z.leb_gt in H
  | H : (_ =? _) = true |- _ => apply Z.eqb_eq in H
  | H : (_ =? _) = false |- _ => apply Z.eqb_neq in H
  end.
