(* ===== verification/Config.v ===== *)
(** Build configuration of NEMU.

    The Kconfig options that select code by preprocessing are fields of the
    class [Config]; a definition guarded by [#ifdef] in the source tests the
    field. The development covers the 32-bit RISC-V build ([CONFIG_ISA_riscv]
    without [CONFIG_RV64]) for a native target: [word_t], [vaddr_t] and
    [paddr_t] are [uint32_t]. The trace options that only print
    ([ITRACE], [MTRACE], [DTRACE], [FTRACE], [ETRACE]) are off. *)

From S2P Require Import Prelude.

Class Config : Type := {
  CONFIG_RVE : bool;
  CONFIG_RT_CHECK : bool;
  CONFIG_TARGET_SHARE : bool;
  CONFIG_PC_TRACE : bool;
  CONFIG_BRANCH_TRACE : bool;
  CONFIG_DEVICE : bool;
  CONFIG_DIFFTEST : bool;
  CONFIG_WATCHPOINT : bool;
  CONFIG_MEM_RANDOM : bool;
  CONFIG_HAS_PORT_IO : bool;
  CONFIG_HAS_SERIAL : bool;
  CONFIG_HAS_TIMER : bool;
  CONFIG_HAS_VGA : bool;
  CONFIG_HAS_KEYBOARD : bool;
  CONFIG_HAS_AUDIO : bool;
  CONFIG_HAS_DISK : bool;
  CONFIG_HAS_SDCARD : bool;
  CONFIG_VGA_SHOW_SCREEN : bool;
  CONFIG_VGA_SIZE_800x600 : bool;
  CONFIG_MBASE : Z;  CONFIG_MSIZE : Z;
  CONFIG_PC_RESET_OFFSET : Z;
  CONFIG_MROM_BASE : Z;  CONFIG_MROM_SIZE : Z;
  CONFIG_SRAM_BASE : Z;  CONFIG_SRAM_SIZE : Z;
  CONFIG_FLASH_BASE : Z;  CONFIG_FLASH_SIZE : Z;
  CONFIG_PSRAM_BASE : Z;  CONFIG_PSRAM_SIZE : Z;
  CONFIG_SDRAM_BASE : Z;  CONFIG_SDRAM_SIZE : Z;
  CONFIG_SERIAL_MMIO : Z;
  CONFIG_RTC_MMIO : Z;
  CONFIG_I8042_DATA_MMIO : Z;
  CONFIG_FB_ADDR : Z;
  CONFIG_VGA_CTL_MMIO : Z;
  CONFIG_SB_ADDR : Z;  CONFIG_SB_SIZE : Z;
  CONFIG_AUDIO_CTL_MMIO : Z;
  CONFIG_SDCARD_CTL_MMIO : Z;
  CONFIG_SERIAL_PORT : Z;
  CONFIG_RTC_PORT : Z;
  CONFIG_I8042_DATA_PORT : Z;
  CONFIG_VGA_CTL_PORT : Z;
  CONFIG_AUDIO_CTL_PORT : Z;
}.

(** The defaults of [nemu/Kconfig], [src/memory/Kconfig] and
    [src/device/Kconfig], with the device and difftest switches open and memory that
    starts at zero. *)
Definition kconfig (share device difftest : bool) : Config := {|
  CONFIG_RVE := false;
  CONFIG_RT_CHECK := true;
  CONFIG_TARGET_SHARE := share;
  CONFIG_PC_TRACE := false;
  CONFIG_BRANCH_TRACE := false;
  CONFIG_DEVICE := device;
  CONFIG_DIFFTEST := difftest;
  CONFIG_WATCHPOINT := true;
  CONFIG_MEM_RANDOM := false;
  CONFIG_HAS_PORT_IO := false;
  CONFIG_HAS_SERIAL := true;
  CONFIG_HAS_TIMER := true;
  CONFIG_HAS_VGA := true;
  CONFIG_HAS_KEYBOARD := true;
  CONFIG_HAS_AUDIO := true;
  CONFIG_HAS_DISK := true;
  CONFIG_HAS_SDCARD := false;
  CONFIG_VGA_SHOW_SCREEN := true;
  CONFIG_VGA_SIZE_800x600 := false;
  CONFIG_MBASE := 0x80000000;  CONFIG_MSIZE := 0x2000000;
  CONFIG_PC_RESET_OFFSET := 0;
  CONFIG_MROM_BASE := 0x20000000;  CONFIG_MROM_SIZE := 0x1000;
  CONFIG_SRAM_BASE := 0x0f000000;  CONFIG_SRAM_SIZE := 0x2000;
  CONFIG_FLASH_BASE := 0x30000000;  CONFIG_FLASH_SIZE := 0x10000000;
  CONFIG_PSRAM_BASE := 0x80000000;  CONFIG_PSRAM_SIZE := 0x20000000;
  CONFIG_SDRAM_BASE := 0xa0000000;  CONFIG_SDRAM_SIZE := 0x20000000;
  CONFIG_SERIAL_MMIO := 0xa00003f8;
  CONFIG_RTC_MMIO := 0xa0000048;
  CONFIG_I8042_DATA_MMIO := 0xa0000060;
  CONFIG_FB_ADDR := 0xa1000000;
  CONFIG_VGA_CTL_MMIO := 0xa0000100;
  CONFIG_SB_ADDR := 0xa1200000;  CONFIG_SB_SIZE := 0x10000;
  CONFIG_AUDIO_CTL_MMIO := 0xa0000200;
  CONFIG_SDCARD_CTL_MMIO := 0xa3000000;
  CONFIG_SERIAL_PORT := 0x3f8;
  CONFIG_RTC_PORT := 0x48;
  CONFIG_I8042_DATA_PORT := 0x60;
  CONFIG_VGA_CTL_PORT := 0x100;
  CONFIG_AUDIO_CTL_PORT := 0x200;
|}.

(** The [#if] that selects the SoC memory map in [paddr.c] and [paddr.h]. *)
Definition soc_memory `{Config} : bool :=
  CONFIG_TARGET_SHARE || CONFIG_PC_TRACE || CONFIG_BRANCH_TRACE.

(** The constraints a configuration meets for the 32-bit build: every memory
    region is a non-empty range of 32-bit addresses ([PMEM64] is undefined). *)
Definition region_ok (base size : Z) : Prop := 0 <= base /\ 0 < size /\ base + size <= 2 ^ 32.

#[global] Instance region_ok_dec base size : Decision (region_ok base size).
Proof. unfold region_ok. apply _. Defined.

Definition config_ok `{Config} : Prop :=
  region_ok CONFIG_MBASE CONFIG_MSIZE /\ region_ok CONFIG_MROM_BASE CONFIG_MROM_SIZE /\
  region_ok CONFIG_SRAM_BASE CONFIG_SRAM_SIZE /\ region_ok CONFIG_FLASH_BASE CONFIG_FLASH_SIZE /\
  region_ok CONFIG_PSRAM_BASE CONFIG_PSRAM_SIZE /\ region_ok CONFIG_SDRAM_BASE CONFIG_SDRAM_SIZE /\
  0 <= CONFIG_PC_RESET_OFFSET < CONFIG_MSIZE.

#[global] Instance config_ok_dec `{Config} : Decision config_ok.
Proof. unfold config_ok. apply _. Defined.
