(* ===== verification/Macro.v ===== *)
(** The bit macros of [nemu/include/macro.h]: [BITMASK], [BITS], [SEXT],
    [ROUNDUP] and [ROUNDDOWN], at the widths C gives them. *)

From S2P Require Import Prelude.

Definition BITMASK (bits : Z) : Z := u64 (Z.shiftl 1 bits - 1).
Definition BITS (x hi lo : Z) : Z := Z.land (Z.shiftr x lo) (BITMASK (hi - lo + 1)).
(** A store to an [int64_t] bit-field of [len] bits, read back as [uint64_t]. *)
Definition SEXT (x len : Z) : Z := u64 (sgn len x).
Definition ROUNDUP (a sz : Z) : Z := Z.land (u64 (a + sz - 1)) (u64 (Z.lnot (sz - 1))).
Definition ROUNDDOWN (a sz : Z) : Z := Z.land (u64 a) (u64 (Z.lnot (sz - 1))).

Lemma BITMASK_ones bits : 0 <= bits < 64 -> BITMASK bits = Z.ones bits.
Proof.
  intros. unfold BITMASK. rewrite Z.shiftl_1_l, Z.ones_equiv, <- Z.sub_1_r.
  apply wrap_id. unfold in_u.
  pose proof (Z.pow_pos_nonneg 2 bits). pose proof (Z.pow_le_mono_r 2 bits 64). lia.
Qed.

Lemma BITS_div x hi lo :
  0 <= lo <= hi -> hi - lo < 63 -> BITS x hi lo = (x / 2 ^ lo) mod 2 ^ (hi - lo + 1).
Proof.
  intros. unfold BITS. rewrite BITMASK_ones by lia.
  rewrite Z.land_ones, Z.shiftr_div_pow2 by lia. done.
Qed.

Lemma BITS_range x hi lo :
  0 <= lo <= hi -> hi - lo < 63 -> 0 <= BITS x hi lo < 2 ^ (hi - lo + 1).
Proof. intros. rewrite BITS_div by lia. apply Z.mod_pos_bound, Z.pow_pos_nonneg; lia. Qed.

Lemma BITS_testbit x hi lo i :
  0 <= lo <= hi -> hi - lo < 63 -> 0 <= i ->
  Z.testbit (BITS x hi lo) i = (i <=? hi - lo) && Z.testbit x (i + lo).
Proof.
  intros. unfold BITS. rewrite BITMASK_ones by lia.
  rewrite Z.land_spec, Z.shiftr_spec, Z.testbit_ones_nonneg by lia.
  rewrite andb_comm. f_equal. destruct (Z.ltb_spec i (hi - lo + 1)), (Z.leb_spec i (hi - lo)); lia.
Qed.

Lemma SEXT_u32 x len : 0 < len <= 32 -> u32 (SEXT x len) = u32 (sgn len x).
Proof. intros. unfold SEXT. apply wrap_wrap_le. lia. Qed.

(** Rounding to a power of two. *)
Lemma land_lnot_mask a k : 0 <= k < 64 -> 0 <= a < 2 ^ 64 ->
  Z.land a (u64 (Z.lnot (2 ^ k - 1))) = a - a mod 2 ^ k.
Proof.
  intros Hk Ha. transitivity (Z.ldiff a (Z.ones k)).
  - apply Z.bits_inj'. intros i Hi. unfold wrap.
    rewrite Z.land_spec, Z.ldiff_spec, Z.testbit_mod_pow2, Z.lnot_spec by lia.
    rewrite <- Z.sub_1_r, Z.ones_equiv || rewrite Z.sub_1_r, <- Z.ones_equiv.
    destruct (Z.ltb_spec i 64); [done|].
    rewrite (Z.bits_above_log2 a i); [done|lia|].
    destruct (decide (a = 0)); [subst; simpl; lia|]. apply Z.log2_lt_pow2; [lia|].
    pose proof (Z.pow_le_mono_r 2 64 i). lia.
  - rewrite Z.ldiff_ones_r, Z.shiftl_mul_pow2, Z.shiftr_div_pow2 by lia.
    pose proof (Z.div_mod a (2 ^ k) ltac:(apply Z.pow_nonzero; lia)). lia.
Qed.
