(* ===== verification/Decode.v ===== *)
(** The instruction pattern mechanism of [nemu/include/cpu/decode.h]:
    [pattern_decode], [pattern_decode_hex] and the test of [INSTPAT].

    The loops of the source are unrolled by [macro64] / [macro16] over a
    pattern string of known length; here they run over the characters of the
    string, with the number of unrolled copies as fuel. [instpat_match_spec]
    shows that the shifted key/mask comparison decides, bit by bit, whether
    the word fits the pattern. *)

From S2P Require Import Prelude.
From Stdlib Require Import Ascii.

Local Open Scope char_scope.
Local Open Scope Z_scope.

(** [macro(i)] of [pattern_decode] for [i = 0 .. 63]. *)
Fixpoint pattern_loop (fuel : nat) (str : list ascii) (key mask shift : Z)
    : result (Z * Z * Z) :=
  match fuel with
  | O => Abort (APanic "pattern too long")
  | S fuel =>
      match str with
      | [] => Ok (Z.shiftr key shift, Z.shiftr mask shift, shift)
      | c :: str =>
          if Ascii.eqb c " " then pattern_loop fuel str key mask shift
          else if Ascii.eqb c "0" || Ascii.eqb c "1" || Ascii.eqb c "?" then
            pattern_loop fuel str
              (Z.lor (u64 (Z.shiftl key 1)) (if Ascii.eqb c "1" then 1 else 0))
              (Z.lor (u64 (Z.shiftl mask 1)) (if Ascii.eqb c "?" then 0 else 1))
              (if Ascii.eqb c "?" then u64 (shift + 1) else 0)
          else Abort (APanic "invalid character in pattern string")
      end
  end.

Definition pattern_decode (str : string) : result (Z * Z * Z) :=
  pattern_loop 64 (list_ascii_of_string str) 0 0 0.

Definition is_dec_digit (c : ascii) : bool :=
  (48 <=? Z.of_nat (nat_of_ascii c)) && (Z.of_nat (nat_of_ascii c) <=? 57).
Definition is_hex_lower (c : ascii) : bool :=
  (97 <=? Z.of_nat (nat_of_ascii c)) && (Z.of_nat (nat_of_ascii c) <=? 102).
(** [c == '?' ? 0 : (c is a decimal digit) ? c - '0' : c - 'a' + 10]. *)
Definition hex_digit (c : ascii) : Z :=
  if Ascii.eqb c "?" then 0
  else if is_dec_digit c then Z.of_nat (nat_of_ascii c) - 48
  else Z.of_nat (nat_of_ascii c) - 97 + 10.

(** [macro(i)] of [pattern_decode_hex] for [i = 0 .. 15]. *)
Fixpoint pattern_hex_loop (fuel : nat) (str : list ascii) (key mask shift : Z)
    : result (Z * Z * Z) :=
  match fuel with
  | O => Abort (APanic "pattern too long")
  | S fuel =>
      match str with
      | [] => Ok (Z.shiftr key shift, Z.shiftr mask shift, shift)
      | c :: str =>
          if Ascii.eqb c " " then pattern_hex_loop fuel str key mask shift
          else if is_dec_digit c || is_hex_lower c || Ascii.eqb c "?" then
            pattern_hex_loop fuel str
              (Z.lor (u64 (Z.shiftl key 4)) (hex_digit c))
              (Z.lor (u64 (Z.shiftl mask 4)) (if Ascii.eqb c "?" then 0 else 15))
              (if Ascii.eqb c "?" then u64 (shift + 4) else 0)
          else Abort (APanic "invalid character in pattern string")
      end
  end.

Definition pattern_decode_hex (str : string) : result (Z * Z * Z) :=
  pattern_hex_loop 16 (list_ascii_of_string str) 0 0 0.

(** The condition of [INSTPAT]:
    [(((uint64_t)INSTPAT_INST(s) >> shift) & mask) == key]. *)
Definition instpat_test (kms : Z * Z * Z) (inst : Z) : bool :=
  let '(key, mask, shift) := kms in Z.land (Z.shiftr (u64 inst) shift) mask =? key.

Definition instpat_match (pattern : string) (inst : Z) : result bool :=
  match pattern_decode pattern with
  | Ok kms => Ok (instpat_test kms inst)
  | Abort e => Abort e
  end.

(** * What a pattern means *)

(** The characters of a pattern that stand for bits, most significant first. *)
Definition pattern_chars (str : string) : list ascii :=
  List.filter (fun c => negb (Ascii.eqb c " ")) (list_ascii_of_string str).

Definition pattern_char (c : ascii) : bool :=
  Ascii.eqb c "0" || Ascii.eqb c "1" || Ascii.eqb c "?" || Ascii.eqb c " ".

(** A pattern the macros accept: at most 63 characters, all of them legal. *)
Definition pattern_ok (str : string) : bool :=
  (length (list_ascii_of_string str) <? 64)%nat &&
  forallb pattern_char (list_ascii_of_string str).

(** [cs], least significant bit first, fits the low bits of [inst]. *)
Fixpoint bits_fit (cs : list ascii) (inst : Z) : bool :=
  match cs with
  | [] => true
  | c :: cs =>
      (Ascii.eqb c "?" || Bool.eqb (Z.testbit inst 0) (Ascii.eqb c "1")) &&
      bits_fit cs (inst / 2)
  end.

(** Key and mask of a character list, least significant bit first. *)
Fixpoint key_of (cs : list ascii) : Z :=
  match cs with
  | [] => 0
  | c :: cs => 2 * key_of cs + (if Ascii.eqb c "1" then 1 else 0)
  end.
Fixpoint mask_of (cs : list ascii) : Z :=
  match cs with
  | [] => 0
  | c :: cs => 2 * mask_of cs + (if Ascii.eqb c "?" then 0 else 1)
  end.
Fixpoint shift_of (cs : list ascii) : Z :=
  match cs with
  | [] => 0
  | c :: cs => if Ascii.eqb c "?" then shift_of cs + 1 else 0
  end.

Lemma key_of_range cs : 0 <= key_of cs < 2 ^ Z.of_nat (length cs).
Proof.
  induction cs; cbn [key_of length]; [lia|].
  rewrite Nat2Z.inj_succ, Z.pow_succ_r by lia. destruct (Ascii.eqb a "1"); lia.
Qed.

Lemma mask_of_range cs : 0 <= mask_of cs < 2 ^ Z.of_nat (length cs).
Proof.
  induction cs; cbn [mask_of length]; [lia|].
  rewrite Nat2Z.inj_succ, Z.pow_succ_r by lia. destruct (Ascii.eqb a "?"); lia.
Qed.

Lemma shift_of_range cs : 0 <= shift_of cs <= Z.of_nat (length cs).
Proof. induction cs; cbn [shift_of length]; [lia|]. destruct (Ascii.eqb a "?"); lia. Qed.

(** One step of the loop appends a bit at the least significant end. *)
Lemma shl1_or x b : in_u 63 x -> (b = 0 \/ b = 1) ->
  Z.lor (u64 (Z.shiftl x 1)) b = 2 * x + b.
Proof.
  unfold in_u. intros Hx Hb. rewrite Z.shiftl_mul_pow2 by lia. change (2 ^ 1) with 2.
  rewrite wrap_id by (unfold in_u; lia).
  replace (x * 2) with (2 * x) by ring.
  destruct Hb as [-> | ->].
  - rewrite Z.lor_0_r. lia.
  - replace (2 * x + 1) with (Z.lor (2 * x) 1); [done|].
    destruct x as [|p|p]; [done|done|lia].
Qed.

Lemma pattern_loop_spec fuel str done :
  (length str < fuel)%nat -> (length done + length str < 64)%nat ->
  forallb pattern_char str = true ->
  pattern_loop fuel str (key_of done) (mask_of done) (shift_of done) =
  let cs := List.rev (List.filter (fun c => negb (Ascii.eqb c " ")) str) ++ done in
  Ok (Z.shiftr (key_of cs) (shift_of cs), Z.shiftr (mask_of cs) (shift_of cs), shift_of cs).
Proof.
  revert str done. induction fuel as [|fuel IH]; intros str done Hf Hl Hok; [simpl in Hf; lia|].
  destruct str as [|c str]; [done|]. cbn [length] in *.
  cbn [forallb] in Hok. apply andb_true_iff in Hok as [Hc Hok].
  cbn [pattern_loop List.filter]. destruct (Ascii.eqb_spec c " ") as [->|Hsp].
  { cbn [negb]. rewrite IH by (auto; lia). done. }
  cbn [negb]. unfold pattern_char in Hc.
  destruct (Ascii.eqb_spec c " "); [done|]. rewrite orb_false_r in Hc. rewrite Hc.
  pose proof (key_of_range done). pose proof (mask_of_range done).
  pose proof (shift_of_range done).
  assert (2 ^ Z.of_nat (length done) <= 2 ^ 63) by (apply Z.pow_le_mono_r; lia).
  rewrite !shl1_or by first [unfold in_u; lia | destruct (Ascii.eqb c "1"), (Ascii.eqb c "?"); auto].
  rewrite (wrap_id 64 (shift_of done + 1)) by (unfold in_u; lia).
  specialize (IH str (c :: done)). cbn [key_of mask_of shift_of length] in IH.
  rewrite IH by (auto; lia). cbn [List.rev]. by rewrite <- app_assoc.
Qed.

Lemma pattern_decode_ok str : pattern_ok str = true ->
  let cs := List.rev (pattern_chars str) in
  pattern_decode str =
  Ok (Z.shiftr (key_of cs) (shift_of cs), Z.shiftr (mask_of cs) (shift_of cs), shift_of cs).
Proof.
  unfold pattern_ok. rewrite andb_true_iff, Nat.ltb_lt. intros [Hl Hok].
  unfold pattern_decode, pattern_chars.
  pose proof (pattern_loop_spec 64 (list_ascii_of_string str) []) as H.
  cbn [key_of mask_of shift_of length] in H. rewrite app_nil_r in H. apply H; auto; lia.
Qed.

Lemma land_mask_fit cs inst : 0 <= inst ->
  (Z.land inst (mask_of cs) =? key_of cs) = bits_fit cs inst.
Proof.
  revert inst. induction cs as [|c cs IH]; intros inst Hi; cbn [mask_of key_of bits_fit].
  { by rewrite Z.land_0_r. }
  rewrite <- IH by (apply Z.div_pos; lia).
  assert (Z.land inst (2 * mask_of cs + (if Ascii.eqb c "?" then 0 else 1)) =
          2 * Z.land (inst / 2) (mask_of cs) +
          (if Ascii.eqb c "?" then 0 else Z.b2z (Z.testbit inst 0))) as ->.
  { rewrite (Z.div_mod inst 2) at 1 by lia. rewrite <- Z.bit0_mod.
    set (q := inst / 2). clearbody q.
    destruct (Ascii.eqb c "?"), (Z.testbit inst 0); cbn [Z.b2z];
    rewrite ?Z.add_0_r; apply Z.bits_inj'; intros i Hb; rewrite Z.land_spec;
    (destruct (decide (i = 0)) as [->|];
     [rewrite ?Z.testbit_odd_0, ?Z.testbit_even_0; done|
      replace i with (Z.succ (i - 1)) by lia;
      rewrite ?Z.testbit_odd_succ, ?Z.testbit_even_succ, Z.land_spec by lia; done]). }
  destruct (Ascii.eqb_spec c "?") as [->|].
  - cbn [orb andb]. simpl. repeat zcase; lia.
  - destruct (Ascii.eqb c "1"), (Z.testbit inst 0); cbn [Z.b2z Bool.eqb orb andb];
      repeat zcase; lia.
Qed.

(** The shift drops only positions where mask and key are zero. *)
Lemma shift_exact cs :
  mask_of cs = Z.shiftr (mask_of cs) (shift_of cs) * 2 ^ shift_of cs /\
  key_of cs = Z.shiftr (key_of cs) (shift_of cs) * 2 ^ shift_of cs.
Proof.
  induction cs as [|c cs [IHm IHk]]; [done|]. cbn [mask_of key_of shift_of].
  destruct (Ascii.eqb_spec c "?") as [->|].
  - pose proof (shift_of_range cs). simpl (Ascii.eqb "?" "1"). cbn iota.
    rewrite !Z.add_0_r, !Z.shiftr_div_pow2, Z.pow_add_r in * by lia.
    change (2 ^ 1) with 2. set (p := 2 ^ shift_of cs) in *.
    assert (0 < p) by (apply Z.pow_pos_nonneg; lia).
    rewrite !(Z.mul_comm p 2), !Z.div_mul_cancel_l by lia. lia.
  - rewrite !Z.shiftr_0_r. lia.
Qed.

Lemma instpat_test_fit cs inst : 0 <= inst < 2 ^ 64 ->
  instpat_test (Z.shiftr (key_of cs) (shift_of cs), Z.shiftr (mask_of cs) (shift_of cs),
                shift_of cs) inst = bits_fit cs inst.
Proof.
  intros Hi. unfold instpat_test. rewrite wrap_id by done.
  rewrite <- land_mask_fit by lia. destruct (shift_exact cs) as [Hm Hk].
  pose proof (shift_of_range cs).
  set (s := shift_of cs) in *. rewrite <- Z.shiftr_land.
  set (m := mask_of cs) in *. set (k := key_of cs) in *.
  assert (0 < 2 ^ s) by (apply Z.pow_pos_nonneg; lia).
  assert (Z.land inst m = Z.shiftr (Z.land inst m) s * 2 ^ s) as E.
  { rewrite Hm at 1. rewrite <- !Z.shiftl_mul_pow2 by lia.
    apply Z.bits_inj'. intros i Hb. rewrite Z.land_spec, !Z.shiftl_spec by lia.
    destruct (Z.ltb_spec i s).
    - rewrite !(Z.testbit_neg_r _ (i - s)) by lia. by rewrite andb_false_r.
    - rewrite !Z.shiftr_spec, Z.land_spec by lia. by replace (i - s + s) with i by lia. }
  set (x := Z.shiftr (Z.land inst m) s) in *. set (y := Z.shiftr k s) in *.
  rewrite E, Hk. destruct (Z.eqb_spec x y) as [->|]; [by rewrite Z.eqb_refl|].
  symmetry. apply Z.eqb_neq. nia.
Qed.

(** [INSTPAT] decides the bitwise fit for every pattern the macros accept. *)
Lemma instpat_match_fit pattern inst :
  pattern_ok pattern = true -> 0 <= inst < 2 ^ 64 ->
  instpat_match pattern inst = Ok (bits_fit (List.rev (pattern_chars pattern)) inst).
Proof.
  intros Hp Hi. unfold instpat_match. rewrite (pattern_decode_ok _ Hp).
  by rewrite instpat_test_fit.
Qed.

(** The fit, position by position. *)
Lemma bits_fit_iff cs inst :
  bits_fit cs inst = true <->
  forall j c, cs !! j = Some c -> c <> "?" ->
    Z.testbit inst (Z.of_nat j) = Ascii.eqb c "1".
Proof.
  revert inst. induction cs as [|c cs IH]; intros inst; cbn [bits_fit].
  { split; [|done]. intros _ j c Hj. by rewrite lookup_nil in Hj. }
  rewrite andb_true_iff, IH, orb_true_iff, Bool.eqb_true_iff. split.
  - intros [H0 H] [|j] c' Hj Hq; simpl in Hj.
    + injection Hj as <-. destruct H0 as [H0|H0]; [|done].
      by apply Ascii.eqb_eq in H0.
    + specialize (H j c' Hj Hq). rewrite <- H, Nat2Z.inj_succ.
      rewrite Z.div2_bits by lia. done.
  - intros H. split.
    + destruct (Ascii.eqb_spec c "?"); [by left|right]. by apply (H 0%nat c).
    + intros j c' Hj Hq. rewrite <- (H (S j) c') by done.
      rewrite Nat2Z.inj_succ, Z.div2_bits by lia. done.
Qed.

(** [INSTPAT] tests what its pattern shows: for a pattern of at most 63 legal
    characters, the shifted key and mask comparison succeeds exactly when every
    position of the word that the pattern fixes has the written bit. *)
Theorem instpat_match_spec pattern inst :
  pattern_ok pattern = true -> 0 <= inst < 2 ^ 64 ->
  exists m, instpat_match pattern inst = Ok m /\
    (m = true <->
     forall j c, List.rev (pattern_chars pattern) !! j = Some c -> c <> "?"%char ->
       Z.testbit inst (Z.of_nat j) = Ascii.eqb c "1").
Proof.
  intros Hp Hi. exists (bits_fit (List.rev (pattern_chars pattern)) inst).
  split; [by apply instpat_match_fit|apply bits_fit_iff].
Qed.

Lemma instpat_match_spec_witness :
  exists m, instpat_match "0000000 ????? 1" 0x15 = Ok m.
Proof.
  destruct (instpat_match_spec "0000000 ????? 1" 0x15) as (m & Hm & _);
    [reflexivity|lia|]. exists m. exact Hm.
Defined.
