(* ===== verification/Machine.v ===== *)
(** The global state of NEMU.

    Every C global and function-local [static] that the modelled code reads or
    writes is a field of [Machine] or of one of the records inside it. Host
    memory objects (the arrays that back guest memory, and the block that
    [init_map] allocates) are the [block]s of one [heap] of bytes; a pointer is
    a block and an offset. Static arrays start at zero, so an absent heap entry
    reads as zero.

    What the program takes from outside (the host clock, the SDL event queue,
    and the reference simulator loaded by [dlopen]) is the class [Host]. *)

From S2P Require Import Prelude Config.

(** * Host memory *)

(** [pmem], [mrom], [sram], [psram], [flash], [sdram] of [paddr.c] and
    [io_space] of [map.c]. *)
Inductive block : Type :=
| BPmem | BMrom | BSram | BPsram | BFlash | BSdram | BIoSpace.

#[global] Instance block_eq_dec : EqDecision block.
Proof. solve_decision. Defined.

Definition block_id (b : block) : nat :=
  match b with
  | BPmem => 0 | BMrom => 1 | BSram => 2 | BPsram => 3 | BFlash => 4 | BSdram => 5
  | BIoSpace => 6
  end.
Definition block_of_id (n : nat) : option block :=
  match n with
  | 0%nat => Some BPmem | 1%nat => Some BMrom | 2%nat => Some BSram | 3%nat => Some BPsram
  | 4%nat => Some BFlash | 5%nat => Some BSdram | 6%nat => Some BIoSpace | _ => None
  end.

#[global] Instance block_countable : Countable block.
Proof. refine (inj_countable block_id block_of_id _). by intros []. Defined.

Record ptr : Type := Ptr { blk : block; off : Z }.

#[global] Instance ptr_eq_dec : EqDecision ptr.
Proof. solve_decision. Defined.

Definition ptr_add (p : ptr) (n : Z) : ptr := Ptr (blk p) (off p + n).

(** A pointer into [io_space], as [new_space] returns it: the register blocks of
    the devices and the [space] of an [IOMap] are such pointers. *)
Record io_ptr : Type := IoPtr { io_off : Z }.

#[global] Instance io_ptr_eq_dec : EqDecision io_ptr.
Proof. solve_decision. Defined.

Definition io_at (p : io_ptr) (n : Z) : ptr := Ptr BIoSpace (io_off p + n).

Abbreviation heap := (gmap (block * Z) Z).

(** A byte of an object that was never written is zero. *)
Definition peek (h : heap) (b : block) (o : Z) : Z := default 0 (h !! (b, o)).

Definition IO_SPACE_MAX : Z := 32 * 1024 * 1024.

Definition block_size `{Config} (b : block) : Z :=
  match b with
  | BPmem => CONFIG_MSIZE
  | BMrom => CONFIG_MROM_SIZE
  | BSram => CONFIG_SRAM_SIZE
  | BPsram => CONFIG_PSRAM_SIZE
  | BFlash => CONFIG_FLASH_SIZE
  | BSdram => CONFIG_SDRAM_SIZE
  | BIoSpace => IO_SPACE_MAX
  end.

(** * CPU *)

(** [riscv32_CPU_state] of [isa-def.h]. *)
Record CPU_state : Type := mkCPU {
  gpr : list Z;
  pc : Z;
  csr : list Z;
}.
#[global] Instance eta_CPU_state : Eta CPU_state :=
  fun x => mkCPU (gpr x) (pc x) (csr x).


(** [MUXDEF(CONFIG_RVE, 16, 32)]. *)
Definition nr_gpr `{Config} : nat := if CONFIG_RVE then 16 else 32.
Definition nr_csr : nat := 4096.

(** [CPU_state cpu = {};] *)
Definition cpu_zero `{Config} : CPU_state :=
  mkCPU (replicate nr_gpr 0) 0 (replicate nr_csr 0).

Inductive nemu_st : Type := NEMU_RUNNING | NEMU_STOP | NEMU_END | NEMU_ABORT | NEMU_QUIT.

#[global] Instance nemu_st_eq_dec : EqDecision nemu_st.
Proof. solve_decision. Defined.

(** [NEMUState] of [utils.h]. *)
Record NEMUState : Type := mkNemu {
  state : nemu_st;
  halt_pc : Z;
  halt_ret : Z;
}.
#[global] Instance eta_NEMUState : Eta NEMUState :=
  fun x => mkNemu (state x) (halt_pc x) (halt_ret x).


(** * Devices *)

(** The functions whose address is stored in [IOMap.callback]; [None] is [NULL]. *)
Inductive io_callback : Type :=
| serial_io | rtc_io | i8042_data_io | audio_io | sdcard_io.

#[global] Instance io_callback_eq_dec : EqDecision io_callback.
Proof. solve_decision. Defined.

(** [IOMap] of [map.h]. *)
Record IOMap : Type := mkMap {
  map_name : string;
  low : Z;
  high : Z;
  space : io_ptr;
  callback : option io_callback;
}.

(** A [FILE *] opened for update: its bytes and the file position. *)
Record file : Type := mkFile { fdata : list Z; fpos : Z }.
#[global] Instance eta_file : Eta file :=
  fun x => mkFile (fdata x) (fpos x).


(** The statics of [sdcard.c]. *)
Record SdState : Type := mkSd {
  sd_fp : option file;
  sd_base : io_ptr;
  blkcnt : Z;
  blk_addr : Z;
  sd_addr : Z;
  write_cmd : bool;
  read_ext_csd : bool;
}.
#[global] Instance eta_SdState : Eta SdState :=
  fun x => mkSd (sd_fp x) (sd_base x) (blkcnt x) (blk_addr x) (sd_addr x) (write_cmd x) (read_ext_csd x).


Inductive alarm_handler : Type := timer_intr_h.

(** The statics of the device files. [serial_out] is what went to [stderr],
    [frames] counts the calls of [update_screen]. *)
Record DevState : Type := mkDev {
  serial_base : io_ptr;
  serial_out : list Z;
  rtc_port_base : io_ptr;
  keymap : list Z;
  key_queue : list Z;
  key_f : Z;
  key_r : Z;
  i8042_data_port_base : io_ptr;
  vgactl_port_base : io_ptr;
  vmem : io_ptr;
  frames : Z;
  audio_base : io_ptr;
  sbuf : io_ptr;
  sd : SdState;
  last_update : Z;
  alarm_handlers : list alarm_handler;
}.
#[global] Instance eta_DevState : Eta DevState :=
  fun x => mkDev (serial_base x) (serial_out x) (rtc_port_base x) (keymap x) (key_queue x) (key_f x) (key_r x) (i8042_data_port_base x) (vgactl_port_base x) (vmem x) (frames x) (audio_base x) (sbuf x) (sd x) (last_update x) (alarm_handlers x).


Definition KEY_QUEUE_LEN : Z := 1024.

Definition dev_zero : DevState :=
  let null := IoPtr 0 in
  mkDev null [] null (replicate 256 0) (replicate 1024 0) 0 0 null null null 0 null null
    (mkSd None null 0 0 0 false false) 0 [].

(** * Watchpoints *)

Definition NR_WP : nat := 32.

(** [WP] of [sdb.h]; [next] is the index of the next node of the pool. *)
Record WP : Type := mkWP {
  NO : Z;
  next : option nat;
  addr_expr : string;
  last_val : Z;
  cnt : Z;
}.
#[global] Instance eta_WP : Eta WP :=
  fun x => mkWP (NO x) (next x) (addr_expr x) (last_val x) (cnt x).


(** The statics of [watchpoint.c]. *)
Record WpState : Type := mkWps {
  wp_pool : list WP;
  head : option nat;
  free_ : option nat;
}.
#[global] Instance eta_WpState : Eta WpState :=
  fun x => mkWps (wp_pool x) (head x) (free_ x).


Definition wps_zero : WpState :=
  mkWps (replicate NR_WP (mkWP 0 None "" 0 0)) None None.

(** * The outside *)

Inductive sdl_event : Type :=
| SDL_QUIT
| SDL_KEY (scancode : Z) (down : bool)
| SDL_OTHER.

(** [host_time n]: microseconds given by the [n]-th call of
    [get_time_internal]. [sdl_queue n]: the events the [n]-th polling loop takes
    from the SDL queue. [sdl_scancode k]: the constant [SDL_SCANCODE_k] of the SDL
    headers. [sdcard_image]: what [fopen] finds at [CONFIG_SDCARD_IMG_PATH].
    [RState]: the state of the reference simulator, with the functions [dlsym] finds
    in it; [ref_difftest_getregs r c] is the buffer [c] after
    [ref_difftest_regcpy(&c, DIFFTEST_TO_DUT)], and [ref_r_init] is what the local
    variable [ref_r] of [difftest_step] holds before it is written. *)
Class Host : Type := {
  host_time : nat -> Z;
  sdl_queue : nat -> list sdl_event;
  sdl_scancode : string -> Z;
  sdcard_image : option (list Z);
  RState : Type;
  ref_difftest_memcpy : Z -> list Z -> RState -> RState;
  ref_difftest_setregs : CPU_state -> RState -> RState;
  ref_difftest_getregs : RState -> CPU_state -> CPU_state;
  ref_difftest_exec : Z -> RState -> result RState;
  ref_r_init : CPU_state;
}.

(** A host whose clock stands still, with no event, no card image and a reference
    that does nothing: a concrete instance for closed examples. *)
Definition null_host : Host := {|
  host_time := fun _ => 0;
  sdl_queue := fun _ => [];
  sdl_scancode := fun _ => 0;
  sdcard_image := None;
  RState := unit;
  ref_difftest_memcpy := fun _ _ r => r;
  ref_difftest_setregs := fun _ r => r;
  ref_difftest_getregs := fun _ c => c;
  ref_difftest_exec := fun _ r => Ok r;
  ref_r_init := mkCPU (replicate 32 0) 0 [];
|}.

(** * The machine *)

Record Machine `{Host} : Type := mkMachine {
  cpu : CPU_state;
  mem : heap;
  p_space : Z;
  maps : list IOMap;
  pio_maps : list IOMap;
  nemu_state : NEMUState;
  g_nr_guest_inst : Z;
  g_timer : Z;
  g_print_step : bool;
  boot_time : Z;
  time_reads : nat;
  polls : nat;
  is_skip_ref : bool;
  skip_dut_nr_inst : Z;
  ref : RState;
  dev : DevState;
  wps : WpState;
  pc_trace : list Z;
}.
#[global] Instance eta_Machine `{Host} : Eta Machine :=
  fun x => mkMachine _ (cpu x) (mem x) (p_space x) (maps x) (pio_maps x) (nemu_state x) (g_nr_guest_inst x) (g_timer x) (g_print_step x) (boot_time x) (time_reads x) (polls x) (is_skip_ref x) (skip_dut_nr_inst x) (ref x) (dev x) (wps x) (pc_trace x).


(** The state at the entry of [main]. Static objects are zero; [h] gives the bytes
    that [malloc] will return for [io_space], [r] is the reference's own state. *)
Definition machine_zero `{Config} `{Host} (h : gmap Z Z) (r : RState) : Machine :=
  mkMachine _ cpu_zero (kmap (pair BIoSpace) h) 0 [] [] (mkNemu NEMU_STOP 0 0) 0 0 false 0 0 0 false 0 r dev_zero
    wps_zero [].

(** * Well-formed state: every object holds a value of its C type *)

Definition heap_ok (h : heap) : Prop := map_Forall (fun _ v => in_u 8 v) h.

Definition cpu_ok `{Config} (c : CPU_state) : Prop :=
  length (gpr c) = nr_gpr /\ Forall (in_u 32) (gpr c) /\ in_u 32 (pc c) /\
  length (csr c) = nr_csr /\ Forall (in_u 32) (csr c).

#[global] Instance cpu_ok_dec `{Config} c : Decision (cpu_ok c).
Proof. unfold cpu_ok. apply _. Defined.

Lemma cpu_zero_ok `{Config} : cpu_ok cpu_zero.
Proof.
  unfold cpu_ok, cpu_zero. cbn [gpr pc csr]. rewrite !length_replicate.
  split_and!; try done; apply Forall_replicate; done.
Qed.

Lemma heap_ok_empty : heap_ok ∅.
Proof. apply map_Forall_empty. Qed.

Lemma peek_byte h b o : heap_ok h -> in_u 8 (peek h b o).
Proof.
  intros Hh. unfold peek. destruct (h !! (b, o)) eqn:E; simpl; [|done].
  by apply (Hh _ _ E).
Qed.

Lemma machine_zero_heap `{Config} `{Host} h r :
  map_Forall (fun _ v => in_u 8 v) h -> heap_ok (mem (machine_zero h r)).
Proof.
  intros Hh k v Hv. cbn in Hv. apply lookup_kmap_Some in Hv as (i & -> & Hi); [|apply _].
  by apply (Hh i).
Qed.
