(* ===== verification/HostMem.v ===== *)
(** Host memory accesses: [nemu/include/memory/host.h].

    [load] and [store] are the C accesses through a [uint8_t *], [uint16_t *]
    or [uint32_t *] on a little-endian host; an access that leaves its object is
    undefined. [host_read] and [host_write] are the source's functions. *)

From S2P Require Import Prelude Config Machine.

Section HostMem.
Context `{CFG : Config} `{HOST : Host}.

Definition in_block (p : ptr) (len : Z) : bool :=
  (0 <=? off p) && (off p + len <=? block_size (blk p)).

Fixpoint peek_bytes (h : heap) (b : block) (o : Z) (n : nat) : list Z :=
  match n with
  | O => []
  | S n => peek h b o :: peek_bytes h b (o + 1) n
  end.

Fixpoint poke_bytes (h : heap) (b : block) (o : Z) (bs : list Z) : heap :=
  match bs with
  | [] => h
  | x :: bs => poke_bytes (<[(b, o) := x]> h) b (o + 1) bs
  end.

Definition load (p : ptr) (n : nat) : M Machine Z := fun s =>
  if in_block p (Z.of_nat n) then Ok (le_combine (peek_bytes (mem s) (blk p) (off p) n), s)
  else Abort (AUndef "load outside its object").

Definition store (p : ptr) (n : nat) (data : Z) : M Machine unit := fun s =>
  if in_block p (Z.of_nat n)
  then Ok (tt, s <| mem := poke_bytes (mem s) (blk p) (off p) (le_split n data) |>)
  else Abort (AUndef "store outside its object").

Definition host_read (p : ptr) (len : Z) : M Machine Z :=
  if len =? 1 then load p 1
  else if len =? 2 then load p 2
  else if len =? 4 then load p 4
  else if CONFIG_RT_CHECK then stop (AAssert "0") else mret 0.

Definition host_write (p : ptr) (len data : Z) : M Machine unit :=
  if len =? 1 then store p 1 data
  else if len =? 2 then store p 2 data
  else if len =? 4 then store p 4 data
  else if CONFIG_RT_CHECK then stop (AAssert "0") else mret tt.

(** Element accesses [base[i]] of a device's register block, as a [uint32_t *] or
    a [uint8_t *]. *)
Definition get32 (p : io_ptr) (i : Z) : M Machine Z := load (io_at p (4 * i)) 4.
Definition set32 (p : io_ptr) (i v : Z) : M Machine unit := store (io_at p (4 * i)) 4 (u32 v).
Definition get8 (p : io_ptr) (i : Z) : M Machine Z := load (io_at p i) 1.
Definition set8 (p : io_ptr) (i v : Z) : M Machine unit := store (io_at p i) 1 (u8 v).

(** * Lemmas on byte ranges *)

Lemma length_peek_bytes h b o n : length (peek_bytes h b o n) = n.
Proof. revert o; induction n; intros; simpl; auto. Qed.

Lemma peek_poke_other h b o bs b' o' :
  b <> b' \/ o' < o \/ o + Z.of_nat (length bs) <= o' ->
  peek (poke_bytes h b o bs) b' o' = peek h b' o'.
Proof.
  revert h o. induction bs as [|x bs IH]; intros h o Hd; [done|].
  cbn [poke_bytes length] in *. rewrite IH by (destruct Hd as [?|[?|?]]; [auto|right; left; lia|right; right; lia]).
  unfold peek. rewrite lookup_insert_ne; [done|].
  intros [= -> ->]. destruct Hd as [?|[?|?]]; [done|lia|lia].
Qed.

Lemma peek_poke_same h b o bs i :
  (i < length bs)%nat -> peek (poke_bytes h b o bs) b (o + Z.of_nat i) = nth i bs 0.
Proof.
  revert h o i. induction bs as [|x bs IH]; intros h o i Hi; [simpl in Hi; lia|].
  cbn [poke_bytes length] in *. destruct i as [|i].
  - rewrite Z.add_0_r, peek_poke_other by lia. unfold peek. by rewrite lookup_insert_eq.
  - replace (o + Z.of_nat (S i)) with (o + 1 + Z.of_nat i) by lia.
    rewrite IH by lia. done.
Qed.

Lemma peek_bytes_poke_other h b o bs b' o' n :
  b <> b' \/ o' + Z.of_nat n <= o \/ o + Z.of_nat (length bs) <= o' ->
  peek_bytes (poke_bytes h b o bs) b' o' n = peek_bytes h b' o' n.
Proof.
  revert o'. induction n as [|n IH]; intros o' Hd; [done|]. cbn [peek_bytes].
  rewrite peek_poke_other by (destruct Hd as [?|[?|?]]; [auto|lia|lia]).
  rewrite IH by (destruct Hd as [?|[?|?]]; [auto|lia|lia]). done.
Qed.

Lemma peek_bytes_poke h b o bs : peek_bytes (poke_bytes h b o bs) b o (length bs) = bs.
Proof.
  revert h o. induction bs as [|x bs IH]; intros h o; [done|].
  cbn [length peek_bytes]. cbn [poke_bytes]. rewrite IH. f_equal.
  rewrite peek_poke_other by lia. unfold peek. by rewrite lookup_insert_eq.
Qed.

Lemma peek_bytes_ok h b o n : heap_ok h -> Forall (in_u 8) (peek_bytes h b o n).
Proof.
  intros Hh. revert o. induction n; intros o; constructor; auto. by apply peek_byte.
Qed.

Lemma poke_bytes_ok h b o bs : heap_ok h -> Forall (in_u 8) bs -> heap_ok (poke_bytes h b o bs).
Proof.
  intros Hh Hb. revert h o Hh. induction Hb as [|x bs Hx _ IH]; intros h o Hh; [done|].
  cbn [poke_bytes]. apply IH. by apply map_Forall_insert_2.
Qed.

Lemma peek_bytes_app h b o m n :
  peek_bytes h b o (m + n) = peek_bytes h b o m ++ peek_bytes h b (o + Z.of_nat m) n.
Proof.
  revert o. induction m as [|m IH]; intros o; cbn [peek_bytes app Nat.add].
  - by rewrite Z.add_0_r.
  - rewrite IH. do 2 f_equal. f_equal. lia.
Qed.

(** * The accesses *)

(** The widths the program uses. *)
Definition width_ok (n : Z) : bool := (n =? 1) || (n =? 2) || (n =? 4).

Lemma host_read_load p n s : width_ok n = true ->
  host_read p n s = load p (Z.to_nat n) s.
Proof.
  unfold width_ok, host_read. intros Hn.
  destruct (Z.eqb_spec n 1) as [->|]; [done|].
  destruct (Z.eqb_spec n 2) as [->|]; [done|].
  destruct (Z.eqb_spec n 4) as [->|]; done.
Qed.

Lemma host_write_store p n v s : width_ok n = true ->
  host_write p n v s = store p (Z.to_nat n) v s.
Proof.
  unfold width_ok, host_write. intros Hn.
  destruct (Z.eqb_spec n 1) as [->|]; [done|].
  destruct (Z.eqb_spec n 2) as [->|]; [done|].
  destruct (Z.eqb_spec n 4) as [->|]; done.
Qed.

Lemma load_range p n s v s' :
  load p n s = Ok (v, s') -> heap_ok (mem s) -> in_u (8 * Z.of_nat n) v /\ s' = s.
Proof.
  unfold load. destruct (in_block _ _); [|done]. intros [= <- <-] Hh. split; [|done].
  rewrite <- (length_peek_bytes (mem s) (blk p) (off p) n) at 1.
  apply le_combine_range, peek_bytes_ok, Hh.
Qed.

Lemma load_store_same p n v s s' :
  store p n v s = Ok (tt, s') -> load p n s' = Ok (wrap (8 * Z.of_nat n) v, s').
Proof.
  unfold store, load. destruct (in_block p (Z.of_nat n)) eqn:E; [|done]. intros [= <-].
  do 2 f_equal. simpl.
  rewrite <- le_combine_split. f_equal.
  rewrite <- (length_le_split n v) at 2. apply peek_bytes_poke.
Qed.

Lemma load_store_other p n v q m s s' :
  store p n v s = Ok (tt, s') ->
  blk p <> blk q \/ off q + Z.of_nat m <= off p \/ off p + Z.of_nat n <= off q ->
  load q m s' = match load q m s with Ok (x, _) => Ok (x, s') | Abort e => Abort e end.
Proof.
  unfold store, load. destruct (in_block p _); [|done]. intros [= <-] Hd.
  destruct (in_block q _); [|done]. do 2 f_equal. simpl. f_equal.
  apply peek_bytes_poke_other. by rewrite length_le_split.
Qed.

Lemma store_Ok p n v s u s' :
  store p n v s = Ok (u, s') ->
  s' = s <| mem := poke_bytes (mem s) (blk p) (off p) (le_split n v) |>.
Proof. unfold store. destruct (in_block _ _); [|done]. by intros [= <- <-]. Qed.

Lemma host_write_cases p len data s u s' :
  host_write p len data s = Ok (u, s') ->
  s' = s \/ exists n, s' = s <| mem := poke_bytes (mem s) (blk p) (off p) (le_split n data) |>.
Proof.
  unfold host_write. intros H. repeat case_match; inv_ok; eauto using store_Ok.
Qed.

(** A state's heap only changes by stores of bytes. *)
Definition mem_ok (s : Machine) : Prop := heap_ok (mem s).

Lemma store_mem_ok p n v : keeps mem_ok (store p n v).
Proof.
  intros s Hs. unfold store. destruct (in_block _ _); [|done].
  apply poke_bytes_ok; [done|]. apply le_split_bytes.
Qed.

Lemma load_keeps (P : Machine -> Prop) p n : keeps P (load p n).
Proof. intros s Hs. unfold load. by destruct (in_block _ _). Qed.

End HostMem.

#[export] Hint Resolve store_mem_ok load_keeps : nemu.
