(* ===== verification/Region.v ===== *)
(** The guest physical address space: [nemu/include/memory/paddr.h].

    The range tests subtract in [uint32_t], so that one unsigned comparison
    decides both bounds. *)

From S2P Require Import Prelude Config Machine.

Section Region.
Context `{CFG : Config}.

Definition PMEM_LEFT : Z := CONFIG_MBASE.
Definition PMEM_RIGHT : Z := u32 (CONFIG_MBASE + CONFIG_MSIZE - 1).
Definition RESET_VECTOR : Z :=
  if CONFIG_PC_TRACE || CONFIG_BRANCH_TRACE then 0x30000000
  else u32 (PMEM_LEFT + CONFIG_PC_RESET_OFFSET).

Definition in_pmem (addr : Z) : bool := u32 (addr - CONFIG_MBASE) <? CONFIG_MSIZE.
Definition in_mrom (addr : Z) : bool := u32 (addr - CONFIG_MROM_BASE) <? CONFIG_MROM_SIZE.
Definition in_sram (addr : Z) : bool := u32 (addr - CONFIG_SRAM_BASE) <? CONFIG_SRAM_SIZE.
Definition in_flash (addr : Z) : bool := u32 (addr - CONFIG_FLASH_BASE) <? CONFIG_FLASH_SIZE.
Definition in_psram (addr : Z) : bool := u32 (addr - CONFIG_PSRAM_BASE) <? CONFIG_PSRAM_SIZE.
Definition in_sdram (addr : Z) : bool := u32 (addr - CONFIG_SDRAM_BASE) <? CONFIG_SDRAM_SIZE.

(** The wrapped comparison decides the interval. *)
Lemma range_test base size addr :
  region_ok base size -> in_u 32 addr ->
  (u32 (addr - base) <? size) = (base <=? addr) && (addr <? base + size).
Proof.
  unfold region_ok, in_u. intros (? & ? & ?) ?. unfold wrap.
  destruct (Z.leb_spec base addr); cbn [andb].
  - rewrite Z.mod_small by lia. destruct (Z.ltb_spec (addr - base) size), (Z.ltb_spec addr (base + size)); lia.
  - assert ((addr - base) mod 2 ^ 32 = addr - base + 2 ^ 32) as ->.
    { symmetry. apply Zmod_unique with (-1); lia. }
    apply Z.ltb_ge. lia.
Qed.

Lemma in_pmem_iff addr : config_ok -> in_u 32 addr ->
  in_pmem addr = true <-> CONFIG_MBASE <= addr < CONFIG_MBASE + CONFIG_MSIZE.
Proof.
  intros (Hp & _) Ha. unfold in_pmem. rewrite range_test, andb_true_iff by done.
  rewrite Z.leb_le, Z.ltb_lt. done.
Qed.

End Region.
