(* ===== verification/IoMap.v ===== *)
(** Memory-mapped and port I/O: [nemu/src/device/io/map.c], [mmio.c],
    [port-io.c] and [nemu/include/device/map.h].

    A device registers an address range with the object behind it and a
    callback. The handlers that the callbacks name belong to the device files;
    this file uses them through the class [Callbacks], and [Device] gives the
    instance. *)

From S2P Require Import Prelude Config Macro Machine HostMem Region.

Section SkipRef.
Context `{CFG : Config} `{HOST : Host}.

(** [difftest_skip_ref] of [dut.c]; empty when difftest is off. *)
Definition difftest_skip_ref : M Machine unit :=
  if CONFIG_DIFFTEST
  then modify (fun s => s <| is_skip_ref := true |> <| skip_dut_nr_inst := 0 |>)
  else mret tt.

End SkipRef.

(** What the bus needs from the devices: the function behind each callback. *)
Class Callbacks `{CFG : Config} `{HOST : Host} : Type := {
  run_callback : io_callback -> Z -> Z -> bool -> M Machine unit;
}.

(** What a device access leaves alone: registers, run state, the registered ranges,
    watchpoints, the reference, and every byte that is not device memory; the heap
    stays a heap of bytes. *)
Record io_frame `{Host} (s s' : Machine) : Prop := mkFrame {
  fr_cpu : cpu s' = cpu s;
  fr_maps : maps s' = maps s;
  fr_nemu : nemu_state s' = nemu_state s;
  fr_wps : wps s' = wps s;
  fr_ref : ref s' = ref s;
  fr_inst : g_nr_guest_inst s' = g_nr_guest_inst s;
  fr_trace : pc_trace s' = pc_trace s;
  fr_guest : forall b o, b <> BIoSpace -> peek (mem s') b o = peek (mem s) b o;
  fr_bytes : heap_ok (mem s) -> heap_ok (mem s');
}.

#[global] Instance io_frame_refl `{Host} : Reflexive io_frame.
Proof. by intros s. Qed.

#[global] Instance io_frame_trans `{Host} : Transitive io_frame.
Proof.
  intros s1 s2 s3 [] []. constructor; try congruence; auto.
  intros b o Hb. rewrite fr_guest1 by done. auto.
Qed.

(** The promise of the devices to the bus. *)
Class CallbacksOk `{CB : Callbacks} : Prop :=
  callback_within : forall c offset len is_write,
    within io_frame (run_callback c offset len is_write).

Section IoMap.
Context `{CFG : Config} `{HOST : Host}.

Definition PAGE_SHIFT : Z := 12.
Definition PAGE_SIZE : Z := Z.shiftl 1 PAGE_SHIFT.
Definition PAGE_MASK : Z := PAGE_SIZE - 1.

(** [new_space] allocates from [io_space]; [size] is an [int], the rounding is
    done in [unsigned long]. *)
Definition new_space (size : Z) : M Machine io_ptr := fun s =>
  let p := IoPtr (p_space s) in
  let size := s32 (Z.land (u64 (size + (PAGE_SIZE - 1))) (u64 (Z.lnot PAGE_MASK))) in
  let s := s <| p_space := p_space s + size |> in
  if p_space s <? IO_SPACE_MAX then Ok (p, s)
  else Abort (AAssert "p_space - io_space < IO_SPACE_MAX").

Definition init_map : M Machine unit := modify (fun s => s <| p_space := 0 |>).

Definition map_inside (m : IOMap) (addr : Z) : bool := (low m <=? addr) && (addr <=? high m).

(** The loop of [find_mapid_by_addr]; [None] is [-1]. *)
Fixpoint find_map (ms : list IOMap) (addr : Z) : option nat :=
  match ms with
  | [] => None
  | m :: ms => if map_inside m addr then Some 0%nat else S <$> find_map ms addr
  end.

Definition find_mapid_by_addr (ms : list IOMap) (addr : Z) : M Machine (option nat) :=
  match find_map ms addr with
  | Some i => difftest_skip_ref ;; mret (Some i)
  | None => mret None
  end.

Definition check_bound (m : option IOMap) (addr : Z) : M Machine IOMap :=
  match m with
  | None => panic "address is out of bound"
  | Some m =>
      if (addr <=? high m) && (low m <=? addr) then mret m
      else panic "address is out of bound of the map"
  end.

Definition NR_MAP : nat := 16.

Definition fetch_mmio_map (addr : Z) : M Machine (option IOMap) :=
  ms ← gets maps;
  i ← find_mapid_by_addr ms addr;
  mret (i ≫= fun i => ms !! i).

(** [left <= maps[i].high && right >= maps[i].low] for some registered map. *)
Definition overlaps (left right : Z) (m : IOMap) : bool := (left <=? high m) && (low m <=? right).

Definition add_mmio_map (name : string) (addr : Z) (sp : io_ptr) (len : Z)
    (cb : option io_callback) : M Machine unit :=
  ms ← gets maps;
  c_assert (length ms <? NR_MAP)%nat "nr_map < NR_MAP" ;;
  let left := addr in
  let right := u32 (addr + len - 1) in
  (if in_pmem left || in_pmem right then panic "MMIO region is overlapped with pmem" else mret tt) ;;
  (if existsb (overlaps left right) ms then panic "MMIO region is overlapped" else mret tt) ;;
  modify (fun s => s <| maps := ms ++ [mkMap name addr (u32 (addr + len - 1)) sp cb] |>).

Definition PORT_IO_SPACE_MAX : Z := 65535.

Definition add_pio_map (name : string) (addr : Z) (sp : io_ptr) (len : Z)
    (cb : option io_callback) : M Machine unit :=
  ms ← gets pio_maps;
  c_assert (length ms <? NR_MAP)%nat "nr_map < NR_MAP" ;;
  c_assert (u32 (addr + len) <=? PORT_IO_SPACE_MAX) "addr + len <= PORT_IO_SPACE_MAX" ;;
  modify (fun s => s <| pio_maps := ms ++ [mkMap name addr (u32 (addr + len - 1)) sp cb] |>).

Context `{CB : !Callbacks}.

Definition invoke_callback (c : option io_callback) (offset len : Z) (is_write : bool)
    : M Machine unit :=
  match c with
  | Some c => run_callback c offset len is_write
  | None => mret tt
  end.

Definition map_read (addr len : Z) (m : option IOMap) : M Machine Z :=
  c_assert ((1 <=? len) && (len <=? 8)) "len >= 1 && len <= 8" ;;
  m ← check_bound m addr;
  let offset := u32 (addr - low m) in
  invoke_callback (callback m) offset len false ;;
  host_read (io_at (space m) offset) len.

Definition map_write (addr len data : Z) (m : option IOMap) : M Machine unit :=
  c_assert ((1 <=? len) && (len <=? 8)) "len >= 1 && len <= 8" ;;
  m ← check_bound m addr;
  let offset := u32 (addr - low m) in
  host_write (io_at (space m) offset) len data ;;
  invoke_callback (callback m) offset len true.

Definition mmio_read (addr len : Z) : M Machine Z :=
  m ← fetch_mmio_map addr; map_read addr len m.

Definition mmio_write (addr len data : Z) : M Machine unit :=
  m ← fetch_mmio_map addr; map_write addr len data m.

Definition pio_read (addr len : Z) : M Machine Z :=
  c_assert (addr + len - 1 <? PORT_IO_SPACE_MAX) "addr + len - 1 < PORT_IO_SPACE_MAX" ;;
  ms ← gets pio_maps;
  i ← find_mapid_by_addr ms addr;
  match i ≫= (fun i => ms !! i) with
  | Some m => map_read addr len (Some m)
  | None => stop (AAssert "mapid != -1")
  end.

Definition pio_write (addr len data : Z) : M Machine unit :=
  c_assert (addr + len - 1 <? PORT_IO_SPACE_MAX) "addr + len - 1 < PORT_IO_SPACE_MAX" ;;
  ms ← gets pio_maps;
  i ← find_mapid_by_addr ms addr;
  match i ≫= (fun i => ms !! i) with
  | Some m => map_write addr len data (Some m)
  | None => stop (AAssert "mapid != -1")
  end.

(** * The address ranges of the bus *)

(** Registered ranges are non-empty, lie in the 32-bit space and are pairwise
    disjoint, and there is a slot of the array for each. *)
Definition disjoint_maps (m1 m2 : IOMap) : Prop := high m1 < low m2 \/ high m2 < low m1.

Definition maps_ok (ms : list IOMap) : Prop :=
  (length ms <= NR_MAP)%nat /\
  Forall (fun m => 0 <= low m <= high m /\ high m < 2 ^ 32) ms /\
  forall i j m1 m2, ms !! i = Some m1 -> ms !! j = Some m2 -> i <> j -> disjoint_maps m1 m2.

Lemma maps_ok_nil : maps_ok [].
Proof. split_and!; [simpl; lia|done|done]. Qed.

Lemma find_map_Some ms addr i :
  find_map ms addr = Some i -> exists m, ms !! i = Some m /\ map_inside m addr = true.
Proof.
  revert i. induction ms as [|m ms IH]; intros i; cbn [find_map]; [done|].
  destruct (map_inside m addr) eqn:E.
  - intros [= <-]. eauto.
  - destruct (find_map ms addr) eqn:F; [|done]. intros [= <-]. by apply IH.
Qed.

Lemma find_map_None ms addr :
  find_map ms addr = None <-> Forall (fun m => map_inside m addr = false) ms.
Proof.
  induction ms as [|m ms IH]; cbn [find_map]; [done|].
  rewrite Forall_cons, <- IH. destruct (map_inside m addr); [by split; [|intros []]|].
  destruct (find_map ms addr); [by split; [|intros []]|done].
Qed.

(** With disjoint ranges the first hit of the scan is the only one. *)
Lemma find_map_unique ms addr i m :
  maps_ok ms -> ms !! i = Some m -> map_inside m addr = true -> find_map ms addr = Some i.
Proof.
  intros (_ & _ & Hd) Hi Hin. destruct (find_map ms addr) as [j|] eqn:E.
  - apply find_map_Some in E as (m' & Hj & Hin'). f_equal.
    destruct (decide (i = j)); [done|]. exfalso.
    specialize (Hd i j m m' Hi Hj n). unfold map_inside, disjoint_maps in *. breflect. lia.
  - apply find_map_None in E. rewrite Forall_lookup in E.
    specialize (E _ _ Hi). congruence.
Qed.

Lemma existsb_overlaps left right ms :
  existsb (overlaps left right) ms = false ->
  forall m, m ∈ ms -> high m < left \/ right < low m.
Proof.
  intros H m Hm. apply list_elem_of_In in Hm.
  assert (overlaps left right m = false) as E.
  { rewrite <- not_true_iff_false in *. intros Ht. apply H. apply existsb_exists. eauto. }
  unfold overlaps in E. apply andb_false_iff in E as [E|E]; breflect; lia.
Qed.

Lemma maps_ok_snoc ms m :
  maps_ok ms -> (length ms < NR_MAP)%nat -> 0 <= low m <= high m -> high m < 2 ^ 32 ->
  (forall m', m' ∈ ms -> disjoint_maps m' m) -> maps_ok (ms ++ [m]).
Proof.
  intros (Hl & Hf & Hd) Hlen Hm Hm2 Hdis. split_and!.
  - rewrite length_app. simpl. lia.
  - rewrite Forall_app. auto.
  - intros i j m1 m2 Hi Hj Hij.
    apply lookup_app_Some in Hi as [Hi|[Hli Hi]], Hj as [Hj|[Hlj Hj]].
    + eauto.
    + apply list_lookup_singleton_Some in Hj as [? <-].
      apply Hdis. apply list_elem_of_lookup. eauto.
    + apply list_lookup_singleton_Some in Hi as [? <-].
      assert (disjoint_maps m2 m) by (apply Hdis, list_elem_of_lookup; eauto).
      unfold disjoint_maps in *. lia.
    + apply list_lookup_singleton_Some in Hi as [? <-], Hj as [? <-]. lia.
Qed.

(** The result of a successful registration. *)
Lemma add_mmio_map_Ok name addr sp len cb s s' :
  add_mmio_map name addr sp len cb s = Ok (tt, s') ->
  s' = s <| maps := maps s ++ [mkMap name addr (u32 (addr + len - 1)) sp cb] |> /\
  (length (maps s) < NR_MAP)%nat /\
  in_pmem addr = false /\ in_pmem (u32 (addr + len - 1)) = false /\
  existsb (overlaps addr (u32 (addr + len - 1))) (maps s) = false.
Proof.
  unfold add_mmio_map. intros H. inv_ok.
  unfold c_assert in *. destruct (Nat.ltb_spec (length (maps s)) NR_MAP); [|by inv_ok].
  destruct (in_pmem addr || _) eqn:E1; [by inv_ok|].
  destruct (existsb _ _) eqn:E2; [by inv_ok|]. inv_ok.
  apply orb_false_iff in E1 as [? ?]. auto.
Qed.

Lemma find_map_app ms m addr i :
  find_map ms addr = Some i -> find_map (ms ++ [m]) addr = Some i.
Proof.
  revert i. induction ms as [|m' ms IH]; intros i; cbn [find_map app]; [done|].
  destruct (map_inside m' addr); [done|].
  destruct (find_map ms addr); [|done]. intros [= <-]. by rewrite (IH n).
Qed.

Lemma host_read_state (p : ptr) len s v s' : host_read p len s = Ok (v, s') -> s' = s.
Proof.
  unfold host_read, load. repeat case_match; intros; inv_ok; done.
Qed.

(** The rounding of [new_space] to whole pages. *)
Lemma page_round size : 0 <= size < 2 ^ 31 - 4096 ->
  s32 (Z.land (u64 (size + (PAGE_SIZE - 1))) (u64 (Z.lnot PAGE_MASK))) =
  (size + 4095) - (size + 4095) mod 4096.
Proof.
  intros. change PAGE_MASK with (2 ^ 12 - 1).
  change (size + (PAGE_SIZE - 1)) with (size + 4095).
  rewrite (wrap_id 64 (size + 4095)) by (unfold in_u; lia).
  rewrite Macro.land_lnot_mask by lia. change (2 ^ 12) with 4096.
  pose proof (Z.mod_pos_bound (size + 4095) 4096). apply sgn_id; lia.
Qed.

(** * Properties *)

(** Registering an MMIO range that does not run past the end of the address
    space keeps the registered ranges pairwise disjoint and within the array of
    16 slots; afterwards the scan of [find_mapid_by_addr] finds the new range
    for each of its addresses, and every address that was found before is found
    in the same slot. *)
Theorem add_mmio_map_keeps_disjoint name addr sp len cb s s' :
  maps_ok (maps s) -> 0 <= addr -> 0 < len -> addr + len <= 2 ^ 32 ->
  add_mmio_map name addr sp len cb s = Ok (tt, s') ->
  maps_ok (maps s') /\
  (forall a, addr <= a < addr + len -> find_map (maps s') a = Some (length (maps s))) /\
  (forall a i, find_map (maps s) a = Some i -> find_map (maps s') a = Some i).
Proof.
  intros Hok Ha Hl Hr H. apply add_mmio_map_Ok in H as (-> & Hlen & _ & _ & He).
  cbn [maps]. rewrite wrap_id in * by (unfold in_u; lia).
  assert (maps_ok (maps s ++ [mkMap name addr (addr + len - 1) sp cb])) as Hok'.
  { apply maps_ok_snoc; simpl; try lia; [done|].
    intros m Hm. unfold disjoint_maps. simpl.
    destruct (existsb_overlaps _ _ _ He m Hm); lia. }
  split_and!; [done| |intros; by apply find_map_app].
  intros a Hin. apply find_map_unique with (mkMap name addr (addr + len - 1) sp cb); [done| |].
  - cbn. rewrite lookup_app_r, Nat.sub_diag by lia. done.
  - unfold map_inside. simpl. apply andb_true_iff. rewrite !Z.leb_le. lia.
Qed.

(** [add_mmio_map] stops the emulator exactly when the 16 slots are used, when an
    end of the new range lies in [pmem], or when the new range meets a range
    registered before. *)
Theorem add_mmio_map_rejects name addr sp len cb s :
  config_ok -> 0 <= addr -> 0 < len -> addr + len <= 2 ^ 32 ->
  (exists e, add_mmio_map name addr sp len cb s = Abort e) <->
  ((NR_MAP <= length (maps s))%nat \/
   (CONFIG_MBASE <= addr < CONFIG_MBASE + CONFIG_MSIZE) \/
   (CONFIG_MBASE <= addr + len - 1 < CONFIG_MBASE + CONFIG_MSIZE) \/
   exists m, m ∈ maps s /\ addr <= high m /\ low m <= addr + len - 1).
Proof.
  intros Hc Ha Hl Hr. rewrite <- (in_pmem_iff addr) by (auto; unfold in_u; lia).
  rewrite <- (in_pmem_iff (addr + len - 1)) by (auto; unfold in_u; lia).
  unfold add_mmio_map. rewrite (wrap_id 32 (addr + len - 1)) by (unfold in_u; lia).
  unfold mbind, M_bind, gets, c_assert.
  destruct (Nat.ltb_spec (length (maps s)) NR_MAP); [|split; [by left; lia|by eexists]].
  cbn. destruct (in_pmem addr); [split; [by right; left|by eexists]|].
  destruct (in_pmem (addr + len - 1)); [split; [by right; right; left|by eexists]|].
  cbn. destruct (existsb _ _) eqn:E; cbn.
  - split; [intros _|by eexists]. right; right; right.
    apply existsb_exists in E as (m & Hm & Ho). apply list_elem_of_In in Hm.
    unfold overlaps in Ho. breflect. eauto.
  - split; [by intros [e ?]|]. intros [?|[?|[?|(m & Hm & ?)]]]; [lia|done|done|].
    destruct (existsb_overlaps _ _ _ E m Hm); lia.
Qed.

(** The guard against [pmem] looks only at the two ends: a range that strictly
    contains the whole of [pmem] is accepted. *)
Theorem add_mmio_map_misses_enclosing name addr sp len cb s :
  config_ok -> maps s = [] -> 0 <= addr < CONFIG_MBASE ->
  CONFIG_MBASE + CONFIG_MSIZE < addr + len <= 2 ^ 32 ->
  add_mmio_map name addr sp len cb s =
  Ok (tt, s <| maps := [mkMap name addr (addr + len - 1) sp cb] |>).
Proof.
  intros Hc Hm Ha Hl. assert (region_ok CONFIG_MBASE CONFIG_MSIZE) as (? & ? & ?) by apply Hc.
  unfold add_mmio_map, mbind, M_bind, gets, c_assert. rewrite Hm. cbn.
  rewrite (wrap_id 32 (addr + len - 1)) by (unfold in_u; lia).
  destruct (in_pmem addr) eqn:E1; [apply in_pmem_iff in E1; [lia|done|unfold in_u; lia]|].
  destruct (in_pmem (addr + len - 1)) eqn:E2;
    [apply in_pmem_iff in E2; [lia|done|unfold in_u; lia]|]. done.
Qed.

(** Device memory without a callback: a write of width 1, 2 or 4 to a mapped address
    is read back, truncated to its width, by the next read of the same width. *)
Theorem mmio_write_read addr len data s s' i m :
  find_map (maps s) addr = Some i -> maps s !! i = Some m -> callback m = None ->
  width_ok len = true ->
  mmio_write addr len data s = Ok (tt, s') ->
  mmio_read addr len s' = Ok (wrap (8 * len) data, s').
Proof.
  intros Hf Hi Hcb Hw H. unfold mmio_write, mmio_read, fetch_mmio_map, find_mapid_by_addr in *.
  inv_ok. rewrite Hf in *. inv_ok. cbn in *. rewrite Hi in *.
  unfold map_write, check_bound in *. inv_all. rewrite Hcb in *. cbn in *. inv_ok.
  rewrite host_write_store in * by done.
  match goal with H : store _ _ _ _ = Ok (_, ?x) |- _ => rename x into s' end.
  assert (maps s' = maps s /\ difftest_skip_ref s' = Ok (tt, s')) as [Hms Hskip].
  { unfold store, difftest_skip_ref in *.
    destruct (in_block _ _), CONFIG_DIFFTEST; inv_ok; done. }
  unfold mbind, M_bind, gets. rewrite Hms, Hf. unfold mbind, M_bind. rewrite Hskip. cbn.
  rewrite Hi. unfold map_read, c_assert, check_bound, mbind, M_bind. rewrite Ha, Hb. cbn.
  rewrite Hcb. cbn. rewrite host_read_load by done. destruct a2.
  erewrite load_store_same by done. rewrite Z2Nat.id; [done|].
  unfold width_ok in Hw. lia.
Qed.

(** [new_space] hands out page-aligned, non-overlapping parts of [io_space]: the part
    starts where the last one ended, holds the requested size, and ends below
    [IO_SPACE_MAX]. *)
Theorem new_space_spec size s p s' :
  0 <= size < 2 ^ 31 - 4096 -> 0 <= p_space s -> p_space s mod 4096 = 0 ->
  new_space size s = Ok (p, s') ->
  p = IoPtr (p_space s) /\
  p_space s + size <= p_space s' < p_space s + size + 4096 /\
  p_space s' mod 4096 = 0 /\ p_space s' < IO_SPACE_MAX /\ mem s' = mem s /\ maps s' = maps s.
Proof.
  intros Hs Hp Ha H. unfold new_space in H. rewrite page_round in H by done.
  pose proof (Z.mod_pos_bound (size + 4095) 4096).
  match type of H with (if ?b then _ else _) = _ => destruct b eqn:E end; inv_ok.
  breflect. cbn in *. split_and!; try done; try lia.
  Z.div_mod_to_equations. lia.
Qed.

End IoMap.

(** * Instances of the properties on concrete data *)

Module IoMapWitness.

#[local] Instance cfg : Config := kconfig false true false.
#[local] Instance host : Host := null_host.
#[local] Instance cb : Callbacks := {| run_callback := fun _ _ _ _ => mret tt |}.

Definition s0 : Machine := machine_zero ∅ tt.

Lemma add_mmio_map_keeps_disjoint_witness :
  maps_ok (maps (s0 <| maps := [mkMap "serial" 0xa00003f8 0xa00003ff (IoPtr 0) None] |>)).
Proof.
  apply (add_mmio_map_keeps_disjoint "serial" 0xa00003f8 (IoPtr 0) 8 None s0);
    [apply maps_ok_nil|lia|lia|lia|reflexivity].
Defined.

Lemma add_mmio_map_rejects_witness :
  exists e, add_mmio_map "dup" 0x80000000 (IoPtr 0) 8 None s0 = Abort e.
Proof.
  apply (add_mmio_map_rejects "dup" 0x80000000 (IoPtr 0) 8 None s0);
    [apply (bool_decide_unpack _); vm_compute; exact I|lia|lia|lia|].
  right; left. cbn. lia.
Defined.

Lemma add_mmio_map_misses_enclosing_witness :
  add_mmio_map "huge" 0x70000000 (IoPtr 0) 0x20000000 None s0 =
  Ok (tt, s0 <| maps := [mkMap "huge" 0x70000000 0x8fffffff (IoPtr 0) None] |>).
Proof.
  apply (add_mmio_map_misses_enclosing "huge" 0x70000000 (IoPtr 0) 0x20000000 None s0);
    [apply (bool_decide_unpack _); vm_compute; exact I|reflexivity|cbn; lia|cbn; lia].
Defined.

Definition s1 : Machine :=
  s0 <| maps := [mkMap "vmem" 0xa1000000 0xa107527f (IoPtr 4096) None] |>.

Lemma mmio_write_read_witness : exists s',
  mmio_write 0xa1000010 2 0x12345678 s1 = Ok (tt, s') /\
  mmio_read 0xa1000010 2 s' = Ok (0x5678, s').
Proof.
  exists (final (mmio_write 0xa1000010 2 0x12345678) s1). split; [vm_compute; reflexivity|].
  apply (mmio_write_read 0xa1000010 2 0x12345678 s1 _ 0
           (mkMap "vmem" 0xa1000000 0xa107527f (IoPtr 4096) None)); vm_compute; reflexivity.
Defined.

Lemma new_space_spec_witness : exists s',
  new_space 480000 s0 = Ok (IoPtr 0, s') /\ p_space s' mod 4096 = 0.
Proof.
  exists (final (new_space 480000) s0). split; [vm_compute; reflexivity|].
  apply (new_space_spec 480000 s0 (IoPtr 0)); [lia|cbn; lia|reflexivity|].
  vm_compute; reflexivity.
Defined.

End IoMapWitness.
