(* ===== verification/DevBasic.v ===== *)
(** Simple devices: the host clock ([utils/timer.c]), alarms ([alarm.c]), the
    serial port ([serial.c]), the real-time clock ([timer.c]), VGA ([vga.c]) and
    audio ([audio.c]) of [nemu/src/device], with the empty [disk.c] and [intr.c]. *)

From S2P Require Import Prelude Config Machine HostMem Region IoMap.

Section DevBasic.
Context `{CFG : Config} `{HOST : Host}.

(** * Host time *)

(** One reading of the host clock. *)
Definition get_time_internal : M Machine Z := fun s =>
  Ok (u64 (host_time (time_reads s)), s <| time_reads := S (time_reads s) |>).

Definition get_time : M Machine Z :=
  b ← gets boot_time;
  (if b =? 0 then t ← get_time_internal; modify (fun s => s <| boot_time := t |>)
   else mret tt) ;;
  now ← get_time_internal;
  b ← gets boot_time;
  mret (u64 (now - b)).

(** * Alarms *)

Definition TIMER_HZ : Z := 60.
Definition MAX_HANDLER : nat := 8.

Definition add_alarm_handle (h : alarm_handler) : M Machine unit :=
  hs ← gets (fun s => alarm_handlers (dev s));
  c_assert (length hs <? MAX_HANDLER)%nat "idx < MAX_HANDLER" ;;
  modify (fun s => s <| dev -> alarm_handlers := hs ++ [h] |>).

(** [dev_raise_intr] of [intr.c] is empty. *)
Definition dev_raise_intr : M Machine unit := mret tt.

Definition timer_intr : M Machine unit :=
  n ← gets nemu_state;
  when (bool_decide (state n = NEMU_RUNNING)) dev_raise_intr.

Definition run_alarm_handler (h : alarm_handler) : M Machine unit :=
  match h with timer_intr_h => timer_intr end.

(** The handler of SIGVTALRM: every registered handler in order. *)
Fixpoint run_handlers (hs : list alarm_handler) : M Machine unit :=
  match hs with
  | [] => mret tt
  | h :: hs => run_alarm_handler h ;; run_handlers hs
  end.
Definition alarm_sig_handler : M Machine unit :=
  hs ← gets (fun s => alarm_handlers (dev s)); run_handlers hs.

(** * Serial port *)

Definition CH_OFFSET : Z := 0.

Definition serial_putc (ch : Z) : M Machine unit :=
  modify (fun s => s <| dev -> serial_out := serial_out (dev s) ++ [ch] |>).

Definition serial_io_handler (offset len : Z) (is_write : bool) : M Machine unit :=
  c_assert (len =? 1) "len == 1" ;;
  base ← gets (fun s => serial_base (dev s));
  if offset =? CH_OFFSET then
    (if is_write then
       lcr ← get8 base 3;
       if Z.land lcr 0x80 =? 0 then ch ← get8 base 0; serial_putc ch else mret tt
     else mret tt)
  else if (offset =? 1) || (offset =? 2) || (offset =? 3) || (offset =? 4) || (offset =? 6) ||
          (offset =? 7) then mret tt
  else if offset =? 5 then set8 base 5 0x60
  else panic "do not support offset".

Definition init_serial : M Machine unit :=
  base ← new_space 8;
  modify (fun s => s <| dev -> serial_base := base |>) ;;
  set8 base 3 0 ;;
  set8 base 5 0x60 ;;
  if CONFIG_PC_TRACE || CONFIG_BRANCH_TRACE then
    add_mmio_map "serial" 0x10000000 base 8 (Some serial_io)
  else if CONFIG_HAS_PORT_IO then add_pio_map "serial" CONFIG_SERIAL_PORT base 8 (Some serial_io)
  else add_mmio_map "serial" CONFIG_SERIAL_MMIO base 8 (Some serial_io).

(** * Real-time clock *)

Definition rtc_io_handler (offset len : Z) (is_write : bool) : M Machine unit :=
  c_assert ((offset =? 0) || (offset =? 4)) "offset == 0 || offset == 4" ;;
  if negb is_write && (offset =? 4) then
    us ← get_time;
    base ← gets (fun s => rtc_port_base (dev s));
    set32 base 0 (u32 us) ;;
    set32 base 1 (Z.shiftr us 32)
  else mret tt.

Definition init_timer : M Machine unit :=
  base ← new_space 8;
  modify (fun s => s <| dev -> rtc_port_base := base |>) ;;
  (if CONFIG_PC_TRACE || CONFIG_BRANCH_TRACE then
     add_mmio_map "rtc" 0x02000048 base 8 (Some rtc_io)
   else if CONFIG_HAS_PORT_IO then add_pio_map "rtc" CONFIG_RTC_PORT base 8 (Some rtc_io)
   else add_mmio_map "rtc" CONFIG_RTC_MMIO base 8 (Some rtc_io)) ;;
  add_alarm_handle timer_intr_h.

(** * VGA *)

Definition SCREEN_W : Z := if CONFIG_VGA_SIZE_800x600 then 800 else 400.
Definition SCREEN_H : Z := if CONFIG_VGA_SIZE_800x600 then 600 else 300.
Definition screen_width : Z := SCREEN_W.
Definition screen_height : Z := SCREEN_H.
Definition screen_size : Z := u32 (u32 (screen_width * screen_height) * 4).

(** The SDL calls of [update_screen] only show [vmem]; they are counted. *)
Definition update_screen : M Machine unit :=
  modify (fun s => s <| dev -> frames := frames (dev s) + 1 |>).

Definition vga_update_screen : M Machine unit :=
  base ← gets (fun s => vgactl_port_base (dev s));
  sync ← get32 base 1;
  when (sync =? 1) (when CONFIG_VGA_SHOW_SCREEN update_screen) ;;
  set32 base 1 0.

(** [memset(p, 0, n)] on the heap: an absent byte reads as zero. *)
Definition clear_bytes (h : heap) (p : ptr) (n : Z) : heap :=
  filter (fun kv => ~ (kv.1.1 = blk p /\ off p <= kv.1.2 < off p + n)) h.

Definition memset_zero (p : io_ptr) (n : Z) : M Machine unit := fun s =>
  if in_block (io_at p 0) n then Ok (tt, s <| mem := clear_bytes (mem s) (io_at p 0) n |>)
  else Abort (AUndef "memset outside its object").

Definition init_vga : M Machine unit :=
  base ← new_space 8;
  modify (fun s => s <| dev -> vgactl_port_base := base |>) ;;
  set32 base 0 (Z.lor (Z.shiftl screen_width 16) screen_height) ;;
  (if CONFIG_HAS_PORT_IO then add_pio_map "vgactl" CONFIG_VGA_CTL_PORT base 8 None
   else add_mmio_map "vgactl" CONFIG_VGA_CTL_MMIO base 8 None) ;;
  v ← new_space screen_size;
  modify (fun s => s <| dev -> vmem := v |>) ;;
  add_mmio_map "vmem" CONFIG_FB_ADDR v screen_size None ;;
  when CONFIG_VGA_SHOW_SCREEN (memset_zero v screen_size).

(** * Audio and disk *)

(** [reg_freq .. reg_count]: six registers. *)
Definition nr_reg : Z := 6.

Definition audio_io_handler (offset len : Z) (is_write : bool) : M Machine unit := mret tt.

Definition init_audio : M Machine unit :=
  let space_size := 4 * nr_reg in
  base ← new_space space_size;
  modify (fun s => s <| dev -> audio_base := base |>) ;;
  (if CONFIG_HAS_PORT_IO then
     add_pio_map "audio" CONFIG_AUDIO_CTL_PORT base space_size (Some audio_io)
   else add_mmio_map "audio" CONFIG_AUDIO_CTL_MMIO base space_size (Some audio_io)) ;;
  sb ← new_space CONFIG_SB_SIZE;
  modify (fun s => s <| dev -> sbuf := sb |>) ;;
  add_mmio_map "audio-sbuf" CONFIG_SB_ADDR sb CONFIG_SB_SIZE None.

Definition init_disk : M Machine unit := mret tt.

(** * Frames *)

Lemma store_within p n v : blk p = BIoSpace -> within io_frame (store p n v).
Proof.
  intros Hp s a s' H. unfold store in H. destruct (in_block _ _); inv_ok.
  constructor; cbn; try done.
  - intros b o Hb. apply peek_poke_other. left. congruence.
  - intros Hh. apply poke_bytes_ok; [done|]. apply le_split_bytes.
Qed.

Lemma load_within p n : within io_frame (load p n).
Proof. intros s a s' H. unfold load in H. destruct (in_block _ _); inv_ok. done. Qed.

Lemma set8_within p i v : within io_frame (set8 p i v).
Proof. by apply store_within. Qed.

Lemma set32_within p i v : within io_frame (set32 p i v).
Proof. by apply store_within. Qed.

Lemma get8_within p i : within io_frame (get8 p i).
Proof. apply load_within. Qed.

Lemma get32_within p i : within io_frame (get32 p i).
Proof. apply load_within. Qed.

(** Updates of the device statics and of the clock. *)
Lemma modify_within f :
  (forall s, cpu (f s) = cpu s /\ maps (f s) = maps s /\ nemu_state (f s) = nemu_state s /\
             wps (f s) = wps s /\ ref (f s) = ref s /\
             g_nr_guest_inst (f s) = g_nr_guest_inst s /\ pc_trace (f s) = pc_trace s /\
             mem (f s) = mem s) ->
  within io_frame (modify f).
Proof.
  intros H s a s' E. unfold modify in E. inv_ok.
  destruct (H s) as (?&?&?&?&?&?&?&Hm). constructor; try done; rewrite Hm; auto.
Qed.

Lemma get_time_internal_within : within io_frame get_time_internal.
Proof. intros s a s' H. unfold get_time_internal in H. inv_ok. done. Qed.

End DevBasic.

#[export] Hint Resolve load_within get8_within get32_within set8_within set32_within
  get_time_internal_within : nemu.
#[export] Hint Extern 2 (within io_frame (modify _)) =>
  apply modify_within; intros; split_and!; reflexivity : nemu.

Section Handlers.
Context `{CFG : Config} `{HOST : Host}.

Lemma get_time_within : within io_frame get_time.
Proof. unfold get_time. within. Qed.

Lemma serial_within offset len w : within io_frame (serial_io_handler offset len w).
Proof. unfold serial_io_handler, serial_putc. within. Qed.

Lemma rtc_within offset len w : within io_frame (rtc_io_handler offset len w).
Proof. pose proof get_time_within. unfold rtc_io_handler. within. Qed.

End Handlers.
