(* ===== verification/Keyboard.v ===== *)
(** The keyboard controller: [nemu/src/device/keyboard.c].

    Key codes wait in a ring of 1024 slots between [send_key] and the guest's
    reads of the data port. [queue] is the sequence of codes the ring holds;
    [kbd_refines] shows that any interleaving of [key_enqueue] and [key_dequeue]
    behaves as a first-in first-out queue that overflows at the 1024th code. *)

From S2P Require Import Prelude Config Machine HostMem Region IoMap DevBasic.

Definition KEYDOWN_MASK : Z := 0x8000.
Definition NEMU_KEY_NONE : Z := 0.

(** [NEMU_KEYS(f)]: the keys in the order of the enumeration; [NEMU_KEY_k] is the
    position of [k], from 1. *)
Definition NEMU_KEYS : list string := [
  "ESCAPE"; "F1"; "F2"; "F3"; "F4"; "F5"; "F6"; "F7"; "F8"; "F9"; "F10"; "F11"; "F12";
  "GRAVE"; "1"; "2"; "3"; "4"; "5"; "6"; "7"; "8"; "9"; "0"; "MINUS"; "EQUALS"; "BACKSPACE";
  "TAB"; "Q"; "W"; "E"; "R"; "T"; "Y"; "U"; "I"; "O"; "P"; "LEFTBRACKET"; "RIGHTBRACKET";
  "BACKSLASH"; "CAPSLOCK"; "A"; "S"; "D"; "F"; "G"; "H"; "J"; "K"; "L"; "SEMICOLON";
  "APOSTROPHE"; "RETURN"; "LSHIFT"; "Z"; "X"; "C"; "V"; "B"; "N"; "M"; "COMMA"; "PERIOD";
  "SLASH"; "RSHIFT"; "LCTRL"; "APPLICATION"; "LALT"; "SPACE"; "RALT"; "RCTRL"; "UP"; "DOWN";
  "LEFT"; "RIGHT"; "INSERT"; "DELETE"; "HOME"; "END"; "PAGEUP"; "PAGEDOWN" ]%string.

Section Keyboard.
Context `{CFG : Config} `{HOST : Host}.

(** [keymap[SDL_SCANCODE_k] = NEMU_KEY_k;] for each key, in order. *)
Fixpoint fill_keymap (ks : list string) (code : Z) (km : list Z) : list Z :=
  match ks with
  | [] => km
  | k :: ks => fill_keymap ks (code + 1) (<[Z.to_nat (sdl_scancode k) := code]> km)
  end.

Definition init_keymap : M Machine unit :=
  modify (fun s => s <| dev -> keymap := fill_keymap NEMU_KEYS 1 (keymap (dev s)) |>).

Definition key_enqueue (am_scancode : Z) : M Machine unit :=
  r ← gets (fun s => key_r (dev s));
  modify (fun s => s <| dev -> key_queue := <[Z.to_nat r := s32 am_scancode]> (key_queue (dev s)) |>) ;;
  modify (fun s => s <| dev -> key_r := (r + 1) mod KEY_QUEUE_LEN |>) ;;
  d ← gets dev;
  if key_r d =? key_f d then panic "key queue overflow!" else mret tt.

Definition key_dequeue : M Machine Z :=
  d ← gets dev;
  if key_f d =? key_r d then mret NEMU_KEY_NONE
  else
    let key := u32 (nth (Z.to_nat (key_f d)) (key_queue d) 0) in
    modify (fun s => s <| dev -> key_f := (key_f d + 1) mod KEY_QUEUE_LEN |>) ;;
    mret key.

Definition send_key (scancode : Z) (is_keydown : bool) : M Machine unit :=
  n ← gets nemu_state;
  d ← gets dev;
  let code := nth (Z.to_nat scancode) (keymap d) 0 in
  if bool_decide (state n = NEMU_RUNNING) && negb (code =? NEMU_KEY_NONE) then
    key_enqueue (Z.lor code (if is_keydown then KEYDOWN_MASK else 0))
  else mret tt.

Definition i8042_data_io_handler (offset len : Z) (is_write : bool) : M Machine unit :=
  c_assert (negb is_write) "!is_write" ;;
  c_assert (offset =? 0) "offset == 0" ;;
  key ← key_dequeue;
  base ← gets (fun s => i8042_data_port_base (dev s));
  set32 base 0 key.

Definition init_i8042 : M Machine unit :=
  base ← new_space 4;
  modify (fun s => s <| dev -> i8042_data_port_base := base |>) ;;
  set32 base 0 NEMU_KEY_NONE ;;
  (if CONFIG_HAS_PORT_IO then
     add_pio_map "keyboard" CONFIG_I8042_DATA_PORT base 4 (Some i8042_data_io)
   else add_mmio_map "keyboard" CONFIG_I8042_DATA_MMIO base 4 (Some i8042_data_io)) ;;
  init_keymap.

Lemma key_dequeue_within : within io_frame key_dequeue.
Proof. unfold key_dequeue. within. Qed.

Lemma key_enqueue_within v : within io_frame (key_enqueue v).
Proof. unfold key_enqueue. within. Qed.

Lemma i8042_within offset len w : within io_frame (i8042_data_io_handler offset len w).
Proof. pose proof key_dequeue_within. unfold i8042_data_io_handler. within. Qed.

(** * The queue the ring holds *)

Definition ring_ok (d : DevState) : Prop :=
  length (key_queue d) = 1024%nat /\ 0 <= key_f d < 1024 /\ 0 <= key_r d < 1024.

Definition slot (d : DevState) (i : Z) : Z :=
  u32 (nth (Z.to_nat ((key_f d + i) mod 1024)) (key_queue d) 0).

Definition queue (d : DevState) : list Z := slot d <$> seqZ 0 ((key_r d - key_f d) mod 1024).

Lemma ring_index f r i :
  0 <= f < 1024 -> 0 <= r < 1024 -> 0 <= i < (r - f) mod 1024 -> (f + i) mod 1024 <> r.
Proof. intros. Z.div_mod_to_equations. lia. Qed.

Lemma queue_enqueue d v :
  ring_ok d -> in_u 32 v -> (key_r d + 1) mod 1024 <> key_f d ->
  let d' := d <| key_queue := <[Z.to_nat (key_r d) := s32 v]> (key_queue d) |>
              <| key_r := (key_r d + 1) mod 1024 |> in
  ring_ok d' /\ queue d' = queue d ++ [v].
Proof.
  intros (Hl & Hf & Hr) Hv Hne d'. split.
  { unfold ring_ok, d'. cbn. rewrite length_insert.
    pose proof (Z.mod_pos_bound (key_r d + 1) 1024). lia. }
  unfold queue, d'. cbn.
  assert (((key_r d + 1) mod 1024 - key_f d) mod 1024 = (key_r d - key_f d) mod 1024 + 1) as ->.
  { Z.div_mod_to_equations. lia. }
  pose proof (Z.mod_pos_bound (key_r d - key_f d) 1024 ltac:(lia)).
  rewrite seqZ_app, fmap_app by lia. rewrite Z.add_0_l. f_equal.
  - apply list_fmap_ext. intros i x Hx. apply lookup_seqZ in Hx as [-> Hi].
    unfold slot. cbn. f_equal.
    rewrite !nth_lookup, list_lookup_insert_ne; [done|].
    pose proof (ring_index (key_f d) (key_r d) (0 + Z.of_nat i) Hf Hr ltac:(lia)).
    pose proof (Z.mod_pos_bound (key_f d + (0 + Z.of_nat i)) 1024 ltac:(lia)). lia.
  - rewrite seqZ_cons, (seqZ_nil _ (Z.pred 1)) by lia. cbn. f_equal. unfold slot. cbn.
    replace ((key_f d + _) mod 1024) with (key_r d) by (Z.div_mod_to_equations; lia).
    rewrite nth_lookup, list_lookup_insert_eq by lia. cbn.
    rewrite wrap_sgn. by apply wrap_id.
Qed.

Lemma queue_dequeue d :
  ring_ok d -> key_f d <> key_r d ->
  let d' := d <| key_f := (key_f d + 1) mod 1024 |> in
  ring_ok d' /\ queue d = slot d 0 :: queue d'.
Proof.
  intros (Hl & Hf & Hr) Hne d'. split.
  { unfold ring_ok, d'. cbn. pose proof (Z.mod_pos_bound (key_f d + 1) 1024). lia. }
  unfold queue, d'. cbn.
  assert ((key_r d - key_f d) mod 1024 = Z.succ ((key_r d - (key_f d + 1) mod 1024) mod 1024)) as ->.
  { Z.div_mod_to_equations. lia. }
  pose proof (Z.mod_pos_bound (key_r d - (key_f d + 1) mod 1024) 1024 ltac:(lia)).
  rewrite seqZ_cons by lia. rewrite Z.pred_succ. cbn. f_equal.
  rewrite <- (fmap_add_seqZ 1 0), <- list_fmap_compose. apply list_fmap_ext.
  intros i x _. unfold slot. cbn. do 3 f_equal.
  rewrite Z.add_mod_idemp_l by lia. f_equal. lia.
Qed.

Lemma queue_empty d : ring_ok d -> queue d = [] <-> key_f d = key_r d.
Proof.
  intros Hok. destruct (decide (key_f d = key_r d)) as [E|E].
  - unfold queue. rewrite E, Z.sub_diag. done.
  - destruct (queue_dequeue d Hok E) as [_ ->]. split; [done|congruence].
Qed.

Lemma queue_full d : ring_ok d -> (length (queue d) = 1023)%nat <-> (key_r d + 1) mod 1024 = key_f d.
Proof.
  intros (Hl & Hf & Hr). unfold queue. rewrite length_fmap, length_seqZ.
  Z.div_mod_to_equations. lia.
Qed.

(** The two operations, on every branch. *)
Lemma key_enqueue_spec v s :
  ring_ok (dev s) -> in_u 32 v ->
  if (length (queue (dev s)) =? 1023)%nat then exists m, key_enqueue v s = Abort (APanic m)
  else exists d', key_enqueue v s = Ok (tt, s <| dev := d' |>) /\ ring_ok d' /\
       queue d' = queue (dev s) ++ [v].
Proof.
  intros Hok Hv. unfold key_enqueue, mbind, M_bind, gets, modify. cbn.
  destruct (Nat.eqb_spec (length (queue (dev s))) 1023) as [E|E].
  - apply queue_full in E; [|done]. unfold KEY_QUEUE_LEN. rewrite E, Z.eqb_refl. eexists. done.
  - rewrite queue_full in E by done. unfold KEY_QUEUE_LEN.
    destruct (Z.eqb_spec ((key_r (dev s) + 1) mod 1024) (key_f (dev s))); [done|].
    eexists. split; [reflexivity|]. by apply (queue_enqueue (dev s) v).
Qed.

Lemma key_dequeue_spec s :
  ring_ok (dev s) ->
  match queue (dev s) with
  | [] => key_dequeue s = Ok (NEMU_KEY_NONE, s)
  | v :: q => exists d', key_dequeue s = Ok (v, s <| dev := d' |>) /\ ring_ok d' /\ queue d' = q
  end.
Proof.
  intros Hok. unfold key_dequeue, mbind, M_bind, gets, modify.
  destruct (Z.eqb_spec (key_f (dev s)) (key_r (dev s))) as [E|E].
  - apply queue_empty in E; [|done]. by rewrite E.
  - destruct (queue_dequeue _ Hok E) as [Hok' ->]. eexists. split; [|by split].
    cbn. unfold slot, KEY_QUEUE_LEN. rewrite Z.add_0_r, (Z.mod_small (key_f (dev s))); [done|apply Hok].
Qed.

(** * Interleavings *)

Inductive kop : Type := Enq (v : Z) | Deq.

Definition kop_ok (o : kop) : Prop := match o with Enq v => in_u 32 v | Deq => True end.

(** The operations in sequence, with what the dequeues return. *)
Fixpoint run_ops (ops : list kop) : M Machine (list Z) :=
  match ops with
  | [] => mret []
  | Enq v :: ops => key_enqueue v ;; run_ops ops
  | Deq :: ops => k ← key_dequeue; ks ← run_ops ops; mret (k :: ks)
  end.

(** The specification: a queue of at most 1023 codes; [None] is overflow. *)
Fixpoint spec_ops (ops : list kop) (q : list Z) : option (list Z * list Z) :=
  match ops with
  | [] => Some ([], q)
  | Enq v :: ops => if (length q =? 1023)%nat then None else spec_ops ops (q ++ [v])
  | Deq :: ops =>
      match q with
      | [] => '(ks, q') ← spec_ops ops []; Some (NEMU_KEY_NONE :: ks, q')
      | k :: q => '(ks, q') ← spec_ops ops q; Some (k :: ks, q')
      end
  end.

(** C22. The keyboard ring refines a bounded queue: any interleaving of [key_enqueue]
    and [key_dequeue] returns the codes in the order they came in, returns
    [NEMU_KEY_NONE] when no code waits, changes no state but the ring, and stops
    with the overflow assertion exactly when a code arrives while 1023 wait. *)
Theorem kbd_refines ops s :
  ring_ok (dev s) -> Forall kop_ok ops ->
  match spec_ops ops (queue (dev s)) with
  | Some (ks, q') => exists d', run_ops ops s = Ok (ks, s <| dev := d' |>) /\ ring_ok d' /\ queue d' = q'
  | None => exists m, run_ops ops s = Abort (APanic m)
  end.
Proof.
  intros Hok Hops. revert s Hok. induction Hops as [|o ops Ho _ IH]; intros s Hok.
  { exists (dev s). split_and!; [|done|done]. by destruct s. }
  destruct o as [v|]; cbn [spec_ops run_ops].
  - pose proof (key_enqueue_spec v s Hok Ho) as He.
    destruct (_ =? 1023)%nat.
    + destruct He as [m He]. exists m. by apply bind_abort.
    + destruct He as (d1 & He & Hok1 & Hq). rewrite (bind_run _ _ _ _ _ He).
      specialize (IH (s <| dev := d1 |>) Hok1). cbn in IH. rewrite Hq in IH. exact IH.
  - pose proof (key_dequeue_spec s Hok) as Hd. destruct (queue (dev s)) as [|k q] eqn:Eq.
    + rewrite (bind_run _ _ _ _ _ Hd). specialize (IH s Hok). rewrite Eq in IH.
      destruct (spec_ops ops []) as [[ks q']|]; cbn.
      * destruct IH as (d' & Hr & Hd'). exists d'. rewrite (bind_run _ _ _ _ _ Hr). done.
      * destruct IH as [m Hr]. exists m. by apply bind_abort.
    + destruct Hd as (d1 & Hd & Hok1 & Hq). rewrite (bind_run _ _ _ _ _ Hd).
      specialize (IH (s <| dev := d1 |>) Hok1). cbn in IH. rewrite Hq in IH.
      destruct (spec_ops ops q) as [[ks q']|]; cbn.
      * destruct IH as (d' & Hr & Hd'). exists d'. rewrite (bind_run _ _ _ _ _ Hr). done.
      * destruct IH as [m Hr]. exists m. by apply bind_abort.
Qed.

End Keyboard.

Module KeyboardWitness.

#[local] Instance cfg : Config := kconfig false true false.
#[local] Instance host : Host := null_host.

Definition s0 : Machine := machine_zero ∅ tt.

Lemma kbd_refines_witness : exists d',
  run_ops [Deq; Enq 0x8001; Enq 1; Deq; Deq] s0 =
    Ok ([0; 0x8001; 1], s0 <| dev := d' |>) /\ ring_ok d' /\ queue d' = [].
Proof.
  apply (kbd_refines [Deq; Enq 0x8001; Enq 1; Deq; Deq] s0).
  - unfold ring_ok, s0, machine_zero, dev_zero. cbn [dev key_queue key_f key_r].
    rewrite length_replicate. lia.
  - repeat constructor; cbn; lia.
Defined.

End KeyboardWitness.
