(* ===== verification/Sdcard.v ===== *)
(** The SD card controller: [nemu/src/device/sdcard.c], with the command numbers
    of [mmc.h].

    The guest writes an argument and a command to the register block, then moves
    data through the register [SDDATA], one word per access. The card image is a
    host file, modelled by its bytes and the file position. *)

From S2P Require Import Prelude Config Machine HostMem Region IoMap DevBasic.

(** [mmc.h] *)
Definition MMC_GO_IDLE_STATE : Z := 0.
Definition MMC_SEND_OP_COND : Z := 1.
Definition MMC_ALL_SEND_CID : Z := 2.
Definition MMC_SET_RELATIVE_ADDR : Z := 3.
Definition MMC_SLEEP_AWAKE : Z := 5.
Definition MMC_SELECT_CARD : Z := 7.
Definition MMC_SEND_EXT_CSD : Z := 8.
Definition MMC_SEND_CSD : Z := 9.
Definition MMC_STOP_TRANSMISSION : Z := 12.
Definition MMC_SEND_STATUS : Z := 13.
Definition MMC_READ_MULTIPLE_BLOCK : Z := 18.
Definition MMC_SET_BLOCK_COUNT : Z := 23.
Definition MMC_WRITE_MULTIPLE_BLOCK : Z := 25.
Definition MMC_APP_CMD : Z := 55.

Definition MEMORY_SIZE : Z := 16 * 1024 * 1024 * 1024.
Definition READ_BL_LEN : Z := 15.
Definition BLOCK_LEN : Z := Z.shiftl 1 READ_BL_LEN.
Definition NR_BLOCK : Z := MEMORY_SIZE / BLOCK_LEN.
Definition C_SIZE_MULT : Z := 7.
Definition MULT : Z := Z.shiftl 1 (C_SIZE_MULT + 2).
Definition C_SIZE : Z := NR_BLOCK / MULT - 1.

(** The register indices. *)
Definition SDCMD : Z := 0.
Definition SDARG : Z := 1.
Definition SDRSP0 : Z := 4.
Definition SDRSP1 : Z := 5.
Definition SDRSP2 : Z := 6.
Definition SDRSP3 : Z := 7.
Definition SDDATA : Z := 16.

(** * The host file *)

Definition fseek (f : file) (p : Z) : file := f <| fpos := p |>.

(** [fread] of four bytes: those that are there. *)
Definition fread4 (f : file) : list Z * file :=
  let bs := u8 <$> take 4 (drop (Z.to_nat (fpos f)) (fdata f)) in
  (bs, f <| fpos := fpos f + Z.of_nat (length bs) |>).

(** [fwrite] of [bs] at the file position; a gap after the end reads as zero. *)
Definition fwrite (f : file) (bs : list Z) : file :=
  let p := Z.to_nat (fpos f) in
  let before := take p (fdata f) ++ replicate (p - length (fdata f)) 0 in
  mkFile (before ++ bs ++ drop (p + length bs) (fdata f)) (fpos f + Z.of_nat (length bs)).

Section Sdcard.
Context `{CFG : Config} `{HOST : Host}.

Definition upd_sd (f : SdState -> SdState) : M Machine unit :=
  modify (fun s => update dev (update sd f) s).

Definition prepare_rw (is_write : bool) : M Machine unit :=
  base ← gets (fun s => sd_base (sd (dev s)));
  arg ← get32 base SDARG;
  upd_sd (fun d => d <| blk_addr := arg |>) ;;
  upd_sd (fun d => d <| sd_addr := 0 |>) ;;
  upd_sd (fun d => d <| sd_fp := (fun f => fseek f (Z.shiftl (blk_addr d) 9)) <$> sd_fp d |>) ;;
  upd_sd (fun d => d <| write_cmd := is_write |>).

Definition sdcard_handle_cmd (cmd : Z) : M Machine unit :=
  base ← gets (fun s => sd_base (sd (dev s)));
  if cmd =? MMC_GO_IDLE_STATE then mret tt
  else if cmd =? MMC_SEND_OP_COND then set32 base SDRSP0 0x80ff8000
  else if cmd =? MMC_ALL_SEND_CID then
    set32 base SDRSP0 0x00000001 ;;
    set32 base SDRSP1 0x00000000 ;;
    set32 base SDRSP2 0x00000000 ;;
    set32 base SDRSP3 0x15000000
  else if cmd =? 52 then mret tt
  else if cmd =? MMC_SEND_CSD then
    set32 base SDRSP0 0x92404001 ;;
    set32 base SDRSP1 (Z.lor 0x124b97e3 (Z.shiftl (Z.land C_SIZE 0x3) 30)) ;;
    set32 base SDRSP2 (Z.lor (Z.lor 0x0f508000 (Z.shiftr C_SIZE 2)) (Z.shiftl READ_BL_LEN 16)) ;;
    set32 base SDRSP3 0x9026012a
  else if cmd =? MMC_SEND_EXT_CSD then
    upd_sd (fun d => d <| read_ext_csd := true |>) ;; upd_sd (fun d => d <| sd_addr := 0 |>)
  else if cmd =? MMC_SLEEP_AWAKE then mret tt
  else if cmd =? MMC_APP_CMD then mret tt
  else if cmd =? MMC_SET_RELATIVE_ADDR then mret tt
  else if cmd =? MMC_SELECT_CARD then mret tt
  else if cmd =? MMC_SET_BLOCK_COUNT then
    arg ← get32 base SDARG; upd_sd (fun d => d <| blkcnt := Z.land arg 0xffff |>)
  else if cmd =? MMC_READ_MULTIPLE_BLOCK then prepare_rw false
  else if cmd =? MMC_WRITE_MULTIPLE_BLOCK then prepare_rw true
  else if cmd =? MMC_SEND_STATUS then
    set32 base SDRSP0 0x900 ;;
    set32 base SDRSP3 0 ;;
    set32 base SDRSP2 0 ;;
    set32 base SDRSP1 0
  else if cmd =? MMC_STOP_TRANSMISSION then mret tt
  else panic "unhandled command".

(** The word of the extended CSD at byte [addr]. *)
Definition ext_csd_word (addr : Z) : Z :=
  if addr =? 192 then 2 else if addr =? 212 then u32 (MEMORY_SIZE / 512) else 0.

(** The bytes of [base[SDDATA]] as they lie in memory. *)
Definition poke_data (base : io_ptr) (bs : list Z) : M Machine unit := fun s =>
  let p := io_at base (4 * SDDATA) in
  if in_block p 4 then Ok (tt, s <| mem := poke_bytes (mem s) (blk p) (off p) bs |>)
  else Abort (AUndef "fread outside its object").
Definition peek_data (base : io_ptr) : M Machine (list Z) := fun s =>
  let p := io_at base (4 * SDDATA) in
  if in_block p 4 then Ok (peek_bytes (mem s) (blk p) (off p) 4, s)
  else Abort (AUndef "fwrite outside its object").

(** The case [SDDATA] of the handler. *)
Definition sdcard_data : M Machine unit :=
  d ← gets (fun s => sd (dev s));
  let base := sd_base d in
  (if read_ext_csd d then
     set32 base SDDATA (ext_csd_word (sd_addr d)) ;;
     when (sd_addr d =? 512 - 4) (upd_sd (fun d => d <| read_ext_csd := false |>))
   else
     match sd_fp d with
     | None => mret tt
     | Some f =>
         if negb (write_cmd d) then
           let '(bs, f') := fread4 f in
           poke_data base bs ;; upd_sd (fun d => d <| sd_fp := Some f' |>)
         else
           bs ← peek_data base; upd_sd (fun d => d <| sd_fp := Some (fwrite f bs) |>)
     end) ;;
  upd_sd (fun d => d <| sd_addr := u32 (sd_addr d + 4) |>).

Definition sdcard_io_handler (offset len : Z) (is_write : bool) : M Machine unit :=
  base ← gets (fun s => sd_base (sd (dev s)));
  let idx := offset / 4 in
  if idx =? SDCMD then cmd ← get32 base SDCMD; sdcard_handle_cmd (Z.land cmd 0x3f)
  else if (idx =? SDARG) || (idx =? SDRSP0) || (idx =? SDRSP1) || (idx =? SDRSP2) ||
          (idx =? SDRSP3) then mret tt
  else if idx =? SDDATA then sdcard_data
  else panic "unhandle offset".

Definition init_sdcard : M Machine unit :=
  base ← new_space 0x80;
  upd_sd (fun d => d <| sd_base := base |>) ;;
  add_mmio_map "sdhci" CONFIG_SDCARD_CTL_MMIO base 0x80 (Some sdcard_io) ;;
  (if C_SIZE <? Z.shiftl 1 12 then mret tt else panic "shoule be fit in 12 bits") ;;
  upd_sd (fun d => d <| sd_fp := (fun data => mkFile data 0) <$> sdcard_image |>).

(** * Frame *)

Lemma upd_sd_within f : within io_frame (upd_sd f).
Proof. apply modify_within. intros s. split_and!; reflexivity. Qed.

Lemma peek_data_within base : within io_frame (peek_data base).
Proof. intros s a s' H. unfold peek_data in H. destruct (in_block _ _); inv_ok. done. Qed.

Lemma poke_data_frame base bs : Forall (in_u 8) bs -> within io_frame (poke_data base bs).
Proof.
  intros Hb s a s' H. unfold poke_data in H. destruct (in_block _ _); inv_ok.
  constructor; cbn; try done.
  - intros b o Hne. apply peek_poke_other. left. congruence.
  - intros Hh. by apply poke_bytes_ok.
Qed.

Lemma fread4_bytes f : Forall (in_u 8) (fread4 f).1.
Proof. cbn. apply Forall_fmap, Forall_true. intros x. by apply wrap_in_u. Qed.

Lemma sdcard_data_within : within io_frame sdcard_data.
Proof.
  unfold sdcard_data. apply within_bind; [apply _|by within|intros d].
  apply within_bind; [apply _| |intros; apply upd_sd_within].
  destruct (read_ext_csd d); [within; auto using set32_within, upd_sd_within|].
  destruct (sd_fp d) as [f|]; [|by within]. destruct (negb (write_cmd d)).
  - pose proof (fread4_bytes f) as Hb. destruct (fread4 f) as [bs f']. cbn in Hb.
    apply within_bind; [apply _|by apply poke_data_frame|intros; apply upd_sd_within].
  - apply within_bind; [apply _|apply peek_data_within|intros; apply upd_sd_within].
Qed.

End Sdcard.

#[export] Hint Resolve upd_sd_within peek_data_within : nemu.

Section SdcardFrame.
Context `{CFG : Config} `{HOST : Host}.

Lemma sdcard_cmd_within cmd : within io_frame (sdcard_handle_cmd cmd).
Proof. unfold sdcard_handle_cmd, prepare_rw. within. Qed.

Lemma sdcard_within offset len w : within io_frame (sdcard_io_handler offset len w).
Proof.
  pose proof sdcard_data_within. pose proof sdcard_cmd_within.
  unfold sdcard_io_handler. within.
Qed.

End SdcardFrame.
