(* ===== verification/Device.v ===== *)
(** The device layer put together: [nemu/src/device/device.c].

    [device_callbacks] gives the function behind each callback tag, and
    [device_callbacks_ok] discharges what the bus expects of them. *)

From S2P Require Import Prelude Config Machine HostMem Region IoMap DevBasic Keyboard Sdcard.

Section Device.
Context `{CFG : Config} `{HOST : Host}.

#[global] Instance device_callbacks : Callbacks := {|
  run_callback c :=
    match c with
    | serial_io => serial_io_handler
    | rtc_io => rtc_io_handler
    | i8042_data_io => i8042_data_io_handler
    | audio_io => audio_io_handler
    | sdcard_io => sdcard_io_handler
    end
|}.

#[global] Instance device_callbacks_ok : CallbacksOk.
Proof.
  intros c offset len w. destruct c; cbn.
  - apply serial_within.
  - apply rtc_within.
  - apply i8042_within.
  - apply within_ret, _.
  - apply sdcard_within.
Qed.

(** One event of the polling loop. *)
Definition handle_event (e : sdl_event) : M Machine unit :=
  match e with
  | SDL_QUIT => modify (fun s => s <| nemu_state -> state := NEMU_QUIT |>)
  | SDL_KEY scancode down =>
      if CONFIG_HAS_KEYBOARD then send_key (u8 scancode) down else mret tt
  | SDL_OTHER => mret tt
  end.

Fixpoint handle_events (es : list sdl_event) : M Machine unit :=
  match es with
  | [] => mret tt
  | e :: es => handle_event e ;; handle_events es
  end.

(** [while (SDL_PollEvent(&event)) ...] takes the waiting events. *)
Definition poll_events : M Machine (list sdl_event) := fun s =>
  Ok (sdl_queue (polls s), s <| polls := S (polls s) |>).

Definition device_update : M Machine unit :=
  now ← get_time;
  last ← gets (fun s => last_update (dev s));
  if u64 (now - last) <? 1000000 / TIMER_HZ then mret tt
  else
    modify (fun s => s <| dev -> last_update := now |>) ;;
    when CONFIG_HAS_VGA vga_update_screen ;;
    es ← poll_events;
    handle_events es.

Definition sdl_clear_event_queue : M Machine unit := _ ← poll_events; mret tt.

Definition init_device : M Machine unit :=
  init_map ;;
  when CONFIG_HAS_SERIAL init_serial ;;
  when CONFIG_HAS_TIMER init_timer ;;
  when CONFIG_HAS_VGA init_vga ;;
  when CONFIG_HAS_KEYBOARD init_i8042 ;;
  when CONFIG_HAS_AUDIO init_audio ;;
  when CONFIG_HAS_DISK init_disk ;;
  when CONFIG_HAS_SDCARD init_sdcard.

End Device.
