(* ===== verification/Paddr.v ===== *)
(** Guest memory: [nemu/src/memory/paddr.c] and [vaddr.c].

    A guest physical address goes to the first region that contains it, or to
    the MMIO bus, or stops the emulator. In the builds that model the SoC
    ([soc_memory]) the regions are tested in the order sram, mrom, flash, psram,
    sdram, pmem; otherwise there is only [pmem]. *)

From S2P Require Import Prelude Config Machine HostMem Region IoMap.

Section Paddr.
Context `{CFG : Config} `{HOST : Host} `{CB : !Callbacks}.

Definition pmem_guest_to_host (paddr : Z) : ptr := Ptr BPmem (paddr - CONFIG_MBASE).
Definition mrom_guest_to_host (paddr : Z) : ptr := Ptr BMrom (paddr - CONFIG_MROM_BASE).
Definition flash_guest_to_host (paddr : Z) : ptr := Ptr BFlash (paddr - CONFIG_FLASH_BASE).
Definition sram_guest_to_host (paddr : Z) : ptr := Ptr BSram (paddr - CONFIG_SRAM_BASE).
Definition psram_guest_to_host (paddr : Z) : ptr := Ptr BPsram (paddr - CONFIG_PSRAM_BASE).

Definition guest_to_host (paddr : Z) : M Machine ptr :=
  if soc_memory then
    if in_sram paddr then mret (sram_guest_to_host paddr)
    else if in_mrom paddr then mret (mrom_guest_to_host paddr)
    else if in_flash paddr then mret (flash_guest_to_host paddr)
    else if in_psram paddr then mret (psram_guest_to_host paddr)
    else if in_sdram paddr then mret (Ptr BSdram (paddr - CONFIG_SDRAM_BASE))
    else if in_pmem paddr then mret (pmem_guest_to_host paddr)
    else panic "guest address is not backed by REF memory"
  else mret (pmem_guest_to_host paddr).

(** [haddr - pmem + CONFIG_MBASE] for a pointer into [pmem]. *)
Definition host_to_guest (haddr : ptr) : Z := u32 (off haddr + CONFIG_MBASE).

Definition pmem_read (addr len : Z) : M Machine Z := p ← guest_to_host addr; host_read p len.
Definition mrom_read (addr len : Z) : M Machine Z :=
  host_read (Ptr BMrom (addr - CONFIG_MROM_BASE)) len.
Definition psram_read (addr len : Z) : M Machine Z :=
  host_read (Ptr BPsram (addr - CONFIG_PSRAM_BASE)) len.
Definition sram_read (addr len : Z) : M Machine Z :=
  host_read (Ptr BSram (addr - CONFIG_SRAM_BASE)) len.
Definition flash_read (addr len : Z) : M Machine Z :=
  host_read (Ptr BFlash (addr - CONFIG_FLASH_BASE)) len.
Definition sdram_read (addr len : Z) : M Machine Z :=
  host_read (Ptr BSdram (addr - CONFIG_SDRAM_BASE)) len.

Definition pmem_write (addr len data : Z) : M Machine unit :=
  p ← guest_to_host addr; host_write p len data.
Definition sram_write (addr len data : Z) : M Machine unit :=
  host_write (Ptr BSram (addr - CONFIG_SRAM_BASE)) len data.
Definition psram_write (addr len data : Z) : M Machine unit :=
  host_write (Ptr BPsram (addr - CONFIG_PSRAM_BASE)) len data.
Definition flash_write (addr len data : Z) : M Machine unit :=
  host_write (Ptr BFlash (addr - CONFIG_FLASH_BASE)) len data.
Definition sdram_write (addr len data : Z) : M Machine unit :=
  host_write (Ptr BSdram (addr - CONFIG_SDRAM_BASE)) len data.

Definition out_of_bound {A} (addr : Z) : M Machine A := panic "address is out of bound of pmem".

Definition paddr_read (addr len : Z) : M Machine Z :=
  let rest := if CONFIG_DEVICE then mmio_read addr len else out_of_bound addr in
  if soc_memory then
    if in_sram addr then sram_read addr len
    else if in_mrom addr then mrom_read addr len
    else if in_flash addr then flash_read addr len
    else if in_psram addr then psram_read addr len
    else if in_sdram addr then sdram_read addr len
    else if in_pmem addr then pmem_read addr len
    else rest
  else if in_pmem addr then pmem_read addr len
  else rest.

Definition paddr_write (addr len data : Z) : M Machine unit :=
  let rest := if CONFIG_DEVICE then mmio_write addr len data else out_of_bound addr in
  if soc_memory then
    if in_sram addr then sram_write addr len data
    else if in_mrom addr then panic "address in mrom is not writable"
    else if in_flash addr then flash_write addr len data
    else if in_psram addr then psram_write addr len data
    else if in_sdram addr then sdram_write addr len data
    else if in_pmem addr then pmem_write addr len data
    else rest
  else if in_pmem addr then pmem_write addr len data
  else rest.

(** [vaddr.c]: no address translation. *)
Definition vaddr_ifetch (addr len : Z) : M Machine Z := paddr_read addr len.
Definition vaddr_read (addr len : Z) : M Machine Z := paddr_read addr len.
Definition vaddr_write (addr len data : Z) : M Machine unit := paddr_write addr len data.

(** * Addresses backed by memory *)

(** The host byte behind a guest address. *)
Definition ram_ptr (addr : Z) : option ptr :=
  if soc_memory then
    if in_sram addr then Some (Ptr BSram (addr - CONFIG_SRAM_BASE))
    else if in_mrom addr then Some (Ptr BMrom (addr - CONFIG_MROM_BASE))
    else if in_flash addr then Some (Ptr BFlash (addr - CONFIG_FLASH_BASE))
    else if in_psram addr then Some (Ptr BPsram (addr - CONFIG_PSRAM_BASE))
    else if in_sdram addr then Some (Ptr BSdram (addr - CONFIG_SDRAM_BASE))
    else if in_pmem addr then Some (Ptr BPmem (addr - CONFIG_MBASE))
    else None
  else if in_pmem addr then Some (Ptr BPmem (addr - CONFIG_MBASE)) else None.

Lemma paddr_read_ram addr p len s :
  ram_ptr addr = Some p -> paddr_read addr len s = host_read p len s.
Proof.
  unfold ram_ptr, paddr_read, pmem_read, guest_to_host. intros H.
  repeat case_match; simplify_eq; done.
Qed.

Lemma paddr_write_ram addr p len data s :
  ram_ptr addr = Some p -> blk p <> BMrom ->
  paddr_write addr len data s = host_write p len data s.
Proof.
  unfold ram_ptr, paddr_write, pmem_write, guest_to_host. intros H Hm.
  repeat case_match; simplify_eq; done.
Qed.

Lemma paddr_write_mrom addr p len data s :
  ram_ptr addr = Some p -> blk p = BMrom ->
  exists m, paddr_write addr len data s = Abort (APanic m).
Proof.
  unfold ram_ptr, paddr_write. intros H Hm.
  repeat case_match; simplify_eq; try done. by eexists.
Qed.

Definition block_base (b : block) : Z :=
  match b with
  | BPmem => CONFIG_MBASE | BMrom => CONFIG_MROM_BASE | BSram => CONFIG_SRAM_BASE
  | BPsram => CONFIG_PSRAM_BASE | BFlash => CONFIG_FLASH_BASE | BSdram => CONFIG_SDRAM_BASE
  | BIoSpace => 0
  end.

(** A backed address lies in its block at its distance from the block's base. *)
Lemma ram_ptr_inside addr p :
  config_ok -> in_u 32 addr -> ram_ptr addr = Some p ->
  blk p <> BIoSpace /\ off p = addr - block_base (blk p) /\ 0 <= off p < block_size (blk p).
Proof.
  intros (Hp & Hm & Hs & Hf & Hps & Hsd & _) Ha. unfold ram_ptr.
  unfold in_sram, in_mrom, in_flash, in_psram, in_sdram, in_pmem.
  rewrite !range_test by done. intros H.
  repeat case_match; simplify_eq; breflect; cbn; split_and!; try done; lia.
Qed.

(** * Frame *)

Lemma host_write_guest p len data s u s' :
  host_write p len data s = Ok (u, s') ->
  exists h, s' = s <| mem := h |> /\ (heap_ok (mem s) -> heap_ok h).
Proof.
  intros [->|[n ->]]%host_write_cases; [by exists (mem s); destruct s|].
  eexists. split; [reflexivity|]. intros Hh. apply poke_bytes_ok; [done|apply le_split_bytes].
Qed.

(** The bus, given that the devices keep their promise. *)
Section Bus.
Context `{CBOK : !CallbacksOk}.

Lemma skip_ref_within : within io_frame difftest_skip_ref.
Proof.
  intros s a s' H. unfold difftest_skip_ref in H. destruct CONFIG_DIFFTEST; inv_ok; done.
Qed.

Lemma host_read_within p len : within io_frame (host_read p len).
Proof. intros s a s' H. apply host_read_state in H as ->. done. Qed.

Lemma host_write_io_within p n len data : within io_frame (host_write (io_at p n) len data).
Proof.
  intros s a s' [->|[k ->]]%host_write_cases; [done|]. constructor; cbn; try done.
  - intros. apply peek_poke_other. left. congruence.
  - intros Hh. apply poke_bytes_ok; [done|apply le_split_bytes].
Qed.

Lemma fetch_within addr : within io_frame (fetch_mmio_map addr).
Proof.
  pose proof skip_ref_within. unfold fetch_mmio_map, find_mapid_by_addr. within.
Qed.

Lemma invoke_within c o l w : within io_frame (invoke_callback c o l w).
Proof. destruct c; cbn; [apply callback_within|apply within_ret, _]. Qed.

Lemma check_bound_within m addr : within io_frame (check_bound m addr).
Proof. unfold check_bound. within. Qed.

Lemma mmio_read_within addr len : within io_frame (mmio_read addr len).
Proof.
  pose proof invoke_within. pose proof host_read_within. pose proof check_bound_within.
  pose proof fetch_within. unfold mmio_read, map_read. within.
Qed.

Lemma mmio_write_within addr len data : within io_frame (mmio_write addr len data).
Proof.
  pose proof invoke_within. pose proof host_write_io_within. pose proof check_bound_within.
  pose proof fetch_within. unfold mmio_write, map_write. within.
Qed.

(** A guest read leaves registers and guest memory alone. *)
Lemma paddr_read_within addr len : within io_frame (paddr_read addr len).
Proof.
  pose proof mmio_read_within. pose proof host_read_within.
  unfold paddr_read, sram_read, mrom_read, flash_read, psram_read, sdram_read, pmem_read,
    guest_to_host, out_of_bound. within.
Qed.

(** * The value read is a 32-bit value *)

Lemma host_read_u32 p len s v s' :
  heap_ok (mem s) -> host_read p len s = Ok (v, s') -> in_u 32 v.
Proof.
  intros Hh H. unfold host_read in H.
  assert (forall n, (n <= 4)%nat -> load p n s = Ok (v, s') -> in_u 32 v) as Hl.
  { intros n Hn E. apply load_range in E as [Hv _]; [|done]. unfold in_u in *.
    pose proof (Z.pow_le_mono_r 2 (8 * Z.of_nat n) 32). lia. }
  inv_all; try done; (eapply Hl; [|done]; lia).
Qed.

Lemma mmio_read_u32 addr len s v s' :
  heap_ok (mem s) -> mmio_read addr len s = Ok (v, s') -> in_u 32 v.
Proof.
  intros Hh H. unfold mmio_read in H. apply bind_Ok in H as (m & s1 & H1 & H).
  apply fetch_within in H1. unfold map_read in H.
  apply bind_Ok in H as (u & s2 & H2 & H). inv_ok.
  all: repeat match goal with
  | H : check_bound _ _ _ = Ok _ |- _ => apply check_bound_within in H
  | H : invoke_callback _ _ _ _ _ = Ok _ |- _ => apply invoke_within in H
  end.
  all: eapply host_read_u32; [|eassumption]; eauto using fr_bytes.
Qed.

Lemma paddr_read_u32 addr len s v s' :
  heap_ok (mem s) -> paddr_read addr len s = Ok (v, s') -> in_u 32 v.
Proof.
  intros Hh H. destruct (ram_ptr addr) as [p|] eqn:Hp.
  - rewrite (paddr_read_ram _ _ _ _ Hp) in H. by eapply host_read_u32.
  - unfold ram_ptr, paddr_read in *.
    destruct CONFIG_DEVICE; [|repeat case_match; done].
    eapply mmio_read_u32; [done|]. repeat case_match; done.
Qed.

End Bus.

(** What a guest store may change: memory bytes and device state, nothing of the CPU. *)
Record store_frame (s s' : Machine) : Prop := mkStoreFrame {
  sf_cpu : cpu s' = cpu s;
  sf_maps : maps s' = maps s;
  sf_nemu : nemu_state s' = nemu_state s;
  sf_wps : wps s' = wps s;
  sf_ref : ref s' = ref s;
  sf_inst : g_nr_guest_inst s' = g_nr_guest_inst s;
  sf_trace : pc_trace s' = pc_trace s;
  sf_bytes : heap_ok (mem s) -> heap_ok (mem s');
}.

#[global] Instance store_frame_refl : Reflexive store_frame.
Proof. by intros s. Qed.

#[global] Instance store_frame_trans : Transitive store_frame.
Proof. intros s1 s2 s3 [] []. constructor; try congruence; auto. Qed.

Lemma io_store_frame s s' : io_frame s s' -> store_frame s s'.
Proof. intros []. by constructor. Qed.

Lemma host_write_within p len data : within store_frame (host_write p len data).
Proof.
  intros s u s' H. apply host_write_guest in H as (h & -> & Hh). by constructor.
Qed.

Lemma paddr_write_within `{CBOK : !CallbacksOk} addr len data : within store_frame (paddr_write addr len data).
Proof.
  assert (within store_frame (mmio_write addr len data)).
  { intros s u s' H. eapply io_store_frame, mmio_write_within, H. }
  pose proof host_write_within.
  unfold paddr_write, sram_write, flash_write, psram_write, sdram_write, pmem_write,
    guest_to_host, out_of_bound. within.
Qed.

(** * Properties *)

(** Guest memory holds what is written: a store of 1, 2 or 4 bytes to an address
    backed by memory is read back by a load of the same width, truncated to that
    width. *)
Theorem paddr_write_read addr p len data s s' :
  ram_ptr addr = Some p -> width_ok len = true ->
  paddr_write addr len data s = Ok (tt, s') ->
  paddr_read addr len s' = Ok (wrap (8 * len) data, s').
Proof.
  intros Hp Hw H. destruct (decide (blk p = BMrom)) as [E|E].
  { destruct (paddr_write_mrom addr p len data s Hp E) as [m Hm]. congruence. }
  rewrite (paddr_write_ram addr p) in H by done. rewrite (paddr_read_ram addr p) by done.
  rewrite host_write_store in H by done. rewrite host_read_load by done.
  apply load_store_same in H. rewrite H. rewrite Z2Nat.id; [done|].
  unfold width_ok in Hw. lia.
Qed.

(** A store changes no other address: a load from memory that does not touch the
    stored bytes gives the same value after the store as before it. *)
Theorem paddr_write_other addr p len data addr' p' len' s s' v :
  config_ok -> in_u 32 addr -> in_u 32 addr' ->
  ram_ptr addr = Some p -> ram_ptr addr' = Some p' ->
  width_ok len = true -> width_ok len' = true ->
  addr' + len' <= addr \/ addr + len <= addr' ->
  paddr_write addr len data s = Ok (tt, s') ->
  paddr_read addr' len' s = Ok (v, s) ->
  paddr_read addr' len' s' = Ok (v, s').
Proof.
  intros Hc Ha Ha' Hp Hp' Hw Hw' Hd H Hr.
  destruct (decide (blk p = BMrom)) as [E|E].
  { destruct (paddr_write_mrom addr p len data s Hp E) as [m Hm]. congruence. }
  rewrite (paddr_write_ram addr p) in H by done.
  rewrite (paddr_read_ram addr' p') in * by done.
  rewrite host_write_store in H by done. rewrite host_read_load in * by done.
  destruct (ram_ptr_inside _ _ Hc Ha Hp) as (_ & Ho & _).
  destruct (ram_ptr_inside _ _ Hc Ha' Hp') as (_ & Ho' & _).
  unfold width_ok in *.
  rewrite (load_store_other _ _ _ p' (Z.to_nat len') _ _ H).
  - by rewrite Hr.
  - destruct (decide (blk p = blk p')) as [Eb|]; [right|by left].
    rewrite Ho, Ho', Eb. rewrite !Z2Nat.id by lia. lia.
Qed.

(** C38. Without devices a guest access either succeeds, or is stopped: a read succeeds
    exactly when the address is backed by memory and the whole access stays inside
    the array behind it. The range test looks at the first byte only, so an access
    that starts inside a region and runs past its end is undefined behaviour of the
    emulator rather than a reported error. *)
Theorem paddr_read_total addr len s :
  config_ok -> in_u 32 addr -> width_ok len = true -> CONFIG_DEVICE = false ->
  match ram_ptr addr with
  | None => exists m, paddr_read addr len s = Abort (APanic m)
  | Some p =>
      if off p + len <=? block_size (blk p)
      then exists v, paddr_read addr len s = Ok (v, s)
      else exists m, paddr_read addr len s = Abort (AUndef m)
  end.
Proof.
  intros Hc Ha Hw Hdev. destruct (ram_ptr addr) as [p|] eqn:Hp.
  - destruct (ram_ptr_inside _ _ Hc Ha Hp) as (_ & _ & Ho).
    rewrite (paddr_read_ram addr p), host_read_load by done. unfold load, in_block.
    assert (Z.of_nat (Z.to_nat len) = len) as -> by (unfold width_ok in Hw; lia).
    destruct (Z.leb_spec 0 (off p)); [|lia]. cbn [andb].
    destruct (_ <=? _); eexists; done.
  - unfold ram_ptr, paddr_read in *. rewrite Hdev.
    exists "address is out of bound of pmem"%string. repeat case_match; done.
Qed.

(** [host_to_guest] inverts [guest_to_host] on the addresses of [pmem] in the plain
    memory map. *)
Theorem host_guest_roundtrip addr s p s' :
  in_u 32 addr -> soc_memory = false ->
  guest_to_host addr s = Ok (p, s') -> host_to_guest p = addr /\ s' = s.
Proof.
  intros Ha Hs H. unfold guest_to_host in H. rewrite Hs in H. inv_ok.
  unfold host_to_guest, pmem_guest_to_host. cbn. split; [|done].
  replace (addr - CONFIG_MBASE + CONFIG_MBASE) with addr by lia. by apply wrap_id.
Qed.

End Paddr.

#[export] Hint Resolve paddr_read_within paddr_write_within : nemu.

(** * Instances of the properties on concrete data *)

Module PaddrWitness.

#[local] Instance cfg : Config := kconfig false false false.
#[local] Instance host : Host := null_host.
#[local] Instance cb : Callbacks := {| run_callback := fun _ _ _ _ => mret tt |}.

Definition s0 : Machine := machine_zero ∅ tt.
Definition s1 : Machine := final (paddr_write 0x80001000 4 0x1122334455) s0.

Lemma config_ok_now : config_ok.
Proof. apply (bool_decide_unpack _); vm_compute; exact I. Qed.

Lemma paddr_write_read_witness : paddr_read 0x80001000 4 s1 = Ok (0x22334455, s1).
Proof.
  apply (paddr_write_read 0x80001000 (Ptr BPmem 0x1000) 4 0x1122334455 s0 s1);
    vm_compute; reflexivity.
Defined.

Lemma paddr_write_other_witness : paddr_read 0x80001004 2 s1 = Ok (0, s1).
Proof.
  apply (paddr_write_other 0x80001000 (Ptr BPmem 0x1000) 4 0x1122334455
           0x80001004 (Ptr BPmem 0x1004) 2 s0 s1 0);
    [apply config_ok_now|unfold in_u; lia|unfold in_u; lia|..|lia| |]; vm_compute; reflexivity.
Defined.

Lemma paddr_read_total_witness :
  exists m, paddr_read 0x81fffffd 4 s0 = Abort (AUndef m).
Proof.
  pose proof (paddr_read_total 0x81fffffd 4 s0 config_ok_now ltac:(unfold in_u; lia)
                eq_refl eq_refl) as H.
  replace (ram_ptr 0x81fffffd) with (Some (Ptr BPmem 0x1fffffd)) in H by (vm_compute; reflexivity).
  exact H.
Defined.

Lemma host_guest_roundtrip_witness : host_to_guest (Ptr BPmem 0x123) = 0x80000123.
Proof.
  apply (host_guest_roundtrip 0x80000123 s0 (Ptr BPmem 0x123) s0);
    [unfold in_u; lia|reflexivity|reflexivity].
Defined.

End PaddrWitness.
