(* ===== verification/Isa.v ===== *)
(** The RISC-V instruction interpreter: [nemu/src/isa/riscv32/inst.c], with
    [local-include/reg.h], [reg.c], [init.c], [system/intr.c],
    [include/cpu/ifetch.h] and [engine/interpreter/hostcall.c].

    [instpat_table] is the sequence of [INSTPAT] lines of [decode_exec], and
    [exec_body] holds their bodies. C leaves the order of the register check and
    of the right-hand side of [R(rd) = e] open; the right-hand side runs first
    here. *)

From S2P Require Import Prelude Config Macro Decode Machine HostMem Region IoMap Paddr.

(** [Decode] of [cpu/decode.h]; the field [pc] is [dpc] here. *)
Record Decode : Type := mkDecode { dpc : Z; snpc : Z; dnpc : Z; inst : Z }.
#[global] Instance eta_Decode : Eta Decode :=
  fun x => mkDecode (dpc x) (snpc x) (dnpc x) (inst x).

Inductive inst_type : Type :=
| TYPE_I | TYPE_U | TYPE_S | TYPE_N | TYPE_R | TYPE_J | TYPE_B | TYPE_SH | TYPE_CSRI.

(** The second argument of [INSTPAT]. *)
Inductive inst_name : Type :=
| auipc | lui | lbu | lb | lh | lw | lhu | sltiu | srli | slli | srai | sb | sh | sw
| add | fence | sll | slt | sltu | xor | srl | sra | or_ | and_ | sub
| mul | mulh | mulhsu | mulhu | div | divu | rem | remu
| addi | slti | xori | ori | andi | jalr | jal | bne | beq | blt | bge | bltu | bgeu
| ebreak | ecall | csrrw | csrrs | mret_ | inv.

#[global] Instance inst_type_eq_dec : EqDecision inst_type.
Proof. solve_decision. Defined.
#[global] Instance inst_name_eq_dec : EqDecision inst_name.
Proof. solve_decision. Defined.

Definition instpat_table : list (string * inst_name * inst_type) := [
  ("??????? ????? ????? ??? ????? 00101 11", auipc, TYPE_U);
  ("??????? ????? ????? ??? ????? 01101 11", lui, TYPE_U);
  ("??????? ????? ????? 100 ????? 00000 11", lbu, TYPE_I);
  ("??????? ????? ????? 000 ????? 00000 11", lb, TYPE_I);
  ("??????? ????? ????? 001 ????? 00000 11", lh, TYPE_I);
  ("??????? ????? ????? 010 ????? 00000 11", lw, TYPE_I);
  ("??????? ????? ????? 101 ????? 00000 11", lhu, TYPE_I);
  ("??????? ????? ????? 011 ????? 00100 11", sltiu, TYPE_I);
  ("0000000 ????? ????? 101 ????? 00100 11", srli, TYPE_SH);
  ("0000000 ????? ????? 001 ????? 00100 11", slli, TYPE_SH);
  ("0100000 ????? ????? 101 ????? 00100 11", srai, TYPE_SH);
  ("??????? ????? ????? 000 ????? 01000 11", sb, TYPE_S);
  ("??????? ????? ????? 001 ????? 01000 11", sh, TYPE_S);
  ("??????? ????? ????? 010 ????? 01000 11", sw, TYPE_S);
  ("0000000 ????? ????? 000 ????? 01100 11", add, TYPE_R);
  ("??????? ????? ????? 001 ????? 00011 11", fence, TYPE_I);
  ("0000000 ????? ????? 001 ????? 01100 11", sll, TYPE_R);
  ("0000000 ????? ????? 010 ????? 01100 11", slt, TYPE_R);
  ("0000000 ????? ????? 011 ????? 01100 11", sltu, TYPE_R);
  ("0000000 ????? ????? 100 ????? 01100 11", xor, TYPE_R);
  ("0000000 ????? ????? 101 ????? 01100 11", srl, TYPE_R);
  ("0100000 ????? ????? 101 ????? 01100 11", sra, TYPE_R);
  ("0000000 ????? ????? 110 ????? 01100 11", or_, TYPE_R);
  ("0000000 ????? ????? 111 ????? 01100 11", and_, TYPE_R);
  ("0100000 ????? ????? 000 ????? 01100 11", sub, TYPE_R);
  ("0000001 ????? ????? 000 ????? 01100 11", mul, TYPE_R);
  ("0000001 ????? ????? 001 ????? 01100 11", mulh, TYPE_R);
  ("0000001 ????? ????? 010 ????? 01100 11", mulhsu, TYPE_R);
  ("0000001 ????? ????? 011 ????? 01100 11", mulhu, TYPE_R);
  ("0000001 ????? ????? 100 ????? 01100 11", div, TYPE_R);
  ("0000001 ????? ????? 101 ????? 01100 11", divu, TYPE_R);
  ("0000001 ????? ????? 110 ????? 01100 11", rem, TYPE_R);
  ("0000001 ????? ????? 111 ????? 01100 11", remu, TYPE_R);
  ("??????? ????? ????? 000 ????? 00100 11", addi, TYPE_I);
  ("??????? ????? ????? 010 ????? 00100 11", slti, TYPE_I);
  ("??????? ????? ????? 100 ????? 00100 11", xori, TYPE_I);
  ("??????? ????? ????? 110 ????? 00100 11", ori, TYPE_I);
  ("??????? ????? ????? 111 ????? 00100 11", andi, TYPE_I);
  ("??????? ????? ????? 000 ????? 11001 11", jalr, TYPE_I);
  ("??????? ????? ????? ??? ????? 11011 11", jal, TYPE_J);
  ("??????? ????? ????? 001 ????? 11000 11", bne, TYPE_B);
  ("??????? ????? ????? 000 ????? 11000 11", beq, TYPE_B);
  ("??????? ????? ????? 100 ????? 11000 11", blt, TYPE_B);
  ("??????? ????? ????? 101 ????? 11000 11", bge, TYPE_B);
  ("??????? ????? ????? 110 ????? 11000 11", bltu, TYPE_B);
  ("??????? ????? ????? 111 ????? 11000 11", bgeu, TYPE_B);
  ("0000000 00001 00000 000 00000 11100 11", ebreak, TYPE_N);
  ("0000000 00000 00000 000 00000 11100 11", ecall, TYPE_N);
  ("??????? ????? ????? 001 ????? 11100 11", csrrw, TYPE_CSRI);
  ("??????? ????? ????? 010 ????? 11100 11", csrrs, TYPE_CSRI);
  ("0011000 00010 00000 000 00000 11100 11", mret_, TYPE_N);
  ("??????? ????? ????? ??? ????? ????? ??", inv, TYPE_N)]%string.

Definition INT32_MIN : Z := - 2 ^ 31.

Section Isa.
Context `{CFG : Config} `{HOST : Host} `{CB : !Callbacks}.

(** * Registers *)

Definition check_reg_idx (idx : Z) : M Machine Z :=
  when CONFIG_RT_CHECK
    (c_assert ((0 <=? idx) && (idx <? Z.of_nat nr_gpr)) "idx >= 0 && idx < NR_GPR") ;;
  mret idx.

(** [gpr(idx)] as a value and as the target of an assignment. *)
Definition R (idx : Z) : M Machine Z :=
  i ← check_reg_idx idx;
  g ← gets (fun s => gpr (cpu s));
  match g !! Z.to_nat i with
  | Some v => mret v
  | None => undef "gpr index"
  end.

Definition set_R (idx v : Z) : M Machine unit :=
  i ← check_reg_idx idx;
  g ← gets (fun s => gpr (cpu s));
  if (Z.to_nat i <? length g)%nat
  then modify (fun s => s <| cpu -> gpr := <[Z.to_nat i := v]> g |>)
  else undef "gpr index".

(** [cpu.csr[i]]. *)
Definition get_csr (i : Z) : M Machine Z :=
  c ← gets (fun s => csr (cpu s));
  match c !! Z.to_nat i with
  | Some v => mret v
  | None => undef "csr index"
  end.

Definition set_csr (i v : Z) : M Machine unit :=
  c ← gets (fun s => csr (cpu s));
  if (Z.to_nat i <? length c)%nat
  then modify (fun s => s <| cpu -> csr := <[Z.to_nat i := v]> c |>)
  else undef "csr index".

(** * [ifetch.h], [hostcall.c], [intr.c] *)

(** [inst_fetch]: the word, and the advanced [*pc]. *)
Definition inst_fetch (pc len : Z) : M Machine (Z * Z) :=
  i ← vaddr_ifetch pc len;
  mret (u32 i, u32 (pc + len)).

Definition set_nemu_state (st : nemu_st) (pc halt_ret : Z) : M Machine unit :=
  difftest_skip_ref ;;
  modify (fun s => s <| nemu_state := mkNemu st pc (u32 (s32 halt_ret)) |>).

(** The two words are only printed. *)
Definition invalid_inst (thispc : Z) : M Machine unit :=
  '(_, pc) ← inst_fetch thispc 4;
  '(_, _) ← inst_fetch pc 4;
  set_nemu_state NEMU_ABORT thispc (-1).

Definition isa_raise_intr (NO epc : Z) : M Machine Z :=
  set_csr 0x341 epc ;;
  set_csr 0x342 NO ;;
  get_csr 0x305.

Definition INTR_EMPTY : Z := u32 (-1).
Definition isa_query_intr : Z := INTR_EMPTY.

Definition MEM_RET_FAIL : Z := 1.
Definition isa_mmu_translate (vaddr len type : Z) : Z := MEM_RET_FAIL.

(** * Operands *)

Definition immI (i : Z) : Z := u32 (SEXT (BITS i 31 20) 12).
Definition immU (i : Z) : Z := u32 (u64 (Z.shiftl (SEXT (BITS i 31 12) 20) 12)).
Definition immS (i : Z) : Z :=
  u32 (Z.lor (u64 (Z.shiftl (SEXT (BITS i 31 25) 7) 5)) (BITS i 11 7)).
Definition immJ (i : Z) : Z :=
  u32 (Z.lor (Z.lor (Z.lor (u64 (Z.shiftl (SEXT (BITS i 31 31) 1) 20))
                           (u64 (Z.shiftl (BITS i 19 12) 12)))
                    (u64 (Z.shiftl (BITS i 20 20) 11)))
             (u64 (Z.shiftl (BITS i 30 21) 1))).
Definition immB (i : Z) : Z :=
  u32 (Z.lor (Z.lor (Z.lor (u64 (Z.shiftl (SEXT (BITS i 31 31) 1) 12))
                           (u64 (Z.shiftl (BITS i 30 25) 5)))
                    (u64 (Z.shiftl (BITS i 11 8) 1)))
             (u64 (Z.shiftl (BITS i 7 7) 11))).
Definition immSH (i : Z) : Z := BITS i 24 20.
Definition immCSRI (i : Z) : Z := BITS i 31 20.

(** [decode_operand]: [(rd, src1, src2, imm)], what is not set stays [0]. *)
Definition decode_operand (s : Decode) (type : inst_type) : M Machine (Z * Z * Z * Z) :=
  let i := inst s in
  let rs1 := BITS i 19 15 in
  let rs2 := BITS i 24 20 in
  let rd := BITS i 11 7 in
  match type with
  | TYPE_I => src1 ← R rs1; mret (rd, src1, 0, immI i)
  | TYPE_R => src1 ← R rs1; src2 ← R rs2; mret (rd, src1, src2, 0)
  | TYPE_U => mret (rd, 0, 0, immU i)
  | TYPE_S => src1 ← R rs1; src2 ← R rs2; mret (rd, src1, src2, immS i)
  | TYPE_N => mret (rd, 0, 0, 0)
  | TYPE_J => mret (rd, 0, 0, immJ i)
  | TYPE_B => src1 ← R rs1; src2 ← R rs2; mret (rd, src1, src2, immB i)
  | TYPE_SH => src1 ← R rs1; mret (rd, src1, 0, immSH i)
  | TYPE_CSRI => src1 ← R rs1; mret (rd, src1, 0, immCSRI i)
  end.

(** * Instructions *)

Section Body.
Variables (s : Decode) (rd src1 src2 imm : Z).

(** [R(rd) = e], the next pc left alone. *)
Definition wr (v : Z) : M Machine Decode := set_R rd (u32 v) ;; mret s.

(** [R(rd) = Mr(src1 + imm, len)], through [f]. *)
Definition ld (len : Z) (f : Z -> Z) : M Machine Decode :=
  v ← vaddr_read (u32 (src1 + imm)) len;
  wr (f v).

Definition st (len : Z) : M Machine Decode :=
  vaddr_write (u32 (src1 + imm)) len src2 ;; mret s.

(** [s->dnpc = c ? (s->pc + imm) : s->dnpc]. *)
Definition br (c : bool) : M Machine Decode :=
  mret (s <| dnpc := if c then u32 (dpc s + imm) else dnpc s |>).

(** The bodies of the [INSTPAT] lines. *)
Definition exec_body (name : inst_name) : M Machine Decode :=
  match name with
  | auipc => wr (dpc s + imm)
  | lui => wr imm
  | lbu => ld 1 id
  | lb => ld 1 (fun v => SEXT v 8)
  | lh => ld 2 (fun v => SEXT v 16)
  | lw => ld 4 id
  | lhu => ld 2 id
  | sltiu => wr (b2z (u32 src1 <? u32 imm))
  | srli => wr (Z.shiftr src1 imm)
  | slli => wr (Z.shiftl src1 imm)
  | srai => wr (Z.shiftr (s32 src1) imm)
  | sb => st 1
  | sh => st 2
  | sw => st 4
  | add => wr (src1 + src2)
  | fence => mret s
  | sll => wr (Z.shiftl src1 (Z.land src2 0x1f))
  | slt => wr (b2z (s32 src1 <? s32 src2))
  | sltu => wr (b2z (src1 <? src2))
  | xor => wr (Z.lxor src1 src2)
  | srl => wr (Z.shiftr src1 (Z.land src2 0x1f))
  | sra => wr (Z.shiftr (s32 src1) (Z.land src2 0x1f))
  | or_ => wr (Z.lor src1 src2)
  | and_ => wr (Z.land src1 src2)
  | sub => wr (src1 - src2)
  | mul => wr (src1 * src2)
  | mulh => wr (Z.shiftr (s64 (s32 src1 * s32 src2)) 32)
  | mulhsu => wr (Z.shiftr (u64 (u64 (s32 src1) * u64 src2)) 32)
  | mulhu => wr (Z.shiftr (u64 (u64 src1 * u64 src2)) 32)
  | div =>
      if src2 =? 0 then wr (-1)
      else if (src1 =? u32 INT32_MIN) && (src2 =? u32 (-1)) then wr INT32_MIN
      else wr (Z.quot (s32 src1) (s32 src2))
  | divu => wr (if src2 =? 0 then u32 (-1) else src1 / src2)
  | rem =>
      if src2 =? 0 then wr src1
      else if (src1 =? u32 INT32_MIN) && (src2 =? u32 (-1)) then wr 0
      else wr (Z.rem (s32 src1) (s32 src2))
  | remu => wr (if src2 =? 0 then src1 else src1 mod src2)
  | addi => wr (src1 + imm)
  | slti => wr (b2z (s32 src1 <? s32 imm))
  | xori => wr (Z.lxor src1 imm)
  | ori => wr (Z.lor src1 imm)
  | andi => wr (Z.land src1 imm)
  | jalr =>
      set_R rd (u32 (dpc s + 4)) ;;
      mret (s <| dnpc := Z.land (u32 (src1 + imm)) (u32 (Z.lnot 1)) |>)
  | jal => set_R rd (u32 (dpc s + 4)) ;; mret (s <| dnpc := u32 (dpc s + imm) |>)
  | bne => br (negb (src1 =? src2))
  | beq => br (src1 =? src2)
  | blt => br (s32 src1 <? s32 src2)
  | bge => br (s32 src2 <=? s32 src1)
  | bltu => br (src1 <? src2)
  | bgeu => br (src2 <=? src1)
  | ebreak => a0 ← R 10; set_nemu_state NEMU_END (dpc s) a0 ;; mret s
  | ecall => v ← isa_raise_intr 11 (dpc s); mret (s <| dnpc := v |>)
  | csrrw =>
      (if negb (rd =? 0) then v ← get_csr imm; set_R rd v else mret tt) ;;
      set_csr imm src1 ;; mret s
  | csrrs =>
      v ← get_csr imm; set_R rd v ;;
      (if negb (src1 =? 0) then v ← get_csr imm; set_csr imm (Z.lor v src1) else mret tt) ;;
      mret s
  | mret_ => v ← get_csr 0x341; mret (s <| dnpc := v |>)
  | inv => invalid_inst (dpc s) ;; mret s
  end.

End Body.

(** The [INSTPAT] lines in order: the first pattern that fits is executed. *)
Fixpoint instpat_run (table : list (string * inst_name * inst_type)) (s : Decode)
    : M Machine Decode :=
  match table with
  | [] => mret s
  | (pattern, name, type) :: table =>
      match instpat_match pattern (inst s) with
      | Abort e => stop e
      | Ok true =>
          '(rd, src1, src2, imm) ← decode_operand s type;
          exec_body s rd src1 src2 imm name
      | Ok false => instpat_run table s
      end
  end.

Definition decode_exec (s : Decode) : M Machine Decode :=
  s ← instpat_run instpat_table (s <| dnpc := snpc s |>);
  set_R 0 0 ;;
  mret s.

Definition isa_exec_once (s : Decode) : M Machine Decode :=
  '(i, snpc') ← inst_fetch (snpc s) 4;
  decode_exec (s <| inst := i |> <| snpc := snpc' |>).

(** * [reg.c] and [init.c] *)

Definition regs : list string := [
  "$0"; "ra"; "sp"; "gp"; "tp"; "t0"; "t1"; "t2";
  "s0"; "s1"; "a0"; "a1"; "a2"; "a3"; "a4"; "a5";
  "a6"; "a7"; "s2"; "s3"; "s4"; "s5"; "s6"; "s7";
  "s8"; "s9"; "s10"; "s11"; "t3"; "t4"; "t5"; "t6"]%string.

(** The loop of [isa_reg_str2val]: the value and [*success]. *)
Fixpoint reg_search (names : list string) (i : Z) (name : string) : M Machine (Z * bool) :=
  match names with
  | [] => mret (0, false)
  | n :: names =>
      if String.eqb n name then
        g ← gets (fun s => gpr (cpu s));
        match g !! Z.to_nat i with
        | Some v => mret (v, true)
        | None => undef "gpr index"
        end
      else reg_search names (i + 1) name
  end.

Definition isa_reg_str2val (name : string) : M Machine (Z * bool) := reg_search regs 0 name.

(** The values [isa_reg_display] prints, in order. *)
Fixpoint reg_values (i : Z) (n : nat) : M Machine (list Z) :=
  match n with
  | O => mret []
  | S n =>
      g ← gets (fun s => gpr (cpu s));
      match g !! Z.to_nat i with
      | Some v => vs ← reg_values (i + 1) n; mret (v :: vs)
      | None => undef "gpr index"
      end
  end.
Definition isa_reg_display : M Machine (list Z) := reg_values 0 32.

(** The built-in image, a [uint32_t] array. *)
Definition img : list Z := [0x00000297; 0x00028823; 0x0102c503; 0x00100073; 0xdeadbeef].

Definition restart : M Machine unit :=
  modify (fun s => s <| cpu -> pc := RESET_VECTOR |>) ;;
  g ← gets (fun s => gpr (cpu s));
  modify (fun s => s <| cpu -> gpr := <[0%nat := 0]> g |>).

(** [memcpy(p, bs, length bs)]. *)
Definition mem_copy (p : ptr) (bs : list Z) : M Machine unit := fun s =>
  if in_block p (Z.of_nat (length bs))
  then Ok (tt, s <| mem := poke_bytes (mem s) (blk p) (off p) bs |>)
  else Abort (AUndef "memcpy outside its object").

Definition img_bytes : list Z := concat (map (le_split 4) img).

Definition init_isa : M Machine unit :=
  p ← guest_to_host RESET_VECTOR;
  mem_copy p img_bytes ;;
  restart.

End Isa.
