(* ===== verification/RvSpec.v ===== *)
(** An architectural specification of the implemented part of RV32IM, written
    from the instruction formats rather than from [inst.c].

    [rv_decode] reads a word by its opcode, funct3 and funct7 fields into an
    [instr]; [rv_step] gives its meaning on registers with [x0] hard-wired to zero
    and on integers without C's conversions. [IsaRefine] shows that [decode_exec]
    implements it. What the environment adds is as in NEMU: [EBREAK] ends the
    run, [ECALL] enters the trap vector, [MRET] returns from it, and an illegal
    word stops the machine in state [NEMU_ABORT]. *)

From S2P Require Import Prelude Config Machine HostMem Region IoMap Paddr.

(** * Formats *)

(** [n] bits of [w] from bit [lo]. *)
Definition fld (w lo n : Z) : Z := (w / 2 ^ lo) mod 2 ^ n.

Definition f_opcode (w : Z) : Z := fld w 0 7.
Definition f_rd (w : Z) : Z := fld w 7 5.
Definition f_funct3 (w : Z) : Z := fld w 12 3.
Definition f_rs1 (w : Z) : Z := fld w 15 5.
Definition f_rs2 (w : Z) : Z := fld w 20 5.
Definition f_funct7 (w : Z) : Z := fld w 25 7.
Definition f_csr (w : Z) : Z := fld w 20 12.

(** Immediates, as signed integers. *)
Definition imm_i (w : Z) : Z := sgn 12 (fld w 20 12).
Definition imm_s (w : Z) : Z := sgn 12 (fld w 25 7 * 2 ^ 5 + fld w 7 5).
Definition imm_b (w : Z) : Z :=
  sgn 13 (fld w 31 1 * 2 ^ 12 + fld w 7 1 * 2 ^ 11 + fld w 25 6 * 2 ^ 5 + fld w 8 4 * 2).
Definition imm_u (w : Z) : Z := sgn 32 (fld w 12 20 * 2 ^ 12).
Definition imm_j (w : Z) : Z :=
  sgn 21 (fld w 31 1 * 2 ^ 20 + fld w 12 8 * 2 ^ 12 + fld w 20 1 * 2 ^ 11 + fld w 21 10 * 2).

(** * Instructions *)

Inductive alu : Type :=
| ADD | SUB | SLL | SLT | SLTU | XOR | SRL | SRA | OR | AND
| MUL | MULH | MULHSU | MULHU | DIV | DIVU | REM | REMU.

Inductive cond : Type := BEQ | BNE | BLT | BGE | BLTU | BGEU.

Inductive instr : Type :=
| I_lui (rd imm : Z)
| I_auipc (rd imm : Z)
| I_jal (rd imm : Z)
| I_jalr (rd rs1 imm : Z)
| I_branch (c : cond) (rs1 rs2 imm : Z)
| I_load (len : Z) (signed : bool) (rd rs1 imm : Z)
| I_store (len : Z) (rs1 rs2 imm : Z)
| I_opimm (o : alu) (rd rs1 imm : Z)
| I_op (o : alu) (rd rs1 rs2 : Z)
| I_fence_i
| I_ecall
| I_ebreak
| I_mret
| I_csrrw (rd rs1 csr : Z)
| I_csrrs (rd rs1 csr : Z)
| I_illegal.

(** funct3 of the arithmetic group, by funct7. *)
Definition rv_op (f7 f3 : Z) : option alu :=
  if f7 =? 0 then
    if f3 =? 0 then Some ADD else if f3 =? 1 then Some SLL else if f3 =? 2 then Some SLT
    else if f3 =? 3 then Some SLTU else if f3 =? 4 then Some XOR else if f3 =? 5 then Some SRL
    else if f3 =? 6 then Some OR else if f3 =? 7 then Some AND else None
  else if f7 =? 32 then
    if f3 =? 0 then Some SUB else if f3 =? 5 then Some SRA else None
  else if f7 =? 1 then
    if f3 =? 0 then Some MUL else if f3 =? 1 then Some MULH else if f3 =? 2 then Some MULHSU
    else if f3 =? 3 then Some MULHU else if f3 =? 4 then Some DIV else if f3 =? 5 then Some DIVU
    else if f3 =? 6 then Some REM else if f3 =? 7 then Some REMU else None
  else None.

Definition rv_opimm (w : Z) : instr :=
  let f3 := f_funct3 w in let f7 := f_funct7 w in
  let i o := I_opimm o (f_rd w) (f_rs1 w) (imm_i w) in
  let sh o := I_opimm o (f_rd w) (f_rs1 w) (f_rs2 w) in
  if f3 =? 0 then i ADD
  else if f3 =? 1 then if f7 =? 0 then sh SLL else I_illegal
  else if f3 =? 2 then i SLT
  else if f3 =? 3 then i SLTU
  else if f3 =? 4 then i XOR
  else if f3 =? 5 then if f7 =? 0 then sh SRL else if f7 =? 32 then sh SRA else I_illegal
  else if f3 =? 6 then i OR
  else if f3 =? 7 then i AND
  else I_illegal.

Definition rv_load (w : Z) : instr :=
  let f3 := f_funct3 w in
  let l n sg := I_load n sg (f_rd w) (f_rs1 w) (imm_i w) in
  if f3 =? 0 then l 1 true else if f3 =? 1 then l 2 true else if f3 =? 2 then l 4 true
  else if f3 =? 4 then l 1 false else if f3 =? 5 then l 2 false else I_illegal.

Definition rv_store (w : Z) : instr :=
  let f3 := f_funct3 w in
  let s n := I_store n (f_rs1 w) (f_rs2 w) (imm_s w) in
  if f3 =? 0 then s 1 else if f3 =? 1 then s 2 else if f3 =? 2 then s 4 else I_illegal.

Definition rv_branch (w : Z) : instr :=
  let f3 := f_funct3 w in
  let b c := I_branch c (f_rs1 w) (f_rs2 w) (imm_b w) in
  if f3 =? 0 then b BEQ else if f3 =? 1 then b BNE else if f3 =? 4 then b BLT
  else if f3 =? 5 then b BGE else if f3 =? 6 then b BLTU else if f3 =? 7 then b BGEU
  else I_illegal.

Definition rv_system (w : Z) : instr :=
  let f3 := f_funct3 w in
  if f3 =? 0 then
    if w =? 0x00000073 then I_ecall
    else if w =? 0x00100073 then I_ebreak
    else if w =? 0x30200073 then I_mret
    else I_illegal
  else if f3 =? 1 then I_csrrw (f_rd w) (f_rs1 w) (f_csr w)
  else if f3 =? 2 then I_csrrs (f_rd w) (f_rs1 w) (f_csr w)
  else I_illegal.

Definition rv_decode (w : Z) : instr :=
  let op := f_opcode w in
  if op =? 0x37 then I_lui (f_rd w) (imm_u w)
  else if op =? 0x17 then I_auipc (f_rd w) (imm_u w)
  else if op =? 0x6f then I_jal (f_rd w) (imm_j w)
  else if op =? 0x67 then
    if f_funct3 w =? 0 then I_jalr (f_rd w) (f_rs1 w) (imm_i w) else I_illegal
  else if op =? 0x63 then rv_branch w
  else if op =? 0x03 then rv_load w
  else if op =? 0x23 then rv_store w
  else if op =? 0x13 then rv_opimm w
  else if op =? 0x33 then
    match rv_op (f_funct7 w) (f_funct3 w) with
    | Some o => I_op o (f_rd w) (f_rs1 w) (f_rs2 w)
    | None => I_illegal
    end
  else if op =? 0x0f then if f_funct3 w =? 1 then I_fence_i else I_illegal
  else if op =? 0x73 then rv_system w
  else I_illegal.

(** * Meaning *)

(** Results are taken modulo [2 ^ 32]. *)
Definition alu_sem (o : alu) (a b : Z) : Z :=
  match o with
  | ADD => a + b
  | SUB => a - b
  | SLL => a * 2 ^ (b mod 32)
  | SLT => if s32 a <? s32 b then 1 else 0
  | SLTU => if u32 a <? u32 b then 1 else 0
  | XOR => Z.lxor a b
  | SRL => u32 a / 2 ^ (b mod 32)
  | SRA => s32 a / 2 ^ (b mod 32)
  | OR => Z.lor a b
  | AND => Z.land a b
  | MUL => a * b
  | MULH => s32 a * s32 b / 2 ^ 32
  | MULHSU => s32 a * u32 b / 2 ^ 32
  | MULHU => u32 a * u32 b / 2 ^ 32
  | DIV => if b =? 0 then -1 else Z.quot (s32 a) (s32 b)
  | DIVU => if b =? 0 then -1 else a / b
  | REM => if b =? 0 then a else Z.rem (s32 a) (s32 b)
  | REMU => if b =? 0 then a else a mod b
  end.

Definition cond_sem (c : cond) (a b : Z) : bool :=
  match c with
  | BEQ => a =? b
  | BNE => negb (a =? b)
  | BLT => s32 a <? s32 b
  | BGE => negb (s32 a <? s32 b)
  | BLTU => a <? b
  | BGEU => negb (a <? b)
  end.

Section Step.
Context `{CFG : Config} `{HOST : Host} `{CB : !Callbacks}.

(** Register [r], with [x0] read as zero and writes to it dropped. *)
Definition x_get (r : Z) : M Machine Z :=
  gets (fun s => if r =? 0 then 0 else nth (Z.to_nat r) (gpr (cpu s)) 0).
Definition x_put (r v : Z) : M Machine unit :=
  modify (fun s =>
    if r =? 0 then s else s <| cpu -> gpr := <[Z.to_nat r := u32 v]> (gpr (cpu s)) |>).
Definition csr_get (c : Z) : M Machine Z := gets (fun s => nth (Z.to_nat c) (csr (cpu s)) 0).
Definition csr_put (c v : Z) : M Machine unit :=
  modify (fun s => s <| cpu -> csr := <[Z.to_nat c := v]> (csr (cpu s)) |>).

(** The run ends: the state, the pc and the return value are recorded. *)
Definition halt (st : nemu_st) (pc code : Z) : M Machine unit :=
  difftest_skip_ref ;;
  modify (fun s => s <| nemu_state := mkNemu st pc (u32 code) |>).

Definition mtvec : Z := 0x305.
Definition mepc : Z := 0x341.
Definition mcause : Z := 0x342.

(** The instruction at [pc]; the result is the next pc. *)
Definition rv_step (i : instr) (pc : Z) : M Machine Z :=
  let next := u32 (pc + 4) in
  match i with
  | I_lui rd imm => x_put rd imm ;; mret next
  | I_auipc rd imm => x_put rd (pc + imm) ;; mret next
  | I_jal rd imm => x_put rd next ;; mret (u32 (pc + imm))
  | I_jalr rd rs1 imm =>
      a ← x_get rs1; x_put rd next ;; mret (2 * (u32 (a + imm) / 2))
  | I_branch c rs1 rs2 imm =>
      a ← x_get rs1; b ← x_get rs2;
      mret (if cond_sem c a b then u32 (pc + imm) else next)
  | I_load len signed rd rs1 imm =>
      a ← x_get rs1;
      v ← paddr_read (u32 (a + imm)) len;
      x_put rd (if signed then sgn (8 * len) v else v) ;; mret next
  | I_store len rs1 rs2 imm =>
      a ← x_get rs1; b ← x_get rs2;
      paddr_write (u32 (a + imm)) len b ;; mret next
  | I_opimm o rd rs1 imm =>
      a ← x_get rs1; x_put rd (alu_sem o a (u32 imm)) ;; mret next
  | I_op o rd rs1 rs2 =>
      a ← x_get rs1; b ← x_get rs2; x_put rd (alu_sem o a b) ;; mret next
  | I_fence_i => mret next
  | I_ecall =>
      csr_put mepc pc ;; csr_put mcause 11 ;; csr_get mtvec
  | I_ebreak => a0 ← x_get 10; halt NEMU_END pc a0 ;; mret next
  | I_mret => csr_get mepc
  | I_csrrw rd rs1 c =>
      a ← x_get rs1; v ← csr_get c; x_put rd v ;; csr_put c a ;; mret next
  | I_csrrs rd rs1 c =>
      a ← x_get rs1; v ← csr_get c; x_put rd v ;; csr_put c (Z.lor v a) ;; mret next
  | I_illegal =>
      (* the word and its successor are fetched for the report *)
      _ ← paddr_read pc 4; _ ← paddr_read (u32 (pc + 4)) 4;
      halt NEMU_ABORT pc (-1) ;; mret next
  end.

(** Fetch, decode, execute. *)
Definition rv_cycle (pc : Z) : M Machine Z :=
  w ← paddr_read pc 4; rv_step (rv_decode w) pc.

End Step.
