(* ===== verification/IsaSelect.v ===== *)
(** Instruction selection: the [INSTPAT] sequence of [inst.c] against the decoder
    of the specification.

    A pattern is turned into tests of bit fields ([instpat_fields]), the table into
    a table of field tests, and [select_decode] shows that the first fitting line
    is the instruction that [rv_decode] reads. *)

From S2P Require Import Prelude Config Macro Decode Machine HostMem Region IoMap Paddr Isa RvSpec.
From Stdlib Require Import Ascii.

Local Open Scope Z_scope.

(** * Patterns as field tests *)

(** The runs of fixed bits of a pattern (least significant character first):
    position, width and value. *)
Fixpoint fields (cs : list ascii) (lo : Z) : list (Z * Z * Z) :=
  match cs with
  | [] => []
  | c :: cs =>
      let fs := fields cs (lo + 1) in
      if Ascii.eqb c "?" then fs
      else
        let b := b2z (Ascii.eqb c "1") in
        match fs with
        | (l, n, v) :: fs' => if l =? lo + 1 then (lo, n + 1, 2 * v + b) :: fs' else (lo, 1, b) :: fs
        | [] => [(lo, 1, b)]
        end
  end.

Definition field_test (w : Z) (f : Z * Z * Z) : bool := let '(l, n, v) := f in fld w l n =? v.

Lemma fields_width cs lo : Forall (fun f => 1 <= snd (fst f)) (fields cs lo).
Proof.
  revert lo. induction cs as [|c cs IH]; intros lo; cbn [fields]; [done|].
  specialize (IH (lo + 1)). destruct (Ascii.eqb c "?"); [done|].
  destruct (fields cs (lo + 1)) as [|[[l n] v] fs]; [by repeat constructor|].
  inversion IH; subst; cbn in *. destruct (_ =? _); repeat (constructor; cbn; try lia; auto).
Qed.

Lemma fld_one w lo c : 0 <= lo ->
  (fld w lo 1 =? b2z (Ascii.eqb c "1")) = Bool.eqb (Z.testbit (w / 2 ^ lo) 0) (Ascii.eqb c "1").
Proof.
  intros. unfold fld. change (2 ^ 1) with 2. rewrite <- Z.bit0_mod.
  by destruct (Z.testbit _ 0), (Ascii.eqb c "1").
Qed.

Lemma fld_cons w lo n v c : 0 <= lo -> 1 <= n ->
  (fld w lo (n + 1) =? 2 * v + b2z (Ascii.eqb c "1")) =
  Bool.eqb (Z.testbit (w / 2 ^ lo) 0) (Ascii.eqb c "1") && (fld w (lo + 1) n =? v).
Proof.
  intros. rewrite <- fld_one by done. unfold fld.
  rewrite Z.add_comm, (Z.pow_add_r 2 1 n) by lia. rewrite (Z.pow_add_r 2 lo 1) by lia.
  change (2 ^ 1) with 2. pose proof (Z.pow_pos_nonneg 2 n). pose proof (Z.pow_pos_nonneg 2 lo).
  rewrite Z.rem_mul_r by lia. rewrite Zdiv.Zdiv_Zdiv by lia.
  set (q := (w / (2 ^ lo * 2)) mod 2 ^ n). pose proof (Z.mod_pos_bound (w / 2 ^ lo) 2).
  unfold b2z. destruct (Ascii.eqb c "1"); repeat zcase; cbn [andb]; lia.
Qed.

Lemma fields_fit cs w lo : 0 <= lo ->
  bits_fit cs (w / 2 ^ lo) = forallb (field_test w) (fields cs lo).
Proof.
  revert lo. induction cs as [|c cs IH]; intros lo Hlo; [done|].
  cbn [bits_fit fields]. rewrite Zdiv.Zdiv_Zdiv by lia.
  replace (2 ^ lo * 2) with (2 ^ (lo + 1)) by (rewrite Z.pow_add_r by lia; done).
  rewrite IH by lia. destruct (Ascii.eqb c "?"); [done|]. cbn [orb].
  pose proof (fields_width cs (lo + 1)) as Hw.
  destruct (fields cs (lo + 1)) as [|[[l n] v] fs]; cbn [forallb field_test].
  - by rewrite fld_one.
  - inversion Hw as [|? ? Hn _]; subst. cbn in Hn. destruct (Z.eqb_spec l (lo + 1)) as [->|].
    + cbn [forallb field_test]. rewrite fld_cons by lia. by rewrite andb_assoc.
    + cbn [forallb field_test]. by rewrite fld_one.
Qed.

Definition pattern_fields (pattern : string) : list (Z * Z * Z) :=
  fields (List.rev (pattern_chars pattern)) 0.

Lemma instpat_fields pattern w : pattern_ok pattern = true -> in_u 32 w ->
  instpat_match pattern w = Ok (forallb (field_test w) (pattern_fields pattern)).
Proof.
  unfold in_u. intros Hp Hw. rewrite instpat_match_fit by (try done; lia).
  unfold pattern_fields. rewrite <- fields_fit by lia. by rewrite Z.div_1_r.
Qed.

(** The table with its fields computed. *)
Definition field_table : list (list (Z * Z * Z) * inst_name * inst_type) :=
  Eval vm_compute in map (fun '(p, n, t) => (pattern_fields p, n, t)) instpat_table.

Definition select (w : Z) : option (inst_name * inst_type) :=
  match List.find (fun '(fs, _, _) => forallb (field_test w) fs) field_table with
  | Some (_, n, t) => Some (n, t)
  | None => None
  end.

Lemma instpat_table_ok : forallb (fun '(p, _, _) => pattern_ok p) instpat_table = true.
Proof. vm_compute. reflexivity. Qed.

Lemma instpat_run_select `{CFG : Config} `{HOST : Host} `{CB : !Callbacks} d : in_u 32 (inst d) ->
  instpat_run instpat_table d =
  match select (inst d) with
  | Some (name, type) =>
      '(rd, src1, src2, imm) ← decode_operand d type; exec_body d rd src1 src2 imm name
  | None => mret d
  end.
Proof.
  intros Hw. unfold select.
  change field_table with (map (fun '(p, n, t) => (pattern_fields p, n, t)) instpat_table).
  pose proof instpat_table_ok as Hok. revert Hok.
  induction instpat_table as [|[[p n] t] l IH]; intros Hok; [done|].
  cbn [forallb] in Hok. apply andb_true_iff in Hok as [Hp Hl].
  cbn [instpat_run map List.find]. rewrite instpat_fields by done.
  destruct (forallb (field_test (inst d)) (pattern_fields p)); [done|]. by apply IH.
Qed.

(** * The selection agrees with [rv_decode] *)

Definition type_of (n : inst_name) : inst_type :=
  match n with
  | auipc | lui => TYPE_U
  | lbu | lb | lh | lw | lhu | sltiu | fence | addi | slti | xori | ori | andi | jalr => TYPE_I
  | srli | slli | srai => TYPE_SH
  | sb | sh | sw => TYPE_S
  | jal => TYPE_J
  | bne | beq | blt | bge | bltu | bgeu => TYPE_B
  | csrrw | csrrs => TYPE_CSRI
  | ebreak | ecall | mret_ | inv => TYPE_N
  | _ => TYPE_R
  end.

Definition instr_of (n : inst_name) (w : Z) : instr :=
  let r o := I_op o (f_rd w) (f_rs1 w) (f_rs2 w) in
  let i o := I_opimm o (f_rd w) (f_rs1 w) (imm_i w) in
  let s o := I_opimm o (f_rd w) (f_rs1 w) (f_rs2 w) in
  let l len sg := I_load len sg (f_rd w) (f_rs1 w) (imm_i w) in
  let t len := I_store len (f_rs1 w) (f_rs2 w) (imm_s w) in
  let b c := I_branch c (f_rs1 w) (f_rs2 w) (imm_b w) in
  match n with
  | auipc => I_auipc (f_rd w) (imm_u w) | lui => I_lui (f_rd w) (imm_u w)
  | lbu => l 1 false | lb => l 1 true | lh => l 2 true | lw => l 4 true | lhu => l 2 false
  | addi => i ADD | slti => i SLT | sltiu => i SLTU | xori => i XOR | ori => i OR | andi => i AND
  | slli => s SLL | srli => s SRL | srai => s SRA
  | sb => t 1 | sh => t 2 | sw => t 4
  | add => r ADD | sub => r SUB | sll => r SLL | slt => r SLT | sltu => r SLTU | xor => r XOR
  | srl => r SRL | sra => r SRA | or_ => r OR | and_ => r AND
  | mul => r MUL | mulh => r MULH | mulhsu => r MULHSU | mulhu => r MULHU
  | div => r DIV | divu => r DIVU | rem => r REM | remu => r REMU
  | jal => I_jal (f_rd w) (imm_j w) | jalr => I_jalr (f_rd w) (f_rs1 w) (imm_i w)
  | beq => b BEQ | bne => b BNE | blt => b BLT | bge => b BGE | bltu => b BLTU | bgeu => b BGEU
  | fence => I_fence_i | ebreak => I_ebreak | ecall => I_ecall | mret_ => I_mret
  | csrrw => I_csrrw (f_rd w) (f_rs1 w) (f_csr w) | csrrs => I_csrrs (f_rd w) (f_rs1 w) (f_csr w)
  | inv => I_illegal
  end.

Lemma fld_full w : in_u 32 w -> fld w 0 32 = w.
Proof. intros. unfold fld. rewrite Z.div_1_r. by apply Z.mod_small. Qed.

(** Entries whose opcode test can succeed for opcode [op]. *)
Definition opcode_may (op : Z) (e : list (Z * Z * Z) * inst_name * inst_type) : bool :=
  match fst (fst e) with
  | (0, 7, c) :: _ => op =? c
  | _ => true
  end.

Lemma find_filter {A} (P keep : A -> bool) l :
  Forall (fun x => keep x = false -> P x = false) l ->
  List.find P l = List.find P (List.filter keep l).
Proof.
  induction 1 as [|x l H _ IH]; [done|]. cbn [List.filter List.find].
  destruct (keep x) eqn:E; cbn [List.find]; [by rewrite IH|]. by rewrite H.
Qed.

Lemma select_opcode w op : f_opcode w = op ->
  select w =
  match List.find (fun '(fs, _, _) => forallb (field_test w) fs)
          (List.filter (opcode_may op) field_table) with
  | Some (_, n, t) => Some (n, t)
  | None => None
  end.
Proof.
  intros <-. unfold select. rewrite <- find_filter; [done|].
  apply Forall_forall. intros [[fs n] t] _. unfold opcode_may, f_opcode. cbn [fst].
  destruct fs as [|[[[] l] c] fs]; try done. repeat (case_match; try done).
  subst. intros E. cbn [forallb field_test]. by rewrite E.
Qed.

(** Split on the tests of a field held in a variable. *)
Ltac field_cases :=
  repeat match goal with
  | |- context [?x =? ?c] =>
      is_var x; destruct (Z.eqb_spec x c); [subst x|]; cbn [Z.eqb Pos.eqb andb]
  end.

Definition agrees (w : Z) : Prop :=
  match select w with
  | Some (n, t) => t = type_of n /\ rv_decode w = instr_of n w
  | None => False
  end.

(** Agreement for one opcode. *)
Ltac agree_opcode w Hw Hop :=
  unfold agrees; rewrite (select_opcode w _ Hop);
  match goal with
  | |- context [List.filter ?k ?t] =>
      let l := eval vm_compute in (List.filter k t) in
      replace (List.filter k t) with l by (vm_compute; reflexivity)
  end;
  cbn [List.find forallb field_test]; rewrite ?fld_full by exact Hw;
  unfold rv_decode; rewrite Hop; cbn [Z.eqb Pos.eqb];
  unfold rv_system, rv_branch, rv_load, rv_store, rv_opimm, rv_op;
  repeat match goal with E : (w =? _) = false |- _ => rewrite E end;
  change (fld w 0 7) with (f_opcode w); rewrite ?Hop;
  change (fld w 12 3) with (f_funct3 w); change (fld w 25 7) with (f_funct7 w);
  cbn [Z.eqb Pos.eqb andb];
  generalize (f_funct3 w) (f_funct7 w); intros f3 f7;
  field_cases; (split; reflexivity).

(** Entries that are not selected by the opcode field alone. *)
Definition no_opcode (e : list (Z * Z * Z) * inst_name * inst_type) : bool :=
  match fst (fst e) with
  | (0, 7, _) :: _ => false
  | _ => true
  end.

Section Agree.
Variable w : Z.
Hypothesis Hw : in_u 32 w.
Hypothesis Hecall : (w =? 0x73) = false.
Hypothesis Hebreak : (w =? 0x100073) = false.
Hypothesis Hmret : (w =? 0x30200073) = false.

Lemma agree_op : f_opcode w = 0x33 -> agrees w.
Proof. intros Hop. agree_opcode w Hw Hop. Qed.

Lemma agree_opimm : f_opcode w = 0x13 -> agrees w.
Proof. intros Hop. agree_opcode w Hw Hop. Qed.

Lemma agree_load : f_opcode w = 0x03 -> agrees w.
Proof. intros Hop. agree_opcode w Hw Hop. Qed.

Lemma agree_store : f_opcode w = 0x23 -> agrees w.
Proof. intros Hop. agree_opcode w Hw Hop. Qed.

Lemma agree_branch : f_opcode w = 0x63 -> agrees w.
Proof. intros Hop. agree_opcode w Hw Hop. Qed.

Lemma agree_system : f_opcode w = 0x73 -> agrees w.
Proof. intros Hop. agree_opcode w Hw Hop. Qed.

(** The opcodes with at most one instruction. *)
Lemma agree_single :
  f_opcode w ∈ [0x37; 0x17; 0x6f; 0x67; 0x0f] -> agrees w.
Proof.
  rewrite !elem_of_cons, elem_of_nil.
  intros [Hop|[Hop|[Hop|[Hop|[Hop|[]]]]]]; agree_opcode w Hw Hop.
Qed.

Definition rv_opcodes : list Z :=
  [0x37; 0x17; 0x6f; 0x67; 0x0f; 0x33; 0x13; 0x03; 0x23; 0x63; 0x73].

Lemma agree_none : f_opcode w ∉ rv_opcodes -> agrees w.
Proof.
  intros Hn. unfold rv_opcodes in Hn. rewrite !not_elem_of_cons in Hn.
  destruct Hn as (H1&H2&H3&H4&H5&H6&H7&H8&H9&H10&H11&_).
  apply Z.eqb_neq in H1, H2, H3, H4, H5, H6, H7, H8, H9, H10, H11.
  unfold agrees, rv_decode. rewrite H1, H2, H3, H4, H5, H6, H7, H8, H9, H10, H11.
  unfold select. rewrite (find_filter _ no_opcode).
  - cbn [List.find List.filter field_table no_opcode fst forallb field_test].
    rewrite !fld_full by done. by rewrite Hecall, Hebreak, Hmret.
  - unfold f_opcode in *. repeat constructor; cbn [no_opcode fst forallb field_test]; intros;
      try done; rewrite ?H1, ?H2, ?H3, ?H4, ?H5, ?H6, ?H7, ?H8, ?H9, ?H10, ?H11; done.
Qed.

Lemma agree_other : agrees w.
Proof.
  destruct (decide (f_opcode w ∈ rv_opcodes)) as [Hin|]; [|by apply agree_none].
  unfold rv_opcodes in Hin. rewrite !elem_of_cons, elem_of_nil in Hin.
  destruct Hin as [?|[?|[?|[?|[?|[?|[?|[?|[?|[?|[?|[]]]]]]]]]]]];
    [apply agree_single; set_solver..|apply agree_op|apply agree_opimm|apply agree_load|
     apply agree_store|apply agree_branch|apply agree_system]; done.
Qed.

End Agree.

Lemma select_decode w : in_u 32 w -> agrees w.
Proof.
  intros Hw.
  destruct (Z.eqb_spec w 0x73) as [->|E1]; [done|].
  destruct (Z.eqb_spec w 0x100073) as [->|E2]; [done|].
  destruct (Z.eqb_spec w 0x30200073) as [->|E3]; [done|].
  apply agree_other; by try apply Z.eqb_neq.
Qed.

(** * The order of the lines does not matter *)

(** Two patterns that fix some bit differently. *)
Fixpoint conflict (cs cs' : list ascii) : bool :=
  match cs, cs' with
  | c :: cs, c' :: cs' =>
      (negb (Ascii.eqb c "?") && negb (Ascii.eqb c' "?") &&
       negb (Bool.eqb (Ascii.eqb c "1") (Ascii.eqb c' "1"))) || conflict cs cs'
  | _, _ => false
  end.

Lemma conflict_spec cs cs' w : conflict cs cs' = true -> bits_fit cs w = true -> bits_fit cs' w = false.
Proof.
  revert cs' w. induction cs as [|c cs IH]; intros [|c' cs'] w; try done.
  cbn [conflict bits_fit]. intros Hc Hf. apply andb_true_iff in Hf as [H0 Hf].
  apply orb_true_iff in Hc as [Hc|Hc]; [|by rewrite (IH _ _ Hc Hf), andb_false_r].
  destruct (Ascii.eqb c "?"), (Ascii.eqb c' "?"), (Ascii.eqb c "1"), (Ascii.eqb c' "1"),
    (Z.testbit w 0); done.
Qed.

(** Every pair of a list. *)
Fixpoint all_pairs {A} (f : A -> A -> bool) (l : list A) : bool :=
  match l with
  | [] => true
  | x :: l => forallb (f x) l && all_pairs f l
  end.

Lemma all_pairs_lookup {A} (f : A -> A -> bool) l i j x y :
  all_pairs f l = true -> (i < j)%nat -> l !! i = Some x -> l !! j = Some y -> f x y = true.
Proof.
  revert i j. induction l as [|z l IH]; intros i j H Hij Hi Hj; [done|].
  cbn [all_pairs] in H. apply andb_true_iff in H as [Hz H].
  destruct j as [|j]; [lia|]. destruct i as [|i]; simpl in *.
  - injection Hi as <-. rewrite forallb_forall in Hz. apply Hz. apply list_elem_of_In.
    by eapply list_elem_of_lookup_2.
  - apply (IH i j); [done|lia|done|done].
Qed.

Definition pattern_bits (e : string * inst_name * inst_type) : list ascii :=
  List.rev (pattern_chars (fst (fst e))).

Lemma table_conflicts :
  all_pairs (fun e e' => conflict (pattern_bits e) (pattern_bits e')) (take 51 instpat_table) = true.
Proof. vm_compute. reflexivity. Qed.

(** C37. Apart from the catch-all [inv] line at the end, which fits every word, no word fits
    two lines of [decode_exec]: the 51 patterns before it are pairwise disjoint, so that
    their order among themselves does not matter. *)
Theorem instpat_exclusive i j e e' w :
  (i < j < 51)%nat -> instpat_table !! i = Some e -> instpat_table !! j = Some e' ->
  in_u 32 w -> instpat_match (fst (fst e)) w = Ok true -> instpat_match (fst (fst e')) w = Ok false.
Proof.
  intros Hij Hi Hj Hw Hm.
  pose proof instpat_table_ok as Hok. rewrite forallb_forall in Hok.
  assert (pattern_ok (fst (fst e)) = true /\ pattern_ok (fst (fst e')) = true) as [P P'].
  { split; [specialize (Hok e)|specialize (Hok e')]; destruct e as [[]], e' as [[]];
      apply Hok, list_elem_of_In; by eapply list_elem_of_lookup_2. }
  unfold in_u in Hw. rewrite instpat_match_fit in * by (done || lia).
  injection Hm as Hm. f_equal. eapply conflict_spec; [|exact Hm].
  change (conflict (pattern_bits e) (pattern_bits e') = true).
  eapply (all_pairs_lookup _ _ i j _ _ table_conflicts); [lia|..];
    (rewrite lookup_take_lt by lia; done).
Qed.

Lemma instpat_exclusive_witness :
  instpat_match "0100000 ????? ????? 000 ????? 01100 11" 0x00208033 = Ok false.
Proof.
  apply (instpat_exclusive 14 24 ("0000000 ????? ????? 000 ????? 01100 11", add, TYPE_R)
           ("0100000 ????? ????? 000 ????? 01100 11", sub, TYPE_R) 0x00208033);
    [lia|reflexivity|reflexivity|done|reflexivity].
Defined.
