(* ===== verification/IsaRefine.v ===== *)
(** [decode_exec] of [inst.c] implements [rv_step] of the specification: operands
    first, then the bodies group by group, then the whole cycle. *)

From S2P Require Import Prelude Config Macro Decode Machine HostMem Region IoMap Paddr.
From S2P Require Import Isa RvSpec IsaSelect.

Local Open Scope Z_scope.

(** * Operands *)

Lemma BITS_fld w hi lo : 0 <= lo <= hi -> hi - lo < 63 -> BITS w hi lo = fld w lo (hi - lo + 1).
Proof. apply BITS_div. Qed.

(** Turn [BITS] into fields with literal widths. *)
Ltac bits_fld :=
  rewrite !BITS_fld by lia;
  repeat match goal with
  | |- context [fld ?w ?l ?n] =>
      let m := eval vm_compute in n in progress change (fld w l n) with (fld w l m)
  end.

Lemma fld_range w lo n : 0 <= n -> 0 <= fld w lo n < 2 ^ n.
Proof. intros. apply Z.mod_pos_bound, Z.pow_pos_nonneg; lia. Qed.

Lemma wrap_scale n k a : 0 <= k -> 0 <= n -> wrap (n + k) (a * 2 ^ k) = wrap n a * 2 ^ k.
Proof.
  intros. unfold wrap. rewrite Z.pow_add_r by lia. rewrite Z.mul_mod_distr_r; [done|..].
  - apply Z.pow_nonzero; lia.
  - apply Z.pow_nonzero; lia.
Qed.

Lemma sgn_scale n k a y : 0 <= k -> 0 < n -> 0 <= y < 2 ^ k ->
  sgn (n + k) (a * 2 ^ k + y) = sgn n a * 2 ^ k + y.
Proof.
  intros. pose proof (sgn_range n a ltac:(lia)).
  assert (2 ^ (n + k - 1) = 2 ^ (n - 1) * 2 ^ k) as E.
  { rewrite <- Z.pow_add_r by lia. f_equal. lia. }
  rewrite <- (sgn_id (n + k) (sgn n a * 2 ^ k + y)) by (rewrite ?E; nia).
  apply sgn_congr. unfold wrap. rewrite <- (Z.add_mod_idemp_l (a * _)), <- (Z.add_mod_idemp_l (sgn n a * _))
    by (apply Z.pow_nonzero; lia).
  f_equal. f_equal. pose proof (wrap_scale n k a) as W1. pose proof (wrap_scale n k (sgn n a)) as W2.
  unfold wrap in *. rewrite W1, W2 by lia. f_equal. symmetry. apply (wrap_sgn n a).
Qed.

(** The upper part of an immediate: a sign-extended field, shifted in [uint64_t]. *)
Lemma sext_shl x len k : 0 < len -> 0 <= k <= 32 ->
  u64 (Z.shiftl (SEXT x len) k) = wrap (64 - k) (sgn len x) * 2 ^ k.
Proof.
  intros. rewrite Z.shiftl_mul_pow2 by lia. unfold SEXT.
  rewrite wrap_mul_l. replace 64 with (64 - k + k) at 1 by lia. apply wrap_scale; lia.
Qed.

Lemma u32_upper a k y : 0 <= k <= 32 ->
  u32 (wrap (64 - k) a * 2 ^ k + y) = u32 (a * 2 ^ k + y).
Proof.
  intros. rewrite <- (wrap_scale (64 - k) k) by lia. replace (64 - k + k) with 64 by lia.
  rewrite <- (wrap_add_l 32), (wrap_wrap_le 32 64) by lia. apply wrap_add_l.
Qed.

Lemma shl_fld w lo n k : 0 <= n -> 0 <= k -> n + k <= 64 ->
  u64 (Z.shiftl (fld w lo n) k) = fld w lo n * 2 ^ k.
Proof.
  intros. rewrite Z.shiftl_mul_pow2 by lia. apply wrap_id. unfold in_u.
  pose proof (fld_range w lo n). pose proof (Z.pow_pos_nonneg 2 k).
  assert (2 ^ n * 2 ^ k <= 2 ^ 64) by (rewrite <- Z.pow_add_r by lia; apply Z.pow_le_mono_r; lia).
  nia.
Qed.

Lemma immI_spec w : immI w = u32 (imm_i w).
Proof. unfold immI, imm_i. rewrite SEXT_u32 by lia. by rewrite BITS_fld by lia. Qed.

Lemma immU_spec w : immU w = u32 (imm_u w).
Proof.
  unfold immU, imm_u. rewrite BITS_fld by lia. rewrite sext_shl by lia.
  change (31 - 12 + 1) with 20. pose proof (u32_upper (sgn 20 (fld w 12 20)) 12 0) as E. rewrite !Z.add_0_r in E.
  rewrite E by lia. rewrite (wrap_sgn 32). change 32 with (20 + 12). rewrite !wrap_scale by lia.
  by rewrite wrap_sgn.
Qed.

Lemma immS_spec w : immS w = u32 (imm_s w).
Proof.
  unfold immS, imm_s. bits_fld. rewrite sext_shl by lia.
  pose proof (fld_range w 7 5). rewrite lor_add, u32_upper by lia.
  change (sgn 12) with (sgn (7 + 5)). by rewrite sgn_scale by lia.
Qed.

Lemma immB_spec w : immB w = u32 (imm_b w).
Proof.
  unfold immB, imm_b. bits_fld. rewrite sext_shl by lia.
  rewrite !shl_fld by lia.
  pose proof (fld_range w 25 6). pose proof (fld_range w 8 4). pose proof (fld_range w 7 1).
  rewrite <- !Z.lor_assoc, (Z.lor_comm (fld w 8 4 * _)), (Z.lor_assoc (fld w 25 6 * _)),
    (Z.lor_comm (fld w 25 6 * _)), <- Z.lor_assoc.
  rewrite (lor_add _ (_ * 2 ^ 1)), (lor_add (fld w 7 1)), lor_add, u32_upper by lia.
  f_equal. change (sgn 13) with (sgn (1 + 12)). rewrite <- sgn_scale by lia. f_equal. lia.
Qed.

Lemma immJ_spec w : immJ w = u32 (imm_j w).
Proof.
  unfold immJ, imm_j. bits_fld. rewrite sext_shl by lia.
  rewrite !shl_fld by lia.
  pose proof (fld_range w 12 8). pose proof (fld_range w 20 1). pose proof (fld_range w 21 10).
  rewrite <- !Z.lor_assoc.
  rewrite (lor_add _ (_ * 2 ^ 1)), (lor_add (fld w 12 8)), lor_add, u32_upper by lia.
  f_equal. change (sgn 21) with (sgn (1 + 20)). rewrite <- sgn_scale by lia. f_equal. lia.
Qed.

Lemma immSH_spec w : immSH w = f_rs2 w.
Proof. unfold immSH. by rewrite BITS_fld by lia. Qed.

Lemma immCSRI_spec w : immCSRI w = f_csr w.
Proof. unfold immCSRI. by rewrite BITS_fld by lia. Qed.

(** * Arithmetic *)

(** The value a body assigns, against [alu_sem]; [a] and [b] are register values. *)
Section Arith.
Variables a b : Z.
Hypothesis (Ha : in_u 32 a) (Hb : in_u 32 b).

Lemma land_31 x : Z.land x 0x1f = x mod 32.
Proof. change 0x1f with (Z.ones 5). by rewrite Z.land_ones by lia. Qed.

Lemma s32_cases : (a < 2 ^ 31 /\ s32 a = a) \/ (2 ^ 31 <= a /\ s32 a = a - 2 ^ 32).
Proof.
  unfold sgn. rewrite wrap_id by done. change (2 ^ (32 - 1)) with (2 ^ 31).
  destruct (Z.ltb_spec a (2 ^ 31)); [left|right]; lia.
Qed.

Lemma sll_spec : Z.shiftl a (b mod 32) = alu_sem SLL a b.
Proof. cbn. apply Z.shiftl_mul_pow2. pose proof (Z.mod_pos_bound b 32). lia. Qed.

Lemma srl_spec : Z.shiftr a (b mod 32) = alu_sem SRL a b.
Proof.
  cbn [alu_sem]. rewrite (wrap_id 32 a) by done. apply Z.shiftr_div_pow2.
  pose proof (Z.mod_pos_bound b 32). lia.
Qed.

Lemma sra_spec : Z.shiftr (s32 a) (b mod 32) = alu_sem SRA a b.
Proof. apply Z.shiftr_div_pow2. pose proof (Z.mod_pos_bound b 32). lia. Qed.

Lemma high_word x : u32 (Z.shiftr (u64 x) 32) = u32 (x / 2 ^ 32).
Proof.
  rewrite Z.shiftr_div_pow2 by lia. unfold wrap.
  change (2 ^ 64) with (2 ^ 32 * 2 ^ 32). rewrite Z.rem_mul_r by lia.
  rewrite Z.mul_comm, Z.div_add by lia. rewrite (Z.div_small (x mod 2 ^ 32)) by (apply Z.mod_pos_bound; lia).
  apply Zmod_mod.
Qed.

Lemma mulh_spec : Z.shiftr (s64 (s32 a * s32 b)) 32 = alu_sem MULH a b.
Proof.
  pose proof (sgn_range 32 a). pose proof (sgn_range 32 b).
  rewrite sgn_id by (cbn in *; nia). by apply Z.shiftr_div_pow2.
Qed.

Lemma mulhsu_spec : u32 (Z.shiftr (u64 (u64 (s32 a) * u64 b)) 32) = u32 (alu_sem MULHSU a b).
Proof.
  rewrite wrap_mul_l, wrap_mul_r, high_word. cbn [alu_sem]. by rewrite (wrap_id 32 b) by done.
Qed.

Lemma mulhu_spec : u32 (Z.shiftr (u64 (u64 a * u64 b)) 32) = u32 (alu_sem MULHU a b).
Proof.
  rewrite wrap_mul_l, wrap_mul_r, high_word. cbn [alu_sem]. by rewrite (wrap_id 32 a), (wrap_id 32 b) by done.
Qed.

(** The overflow case of the source is where the quotient leaves [int32_t]. *)
Lemma div_overflow : (a =? u32 INT32_MIN) && (b =? u32 (-1)) = true ->
  s32 a = - 2 ^ 31 /\ s32 b = -1.
Proof.
  rewrite andb_true_iff, !Z.eqb_eq. intros [-> ->]. split; reflexivity.
Qed.

Lemma div_spec {A} (k : Z -> A) : (forall x y, u32 x = u32 y -> k x = k y) ->
  (if b =? 0 then k (-1)
   else if (a =? u32 INT32_MIN) && (b =? u32 (-1)) then k INT32_MIN
   else k (Z.quot (s32 a) (s32 b))) = k (alu_sem DIV a b).
Proof.
  intros Hk. cbn [alu_sem]. destruct (b =? 0); [done|].
  destruct ((a =? u32 INT32_MIN) && (b =? u32 (-1))) eqn:E; [|done].
  apply div_overflow in E as [-> ->]. by apply Hk.
Qed.

Lemma rem_spec {A} (k : Z -> A) : (forall x y, u32 x = u32 y -> k x = k y) ->
  (if b =? 0 then k a
   else if (a =? u32 INT32_MIN) && (b =? u32 (-1)) then k 0
   else k (Z.rem (s32 a) (s32 b))) = k (alu_sem REM a b).
Proof.
  intros Hk. cbn [alu_sem]. destruct (b =? 0); [done|].
  destruct ((a =? u32 INT32_MIN) && (b =? u32 (-1))) eqn:E; [|done].
  apply div_overflow in E as [-> ->]. by apply Hk.
Qed.

Lemma divu_spec : u32 (if b =? 0 then u32 (-1) else a / b) = u32 (alu_sem DIVU a b).
Proof. cbn [alu_sem]. destruct (b =? 0); [apply wrap_wrap|done]. Qed.

Lemma remu_spec : (if b =? 0 then a else a mod b) = alu_sem REMU a b.
Proof. done. Qed.

End Arith.

Lemma jalr_mask x : in_u 32 x -> Z.land x (u32 (Z.lnot 1)) = 2 * (x / 2).
Proof.
  unfold in_u. intros Hx. change 1 with (2 ^ 1 - 1).
  assert (Z.land x (u32 (Z.lnot (2 ^ 1 - 1))) = Z.land x (u64 (Z.lnot (2 ^ 1 - 1)))) as ->.
  { apply Z.bits_inj'. intros i Hi. rewrite !Z.land_spec. unfold wrap.
    rewrite !Z.testbit_mod_pow2 by lia. destruct (Z.ltb_spec i 32), (Z.ltb_spec i 64);
      try done; try lia; by rewrite (testbit_above x 32 i) by lia. }
  rewrite land_lnot_mask by lia. change (2 ^ 1) with 2. pose proof (Z.div_mod x 2). lia.
Qed.

(** * Registers *)

(** The register file of a RV32I build, with [x0] zero. *)
Definition isa_wf `{CFG : Config} `{HOST : Host} (s : Machine) : Prop :=
  cpu_ok (cpu s) /\ gpr (cpu s) !! 0%nat = Some 0.

Section Refine.
Context `{CFG : Config} `{HOST : Host} `{CB : !Callbacks} `{CBOK : !CallbacksOk}.
Hypothesis not_rve : CONFIG_RVE = false.

Lemma nr_gpr_32 : nr_gpr = 32%nat.
Proof. unfold nr_gpr. by rewrite not_rve. Qed.

Lemma check_reg_ok r s : 0 <= r < 32 -> check_reg_idx r s = Ok (r, s).
Proof.
  intros. unfold check_reg_idx, when. destruct CONFIG_RT_CHECK; [|done].
  rewrite nr_gpr_32. change (Z.of_nat 32) with 32.
  destruct (Z.leb_spec 0 r); [|lia]. destruct (Z.ltb_spec r 32); [done|lia].
Qed.

(** The value of register [r]. *)
Definition xval (s : Machine) (r : Z) : Z :=
  if r =? 0 then 0 else nth (Z.to_nat r) (gpr (cpu s)) 0.

Lemma xval_u32 s r : isa_wf s -> in_u 32 (xval s r).
Proof.
  intros [(_ & Hg & _) _]. unfold xval. destruct (r =? 0); [done|].
  destruct (nth_in_or_default (Z.to_nat r) (gpr (cpu s)) 0) as [Hin| ->]; [|done].
  rewrite Forall_forall in Hg. by apply Hg, list_elem_of_In.
Qed.

Lemma R_ok r s : isa_wf s -> 0 <= r < 32 -> R r s = Ok (xval s r, s).
Proof.
  intros [(Hl & _) H0] Hr. unfold R. rewrite (bind_run _ _ _ _ _ (check_reg_ok r s Hr)).
  unfold gets, mbind, M_bind. rewrite nr_gpr_32 in Hl.
  destruct (gpr (cpu s) !! Z.to_nat r) as [v|] eqn:E.
  - unfold xval. destruct (Z.eqb_spec r 0) as [->|].
    + change (Z.to_nat 0) with 0%nat in E. rewrite H0 in E. by injection E as <-.
    + by rewrite (nth_lookup_Some _ _ 0 _ E).
  - apply lookup_ge_None in E. lia.
Qed.

Lemma set_R_ok r v s : isa_wf s -> 0 <= r < 32 ->
  set_R r v s = Ok (tt, s <| cpu -> gpr := <[Z.to_nat r := v]> (gpr (cpu s)) |>).
Proof.
  intros [(Hl & _) _] Hr. unfold set_R. rewrite (bind_run _ _ _ _ _ (check_reg_ok r s Hr)).
  unfold gets, mbind, M_bind. rewrite nr_gpr_32 in Hl.
  destruct (Nat.ltb_spec (Z.to_nat r) (length (gpr (cpu s)))); [done|lia].
Qed.

Lemma f_rd_range w : 0 <= f_rd w < 32.
Proof. apply (fld_range w 7 5). lia. Qed.
Lemma f_rs1_range w : 0 <= f_rs1 w < 32.
Proof. apply (fld_range w 15 5). lia. Qed.
Lemma f_rs2_range w : 0 <= f_rs2 w < 32.
Proof. apply (fld_range w 20 5). lia. Qed.
Lemma f_csr_range w : 0 <= f_csr w < 4096.
Proof. apply (fld_range w 20 12). lia. Qed.

Lemma set_gpr_same s : s <| cpu -> gpr := gpr (cpu s) |> = s.
Proof. by destruct s as [[]]. Qed.

(** [R(0) = 0] at the end of [decode_exec]. *)
Definition fin (d : Decode) : M Machine Decode := set_R 0 0 ;; mret d.

Lemma fin_id d s : isa_wf s -> fin d s = Ok (d, s).
Proof.
  intros Hwf. unfold fin. rewrite (bind_run _ _ _ _ _ (set_R_ok 0 0 s Hwf ltac:(lia))).
  destruct Hwf as [_ H0]. change (Z.to_nat 0) with 0%nat. by rewrite list_insert_id, set_gpr_same.
Qed.

Lemma put_wf s r v : isa_wf s -> in_u 32 v ->
  cpu_ok (cpu (s <| cpu -> gpr := <[r := v]> (gpr (cpu s)) |>)).
Proof.
  intros [(Hl & Hg & Hr) _] Hv. unfold cpu_ok. cbn [update cpu gpr pc csr].
  cbn. rewrite length_insert. split_and!; try apply Hr; [done|]. by apply Forall_insert.
Qed.

(** A register write followed by the reset of [x0]. *)
Lemma set_R_fin rd v v' d s : isa_wf s -> 0 <= rd < 32 -> v = u32 v' ->
  (set_R rd v ;; fin d) s = (x_put rd v' ;; mret d) s.
Proof.
  intros Hwf Hrd ->. rewrite (bind_run _ _ _ _ _ (set_R_ok rd _ s Hwf Hrd)).
  set (s1 := s <| cpu -> gpr := <[Z.to_nat rd := u32 v']> (gpr (cpu s)) |>).
  destruct Hwf as [Hc H0]. pose proof Hc as (Hl & _). rewrite nr_gpr_32 in Hl.
  unfold fin, set_R. rewrite bind_run with (a := tt) (s' := s1 <| cpu -> gpr := <[0%nat := 0]> (gpr (cpu s1)) |>).
  - unfold x_put, modify, mbind, M_bind, mret, M_ret. do 2 f_equal. subst s1. cbn.
    destruct (Z.eqb_spec rd 0) as [->|].
    + change (Z.to_nat 0) with 0%nat. rewrite list_insert_insert_eq, list_insert_id by done.
      destruct s as [[]]; done.
    + rewrite list_insert_insert_ne by lia. rewrite (list_insert_id _ 0%nat) by done. by destruct s as [[]].
  - rewrite (bind_run _ _ _ _ _ (check_reg_ok 0 s1 ltac:(lia))).
    unfold gets, mbind, M_bind. subst s1. cbn. by rewrite length_insert, Hl.
Qed.

(** * Bodies *)

Definition operands (s : Machine) (w : Z) (t : inst_type) : Z * Z * Z * Z :=
  let rd := f_rd w in let a := xval s (f_rs1 w) in let b := xval s (f_rs2 w) in
  match t with
  | TYPE_I => (rd, a, 0, u32 (imm_i w))
  | TYPE_R => (rd, a, b, 0)
  | TYPE_U => (rd, 0, 0, u32 (imm_u w))
  | TYPE_S => (rd, a, b, u32 (imm_s w))
  | TYPE_N => (rd, 0, 0, 0)
  | TYPE_J => (rd, 0, 0, u32 (imm_j w))
  | TYPE_B => (rd, a, b, u32 (imm_b w))
  | TYPE_SH => (rd, a, 0, f_rs2 w)
  | TYPE_CSRI => (rd, a, 0, f_csr w)
  end.

Lemma R_run {A} r (k : Z -> M Machine A) s : isa_wf s -> 0 <= r < 32 ->
  (R r ≫= k) s = k (xval s r) s.
Proof. intros. by rewrite (bind_run _ _ _ _ _ (R_ok r s ltac:(done) ltac:(done))). Qed.

Lemma decode_operand_ok d t s : isa_wf s ->
  decode_operand d t s = Ok (operands s (inst d) t, s).
Proof.
  intros Hwf. unfold decode_operand, operands.
  rewrite immI_spec, immU_spec, immS_spec, immB_spec, immJ_spec, immSH_spec, immCSRI_spec.
  bits_fld. fold (f_rd (inst d)) (f_rs1 (inst d)) (f_rs2 (inst d)).
  pose proof (f_rs1_range (inst d)). pose proof (f_rs2_range (inst d)).
  destruct t; rewrite ?R_run by done; done.
Qed.

Lemma wr_fin d rd v v' s : isa_wf s -> 0 <= rd < 32 -> u32 v = u32 v' ->
  (wr d rd v ≫= fin) s = (x_put rd v' ;; mret d) s.
Proof.
  intros Hwf Hrd E. unfold wr. rewrite bind_assoc. by apply (set_R_fin rd _ v' d s).
Qed.

Lemma wr_congr d rd s x y : isa_wf s -> 0 <= rd < 32 -> u32 x = u32 y ->
  (wr d rd x ≫= fin) s = (wr d rd y ≫= fin) s.
Proof. intros Hwf Hrd E. by rewrite (wr_fin d rd x x), (wr_fin d rd y x). Qed.

(** A write of an already truncated value. *)
Lemma x_put_wrap {A} rd v (x : A) s : (x_put rd v ;; mret x) s = (x_put rd (u32 v) ;; mret x) s.
Proof. unfold x_put, modify, mbind, M_bind. by rewrite wrap_wrap. Qed.

(** The shape both sides reach once the operands are read. *)
Definition spec_result (d : Decode) (n : inst_name) : M Machine Decode :=
  p ← rv_step (instr_of n (inst d)) (dpc d); mret (d <| dnpc := p |>).

Section Cases.
Variables (d : Decode) (s : Machine).
Hypothesis Hwf : isa_wf s.
Hypothesis Hinst : in_u 32 (inst d).
Hypothesis Hpc : in_u 32 (dpc d).
Hypothesis Hsn : snpc d = u32 (dpc d + 4).

Let w := inst d.
Let d1 := d <| dnpc := snpc d |>.
Let a := xval s (f_rs1 w).
Let b := xval s (f_rs2 w).

Definition impl_result (n : inst_name) : M Machine Decode :=
  ('(rd, src1, src2, imm) ← decode_operand d1 (type_of n); exec_body d1 rd src1 src2 imm n) ≫= fin.

Lemma Ha : in_u 32 a.
Proof. by apply xval_u32. Qed.
Lemma Hb : in_u 32 b.
Proof. by apply xval_u32. Qed.

(** Run the operand fetch of both sides. *)
Ltac start :=
  unfold impl_result; rewrite bind_assoc;
  rewrite (bind_run _ _ _ _ _ (decode_operand_ok d1 _ s Hwf));
  unfold operands, spec_result; change (inst d1) with w; change (inst d) with w;
  cbn [type_of instr_of rv_step exec_body];
  pose proof (f_rd_range w); pose proof Ha; pose proof Hb.

(** Close the goal of an instruction that writes [rd]. *)
Ltac by_wr tac :=
  erewrite wr_fin; [|done|done|tac]; unfold d1; rewrite Hsn; reflexivity.

Ltac arith := first [reflexivity | by rewrite ?wrap_add_r, ?wrap_add_l | idtac].

Lemma refine_upper n : n ∈ [lui; auipc] -> impl_result n s = spec_result d n s.
Proof.
  rewrite !elem_of_cons, elem_of_nil. intros [->|[->|[]]]; start.
  - by_wr ltac:(apply wrap_wrap).
  - by_wr ltac:(apply wrap_add_r).
Qed.

Definition op_of (n : inst_name) : option alu :=
  match n with
  | add => Some ADD | sub => Some SUB | sll => Some SLL | slt => Some SLT | sltu => Some SLTU
  | xor => Some XOR | srl => Some SRL | sra => Some SRA | or_ => Some OR | and_ => Some AND
  | mul => Some MUL | mulh => Some MULH | mulhsu => Some MULHSU | mulhu => Some MULHU
  | div => Some DIV | divu => Some DIVU | rem => Some REM | remu => Some REMU
  | _ => None
  end.

(** What the body of a register-register instruction does. *)
Lemma op_body n o : op_of n = Some o ->
  (exec_body d1 (f_rd w) a b 0 n ≫= fin) s = (x_put (f_rd w) (alu_sem o a b) ;; mret d1) s.
Proof.
  pose proof (f_rd_range w). pose proof Ha. pose proof Hb.
  destruct n; try done; intros [= <-]; cbn [exec_body].
  all: try (apply wr_fin; [done|done|];
    rewrite ?land_31, ?sll_spec, ?srl_spec, ?sra_spec, ?mulh_spec, ?mulhsu_spec, ?mulhu_spec,
      ?divu_spec by done; reflexivity).
  - apply wr_fin; [done|done|]. cbn [alu_sem]. by rewrite (wrap_id 32 a), (wrap_id 32 b).
  - rewrite <- (wr_fin d1 (f_rd w) (alu_sem DIV a b)) by done.
    rewrite <- (div_spec a b Ha Hb (fun v => (wr d1 (f_rd w) v ≫= fin) s)) by (intros; by apply wr_congr).
    repeat case_match; done.
  - rewrite <- (wr_fin d1 (f_rd w) (alu_sem REM a b)) by done.
    rewrite <- (rem_spec a b Ha Hb (fun v => (wr d1 (f_rd w) v ≫= fin) s)) by (intros; by apply wr_congr).
    repeat case_match; done.
Qed.

Lemma refine_op n o : op_of n = Some o -> impl_result n s = spec_result d n s.
Proof.
  intros Ho. assert (type_of n = TYPE_R) as Ht by (by destruct n).
  assert (instr_of n w = I_op o (f_rd w) (f_rs1 w) (f_rs2 w)) as Hi
    by (destruct n; try done; by injection Ho as <-).
  unfold impl_result. rewrite bind_assoc, Ht.
  rewrite (bind_run _ _ _ _ _ (decode_operand_ok d1 _ s Hwf)).
  cbn [operands]. change (inst d1) with w. fold a b. rewrite (op_body n o Ho).
  unfold spec_result. fold w. rewrite Hi. unfold d1. rewrite Hsn. reflexivity.
Qed.

Definition opimm_of (n : inst_name) : option alu :=
  match n with
  | addi => Some ADD | slti => Some SLT | sltiu => Some SLTU | xori => Some XOR | ori => Some OR
  | andi => Some AND | slli => Some SLL | srli => Some SRL | srai => Some SRA
  | _ => None
  end.

(** Shift amounts are 5-bit fields. *)
Lemma shamt : f_rs2 w = u32 (f_rs2 w) mod 32.
Proof.
  pose proof (f_rs2_range w). rewrite wrap_id by (unfold in_u; lia). by rewrite Z.mod_small.
Qed.

Lemma refine_opimm n o : opimm_of n = Some o -> impl_result n s = spec_result d n s.
Proof.
  intros Ho. destruct n; try done; injection Ho as <-; start; fold a;
    assert (in_u 32 (u32 (f_rs2 w))) by (by apply wrap_in_u).
  1,5-9: by_wr ltac:(reflexivity).
  - by_wr ltac:(rewrite shamt; by rewrite srl_spec).
  - by_wr ltac:(rewrite shamt; by rewrite sll_spec).
  - by_wr ltac:(rewrite shamt; by rewrite sra_spec).
Qed.

(** ** Memory *)

Lemma io_wf s' : io_frame s s' -> isa_wf s'.
Proof. unfold isa_wf. intros []. by rewrite fr_cpu. Qed.

Lemma store_wf s' : store_frame s s' -> isa_wf s'.
Proof. unfold isa_wf. intros []. by rewrite sf_cpu. Qed.

Lemma load_body len f g imm :
  (forall v, u32 (f v) = u32 (g v)) ->
  (ld d1 (f_rd w) a imm len f ≫= fin) s =
  (v ← paddr_read (u32 (a + imm)) len; x_put (f_rd w) (g v) ;; mret d1) s.
Proof.
  intros E. unfold ld, vaddr_read. rewrite bind_assoc.
  destruct (paddr_read (u32 (a + imm)) len s) as [[v s']|] eqn:Hr;
    [rewrite !(bind_run _ _ _ _ _ Hr)|by rewrite !(bind_abort _ _ _ _ Hr)].
  apply wr_fin; [|apply f_rd_range|done]. by eapply io_wf, paddr_read_within.
Qed.

Lemma load_value len v : 0 < len <= 4 -> u32 (SEXT v (8 * len)) = u32 (sgn (8 * len) v).
Proof. intros. apply SEXT_u32. lia. Qed.

Lemma refine_load n : n ∈ [lb; lh; lw; lbu; lhu] -> impl_result n s = spec_result d n s.
Proof.
  rewrite !elem_of_cons, elem_of_nil.
  intros [->|[->|[->|[->|[->|[]]]]]]; start; fold a.
  all: erewrite load_body;
    [unfold x_get, gets, mbind, M_bind; fold (xval s (f_rs1 w)); fold a; rewrite wrap_add_r;
     destruct (paddr_read _ _ s) as [[v s']|]; [|done];
     unfold d1; rewrite Hsn; reflexivity|].
  all: intros v; cbn [id].
  - by apply (load_value 1).
  - by apply (load_value 2).
  - by rewrite wrap_sgn.
  - done.
  - done.
Qed.

Lemma refine_store n : n ∈ [sb; sh; sw] -> impl_result n s = spec_result d n s.
Proof.
  assert (forall len imm, (st d1 a b imm len ≫= fin) s =
    (paddr_write (u32 (a + imm)) len b ;; mret d1) s) as Hst.
  { intros len imm. unfold st, vaddr_write. rewrite bind_assoc.
    destruct (paddr_write (u32 (a + imm)) len b s) as [[u s']|] eqn:Hr;
      [rewrite !(bind_run _ _ _ _ _ Hr)|by rewrite !(bind_abort _ _ _ _ Hr)].
    apply fin_id. by eapply store_wf, paddr_write_within. }
  rewrite !elem_of_cons, elem_of_nil. intros [->|[->|[->|[]]]]; start; fold a b.
  all: rewrite Hst; unfold x_get, gets, mbind, M_bind;
    fold (xval s (f_rs1 w)) (xval s (f_rs2 w)); fold a b; rewrite wrap_add_r;
    destruct (paddr_write _ _ _ s) as [[v s']|]; [|done]; unfold d1; rewrite Hsn; reflexivity.
Qed.

(** ** Control *)

Definition cond_of (n : inst_name) : option cond :=
  match n with
  | beq => Some BEQ | bne => Some BNE | blt => Some BLT | bge => Some BGE
  | bltu => Some BLTU | bgeu => Some BGEU
  | _ => None
  end.

Lemma br_body n c imm : cond_of n = Some c ->
  (exec_body d1 (f_rd w) a b imm n ≫= fin) s =
  Ok (d <| dnpc := if cond_sem c a b then u32 (dpc d + imm) else u32 (dpc d + 4) |>, s).
Proof.
  intros Hc. destruct n; try done; injection Hc as <-; cbn [exec_body cond_sem];
    rewrite <- ?Z.leb_antisym;
    (unfold br; unfold mbind, M_bind, mret, M_ret; rewrite fin_id by done; unfold d1; cbn;
     by rewrite Hsn).
Qed.

Lemma refine_branch n c : cond_of n = Some c -> impl_result n s = spec_result d n s.
Proof.
  intros Hc. assert (type_of n = TYPE_B) as Ht by (by destruct n).
  assert (instr_of n w = I_branch c (f_rs1 w) (f_rs2 w) (imm_b w)) as Hi
    by (destruct n; try done; by injection Hc as <-).
  unfold impl_result. rewrite bind_assoc, Ht.
  rewrite (bind_run _ _ _ _ _ (decode_operand_ok d1 _ s Hwf)).
  cbn [operands]. change (inst d1) with w. fold a b. rewrite (br_body n c _ Hc).
  unfold spec_result. fold w. rewrite Hi, wrap_add_r. reflexivity.
Qed.

Lemma refine_jump n : n ∈ [jal; jalr] -> impl_result n s = spec_result d n s.
Proof.
  rewrite !elem_of_cons, elem_of_nil. intros [->|[->|[]]]; start; rewrite bind_assoc.
  - etransitivity; [apply (set_R_fin _ _ (dpc d + 4) (d1 <| dnpc := u32 (dpc d + u32 (imm_j w)) |>))|];
      [done..|]. rewrite wrap_add_r. apply x_put_wrap.
  - etransitivity; [apply (set_R_fin _ _ (dpc d + 4)
      (d1 <| dnpc := Z.land (u32 (a + u32 (imm_i w))) (u32 (Z.lnot 1)) |>))|]; [done..|].
    rewrite jalr_mask by (by apply wrap_in_u). rewrite wrap_add_r. apply x_put_wrap.
Qed.

(** ** System *)

Lemma gpr_len : length (gpr (cpu s)) = 32%nat.
Proof. destruct Hwf as [(Hl & _) _]. by rewrite nr_gpr_32 in Hl. Qed.

Lemma csr_len : length (csr (cpu s)) = nr_csr.
Proof. by destruct Hwf as [(_ & _ & _ & Hl & _) _]. Qed.

Lemma csr_u32 c : in_u 32 (nth (Z.to_nat c) (csr (cpu s)) 0).
Proof.
  destruct Hwf as [(_ & _ & _ & _ & Hc) _].
  destruct (nth_in_or_default (Z.to_nat c) (csr (cpu s)) 0) as [Hin| ->]; [|done].
  rewrite Forall_forall in Hc. by apply Hc, list_elem_of_In.
Qed.

Lemma put_csr_ok c v : in_u 32 v -> isa_wf (s <| cpu -> csr := <[c := v]> (csr (cpu s)) |>).
Proof.
  intros Hv. destruct Hwf as [(? & ? & ? & Hl & Hc) H0]. split; [|done].
  unfold cpu_ok. cbn. rewrite length_insert. split_and!; try done. by apply Forall_insert.
Qed.

End Cases.

(** The accesses in a state whose register files have their sizes. *)
Lemma get_csr_len c s : length (csr (cpu s)) = nr_csr -> 0 <= c < 4096 ->
  get_csr c s = csr_get c s.
Proof.
  intros Hl Hc. unfold nr_csr in Hl. unfold get_csr, csr_get, gets, mbind, M_bind.
  destruct (csr (cpu s) !! Z.to_nat c) as [v|] eqn:E.
  - by rewrite (nth_lookup_Some _ _ 0 _ E).
  - apply lookup_ge_None in E. lia.
Qed.

Lemma set_csr_len c v s : length (csr (cpu s)) = nr_csr -> 0 <= c < 4096 ->
  set_csr c v s = csr_put c v s.
Proof.
  intros Hl Hc. unfold nr_csr in Hl. unfold set_csr, csr_put, gets, mbind, M_bind.
  destruct (Nat.ltb_spec (Z.to_nat c) (length (csr (cpu s)))); [done|lia].
Qed.

Lemma set_R_len r v s : length (gpr (cpu s)) = 32%nat -> 0 <= r < 32 ->
  set_R r v s = Ok (tt, s <| cpu -> gpr := <[Z.to_nat r := v]> (gpr (cpu s)) |>).
Proof.
  intros Hl Hr. unfold set_R. rewrite (bind_run _ _ _ _ _ (check_reg_ok r s Hr)).
  unfold gets, mbind, M_bind.
  destruct (Nat.ltb_spec (Z.to_nat r) (length (gpr (cpu s)))); [done|lia].
Qed.

Section System.
Variables (d : Decode) (s : Machine).
Hypothesis Hwf : isa_wf s.
Hypothesis Hsn : snpc d = u32 (dpc d + 4).
Hypothesis Hpc : in_u 32 (dpc d).
Let w := inst d.
Let d1 := d <| dnpc := snpc d |>.

(** Run the computation at the head of the left-hand side. *)
Ltac run E := rewrite (bind_run _ _ _ _ _ E).

Ltac start :=
  unfold impl_result; rewrite bind_assoc; fold d1;
  rewrite (bind_run _ _ _ _ _ (decode_operand_ok d1 _ s Hwf));
  unfold operands, spec_result; change (inst d1) with w; change (inst d) with w;
  cbn [type_of instr_of rv_step exec_body]; rewrite ?bind_assoc.

Lemma refine_fence : impl_result d fence s = spec_result d fence s.
Proof.
  start. etransitivity; [apply (fin_id d1 s Hwf)|]. unfold d1. rewrite Hsn. reflexivity.
Qed.

Lemma refine_mret : impl_result d mret_ s = spec_result d mret_ s.
Proof.
  start. pose proof (get_csr_len 0x341 s (csr_len s Hwf) ltac:(lia)) as E.
  run E. unfold mbind at 1, M_bind at 1. cbn [mret M_ret].
  etransitivity; [apply (fin_id _ s Hwf)|]. reflexivity.
Qed.

Lemma refine_ecall : impl_result d ecall s = spec_result d ecall s.
Proof.
  start. unfold isa_raise_intr. rewrite !bind_assoc.
  change (dpc d1) with (dpc d).
  pose proof (put_csr_ok s Hwf (Z.to_nat 0x341) (dpc d) Hpc) as W1.
  run (set_csr_len 0x341 (dpc d) s (csr_len s Hwf) ltac:(lia)). rewrite !bind_assoc.
  set (s1 := s <| cpu -> csr := <[Z.to_nat 0x341 := dpc d]> (csr (cpu s)) |>) in *.
  pose proof (put_csr_ok s1 W1 (Z.to_nat 0x342) 11 ltac:(done)) as W2.
  run (set_csr_len 0x342 11 s1 (csr_len s1 W1) ltac:(lia)).
  set (s2 := s1 <| cpu -> csr := <[Z.to_nat 0x342 := 11]> (csr (cpu s1)) |>) in *.
  run (get_csr_len 0x305 s2 (csr_len s2 W2) ltac:(lia)).
  etransitivity; [apply (fin_id _ s2 W2)|]. reflexivity.
Qed.

Lemma refine_ebreak : impl_result d ebreak s = spec_result d ebreak s.
Proof.
  start. rewrite R_run by (done || lia). unfold set_nemu_state. rewrite wrap_sgn, !bind_assoc.
  unfold halt, difftest_skip_ref. change (dpc d1) with (dpc d).
  destruct CONFIG_DIFFTEST; cbn -[fin d1]; (etransitivity; [apply fin_id; by apply Hwf|]);
    unfold d1; by rewrite Hsn.
Qed.

Lemma refine_csrrw : impl_result d csrrw s = spec_result d csrrw s.
Proof.
  start. pose proof (f_csr_range w). pose proof (f_rd_range w).
  set (a := xval s (f_rs1 w)). set (v := nth (Z.to_nat (f_csr w)) (csr (cpu s)) 0).
  pose proof (xval_u32 s (f_rs1 w) Hwf : in_u 32 a) as Ha'.
  pose proof (put_csr_ok s Hwf (Z.to_nat (f_csr w)) a Ha') as W0.
  destruct (Z.eqb_spec (f_rd w) 0) as [E|Hrd]; cbn [negb].
  - unfold mbind at 1, M_bind at 1. cbn [mret M_ret]. rewrite bind_assoc.
    run (set_csr_len (f_csr w) a s (csr_len s Hwf) ltac:(done)).
    etransitivity; [apply (fin_id d1 _ W0)|]. unfold d1. rewrite Hsn, E. reflexivity.
  - rewrite !bind_assoc. run (get_csr_len (f_csr w) s (csr_len s Hwf) ltac:(done)). fold v.
    run (set_R_len (f_rd w) v s (gpr_len s Hwf) ltac:(done)).
    set (s1 := s <| cpu -> gpr := <[Z.to_nat (f_rd w) := v]> (gpr (cpu s)) |>).
    assert (isa_wf s1) as W1.
    { split; [apply put_wf; [done|apply csr_u32, Hwf]|]. cbn.
      rewrite list_lookup_insert_ne by lia. apply Hwf. }
    rewrite bind_assoc. run (set_csr_len (f_csr w) a s1 (csr_len s1 W1) ltac:(done)).
    etransitivity; [apply (fin_id d1 _ (put_csr_ok s1 W1 (Z.to_nat (f_csr w)) a Ha'))|].
    unfold d1. rewrite Hsn. unfold x_put, modify, mbind, M_bind, csr_get, gets, mret, M_ret. cbn.
    apply Z.eqb_neq in Hrd. rewrite Hrd. fold v. rewrite (wrap_id 32 v) by apply csr_u32, Hwf. done.
Qed.

(** Setting no bit of a register leaves it as it is. *)
Lemma csr_or_zero c : 0 <= c < 4096 ->
  s <| cpu -> csr := <[Z.to_nat c := Z.lor (nth (Z.to_nat c) (csr (cpu s)) 0) 0]> (csr (cpu s)) |> = s.
Proof.
  intros Hc. rewrite Z.lor_0_r. pose proof (csr_len s Hwf) as Hl. unfold nr_csr in Hl.
  rewrite list_insert_id; [by destruct s as [[]]|].
  destruct (lookup_lt_is_Some_2 (csr (cpu s)) (Z.to_nat c)) as [v Hv]; [lia|].
  by rewrite (nth_lookup_Some _ _ 0 _ Hv).
Qed.

(** The register write of [csrrs] and the later reset of [x0], as one write. *)
Lemma put_then_reset rd v c : 0 <= rd < 32 ->
  (fin d1) (s <| cpu -> gpr := <[Z.to_nat rd := u32 v]> (gpr (cpu s)) |> <| cpu -> csr := c |>) =
  (x_put rd v ;; modify (fun s => s <| cpu -> csr := c |>) ;; mret d1) s.
Proof.
  intros Hrd. unfold fin. pose proof (gpr_len s Hwf) as Hl. destruct Hwf as [_ H0].
  set (s1 := s <| cpu -> gpr := _ |> <| cpu -> csr := c |>).
  assert (length (gpr (cpu s1)) = 32%nat) as Hl1 by (cbn; by rewrite length_insert).
  run (set_R_len 0 0 s1 Hl1 ltac:(lia)). subst s1.
  unfold x_put, modify, mbind, M_bind, mret, M_ret. cbn. destruct s as [[g p c'] ? ? ? ?]. cbn in *.
  destruct (Z.eqb_spec rd 0) as [->|].
  - change (Z.to_nat 0) with 0%nat. by rewrite list_insert_insert_eq, list_insert_id.
  - rewrite list_insert_insert_ne by lia. by rewrite (list_insert_id _ 0%nat).
Qed.

Lemma refine_csrrs : impl_result d csrrs s = spec_result d csrrs s.
Proof.
  start. pose proof (f_csr_range w). pose proof (f_rd_range w).
  set (a := xval s (f_rs1 w)). set (v := nth (Z.to_nat (f_csr w)) (csr (cpu s)) 0).
  assert (u32 v = v) as Hv by (apply wrap_id, csr_u32, Hwf).
  run (get_csr_len (f_csr w) s (csr_len s Hwf) ltac:(done)). fold v. rewrite !bind_assoc.
  run (set_R_len (f_rd w) v s (gpr_len s Hwf) ltac:(done)).
  set (s1 := s <| cpu -> gpr := <[Z.to_nat (f_rd w) := v]> (gpr (cpu s)) |>).
  transitivity (fin d1 (s1 <| cpu -> csr := <[Z.to_nat (f_csr w) := Z.lor v a]> (csr (cpu s)) |>)).
  - destruct (Z.eqb_spec a 0) as [->|]; cbn [negb].
    + pose proof (csr_or_zero (f_csr w) ltac:(done)) as E. fold v in E.
      replace (<[_:=Z.lor v 0]> (csr (cpu s))) with (csr (cpu s1)) by (cbn; rewrite <- E at 1; done).
      by destruct s as [[]].
    + rewrite !bind_assoc.
      run (get_csr_len (f_csr w) s1 (csr_len s Hwf) ltac:(done)).
      run (set_csr_len (f_csr w) (Z.lor v a) s1 (csr_len s Hwf) ltac:(done)). reflexivity.
  - subst s1. rewrite <- Hv. rewrite put_then_reset by done.
    unfold d1. rewrite Hsn. unfold x_put, csr_put, csr_get, x_get, modify, mbind, M_bind, gets, mret, M_ret.
    cbn. fold v. rewrite !Hv. by destruct (f_rd w =? 0).
Qed.

Lemma refine_inv : impl_result d inv s = spec_result d inv s.
Proof.
  start. unfold invalid_inst, inst_fetch, vaddr_ifetch. rewrite !bind_assoc.
  change (dpc d1) with (dpc d).
  destruct (paddr_read (dpc d) 4 s) as [[x s1]|] eqn:E1;
    [rewrite !(bind_run _ _ _ _ _ E1)|by rewrite !(bind_abort _ _ _ _ E1)].
  cbn [mret M_ret]. unfold mbind at 1, M_bind at 1. cbn [mret M_ret]. rewrite !bind_assoc.
  destruct (paddr_read (u32 (dpc d + 4)) 4 s1) as [[y s2]|] eqn:E2;
    [rewrite !(bind_run _ _ _ _ _ E2)|by rewrite !(bind_abort _ _ _ _ E2)].
  assert (isa_wf s2) as W.
  { eapply io_wf; [|eapply paddr_read_within, E2].
    eapply io_wf; [exact Hwf|eapply paddr_read_within, E1]. }
  unfold mbind at 1, M_bind at 1. cbn [mret M_ret].
  unfold set_nemu_state, halt, difftest_skip_ref. rewrite wrap_sgn, !bind_assoc.
  destruct CONFIG_DIFFTEST; cbn -[fin d1]; (etransitivity; [apply fin_id; by apply W|]);
    unfold d1; by rewrite Hsn.
Qed.

End System.

(** * The whole instruction *)

Lemma body_refines n d s :
  isa_wf s -> in_u 32 (dpc d) -> snpc d = u32 (dpc d + 4) ->
  impl_result d n s = spec_result d n s.
Proof.
  intros Hwf Hpc Hsn.
  destruct (op_of n) as [o|] eqn:E1; [by eapply refine_op|].
  destruct (opimm_of n) as [o|] eqn:E2; [by eapply refine_opimm|].
  destruct (cond_of n) as [c|] eqn:E3; [by eapply refine_branch|].
  destruct n; try done;
    first [by apply refine_fence | by apply refine_mret | by apply refine_ecall
      | by apply refine_ebreak | by apply refine_csrrw | by apply refine_csrrs
      | by apply refine_inv | apply refine_upper; [done..|set_solver]
      | apply refine_load; [done..|set_solver] | apply refine_store; [done..|set_solver]
      | apply refine_jump; [done..|set_solver]].
Qed.

Lemma decode_exec_spec d s :
  isa_wf s -> in_u 32 (inst d) -> in_u 32 (dpc d) -> snpc d = u32 (dpc d + 4) ->
  decode_exec d s = (p ← rv_step (rv_decode (inst d)) (dpc d); mret (d <| dnpc := p |>)) s.
Proof.
  intros Hwf Hi Hpc Hsn. pose proof (select_decode _ Hi) as Hsel. unfold agrees in Hsel.
  destruct (select (inst d)) as [[n t]|] eqn:E; [|done]. destruct Hsel as [-> ->].
  fold (spec_result d n). rewrite <- body_refines by done.
  unfold decode_exec, impl_result, fin.
  rewrite instpat_run_select by done. change (inst (d <| dnpc := snpc d |>)) with (inst d).
  by rewrite E.
Qed.

(** One fetch-decode-execute cycle from [pc], as [exec_once] starts it. *)
Lemma exec_once_spec pc dn i s :
  isa_wf s -> heap_ok (mem s) -> in_u 32 pc ->
  isa_exec_once (mkDecode pc pc dn i) s =
  (w ← paddr_read pc 4; p ← rv_step (rv_decode w) pc; mret (mkDecode pc (u32 (pc + 4)) p w)) s.
Proof.
  intros Hwf Hh Hpc. unfold isa_exec_once, inst_fetch, vaddr_ifetch. cbn [snpc].
  rewrite bind_assoc.
  destruct (paddr_read pc 4 s) as [[w s1]|] eqn:E;
    [rewrite !(bind_run _ _ _ _ _ E)|by rewrite !(bind_abort _ _ _ _ E)].
  pose proof (paddr_read_u32 _ _ _ _ _ Hh E) as Hw. rewrite (wrap_id 32 w) by done.
  unfold mbind at 1, M_bind at 1. cbn [mret M_ret].
  assert (isa_wf s1) by (eapply io_wf; [exact Hwf|by eapply paddr_read_within]).
  etransitivity; [apply decode_exec_spec; done|]. reflexivity.
Qed.

(** * The invariant of the machine state *)

Definition machine_ok (s : Machine) : Prop := isa_wf s /\ heap_ok (mem s).

Lemma io_ok s s' : io_frame s s' -> machine_ok s -> machine_ok s'.
Proof. intros [] [Hw Hh]. split; [|by auto]. unfold isa_wf. by rewrite fr_cpu. Qed.

Lemma store_ok s s' : store_frame s s' -> machine_ok s -> machine_ok s'.
Proof. intros [] [Hw Hh]. split; [|by auto]. unfold isa_wf. by rewrite sf_cpu. Qed.

Lemma read_keeps addr len : keeps machine_ok (paddr_read addr len).
Proof. apply triple_intro. intros s v s' Hs H. eapply io_ok; [|done]. by eapply paddr_read_within. Qed.

Lemma write_keeps addr len v : keeps machine_ok (paddr_write addr len v).
Proof. apply triple_intro. intros s u s' Hs H. eapply store_ok; [|done]. by eapply paddr_write_within. Qed.

Lemma x_put_keeps r v : 0 <= r -> keeps machine_ok (x_put r v).
Proof.
  intros Hr. unfold x_put. apply keeps_modify. intros s [Hw Hh].
  destruct (Z.eqb_spec r 0); [done|].
  split; [|done]. split; [apply put_wf; [done|by apply wrap_in_u]|]. cbn.
  rewrite list_lookup_insert_ne by lia. apply Hw.
Qed.

Lemma csr_put_keeps c v : in_u 32 v -> keeps machine_ok (csr_put c v).
Proof.
  intros Hv. unfold csr_put. apply keeps_modify. intros s [Hw Hh]. split; [|done].
  by apply put_csr_ok.
Qed.

Lemma halt_keeps st pc c : keeps machine_ok (halt st pc c).
Proof.
  unfold halt, difftest_skip_ref. apply keeps_bind; [destruct CONFIG_DIFFTEST|intros _]; keeps; done.
Qed.

Lemma x_get_keeps r : keeps machine_ok (x_get r).
Proof. apply keeps_gets. Qed.

(** Register and CSR numbers in range. *)
Definition instr_ok (i : instr) : Prop :=
  let r x := 0 <= x < 32 in
  match i with
  | I_lui rd _ | I_auipc rd _ | I_jal rd _ => r rd
  | I_jalr rd rs1 _ | I_load _ _ rd rs1 _ | I_opimm _ rd rs1 _ => r rd /\ r rs1
  | I_branch _ rs1 rs2 _ | I_store _ rs1 rs2 _ => r rs1 /\ r rs2
  | I_op _ rd rs1 rs2 => r rd /\ r rs1 /\ r rs2
  | I_csrrw rd rs1 c | I_csrrs rd rs1 c => r rd /\ r rs1 /\ 0 <= c < 4096
  | _ => True
  end.

Lemma rv_decode_ok w : in_u 32 w -> instr_ok (rv_decode w).
Proof.
  intros Hw. pose proof (select_decode w Hw) as H. unfold agrees in H.
  destruct (select w) as [[n t]|]; [|done]. destruct H as [_ ->].
  pose proof (f_rd_range w). pose proof (f_rs1_range w). pose proof (f_rs2_range w).
  pose proof (f_csr_range w). destruct n; cbn; auto.
Qed.

Lemma lor_u32 x y : in_u 32 x -> in_u 32 y -> in_u 32 (Z.lor x y).
Proof.
  unfold in_u. intros Hx Hy. split; [apply Z.lor_nonneg; lia|].
  destruct (decide (Z.lor x y = 0)) as [->|]; [done|].
  pose proof (Z.lor_nonneg x y). apply Z.log2_lt_cancel.
  rewrite Z.log2_lor, Z.log2_pow2 by lia.
  assert (forall z, 0 <= z < 2 ^ 32 -> Z.log2 z < 32) as Hlog.
  { intros z Hz. destruct (decide (z = 0)) as [->|]; [done|]. apply Z.log2_lt_pow2; lia. }
  apply Z.max_lub_lt; auto.
Qed.

(** Forward reasoning with the lemmas above through a run of [rv_step]. *)
Ltac step_ok :=
  repeat match goal with
  | H : x_get ?r ?s = Ok _, M : machine_ok ?s |- _ =>
      pose proof (xval_u32 s r (proj1 M)); unfold x_get in H; inv_ok;
      fold (xval s r) in *
  | H : csr_get ?c ?s = Ok _, M : machine_ok ?s |- _ =>
      pose proof (csr_u32 s (proj1 M) c); unfold csr_get in H; inv_ok
  | H : x_put ?r ?v ?s = Ok _, M : machine_ok ?s |- _ =>
      let E := fresh in
      assert (0 <= r) as E by lia;
      apply (keeps_use _ _ _ _ _ (x_put_keeps r v E) M) in H
  | H : csr_put ?c ?v ?s = Ok _, M : machine_ok ?s |- _ =>
      let E := fresh in
      assert (in_u 32 v) as E by (done || by apply lor_u32);
      apply (keeps_use _ _ _ _ _ (csr_put_keeps c v E) M) in H
  | H : halt ?st ?p ?c ?s = Ok _, M : machine_ok ?s |- _ =>
      apply (keeps_use _ _ _ _ _ (halt_keeps st p c) M) in H
  | H : paddr_read ?x ?l ?s = Ok _, M : machine_ok ?s |- _ =>
      apply (keeps_use _ _ _ _ _ (read_keeps x l) M) in H
  | H : paddr_write ?x ?l ?v ?s = Ok _, M : machine_ok ?s |- _ =>
      apply (keeps_use _ _ _ _ _ (write_keeps x l v) M) in H
  end.

Lemma rv_step_ok i pc : instr_ok i -> in_u 32 pc ->
  triple machine_ok (rv_step i pc) (fun p s => machine_ok s /\ in_u 32 p).
Proof.
  intros Hi Hpc. apply triple_intro. intros s p s' Hs H.
  destruct i; cbn [rv_step instr_ok] in *; inv_ok; step_ok; (split; [done|]);
    try first [done | apply wrap_in_u; lia | case_match; apply wrap_in_u; lia].
  pose proof (wrap_range 32 (xval s rs1 + imm) ltac:(lia)).
  pose proof (Z.mul_div_le (u32 (xval s rs1 + imm)) 2). unfold in_u.
  pose proof (Z.div_pos (u32 (xval s rs1 + imm)) 2). lia.
Qed.

Lemma exec_once_ok pc dn i s d' s' :
  machine_ok s -> in_u 32 pc -> isa_exec_once (mkDecode pc pc dn i) s = Ok (d', s') ->
  machine_ok s' /\ in_u 32 (dnpc d').
Proof.
  intros Hs Hpc H. rewrite exec_once_spec in H by (done || apply Hs).
  apply bind_Ok in H as (w & s1 & Hr & H). apply bind_Ok in H as (p & s2 & H & Hret).
  pose proof (paddr_read_u32 _ _ _ _ _ (proj2 Hs) Hr) as Hw.
  apply (keeps_use _ _ _ _ _ (read_keeps _ _) Hs) in Hr.
  apply (triple_use _ _ _ _ _ _ (rv_step_ok _ pc (rv_decode_ok w Hw) Hpc) Hr) in H.
  by inv_ok.
Qed.

(** * Properties *)

(** C1. The interpreter implements the architecture: one [isa_exec_once] from [pc] is one
    fetch, decode and execute step of the specification, for every instruction
    word, in registers, memory, CSRs, next pc and in how it stops. *)
Theorem isa_exec_once_refines pc dn i s :
  isa_wf s -> heap_ok (mem s) -> in_u 32 pc ->
  isa_exec_once (mkDecode pc pc dn i) s =
  (w ← paddr_read pc 4; p ← rv_step (rv_decode w) pc; mret (mkDecode pc (u32 (pc + 4)) p w)) s.
Proof. apply exec_once_spec. Qed.

(** C28. Executing an instruction keeps the machine well formed: 32 registers and 4096 CSRs
    of 32-bit values, [x0] zero, a heap of bytes, and a 32-bit next pc. *)
Theorem isa_exec_once_keeps pc dn i s d' s' :
  machine_ok s -> in_u 32 pc -> isa_exec_once (mkDecode pc pc dn i) s = Ok (d', s') ->
  machine_ok s' /\ in_u 32 (dnpc d').
Proof. apply exec_once_ok. Qed.

(** An instruction word that is not one of the implemented instructions changes no
    register and no guest memory, and leaves the machine in state [NEMU_ABORT] with
    the address of the word and return value -1 (as a [uint32_t]). *)
Theorem invalid_inst_aborts d s d' s' :
  isa_wf s -> in_u 32 (inst d) -> in_u 32 (dpc d) -> snpc d = u32 (dpc d + 4) ->
  rv_decode (inst d) = I_illegal -> decode_exec d s = Ok (d', s') ->
  nemu_state s' = mkNemu NEMU_ABORT (dpc d) (2 ^ 32 - 1) /\ cpu s' = cpu s /\
  dnpc d' = snpc d /\ (forall b o, b <> BIoSpace -> peek (mem s') b o = peek (mem s) b o).
Proof.
  intros Hwf Hi Hpc Hsn Hill H. rewrite decode_exec_spec in H by done. rewrite Hill in H.
  cbn [rv_step] in H. apply bind_Ok in H as (p & s3 & H & Hret). inv_ok.
  apply paddr_read_within in Hm, Hm0.
  assert (io_frame s s1) as F by (by transitivity s0).
  unfold halt, difftest_skip_ref in Hm1. destruct CONFIG_DIFFTEST; inv_ok; destruct F; cbn; auto.
Qed.

(** A trap and its return: [ecall] at [pc] goes to [mtvec] with [mepc = pc] and
    [mcause = 11], touching nothing else of the CPU; [mret] in that state goes back to
    [pc], so that the handler has to advance [mepc] itself. *)
Theorem ecall_mret_roundtrip d s d' s' e :
  isa_wf s -> in_u 32 (dpc d) -> snpc d = u32 (dpc d + 4) -> inst d = 0x73 ->
  in_u 32 (dpc e) -> snpc e = u32 (dpc e + 4) -> inst e = 0x30200073 ->
  decode_exec d s = Ok (d', s') ->
  dnpc d' = nth 0x305 (csr (cpu s)) 0 /\
  cpu s' = mkCPU (gpr (cpu s)) (pc (cpu s))
             (<[0x342%nat := 11]> (<[0x341%nat := dpc d]> (csr (cpu s)))) /\
  decode_exec e s' = Ok (e <| dnpc := dpc d |>, s').
Proof.
  intros Hwf Hpc Hsn Hi Hpc' Hsn' Hi' H.
  rewrite decode_exec_spec in H by (rewrite ?Hi; done). rewrite Hi in H.
  change (rv_decode 0x73) with I_ecall in H. cbn [rv_step] in H.
  unfold csr_put, csr_get in H. inv_ok.
  pose proof (csr_len s Hwf) as Hl. unfold nr_csr in Hl. split_and!.
  - cbn. change (Z.to_nat mtvec) with 0x305%nat. rewrite !nth_lookup, !list_lookup_insert_ne by done.
    done.
  - cbn. by destruct s as [[]].
  - pose proof (put_csr_ok s Hwf (Z.to_nat mepc) (dpc d) Hpc) as W1.
    pose proof (put_csr_ok _ W1 (Z.to_nat mcause) 11 ltac:(done)) as W2.
    rewrite decode_exec_spec by (rewrite ?Hi'; done). rewrite Hi'.
    change (rv_decode 0x30200073) with I_mret. cbn [rv_step].
    unfold csr_get, gets, mbind, M_bind, mret, M_ret. cbn. change (Z.to_nat mepc) with 0x341%nat.
    rewrite nth_lookup, list_lookup_insert_ne, list_lookup_insert_eq by (rewrite ?Hl; done || lia).
    done.
Qed.

End Refine.

(** * Instances of the properties on concrete data *)

Module IsaWitness.

#[local] Instance cfg : Config := kconfig false false false.
#[local] Instance host : Host := null_host.
#[local] Instance cb : Callbacks := {| run_callback := fun _ _ _ _ => mret tt |}.
#[local] Instance cbok : CallbacksOk.
Proof. intros c o l w. apply within_ret, _. Defined.

Lemma nrve : CONFIG_RVE = false.
Proof. reflexivity. Qed.

Definition s0 : Machine := machine_zero ∅ tt.

Lemma s0_wf : isa_wf s0.
Proof. split; [apply cpu_zero_ok|reflexivity]. Qed.

(** [addi ra, zero, 5] at the reset vector. *)
Definition s1 : Machine := final (paddr_write 0x80000000 4 0x00500093) s0.

Lemma s1_ok : machine_ok s1.
Proof.
  apply (keeps_use _ _ s0 tt s1 (write_keeps 0x80000000 4 0x00500093)).
  - split; [apply s0_wf|]. apply machine_zero_heap, map_Forall_empty.
  - vm_compute. reflexivity.
Qed.

Definition d0 : Decode := mkDecode 0x80000000 0x80000000 0 0.
Definition s2 : Machine := final (isa_exec_once d0) s1.

Lemma isa_exec_once_refines_witness :
  isa_exec_once d0 s1 =
    Ok (mkDecode 0x80000000 0x80000004 0x80000004 0x00500093, s2) /\
  gpr (cpu s2) !! 1%nat = Some 5.
Proof.
  split; [|vm_compute; reflexivity].
  etransitivity.
  - apply (isa_exec_once_refines nrve 0x80000000 0 0 s1); [apply s1_ok|apply s1_ok|done].
  - vm_compute. reflexivity.
Defined.

Lemma isa_exec_once_keeps_witness : machine_ok s2.
Proof.
  apply (isa_exec_once_keeps nrve 0x80000000 0 0 s1
           (mkDecode 0x80000000 0x80000004 0x80000004 0x00500093) s2); [apply s1_ok|done|].
  vm_compute. reflexivity.
Defined.

Definition dbad : Decode := mkDecode 0x80000000 0x80000004 0 0xffffffff.

Lemma invalid_inst_aborts_witness :
  nemu_state (final (decode_exec dbad) s0) = mkNemu NEMU_ABORT 0x80000000 0xffffffff.
Proof.
  apply (invalid_inst_aborts nrve dbad s0 (dbad <| dnpc := 0x80000004 |>) _ s0_wf);
    first [done | vm_compute; reflexivity].
Defined.

Definition decall : Decode := mkDecode 0x80000010 0x80000014 0 0x73.
Definition dmret : Decode := mkDecode 0x80000100 0x80000104 0 0x30200073.

Lemma ecall_mret_roundtrip_witness :
  decode_exec dmret (final (decode_exec decall) s0) =
  Ok (dmret <| dnpc := 0x80000010 |>, final (decode_exec decall) s0).
Proof.
  apply (ecall_mret_roundtrip nrve decall s0 (decall <| dnpc := 0 |>)
           (final (decode_exec decall) s0) dmret s0_wf);
    first [done | vm_compute; reflexivity].
Defined.

End IsaWitness.
