(* ===== verification/Difftest.v ===== *)
(** Differential testing: [nemu/src/cpu/difftest/dut.c] with
    [isa/riscv32/difftest/dut.c] (this NEMU is the design under test), and
    [cpu/difftest/ref.c] (this NEMU is the reference for another design). The
    reference that [dut.c] loads is the class [Host]. *)

From S2P Require Import Prelude Config Machine HostMem Region IoMap Paddr Isa.

Section Dut.
Context `{CFG : Config} `{HOST : Host} `{CB : !Callbacks}.

Definition ref_exec (n : Z) : M Machine unit := fun s =>
  match ref_difftest_exec n (ref s) with
  | Ok r => Ok (tt, s <| ref := r |>)
  | Abort e => Abort e
  end.

(** [ref_difftest_regcpy(c, DIFFTEST_TO_REF)] and [.. TO_DUT)]. *)
Definition ref_set (c : CPU_state) : M Machine unit :=
  modify (fun s => s <| ref := ref_difftest_setregs c (ref s) |>).
Definition ref_get (c : CPU_state) : M Machine CPU_state :=
  gets (fun s => ref_difftest_getregs (ref s) c).

(** [while (nr_ref -- > 0) ref_difftest_exec(1);] *)
Fixpoint ref_steps (n : nat) : M Machine unit :=
  match n with
  | O => mret tt
  | S n => ref_exec 1 ;; ref_steps n
  end.

(** Empty when difftest is off, as [cpu/difftest.h] has it. *)
Definition difftest_skip_dut (nr_ref nr_dut : Z) : M Machine unit :=
  if CONFIG_DIFFTEST then
    modify (fun s => s <| skip_dut_nr_inst := s32 (skip_dut_nr_inst s + nr_dut) |>) ;;
    ref_steps (Z.to_nat nr_ref)
  else mret tt.

(** The loop of [isa_difftest_checkregs] over the registers [i], [i + 1], ... *)
Fixpoint check_gprs (n i : nat) (g r : list Z) : result bool :=
  match n with
  | O => Ok true
  | S n =>
      match g !! i, r !! i with
      | Some x, Some y => if x =? y then check_gprs n (S i) g r else Ok false
      | _, _ => Abort (AUndef "gpr index")
      end
  end.

Definition isa_difftest_checkregs (c ref_r : CPU_state) : result bool :=
  match check_gprs 32 0 (gpr c) (gpr ref_r) with
  | Ok true => Ok (pc c =? pc ref_r)
  | r => r
  end.

Definition isa_difftest_attach : M Machine unit := mret tt.

Definition checkregs (ref_r : CPU_state) (pc : Z) : M Machine unit := fun s =>
  match isa_difftest_checkregs (cpu s) ref_r with
  | Ok true => Ok (tt, s)
  | Ok false =>
      (modify (fun s => s <| nemu_state -> state := NEMU_ABORT |>) ;;
       modify (fun s => s <| nemu_state -> halt_pc := pc |>) ;;
       _ ← isa_reg_display; mret tt) s
  | Abort e => Abort e
  end.

Definition difftest_step (pc npc : Z) : M Machine unit :=
  k ← gets skip_dut_nr_inst;
  if 0 <? k then
    ref_r ← ref_get ref_r_init;
    if Machine.pc ref_r =? npc then
      modify (fun s => s <| skip_dut_nr_inst := 0 |>) ;;
      checkregs ref_r npc
    else
      modify (fun s => s <| skip_dut_nr_inst := k - 1 |>) ;;
      (if k - 1 =? 0 then panic "can not catch up with ref.pc" else mret tt)
  else
    skip ← gets is_skip_ref;
    if skip : bool then
      c ← gets cpu;
      ref_set c ;;
      modify (fun s => s <| is_skip_ref := false |>)
    else
      ref_exec 1 ;;
      ref_r ← ref_get ref_r_init;
      checkregs ref_r pc.

(** The bytes of guest memory that [init_difftest] copies to the reference. *)
Definition read_host (p : ptr) (n : Z) : M Machine (list Z) := fun s =>
  if in_block p n then Ok (peek_bytes (mem s) (blk p) (off p) (Z.to_nat n), s)
  else Abort (AUndef "memcpy outside its object").

(** [init_difftest] after the library has been loaded; [ref] already holds the state
    that [ref_difftest_init] leaves. *)
Definition init_difftest (img_size : Z) : M Machine unit :=
  if CONFIG_DIFFTEST then
    p ← guest_to_host 0x80000000;
    bs ← read_host p img_size;
    modify (fun s => s <| ref := ref_difftest_memcpy 0x80000000 bs (ref s) |>) ;;
    c ← gets cpu;
    ref_set c
  else mret tt.

End Dut.

(** * [ref.c] *)

Section Ref.
Context `{CFG : Config} `{HOST : Host} `{CB : !Callbacks}.

Inductive direction : Type := DIFFTEST_TO_DUT | DIFFTEST_TO_REF.

Definition difftest_memcpy (addr : Z) (buf : list Z) (d : direction) : M Machine unit :=
  match d with
  | DIFFTEST_TO_REF => p ← guest_to_host addr; mem_copy p buf
  | DIFFTEST_TO_DUT => stop (AAssert "0")
  end.

(** [for (i = 0; i < 16; i ++) dst[i] = src[i];] *)
Fixpoint copy_gprs (n i : nat) (src dst : list Z) : result (list Z) :=
  match n with
  | O => Ok dst
  | S n =>
      match src !! i, dst !! i with
      | Some x, Some _ => copy_gprs n (S i) src (<[i := x]> dst)
      | _, _ => Abort (AUndef "gpr index")
      end
  end.

(** The buffer [dut] is returned; towards the reference it is only read. *)
Definition difftest_regcpy (dut : CPU_state) (d : direction) : M Machine CPU_state := fun s =>
  match d with
  | DIFFTEST_TO_REF =>
      match copy_gprs 16 0 (gpr dut) (gpr (cpu s)) with
      | Ok g => Ok (dut, s <| cpu -> gpr := g |> <| cpu -> pc := pc dut |>)
      | Abort e => Abort e
      end
  | DIFFTEST_TO_DUT =>
      match copy_gprs 16 0 (gpr (cpu s)) (gpr dut) with
      | Ok g => Ok (dut <| gpr := g |> <| pc := pc (cpu s) |>, s)
      | Abort e => Abort e
      end
  end.

Definition difftest_raise_intr (NO : Z) : M Machine unit := stop (AAssert "0").

End Ref.

(** * Properties *)

Lemma check_gprs_spec n i g r :
  (i + n <= length g)%nat -> (i + n <= length r)%nat ->
  check_gprs n i g r = Ok (bool_decide (take n (drop i g) = take n (drop i r))).
Proof.
  revert i. induction n as [|n IH]; intros i Hg Hr; cbn [check_gprs].
  { rewrite !take_0. by rewrite bool_decide_true. }
  destruct (lookup_lt_is_Some_2 g i) as [x Hx]; [lia|].
  destruct (lookup_lt_is_Some_2 r i) as [y Hy]; [lia|]. rewrite Hx, Hy.
  rewrite (drop_S g x i Hx), (drop_S r y i Hy). cbn [take].
  destruct (Z.eqb_spec x y) as [->|Hne].
  - rewrite IH by lia. f_equal. apply bool_decide_ext. split; [by intros ->|by intros [= ->]].
  - rewrite bool_decide_false; [done|]. by intros [= ??].
Qed.

Lemma copy_gprs_spec n i src dst :
  (i + n <= length src)%nat -> (i + n <= length dst)%nat ->
  copy_gprs n i src dst = Ok (take i dst ++ take n (drop i src) ++ drop (i + n) dst).
Proof.
  revert i dst. induction n as [|n IH]; intros i dst Hs Hd; cbn [copy_gprs].
  { by rewrite take_0, Nat.add_0_r, app_nil_l, take_drop. }
  destruct (lookup_lt_is_Some_2 src i) as [x Hx]; [lia|].
  destruct (lookup_lt_is_Some_2 dst i) as [y Hy]; [lia|]. rewrite Hx, Hy.
  rewrite IH by (rewrite ?length_insert; lia).
  rewrite (drop_S src x i Hx). cbn [take app].
  rewrite drop_insert_lt by lia. replace (S i + n)%nat with (i + S n)%nat by lia.
  rewrite (take_S_r _ i x) by (apply list_lookup_insert_eq; lia).
  rewrite take_insert_ge by lia. by rewrite <- app_assoc.
Qed.

Section DutProps.
Context `{CFG : Config} `{HOST : Host} `{CB : !Callbacks}.

Lemma checkregs_spec c ref_r :
  length (gpr c) = 32%nat -> length (gpr ref_r) = 32%nat ->
  isa_difftest_checkregs c ref_r = Ok (bool_decide (gpr c = gpr ref_r /\ pc c = pc ref_r)).
Proof.
  intros Hc Hr. unfold isa_difftest_checkregs. rewrite check_gprs_spec by lia.
  rewrite !drop_0, !take_ge by lia.
  destruct (decide (gpr c = gpr ref_r)) as [E|E].
  - rewrite (bool_decide_true (gpr c = _)) by done. f_equal.
    destruct (Z.eqb_spec (pc c) (pc ref_r)); symmetry;
      [apply bool_decide_true|apply bool_decide_false]; tauto.
  - rewrite (bool_decide_false (gpr c = _)) by done. f_equal. symmetry. apply bool_decide_false. tauto.
Qed.

Lemma reg_values_ok n i s : (i + n <= length (gpr (cpu s)))%nat ->
  exists vs, reg_values (Z.of_nat i) n s = Ok (vs, s).
Proof.
  revert i. induction n as [|n IH]; intros i Hl; cbn [reg_values]; [by eexists|].
  unfold gets, mbind, M_bind. rewrite Nat2Z.id.
  destruct (lookup_lt_is_Some_2 (gpr (cpu s)) i) as [v ->]; [lia|].
  destruct (IH (S i)) as [vs E]; [lia|]. replace (Z.of_nat i + 1) with (Z.of_nat (S i)) by lia.
  rewrite E. by eexists.
Qed.

(** C39. A checked step detects every difference: when nothing is skipped and both sides have
    32 registers, [difftest_step] runs the reference for one instruction, then leaves
    the run state alone if all registers and the pc agree, and otherwise sets
    [NEMU_ABORT] at the instruction's pc. *)
Theorem difftest_step_checks p np s r :
  skip_dut_nr_inst s = 0 -> is_skip_ref s = false ->
  ref_difftest_exec 1 (ref s) = Ok r ->
  length (gpr (cpu s)) = 32%nat -> length (gpr (ref_difftest_getregs r ref_r_init)) = 32%nat ->
  let ref_r := ref_difftest_getregs r ref_r_init in
  difftest_step p np s =
    Ok (tt, if bool_decide (gpr (cpu s) = gpr ref_r /\ pc (cpu s) = pc ref_r)
            then s <| ref := r |>
            else s <| ref := r |> <| nemu_state -> state := NEMU_ABORT |> <| nemu_state -> halt_pc := p |>).
Proof.
  intros Hk Hs Hr Hl Hl' ref_r. unfold difftest_step, gets.
  rewrite (bind_run _ _ s (skip_dut_nr_inst s) s) by done. rewrite Hk. cbn [Z.ltb Z.compare].
  rewrite (bind_run _ _ s (is_skip_ref s) s) by done. rewrite Hs.
  rewrite (bind_run _ _ s tt (s <| ref := r |>)) by (unfold ref_exec; by rewrite Hr).
  set (s1 := s <| ref := r |>).
  rewrite (bind_run _ _ s1 ref_r s1) by done.
  unfold checkregs. rewrite checkregs_spec by done. change (cpu s1) with (cpu s).
  destruct (bool_decide _); [done|].
  set (s2 := s1 <| nemu_state -> state := NEMU_ABORT |> <| nemu_state -> halt_pc := p |>).
  destruct (reg_values_ok 32 0 s2) as [vs E]; [cbn; lia|]. change (Z.of_nat 0) with 0 in E.
  unfold modify, mbind, M_bind. fold s2. unfold isa_reg_display. by rewrite E.
Qed.

(** An instruction that cannot be compared is copied over: after [difftest_skip_ref] the
    next step writes the registers of the design under test to the reference, clears
    the flag, and reports nothing. *)
Theorem difftest_step_skips p np s s1 :
  CONFIG_DIFFTEST = true -> difftest_skip_ref s = Ok (tt, s1) ->
  difftest_step p np s1 =
    Ok (tt, s <| skip_dut_nr_inst := 0 |> <| ref := ref_difftest_setregs (cpu s) (ref s) |>
              <| is_skip_ref := false |>).
Proof.
  intros Hd H. unfold difftest_skip_ref in H. rewrite Hd in H. injection H as <-. reflexivity.
Qed.

(** [difftest_regcpy] of [ref.c] moves 16 registers, but [isa_difftest_checkregs] compares
    32: a design that agrees with the reference in every register is still reported,
    unless the upper half of the caller's uninitialised buffer happens to agree. *)
Theorem ref_regcpy_incomplete s buf :
  length (gpr (cpu s)) = 32%nat -> length (gpr buf) = 32%nat ->
  exists buf', difftest_regcpy buf DIFFTEST_TO_DUT s = Ok (buf', s) /\
    isa_difftest_checkregs (cpu s) buf' =
    Ok (bool_decide (drop 16 (gpr (cpu s)) = drop 16 (gpr buf))).
Proof.
  intros Hc Hb. eexists. split.
  { unfold difftest_regcpy. rewrite copy_gprs_spec by lia. reflexivity. }
  rewrite take_0, drop_0. cbn [app Nat.add].
  rewrite checkregs_spec by (cbn; rewrite ?length_app, ?length_take, ?length_drop; lia).
  cbn. f_equal. apply bool_decide_ext. rewrite <- (take_drop 16 (gpr (cpu s))) at 1. split.
  - intros [E _]. by apply app_inj_2 in E as [_ E]; [|rewrite !length_drop; lia].
  - intros ->. done.
Qed.

End DutProps.

(** * Instances of the properties on concrete data *)

Module DifftestWitness.

#[local] Instance cfg : Config := kconfig false false true.
#[local] Instance host : Host := null_host.
#[local] Instance cb : Callbacks := {| run_callback := fun _ _ _ _ => mret tt |}.

Definition s0 : Machine := machine_zero ∅ tt.
Definition s1 : Machine := s0 <| cpu -> pc := 0x80000004 |>.

Lemma difftest_step_checks_witness :
  nemu_state (final (difftest_step 0x80000000 0x80000004) s1) = mkNemu NEMU_ABORT 0x80000000 0.
Proof.
  unfold final. rewrite (difftest_step_checks 0x80000000 0x80000004 s1 tt); reflexivity.
Defined.

Lemma difftest_step_skips_witness :
  is_skip_ref (final (difftest_step 0x80000000 0x80000004) (final difftest_skip_ref s1)) = false.
Proof.
  unfold final at 1. rewrite (difftest_step_skips 0x80000000 0x80000004 s1 _); reflexivity.
Defined.

Definition buf : CPU_state := mkCPU (replicate 31 0 ++ [7]) 0 [].

Lemma ref_regcpy_incomplete_witness : exists buf',
  difftest_regcpy buf DIFFTEST_TO_DUT s0 = Ok (buf', s0) /\
  isa_difftest_checkregs (cpu s0) buf' = Ok false.
Proof. apply (ref_regcpy_incomplete s0 buf); reflexivity. Defined.

End DifftestWitness.
