(* ===== verification/Watchpoint.v ===== *)
(** The watchpoint pool: [nemu/src/monitor/sdb/watchpoint.c].

    The 32 nodes of [wp_pool] are linked into two lists, the watchpoints in use
    ([head]) and the free ones ([free_]); a [WP *] is an index into the pool. The
    lists are represented by [chain], and the pool refines a pair of index lists. *)

From S2P Require Import Prelude Config Machine.

(** * Operations *)

(** The node behind a pointer. *)
Definition wp_node (p : option nat) : M WpState WP := fun s =>
  match p ≫= fun i => wp_pool s !! i with
  | Some n => Ok (n, s)
  | None => Abort (AUndef "null or wild WP pointer")
  end.

(** [wp_pool[i].next = p]. *)
Definition set_next (i : nat) (p : option nat) : M WpState unit := fun s =>
  match wp_pool s !! i with
  | Some n => Ok (tt, s <| wp_pool := <[i := n <| next := p |>]> (wp_pool s) |>)
  | None => Abort (AUndef "wild WP pointer")
  end.

Definition new_wp : M WpState nat := fun s =>
  match free_ s with
  | Some f =>
      (n ← wp_node (Some f);
       let tmp := next n in
       set_next f (head s) ;;
       modify (fun s => s <| head := Some f |> <| free_ := tmp |>) ;;
       mret f) s
  | None => Abort (AAssert "0")
  end.

Definition find_head_wp : M WpState (option nat) := gets head.

(** The [for] loop of [free_wp] from [tmp]; [true] when the node was unlinked. *)
Fixpoint free_loop (fuel : nat) (tmp wp : nat) : M WpState bool :=
  match fuel with
  | O => undef "the list does not end"
  | S fuel =>
      t ← wp_node (Some tmp);
      match next t with
      | None => mret false
      | Some nx =>
          w ← wp_node (Some wp);
          n ← wp_node (Some nx);
          if NO w =? NO n then
            set_next tmp (next w) ;;
            f ← gets free_;
            set_next wp f ;;
            modify (fun s => s <| free_ := Some wp |>) ;;
            mret true
          else free_loop fuel nx wp
      end
  end.

(** [true] when the node was moved to the free list; the messages of the other
    cases are not modelled. *)
Definition free_wp (wp : nat) : M WpState bool := fun s =>
  match head s with
  | None => Ok (false, s)
  | Some h =>
      (w ← wp_node (Some wp);
       n ← wp_node (Some h);
       if NO w =? NO n then
         modify (fun s => s <| head := next n |>) ;;
         f ← gets free_;
         set_next wp f ;;
         modify (fun s => s <| free_ := Some wp |>) ;;
         mret true
       else free_loop (S NR_WP) h wp) s
  end.

(** The loop of [init_wp_pool] from node [i]. *)
Fixpoint init_nodes (i : nat) (pool : list WP) : list WP :=
  match pool with
  | [] => []
  | n :: pool =>
      n <| NO := Z.of_nat i |>
        <| next := if (i =? NR_WP - 1)%nat then None else Some (S i) |> :: init_nodes (S i) pool
  end.

Definition init_wp_pool : M WpState unit :=
  modify (fun s => mkWps (init_nodes 0 (wp_pool s)) None (Some 0%nat)).

(** * The lists *)

(** [p] is the head of the linked list [l]. *)
Fixpoint chain (pool : list WP) (p : option nat) (l : list nat) : Prop :=
  match l with
  | [] => p = None
  | i :: l => p = Some i /\ exists n, pool !! i = Some n /\ chain pool (next n) l
  end.

(** Every node has its index as number. *)
Definition numbered (pool : list WP) : Prop :=
  forall i n, pool !! i = Some n -> NO n = Z.of_nat i.

(** The pool represents [used] and [free]. *)
Record wp_rep (s : WpState) (used free : list nat) : Prop := mkRep {
  rep_len : length (wp_pool s) = NR_WP;
  rep_no : numbered (wp_pool s);
  rep_used : chain (wp_pool s) (head s) used;
  rep_free : chain (wp_pool s) (free_ s) free;
  rep_all : used ++ free ≡ₚ seq 0 NR_WP;
}.

Lemma chain_insert pool i n p l : i ∉ l -> chain pool p l -> chain (<[i := n]> pool) p l.
Proof.
  revert p. induction l as [|j l IH]; intros p Hi; cbn [chain]; [done|].
  intros (-> & m & Hm & Hc). apply not_elem_of_cons in Hi as [Hij Hi]. split; [done|].
  exists m. rewrite list_lookup_insert_ne by done. auto.
Qed.

Lemma chain_head pool p i l : chain pool p (i :: l) ->
  p = Some i /\ exists n, pool !! i = Some n /\ chain pool (next n) l.
Proof. done. Qed.

Lemma numbered_set_next pool i n p :
  numbered pool -> pool !! i = Some n -> numbered (<[i := n <| next := p |>]> pool).
Proof.
  intros Hn Hi j m Hj. apply list_lookup_insert_Some in Hj as [(-> & <- & _)|[_ Hj]]; [|auto].
  cbn. by apply Hn.
Qed.

Lemma rep_nodup s used free : wp_rep s used free -> NoDup (used ++ free).
Proof. intros H. rewrite (rep_all _ _ _ H). apply NoDup_seq. Qed.

(** The bookkeeping of a represented pool, as facts about lists. *)
Lemma rep_disjoint s used free i :
  wp_rep s used free -> i ∈ used -> i ∉ free.
Proof. intros H%rep_nodup Hu Hf. apply NoDup_app in H as (_ & H & _). by eapply H. Qed.

Lemma wp_node_run {A} i n (k : WP -> M WpState A) s :
  wp_pool s !! i = Some n -> (wp_node (Some i) ≫= k) s = k n s.
Proof. intros H. apply bind_run. unfold wp_node. cbn. by rewrite H. Qed.

Lemma set_next_run {A} i n p (k : unit -> M WpState A) s :
  wp_pool s !! i = Some n ->
  (set_next i p ≫= k) s = k tt (s <| wp_pool := <[i := n <| next := p |>]> (wp_pool s) |>).
Proof. intros H. apply bind_run. unfold set_next. by rewrite H. Qed.

(** * Allocation *)

Lemma new_wp_run s used f free :
  wp_rep s used (f :: free) ->
  exists s', new_wp s = Ok (f, s') /\ wp_rep s' (f :: used) free.
Proof.
  intros H. pose proof H as [Hl Hno Hu (Hf & n & Hn & Hc) Hp]. cbn in Hf.
  pose proof (rep_nodup _ _ _ H) as Hnd. apply NoDup_app in Hnd as (_ & Hd & Hnf).
  apply NoDup_cons in Hnf as [Hff _].
  assert (f ∉ used) by (intros Hin; apply (Hd f Hin); set_solver).
  unfold new_wp. rewrite Hf. rewrite (wp_node_run f n), (set_next_run f n) by done.
  eexists. split; [reflexivity|]. constructor; cbn.
  - by rewrite length_insert.
  - by apply numbered_set_next.
  - split; [done|]. exists (n <| next := head s |>). split.
    + apply list_lookup_insert_eq. by eapply lookup_lt_Some.
    + by apply chain_insert.
  - by apply chain_insert.
  - by rewrite <- Hp, Permutation_middle.
Qed.

Lemma new_wp_full s used : wp_rep s used [] -> new_wp s = Abort (AAssert "0").
Proof. intros [_ _ _ Hf _]. cbn in Hf. unfold new_wp. by rewrite Hf. Qed.

(** * Release *)

Definition without (wp : nat) (l : list nat) : list nat := filter (fun j => j <> wp) l.
#[local] Arguments without : simpl never.

Lemma without_notin wp l : wp ∉ l -> without wp l = l.
Proof.
  induction l as [|j l IH]; intros H; [done|]. apply not_elem_of_cons in H as [Hj H].
  unfold without in *. rewrite filter_cons_True by done. by rewrite IH.
Qed.

Lemma without_cons_ne wp j l : j <> wp -> without wp (j :: l) = j :: without wp l.
Proof. intros. unfold without. by rewrite filter_cons_True. Qed.

Lemma without_cons_eq wp l : without wp (wp :: l) = without wp l.
Proof. unfold without. by rewrite filter_cons_False by tauto. Qed.

Lemma chain_agree pool pool' p l :
  (forall j, j ∈ l -> pool' !! j = pool !! j) -> chain pool p l -> chain pool' p l.
Proof.
  revert p. induction l as [|i l IH]; intros p H; cbn [chain]; [done|].
  intros (-> & n & Hn & Hc). split; [done|]. exists n.
  rewrite (H i) by set_solver. split; [done|]. apply IH; [|done]. set_solver.
Qed.

Lemma chain_lookup pool p l i : chain pool p l -> i ∈ l -> exists n, pool !! i = Some n.
Proof.
  revert p. induction l as [|j l IH]; intros p Hc Hin; [by apply elem_of_nil in Hin|].
  destruct Hc as (_ & k & Hk & Hc). apply elem_of_cons in Hin as [->|Hin]; eauto.
Qed.

(** What unlinking does to the pool. *)
Definition unlinked (s s' : WpState) (wp t : nat) (l : list nat) : Prop :=
  length (wp_pool s') = length (wp_pool s) /\ numbered (wp_pool s') /\ head s' = head s /\
  free_ s' = Some wp /\ (exists n, wp_pool s' !! wp = Some n /\ next n = free_ s) /\
  (forall j, j ∉ t :: l -> wp_pool s' !! j = wp_pool s !! j) /\
  chain (wp_pool s') (Some t) (t :: without wp l).

Lemma free_loop_found wp l fuel t s :
  numbered (wp_pool s) -> chain (wp_pool s) (Some t) (t :: l) -> NoDup (t :: l) -> wp ∈ l ->
  (length l < fuel)%nat ->
  exists s', free_loop fuel t wp s = Ok (true, s') /\ unlinked s s' wp t l.
Proof.
  revert fuel t. induction l as [|x l IH]; intros fuel t Hno Hc Hnd Hin Hf; [by apply elem_of_nil in Hin|].
  destruct fuel as [|fuel]; [cbn in Hf; lia|]. cbn [length] in Hf.
  destruct Hc as (_ & n & Hn & Hx). pose proof Hx as (Hnx & m & Hm & Hl).
  apply NoDup_cons in Hnd as [Htl Hnd]. pose proof Hnd as Hnd'. apply NoDup_cons in Hnd as [Hxl Hnd].
  apply not_elem_of_cons in Htl as [Htx Htl'].
  cbn [free_loop]. rewrite (wp_node_run t n) by done. rewrite Hnx.
  destruct (chain_lookup _ _ _ wp Hx Hin) as [w Hw].
  rewrite (wp_node_run wp w), (wp_node_run x m) by done. rewrite (Hno _ _ Hw), (Hno _ _ Hm).
  destruct (Z.eqb_spec (Z.of_nat wp) (Z.of_nat x)) as [E|E].
  - apply Nat2Z.inj in E as ->. assert (w = m) as -> by congruence.
    rewrite (set_next_run t n) by done.
    set (s1 := s <| wp_pool := <[t := n <| next := next m |>]> (wp_pool s) |>).
    assert (wp_pool s1 !! x = Some m) as Hm1 by (cbn; by rewrite list_lookup_insert_ne).
    unfold gets. rewrite (bind_run _ _ s1 (free_ s1) s1) by done.
    rewrite (set_next_run x m) by done. eexists. split; [reflexivity|].
    assert (t < length (wp_pool s))%nat by (by eapply lookup_lt_Some).
    assert (x < length (wp_pool s))%nat by (by eapply lookup_lt_Some).
    unfold unlinked. cbn. rewrite !length_insert. split_and!; try done.
    + apply numbered_set_next; [by apply numbered_set_next|done].
    + eexists. rewrite list_lookup_insert_eq by (by rewrite length_insert). done.
    + intros j Hj. rewrite !not_elem_of_cons in Hj. by rewrite !list_lookup_insert_ne by (symmetry; tauto).
    + eexists. rewrite list_lookup_insert_ne by done.
      rewrite list_lookup_insert_eq by done. split; [done|]. cbn.
      rewrite without_cons_eq, without_notin by done. by do 2 (apply chain_insert; [done|]).
  - assert (x <> wp) by congruence. assert (wp ∈ l) by (apply elem_of_cons in Hin as [->|]; [lia|done]).
    rewrite Hnx in Hx.
    destruct (IH fuel x Hno Hx Hnd') as (s' & Hr & Hu); [done|lia|].
    exists s'. split; [done|]. destruct Hu as (? & ? & ? & ? & ? & Hsame & Hch).
    unfold unlinked. split_and!; try done.
    + intros j Hj. apply Hsame. rewrite not_elem_of_cons in Hj. tauto.
    + split; [done|]. exists n. rewrite Hsame by (by apply not_elem_of_cons). split; [done|].
      rewrite Hnx, without_cons_ne by done. done.
Qed.

Lemma free_loop_missing wp l fuel t s :
  numbered (wp_pool s) -> chain (wp_pool s) (Some t) (t :: l) -> wp ∉ l ->
  is_Some (wp_pool s !! wp) -> (length l < fuel)%nat -> free_loop fuel t wp s = Ok (false, s).
Proof.
  intros Hno Hc Hin [w Hw]. revert fuel t Hc. induction l as [|x l IH]; intros fuel t Hc Hf;
    (destruct fuel as [|fuel]; [cbn in Hf; lia|]); destruct Hc as (_ & n & Hn & Hx);
    cbn [free_loop]; rewrite (wp_node_run t n) by done.
  - cbn in Hx. by rewrite Hx.
  - pose proof Hx as (Hnx & m & Hm & Hl). rewrite Hnx.
    rewrite (wp_node_run wp w), (wp_node_run x m) by done. rewrite (Hno _ _ Hw), (Hno _ _ Hm).
    destruct (Z.eqb_spec (Z.of_nat wp) (Z.of_nat x)) as [E|E]; [exfalso; apply Hin; apply Nat2Z.inj in E as ->; by left|].
    rewrite not_elem_of_cons in Hin. apply IH; [tauto|by rewrite Hnx in Hx|cbn in Hf; lia].
Qed.

Lemma without_perm wp l : wp ∈ l -> NoDup l -> wp :: without wp l ≡ₚ l.
Proof.
  induction l as [|j l IH]; intros Hin Hnd; [by apply elem_of_nil in Hin|].
  apply NoDup_cons in Hnd as [Hj Hnd]. destruct (decide (j = wp)) as [->|Hne].
  - by rewrite without_cons_eq, without_notin.
  - rewrite without_cons_ne by done. apply elem_of_cons in Hin as [->|Hin]; [done|].
    rewrite Permutation_swap. f_equiv. by apply IH.
Qed.

Lemma rep_perm_release wp used free :
  used ++ free ≡ₚ seq 0 NR_WP -> wp ∈ used -> without wp used ++ wp :: free ≡ₚ seq 0 NR_WP.
Proof.
  intros Hp Hin. rewrite <- Hp, <- Permutation_middle.
  etransitivity; [|apply Permutation_app_tail, (without_perm wp used Hin)]; [done|].
  assert (NoDup (used ++ free)) as Hnd by (rewrite Hp; apply NoDup_seq).
  by apply NoDup_app in Hnd as [? _].
Qed.

Lemma rep_length s used free : wp_rep s used free -> (length used <= NR_WP)%nat.
Proof.
  intros H. pose proof (Permutation_length (rep_all _ _ _ H)) as E.
  rewrite length_app, length_seq in E. lia.
Qed.

Lemma free_wp_found s used free wp :
  wp_rep s used free -> wp ∈ used ->
  exists s', free_wp wp s = Ok (true, s') /\ wp_rep s' (without wp used) (wp :: free).
Proof.
  intros H Hin. pose proof H as [Hl Hno Hu Hf Hp]. pose proof (rep_nodup _ _ _ H) as Hnd.
  apply NoDup_app in Hnd as (Hnu & Hd & _). pose proof (rep_length _ _ _ H) as Hlen.
  pose proof (rep_perm_release wp used free Hp Hin) as Hp'.
  destruct used as [|h used]; [by apply elem_of_nil in Hin|]. cbn [length] in Hlen.
  pose proof Hu as (Hh & n & Hn & Hc). unfold free_wp. rewrite Hh.
  destruct (chain_lookup _ _ _ wp Hu Hin) as [w Hw].
  rewrite (wp_node_run wp w), (wp_node_run h n) by done. rewrite (Hno _ _ Hw), (Hno _ _ Hn).
  pose proof Hnu as Hnu'. apply NoDup_cons in Hnu' as [Hhu _].
  destruct (Z.eqb_spec (Z.of_nat wp) (Z.of_nat h)) as [E|E].
  - apply Nat2Z.inj in E as ->. assert (w = n) as -> by congruence.
    set (s1 := s <| head := next n |>).
    rewrite (bind_run _ _ s tt s1), (bind_run _ _ s1 (free_ s1) s1) by done.
    rewrite (set_next_run h n) by done. eexists. split; [reflexivity|].
    rewrite without_cons_eq, without_notin in * by done.
    assert (h ∉ free) by (intros Hx; by apply (Hd h); [left|]).
    constructor; cbn; try done.
    + by rewrite length_insert.
    + by apply numbered_set_next.
    + by apply chain_insert.
    + split; [done|]. eexists. rewrite list_lookup_insert_eq by (by eapply lookup_lt_Some).
      split; [done|]. by apply chain_insert.
  - assert (h <> wp) as Hne by (intros ->; done).
    apply elem_of_cons in Hin as [->|Hin]; [done|].
    rewrite Hh in Hu. rewrite without_cons_ne in * by done.
    destruct (free_loop_found wp used (S NR_WP) h s Hno Hu Hnu Hin) as (s' & Hr & Hx); [lia|].
    exists s'. split; [done|]. destruct Hx as (Hl' & Hno' & Hh' & Hf' & (m & Hm & Hmf) & Hsame & Hch).
    constructor; [by rewrite Hl'|done|by rewrite Hh', Hh| |done].
    rewrite Hf'. split; [done|]. exists m. split; [done|]. rewrite Hmf.
    eapply chain_agree; [|exact Hf]. intros j Hj. apply Hsame. intros Hx. by apply (Hd j).
Qed.

Lemma free_wp_missing s used free wp :
  wp_rep s used free -> (wp < NR_WP)%nat -> wp ∉ used -> free_wp wp s = Ok (false, s).
Proof.
  intros H Hwp Hin. pose proof H as [Hl Hno Hu Hf Hp]. unfold free_wp.
  pose proof (rep_length _ _ _ H) as Hlen.
  destruct used as [|h used]; [cbn in Hu; by rewrite Hu|]. cbn [length] in Hlen.
  pose proof Hu as (Hh & n & Hn & Hc). rewrite Hh.
  destruct (lookup_lt_is_Some_2 (wp_pool s) wp) as [w Hw]; [lia|].
  rewrite (wp_node_run wp w), (wp_node_run h n) by done. rewrite (Hno _ _ Hw), (Hno _ _ Hn).
  apply not_elem_of_cons in Hin as [Hne Hin].
  destruct (Z.eqb_spec (Z.of_nat wp) (Z.of_nat h)) as [E|E]; [lia|].
  rewrite Hh in Hu. apply (free_loop_missing wp used); try done. lia.
Qed.

(** * Initialisation *)

Lemma init_nodes_lookup pool i j n :
  pool !! j = Some n ->
  init_nodes i pool !! j =
  Some (n <| NO := Z.of_nat (i + j) |>
          <| next := if (i + j =? NR_WP - 1)%nat then None else Some (S (i + j)) |>).
Proof.
  revert i j. induction pool as [|x pool IH]; intros i j H; [done|].
  destruct j as [|j]; cbn [init_nodes]; simpl in H |- *.
  - injection H as ->. by rewrite Nat.add_0_r.
  - rewrite IH by done. by rewrite Nat.add_succ_r.
Qed.

Lemma length_init_nodes pool i : length (init_nodes i pool) = length pool.
Proof. revert i; induction pool; intros; cbn; auto. Qed.

(** The nodes from [i] on, linked in order. *)
Lemma init_chain pool k i : length pool = NR_WP -> (i + k = NR_WP)%nat ->
  chain (init_nodes 0 pool) (if (i =? NR_WP)%nat then None else Some i) (seq i k).
Proof.
  intros Hl. revert i. induction k as [|k IH]; intros i Hi; cbn [seq chain].
  - by rewrite (proj2 (Nat.eqb_eq i NR_WP)) by lia.
  - rewrite (proj2 (Nat.eqb_neq i NR_WP)) by lia. split; [done|].
    destruct (lookup_lt_is_Some_2 pool i) as [n Hn]; [lia|].
    eexists. rewrite (init_nodes_lookup pool 0 i n Hn). split; [reflexivity|]. cbn [next].
    specialize (IH (S i) ltac:(lia)). unfold NR_WP in *. cbn.
    destruct (Nat.eqb_spec i 31), (Nat.eqb_spec (S i) 32); try lia; done.
Qed.

Lemma init_wp_pool_rep s s' : length (wp_pool s) = NR_WP ->
  init_wp_pool s = Ok (tt, s') -> wp_rep s' [] (seq 0 NR_WP).
Proof.
  intros Hl [= <-]. constructor; cbn [wp_pool head free_]; try done.
  - by rewrite length_init_nodes.
  - intros i n Hn. destruct (lookup_lt_is_Some_2 (wp_pool s) i) as [m Hm].
    { rewrite <- (length_init_nodes (wp_pool s) 0). by eapply lookup_lt_Some. }
    rewrite (init_nodes_lookup _ _ _ _ Hm) in Hn. by injection Hn as <-.
  - by apply (init_chain (wp_pool s) NR_WP 0).
Qed.

(** * Properties *)

(** What the debugger does with the pool: set a watchpoint, or delete one by number. *)
Inductive wp_op : Type := Set_wp | Delete_wp (i : nat).

Definition wp_run (o : wp_op) : M WpState nat :=
  match o with
  | Set_wp => new_wp
  | Delete_wp i => b ← free_wp i; mret (if b : bool then 1%nat else 0%nat)
  end.

Fixpoint wp_runs (os : list wp_op) : M WpState (list nat) :=
  match os with
  | [] => mret []
  | o :: os => r ← wp_run o; rs ← wp_runs os; mret (r :: rs)
  end.

(** The same on the two lists of numbers; [None] when all are in use. *)
Definition wp_spec (o : wp_op) (u : list nat * list nat) : option (nat * (list nat * list nat)) :=
  let '(used, free) := u in
  match o with
  | Set_wp => match free with f :: free => Some (f, (f :: used, free)) | [] => None end
  | Delete_wp i =>
      if decide (i ∈ used) then Some (1%nat, (without i used, i :: free)) else Some (0%nat, u)
  end.

Fixpoint wp_specs (os : list wp_op) (u : list nat * list nat)
    : option (list nat * (list nat * list nat)) :=
  match os with
  | [] => Some ([], u)
  | o :: os =>
      '(r, u) ← wp_spec o u;
      '(rs, u) ← wp_specs os u;
      Some (r :: rs, u)
  end.

Definition wp_op_ok (o : wp_op) : Prop :=
  match o with Set_wp => True | Delete_wp i => (i < NR_WP)%nat end.

Lemma wp_run_refines o s used free : wp_rep s used free -> wp_op_ok o ->
  match wp_spec o (used, free) with
  | Some (r, (used', free')) => exists s', wp_run o s = Ok (r, s') /\ wp_rep s' used' free'
  | None => exists e, wp_run o s = Abort e
  end.
Proof.
  intros H Ho. destruct o as [|i]; cbn [wp_spec wp_run].
  - destruct free as [|f free]; [|by apply new_wp_run].
    exists (AAssert "0"). by eapply new_wp_full.
  - destruct (decide (i ∈ used)) as [Hi|Hi].
    + destruct (free_wp_found s used free i H Hi) as (s' & Hr & Hs).
      exists s'. by rewrite (bind_run _ _ _ _ _ Hr).
    + exists s. by rewrite (bind_run _ _ _ _ _ (free_wp_missing s used free i H Ho Hi)).
Qed.

(** C11. The linked pool behaves as two lists of numbers: from a state that represents
    them (as after [init_wp_pool]), any sequence of [new_wp] and [free_wp] gives the results of the list specification and keeps
    every node in exactly one of the two lists; it stops exactly when a 33rd
    watchpoint is requested. *)
Theorem wp_pool_refines os s used free :
  wp_rep s used free -> Forall wp_op_ok os ->
  match wp_specs os (used, free) with
  | Some (rs, (used', free')) => exists s', wp_runs os s = Ok (rs, s') /\ wp_rep s' used' free'
  | None => exists e, wp_runs os s = Abort e
  end.
Proof.
  intros H Hos. revert s used free H. induction Hos as [|o os Ho _ IH]; intros s used free H.
  { cbn. eauto. }
  cbn [wp_specs wp_runs]. pose proof (wp_run_refines o s used free H Ho) as Hr.
  destruct (wp_spec o (used, free)) as [[r [used' free']]|]; cbn.
  - destruct Hr as (s1 & Hr & H1). rewrite (bind_run _ _ _ _ _ Hr).
    specialize (IH s1 used' free' H1).
    destruct (wp_specs os (used', free')) as [[rs [used2 free2]]|]; cbn.
    + destruct IH as (s2 & E & H2). exists s2. by rewrite (bind_run _ _ _ _ _ E).
    + destruct IH as (e & E). exists e. by rewrite (bind_abort _ _ _ _ E).
  - destruct Hr as (e & E). exists e. by rewrite (bind_abort _ _ _ _ E).
Qed.

(** * Instances of the properties on concrete data *)

Module WatchpointWitness.

Definition s1 : WpState := final init_wp_pool wps_zero.

Lemma s1_rep : wp_rep s1 [] (seq 0 NR_WP).
Proof. by apply (init_wp_pool_rep wps_zero s1). Qed.

Lemma wp_pool_refines_witness : exists s',
  wp_runs [Set_wp; Set_wp; Delete_wp 0; Set_wp; Delete_wp 7] s1 =
    Ok ([0; 1; 1; 0; 0]%nat, s') /\ wp_rep s' [0; 1]%nat (seq 2 30).
Proof.
  apply (wp_pool_refines [Set_wp; Set_wp; Delete_wp 0; Set_wp; Delete_wp 7] s1 [] (seq 0 NR_WP));
    [apply s1_rep|]. repeat constructor; unfold wp_op_ok, NR_WP; lia.
Defined.

End WatchpointWitness.
