(* ===== verification/Expr.v ===== *)
(** The expression evaluator of the debugger: [nemu/src/monitor/sdb/expr.c].

    [make_token] splits a string by the first rule that matches at the current
    position, with POSIX longest match; each rule is given by the length of its
    longest match at the start of a string. [eval] works on the token array
    between two indices, splitting at the operator that [find_op_position] finds.
    The recursion of [eval] takes fuel, one more than the length of the range, which is
    enough because every call has a shorter range ([eval_stops] in [ExprSpec]). The
    machine that is debugged is behind the class [Debuggee], because [npc] has the same
    evaluator over its processor ([NpcSdb]); [nemu_debuggee] is the emulator. *)

From S2P Require Import Prelude Config Machine HostMem Region IoMap Paddr Isa.
From Stdlib Require Import Ascii.

Local Open Scope Z_scope.

(** * Tokens *)

Inductive tk : Type :=
| TK_NOTYPE | TK_DEREF | TK_EQ | TK_HEX | TK_DEC | TK_LT | TK_GT | TK_LE | TK_GE | TK_AND
| TK_PLUS | TK_MINUS | TK_TIMES | TK_DIV | TK_LP | TK_RP | TK_REG.

#[global] Instance tk_eq_dec : EqDecision tk.
Proof. solve_decision. Defined.

Definition tk_eqb (a b : tk) : bool := bool_decide (a = b).

Record Token : Type := mkToken { type : tk; str : string }.

#[global] Instance Token_eq_dec : EqDecision Token.
Proof. solve_decision. Defined.

(** Binding strength; [None] is the initial [op = -1] of [find_op_position]. *)
Definition prec (type : option tk) : Z :=
  match type with
  | Some TK_AND => 1
  | Some TK_EQ => 2
  | Some (TK_LT | TK_GT | TK_LE | TK_GE) => 3
  | Some (TK_PLUS | TK_MINUS) => 4
  | Some (TK_TIMES | TK_DIV) => 5
  | Some TK_DEREF => 6
  | Some TK_REG => 7
  | _ => 100
  end.

(** * The rules *)

Definition code (c : ascii) : Z := Z.of_nat (nat_of_ascii c).
Definition between (lo hi : Z) (c : ascii) : bool := (lo <=? code c) && (code c <=? hi).
Definition is_digit (c : ascii) : bool := between 48 57 c.
Definition is_alpha (c : ascii) : bool := between 97 122 c || between 65 90 c.
Definition is_xdigit (c : ascii) : bool := is_digit c || between 97 102 c || between 65 70 c.

(** The number of leading characters of a class, at most [n] of them. *)
Fixpoint span_upto (p : ascii -> bool) (n : nat) (l : list ascii) : nat :=
  match n, l with
  | S n, c :: l => if p c then S (span_upto p n l) else 0
  | _, _ => 0
  end.
Definition span (p : ascii -> bool) (l : list ascii) : nat := span_upto p (length l) l.

Definition nonzero (n : nat) : option nat := if (n =? 0)%nat then None else Some n.

(** [0[xX][0-9a-fA-F]+] *)
Definition re_hex (l : list ascii) : option nat :=
  match l with
  | z :: x :: l =>
      if Ascii.eqb z "0" && (Ascii.eqb x "x" || Ascii.eqb x "X")
      then (fun n => n + 2)%nat <$> nonzero (span is_xdigit l) else None
  | _ => None
  end.
(** [[0-9]+u?] *)
Definition re_dec (l : list ascii) : option nat :=
  n ← nonzero (span is_digit l);
  Some (n + match drop n l with c :: _ => if Ascii.eqb c "u" then 1 else 0 | [] => 0 end)%nat.
(** [ +] *)
Definition re_space (l : list ascii) : option nat := nonzero (span (fun c => Ascii.eqb c " ") l).
(** a fixed string *)
Fixpoint is_prefix (s l : list ascii) : bool :=
  match s, l with
  | [], _ => true
  | c :: s, d :: l => Ascii.eqb c d && is_prefix s l
  | _ :: _, [] => false
  end.
Definition re_lit (s : string) (l : list ascii) : option nat :=
  if is_prefix (list_ascii_of_string s) l then Some (String.length s) else None.
(** [\$[a-zA-Z]{1,2}[0-9]{0,2}] *)
Definition re_reg (l : list ascii) : option nat :=
  match l with
  | c :: l =>
      if Ascii.eqb c "$" then
        n ← nonzero (span_upto is_alpha 2 l);
        Some (1 + n + span_upto is_digit 2 (drop n l))%nat
      else None
  | [] => None
  end.

Definition rules : list ((list ascii -> option nat) * tk) := [
  (re_hex, TK_HEX);
  (re_dec, TK_DEC);
  (re_space, TK_NOTYPE);
  (re_lit "+", TK_PLUS);
  (re_lit "-", TK_MINUS);
  (re_lit "*", TK_TIMES);
  (re_lit "/", TK_DIV);
  (re_lit "(", TK_LP);
  (re_lit ")", TK_RP);
  (re_lit "==", TK_EQ);
  (re_lit "<=", TK_LE);
  (re_lit ">=", TK_GE);
  (re_lit ">", TK_LT);
  (re_lit "<", TK_GT);
  (re_lit "&&", TK_AND);
  (re_reg, TK_REG)].

(** The [for] loop over the rules. *)
Fixpoint first_match (rs : list ((list ascii -> option nat) * tk)) (l : list ascii)
    : option (nat * tk) :=
  match rs with
  | [] => None
  | (re, t) :: rs =>
      match re l with
      | Some n => Some (n, t)
      | None => first_match rs l
      end
  end.

(** * [make_token] *)

Definition MAX_TOKENS : Z := 65536.

(** [tokens[nr_token] = t; nr_token ++]; the tokens so far are kept last first. *)
Definition add_token (t : Token) (acc : list Token) : result (list Token) :=
  if Z.of_nat (length acc) <? MAX_TOKENS then Ok (t :: acc)
  else Abort (AUndef "tokens[] overflow").

(** [strncpy(str, substr_start, len % 32)]. *)
Definition copy_str (l : list ascii) (len : nat) : string :=
  string_of_list_ascii (take (len mod 32) l).

(** The [switch] on the token type: what is added for a match of [len] characters. *)
Definition push_token (t : tk) (l : list ascii) (len : nat) (acc : list Token)
    : result (list Token) :=
  match t with
  | TK_HEX => add_token (mkToken TK_HEX (copy_str l len)) acc
  | TK_DEC =>
      let len := match l !! (len - 1)%nat with
                 | Some c => if Ascii.eqb c "u" then (len - 1)%nat else len
                 | None => len
                 end in
      add_token (mkToken TK_DEC (copy_str l len)) acc
  | TK_NOTYPE => Ok acc
  | TK_TIMES =>
      let deref := match acc with [] => true | prev :: _ => prec (Some (type prev)) <=? 5 end in
      add_token (mkToken (if deref then TK_DEREF else TK_TIMES) "") acc
  | TK_REG => add_token (mkToken TK_REG (copy_str l len)) acc
  | TK_PLUS | TK_MINUS | TK_DIV | TK_EQ | TK_LP | TK_RP | TK_LT | TK_GT | TK_AND | TK_DEREF =>
      add_token (mkToken t "") acc
  | TK_LE | TK_GE => Ok acc
  end.

(** The [while] loop; [None] is the return value [false]. *)
Fixpoint make_token_loop (fuel : nat) (e : list ascii) (acc : list Token)
    : result (option (list Token)) :=
  match e with
  | [] => Ok (Some (rev acc))
  | _ =>
      match fuel with
      | O => Abort (AUndef "out of fuel")
      | S fuel =>
          match first_match rules e with
          | None => Ok None
          | Some (len, t) =>
              if (32 <? len)%nat then Abort (APanic "Too long substr_len")
              else
                match push_token t e len acc with
                | Ok acc => make_token_loop fuel (drop len e) acc
                | Abort x => Abort x
                end
          end
      end
  end.

Definition make_token (e : string) : result (option (list Token)) :=
  let l := list_ascii_of_string e in make_token_loop (length l) l [].

(** * [strtol(s, NULL, 0)] *)

Definition digit_value (c : ascii) : Z :=
  if is_digit c then code c - 48
  else if between 97 122 c then code c - 97 + 10
  else if between 65 90 c then code c - 65 + 10
  else 99.

(** The digits of base [b] at the start of [l]. *)
Fixpoint parse_digits (b acc : Z) (l : list ascii) : Z :=
  match l with
  | c :: l => if digit_value c <? b then parse_digits b (acc * b + digit_value c) l else acc
  | [] => acc
  end.

Definition LONG_MAX : Z := 2 ^ 63 - 1.

(** The magnitude, after spaces and sign. *)
Definition strtol_abs (l : list ascii) : Z :=
  match l with
  | z :: x :: d :: _ =>
      if Ascii.eqb z "0" && (Ascii.eqb x "x" || Ascii.eqb x "X") && is_xdigit d
      then parse_digits 16 0 (drop 2 l)
      else if Ascii.eqb z "0" then parse_digits 8 0 l else parse_digits 10 0 l
  | z :: _ => if Ascii.eqb z "0" then parse_digits 8 0 l else parse_digits 10 0 l
  | [] => 0
  end.

(** The tokens start with a digit, so signs and spaces do not occur. *)
Definition strtol (s : string) : Z := Z.min (strtol_abs (list_ascii_of_string s)) LONG_MAX.

(** * [eval] *)

(** [tokens[p .. q]]. *)
Definition segment (ts : list Token) (p q : Z) : list Token :=
  take (Z.to_nat (q - p + 1)) (drop (Z.to_nat p) ts).

(** The loop of [check_parentheses] over [tokens[p .. q-1]]; [None] when it ran to
    the end, with the final count. *)
Fixpoint paren_loop (ts : list Token) (cnt : Z) : bool * Z :=
  match ts with
  | [] => (true, cnt)
  | t :: ts =>
      let cnt := if tk_eqb (type t) TK_LP then cnt + 1 else cnt in
      let cnt := if tk_eqb (type t) TK_RP then cnt - 1 else cnt in
      if cnt =? 0 then (false, cnt) else paren_loop ts cnt
  end.

Definition type_at (ts : list Token) (i : Z) : option tk := type <$> ts !! Z.to_nat i.

Definition check_parentheses (ts : list Token) (p q : Z) : result bool :=
  if negb (bool_decide (type_at ts p = Some TK_LP)) || negb (bool_decide (type_at ts q = Some TK_RP))
  then Ok false
  else
    let '(done, cnt) := paren_loop (segment ts p (q - 1)) 0 in
    if negb done then Ok false
    else if cnt =? 1 then Ok true
    else Abort (APanic "Parentheses not match").

(** The loop of [find_op_position] from index [i]. *)
Fixpoint find_op_loop (ts : list Token) (i cnt position : Z) (op : option tk) : Z :=
  match ts with
  | [] => position
  | t :: ts =>
      let take_it := (cnt =? 0) && (prec (Some (type t)) <=? prec op) in
      let op := if take_it then Some (type t) else op in
      let position := if take_it then i else position in
      let cnt := if tk_eqb (type t) TK_LP then cnt + 1 else cnt in
      let cnt := if tk_eqb (type t) TK_RP then cnt - 1 else cnt in
      find_op_loop ts (i + 1) cnt position op
  end.

Definition find_op_position (ts : list Token) (p q : Z) : Z :=
  find_op_loop (segment ts p q) p 0 0 None.

(** What the evaluator asks of the machine that is debugged: registers by name, and a word of
    memory. [expr.c] of nemu and [expr.cpp] of npc differ only in this. *)
Class Debuggee (S : Type) : Type := {
  reg_value : string -> M S Z;
  deref : Z -> M S Z;
}.

Definition lift {S A} (r : result A) : M S A := fun s =>
  match r with Ok a => Ok (a, s) | Abort e => Abort e end.

Section Eval.
Context {S : Type} `{DB : !Debuggee S}.

(** A single token. *)
Definition eval_single (t : Token) : M S Z :=
  match type t with
  | TK_DEC | TK_HEX => mret (u32 (strtol (str t)))
  | TK_REG => reg_value (String.substring 1 (String.length (str t)) (str t))
  | _ => mret 0
  end.

(** The [switch] on the operator. *)
Definition apply_op (op : tk) (val1 val2 : Z) : M S Z :=
  match op with
  | TK_PLUS => mret (u32 (val1 + val2))
  | TK_MINUS => mret (u32 (val1 - val2))
  | TK_TIMES => mret (u32 (val1 * val2))
  | TK_DIV => mret (if negb (val2 =? 0) then val1 / val2 else val1)
  | TK_EQ => mret (b2z (val1 =? val2))
  | TK_LT => mret (b2z (val1 <=? val2))
  | TK_AND => mret (b2z (negb (val1 =? 0) && negb (val2 =? 0)))
  | TK_DEREF => deref val2
  | _ => stop (AAssert "0")
  end.

Fixpoint eval_loop (fuel : nat) (ts : list Token) (p q : Z) : M S Z :=
  match fuel with
  | O => undef "out of fuel"
  | Datatypes.S fuel =>
      if q <? p then panic "Bad expression"
      else if p =? q then
        match ts !! Z.to_nat p with
        | Some t => eval_single t
        | None => undef "token index"
        end
      else
        surrounded ← lift (check_parentheses ts p q);
        if surrounded : bool then eval_loop fuel ts (p + 1) (q - 1)
        else
          let op := find_op_position ts p q in
          match type_at ts op with
          | None => undef "token index"
          | Some op_type =>
              val1 ← (if tk_eqb op_type TK_DEREF then mret 0 else eval_loop fuel ts p (op - 1));
              val2 ← eval_loop fuel ts (op + 1) q;
              apply_op op_type val1 val2
          end
  end.

(** Each call has a smaller range. *)
Definition eval (ts : list Token) (p q : Z) : M S Z :=
  eval_loop (Z.to_nat (q - p + 2)) ts p q.

(** The value, and what is stored to [*success] ([None]: nothing). *)
Definition expr (e : string) : M S (Z * option bool) :=
  ts ← lift (make_token e);
  match ts with
  | None => mret (0, Some false)
  | Some ts => v ← eval ts 0 (Z.of_nat (length ts) - 1); mret (v, None)
  end.

End Eval.

(** ** nemu *)

Section Nemu.
Context `{CFG : Config} `{HOST : Host} `{CB : !Callbacks}.

(** The register lookup of [eval]: the loop over [regs]. *)
Definition nemu_reg_value (name : string) : M Machine Z :=
  if String.eqb name "pc" then gets (fun s => pc (cpu s))
  else '(v, _) ← reg_search regs 0 name; mret v.

#[global] Instance nemu_debuggee : Debuggee Machine :=
  {| reg_value := nemu_reg_value; deref := fun val2 => vaddr_read val2 4 |}.
End Nemu.
