(* ===== verification/ExprSpec.v ===== *)
(** Correctness of the expression evaluator.

    [ast] is the abstract syntax of debugger expressions, [sem] its meaning in
    32-bit arithmetic, and [tokens] / [print] its concrete syntax. The main result is
    that [expr] applied to the printed form of a well-formed expression computes its
    meaning; the rest shows that [expr] always ends, in which ways, and that it stays inside the
    token array for strings of at most 65536 characters, and what the comparison operators
    do. *)

From S2P Require Import Prelude Config Machine HostMem Region IoMap Paddr Isa Expr.
From Stdlib Require Import Ascii.

Local Open Scope Z_scope.

(** * Syntax *)

Inductive binop : Type := Add | Sub | Mul | Div | Eq | And.

Inductive ast : Type :=
| Dec (n : Z)
| Hex (n : Z)
| Reg (name : string)
| Deref (a : ast)
| Bin (o : binop) (l r : ast)
| Paren (a : ast).

Definition op_tk (o : binop) : tk :=
  match o with
  | Add => TK_PLUS | Sub => TK_MINUS | Mul => TK_TIMES | Div => TK_DIV | Eq => TK_EQ | And => TK_AND
  end.

(** The binding strength of the weakest operator outside parentheses. *)
Definition level (a : ast) : Z :=
  match a with
  | Dec _ | Hex _ | Paren _ => 100
  | Reg _ => 7
  | Deref _ => 6
  | Bin o _ _ => prec (Some (op_tk o))
  end.

(** A dereference is the first token. *)
Fixpoint starts_deref (a : ast) : bool :=
  match a with
  | Deref _ => true
  | Bin _ l _ => starts_deref l
  | _ => false
  end.

Fixpoint digits_loop (fuel : nat) (b n : Z) (acc : list ascii) : list ascii :=
  match fuel with
  | O => acc
  | S fuel =>
      let d := n mod b in
      let c := ascii_of_nat (Z.to_nat (if d <? 10 then 48 + d else 97 + (d - 10))) in
      if n <? b then c :: acc else digits_loop fuel b (n / b) (c :: acc)
  end.

(** The digits of [n] in base [b]; ten are enough for 32 bits in base 10. *)
Definition digits (b n : Z) : list ascii := digits_loop 10 b n [].

(** A name that the register rule matches in full. *)
Definition reg_name_ok (name : string) : bool :=
  bool_decide (re_reg ("$"%char :: list_ascii_of_string name) = Some (S (String.length name))).

(** Operands bind as their operators need: subtraction and the others associate to
    the left, and a dereference takes an atom. The lexer reads a [*] after an opening
    parenthesis as multiplication, so a dereference may not stand there. *)
Fixpoint wf (a : ast) : Prop :=
  match a with
  | Dec n | Hex n => in_u 32 n
  | Reg name => reg_name_ok name = true
  | Deref a => wf a /\ 7 <= level a
  | Bin o l r => wf l /\ wf r /\ prec (Some (op_tk o)) <= level l /\ prec (Some (op_tk o)) < level r
  | Paren a => wf a /\ starts_deref a = false
  end.

Fixpoint tokens (a : ast) : list Token :=
  match a with
  | Dec n => [mkToken TK_DEC (string_of_list_ascii (digits 10 n))]
  | Hex n => [mkToken TK_HEX (string_of_list_ascii ("0" :: "x" :: digits 16 n)%char)]
  | Reg name => [mkToken TK_REG (String "$" name)]
  | Deref a => mkToken TK_DEREF "" :: tokens a
  | Bin o l r => tokens l ++ mkToken (op_tk o) "" :: tokens r
  | Paren a => mkToken TK_LP "" :: tokens a ++ [mkToken TK_RP ""]
  end.

(** The text of a token. *)
Definition text (t : Token) : list ascii :=
  match type t with
  | TK_DEC | TK_HEX | TK_REG => list_ascii_of_string (str t)
  | TK_PLUS => ["+"] | TK_MINUS => ["-"] | TK_TIMES | TK_DEREF => ["*"] | TK_DIV => ["/"]
  | TK_LP => ["("] | TK_RP => [")"] | TK_EQ => ["="; "="] | TK_AND => ["&"; "&"]
  | _ => []
  end%char.

(** The text of a token sequence, with [k] spaces after each token. *)
Fixpoint render (k : nat) (ts : list Token) : list ascii :=
  match ts with
  | [] => []
  | t :: ts => text t ++ replicate k " "%char ++ render k ts
  end.

Definition print (k : nat) (a : ast) : string := string_of_list_ascii (render k (tokens a)).

(** * Meaning *)

Section Sem.
Context {St : Type} `{DB : !Debuggee St}.

Definition bin_sem (o : binop) (x y : Z) : Z :=
  match o with
  | Add => (x + y) mod 2 ^ 32
  | Sub => (x - y) mod 2 ^ 32
  | Mul => (x * y) mod 2 ^ 32
  | Div => if y =? 0 then x else x / y
  | Eq => if x =? y then 1 else 0
  | And => if (x =? 0) || (y =? 0) then 0 else 1
  end.

(** A register that does not exist reads as [0]. *)
Fixpoint sem (a : ast) : M St Z :=
  match a with
  | Dec n | Hex n => mret n
  | Reg name => reg_value name
  | Deref a => x ← sem a; deref x
  | Bin o l r => x ← sem l; y ← sem r; mret (bin_sem o x y)
  | Paren a => sem a
  end.

End Sem.

(** * Scanning the tokens of an expression *)

(** Decide comparisons of concrete token types. *)
Ltac tk_compute :=
  repeat match goal with
  | |- context [tk_eqb ?a ?b] =>
      let r := eval vm_compute in (tk_eqb a b) in
      match r with true => idtac | false => idtac end; change (tk_eqb a b) with r
  | |- context [tk_eqb (op_tk ?o) ?b] =>
      replace (tk_eqb (op_tk o) b) with false by (by destruct o)
  end; cbn iota.

Lemma tokens_nonempty a : tokens a <> [].
Proof. destruct a; cbn; try done. by destruct (tokens a1). Qed.

Lemma length_tokens a : (0 < length (tokens a))%nat.
Proof. pose proof (tokens_nonempty a). destruct (tokens a); [done|cbn; lia]. Qed.

(** Inside parentheses the operator search only counts. *)
Lemma find_deep a rest i cnt pos op : 0 < cnt ->
  find_op_loop (tokens a ++ rest) i cnt pos op =
  find_op_loop rest (i + Z.of_nat (length (tokens a))) cnt pos op.
Proof.
  revert rest i cnt. induction a as [n|n|name|a IH|o l IHl r IHr|a IH]; intros rest i cnt Hc;
    cbn [tokens].
  1-3: cbn -[Z.add Z.sub]; destruct (Z.eqb_spec cnt 0); [lia|done].
  - cbn -[Z.add Z.sub find_op_loop tokens]. cbn [find_op_loop type]. destruct (Z.eqb_spec cnt 0); [lia|].
    cbn [andb]. tk_compute. rewrite IH by lia. f_equal. lia.
  - rewrite <- app_assoc, IHl by lia. cbn [app find_op_loop type].
    destruct (Z.eqb_spec cnt 0); [lia|]. cbn [andb].
    tk_compute.
    rewrite IHr by lia. f_equal. rewrite length_app. cbn [length]. lia.
  - cbn [app find_op_loop type]. destruct (Z.eqb_spec cnt 0); [lia|]. cbn [andb].
    tk_compute.
    rewrite <- app_assoc, IH by lia. cbn [app find_op_loop type].
    destruct (Z.eqb_spec (cnt + 1) 0); [lia|]. cbn [andb].
    tk_compute.
    f_equal; [|lia]. cbn [length]. rewrite length_app. cbn [length]. lia.
Qed.

(** The token the search settles on: its distance from the start, and its type. *)
Definition main_pos (a : ast) : Z :=
  match a with
  | Bin _ l _ => Z.of_nat (length (tokens l))
  | _ => 0
  end.
Definition main_tk (a : ast) : tk :=
  match a with
  | Dec _ => TK_DEC | Hex _ => TK_HEX | Reg _ => TK_REG | Deref _ => TK_DEREF
  | Bin o _ _ => op_tk o | Paren _ => TK_LP
  end.

Lemma level_main a : level a = prec (Some (main_tk a)).
Proof. by destruct a. Qed.

(** At depth zero it takes the main operator unless an earlier one is weaker. *)
Lemma find_top a rest i pos op : wf a ->
  find_op_loop (tokens a ++ rest) i 0 pos op =
  if level a <=? prec op
  then find_op_loop rest (i + Z.of_nat (length (tokens a))) 0 (i + main_pos a) (Some (main_tk a))
  else find_op_loop rest (i + Z.of_nat (length (tokens a))) 0 pos op.
Proof.
  revert rest i pos op. induction a as [n|n|name|a IH|o l IHl r IHr|a IH];
    intros rest i pos op Hwf; cbn [tokens].
  1-3: cbn [app find_op_loop type length main_pos main_tk level];
    change (0 =? 0) with true; cbn [andb]; cbn [prec];
    destruct (_ <=? _); rewrite ?Z.add_0_r; done.
  - destruct Hwf as [Hwf Hl]. cbn [app find_op_loop type level main_pos main_tk].
    change (0 =? 0) with true. cbn [andb].
    tk_compute. rewrite IH by done. cbn [prec]. cbn [length]. rewrite Z.add_0_r.
    replace (i + Z.of_nat (S (length (tokens a)))) with (i + 1 + Z.of_nat (length (tokens a))) by lia.
    destruct (Z.leb_spec 6 (prec op)).
    + cbn [prec]. destruct (Z.leb_spec (level a) 6); [lia|done].
    + destruct (Z.leb_spec (level a) (prec op)); [lia|done].
  - destruct Hwf as (Hwl & Hwr & Hl & Hr). rewrite <- app_assoc, IHl by done.
    cbn [app find_op_loop type level main_pos main_tk]. change (0 =? 0) with true. cbn [andb].
    tk_compute.
    rewrite length_app. cbn [length].
    replace (i + Z.of_nat (length (tokens l) + S (length (tokens r)))) with
      (i + Z.of_nat (length (tokens l)) + 1 + Z.of_nat (length (tokens r))) by lia.
    rewrite <- level_main in *. rewrite !IHr by done.
    destruct (Z.leb_spec (level l) (prec op)), (Z.leb_spec (prec (Some (op_tk o))) (level l));
      try lia; repeat (zcase; try lia); done.
  - destruct Hwf as [Hwf _]. cbn [app find_op_loop type level main_pos main_tk].
    change (0 =? 0) with true. cbn [andb prec].
    tk_compute.
    rewrite <- app_assoc, find_deep by lia. cbn [app find_op_loop type].
    change (0 + 1 =? 0) with false. cbn [andb].
    tk_compute.
    cbn [length]. rewrite length_app, Z.add_0_r. cbn [length].
    replace (i + 1 + Z.of_nat (length (tokens a)) + 1) with
      (i + Z.of_nat (S (length (tokens a) + 1))) by lia.
    change (0 + 1 - 1) with 0. by destruct (_ <=? _).
Qed.

Lemma paren_deep a rest cnt : 0 < cnt -> paren_loop (tokens a ++ rest) cnt = paren_loop rest cnt.
Proof.
  revert rest cnt. induction a as [n|n|name|a IH|o l IHl r IHr|a IH]; intros rest cnt Hc;
    cbn [tokens].
  1-3: cbn [app paren_loop type]; tk_compute; destruct (Z.eqb_spec cnt 0); [lia|done].
  - cbn [app paren_loop type]. tk_compute.
    destruct (Z.eqb_spec cnt 0); [lia|]. by apply IH.
  - rewrite <- app_assoc, IHl by done. cbn [app paren_loop type].
    tk_compute.
    destruct (Z.eqb_spec cnt 0); [lia|]. by apply IHr.
  - cbn [app paren_loop type]. tk_compute.
    destruct (Z.eqb_spec (cnt + 1) 0); [lia|]. rewrite <- app_assoc, IH by lia.
    cbn [app paren_loop type]. tk_compute.
    replace (cnt + 1 - 1) with cnt by lia. destruct (Z.eqb_spec cnt 0); [lia|done].
Qed.

(** A complete operand brings the count back to zero. *)
Lemma paren_top a rest : paren_loop (tokens a ++ rest) 0 = (false, 0).
Proof.
  revert rest. induction a as [n|n|name|a IH|o l IHl r IHr|a IH]; intros rest; cbn [tokens].
  1-4: done.
  - rewrite <- app_assoc. apply IHl.
  - cbn [app paren_loop type]. tk_compute. change (0 + 1 =? 0) with false. cbn iota.
    rewrite <- app_assoc, paren_deep by lia. done.
Qed.

(** * [eval] on the tokens of an expression *)

Section Position.
Variables (pre x post : list Token).
Let p := Z.of_nat (length pre).
Let q := p + Z.of_nat (length x) - 1.

Lemma segment_mid : segment (pre ++ x ++ post) p q = x.
Proof.
  unfold segment, p, q. rewrite Nat2Z.id, drop_app_length.
  replace (Z.to_nat _) with (length x) by lia. apply take_app_length.
Qed.

Lemma segment_front : segment (pre ++ x ++ post) p (q - 1) = take (length x - 1) x.
Proof.
  unfold segment, p, q. rewrite Nat2Z.id, drop_app_length.
  replace (Z.to_nat _) with (length x - 1)%nat by lia. rewrite take_app_le by lia. done.
Qed.

Lemma lookup_mid i t : x !! i = Some t -> (pre ++ x ++ post) !! Z.to_nat (p + Z.of_nat i) = Some t.
Proof.
  intros H. unfold p. rewrite <- Nat2Z.inj_add, Nat2Z.id.
  rewrite lookup_app_r by lia. replace (_ - _)%nat with i by lia.
  rewrite lookup_app_l; [done|]. by eapply lookup_lt_Some.
Qed.

Lemma type_mid i t : x !! i = Some t -> type_at (pre ++ x ++ post) (p + Z.of_nat i) = Some (type t).
Proof. intros H. unfold type_at. by rewrite (lookup_mid i t H). Qed.

End Position.

Section EvalAst.
Context {St : Type} `{DB : !Debuggee St}.

(** ** Literals *)

Definition digit_char (d : Z) : ascii :=
  ascii_of_nat (Z.to_nat (if d <? 10 then 48 + d else 97 + (d - 10))).

Lemma code_digit d : 0 <= d < 16 -> code (digit_char d) = if d <? 10 then 48 + d else 97 + (d - 10).
Proof.
  intros. unfold code, digit_char. rewrite nat_ascii_embedding; destruct (Z.ltb_spec d 10); lia.
Qed.

Lemma digit_value_char d : 0 <= d < 16 -> digit_value (digit_char d) = d.
Proof.
  intros. unfold digit_value, is_digit, between. rewrite code_digit by done.
  destruct (Z.ltb_spec d 10); repeat (zcase; try lia); cbn; lia.
Qed.

Lemma parse_digits_app b acc l l' :
  Forall (fun c => digit_value c < b) l ->
  parse_digits b acc (l ++ l') = parse_digits b (parse_digits b acc l) l'.
Proof.
  intros H. revert acc. induction H as [|c l Hc _ IH]; intros acc; cbn [app parse_digits]; [done|].
  destruct (Z.ltb_spec (digit_value c) b); [apply IH|lia].
Qed.

(** The digits printed for [n] are read back as [n]. *)
Lemma digits_loop_parse fuel b n acc :
  2 <= b <= 16 -> 0 <= n < b ^ Z.of_nat fuel -> 
  exists ds, digits_loop fuel b n acc = ds ++ acc /\
    Forall (fun c => exists d, 0 <= d < b /\ c = digit_char d) ds /\
    (fuel <> O -> ds <> []) /\ (0 < n -> exists d ds', ds = digit_char d :: ds' /\ 0 < d < b) /\
    (forall a, parse_digits b a ds = a * b ^ Z.of_nat (length ds) + n) /\
    (length ds <= fuel)%nat.
Proof.
  intros Hb. revert n acc. induction fuel as [|fuel IH]; intros n acc Hn.
  { exists []. cbn in *. split_and!; try done; try lia. }
  cbn [digits_loop]. fold (digit_char (n mod b)). pose proof (Z.mod_pos_bound n b).
  destruct (Z.ltb_spec n b).
  - exists [digit_char (n mod b)]. split_and!; try done.
    + repeat constructor. exists (n mod b). split; [lia|done].
    + intros. exists (n mod b), []. split; [done|]. rewrite Z.mod_small; lia.
    + intros a. cbn [parse_digits length]. rewrite digit_value_char by lia.
      destruct (Z.ltb_spec (n mod b) b); [|lia]. rewrite Z.mod_small by lia. cbn. lia.
    + cbn. lia.
  - destruct (IH (n / b) (digit_char (n mod b) :: acc)) as (ds & E & Hd & _ & Hlead & Hp & Hl).
    { split; [apply Z.div_pos; lia|]. apply Z.div_lt_upper_bound; [lia|].
      rewrite Nat2Z.inj_succ, Z.pow_succ_r in Hn by lia. lia. }
    exists (ds ++ [digit_char (n mod b)]). split_and!.
    + by rewrite E, <- app_assoc.
    + apply Forall_app. split; [done|]. repeat constructor. exists (n mod b). split; [lia|done].
    + intros _ Hx. by apply app_eq_nil in Hx as [_ ?].
    + intros _. destruct Hlead as (d & ds' & -> & Hd'); [apply Z.div_str_pos; lia|].
      by exists d, (ds' ++ [digit_char (n mod b)]).
    + intros a. rewrite parse_digits_app, Hp, length_app.
      * cbn [parse_digits length]. rewrite digit_value_char by lia.
        destruct (Z.ltb_spec (n mod b) b); [|lia].
        rewrite Nat2Z.inj_add, Z.pow_add_r by lia. change (Z.of_nat 1) with 1.
        rewrite Z.pow_1_r. pose proof (Z.div_mod n b). nia.
      * eapply Forall_impl; [exact Hd|]. intros c (d & ? & ->). rewrite digit_value_char; lia.
    + rewrite length_app. cbn. lia.
Qed.

Lemma digits_spec b n : b = 10 \/ b = 16 -> in_u 32 n ->
  Forall (fun c => exists d, 0 <= d < b /\ c = digit_char d) (digits b n) /\
  digits b n <> [] /\ (0 < n -> exists d ds, digits b n = digit_char d :: ds /\ 0 < d < b) /\
  parse_digits b 0 (digits b n) = n /\ (length (digits b n) <= 10)%nat.
Proof.
  unfold in_u. intros Hb Hn. unfold digits.
  destruct (digits_loop_parse 10 b n []) as (ds & -> & Hd & Hne & Hlead & Hp & Hl).
  - lia.
  - destruct Hb as [-> | ->]; cbn in *; lia.
  - rewrite app_nil_r. split_and!; auto.
Qed.

Lemma digit_char_zero d : 0 < d < 16 -> Ascii.eqb (digit_char d) "0" = false.
Proof.
  intros Hd. apply Ascii.eqb_neq. intros E. apply (f_equal code) in E.
  rewrite code_digit in E by lia. change (code "0") with 48 in E.
  destruct (Z.ltb_spec d 10); lia.
Qed.

Lemma strtol_dec n : in_u 32 n -> strtol (string_of_list_ascii (digits 10 n)) = n.
Proof.
  intros Hn. destruct (digits_spec 10 n) as (Hd & Hne & Hlead & Hp & _); [by left|done|].
  unfold strtol, strtol_abs. rewrite list_ascii_of_string_of_list_ascii. unfold in_u in Hn.
  destruct (decide (n = 0)) as [->|]; [done|].
  destruct Hlead as (d & ds & E & Hd'); [lia|]. rewrite E in *.
  rewrite digit_char_zero by lia. cbn [andb].
  assert (Z.min n LONG_MAX = n) by (unfold LONG_MAX; lia).
  destruct ds as [|d1 [|d2 ds]]; by rewrite Hp.
Qed.

Lemma is_xdigit_char d : 0 <= d < 16 -> is_xdigit (digit_char d) = true.
Proof.
  intros. unfold is_xdigit, is_digit, between. rewrite !code_digit by done.
  destruct (Z.ltb_spec d 10); repeat (zcase; try lia); done.
Qed.

Lemma strtol_hex n : in_u 32 n ->
  strtol (string_of_list_ascii ("0" :: "x" :: digits 16 n)%char) = n.
Proof.
  intros Hn. destruct (digits_spec 16 n) as (Hd & Hne & _ & Hp & _); [by right|done|].
  unfold strtol, strtol_abs. rewrite list_ascii_of_string_of_list_ascii. unfold in_u in Hn.
  destruct (digits 16 n) as [|c ds] eqn:E; [done|].
  apply Forall_cons in Hd as [(d & Hd1 & ->) _]. rewrite is_xdigit_char by lia.
  cbn -[parse_digits Z.min LONG_MAX digit_char]. rewrite Hp. unfold LONG_MAX. lia.
Qed.

(** ** Operators *)

Lemma apply_op_sem o x y s : apply_op (op_tk o) x y s = Ok (bin_sem o x y, s).
Proof.
  destruct o; cbn [op_tk apply_op bin_sem]; try done.
  - by destruct (y =? 0).
  - by destruct (x =? 0), (y =? 0).
Qed.

(** A compound expression is not surrounded by one pair of parentheses. *)
Lemma check_bin pre post o l r :
  let x := tokens (Bin o l r) in let p := Z.of_nat (length pre) in
  check_parentheses (pre ++ x ++ post) p (p + Z.of_nat (length x) - 1) = Ok false.
Proof.
  cbn zeta. unfold check_parentheses. destruct (negb _ || negb _); [done|].
  rewrite segment_front. cbn [tokens].
  pose proof (length_tokens r). rewrite length_app; cbn [length]; rewrite take_app_ge by lia.
  by rewrite paren_top.
Qed.

Lemma check_paren pre post a :
  let x := tokens (Paren a) in let p := Z.of_nat (length pre) in
  check_parentheses (pre ++ x ++ post) p (p + Z.of_nat (length x) - 1) = Ok true.
Proof.
  cbn zeta. unfold check_parentheses.
  pose proof (type_mid pre (tokens (Paren a)) post 0 (mkToken TK_LP "") eq_refl) as H1.
  rewrite Z.add_0_r in H1. rewrite H1.
  assert (type_at (pre ++ tokens (Paren a) ++ post)
    (Z.of_nat (length pre) + Z.of_nat (length (tokens (Paren a))) - 1) = Some TK_RP) as ->.
  { pose proof (type_mid pre (tokens (Paren a)) post (S (length (tokens a))) (mkToken TK_RP "")) as H2.
    replace (_ - 1) with (Z.of_nat (length pre) + Z.of_nat (S (length (tokens a)))).
    - apply H2. cbn [tokens]. rewrite lookup_cons. rewrite lookup_app_r by lia.
      by rewrite Nat.sub_diag.
    - cbn [tokens length]. rewrite length_app. cbn [length]. lia. }
  cbn [orb negb bool_decide]. rewrite segment_front. cbn [tokens length]. rewrite length_app.
  cbn [length]. replace (S (length (tokens a) + 1) - 1)%nat with (S (length (tokens a))) by lia.
  cbn [take]. rewrite take_app_length. cbn [paren_loop type]. tk_compute.
  change (0 + 1 =? 0) with false. cbn iota.
  rewrite <- (app_nil_r (tokens a)), paren_deep by lia. done.
Qed.

Lemma find_op_ast pre post a : wf a ->
  let x := tokens a in let p := Z.of_nat (length pre) in
  find_op_position (pre ++ x ++ post) p (p + Z.of_nat (length x) - 1) = p + main_pos a.
Proof.
  intros Hwf. cbn zeta. unfold find_op_position. rewrite segment_mid.
  rewrite <- (app_nil_r (tokens a)), find_top by done.
  replace (level a <=? prec None) with true; [done|].
  symmetry. apply Z.leb_le. destruct a as [| | | |o ? ?|]; cbn; try lia. destruct o; cbn; lia.
Qed.

Lemma substring_all n s : (String.length s <= n)%nat -> String.substring 0 n s = s.
Proof.
  revert n. induction s as [|c s IH]; intros [|n] H; cbn in *; try done; [lia|].
  f_equal. apply IH. lia.
Qed.

Lemma substring_tail c s : String.substring 1 (String.length (String c s)) (String c s) = s.
Proof. cbn [String.substring]. apply substring_all. cbn. lia. Qed.

(** The tests at the head of [eval] for a range of the given length. *)
Lemma eval_single_run fuel pre t post s :
  eval_loop (S fuel) (pre ++ [t] ++ post) (Z.of_nat (length pre))
    (Z.of_nat (length pre) + 1 - 1) s = eval_single t s.
Proof.
  cbn [eval_loop]. set (p := Z.of_nat (length pre)).
  destruct (Z.ltb_spec (p + 1 - 1) p); [lia|]. destruct (Z.eqb_spec p (p + 1 - 1)); [|lia].
  pose proof (lookup_mid pre [t] post 0 t eq_refl) as Hl. rewrite Z.add_0_r in Hl.
  fold p in Hl. by rewrite Hl.
Qed.

Lemma eval_long fuel ts p n s : 1 < n ->
  eval_loop (S fuel) ts p (p + n - 1) s =
  (surrounded ← lift (check_parentheses ts p (p + n - 1));
   if surrounded : bool then eval_loop fuel ts (p + 1) (p + n - 1 - 1)
   else
     let op := find_op_position ts p (p + n - 1) in
     match type_at ts op with
     | None => undef "token index"
     | Some op_type =>
         val1 ← (if tk_eqb op_type TK_DEREF then mret 0 else eval_loop fuel ts p (op - 1));
         val2 ← eval_loop fuel ts (op + 1) (p + n - 1);
         apply_op op_type val1 val2
     end) s.
Proof.
  intros Hn. cbn [eval_loop]. destruct (Z.ltb_spec (p + n - 1) p); [lia|].
  by destruct (Z.eqb_spec p (p + n - 1)); [lia|].
Qed.

Lemma lift_run {A B} (r : result A) (k : A -> M St B) a s :
  r = Ok a -> (lift r ≫= k) s = k a s.
Proof. by intros ->. Qed.

Lemma bind_ext {A B} (m m' : M St A) (f f' : A -> M St B) s :
  m s = m' s -> (forall a s', f a s' = f' a s') -> (m ≫= f) s = (m' ≫= f') s.
Proof. intros E Ef. unfold mbind, M_bind. rewrite E. destruct (m' s) as [[]|]; auto. Qed.

Lemma eval_ast a : wf a -> forall fuel pre post s, (length (tokens a) < fuel)%nat ->
  eval_loop fuel (pre ++ tokens a ++ post) (Z.of_nat (length pre))
    (Z.of_nat (length pre) + Z.of_nat (length (tokens a)) - 1) s = sem a s.
Proof.
  induction a as [n|n|name|a IH|o l IHl r IHr|a IH]; intros Hwf fuel pre post s Hf;
    (destruct fuel as [|fuel]; [lia|]).
  - cbn [tokens length]. rewrite eval_single_run. cbn [eval_single type str sem].
    rewrite strtol_dec, wrap_id by done. done.
  - cbn [tokens length]. rewrite eval_single_run. cbn [eval_single type str sem].
    rewrite strtol_hex, wrap_id by done. done.
  - cbn [tokens length]. rewrite eval_single_run. cbn [eval_single type str sem].
    by rewrite substring_tail.
  - pose proof (length_tokens a) as Hla. cbn [tokens length] in Hf. destruct Hwf as [Hwf Hl].
    rewrite eval_long by (cbn [tokens length]; lia).
    rewrite (lift_run _ _ false).
    2:{ unfold check_parentheses.
        pose proof (type_mid pre (tokens (Deref a)) post 0 _ eq_refl) as H.
        rewrite Z.add_0_r in H. by rewrite H. }
    rewrite find_op_ast by done. cbn zeta. cbn [main_pos].
    pose proof (type_mid pre (tokens (Deref a)) post 0 _ eq_refl) as H.
    change (Z.of_nat 0) with 0 in H. rewrite H. cbn [type]. tk_compute. cbn [sem].
    etransitivity; [apply (bind_run _ _ s 0 s); done|].
    apply bind_ext; [|done].
    specialize (IH Hwf fuel (pre ++ [mkToken TK_DEREF ""]) post s ltac:(lia)).
    rewrite <- app_assoc in IH. rewrite <- IH. rewrite length_app. cbn [tokens length app].
    f_equal; lia.
  - pose proof (length_tokens l) as Hll. pose proof (length_tokens r) as Hlr.
    cbn [tokens] in Hf. rewrite length_app in Hf. cbn [length] in Hf.
    destruct Hwf as (Hwl & Hwr & Hl & Hr) eqn:Ewf.
    rewrite eval_long by (cbn [tokens]; rewrite length_app; cbn [length]; lia).
    rewrite (lift_run _ _ false) by apply check_bin.
    rewrite find_op_ast by done. cbn zeta. cbn [main_pos].
    assert (type_at (pre ++ tokens (Bin o l r) ++ post)
      (Z.of_nat (length pre) + Z.of_nat (length (tokens l))) = Some (op_tk o)) as ->.
    { apply (type_mid pre (tokens (Bin o l r)) post _ (mkToken (op_tk o) "")).
      cbn [tokens]. rewrite lookup_app_r by lia. by rewrite Nat.sub_diag. }
    replace (tk_eqb (op_tk o) TK_DEREF) with false by (by destruct o). cbn [sem].
    apply bind_ext.
    + rewrite <- (IHl Hwl fuel pre (mkToken (op_tk o) "" :: tokens r ++ post) s) by lia.
      cbn [tokens]. by rewrite <- app_assoc.
    + intros x s1. apply bind_ext; [|intros; apply apply_op_sem].
      rewrite <- (IHr Hwr fuel (pre ++ tokens l ++ [mkToken (op_tk o) ""]) post s1) by lia.
      cbn [tokens]. rewrite !length_app, <- !app_assoc. cbn [length app]. f_equal; lia.
  - pose proof (length_tokens a) as Hla. cbn [tokens] in Hf. cbn [length] in Hf.
    rewrite length_app in Hf. cbn [length] in Hf. destruct Hwf as [Hwf Hsd].
    rewrite eval_long by (cbn [tokens length]; rewrite length_app; cbn [length]; lia).
    rewrite (lift_run _ _ true) by apply check_paren. cbn [sem].
    specialize (IH Hwf fuel (pre ++ [mkToken TK_LP ""]) ([mkToken TK_RP ""] ++ post) s ltac:(lia)).
    rewrite <- IH. cbn [tokens length]. rewrite !length_app. cbn [length].
    rewrite <- !app_assoc. cbn [app]. rewrite <- !app_assoc. f_equal; lia.
Qed.

End EvalAst.

(** * The lexer *)

Definition head_not (p : ascii -> bool) (l : list ascii) : Prop :=
  match l with [] => True | c :: _ => p c = false end.

(** A character that could extend a literal or a register name. *)
Definition is_alnum (c : ascii) : bool := is_digit c || is_alpha c.
Definition is_space (c : ascii) : bool := Ascii.eqb c " ".

Lemma span_upto_app p n l rest : head_not p rest ->
  (length l <= n)%nat -> forallb p l = true -> span_upto p n (l ++ rest) = length l.
Proof.
  intros Hr. revert n. induction l as [|c l IH]; intros n Hn Hl.
  - destruct n, rest; cbn in *; try done. by rewrite Hr.
  - destruct n as [|n]; [cbn in Hn; lia|]. cbn in *. apply andb_true_iff in Hl as [-> Hl].
    f_equal. apply IH; [lia|done].
Qed.

Lemma span_upto_le p n l : (span_upto p n l <= n /\ span_upto p n l <= length l)%nat.
Proof.
  revert n. induction l as [|c l IH]; intros [|n]; cbn [span_upto length]; try lia.
  destruct (p c); [|lia]. specialize (IH n). lia.
Qed.

Lemma span_app p l rest : head_not p rest -> forallb p l = true -> span p (l ++ rest) = length l.
Proof. intros. unfold span. apply span_upto_app; auto. rewrite length_app. lia. Qed.

Lemma span_upto_ext p n l rest : head_not p rest -> span_upto p n (l ++ rest) = span_upto p n l.
Proof.
  intros Hr. revert n. induction l as [|c l IH]; intros n.
  - destruct n, rest; cbn in *; try done. by rewrite Hr.
  - destruct n; [done|]. cbn. by rewrite IH.
Qed.

Lemma head_not_impl p p' l : (forall c, p' c = true -> p c = true) -> head_not p l -> head_not p' l.
Proof.
  intros H. destruct l as [|c l]; cbn; [done|]. intros Hp.
  destruct (p' c) eqn:E; [|done]. by rewrite H in Hp.
Qed.

Lemma digit_alnum c : is_digit c = true -> is_alnum c = true.
Proof. unfold is_alnum. by intros ->. Qed.
Lemma alpha_alnum c : is_alpha c = true -> is_alnum c = true.
Proof. unfold is_alnum. intros ->. apply orb_true_r. Qed.
Lemma xdigit_alnum c : is_xdigit c = true -> is_alnum c = true.
Proof.
  unfold is_xdigit, is_alnum, is_alpha, between. intros H. apply orb_true_iff.
  apply orb_true_iff in H as [H|H]; [apply orb_true_iff in H as [H|H]|]; [by left|right|right];
    apply andb_true_iff in H as [H1 H2]; apply Z.leb_le in H1, H2; apply orb_true_iff.
  - left. apply andb_true_iff. split; apply Z.leb_le; lia.
  - right. apply andb_true_iff. split; apply Z.leb_le; lia.
Qed.

(** [e] is lexed to [r] when [acc] holds the tokens so far, whatever the fuel. *)
Definition lexes (e : list ascii) (acc : list Token) (r : result (option (list Token))) : Prop :=
  forall fuel, (length e <= fuel)%nat -> make_token_loop fuel e acc = r.

Lemma lexes_nil acc : lexes [] acc (Ok (Some (rev acc))).
Proof. by intros []. Qed.

Lemma lexes_step e rest len t acc acc' r :
  first_match rules e = Some (len, t) -> (1 <= len <= 32)%nat ->
  push_token t e len acc = Ok acc' -> drop len e = rest -> e <> [] ->
  lexes rest acc' r -> lexes e acc r.
Proof.
  intros Hm Hl Hp <- He H fuel Hf. destruct e as [|c e]; [done|].
  destruct fuel as [|fuel]; [cbn in Hf; lia|]. cbn [make_token_loop]. rewrite Hm.
  destruct (Nat.ltb_spec 32 len); [lia|]. rewrite Hp. apply H.
  rewrite length_drop. cbn [length] in *. lia.
Qed.

(** ** Spaces *)

Lemma lexes_spaces k rest acc r : (k <= 32)%nat -> head_not is_space rest ->
  lexes rest acc r -> lexes (replicate k " "%char ++ rest) acc r.
Proof.
  intros Hk Hr H. destruct k as [|k]; [done|].
  apply (lexes_step _ rest (S k) TK_NOTYPE acc acc); try done.
  - assert (re_space (replicate (S k) " "%char ++ rest) = Some (S k)) as E.
    { unfold re_space. rewrite (span_app _ (replicate (S k) " "%char)).
      - by rewrite length_replicate.
      - done.
      - clear. induction (S k); cbn; auto. }
    cbn [first_match rules]. unfold re_hex, re_dec.
    cbn [replicate app]. destruct (replicate k " "%char ++ rest) eqn:E2; cbn [Ascii.eqb Bool.eqb andb].
    + cbn [replicate app] in E. rewrite E2 in E. cbn -[re_space]. by rewrite E.
    + cbn [replicate app] in E. rewrite E2 in E. cbn -[re_space]. by rewrite E.
  - lia.
  - rewrite drop_app_ge; rewrite length_replicate; [|lia]. by rewrite Nat.sub_diag.
Qed.

(** ** Literals and names *)

Lemma sep_spaces k rest : head_not is_alnum rest -> head_not is_alnum (replicate k " "%char ++ rest).
Proof. by destruct k. Qed.

Lemma copy_exact l rest n : n = length l -> (n < 32)%nat -> copy_str (l ++ rest) n = string_of_list_ascii l.
Proof. intros -> H. unfold copy_str. rewrite Nat.mod_small by done. by rewrite take_app_length. Qed.

Lemma digit_char_is_digit d : 0 <= d < 10 -> is_digit (digit_char d) = true.
Proof.
  intros. unfold is_digit, between. rewrite !code_digit by lia.
  destruct (Z.ltb_spec d 10); [|lia]. apply andb_true_iff. split; apply Z.leb_le; lia.
Qed.

Lemma dec_digits n : in_u 32 n -> forallb is_digit (digits 10 n) = true.
Proof.
  intros Hn. destruct (digits_spec 10 n) as (Hd & _); [by left|done|].
  apply forallb_forall. intros c Hc. rewrite Forall_forall in Hd.
  destruct (Hd c) as (d & ? & ->); [by apply list_elem_of_In|]. by apply digit_char_is_digit.
Qed.

Lemma hex_digits n : in_u 32 n -> forallb is_xdigit (digits 16 n) = true.
Proof.
  intros Hn. destruct (digits_spec 16 n) as (Hd & _); [by right|done|].
  apply forallb_forall. intros c Hc. rewrite Forall_forall in Hd.
  destruct (Hd c) as (d & ? & ->); [by apply list_elem_of_In|]. by apply is_xdigit_char.
Qed.

Lemma not_alnum c : is_alnum c = false ->
  Ascii.eqb c "x" = false /\ Ascii.eqb c "X" = false /\ Ascii.eqb c "u" = false.
Proof.
  intros H. split_and!; apply Ascii.eqb_neq; intros ->; discriminate H.
Qed.

Lemma digit_not c : is_digit c = true ->
  Ascii.eqb c "x" = false /\ Ascii.eqb c "X" = false /\ Ascii.eqb c "u" = false.
Proof.
  intros H. split_and!; apply Ascii.eqb_neq; intros ->; discriminate H.
Qed.

(** A decimal number is not taken for a hexadecimal one. *)
Lemma re_hex_dec ds rest : forallb is_digit ds = true -> ds <> [] -> head_not is_alnum rest ->
  re_hex (ds ++ rest) = None.
Proof.
  intros Hd Hne Hr. destruct ds as [|c [|d ds]]; [done|..]; cbn [app re_hex].
  - destruct rest as [|x rest]; [done|]. cbn in Hr. apply not_alnum in Hr as (-> & -> & _).
    by rewrite andb_false_r.
  - cbn in Hd. apply andb_true_iff in Hd as [_ Hd]. apply andb_true_iff in Hd as [Hd _].
    apply digit_not in Hd as (-> & -> & _). by rewrite andb_false_r.
Qed.

Lemma re_dec_dec ds rest : forallb is_digit ds = true -> ds <> [] -> head_not is_alnum rest ->
  re_dec (ds ++ rest) = Some (length ds).
Proof.
  intros Hd Hne Hr. unfold re_dec. rewrite span_app; [|by apply (head_not_impl is_alnum), Hr; apply digit_alnum|done].
  assert (nonzero (length ds) = Some (length ds)) as -> by (by destruct ds).
  cbn. rewrite drop_app_length. f_equal. destruct rest as [|c rest]; [lia|].
  cbn in Hr. apply not_alnum in Hr as (_ & _ & ->). lia.
Qed.

Lemma add_token_ok t acc : Z.of_nat (length acc) < MAX_TOKENS -> add_token t acc = Ok (t :: acc).
Proof. intros. unfold add_token. by destruct (Z.ltb_spec (Z.of_nat (length acc)) MAX_TOKENS); [|lia]. Qed.

Lemma lexes_dec n rest acc r : in_u 32 n -> head_not is_alnum rest ->
  Z.of_nat (length acc) < MAX_TOKENS ->
  lexes rest (mkToken TK_DEC (string_of_list_ascii (digits 10 n)) :: acc) r ->
  lexes (digits 10 n ++ rest) acc r.
Proof.
  intros Hn Hr Ha. destruct (digits_spec 10 n) as (_ & Hne & _ & _ & Hlen); [by left|done|].
  pose proof (dec_digits n Hn) as Hd. set (ds := digits 10 n) in *.
  assert (0 < length ds)%nat by (destruct ds; [done|cbn; lia]).
  apply (lexes_step _ rest (length ds) TK_DEC); try lia.
  - cbn [first_match rules]. by rewrite re_hex_dec, re_dec_dec.
  - cbn [push_token]. rewrite lookup_app_l by lia.
    destruct (lookup_lt_is_Some_2 ds (length ds - 1)) as [c Hc]; [lia|]. rewrite Hc.
    rewrite forallb_forall in Hd. pose proof (Hd c) as Hdc.
    destruct (digit_not c) as (_ & _ & ->); [apply Hdc, list_elem_of_In; by eapply list_elem_of_lookup_2|].
    rewrite copy_exact by (done || lia). by apply add_token_ok.
  - apply drop_app_length.
  - destruct ds; [done|]. by cbn.
Qed.

Lemma lexes_hex n rest acc r : in_u 32 n -> head_not is_alnum rest ->
  Z.of_nat (length acc) < MAX_TOKENS ->
  lexes rest (mkToken TK_HEX (string_of_list_ascii ("0" :: "x" :: digits 16 n)%char) :: acc) r ->
  lexes (("0" :: "x" :: digits 16 n)%char ++ rest) acc r.
Proof.
  intros Hn Hr Ha. destruct (digits_spec 16 n) as (_ & Hne & _ & _ & Hlen); [by right|done|].
  pose proof (hex_digits n Hn) as Hd. set (ds := digits 16 n) in *.
  assert (0 < length ds)%nat by (destruct ds; [done|cbn; lia]).
  apply (lexes_step _ rest (length ds + 2) TK_HEX); try lia.
  - cbn [first_match rules app re_hex]. change (Ascii.eqb "0" "0") with true.
    change (Ascii.eqb "x" "x") with true. cbn [andb orb].
    rewrite span_app; [|by apply (head_not_impl is_alnum), Hr; apply xdigit_alnum|done].
    by assert (nonzero (length ds) = Some (length ds)) as -> by (by destruct ds).
  - cbn [push_token]. rewrite copy_exact by (cbn [length]; lia). by apply add_token_ok.
  - cbn [app]. replace (length ds + 2)%nat with (S (S (length ds))) by lia. cbn [drop].
    apply drop_app_length.
  - done.
Qed.

Lemma re_reg_app name rest : reg_name_ok name = true -> head_not is_alnum rest ->
  re_reg ("$"%char :: list_ascii_of_string name ++ rest) = Some (S (String.length name)).
Proof.
  unfold reg_name_ok. rewrite bool_decide_eq_true. intros H Hr. rewrite <- H.
  set (l := list_ascii_of_string name). unfold re_reg.
  change (Ascii.eqb "$" "$") with true. cbn iota.
  assert (head_not is_alpha rest) by (by apply (head_not_impl is_alnum), Hr; apply alpha_alnum).
  assert (head_not is_digit rest) by (by apply (head_not_impl is_alnum), Hr; apply digit_alnum).
  rewrite span_upto_ext by done. destruct (nonzero _) as [n|] eqn:E; [|done].
  cbn [mbind option_bind].
  assert (n <= length l)%nat as Hn.
  { unfold nonzero in E. destruct (Nat.eqb_spec (span_upto is_alpha 2 l) 0); [done|].
    injection E as <-. apply (span_upto_le is_alpha 2 l). }
  rewrite drop_app_le by done. by rewrite span_upto_ext.
Qed.

Lemma lexes_reg name rest acc r : reg_name_ok name = true -> head_not is_alnum rest ->
  Z.of_nat (length acc) < MAX_TOKENS ->
  lexes rest (mkToken TK_REG (String "$" name) :: acc) r ->
  lexes (list_ascii_of_string (String "$" name) ++ rest) acc r.
Proof.
  intros Hok Hr Ha. pose proof (re_reg_app name rest Hok Hr) as E.
  assert (length (list_ascii_of_string name) = String.length name) as El.
  { clear. induction name; cbn; auto. }
  assert (String.length name <= 4)%nat as Hlen.
  { unfold reg_name_ok in Hok. rewrite bool_decide_eq_true in Hok. unfold re_reg in Hok.
    change (Ascii.eqb "$" "$") with true in Hok. cbn iota in Hok.
    pose proof (span_upto_le is_alpha 2 (list_ascii_of_string name)) as [Hs _].
    set (a := span_upto is_alpha 2 _) in *. clearbody a. unfold nonzero in Hok.
    destruct (Nat.eqb a 0); [done|]. cbn [mbind option_bind] in Hok.
    pose proof (span_upto_le is_digit 2 (drop a (list_ascii_of_string name))) as [Hs' _].
    set (b := span_upto is_digit 2 _) in *. clearbody b. injection Hok as Hok. lia. }
  apply (lexes_step _ rest (S (String.length name)) TK_REG); try lia.
  - cbn [list_ascii_of_string app]. cbn [first_match rules].
    assert (re_hex ("$"%char :: list_ascii_of_string name ++ rest) = None) as ->.
    { cbn [re_hex]. by destruct (list_ascii_of_string name ++ rest). }
    cbn -[re_reg]. by rewrite E.
  - cbn [push_token]. rewrite copy_exact; [|cbn; lia|lia].
    rewrite string_of_list_ascii_of_string. by apply add_token_ok.
  - cbn [list_ascii_of_string app drop]. rewrite <- El. apply drop_app_length.
  - done.
Qed.

(** ** Operators and parentheses *)

(** The token type that the rules give to an operator or parenthesis. *)
Definition rule_tk (t : tk) : tk := match t with TK_DEREF => TK_TIMES | _ => t end.

Definition punct (t : tk) : bool :=
  match t with
  | TK_PLUS | TK_MINUS | TK_TIMES | TK_DEREF | TK_DIV | TK_EQ | TK_AND | TK_LP | TK_RP => true
  | _ => false
  end.

Lemma punct_match t rest : punct t = true ->
  first_match rules (text (mkToken t "") ++ rest) =
  Some (length (text (mkToken t "")), rule_tk t).
Proof. destruct t; try done; intros _; by destruct rest as [|c [|d rest]]. Qed.

(** Whether a [*] is read as a dereference. *)
Definition deref_here (acc : list Token) : bool :=
  match acc with [] => true | prev :: _ => prec (Some (type prev)) <=? 5 end.

Lemma lexes_punct t rest acc r : punct t = true -> Z.of_nat (length acc) < MAX_TOKENS ->
  (t = TK_DEREF -> deref_here acc = true) -> (t = TK_TIMES -> deref_here acc = false) ->
  lexes rest (mkToken t "" :: acc) r -> lexes (text (mkToken t "") ++ rest) acc r.
Proof.
  intros Ht Ha Hd Hm. apply (lexes_step _ rest (length (text (mkToken t ""))) (rule_tk t)).
  - by apply punct_match.
  - by destruct t; cbn; try lia.
  - destruct t; try done; cbn [rule_tk push_token].
    all: try (by apply add_token_ok).
    + fold (deref_here acc). rewrite Hd by done. by apply add_token_ok.
    + fold (deref_here acc). rewrite Hm by done. by apply add_token_ok.
  - apply drop_app_length.
  - by destruct t.
Qed.

(** ** Expressions *)

(** An operand ends in a token that makes a following [*] a multiplication. *)
Lemma tokens_last a : exists init t, tokens a = init ++ [t] /\ 5 < prec (Some (type t)).
Proof.
  induction a as [n|n|name|a IH|o l IHl r IHr|a IH]; cbn [tokens].
  1-3: eexists [], _; split; [reflexivity|cbn; lia].
  - destruct IH as (init & t & -> & H). by eexists (_ :: init), t.
  - destruct IHr as (init & t & -> & H). exists (tokens l ++ mkToken (op_tk o) "" :: init), t.
    split; [|done]. by rewrite <- app_assoc.
  - exists (mkToken TK_LP "" :: tokens a), (mkToken TK_RP ""). split; [done|]. cbn. lia.
Qed.

Lemma render_app k ts ts' : render k (ts ++ ts') = render k ts ++ render k ts'.
Proof. induction ts as [|t ts IH]; cbn [app render]; [done|]. by rewrite IH, <- !app_assoc. Qed.

(** The text of an operand does not start with a space. *)
Lemma render_head k a rest : wf a -> head_not is_space (render k (tokens a) ++ rest).
Proof.
  revert rest. induction a as [n|n|name|a IH|o l IHl r IHr|a IH]; intros rest Hwf; cbn [tokens].
  - cbn [render text type str]. rewrite list_ascii_of_string_of_list_ascii.
    destruct (digits_spec 10 n) as (_ & Hne & _); [by left|done|].
    pose proof (dec_digits n Hwf) as Hd. destruct (digits 10 n) as [|c ds]; [done|]. cbn in *.
    apply andb_true_iff in Hd as [Hc _]. apply Ascii.eqb_neq. intros ->. discriminate Hc.
  - done.
  - done.
  - done.
  - destruct Hwf as (Hl & _). rewrite render_app, <- app_assoc. by apply IHl.
  - done.
Qed.

(** What may follow an operand. *)
Definition ends (rest : list ascii) : Prop := head_not is_alnum rest /\ head_not is_space rest.

Lemma lex_ast a k : wf a -> (k <= 32)%nat -> forall acc rest r,
  (starts_deref a = true -> deref_here acc = true) ->
  Z.of_nat (length acc) + Z.of_nat (length (tokens a)) <= MAX_TOKENS -> ends rest ->
  lexes rest (rev (tokens a) ++ acc) r -> lexes (render k (tokens a) ++ rest) acc r.
Proof.
  intros Hwf Hk. induction a as [n|n|name|a IH|o l IHl r IHr|a IH];
    intros acc rest res Hst Hlen [He Hs] H; cbn [tokens] in *.
  1-3: cbn [render text type str length] in *; rewrite app_nil_r, <- app_assoc.
  1-2: rewrite list_ascii_of_string_of_list_ascii.
  - apply lexes_dec; [done|by apply sep_spaces|lia|]. by apply lexes_spaces.
  - apply lexes_hex; [done|by apply sep_spaces|lia|]. by apply lexes_spaces.
  - apply lexes_reg; [done|by apply sep_spaces|lia|]. by apply lexes_spaces.
  - destruct Hwf as [Hwf Hl]. cbn [render length rev] in *. rewrite <- !app_assoc.
    apply lexes_punct; [done|lia|auto|done|].
    apply lexes_spaces; [done|by apply render_head|].
    apply IH; [done|..|done|].
    + intros E. destruct a as [| | | |o ? ?|]; try done. destruct o; cbn in Hl; lia.
    + cbn [length]. lia.
    + rewrite <- app_assoc in H. exact H.
  - destruct Hwf as (Hwl & Hwr & Hll & Hlr). rewrite length_app in Hlen. cbn [length] in Hlen.
    rewrite render_app, <- app_assoc. cbn [render]. rewrite <- !app_assoc.
    assert (head_not is_alnum (text (mkToken (op_tk o) "") ++ replicate k " "%char ++ render k (tokens r) ++ rest)
      /\ head_not is_space (text (mkToken (op_tk o) "") ++ replicate k " "%char ++ render k (tokens r) ++ rest))
      as Hends by (by destruct o).
    apply IHl; [done|done|lia|done|].
    assert (deref_here (rev (tokens l) ++ acc) = false) as Hnd.
    { destruct (tokens_last l) as (init & t & E & Ht). rewrite E, rev_app_distr.
      change ((prec (Some (type t)) <=? 5) = false). by apply Z.leb_gt. }
    apply lexes_punct; [by destruct o|rewrite length_app, length_rev; lia|by destruct o|done|].
    apply lexes_spaces; [done|by apply render_head|].
    apply IHr; [done|..|done|].
    + intros _. destruct o; reflexivity.
    + cbn [length]. rewrite length_app, length_rev. lia.
    + rewrite rev_app_distr in H. cbn [rev] in H. rewrite <- !app_assoc in H. exact H.
  - destruct Hwf as [Hwf Hsd]. cbn [length] in Hlen. rewrite length_app in Hlen. cbn [length] in Hlen.
    cbn [render]. rewrite <- !app_assoc. rewrite render_app, <- app_assoc.
    apply lexes_punct; [done|lia|done|done|].
    apply lexes_spaces; [done|by apply render_head|].
    apply IH; [done|congruence|cbn [length]; lia|done|].
    cbn [render]. rewrite app_nil_r, <- app_assoc.
    apply lexes_punct; [done|rewrite length_app, length_rev; cbn [length]; lia|done|done|].
    apply lexes_spaces; [done|done|].
    cbn [rev] in H. rewrite rev_app_distr in H. cbn [rev app] in H.
    rewrite <- app_assoc in H. exact H.
Qed.

Lemma lex_print a k : wf a -> (k <= 32)%nat -> Z.of_nat (length (tokens a)) <= MAX_TOKENS ->
  make_token (print k a) = Ok (Some (tokens a)).
Proof.
  intros Hwf Hk Hl. unfold make_token, print. rewrite list_ascii_of_string_of_list_ascii.
  pose proof (lex_ast a k Hwf Hk [] [] (Ok (Some (tokens a)))) as H.
  rewrite !app_nil_r in H. apply H; try done.
  rewrite <- (rev_involutive (tokens a)) at 2. apply lexes_nil.
Qed.

(** * Termination and bounds *)

(** The chosen operator lies in the range. *)
Lemma find_op_range ts i pos op :
  let j := find_op_loop ts i 0 pos op in
  prec op = 100 -> ts <> [] -> forall cnt, cnt = 0 ->
  i <= find_op_loop ts i cnt pos op < i + Z.of_nat (length ts).
Proof.
  cbn zeta. intros Hop Hne cnt ->. destruct ts as [|t ts]; [done|].
  assert (forall ts i cnt pos op lo, lo <= pos < i -> 
    lo <= find_op_loop ts i cnt pos op < i + Z.of_nat (length ts)) as Hin.
  { clear. induction ts as [|t ts IH]; intros i cnt pos op lo Hp; cbn [find_op_loop length]; [lia|].
    match goal with |- context [find_op_loop ts (i + 1) ?c ?p ?o] =>
      pose proof (IH (i + 1) c p o lo) as H end.
    destruct ((cnt =? 0) && (prec (Some (type t)) <=? prec op)); lia. }
  cbn [find_op_loop length]. change (0 =? 0) with true. cbn [andb].
  assert ((prec (Some (type t)) <=? prec op) = true) as ->.
  { rewrite Hop. apply Z.leb_le. destruct (type t); cbn; lia. }
  match goal with |- context [find_op_loop ts (i + 1) ?c ?p ?o] =>
    pose proof (Hin ts (i + 1) c p o i) as H end. lia.
Qed.

Section Total.
Context {St : Type} `{DB : !Debuggee St}.

(** How an evaluation may stop: the evaluator reports that a token is too long, that an
    operand or a parenthesis is missing or that an operator has no meaning, or the machine
    that is debugged stops at a register or at a word of memory. *)
Inductive expr_stop : abort -> Prop :=
| stop_long : expr_stop (APanic "Too long substr_len")
| stop_empty : expr_stop (APanic "Bad expression")
| stop_paren : expr_stop (APanic "Parentheses not match")
| stop_op : expr_stop (AAssert "0")
| stop_reg name s x : reg_value name s = Abort x -> expr_stop x
| stop_mem addr s x : deref addr s = Abort x -> expr_stop x.

Definition in_range (ts : list Token) (p q : Z) : Prop :=
  0 <= p /\ q < Z.of_nat (length ts) /\ p <= q + 1.

Lemma type_at_range ts i : 0 <= i < Z.of_nat (length ts) -> is_Some (type_at ts i).
Proof.
  intros Hi. unfold type_at. destruct (lookup_lt_is_Some_2 ts (Z.to_nat i)) as [t ->]; [lia|]. eauto.
Qed.

Lemma length_segment ts p q : in_range ts p q -> p <= q ->
  Z.of_nat (length (segment ts p q)) = q - p + 1.
Proof. unfold in_range. intros. unfold segment. rewrite length_take, length_drop. lia. Qed.

Lemma apply_stops op x y s e : apply_op op x y s = Abort e -> expr_stop e.
Proof. destruct op; cbn [apply_op]; try done; try (intros [= <-]; constructor). apply stop_mem. Qed.

Lemma check_stops ts p q e : check_parentheses ts p q = Abort e -> expr_stop e.
Proof. unfold check_parentheses. intros H. repeat case_match; simplify_eq. constructor. Qed.

Lemma bind_abort_inv {A B} (m : M St A) (k : A -> M St B) s e :
  (m ≫= k) s = Abort e -> m s = Abort e \/ exists a s', m s = Ok (a, s') /\ k a s' = Abort e.
Proof.
  unfold mbind, M_bind. destruct (m s) as [[a s']|e']; [eauto|]. intros [= ->]. by left.
Qed.

Lemma eval_stops fuel ts p q s e :
  in_range ts p q -> q - p + 1 < Z.of_nat fuel ->
  eval_loop fuel ts p q s = Abort e -> expr_stop e.
Proof.
  revert p q s. induction fuel as [|fuel IH]; intros p q s Hr Hf H;
    unfold in_range in Hr; [lia|].
  cbn [eval_loop] in H. destruct (Z.ltb_spec q p).
  { injection H as <-. constructor. }
  destruct (Z.eqb_spec p q) as [->|Hpq].
  { destruct (lookup_lt_is_Some_2 ts (Z.to_nat q)) as [t Ht]; [lia|]. rewrite Ht in H.
    unfold eval_single in H. destruct (type t); try discriminate H. by eapply stop_reg. }
  apply bind_abort_inv in H as [H|(b & s1 & H1 & H)].
  { unfold lift in H. destruct (check_parentheses ts p q) eqn:Ec; [done|].
    injection H as <-. by eapply check_stops. }
  destruct b; [eapply IH; [| |exact H]; unfold in_range; lia|].
  assert (p <= find_op_position ts p q < p + (q - p + 1)) as Hop.
  { pose proof (length_segment ts p q) as Hlen. unfold in_range in Hlen.
    unfold find_op_position. rewrite <- Hlen by lia.
    apply find_op_range; [done| |done]. intros E. rewrite E in Hlen. cbn in Hlen. lia. }
  set (op := find_op_position ts p q) in *.
  destruct (type_at_range ts op) as [ty Hty]; [lia|]. cbn zeta in H. rewrite Hty in H.
  apply bind_abort_inv in H as [H|(v1 & s2 & _ & H)].
  { destruct (tk_eqb ty TK_DEREF); [done|]. eapply IH; [| |exact H]; unfold in_range; lia. }
  apply bind_abort_inv in H as [H|(v2 & s3 & _ & H)].
  - eapply IH; [| |exact H]; unfold in_range; lia.
  - by eapply apply_stops.
Qed.

(** Every rule that matches consumes at least one character. *)
Lemma first_match_pos e len t : first_match rules e = Some (len, t) -> (1 <= len)%nat.
Proof.
  assert (forall n m, nonzero n = Some m -> (1 <= m)%nat) as Hnz.
  { intros n m. unfold nonzero. destruct (Nat.eqb_spec n 0); [done|]. intros [= <-]. lia. }
  assert (Forall (fun '(re, _) => forall l n, re l = Some n -> (1 <= n)%nat) rules) as Hall.
  { unfold rules. repeat constructor; intros l n.
    - unfold re_hex. repeat case_match; try done. intros H'.
      apply fmap_Some in H' as (m & _ & ->). lia.
    - unfold re_dec. intros H'. apply bind_Some in H' as (m & Hm & [= <-]).
      apply Hnz in Hm. lia.
    - apply Hnz.
    - unfold re_lit. case_match; [|done]. intros [= <-]. cbn. lia.
    - unfold re_lit. case_match; [|done]. intros [= <-]. cbn. lia.
    - unfold re_lit. case_match; [|done]. intros [= <-]. cbn. lia.
    - unfold re_lit. case_match; [|done]. intros [= <-]. cbn. lia.
    - unfold re_lit. case_match; [|done]. intros [= <-]. cbn. lia.
    - unfold re_lit. case_match; [|done]. intros [= <-]. cbn. lia.
    - unfold re_lit. case_match; [|done]. intros [= <-]. cbn. lia.
    - unfold re_lit. case_match; [|done]. intros [= <-]. cbn. lia.
    - unfold re_lit. case_match; [|done]. intros [= <-]. cbn. lia.
    - unfold re_lit. case_match; [|done]. intros [= <-]. cbn. lia.
    - unfold re_lit. case_match; [|done]. intros [= <-]. cbn. lia.
    - unfold re_lit. case_match; [|done]. intros [= <-]. cbn. lia.
    - unfold re_reg. repeat case_match; try done. intros H'.
      apply bind_Some in H' as (m & Hm & [= <-]). lia. }
  induction Hall as [|[re t'] rs Hre _ IH]; cbn [first_match]; [done|].
  destruct (re e) as [n|] eqn:E; [|done]. intros [= <- <-]. by eapply Hre.
Qed.

Lemma add_token_Ok t acc : Z.of_nat (length acc) < MAX_TOKENS -> add_token t acc = Ok (t :: acc).
Proof. intros H. unfold add_token. by rewrite (proj2 (Z.ltb_lt _ _)). Qed.

Lemma push_token_Ok t e len acc : Z.of_nat (length acc) < MAX_TOKENS ->
  exists acc', push_token t e len acc = Ok acc' /\ (length acc' <= S (length acc))%nat.
Proof.
  intros H. destruct t; cbn [push_token]; rewrite ?add_token_Ok by done; eexists; (split; [done|]); cbn [length]; lia.
Qed.

(** At most one token per character. *)
Lemma lex_stops fuel e acc : (length e <= fuel)%nat -> Z.of_nat (length acc + length e) <= MAX_TOKENS ->
  (exists ts, make_token_loop fuel e acc = Ok ts) \/ make_token_loop fuel e acc = Abort (APanic "Too long substr_len").
Proof.
  revert e acc. induction fuel as [|fuel IH]; intros e acc Hf Hl; (destruct e as [|c e]; [by left; eexists|]).
  { cbn in Hf. lia. }
  cbn [make_token_loop]. destruct (first_match rules (c :: e)) as [[len t]|] eqn:Em; [|left; by eexists].
  apply first_match_pos in Em. destruct (32 <? len)%nat; [by right|]. cbn [length] in Hl, Hf.
  destruct (push_token_Ok t (c :: e) len acc) as (acc' & -> & Ha); [lia|].
  apply IH; rewrite length_drop; cbn [length]; lia.
Qed.

Lemma length_list_ascii e : length (list_ascii_of_string e) = String.length e.
Proof. induction e as [|c e IH]; [done|]. cbn. by rewrite IH. Qed.

Lemma expr_stops e s x : Z.of_nat (String.length e) <= MAX_TOKENS -> expr e s = Abort x -> expr_stop x.
Proof.
  intros He H. rewrite <- length_list_ascii in He. apply bind_abort_inv in H as [H|(ts & s1 & Hl & H)].
  - unfold lift, make_token in H. destruct (make_token_loop _ _ _) eqn:E; [done|]. injection H as <-.
    destruct (lex_stops (length (list_ascii_of_string e)) (list_ascii_of_string e) []) as [[ts E']|E']; [done|cbn; lia|congruence|].
    rewrite E in E'. injection E' as ->. constructor.
  - destruct ts as [ts|]; [|done]. apply bind_abort_inv in H as [H|(v & s2 & _ & H)]; [|done].
    unfold eval in H. eapply eval_stops; [| |exact H]; unfold in_range; lia.
Qed.

Lemma first_plus l : first_match rules ("+"%char :: l) = Some (1%nat, TK_PLUS).
Proof. by destruct l. Qed.

(** Each [+] is a token. *)
Lemma lex_plus n : forall fuel l acc, Z.of_nat (length acc + n) <= MAX_TOKENS ->
  make_token_loop (n + fuel) (replicate n "+"%char ++ l) acc = make_token_loop fuel l (replicate n (mkToken TK_PLUS "") ++ acc).
Proof.
  induction n as [|n IH]; intros fuel l acc Hl; [done|]. cbn [replicate app plus make_token_loop].
  rewrite first_plus. cbn iota beta. change (32 <? 1)%nat with false.
  cbn iota. cbn [push_token]. rewrite add_token_Ok by lia. cbn [drop]. rewrite drop_0, IH by (cbn [length]; lia). f_equal.
  change (?x :: replicate n ?x ++ acc) with (replicate (S n) x ++ acc). by rewrite replicate_S_end, <- app_assoc.
Qed.

Lemma lex_overflow n : Z.of_nat n = MAX_TOKENS ->
  make_token (string_of_list_ascii (replicate (S n) "+"%char)) = Abort (AUndef "tokens[] overflow").
Proof.
  intros Hn. unfold make_token. rewrite list_ascii_of_string_of_list_ascii, length_replicate.
  rewrite replicate_S_end. replace (S n) with (n + 1)%nat by lia. rewrite lex_plus by (cbn [length]; lia).
  cbn [make_token_loop]. rewrite first_plus. cbn iota beta. change (32 <? 1)%nat with false.
  cbn iota. cbn [push_token]. unfold add_token. rewrite app_nil_r, length_replicate, Hn. done.
Qed.
End Total.

(** * Properties *)

Section ExprProps.
Context {St : Type} `{DB : !Debuggee St}.

(** [expr] on a printed expression, for every debuggee. *)
Lemma expr_print a k s :
  wf a -> (k <= 32)%nat -> Z.of_nat (length (tokens a)) <= MAX_TOKENS ->
  expr (print k a) s = (v ← sem a; mret (v, None)) s.
Proof.
  intros Hwf Hk Hl. unfold expr. rewrite (lift_run _ _ _ s (lex_print a k Hwf Hk Hl)).
  apply bind_ext; [|done]. unfold eval.
  pose proof (eval_ast a Hwf (Z.to_nat (Z.of_nat (length (tokens a)) - 1 - 0 + 2)) [] [] s) as H.
  cbn [app length] in H. rewrite app_nil_r in H. apply H. lia.
Qed.

(** C10. The evaluator is correct on printed expressions: for a well-formed expression of at
    most 65536 tokens, printed with any number of spaces up to 32 between tokens,
    [expr] computes its 32-bit value (operators associate to the left, [*] and [/]
    bind tighter than [+] and [-], then [==], then [&&]; division by zero gives the
    dividend) and does not touch [*success]. *)
Theorem expr_print_correct a k s :
  wf a -> (k <= 32)%nat -> Z.of_nat (length (tokens a)) <= MAX_TOKENS ->
  expr (print k a) s = (v ← sem a; mret (v, None)) s.
Proof. apply expr_print. Qed.

(** The comparison tokens do not compare as written: [>] becomes [TK_LT], which
    evaluates to "less than or equal", and [<] becomes [TK_GT], for which [eval] has no
    case and stops. *)
Theorem expr_comparison x y s :
  in_u 32 x -> in_u 32 y ->
  eval [mkToken TK_DEC (string_of_list_ascii (digits 10 x)); mkToken TK_LT "";
        mkToken TK_DEC (string_of_list_ascii (digits 10 y))] 0 2 s =
    Ok (b2z (x <=? y), s) /\
  eval [mkToken TK_DEC (string_of_list_ascii (digits 10 x)); mkToken TK_GT "";
        mkToken TK_DEC (string_of_list_ascii (digits 10 y))] 0 2 s = Abort (AAssert "0") /\
  first_match rules [">"%char] = Some (1%nat, TK_LT) /\
  first_match rules ["<"%char] = Some (1%nat, TK_GT).
Proof.
  intros Hx Hy. rewrite <- (wrap_id 32 x) at 2 by done. rewrite <- (wrap_id 32 y) at 2 by done.
  rewrite <- (strtol_dec x) at 2 by done. rewrite <- (strtol_dec y) at 2 by done.
  generalize (string_of_list_ascii (digits 10 x)) (string_of_list_ascii (digits 10 y)).
  intros sx sy. split_and!; reflexivity.
Qed.

(** C40. [expr] ends on every string of at most 65536 characters, whatever the machine: it
    returns a value, or that nothing matches, or it stops with one of its own four messages
    or with a fault of the machine at a register or at a word of memory. It neither loops nor
    leaves the array of tokens. The bound is exact: nothing checks the size of [tokens], and
    65537 operators overrun it. *)
Theorem expr_total e s :
  (Z.of_nat (String.length e) <= 65536 ->
    (exists v b s', expr e s = Ok ((v, b), s')) \/ exists x, expr e s = Abort x /\ expr_stop x) /\
  expr (string_of_list_ascii (replicate (S (Z.to_nat 65536)) "+"%char)) s = Abort (AUndef "tokens[] overflow").
Proof.
  split.
  - intros He. destruct (expr e s) as [[[v b] s']|x] eqn:E; [left; by exists v, b, s'|].
    right. exists x. split; [done|]. by apply (expr_stops e s).
  - unfold expr, lift, mbind, M_bind. rewrite lex_overflow; [done|]. by rewrite Z2Nat.id.
Qed.

End ExprProps.

(** * Instances of the properties on concrete data *)

Module ExprWitness.

#[local] Instance cfg : Config := kconfig false false false.
#[local] Instance host : Host := null_host.
#[local] Instance cb : Callbacks := {| run_callback := fun _ _ _ _ => mret tt |}.

Definition s0 : Machine := machine_zero ∅ tt.

(** [12 - 5 - (0x2 + $a0) == 5] *)
Definition a0 : ast :=
  Bin Eq (Bin Sub (Bin Sub (Dec 12) (Dec 5)) (Paren (Bin Add (Hex 2) (Reg "a0")))) (Dec 5).

Lemma expr_print_correct_witness :
  print 1 a0 = "12 - 5 - ( 0x2 + $a0 ) == 5 "%string /\ expr (print 1 a0) s0 = Ok ((1, None), s0).
Proof.
  split; [vm_compute; reflexivity|].
  etransitivity; [apply (expr_print_correct a0 1 s0)|vm_compute; reflexivity].
  - cbn. unfold in_u. repeat split; try lia; done.
  - lia.
  - vm_compute. discriminate.
Defined.

(** [1 < 2] has no meaning to the evaluator; the machine is not asked. *)
Lemma expr_total_witness : expr "1 < 2" s0 = Abort (AAssert "0") /\ expr_stop (AAssert "0").
Proof.
  split; [vm_compute; reflexivity|].
  destruct (proj1 (expr_total "1 < 2" s0) ltac:(vm_compute; discriminate)) as [(v & b & s' & E)|(x & E & H)].
  - exfalso. revert E. vm_compute. discriminate.
  - assert (x = AAssert "0") as <- by (revert E; vm_compute; by intros [= <-]). exact H.
Defined.

Lemma expr_comparison_witness :
  eval [mkToken TK_DEC (string_of_list_ascii (digits 10 5)); mkToken TK_LT "";
        mkToken TK_DEC (string_of_list_ascii (digits 10 3))] 0 2 s0 = Ok (b2z (5 <=? 3), s0).
Proof. apply (proj1 (expr_comparison 5 3 s0 ltac:(unfold in_u; lia) ltac:(unfold in_u; lia))). Defined.

End ExprWitness.
