(* ===== verification/Cpu.v ===== *)
(** The execution engine: [nemu/src/cpu/cpu-exec.c], with [difftest_exec] of
    [cpu/difftest/ref.c] and [is_exit_status_bad] of [utils/state.c].

    [execute] counts a [uint64_t] down and leaves the loop when the machine is no
    longer running; [loop_pos] is that loop by recursion on the binary count, so that
    [cpu_exec(-1)] is a total function. *)

From S2P Require Import Prelude Config Macro Decode Machine HostMem Region IoMap Paddr.
From S2P Require Import DevBasic Keyboard Sdcard Device Isa RvSpec IsaSelect IsaRefine Difftest.
From S2P Require Import Watchpoint Expr ExprSpec.

Local Open Scope Z_scope.

(** * Bounded loops with an early exit *)

Section Loop.
Context {S : Type}.

(** Run [body] up to [p] times, while it returns [true]. *)
Fixpoint loop_pos (body : M S bool) (p : positive) : M S bool :=
  match p with
  | xH => body
  | xO p => b ← loop_pos body p; if b : bool then loop_pos body p else mret false
  | xI p =>
      b ← body;
      if b : bool then
        b ← loop_pos body p; if b : bool then loop_pos body p else mret false
      else mret false
  end.

(** The same, counted in unary. *)
Fixpoint loop_nat (body : M S bool) (n : nat) : M S bool :=
  match n with
  | O => mret true
  | Datatypes.S n => b ← body; if b : bool then loop_nat body n else mret false
  end.

Lemma loop_nat_add body m n s :
  loop_nat body (m + n) s =
  (b ← loop_nat body m; if b : bool then loop_nat body n else mret false) s.
Proof.
  revert s. induction m as [|m IH]; intros s; [done|]. cbn [Nat.add loop_nat].
  rewrite bind_assoc. run_case body s; [|done]. destruct b; [apply IH|done].
Qed.

Lemma loop_pos_nat body p s : loop_pos body p s = loop_nat body (Pos.to_nat p) s.
Proof.
  assert (forall p s, (forall s, loop_pos body p s = loop_nat body (Pos.to_nat p) s) ->
    (b ← loop_pos body p; if b : bool then loop_pos body p else mret false) s =
    loop_nat body (2 * Pos.to_nat p) s) as Hdouble.
  { clear. intros p s IH. replace (2 * Pos.to_nat p)%nat with (Pos.to_nat p + Pos.to_nat p)%nat by lia.
    rewrite loop_nat_add. unfold mbind, M_bind. rewrite IH.
    destruct (loop_nat _ _ s) as [[[] s2]|]; [apply IH|done|done]. }
  revert s. induction p as [p IH|p IH|]; intros s; cbn [loop_pos].
  - rewrite Pos2Nat.inj_xI. cbn [loop_nat]. run_case body s; [|done].
    destruct b; [by apply Hdouble|done].
  - rewrite Pos2Nat.inj_xO. by apply Hdouble.
  - change (Pos.to_nat 1) with 1%nat. cbn [loop_nat]. run_case body s; [|done]. by destruct b.
Qed.

Lemma loop_nat_keeps I body n : keeps I body -> keeps I (loop_nat body n).
Proof.
  intros Hb. induction n as [|n IH]; cbn [loop_nat]; [apply keeps_ret|].
  apply keeps_bind; [done|]. intros []; [done|apply keeps_ret].
Qed.

End Loop.

Section Cpu.
Context `{CFG : Config} `{HOST : Host}.

(** * One instruction *)

(** Run an operation of the watchpoint pool. *)
Definition zoom {A} (m : M WpState A) : M Machine A := fun s =>
  match m (wps s) with
  | Ok (a, w) => Ok (a, s <| wps := w |>)
  | Abort e => Abort e
  end.

Definition pc_trace_push (pc : Z) : M Machine unit :=
  modify (fun s => s <| pc_trace := pc_trace s ++ [pc] |>).

(** [exec_once]; the result is what [*s] holds afterwards. *)
Definition exec_once (s : Decode) (pc : Z) : M Machine Decode :=
  s ← isa_exec_once (s <| dpc := pc |> <| snpc := pc |>);
  modify (fun m => m <| cpu -> Machine.pc := dnpc s |>) ;;
  when CONFIG_PC_TRACE (pc_trace_push (dpc s)) ;;
  mret s.

(** [wp->last_val = v]. *)
Definition set_last_val (i : nat) (v : Z) : M WpState unit := fun s =>
  match wp_pool s !! i with
  | Some n => Ok (tt, s <| wp_pool := <[i := n <| last_val := v |>]> (wp_pool s) |>)
  | None => Abort (AUndef "wild WP pointer")
  end.

(** The [while] loop over the watchpoints. *)
Fixpoint watch_loop (fuel : nat) (wp : option nat) : M Machine unit :=
  match wp with
  | None => mret tt
  | Some i =>
      match fuel with
      | O => undef "the list does not end"
      | S fuel =>
          n ← zoom (wp_node (Some i));
          '(current_val, _) ← expr (addr_expr n);
          (if negb (current_val =? last_val n) then
             zoom (set_last_val i current_val) ;;
             modify (fun s => s <| nemu_state -> state := NEMU_STOP |>)
           else mret tt) ;;
          n ← zoom (wp_node (Some i));
          watch_loop fuel (next n)
      end
  end.

Definition trace_and_difftest (this : Decode) (dnpc : Z) : M Machine unit :=
  when CONFIG_DIFFTEST (difftest_step (dpc this) dnpc) ;;
  when CONFIG_WATCHPOINT (wp ← zoom find_head_wp; watch_loop NR_WP wp).

(** * The loop *)

Definition is_running : M Machine bool :=
  gets (fun s => bool_decide (state (nemu_state s) = NEMU_RUNNING)).

(** One round; [false] is the [break]. [*s] is overwritten at the start of each round,
    so it is not carried over. *)
Definition execute_body : M Machine bool :=
  p ← gets (fun s => pc (cpu s));
  d ← exec_once (mkDecode 0 0 0 0) p;
  modify (fun s => s <| g_nr_guest_inst := u64 (g_nr_guest_inst s + 1) |>) ;;
  p ← gets (fun s => pc (cpu s));
  trace_and_difftest d p ;;
  running ← is_running;
  if running : bool then when CONFIG_DEVICE device_update ;; mret true
  else mret false.

Definition execute (n : Z) : M Machine unit :=
  match n with
  | Zpos p => _ ← loop_pos execute_body p; mret tt
  | _ => mret tt
  end.

Definition MAX_INST_TO_PRINT : Z := 10.

(** [n] is a [uint64_t]. *)
Definition cpu_exec (n : Z) : M Machine unit :=
  modify (fun s => s <| g_print_step := n <? MAX_INST_TO_PRINT |>) ;;
  st ← gets (fun s => state (nemu_state s));
  match st with
  | NEMU_END | NEMU_ABORT | NEMU_QUIT => mret tt
  | _ =>
      modify (fun s => s <| nemu_state -> state := NEMU_RUNNING |>) ;;
      timer_start ← get_time;
      execute n ;;
      timer_end ← get_time;
      modify (fun s => s <| g_timer := u64 (g_timer s + u64 (timer_end - timer_start)) |>) ;;
      st ← gets (fun s => state (nemu_state s));
      match st with
      | NEMU_RUNNING => modify (fun s => s <| nemu_state -> state := NEMU_STOP |>)
      | _ => mret tt
      end
  end.

(** [difftest_exec] of [ref.c]. *)
Definition difftest_exec (n : Z) : M Machine unit := cpu_exec n.

Definition is_exit_status_bad : M Machine Z :=
  gets (fun s =>
    let n := nemu_state s in
    let good := (bool_decide (state n = NEMU_END) && (halt_ret n =? 0)) ||
                bool_decide (state n = NEMU_QUIT) in
    b2z (negb good)).

(** * The invariant *)

Lemma keeps_within {A} (m : M Machine A) : within io_frame m -> keeps machine_ok m.
Proof. intros H. apply triple_intro. intros s a s' Hs E. eapply io_ok; [|done]. by eapply H. Qed.

Lemma keeps_same {A} (m : M Machine A) :
  (forall s a s', m s = Ok (a, s') -> cpu s' = cpu s /\ mem s' = mem s) -> keeps machine_ok m.
Proof.
  intros H. apply triple_intro. intros s a s' [Hw Hh] E. apply H in E as [Hc Hm].
  split; [unfold isa_wf; by rewrite Hc|by rewrite Hm].
Qed.

Lemma keeps_update f : (forall s, cpu (f s) = cpu s /\ mem (f s) = mem s) -> keeps machine_ok (modify f).
Proof. intros H. apply keeps_same. intros s a s' [= _ <-]. apply H. Qed.

Lemma zoom_keeps {A} (m : M WpState A) : keeps machine_ok (zoom m).
Proof.
  apply keeps_same. intros s a s' H. unfold zoom in H.
  destruct (m (wps s)) as [[x w]|]; [|done]. by injection H as <- <-.
Qed.

Lemma reg_search_keeps ns i name : keeps machine_ok (reg_search ns i name).
Proof.
  apply keeps_same. revert i. induction ns as [|n ns IH]; intros i s a s' H; cbn [reg_search] in H.
  - by injection H as <- <-.
  - destruct (String.eqb n name); [|by eapply IH].
    unfold gets, mbind, M_bind in H. destruct (_ !! _); [|done]. by injection H as <- <-.
Qed.

Lemma lift_keeps {A} (r : result A) : keeps machine_ok (lift r).
Proof. apply keeps_same. intros s a s' H. unfold lift in H. destruct r; [|done]. by injection H as <- <-. Qed.

End Cpu.

#[export] Hint Extern 1 (keeps machine_ok (paddr_read _ _)) => apply read_keeps : nemu.
#[export] Hint Resolve zoom_keeps reg_search_keeps lift_keeps : nemu.
#[export] Hint Extern 1 (keeps machine_ok (modify _)) =>
  apply keeps_update; intros; split; reflexivity : nemu.

Section CpuInv.
Context `{CFG : Config} `{HOST : Host}.

Lemma eval_keeps fuel ts p q : keeps machine_ok (eval_loop fuel ts p q).
Proof.
  revert p q. induction fuel as [|fuel IH]; intros p q; cbn [eval_loop]; [apply keeps_undef|].
  unfold eval_single, apply_op. cbn [reg_value deref nemu_debuggee]. unfold nemu_reg_value, vaddr_read. keeps; auto with nemu.
Qed.

Lemma expr_keeps e : keeps machine_ok (expr e).
Proof. unfold expr, eval. pose proof eval_keeps. keeps; auto with nemu. Qed.

Lemma reg_values_keeps i n : keeps machine_ok (reg_values i n).
Proof. revert i. induction n as [|n IH]; intros i; cbn [reg_values]; keeps; auto with nemu. Qed.

Lemma checkregs_keeps r p : keeps machine_ok (checkregs r p).
Proof.
  apply triple_intro. intros s a s' Hs H. unfold checkregs in H.
  destruct (isa_difftest_checkregs _ _) as [[]|]; [by injection H as <- <-| |done].
  revert H. apply (keeps_use machine_ok (A:=unit)); [|done]. unfold isa_reg_display.
  pose proof reg_values_keeps. keeps; auto with nemu.
Qed.

Lemma difftest_step_keeps p np : keeps machine_ok (difftest_step p np).
Proof.
  assert (keeps machine_ok (ref_exec 1)).
  { apply keeps_same. intros s a s' H. unfold ref_exec in H.
    destruct (ref_difftest_exec _ _); [|done]. by injection H as <- <-. }
  pose proof checkregs_keeps. unfold difftest_step, ref_get, ref_set. keeps; auto with nemu.
Qed.

Lemma watch_keeps fuel wp : keeps machine_ok (watch_loop fuel wp).
Proof.
  pose proof expr_keeps. revert wp.
  induction fuel as [|fuel IH]; intros wp; destruct wp; cbn [watch_loop]; keeps; auto with nemu.
Qed.

Lemma trace_keeps d np : keeps machine_ok (trace_and_difftest d np).
Proof.
  pose proof watch_keeps. pose proof difftest_step_keeps.
  unfold trace_and_difftest. keeps; apply keeps_when; keeps; auto with nemu.
Qed.

Lemma device_update_keeps : keeps machine_ok device_update.
Proof.
  assert (keeps machine_ok get_time) by apply keeps_within, get_time_within.
  assert (keeps machine_ok vga_update_screen).
  { apply keeps_within. unfold vga_update_screen, update_screen. within. }
  assert (forall e, keeps machine_ok (handle_event e)) as He.
  { intros []; cbn [handle_event]; [by auto with nemu| |apply keeps_ret].
    destruct CONFIG_HAS_KEYBOARD; [|apply keeps_ret]. apply keeps_within.
    pose proof key_enqueue_within. unfold send_key. within. }
  assert (forall es, keeps machine_ok (handle_events es)).
  { intros es. induction es; cbn [handle_events]; keeps; auto with nemu. }
  assert (keeps machine_ok poll_events).
  { apply keeps_same. intros s a s' H'. unfold poll_events in H'. by injection H' as <- <-. }
  unfold device_update. keeps; auto with nemu.
Qed.

Lemma exec_once_keeps d p : CONFIG_RVE = false -> in_u 32 p -> keeps machine_ok (exec_once d p).
Proof.
  intros Hrve Hp. apply triple_intro. intros s a s' Hs H. unfold exec_once in H.
  apply bind_Ok in H as (d1 & s1 & H & Hk).
  apply (exec_once_ok Hrve p (dnpc d) (inst d)) in H as [H1 Hpc]; [|done|done].
  revert Hk. apply (keeps_use machine_ok); [|done].
  apply keeps_bind; [|intros _; unfold pc_trace_push; keeps; try apply keeps_when; auto with nemu].
  apply keeps_modify. intros s2 [[(? & ? & _ & ?) Hz] Hh].
  split; [split; [|done]|done]. unfold cpu_ok. cbn. tauto.
Qed.

(** The pc of a well-formed machine, as [execute] reads it. *)
Lemma body_keeps : CONFIG_RVE = false -> keeps machine_ok execute_body.
Proof.
  intros Hrve. unfold execute_body.
  apply (triple_bind _ _ _ (fun p s => machine_ok s /\ in_u 32 p)).
  { apply triple_intro. intros s a s' Hs H. unfold gets in H. injection H as <- <-.
    split; [done|]. apply Hs. }
  intros p. apply triple_intro. intros s a s' [Hs Hp]. revert Hs.
  pose proof trace_keeps. pose proof device_update_keeps. pose proof (exec_once_keeps (mkDecode 0 0 0 0) p Hrve Hp).
  intros Hs. revert Hs. refine (fun Hs => keeps_use machine_ok _ s a s' _ Hs).
  unfold is_running. keeps; try apply keeps_when; auto with nemu.
Qed.

Lemma execute_keeps n : CONFIG_RVE = false -> keeps machine_ok (execute n).
Proof.
  intros Hrve. unfold execute. destruct n as [|p|p]; [apply keeps_ret| |apply keeps_ret].
  apply keeps_bind; [|intros; apply keeps_ret].
  apply triple_intro. intros s a s' Hs H. rewrite loop_pos_nat in H.
  eapply keeps_use; [apply loop_nat_keeps, body_keeps| |exact H]; done.
Qed.

Lemma cpu_exec_keeps n : CONFIG_RVE = false -> keeps machine_ok (cpu_exec n).
Proof.
  intros Hrve. pose proof (execute_keeps n Hrve).
  assert (keeps machine_ok get_time) by apply keeps_within, get_time_within.
  unfold cpu_exec. keeps; auto with nemu.
Qed.

(** * Counting instructions *)

(** The watchpoints without the last values that [trace_and_difftest] updates. *)
Definition wp_shape (w : WpState) : list (Z * option nat * string * Z) * option nat * option nat :=
  (map (fun n => (NO n, next n, addr_expr n, cnt n)) (wp_pool w), head w, free_ w).

(** What leaves the instruction counter and the watchpoint lists alone. *)
Definition quiet (s s' : Machine) : Prop :=
  g_nr_guest_inst s' = g_nr_guest_inst s /\ wp_shape (wps s') = wp_shape (wps s).

#[local] Instance quiet_refl : Reflexive quiet.
Proof. by intros s. Qed.
#[local] Instance quiet_trans : Transitive quiet.
Proof. unfold quiet. intros s1 s2 s3 [? ?] [? ?]. split; congruence. Qed.

Lemma io_quiet {A} (m : M Machine A) : within io_frame m -> within quiet m.
Proof. intros H s a s' E. apply H in E as []. split; [done|by rewrite fr_wps]. Qed.

Lemma modify_quiet f : (forall s, quiet s (f s)) -> within quiet (modify f).
Proof. intros H. by apply within_modify. Qed.

End CpuInv.

#[export] Hint Extern 2 (within quiet (modify _)) => apply modify_quiet; intros; split; reflexivity : nemu.

Section Count.
Context `{CFG : Config} `{HOST : Host}.

#[local] Existing Instances quiet_refl quiet_trans.

Lemma read_count addr len : within quiet (paddr_read addr len).
Proof. apply io_quiet, paddr_read_within. Qed.

Lemma write_count addr len v : within quiet (paddr_write addr len v).
Proof. intros s a s' E. apply paddr_write_within in E as []. split; [done|congruence]. Qed.

Lemma skip_count : within quiet difftest_skip_ref.
Proof. apply io_quiet, skip_ref_within. Qed.

Lemma check_reg_count i : within quiet (check_reg_idx i).
Proof. unfold check_reg_idx. within. Qed.

Lemma R_count i : within quiet (R i).
Proof. pose proof check_reg_count. unfold R. within. Qed.

Lemma set_R_count i v : within quiet (set_R i v).
Proof. pose proof check_reg_count. unfold set_R. within. Qed.

Lemma get_csr_count i : within quiet (get_csr i).
Proof. unfold get_csr. within. Qed.

Lemma set_csr_count i v : within quiet (set_csr i v).
Proof. unfold set_csr. within. Qed.

Lemma exec_body_count d rd a b imm n : within quiet (exec_body d rd a b imm n).
Proof.
  pose proof read_count. pose proof write_count. pose proof skip_count. pose proof R_count.
  pose proof set_R_count. pose proof get_csr_count. pose proof set_csr_count.
  destruct n; cbn [exec_body]; unfold ld, st, br, wr, isa_raise_intr, invalid_inst, inst_fetch,
    set_nemu_state, vaddr_read, vaddr_write, vaddr_ifetch; within.
Qed.

Lemma instpat_count table d : within quiet (instpat_run table d).
Proof.
  pose proof exec_body_count. pose proof R_count.
  induction table as [|[[p n] t] l IH]; cbn [instpat_run]; [within|].
  destruct (instpat_match p (inst d)) as [[]|]; [|done|within].
  unfold decode_operand. within.
Qed.

Lemma isa_exec_count d : within quiet (isa_exec_once d).
Proof.
  pose proof instpat_count. pose proof set_R_count. pose proof read_count.
  unfold isa_exec_once, decode_exec, inst_fetch, vaddr_ifetch. within.
Qed.

Lemma zoom_count {A} (m : M WpState A) :
  (forall w a w', m w = Ok (a, w') -> wp_shape w' = wp_shape w) -> within quiet (zoom m).
Proof.
  intros Hm s a s' H. unfold zoom in H. destruct (m (wps s)) as [[x w]|] eqn:E; [|done].
  injection H as <- <-. split; [done|]. cbn. by eapply Hm.
Qed.

Lemma wp_node_count p : within quiet (zoom (wp_node p)).
Proof.
  apply zoom_count. intros w a w' H. unfold wp_node in H. destruct (p ≫= _); [|done].
  by injection H as <- <-.
Qed.

Lemma find_head_count : within quiet (zoom find_head_wp).
Proof. apply zoom_count. intros w a w' H. unfold find_head_wp, gets in H. by injection H as <- <-. Qed.

Lemma set_last_val_count i v : within quiet (zoom (set_last_val i v)).
Proof.
  apply zoom_count. intros w a w' H. unfold set_last_val in H.
  destruct (wp_pool w !! i) as [n|] eqn:E; [|done]. injection H as <- <-. unfold wp_shape. cbn.
  do 2 f_equal. apply list_eq. intros j. rewrite !list_lookup_fmap.
  destruct (decide (i = j)) as [<-|].
  - rewrite list_lookup_insert_eq by (by eapply lookup_lt_Some). by rewrite E.
  - by rewrite list_lookup_insert_ne.
Qed.

Lemma lift_count {A} (r : result A) : within quiet (lift r).
Proof. intros s a s' H. unfold lift in H. destruct r; [|done]. by injection H as <- <-. Qed.

Lemma reg_search_count ns i name : within quiet (reg_search ns i name).
Proof. revert i. induction ns; intros i; cbn [reg_search]; within. Qed.

Lemma eval_count fuel ts p q : within quiet (eval_loop fuel ts p q).
Proof.
  pose proof reg_search_count. pose proof read_count. pose proof (@lift_count bool).
  revert p q. induction fuel as [|fuel IH]; intros p q; cbn [eval_loop]; [within|].
  unfold eval_single, apply_op. cbn [reg_value deref nemu_debuggee]. unfold nemu_reg_value, vaddr_read. within.
Qed.

Lemma watch_count fuel wp : within quiet (watch_loop fuel wp).
Proof.
  pose proof eval_count. pose proof (@lift_count). pose proof wp_node_count.
  pose proof set_last_val_count. revert wp.
  induction fuel as [|fuel IH]; intros wp; destruct wp; cbn [watch_loop]; unfold expr, eval; within.
Qed.

Lemma difftest_count p np : within quiet (difftest_step p np).
Proof.
  assert (within quiet (ref_exec 1)).
  { intros s a s' H. unfold ref_exec in H. destruct (ref_difftest_exec _ _); [|done].
    by injection H as <- <-. }
  assert (forall i n, within quiet (reg_values i n)).
  { intros i n. revert i. induction n; intros i; cbn [reg_values]; within. }
  assert (forall r p, within quiet (checkregs r p)).
  { intros r p'. intros s a s' Hc. unfold checkregs in Hc.
    destruct (isa_difftest_checkregs _ _) as [[]|]; [by injection Hc as <- <-| |done].
    revert Hc. revert s a s'. change (within quiet
      (modify (fun s => s <| nemu_state -> state := NEMU_ABORT |>) ;;
       modify (fun s => s <| nemu_state -> halt_pc := p' |>) ;; _ ← isa_reg_display; mret tt)).
    unfold isa_reg_display. within. }
  unfold difftest_step, ref_get, ref_set. within.
Qed.

Lemma device_update_count : within quiet device_update.
Proof.
  assert (within quiet get_time) by apply io_quiet, get_time_within.
  assert (within quiet vga_update_screen).
  { apply io_quiet. unfold vga_update_screen, update_screen. within. }
  assert (forall e, within quiet (handle_event e)) as He.
  { intros []; cbn [handle_event]; within. apply io_quiet.
    pose proof key_enqueue_within. unfold send_key. within. }
  assert (forall es, within quiet (handle_events es)).
  { intros es. induction es; cbn [handle_events]; within. }
  assert (within quiet poll_events).
  { intros s a s' H'. unfold poll_events in H'. by injection H' as <- <-. }
  unfold device_update. within.
Qed.

Lemma exec_once_count d p : within quiet (exec_once d p).
Proof. pose proof isa_exec_count. unfold exec_once, pc_trace_push. within. Qed.

Lemma trace_count d p : within quiet (trace_and_difftest d p).
Proof.
  pose proof watch_count. pose proof difftest_count. pose proof find_head_count.
  unfold trace_and_difftest. within.
Qed.

(** A round counts one instruction and keeps the watchpoints. *)
Lemma body_count s b s' : execute_body s = Ok (b, s') ->
  g_nr_guest_inst s' = u64 (g_nr_guest_inst s + 1) /\ wp_shape (wps s') = wp_shape (wps s).
Proof.
  intros H. unfold execute_body in H.
  apply bind_Ok in H as (p & s0 & [= <- <-] & H).
  apply bind_Ok in H as (d & s1 & H1 & H). apply exec_once_count in H1 as [H1 W1].
  apply bind_Ok in H as (u & s2 & [= <- <-] & H).
  apply bind_Ok in H as (q & s2 & [= <- <-] & H).
  apply bind_Ok in H as (v & s3 & H3 & H). apply trace_count in H3 as [H3 W3].
  apply bind_Ok in H as (r & s4 & [= <- <-] & H).
  cbn in H3, W3. case_bool_decide.
  - apply bind_Ok in H as (x & s5 & H5 & [= <- <-]).
    assert (within quiet (when CONFIG_DEVICE device_update)) as Hd
      by (pose proof device_update_count; within).
    apply Hd in H5 as [H5 W5]. split; congruence.
  - injection H as <- <-. split; congruence.
Qed.

Lemma loop_count n s b s' : loop_nat execute_body n s = Ok (b, s') ->
  exists m, 0 <= m <= Z.of_nat n /\ u64 (g_nr_guest_inst s') = u64 (g_nr_guest_inst s + m) /\
    (b = true -> m = Z.of_nat n) /\ wp_shape (wps s') = wp_shape (wps s).
Proof.
  revert s. induction n as [|n IH]; intros s H; cbn [loop_nat] in H.
  { injection H as <- <-. exists 0. split; [lia|]. by rewrite Z.add_0_r. }
  apply bind_Ok in H as (c & s1 & H1 & H2). apply body_count in H1 as [H1 W1]. destruct c.
  - apply IH in H2 as (m & Hm & Hc & Hb & W2). exists (m + 1). split; [lia|]. split_and!.
    + rewrite Hc, H1, wrap_add_l. f_equal. lia.
    + intros Hb'. rewrite Hb by done. lia.
    + congruence.
  - injection H2 as <- <-. exists 1. split; [lia|]. split_and!; [|done|done]. by rewrite H1, wrap_wrap.
Qed.

(** Running leaves the watchpoints as they are, apart from their last values. *)
Lemma cpu_exec_shape n : within (fun s s' => wp_shape (wps s') = wp_shape (wps s)) (cpu_exec n).
Proof.
  intros s u s' H. unfold cpu_exec in H. inv_ok.
  assert (forall s1 u s2, execute n s1 = Ok (u, s2) -> wp_shape (wps s2) = wp_shape (wps s1)) as Hex.
  { intros s1 v s2 He. unfold execute in He. destruct n as [|p|p]; [by injection He as <- <-| |by injection He as <- <-].
    apply bind_Ok in He as (b & s3 & He & Hr). injection Hr as _ <-. rewrite loop_pos_nat in He.
    by apply loop_count in He as (m & _ & _ & _ & W). }
  destruct (state (nemu_state s)) eqn:Est; cbn in Hk0; rewrite ?Est in Hk0; inv_ok; try done.
  all: match goal with E : execute _ _ = Ok _ |- _ => apply Hex in E as W end;
    repeat match goal with E : get_time _ = Ok _ |- _ => apply get_time_within in E as [] end;
    match goal with E : match ?st with _ => _ end _ = Ok _ |- _ => destruct st end; inv_ok;
    cbn in *; congruence.
Qed.

End Count.

(** * Properties *)

Section CpuProps.
Context `{CFG : Config} `{HOST : Host}.

(** C12. Running keeps the machine well formed: whatever [cpu_exec] executes, watches and
    compares, registers, CSRs and memory bytes stay in range, [x0] stays zero and the
    pc stays a 32-bit value. *)
Theorem cpu_exec_invariant n s u s' :
  CONFIG_RVE = false -> machine_ok s -> cpu_exec n s = Ok (u, s') -> machine_ok s'.
Proof. intros Hr Hs H. eapply keeps_use; [by apply cpu_exec_keeps|done|exact H]. Qed.

(** A call of [cpu_exec] with count [n] never returns in state [NEMU_RUNNING], and counts
    at most [n] instructions (modulo the width of the counter). *)
Theorem cpu_exec_outcome n s u s' :
  0 <= n -> cpu_exec n s = Ok (u, s') ->
  state (nemu_state s') <> NEMU_RUNNING /\
  exists m, 0 <= m <= n /\ u64 (g_nr_guest_inst s') = u64 (g_nr_guest_inst s + m).
Proof.
  intros Hn H. unfold cpu_exec in H. inv_ok.
  assert (forall s1, g_nr_guest_inst s1 = g_nr_guest_inst s ->
    exists m, 0 <= m <= n /\ u64 (g_nr_guest_inst s1) = u64 (g_nr_guest_inst s + m)) as H0.
  { intros s1 ->. exists 0. split; [lia|]. f_equal. lia. }
  assert (forall s1 u s2, execute n s1 = Ok (u, s2) ->
    exists m, 0 <= m <= n /\ u64 (g_nr_guest_inst s2) = u64 (g_nr_guest_inst s1 + m)) as Hex.
  { intros s1 v s2 He. unfold execute in He. destruct n as [|p|p].
    - injection He as <- <-. exists 0. split; [lia|]. f_equal. lia.
    - apply bind_Ok in He as (b & s3 & He & Hr). injection Hr as _ <-. rewrite loop_pos_nat in He.
      apply loop_count in He as (m & Hm & Hc & _ & _). exists m. split; [lia|done].
    - lia. }
  destruct (state (nemu_state s)) eqn:Est; cbn in Hk0; rewrite ?Est in Hk0; inv_ok.
  3-5: split; [cbn; by rewrite Est|by apply H0].
  1-2: match goal with E : execute _ _ = Ok _ |- _ => apply Hex in E as (m & Hm' & Hc) end;
    repeat match goal with E : get_time _ = Ok _ |- _ => apply get_time_within in E as [] end;
    match goal with E : match ?st with _ => _ end _ = Ok _ |- _ => destruct st eqn:Est2 end; inv_ok;
    (split; [cbn in *; congruence|]; exists m; split; [done|]; cbn in *; congruence).
Qed.

(** A program that has ended stays ended: in state [NEMU_END], [NEMU_ABORT] or [NEMU_QUIT]
    a call of [cpu_exec] executes nothing and only sets the print flag. *)
Lemma cpu_exec_ended n s :
  state (nemu_state s) ∈ [NEMU_END; NEMU_ABORT; NEMU_QUIT] ->
  cpu_exec n s = Ok (tt, s <| g_print_step := n <? MAX_INST_TO_PRINT |>).
Proof.
  rewrite !elem_of_cons, elem_of_nil. intros H. unfold cpu_exec, modify, gets, mbind, M_bind.
  cbn [nemu_state]. destruct H as [H|[H|[H|[]]]]; cbn; rewrite H; done.
Qed.

(** A changed watchpoint stops the machine whatever its state: with one watchpoint whose
    value changed, the check after an instruction records the new value and sets
    [NEMU_STOP], also when that instruction was the [ebreak] that had just set
    [NEMU_END]; the end of the program is then lost. *)
Theorem watchpoint_overrides d np s i n v b :
  CONFIG_DIFFTEST = false -> CONFIG_WATCHPOINT = true ->
  head (wps s) = Some i -> wp_pool (wps s) !! i = Some n -> next n = None ->
  expr (addr_expr n) s = Ok ((v, b), s) -> v <> last_val n ->
  trace_and_difftest d np s =
    Ok (tt, s <| wps -> wp_pool := <[i := n <| last_val := v |>]> (wp_pool (wps s)) |>
              <| nemu_state -> state := NEMU_STOP |>).
Proof.
  intros Hd Hw Hh Hn Hnx He Hv. unfold trace_and_difftest. rewrite Hd, Hw. cbn [when].
  rewrite (bind_run _ _ s tt s) by done.
  rewrite (bind_run _ _ s (head (wps s)) s) by (by destruct s). rewrite Hh.
  assert (forall t, wp_pool (wps t) !! i = Some n -> zoom (wp_node (Some i)) t = Ok (n, t)) as Hz.
  { intros t Ht. unfold zoom, wp_node. cbn. rewrite Ht. by destruct t. }
  change NR_WP with (S 31). cbn [watch_loop].
  rewrite (bind_run _ _ _ _ _ (Hz s Hn)), (bind_run _ _ _ _ _ He).
  apply Z.eqb_neq in Hv. rewrite Hv. cbn [negb].
  set (s1 := s <| wps -> wp_pool := <[i := n <| last_val := v |>]> (wp_pool (wps s)) |>).
  assert (zoom (set_last_val i v) s = Ok (tt, s1)) as E1.
  { unfold zoom, set_last_val. rewrite Hn. by destruct s. }
  rewrite bind_assoc. rewrite (bind_run _ _ _ _ _ E1).
  set (s2 := s1 <| nemu_state -> state := NEMU_STOP |>).
  rewrite (bind_run _ _ s1 tt s2) by done.
  assert (zoom (wp_node (Some i)) s2 = Ok (n <| last_val := v |>, s2)) as E2.
  { unfold zoom, wp_node. cbn. rewrite list_lookup_insert_eq by (by eapply lookup_lt_Some).
    by destruct s. }
  rewrite (bind_run _ _ _ _ _ E2). cbn. by rewrite Hnx.
Qed.

End CpuProps.

(** * The built-in image *)

Module Builtin.

#[local] Instance cfg : Config := kconfig false false false.
#[local] Instance host : Host := null_host.

(** The built-in image of [init_isa] ends well: from reset, [cpu_exec(-1)] runs its four
    instructions and stops at the [ebreak] with [a0 = 0], so that the exit status is
    good. *)
Theorem builtin_image_good_trap :
  match (init_isa ;; cpu_exec (2 ^ 64 - 1) ;; is_exit_status_bad) (machine_zero ∅ tt) with
  | Ok (bad, s) =>
      bad = 0 /\ nemu_state s = mkNemu NEMU_END 0x8000000c 0 /\ g_nr_guest_inst s = 4 /\
      pc (cpu s) = 0x80000010
  | Abort _ => False
  end.
Proof. vm_compute. repeat split. Qed.

End Builtin.

(** * Instances of the properties on concrete data *)

Module CpuWitness.

#[local] Instance cfg : Config := kconfig false false false.
#[local] Instance host : Host := null_host.

Definition s0 : Machine := final init_isa (machine_zero ∅ tt).
Definition s1 : Machine := final (cpu_exec 2) s0.

Lemma s0_ok : machine_ok s0.
Proof.
  split.
  - split; [|vm_compute; reflexivity]. apply (bool_decide_unpack _). vm_compute. exact I.
  - apply (map_Forall_impl (fun _ v => 0 <= v /\ v < 256)); [|intros; unfold in_u; lia].
    apply (bool_decide_unpack _). vm_compute. exact I.
Qed.

Lemma cpu_exec_invariant_witness : machine_ok s1.
Proof.
  apply (cpu_exec_invariant 2 s0 tt s1); [reflexivity|apply s0_ok|vm_compute; reflexivity].
Defined.

Lemma cpu_exec_outcome_witness : state (nemu_state s1) <> NEMU_RUNNING.
Proof. apply (cpu_exec_outcome 2 s0 tt s1); [lia|vm_compute; reflexivity]. Defined.

Definition s2 : Machine := final (cpu_exec 100) s0.

(** A watchpoint on the pc, in the state after the [ebreak]. *)
Definition node : WP := mkWP 0 None "$pc" 0 1.
Definition s3 : Machine := s2 <| wps := mkWps [node] (Some 0%nat) None |>.

Lemma watchpoint_overrides_witness :
  state (nemu_state s3) = NEMU_END /\
  trace_and_difftest (mkDecode 0 0 0 0) 0 s3 =
    Ok (tt, s3 <| wps -> wp_pool := [node <| last_val := 0x80000010 |>] |>
               <| nemu_state -> state := NEMU_STOP |>).
Proof.
  split; [vm_compute; reflexivity|].
  apply (watchpoint_overrides (mkDecode 0 0 0 0) 0 s3 0%nat node 0x80000010 None);
    first [discriminate | vm_compute; reflexivity].
Defined.

End CpuWitness.
