(* ===== verification/Int64.v ===== *)
(** 64-bit division and bit scanning for targets without them
    ([abstract-machine/klib/src/int64.c]).

    A [udwords] union is the 64-bit value [all]; its members [s.high] and [s.low]
    are read by [hi] and [lo] and assigned by [set_hi] and [set_lo]. A shift by
    more than 31 bits, a division by zero and a signed overflow are undefined in C
    and stop the model. [__builtin_clz] and [__builtin_ctz] are the calls of
    [__clzsi2] and [__ctzsi2] that the compiler makes on a target without bit scan
    instructions. *)

From S2P Require Import Prelude.

(** * The unions *)

Definition hi (x : Z) : Z := Z.shiftr x 32.
Definition lo (x : Z) : Z := u32 x.
Definition set_hi (x v : Z) : Z := Z.lor (Z.shiftl v 32) (lo x).
Definition set_lo (x v : Z) : Z := Z.lor (Z.shiftl (hi x) 32) v.

(** * C operators that can be undefined *)

(** [x << k] and [x >> k] on [su_int]. *)
Definition shl32 (x k : Z) : result Z :=
  if (0 <=? k) && (k <? 32) then Ok (u32 (Z.shiftl x k)) else Abort (AUndef "shift").
Definition shr32 (x k : Z) : result Z :=
  if (0 <=? k) && (k <? 32) then Ok (Z.shiftr x k) else Abort (AUndef "shift").
(** [x / y] and [x % y] on unsigned operands. *)
Definition udiv (x y : Z) : result Z :=
  if y =? 0 then Abort (AUndef "division by zero") else Ok (x / y).
Definition urem (x y : Z) : result Z :=
  if y =? 0 then Abort (AUndef "division by zero") else Ok (x mod y).
(** [x - y] and [x * y] on [di_int]. *)
Definition di_check (x : Z) : result Z :=
  if (- 2 ^ 63 <=? x) && (x <? 2 ^ 63) then Ok x else Abort (AUndef "signed overflow").
Definition di_sub (x y : Z) : result Z := di_check (x - y).
Definition di_mul (x y : Z) : result Z := di_check (x * y).

(** * Bit scanning *)

Definition clzsi2 (a : Z) : Z :=
  let x := u32 a in
  let t := Z.shiftl (b2z (Z.land x 0xFFFF0000 =? 0)) 4 in
  let x := Z.shiftr x (16 - t) in
  let r := t in
  let t := Z.shiftl (b2z (Z.land x 0xFF00 =? 0)) 3 in
  let x := Z.shiftr x (8 - t) in
  let r := u32 (r + t) in
  let t := Z.shiftl (b2z (Z.land x 0xF0 =? 0)) 2 in
  let x := Z.shiftr x (4 - t) in
  let r := u32 (r + t) in
  let t := Z.shiftl (b2z (Z.land x 0xC =? 0)) 1 in
  let x := Z.shiftr x (2 - t) in
  let r := u32 (r + t) in
  s32 (r + Z.land (u32 (2 - x)) (u32 (- b2z (Z.land x 2 =? 0)))).

Definition ctzsi2 (a : Z) : Z :=
  let x := u32 a in
  let t := Z.shiftl (b2z (Z.land x 0x0000FFFF =? 0)) 4 in
  let x := Z.shiftr x t in
  let r := t in
  let t := Z.shiftl (b2z (Z.land x 0x00FF =? 0)) 3 in
  let x := Z.shiftr x t in
  let r := u32 (r + t) in
  let t := Z.shiftl (b2z (Z.land x 0x0F =? 0)) 2 in
  let x := Z.shiftr x t in
  let r := u32 (r + t) in
  let t := Z.shiftl (b2z (Z.land x 0x3 =? 0)) 1 in
  let x := Z.shiftr x t in
  let x := Z.land x 3 in
  let r := u32 (r + t) in
  s32 (r + Z.land (u32 (2 - Z.shiftr x 1)) (u32 (- b2z (Z.land x 1 =? 0)))).

(** The argument is a [di_int]; [x.s.high] is signed, [x.s.low] unsigned, so the
    selected word is unsigned. *)
Definition ctzdi2 (a : Z) : Z :=
  let x_high := s32 (Z.shiftr a 32) in
  let x_low := u32 a in
  let f := - b2z (x_low =? 0) in
  ctzsi2 (Z.lor (u32 (Z.land x_high f)) (Z.land x_low (u32 (Z.lnot f)))) + Z.land f 32.

Definition clzdi2 (a : Z) : Z :=
  let x_high := s32 (Z.shiftr a 32) in
  let x_low := u32 a in
  let f := - b2z (x_high =? 0) in
  clzsi2 (Z.lor (u32 (Z.land x_high (Z.lnot f))) (Z.land x_low (u32 f))) + Z.land f 32.

Definition builtin_clz (x : Z) : Z := clzsi2 x.
Definition builtin_ctz (x : Z) : Z := ctzsi2 x.

(** * [__udivmoddi4]

    The result is the returned quotient and what is stored through [rem], which is
    [None] when the pointer is null. *)

Definition n_uword_bits : Z := 32.
Definition n_udword_bits : Z := 64.

Definition answer (rem : bool) (r q : Z) : result (Z * option Z) :=
  Ok (q, if rem then Some r else None).

(** [for (; sr > 0; --sr)]: one iteration on [(r, q, carry)]. *)
Definition udivmod_body (d : Z) (st : Z * Z * Z) : Z * Z * Z :=
  let '(r, q, carry) := st in
  let r := set_hi r (Z.lor (u32 (Z.shiftl (hi r) 1)) (Z.shiftr (lo r) (n_uword_bits - 1))) in
  let r := set_lo r (Z.lor (u32 (Z.shiftl (lo r) 1)) (Z.shiftr (hi q) (n_uword_bits - 1))) in
  let q := set_hi q (Z.lor (u32 (Z.shiftl (hi q) 1)) (Z.shiftr (lo q) (n_uword_bits - 1))) in
  let q := set_lo q (Z.lor (u32 (Z.shiftl (lo q) 1)) carry) in
  let s := Z.shiftr (s64 (d - r - 1)) (n_udword_bits - 1) in
  let carry := u32 (Z.land s 1) in
  let r := u64 (r - Z.land d (u64 s)) in
  (r, q, carry).

Definition udivmod_loop (rem : bool) (d q r sr : Z) : result (Z * option Z) :=
  let '(r, q, carry) := Nat.iter (Z.to_nat sr) (udivmod_body d) (r, q, 0) in
  let q := Z.lor (u64 (Z.shiftl q 1)) carry in
  answer rem r q.

(** [n >> sr] and [n << (64 - sr)] for [1 <= sr <= 31], word by word. *)
Definition split_small (n sr : Z) : result (Z * Z) :=
  qh ← shl32 (lo n) (n_uword_bits - sr);
  rh ← shr32 (hi n) sr;
  rl ← shl32 (hi n) (n_uword_bits - sr);
  rl' ← shr32 (lo n) sr;
  mret (set_hi (set_lo 0 0) qh, set_lo (set_hi 0 rh) (Z.lor rl rl')).

(** [d.s.low == 0], [n.s.high != 0]. *)
Definition udivmod_low0 (rem : bool) (n d : Z) : result (Z * option Z) :=
  if hi d =? 0 then
    r ← (if rem then urem (hi n) (lo d) else mret 0);
    q ← udiv (hi n) (lo d);
    answer rem r q
  else if lo n =? 0 then
    r ← urem (hi n) (hi d);
    q ← udiv (hi n) (hi d);
    answer rem (set_lo (set_hi 0 r) 0) q
  else if Z.land (hi d) (u32 (hi d - 1)) =? 0 then
    q ← shr32 (hi n) (builtin_ctz (hi d));
    answer rem (set_hi (set_lo 0 (lo n)) (Z.land (hi n) (u32 (hi d - 1)))) q
  else
    let sr := u32 (builtin_clz (hi d) - builtin_clz (hi n)) in
    if n_uword_bits - 2 <? sr then answer rem n 0
    else
      let sr := sr + 1 in
      '(q, r) ← split_small n sr;
      udivmod_loop rem d q r sr.

(** [d.s.low != 0], [d.s.high == 0], [n.s.high != 0]. *)
Definition udivmod_high0 (rem : bool) (n d : Z) : result (Z * option Z) :=
  if Z.land (lo d) (u32 (lo d - 1)) =? 0 then
    let r := Z.land (lo n) (u32 (lo d - 1)) in
    if lo d =? 1 then answer rem r n
    else
      let sr := builtin_ctz (lo d) in
      qh ← shr32 (hi n) sr;
      ql ← shl32 (hi n) (n_uword_bits - sr);
      ql' ← shr32 (lo n) sr;
      answer rem r (set_lo (set_hi 0 qh) (Z.lor ql ql'))
  else
    let sr := u32 (1 + n_uword_bits + builtin_clz (lo d) - builtin_clz (hi n)) in
    '(q, r) ←
      (if sr =? n_uword_bits then
         mret (set_hi (set_lo 0 0) (lo n), set_lo (set_hi 0 0) (hi n))
       else if sr <? n_uword_bits then split_small n sr
       else
         ql ← shl32 (lo n) (n_udword_bits - sr);
         qh ← shl32 (hi n) (n_udword_bits - sr);
         qh' ← shr32 (lo n) (sr - n_uword_bits);
         rl ← shr32 (hi n) (sr - n_uword_bits);
         mret (set_hi (set_lo 0 ql) (Z.lor qh qh'), set_lo (set_hi 0 0) rl));
    udivmod_loop rem d q r sr.

(** [d.s.low != 0], [d.s.high != 0], [n.s.high != 0]. *)
Definition udivmod_full (rem : bool) (n d : Z) : result (Z * option Z) :=
  let sr := u32 (builtin_clz (hi d) - builtin_clz (hi n)) in
  if n_uword_bits - 1 <? sr then answer rem n 0
  else
    let sr := sr + 1 in
    '(q, r) ←
      (if sr =? n_uword_bits then
         mret (set_hi (set_lo 0 0) (lo n), set_lo (set_hi 0 0) (hi n))
       else split_small n sr);
    udivmod_loop rem d q r sr.

Definition udivmoddi4 (a b : Z) (rem : bool) : result (Z * option Z) :=
  let n := a in
  let d := b in
  if hi n =? 0 then
    if hi d =? 0 then
      r ← (if rem then urem (lo n) (lo d) else mret 0);
      q ← udiv (lo n) (lo d);
      answer rem r q
    else answer rem (lo n) 0
  else if lo d =? 0 then udivmod_low0 rem n d
  else if hi d =? 0 then udivmod_high0 rem n d
  else udivmod_full rem n d.

(** * Signed and unsigned division *)

Definition bits_in_dword_m1 : Z := 63.

(** [(x ^ s) - s], where [s] is the sign mask of [x]. *)
Definition di_abs (x s : Z) : result Z := di_sub (Z.lxor x s) s.

Definition divdi3 (a b : Z) : result Z :=
  let s_a := Z.shiftr a bits_in_dword_m1 in
  let s_b := Z.shiftr b bits_in_dword_m1 in
  a ← di_abs a s_a;
  b ← di_abs b s_b;
  let s_a := Z.lxor s_a s_b in
  '(q, _) ← udivmoddi4 (u64 a) (u64 b) false;
  mret (s64 (Z.lxor q (u64 s_a) - u64 s_a)).

Definition divmoddi4 (a b : Z) : result (Z * Z) :=
  d ← divdi3 a b;
  p ← di_mul d b;
  rem ← di_sub a p;
  mret (d, rem).

Definition moddi3 (a b : Z) : result Z :=
  let s := Z.shiftr b bits_in_dword_m1 in
  b ← di_abs b s;
  let s := Z.shiftr a bits_in_dword_m1 in
  a ← di_abs a s;
  '(_, r) ← udivmoddi4 (u64 a) (u64 b) true;
  di_sub (Z.lxor (s64 (default 0 r)) s) s.

Definition udivdi3 (a b : Z) : result Z :=
  '(q, _) ← udivmoddi4 a b false; mret q.

Definition umoddi3 (a b : Z) : result Z :=
  '(_, r) ← udivmoddi4 a b true; mret (default 0 r).

(** * Words of a double word *)

Lemma hi_div x : hi x = x / 2 ^ 32.
Proof. apply Z.shiftr_div_pow2. lia. Qed.

Lemma lo_range x : 0 <= lo x < 2 ^ 32.
Proof. by apply wrap_range. Qed.

Lemma hi_range x : in_u 64 x -> 0 <= hi x < 2 ^ 32.
Proof.
  intros [? ?]. rewrite hi_div. split; [by apply Z.div_pos|].
  apply Z.div_lt_upper_bound; [done|]. by rewrite <- Z.pow_add_r.
Qed.

Lemma hi_lo x : x = hi x * 2 ^ 32 + lo x.
Proof.
  rewrite hi_div. unfold lo, wrap. rewrite Z.mul_comm. by apply Z.div_mod.
Qed.

Lemma hi_pair h l : 0 <= l < 2 ^ 32 -> hi (h * 2 ^ 32 + l) = h.
Proof. intros. rewrite hi_div, Z.div_add_l, Z.div_small by lia. lia. Qed.

Lemma lo_pair h l : 0 <= l < 2 ^ 32 -> lo (h * 2 ^ 32 + l) = l.
Proof. intros. unfold lo, wrap. rewrite Z.add_comm, Z_mod_plus_full. by apply Z.mod_small. Qed.

Lemma set_hi_eq x v : set_hi x v = v * 2 ^ 32 + lo x.
Proof. apply lor_shiftl_add; [done|apply lo_range]. Qed.

Lemma set_lo_eq x v : 0 <= v < 2 ^ 32 -> set_lo x v = hi x * 2 ^ 32 + v.
Proof. intros. by apply lor_shiftl_add. Qed.

(** * Bit scanning *)

Lemma land_high k x :
  0 < k -> 0 <= x < 2 ^ (k + k) -> (Z.land x (2 ^ (k + k) - 2 ^ k) =? 0) = (x <? 2 ^ k).
Proof.
  intros Hk Hx. rewrite Z.pow_add_r in * by lia.
  replace (2 ^ k * 2 ^ k - 2 ^ k) with (Z.shiftl (Z.ones k) k)
    by (rewrite Z.shiftl_mul_pow2, Z.ones_equiv by lia; lia).
  assert (Z.land x (Z.shiftl (Z.ones k) k) = Z.shiftl (Z.land (Z.shiftr x k) (Z.ones k)) k) as ->.
  { apply Z.bits_inj'. intros i Hi. rewrite Z.land_spec, !Z.shiftl_spec, Z.land_spec by lia.
    destruct (Z.ltb_spec i k).
    - rewrite !(Z.testbit_neg_r _ (i - k)) by lia. apply andb_false_r.
    - rewrite Z.shiftr_spec by lia. do 2 f_equal. lia. }
  rewrite Z.land_ones, Z.shiftr_div_pow2, Z.shiftl_mul_pow2 by lia.
  assert (0 <= x / 2 ^ k < 2 ^ k).
  { split; [apply Z.div_pos; lia|]. apply Z.div_lt_upper_bound; lia. }
  rewrite (Z.mod_small (x / 2 ^ k)) by lia.
  destruct (Z.ltb_spec x (2 ^ k)).
  - by rewrite Z.div_small by lia.
  - apply Z.eqb_neq. pose proof (Z.div_str_pos x (2 ^ k)). nia.
Qed.

(** One halving step of [__clzsi2]: [t] positions are skipped. *)
Lemma clz_step j mask x (k := 2 ^ j) :
  0 <= j -> mask = 2 ^ (k + k) - 2 ^ k -> 0 < x < 2 ^ (k + k) ->
  exists t, Z.shiftl (b2z (Z.land x mask =? 0)) j = t /\ 0 <= t <= k /\
    0 < Z.shiftr x (k - t) < 2 ^ k /\ Z.log2 (Z.shiftr x (k - t)) = Z.log2 x - (k - t).
Proof.
  intros Hj -> Hx. assert (0 < k) by (apply Z.pow_pos_nonneg; lia).
  rewrite land_high by lia. rewrite Z.shiftl_mul_pow2 by lia. fold k.
  destruct (Z.ltb_spec x (2 ^ k)); simpl b2z; eexists; (split; [reflexivity|]).
  - replace (k - 1 * k) with 0 by lia. rewrite Z.shiftr_0_r. lia.
  - replace (k - 0 * k) with k by lia. rewrite Z.pow_add_r in Hx by lia.
    rewrite Z.log2_shiftr, Z.shiftr_div_pow2 by lia.
    pose proof (Z.log2_le_mono (2 ^ k) x). rewrite Z.log2_pow2 in * by lia.
    split_and!; try lia.
    + apply Z.div_str_pos; lia.
    + apply Z.div_lt_upper_bound; lia.
Qed.

Lemma clzsi2_small x : 0 < x < 2 ^ 32 -> clzsi2 x = 31 - Z.log2 x.
Proof.
  intros Hx. unfold clzsi2. cbv zeta. rewrite (wrap_id 32 x) by (unfold in_u; lia).
  destruct (clz_step 4 0xFFFF0000 x) as (t1 & -> & ? & Hx1 & L1); [done..|].
  change (2 ^ 4) with 16 in *. set (x1 := Z.shiftr x (16 - t1)) in *.
  destruct (clz_step 3 0xFF00 x1) as (t2 & -> & ? & Hx2 & L2); [done..|].
  change (2 ^ 3) with 8 in *. set (x2 := Z.shiftr x1 (8 - t2)) in *.
  destruct (clz_step 2 0xF0 x2) as (t3 & -> & ? & Hx3 & L3); [done..|].
  change (2 ^ 2) with 4 in *. set (x3 := Z.shiftr x2 (4 - t3)) in *.
  destruct (clz_step 1 0xC x3) as (t4 & -> & ? & Hx4 & L4); [done..|].
  change (2 ^ 1) with 2 in *. set (x4 := Z.shiftr x3 (2 - t4)) in *.
  rewrite !(wrap_id 32 (_ + t2)), !(wrap_id 32 (_ + t3)), !(wrap_id 32 (_ + t4))
    by (unfold in_u; lia).
  assert (x4 = 1 \/ x4 = 2 \/ x4 = 3) as Hc by lia. clearbody x4.
  destruct Hc as [-> | [-> | ->]]; simpl Z.log2 in L4.
  - change (Z.land (u32 (2 - 1)) _) with 1. rewrite sgn_small; lia.
  - change (Z.land (u32 (2 - 2)) _) with 0. rewrite sgn_small; lia.
  - change (Z.land (u32 (2 - 3)) _) with 0. rewrite sgn_small; lia.
Qed.

(** [tz x r]: [x] is a multiple of [2 ^ r] with an odd quotient. *)
Definition tz (x r : Z) : Prop := 0 <= r /\ exists o, x = (2 * o + 1) * 2 ^ r.

(** One halving step of [__ctzsi2]. *)
Lemma ctz_step j mask x (k := 2 ^ j) :
  0 <= j -> mask = Z.ones k -> x mod 2 ^ (k + k) <> 0 ->
  exists t, Z.shiftl (b2z (Z.land x mask =? 0)) j = t /\ 0 <= t <= k /\
    Z.shiftr x t mod 2 ^ k <> 0 /\ x = Z.shiftr x t * 2 ^ t.
Proof.
  intros Hj -> Hx. assert (0 < k) by (apply Z.pow_pos_nonneg; lia).
  rewrite Z.land_ones by lia. rewrite Z.shiftl_mul_pow2 by lia. fold k.
  rewrite Z.pow_add_r, Z.rem_mul_r in Hx by lia.
  destruct (Z.eqb_spec (x mod 2 ^ k) 0) as [E|E]; simpl b2z; eexists; (split; [reflexivity|]).
  - rewrite Z.mul_1_l, Z.shiftr_div_pow2 by lia.
    split; [lia|]. split; [nia|].
    pose proof (Z.div_mod x (2 ^ k)). lia.
  - rewrite Z.mul_0_l, Z.shiftr_0_r. split_and!; lia.
Qed.

Lemma ctzsi2_small x : 0 < x < 2 ^ 32 -> tz x (ctzsi2 x) /\ ctzsi2 x < 32.
Proof.
  intros Hx. unfold ctzsi2. cbv zeta. rewrite (wrap_id 32 x) by (unfold in_u; lia).
  destruct (ctz_step 4 0x0000FFFF x) as (t1 & -> & ? & Hx1 & L1);
    [done..|rewrite Z.mod_small; [|change (2 ^ (2 ^ 4 + 2 ^ 4)) with (2 ^ 32)]; lia|].
  change (2 ^ 4) with 16 in *. set (x1 := Z.shiftr x t1) in *.
  destruct (ctz_step 3 0x00FF x1) as (t2 & -> & ? & Hx2 & L2); [done..|].
  change (2 ^ 3) with 8 in *. set (x2 := Z.shiftr x1 t2) in *.
  destruct (ctz_step 2 0x0F x2) as (t3 & -> & ? & Hx3 & L3); [done..|].
  change (2 ^ 2) with 4 in *. set (x3 := Z.shiftr x2 t3) in *.
  destruct (ctz_step 1 0x3 x3) as (t4 & -> & ? & Hx4 & L4); [done..|].
  change (2 ^ 1) with 2 in *. set (x4 := Z.shiftr x3 t4) in *.
  rewrite !(wrap_id 32 (_ + t2)), !(wrap_id 32 (_ + t3)), !(wrap_id 32 (_ + t4))
    by (unfold in_u; lia).
  assert (Z.land x4 3 = x4 mod 2 ^ 2) as -> by (by apply (Z.land_ones x4 2)).
  assert (exists o, x = (4 * o + x4 mod 2 ^ 2) * 2 ^ (t1 + t2 + t3 + t4)) as [o Ho].
  { exists (x4 / 4). rewrite L1, L2, L3, L4, !Z.pow_add_r by lia.
    rewrite (Z.div_mod x4 4) at 1 by done. change (2 ^ 2) with 4. ring. }
  assert (x4 mod 2 ^ 2 = 1 \/ x4 mod 2 ^ 2 = 2 \/ x4 mod 2 ^ 2 = 3) as Hc
    by (pose proof (Z.mod_pos_bound x4 (2 ^ 2)); lia).
  destruct Hc as [E | [E | E]]; rewrite E in *.
  - change (Z.land (u32 (2 - Z.shiftr 1 1)) _) with 0. rewrite sgn_small by lia.
    rewrite Z.add_0_r. split; [|lia]. split; [lia|]. exists (2 * o). rewrite Ho. ring.
  - change (Z.land (u32 (2 - Z.shiftr 2 1)) _) with 1. rewrite sgn_small by lia.
    split; [|lia]. split; [lia|]. exists o. rewrite Ho.
    rewrite (Z.pow_add_r 2 _ 1) by lia. ring.
  - change (Z.land (u32 (2 - Z.shiftr 3 1)) _) with 0. rewrite sgn_small by lia.
    rewrite Z.add_0_r. split; [|lia]. split; [lia|]. exists (2 * o + 1). rewrite Ho. ring.
Qed.

Lemma tz_testbit x r :
  tz x r -> Z.testbit x r = true /\ forall i, i < r -> Z.testbit x i = false.
Proof.
  intros [Hr [o ->]]. rewrite <- Z.shiftl_mul_pow2 by lia. split.
  - rewrite Z.shiftl_spec, Z.sub_diag by lia. apply Z.testbit_odd_0.
  - intros i Hi. destruct (Z.ltb_spec i 0); [by apply Z.testbit_neg_r|].
    rewrite Z.shiftl_spec by lia. apply Z.testbit_neg_r. lia.
Qed.

Lemma tz_pow2 k r : 0 <= k -> tz (2 ^ k) r -> r = k.
Proof.
  intros Hk H. apply tz_testbit in H as [H _].
  rewrite Z.pow2_bits_eqb in H by lia. by apply Z.eqb_eq in H.
Qed.

(** [d & (d - 1) == 0] exactly for the powers of two. *)
Lemma land_pred_pow2 k d : 0 <= k -> 0 < d < 2 ^ k -> Z.land d (wrap k (d - 1)) = 0 ->
  d = 2 ^ Z.log2 d.
Proof.
  intros Hk Hd H. rewrite wrap_id in H by (unfold in_u; lia).
  pose proof (Z.log2_spec d ltac:(lia)) as [L U].
  destruct (Z.eq_dec d (2 ^ Z.log2 d)) as [|N]; [done|]. exfalso.
  assert (Z.log2 (d - 1) = Z.log2 d) as E by (apply Z.log2_unique; [apply Z.log2_nonneg|lia]).
  assert (Z.testbit (Z.land d (d - 1)) (Z.log2 d) = true) as B.
  { rewrite Z.land_spec, Z.bit_log2 by lia. rewrite <- E. apply Z.bit_log2.
    pose proof (Z.log2_nonneg d). pose proof (Z.pow_pos_nonneg 2 (Z.log2 d)). lia. }
  by rewrite H, Z.bits_0 in B.
Qed.

(** * The shift-subtract loop *)

Lemma wrap_mul2 n x : 0 < n -> wrap n (2 * x) = wrap (n - 1) x * 2 ^ 1.
Proof.
  intros Hn. unfold wrap. replace n with (Z.succ (n - 1)) at 1 by lia.
  rewrite Z.pow_succ_r, Z.mul_mod_distr_l by lia. lia.
Qed.

Lemma dbl_lor n x b : 0 < n -> 0 <= b <= 1 -> Z.lor (wrap n (Z.shiftl x 1)) b = wrap n (2 * x) + b.
Proof.
  intros Hn Hb. rewrite (Z.shiftl_mul_pow2 x), (Z.mul_comm x) by lia. change (2 ^ 1) with 2.
  rewrite wrap_mul2, <- Z.shiftl_mul_pow2 by lia. rewrite lor_shiftl_add by lia.
  by rewrite Z.shiftl_mul_pow2 by lia.
Qed.

Lemma wrap_dbl n x : 0 < n -> in_u n x -> wrap n (2 * x) = 2 * x - 2 ^ n * (x / 2 ^ (n - 1)).
Proof.
  intros Hn Hx. unfold in_u, wrap in *. replace (2 ^ n) with (2 * 2 ^ (n - 1)) in *
    by (rewrite <- Z.pow_succ_r by lia; f_equal; lia).
  pose proof (Z.pow_pos_nonneg 2 (n - 1)). rewrite Z.mul_mod_distr_l by lia.
  pose proof (Z.div_mod x (2 ^ (n - 1))). lia.
Qed.

Lemma top_bit n x : 0 < n -> in_u n x -> 0 <= x / 2 ^ (n - 1) <= 1.
Proof.
  intros Hn [? Hx]. assert (2 ^ n = 2 ^ (n - 1) * 2) as E
    by (rewrite Z.mul_comm, <- Z.pow_succ_r by lia; f_equal; lia).
  pose proof (Z.pow_pos_nonneg 2 (n - 1)). rewrite E in Hx.
  split; [apply Z.div_pos; lia|]. apply Zlt_succ_le, Z.div_lt_upper_bound; lia.
Qed.

(** [x << 1 | b] on the two words of [x]. *)
Lemma dbl_words x b (x1 := set_hi x (Z.lor (u32 (Z.shiftl (hi x) 1)) (Z.shiftr (lo x) 31))) :
  in_u 64 x -> 0 <= b <= 1 ->
  set_lo x1 (Z.lor (u32 (Z.shiftl (lo x1) 1)) b) = u64 (2 * x) + b.
Proof.
  intros Hx Hb. pose proof (lo_range x) as Hl. pose proof (hi_range x Hx) as Hh.
  assert (lo x1 = lo x) as El by (unfold x1; rewrite set_hi_eq; by apply lo_pair).
  assert (hi x1 = u32 (2 * hi x) + lo x / 2 ^ 31) as Eh.
  { unfold x1. rewrite set_hi_eq, Z.shiftr_div_pow2, hi_pair by lia. apply dbl_lor; [lia|].
    by apply (top_bit 32). }
  rewrite El, dbl_lor by lia. pose proof (top_bit 32 (lo x) ltac:(lia) Hl).
  pose proof (top_bit 32 (hi x) ltac:(lia) Hh). change (32 - 1) with 31 in *.
  assert (u32 (2 * lo x) = 2 * lo x - 2 ^ 32 * (lo x / 2 ^ 31)) as E1 by by apply wrap_dbl.
  assert (u32 (2 * hi x) = 2 * hi x - 2 ^ 32 * (hi x / 2 ^ 31)) as E2 by by apply wrap_dbl.
  assert (u64 (2 * x) = 2 * x - 2 ^ 64 * (x / 2 ^ 63)) as E3 by by apply wrap_dbl.
  assert (x / 2 ^ 63 = hi x / 2 ^ 31) as E4 by (rewrite hi_div, Z.div_div by lia; done).
  rewrite set_lo_eq, Eh, E1, E2, E3, E4.
  - pose proof (hi_lo x). lia.
  - pose proof (wrap_range 32 (2 * lo x)).
    assert (u32 (2 * lo x) <> 2 ^ 32 - 1); [rewrite E1|]; lia.
Qed.

(** One iteration: shift in a bit of the dividend, subtract if possible. *)
Lemma udivmod_body_eq d r q c (r1 := u64 (2 * r) + q / 2 ^ 63) (b := s64 (d - r1 - 1) <? 0) :
  in_u 64 d -> in_u 64 r -> in_u 64 q -> 0 <= c <= 1 ->
  udivmod_body d (r, q, c) = (u64 (r1 - if b then d else 0), u64 (2 * q) + c, b2z b).
Proof.
  intros Hd Hr Hq Hc. unfold udivmod_body, n_uword_bits, n_udword_bits.
  change (32 - 1) with 31. change (64 - 1) with 63. cbv zeta.
  assert (Z.shiftr (hi q) 31 = q / 2 ^ 63) as ->.
  { rewrite Z.shiftr_div_pow2, hi_div, Z.div_div by lia. done. }
  pose proof (top_bit 64 q ltac:(lia) Hq) as Hq1.
  rewrite dbl_words, dbl_words by done. fold r1.
  pose proof (sgn_range 64 (d - r1 - 1)) as Hs. change (2 ^ (64 - 1)) with (2 ^ 63) in Hs.
  rewrite Z.shiftr_div_pow2 by lia. subst b. destruct (Z.ltb_spec (s64 (d - r1 - 1)) 0).
  - assert (s64 (d - r1 - 1) / 2 ^ 63 = -1) as ->.
    { symmetry. apply Z.div_unique with (s64 (d - r1 - 1) + 2 ^ 63); lia. }
    change (u64 (-1)) with (Z.ones 64). rewrite Z.land_ones by lia.
    by rewrite (Z.mod_small d) by done.
  - rewrite Z.div_small by lia. by rewrite Z.land_0_r.
Qed.

(** The invariant of the loop with [sr] iterations to go: the top [sr] bits of [q]
    are still bits of the dividend [N], the bits below and [carry] are the quotient
    found so far. *)
Definition linv (N d sr : Z) (st : Z * Z * Z) : Prop :=
  let '(r, q, c) := st in
  in_u 64 q /\ 0 <= c <= 1 /\ 0 <= r < d /\
  N = r * 2 ^ sr + q / 2 ^ (64 - sr) + (2 * (q mod 2 ^ (64 - sr)) + c) * d * 2 ^ sr.

(** The sign of [d - r - 1] decides [d <= r]: the difference does not overflow. *)
Definition wide_ok (N d sr : Z) : Prop := 2 ^ 63 < d -> sr <= 1 /\ 2 ^ 63 <= N.

Lemma shift_in sr q c (m := 64 - sr) : 1 <= sr <= 63 -> in_u 64 q -> 0 <= c <= 1 ->
  let q1 := u64 (2 * q) + c in
  in_u 64 q1 /\ q / 2 ^ m = q / 2 ^ 63 * 2 ^ (sr - 1) + q1 / 2 ^ (m + 1) /\
  q1 mod 2 ^ (m + 1) = 2 * (q mod 2 ^ m) + c.
Proof.
  intros Hsr Hq Hc q1. set (L := q mod 2 ^ m). set (T := q / 2 ^ m).
  set (t := q / 2 ^ 63). set (T' := T mod 2 ^ (sr - 1)).
  pose proof (Z.pow_pos_nonneg 2 m). pose proof (Z.pow_pos_nonneg 2 (sr - 1)).
  assert (2 ^ m * 2 ^ (sr - 1) = 2 ^ 63) as E63 by (rewrite <- Z.pow_add_r by lia; f_equal; lia).
  assert (q = 2 ^ m * T + L) as Eq by (apply Z.div_mod; lia).
  assert (0 <= L < 2 ^ m) as HL by (apply Z.mod_pos_bound; lia).
  assert (t = T / 2 ^ (sr - 1)) as Et by (unfold t, T; rewrite Z.div_div, E63 by lia; done).
  assert (T = 2 ^ (sr - 1) * t + T') as ET by (rewrite Et; apply Z.div_mod; lia).
  assert (0 <= T' < 2 ^ (sr - 1)) as HT by (apply Z.mod_pos_bound; lia).
  assert (u64 (2 * q) = 2 ^ (m + 1) * T' + 2 * L) as E.
  { pose proof (wrap_dbl 64 q ltac:(lia) Hq) as ->. change (64 - 1) with 63. fold t.
    rewrite Z.pow_add_r by lia. change (2 ^ 64) with (2 * 2 ^ 63). rewrite <- E63, Eq, ET. ring. }
  assert (q1 = 2 ^ (m + 1) * T' + (2 * L + c)) as E1 by (unfold q1; lia).
  assert (0 <= 2 * L + c < 2 ^ (m + 1)) as HLc by (rewrite Z.pow_add_r by lia; lia).
  split_and!.
  - unfold in_u. rewrite E1, Z.pow_add_r in * by lia. change (2 ^ 64) with (2 * 2 ^ 63).
    rewrite <- E63. nia.
  - rewrite E1, (Z.mul_comm (2 ^ (m + 1))), Z.div_add_l, Z.div_small by lia. lia.
  - rewrite E1, Z.add_comm, (Z.mul_comm (2 ^ (m + 1))), Z_mod_plus_full. by apply Z.mod_small.
Qed.

Lemma linv_step N d sr st : in_u 64 N -> in_u 64 d -> 1 <= sr <= 63 -> wide_ok N d sr ->
  linv N d sr st -> linv N d (sr - 1) (udivmod_body d st).
Proof.
  destruct st as [[r q] c]. intros HN Hd Hsr Hw (Hq & Hc & Hr & HE).
  destruct (shift_in sr q c Hsr Hq Hc) as (Hq1 & E1 & E2).
  set (q1 := u64 (2 * q) + c) in *. set (t := q / 2 ^ 63) in *.
  set (m := 64 - sr) in *. replace (64 - (sr - 1)) with (m + 1) in * by lia.
  set (K := 2 * (q mod 2 ^ m) + c) in *. set (P := 2 ^ (sr - 1)) in *.
  assert (2 ^ sr = 2 * P) as EP by (unfold P; rewrite <- Z.pow_succ_r by lia; f_equal; lia).
  assert (0 < P) by (apply Z.pow_pos_nonneg; lia).
  assert (0 <= t <= 1) as Ht by by apply (top_bit 64).
  assert (0 <= q1 / 2 ^ (m + 1)) as HT' by (apply Z.div_pos; [apply Hq1|apply Z.pow_pos_nonneg; lia]).
  assert (0 <= K) as HK by (unfold K; pose proof (Z.mod_pos_bound q (2 ^ m)); lia).
  unfold in_u in *. rewrite E1, EP in HE.
  assert (N = (2 * r + t) * P + q1 / 2 ^ (m + 1) + K * d * 2 * P) as HE' by lia. clear HE.
  assert (0 <= K * d * 2 * P) as HKP by nia.
  assert ((2 * r + t) * P <= N) as Hle by lia.
  assert (2 * r + t <= N) as Hr1 by nia.
  rewrite udivmod_body_eq by (unfold in_u; lia). fold t.
  rewrite (wrap_id 64 (2 * r)) by (unfold in_u; lia). fold q1.
  set (r1 := 2 * r + t) in *.
  assert (s64 (d - r1 - 1) = d - r1 - 1) as ->.
  { apply sgn_id; [done|]. change (2 ^ (64 - 1)) with (2 ^ 63).
    destruct (Z.leb_spec d (2 ^ 63)); [lia|]. destruct Hw as [Hs HN2]; [lia|].
    assert (P = 1) as HP by (unfold P; by replace (sr - 1) with 0 by lia).
    assert (q1 / 2 ^ (m + 1) = 0) by (replace (m + 1) with 64 by lia; apply Z.div_small; lia).
    assert (K = 0) by nia. nia. }
  destruct (Z.ltb_spec (d - r1 - 1) 0); simpl b2z;
    (rewrite wrap_id; [|unfold in_u; lia]); split_and!; try (unfold in_u; lia).
  all: replace (64 - (sr - 1)) with (m + 1) by lia; rewrite E2; fold P K; lia.
Qed.

Lemma linv_loop N d n st : in_u 64 N -> in_u 64 d -> (n <= 63)%nat -> wide_ok N d (Z.of_nat n) ->
  linv N d (Z.of_nat n) st -> linv N d 0 (Nat.iter n (udivmod_body d) st).
Proof.
  intros HN Hd. revert st. induction n as [|n IH]; intros st Hn Hw H; [done|].
  rewrite Nat.iter_succ_r. apply IH; [lia| |].
  - intros Hw'. destruct Hw as [? ?]; [done|]. lia.
  - replace (Z.of_nat n) with (Z.of_nat (S n) - 1) by lia. apply linv_step; (lia || done).
Qed.

(** The loop from [r = N >> sr] and [q = N << (64 - sr)]. *)
Lemma udivmod_loop_eq rem N d sr q r :
  in_u 64 N -> in_u 64 d -> 1 <= sr <= 63 -> wide_ok N d sr ->
  r = N / 2 ^ sr -> r < d -> q = N mod 2 ^ sr * 2 ^ (64 - sr) ->
  udivmod_loop rem d q r sr = answer rem (N mod d) (N / d).
Proof.
  intros HN Hd Hsr Hw Er Hr Eq. unfold in_u in *. unfold udivmod_loop.
  pose proof (Z.pow_pos_nonneg 2 sr). pose proof (Z.pow_pos_nonneg 2 (64 - sr)).
  pose proof (Z.mod_pos_bound N (2 ^ sr)).
  assert (2 ^ 64 = 2 ^ sr * 2 ^ (64 - sr)) as E64 by (rewrite <- Z.pow_add_r by lia; f_equal; lia).
  assert (linv N d sr (r, q, 0)) as I.
  { assert (q mod 2 ^ (64 - sr) = 0) as E0 by (rewrite Eq; apply Z.mod_mul; lia).
    assert (q / 2 ^ (64 - sr) = N mod 2 ^ sr) as E1 by (rewrite Eq; apply Z.div_mul; lia).
    unfold linv. rewrite E0, E1, Er. split_and!; try lia.
    - unfold in_u. rewrite Eq, E64. nia.
    - apply Z.div_pos; lia.
    - pose proof (Z.div_mod N (2 ^ sr)). lia. }
  rewrite <- (Z2Nat.id sr) in I, Hw by lia. apply linv_loop in I; [|done|done|lia|done].
  destruct (Nat.iter _ _ _) as [[r' q'] c]. destruct I as (Hq & Hc & Hr' & HE).
  change (64 - 0) with 64 in HE. rewrite Z.div_small, Z.mod_small in HE by done.
  change (2 ^ 0) with 1 in HE. unfold in_u in Hq. assert (2 * q' + c <= N) by nia. rewrite dbl_lor by lia.
  rewrite (wrap_id 64 (2 * q')) by (unfold in_u; lia).
  assert (N / d = 2 * q' + c) as -> by (symmetry; apply Z.div_unique with r'; lia).
  by assert (N mod d = r') as -> by (symmetry; apply Z.mod_unique with (2 * q' + c); lia).
Qed.

(** * The branches of [__udivmoddi4] *)

Lemma wrap_shl n x k : 0 <= k <= n -> wrap n (Z.shiftl x k) = wrap (n - k) x * 2 ^ k.
Proof.
  intros Hk. unfold wrap. rewrite Z.shiftl_mul_pow2 by lia.
  replace n with (n - k + k) at 1 by lia. rewrite Z.pow_add_r by lia.
  apply Z.mul_mod_distr_r; apply Z.pow_nonzero; lia.
Qed.

Lemma shl32_ok x k : 0 <= k < 32 -> shl32 x k = Ok (wrap (32 - k) x * 2 ^ k).
Proof.
  intros Hk. unfold shl32. rewrite (proj2 (Z.leb_le 0 k)), (proj2 (Z.ltb_lt k 32)) by lia.
  cbn [andb]. by rewrite wrap_shl by lia.
Qed.

Lemma shr32_ok x k : 0 <= k < 32 -> shr32 x k = Ok (x / 2 ^ k).
Proof.
  intros Hk. unfold shr32. rewrite (proj2 (Z.leb_le 0 k)), (proj2 (Z.ltb_lt k 32)) by lia.
  cbn [andb]. by rewrite Z.shiftr_div_pow2 by lia.
Qed.

Lemma div_words n k : 0 <= k <= 32 -> n / 2 ^ k = hi n * 2 ^ (32 - k) + lo n / 2 ^ k.
Proof.
  intros Hk. rewrite (hi_lo n) at 1. replace 32 with (32 - k + k) at 1 by lia.
  rewrite Z.pow_add_r, Z.mul_assoc by lia. apply Z.div_add_l, Z.pow_nonzero; lia.
Qed.

Lemma mod_words n k : 0 <= k <= 32 -> n mod 2 ^ k = lo n mod 2 ^ k.
Proof. intros. symmetry. by apply (wrap_wrap_le k 32). Qed.

Lemma words_ok h l : 0 <= l < 2 ^ 32 -> set_lo (set_hi 0 h) l = h * 2 ^ 32 + l.
Proof. intros. by rewrite set_lo_eq, set_hi_eq, hi_pair. Qed.

Lemma words_ok' h l : 0 <= l < 2 ^ 32 -> set_hi (set_lo 0 l) h = h * 2 ^ 32 + l.
Proof. intros. rewrite set_hi_eq, set_lo_eq by done. by rewrite lo_pair. Qed.

(** The two words of [n >> k], for [k] below a word. *)
Lemma shr_words n k (l := Z.lor (wrap k (hi n) * 2 ^ (32 - k)) (lo n / 2 ^ k)) :
  1 <= k < 32 -> set_lo (set_hi 0 (hi n / 2 ^ k)) l = n / 2 ^ k.
Proof.
  intros Hk. pose proof (lo_range n). pose proof (wrap_range k (hi n)).
  pose proof (Z.pow_pos_nonneg 2 k). pose proof (Z.pow_pos_nonneg 2 (32 - k)).
  assert (2 ^ 32 = 2 ^ k * 2 ^ (32 - k)) as E by (rewrite <- Z.pow_add_r by lia; f_equal; lia).
  assert (0 <= lo n / 2 ^ k < 2 ^ (32 - k)) as Hl.
  { split; [apply Z.div_pos; lia|]. apply Z.div_lt_upper_bound; lia. }
  assert (l = wrap k (hi n) * 2 ^ (32 - k) + lo n / 2 ^ k) as ->.
  { unfold l. by rewrite <- Z.shiftl_mul_pow2, lor_shiftl_add, Z.shiftl_mul_pow2 by lia. }
  rewrite words_ok by nia. rewrite (div_words n) by lia. rewrite E.
  rewrite (Z.div_mod (hi n) (2 ^ k)) at 3 by lia. unfold wrap. ring.
Qed.

Lemma split_small_ok n sr : 1 <= sr < 32 ->
  split_small n sr = Ok (n mod 2 ^ sr * 2 ^ (64 - sr), n / 2 ^ sr).
Proof.
  intros Hs. unfold split_small, n_uword_bits. rewrite !shl32_ok, !shr32_ok by lia.
  cbn [mbind result_bind]. replace (32 - (32 - sr)) with sr by lia.
  rewrite shr_words, words_ok' by lia. unfold mret, result_ret. do 2 f_equal.
  rewrite mod_words by lia. unfold wrap. replace (64 - sr) with (32 - sr + 32) by lia.
  rewrite (Z.pow_add_r 2 _ 32) by lia. lia.
Qed.

Lemma log2_hi x : in_u 64 x -> hi x <> 0 -> 0 < hi x < 2 ^ 32 /\ Z.log2 x = 32 + Z.log2 (hi x).
Proof.
  intros Hx Hh. pose proof (hi_range x Hx). pose proof (hi_lo x). pose proof (lo_range x).
  split; [lia|]. unfold hi. rewrite Z.log2_shiftr by lia.
  pose proof (Z.log2_le_mono (2 ^ 32) x). rewrite Z.log2_pow2 in * by lia. lia.
Qed.

Lemma log2_u64 x : in_u 64 x -> Z.log2 x <= 63.
Proof.
  intros [? H]. destruct (Z.eq_dec x 0) as [->|]; [done|].
  apply Zlt_succ_le, Z.log2_lt_pow2; lia.
Qed.

Lemma log2_lt_lt a b : 0 <= a -> Z.log2 a < Z.log2 b -> a < b.
Proof.
  intros. destruct (Z.ltb_spec a b); [done|].
  pose proof (Z.log2_le_mono b a). lia.
Qed.

(** The loop, started with the shift distance that the code computes. *)
Lemma udivmod_loop_log2 rem N d sr :
  in_u 64 N -> in_u 64 d -> 0 < N -> 0 < d -> sr = Z.log2 N - Z.log2 d + 1 -> 1 <= sr <= 63 ->
  udivmod_loop rem d (N mod 2 ^ sr * 2 ^ (64 - sr)) (N / 2 ^ sr) sr = answer rem (N mod d) (N / d).
Proof.
  intros HN Hd HN0 Hp Es Hs. pose proof (log2_u64 N HN). pose proof (Z.log2_nonneg d).
  apply udivmod_loop_eq; try done.
  - intros Hw. pose proof (Z.log2_le_mono (2 ^ 63) d ltac:(lia)) as L.
    rewrite Z.log2_pow2 in L by lia. split; [lia|].
    replace 63 with (Z.log2 N) by lia. by apply Z.log2_spec.
  - apply Z.div_lt_upper_bound; [apply Z.pow_pos_nonneg; lia|].
    pose proof (Z.log2_spec d Hp). pose proof (Z.log2_spec N HN0) as [_ U].
    replace (Z.succ (Z.log2 N)) with (sr + Z.log2 d) in U by lia.
    rewrite Z.pow_add_r in U by lia. pose proof (Z.pow_pos_nonneg 2 sr). nia.
Qed.

Lemma answer_small rem n d : 0 <= n < d -> answer rem n 0 = answer rem (n mod d) (n / d).
Proof. intros. by rewrite Z.mod_small, Z.div_small. Qed.

#[local] Opaque udivmod_loop.

Section Branches.
Context (rem : bool) (n d : Z).
Hypotheses (Hn : in_u 64 n) (Hd : in_u 64 d) (Hnh : hi n <> 0).

Lemma n_pos : 2 ^ 32 <= n.
Proof. pose proof (hi_range n Hn). pose proof (hi_lo n). pose proof (lo_range n). lia. Qed.

(** The distance [clz(d.s.high) - clz(n.s.high)], as an unsigned number. *)
Lemma clz_distance (sr := u32 (builtin_clz (hi d) - builtin_clz (hi n))) : hi d <> 0 ->
  (n < d /\ 63 < sr) \/ (sr = Z.log2 n - Z.log2 d /\ 0 <= sr <= 31).
Proof.
  intros Hdh. unfold sr, builtin_clz.
  pose proof (log2_u64 n Hn). pose proof (log2_u64 d Hd). pose proof n_pos.
  destruct (log2_hi n Hn Hnh) as [Hn1 En]. destruct (log2_hi d Hd Hdh) as [Hd1 Ed].
  rewrite !clzsi2_small by done.
  pose proof (Z.log2_nonneg (hi n)). pose proof (Z.log2_nonneg (hi d)).
  destruct (Z.ltb_spec (Z.log2 n) (Z.log2 d)).
  - left. split; [apply log2_lt_lt; lia|].
    rewrite <- (wrap_shift 32 _ 1), wrap_id by (unfold in_u; lia). lia.
  - right. rewrite wrap_id by (unfold in_u; lia). lia.
Qed.

Lemma loop_word :
  udivmod_loop rem d (lo n * 2 ^ 32 + 0) (0 * 2 ^ 32 + hi n) 32
  = udivmod_loop rem d (n mod 2 ^ 32 * 2 ^ (64 - 32)) (n / 2 ^ 32) 32.
Proof. by rewrite hi_div, Z.add_0_r, Z.mul_0_l, Z.add_0_l. Qed.

Lemma udivmod_full_eq : hi d <> 0 -> udivmod_full rem n d = answer rem (n mod d) (n / d).
Proof.
  intros Hdh. unfold udivmod_full, n_uword_bits. pose proof n_pos. pose proof (lo_range n).
  pose proof (hi_range n Hn).
  pose proof (hi_range d Hd). pose proof (hi_lo d). pose proof (lo_range d).
  destruct (clz_distance Hdh) as [[? ?] | [E ?]]; cbv zeta.
  - rewrite (proj2 (Z.ltb_lt _ _)) by lia. apply answer_small. lia.
  - rewrite (proj2 (Z.ltb_ge _ _)) by lia. rewrite <- (udivmod_loop_log2 rem n d _) by (lia || done).
    rewrite <- E. set (sr := u32 _) in *. destruct (Z.eqb_spec (sr + 1) 32) as [E32|].
    + rewrite E32, words_ok', words_ok by lia. apply loop_word.
    + by rewrite split_small_ok by lia.
Qed.

(** A power of two, as the code recognises it. *)
Lemma pow2_test h : 0 < h < 2 ^ 32 -> Z.land h (u32 (h - 1)) = 0 ->
  0 <= builtin_ctz h < 32 /\ h = 2 ^ builtin_ctz h /\ u32 (h - 1) = Z.ones (builtin_ctz h).
Proof.
  intros Hh H. pose proof (land_pred_pow2 32 h ltac:(lia) Hh H) as E.
  destruct (ctzsi2_small h Hh) as [T ?]. pose proof T as [? _]. rewrite E in T.
  apply tz_pow2 in T; [|apply Z.log2_nonneg]. rewrite <- E in T. unfold builtin_ctz in *.
  rewrite <- T in E. split_and!; [lia..|done|].
  rewrite wrap_id by (unfold in_u; lia). rewrite Z.ones_equiv. lia.
Qed.

Lemma udivmod_low0_eq : lo d = 0 -> hi d <> 0 ->
  udivmod_low0 rem n d = answer rem (n mod d) (n / d).
Proof.
  intros Hl Hdh. unfold udivmod_low0, n_uword_bits. pose proof n_pos.
  pose proof (hi_range d Hd). pose proof (hi_lo d) as Ed. pose proof (hi_lo n) as En.
  pose proof (lo_range n). pose proof (hi_range n Hn). rewrite Hl, Z.add_0_r in Ed.
  rewrite (proj2 (Z.eqb_neq _ _) Hdh). destruct (Z.eqb_spec (lo n) 0) as [E0|E0].
  { unfold urem, udiv. rewrite (proj2 (Z.eqb_neq _ _) Hdh). cbn [mbind result_bind].
    rewrite E0, Z.add_0_r in En. rewrite words_ok by lia.
    rewrite Z.add_0_r, <- Z.mul_mod_distr_r, <- (Z.div_mul_cancel_r _ _ (2 ^ 32)) by lia.
    by rewrite <- En, <- Ed. }
  destruct (Z.eqb_spec (Z.land (hi d) (u32 (hi d - 1))) 0) as [Ep|Ep].
  { destruct (pow2_test (hi d)) as (Hk & E1 & E2); [lia|done|].
    rewrite shr32_ok by lia. cbn [mbind result_bind].
    rewrite E2, Z.land_ones, words_ok' by lia. set (k := builtin_ctz (hi d)) in *.
    assert (d = 2 ^ 32 * 2 ^ k) as Ek by (rewrite <- E1; lia). clearbody k. rewrite Ek.
    rewrite Z.rem_mul_r, <- Z.div_div, <- hi_div by lia. f_equal. unfold lo, wrap. lia. }
  destruct (clz_distance Hdh) as [[? ?] | [E Hs]]; cbv zeta.
  - rewrite (proj2 (Z.ltb_lt _ _)) by lia. apply answer_small. lia.
  - rewrite <- (udivmod_loop_log2 rem n d _) by (lia || done). rewrite <- E.
    set (sr := u32 (_ - builtin_clz _)) in *. assert (sr <> 31).
    { intros E31. pose proof (log2_u64 n Hn). destruct (log2_hi d Hd Hdh) as [? El].
      assert (Z.log2 (hi d) = 0) as L0 by (pose proof (Z.log2_nonneg (hi d)); lia).
      assert (hi d = 1) as Hd1 by (apply Z.log2_null in L0; lia). by rewrite Hd1 in Ep. }
    rewrite (proj2 (Z.ltb_ge _ _)) by lia. by rewrite split_small_ok by lia.
Qed.

Lemma split_large k : 1 <= k < 32 ->
  set_hi (set_lo 0 (wrap k (lo n) * 2 ^ (32 - k)))
    (Z.lor (wrap k (hi n) * 2 ^ (32 - k)) (lo n / 2 ^ k))
  = n mod 2 ^ (32 + k) * 2 ^ (64 - (32 + k)).
Proof.
  intros Hk. pose proof (lo_range n). pose proof (wrap_range k (lo n)).
  pose proof (Z.pow_pos_nonneg 2 k). pose proof (Z.pow_pos_nonneg 2 (32 - k)).
  assert (2 ^ 32 = 2 ^ k * 2 ^ (32 - k)) as E by (rewrite <- Z.pow_add_r by lia; f_equal; lia).
  assert (0 <= lo n / 2 ^ k < 2 ^ (32 - k)) as Hl.
  { split; [apply Z.div_pos; lia|]. apply Z.div_lt_upper_bound; lia. }
  rewrite <- (Z.shiftl_mul_pow2 (wrap k (hi n))), lor_shiftl_add by lia.
  rewrite words_ok' by nia. rewrite Z.pow_add_r, Z.rem_mul_r, <- hi_div by lia.
  fold (lo n). replace (64 - (32 + k)) with (32 - k) by lia. change (n mod 2 ^ 32) with (lo n).
  rewrite (Z.div_mod (lo n) (2 ^ k)) at 3 by lia. unfold wrap. rewrite E. ring.
Qed.

Lemma udivmod_high0_eq : hi d = 0 -> lo d <> 0 ->
  udivmod_high0 rem n d = answer rem (n mod d) (n / d).
Proof.
  intros Hh Hdl. unfold udivmod_high0, n_uword_bits, n_udword_bits. pose proof n_pos.
  pose proof (lo_range d). pose proof (hi_lo d) as Ed. pose proof (lo_range n).
  pose proof (hi_range n Hn). rewrite Hh, Z.add_0_l in Ed. rewrite <- Ed in *.
  destruct (Z.eqb_spec (Z.land d (u32 (d - 1))) 0) as [Ep|Ep].
  { destruct (pow2_test d) as (Hk & E1 & E2); [lia|done|].
    rewrite E2, Z.land_ones, <- mod_words, <- E1 by lia. cbv zeta.
    destruct (Z.eqb_spec d 1) as [->|]; [by rewrite Z.div_1_r|].
    assert (builtin_ctz d <> 0) by (intros E0; rewrite E0 in E1; done).
    rewrite !shr32_ok, shl32_ok by lia. cbn [mbind result_bind].
    replace (32 - (32 - _)) with (builtin_ctz d) by lia.
    by rewrite shr_words, <- E1 by lia. }
  cbv zeta. destruct (log2_hi n Hn Hnh) as [Hn1 En]. unfold builtin_clz.
  rewrite !clzsi2_small by lia. pose proof (Z.log2_nonneg (hi n)). pose proof (log2_u64 n Hn).
  assert (1 <= Z.log2 d <= 31) as Hld.
  { split; [|apply Zlt_succ_le, Z.log2_lt_pow2; lia].
    apply (Z.log2_le_mono 2). assert (d <> 1) by (intros ->; done). lia. }
  set (sr := Z.log2 n - Z.log2 d + 1).
  assert (u32 (1 + 32 + (31 - Z.log2 d) - (31 - Z.log2 (hi n))) = sr) as ->.
  { rewrite wrap_id; unfold in_u; lia. }
  rewrite <- (udivmod_loop_log2 rem n d sr) by (lia || done).
  destruct (Z.eqb_spec sr 32) as [E32|].
  { rewrite E32, words_ok', words_ok by lia. apply loop_word. }
  destruct (Z.ltb_spec sr 32); [by rewrite split_small_ok by lia|].
  rewrite !shr32_ok, !shl32_ok by lia. cbn [mbind result_bind].
  replace (32 - (64 - sr)) with (sr - 32) by lia. replace (64 - sr) with (32 - (sr - 32)) by lia.
  assert (0 <= hi n / 2 ^ (sr - 32) < 2 ^ 32).
  { split; [apply Z.div_pos; [lia|apply Z.pow_pos_nonneg; lia]|].
    apply Z.div_lt_upper_bound; [apply Z.pow_pos_nonneg; lia|].
    pose proof (Z.pow_pos_nonneg 2 (sr - 32)). nia. }
  rewrite split_large, words_ok by lia. replace (32 + (sr - 32)) with sr by lia.
  rewrite Z.mul_0_l, Z.add_0_l, hi_div, Z.div_div, <- Z.pow_add_r by lia.
  replace (32 - (sr - 32)) with (64 - sr) by lia.
  by replace (32 + (sr - 32)) with sr by lia.
Qed.
End Branches.

Lemma udivmoddi4_eq a b rem : in_u 64 a -> in_u 64 b -> b <> 0 ->
  udivmoddi4 a b rem = answer rem (a mod b) (a / b).
Proof.
  intros Ha Hb Hz. unfold udivmoddi4. cbv zeta.
  pose proof (hi_lo a) as Ea. pose proof (hi_lo b) as Eb.
  pose proof (lo_range a). pose proof (lo_range b). pose proof (hi_range b Hb).
  destruct (Z.eqb_spec (hi a) 0) as [Ha0|Ha0].
  - rewrite Ha0, Z.add_0_l in Ea. rewrite <- Ea. destruct (Z.eqb_spec (hi b) 0) as [Hb0|Hb0].
    + rewrite Hb0, Z.add_0_l in Eb. rewrite <- Eb. unfold urem, udiv.
      rewrite (proj2 (Z.eqb_neq b 0) Hz). by destruct rem.
    + apply answer_small. lia.
  - destruct (Z.eqb_spec (lo b) 0) as [Hl|Hl].
    + apply udivmod_low0_eq; try done. intros E. rewrite E, Hl in Eb. done.
    + destruct (Z.eqb_spec (hi b) 0).
      * by apply udivmod_high0_eq.
      * by apply udivmod_full_eq.
Qed.

(** [(x ^ s) - s] with [s] the sign mask. *)
Lemma di_abs_eq x : - 2 ^ 63 < x < 2 ^ 63 -> di_abs x (Z.shiftr x 63) = Ok (Z.abs x).
Proof.
  intros Hx. unfold di_abs, di_sub, di_check. rewrite Z.shiftr_div_pow2 by lia.
  destruct (Z.ltb_spec x 0).
  - assert (x / 2 ^ 63 = -1) as -> by (symmetry; apply Z.div_unique with (x + 2 ^ 63); lia).
    rewrite Z.lxor_m1_r. unfold Z.lnot.
    replace (Z.pred (- x) - -1) with (Z.abs x) by lia.
    by rewrite (proj2 (Z.leb_le _ _)), (proj2 (Z.ltb_lt _ _)) by lia.
  - rewrite Z.div_small by lia. rewrite Z.lxor_0_r, Z.sub_0_r.
    replace x with (Z.abs x) at 1 2 by lia.
    rewrite (proj2 (Z.leb_le _ _)), (proj2 (Z.ltb_lt _ _)) by lia. cbn. f_equal. lia.
Qed.

(** Negation of an unsigned word by a sign mask. *)
Lemma cond_neg q s : in_u 64 q -> s = 0 \/ s = -1 ->
  s64 (Z.lxor q (u64 s) - u64 s) = s64 (if s =? 0 then q else - q).
Proof.
  intros Hq [-> | ->]; simpl (_ =? _).
  - change (u64 0) with 0. by rewrite Z.lxor_0_r, Z.sub_0_r.
  - apply sgn_congr. change (u64 (-1)) with (Z.ones 64).
    assert (Z.lxor q (Z.ones 64) = Z.ones 64 - q) as ->.
    { rewrite Z.sub_nocarry_ldiff; [apply Z.bits_inj'; intros i Hi|apply Z.bits_inj'; intros i Hi].
      - rewrite Z.lxor_spec, Z.ldiff_spec. destruct (Z.ltb_spec i 64).
        + rewrite Z.ones_spec_low by lia. by destruct (Z.testbit q i).
        + rewrite Z.ones_spec_high by lia. rewrite <- (Z.mod_small q (2 ^ 64)) by done.
          by rewrite Z.mod_pow2_bits_high by lia.
      - rewrite Z.ldiff_spec, Z.bits_0. destruct (Z.ltb_spec i 64).
        + rewrite Z.ones_spec_low by lia. apply andb_false_r.
        + rewrite <- (Z.mod_small q (2 ^ 64)) by done. by rewrite Z.mod_pow2_bits_high by lia. }
    f_equal. change (Z.ones 64) with (2 ^ 64 - 1). lia.
Qed.

Lemma sign_mask x : - 2 ^ 63 <= x < 2 ^ 63 -> Z.shiftr x 63 = if x <? 0 then -1 else 0.
Proof.
  intros Hx. rewrite Z.shiftr_div_pow2 by lia. destruct (Z.ltb_spec x 0).
  - symmetry. apply Z.div_unique with (x + 2 ^ 63); lia.
  - apply Z.div_small. lia.
Qed.

Lemma quot_abs a b : b <> 0 ->
  Z.quot a b = (if xorb (a <? 0) (b <? 0) then -1 else 1) * (Z.abs a / Z.abs b).
Proof.
  intros Hb. rewrite Z.quot_div by done.
  destruct (Z.ltb_spec a 0), (Z.ltb_spec b 0); cbn [xorb].
  all: rewrite ?(Z.sgn_neg b), ?(Z.sgn_pos b), ?(Z.sgn_neg a) by lia; try lia.
  all: destruct (Z.eq_dec a 0) as [->|]; [by rewrite Z.div_0_l by lia|].
  all: rewrite (Z.sgn_pos a) by lia; lia.
Qed.

Lemma divdi3_eq a b : - 2 ^ 63 < a < 2 ^ 63 -> - 2 ^ 63 < b < 2 ^ 63 -> b <> 0 ->
  divdi3 a b = Ok (Z.quot a b).
Proof.
  intros Ha Hb Hz. unfold divdi3, bits_in_dword_m1. rewrite !di_abs_eq by lia.
  cbn [mbind result_bind]. rewrite !(wrap_id 64 (Z.abs _)) by (unfold in_u; lia).
  rewrite udivmoddi4_eq by (unfold in_u; lia). cbn [mbind result_bind answer].
  set (q := Z.abs a / Z.abs b).
  assert (0 <= q <= Z.abs a) as Hq.
  { split; [apply Z.div_pos; lia|]. apply Z.div_le_upper_bound; nia. }
  rewrite cond_neg; [|unfold in_u; lia|].
  2:{ rewrite !sign_mask by lia. destruct (a <? 0), (b <? 0); auto. }
  unfold mret, result_ret. f_equal. rewrite quot_abs by done. fold q. rewrite !sign_mask by lia.
  destruct (a <? 0), (b <? 0); cbn [xorb];
    match goal with |- context [Z.lxor ?x ?y =? 0] =>
      let b := eval vm_compute in (Z.lxor x y =? 0) in change (Z.lxor x y =? 0) with b
    end; rewrite sgn_id; lia.
Qed.

Lemma moddi3_eq a b : - 2 ^ 63 < a < 2 ^ 63 -> - 2 ^ 63 < b < 2 ^ 63 -> b <> 0 ->
  moddi3 a b = Ok (Z.rem a b).
Proof.
  intros Ha Hb Hz. unfold moddi3, bits_in_dword_m1. rewrite !di_abs_eq by lia.
  cbn [mbind result_bind]. rewrite !(wrap_id 64 (Z.abs _)) by (unfold in_u; lia).
  rewrite udivmoddi4_eq by (unfold in_u; lia). cbn [mbind result_bind answer default].
  unfold id. pose proof (Z.mod_pos_bound (Z.abs a) (Z.abs b)) as Hr. rewrite sgn_small by lia.
  rewrite Z.rem_mod by done. set (r := Z.abs a mod Z.abs b) in *.
  rewrite sign_mask by lia. unfold di_sub, di_check. destruct (Z.ltb_spec a 0).
  - rewrite Z.lxor_m1_r. unfold Z.lnot. rewrite Z.sgn_neg by lia.
    rewrite (proj2 (Z.leb_le _ _)), (proj2 (Z.ltb_lt _ _)) by lia. cbn [andb]. f_equal. lia.
  - rewrite Z.lxor_0_r, Z.sub_0_r. rewrite (proj2 (Z.leb_le _ _)), (proj2 (Z.ltb_lt _ _)) by lia.
    cbn [andb]. f_equal. destruct (Z.eq_dec a 0) as [->|].
    + unfold r. by rewrite Z.mod_0_l by lia.
    + rewrite Z.sgn_pos by lia. lia.
Qed.

(** * Theorems *)

(** C18. [__udivmoddi4] divides: for every two unsigned 64-bit numbers with a divisor
    other than zero it returns the quotient, stores the remainder when asked to, and
    performs no undefined shift or division on the way. [__udivdi3] and [__umoddi3]
    return the two halves of that answer. *)
Theorem udivmoddi4_correct a b rem : in_u 64 a -> in_u 64 b -> b <> 0 ->
  udivmoddi4 a b rem = Ok (a / b, if rem then Some (a mod b) else None) /\
  udivdi3 a b = Ok (a / b) /\ umoddi3 a b = Ok (a mod b).
Proof.
  intros Ha Hb Hz. unfold udivdi3, umoddi3. by rewrite !udivmoddi4_eq.
Qed.

(** Signed division truncates towards zero and the remainder has the sign of the
    dividend, for operands other than the least [di_int] (whose negation overflows)
    and a divisor other than zero; [__divmoddi4] gives both. *)
Theorem divmoddi_correct a b : - 2 ^ 63 < a < 2 ^ 63 -> - 2 ^ 63 < b < 2 ^ 63 -> b <> 0 ->
  divdi3 a b = Ok (Z.quot a b) /\ moddi3 a b = Ok (Z.rem a b) /\
  divmoddi4 a b = Ok (Z.quot a b, Z.rem a b).
Proof.
  intros Ha Hb Hz. pose proof (divdi3_eq a b Ha Hb Hz) as E.
  split_and!; [done|by apply moddi3_eq|].
  unfold divmoddi4. rewrite E. cbn [mbind result_bind].
  assert (0 <= Z.abs a / Z.abs b * Z.abs b <= Z.abs a) as Hm.
  { split; [apply Z.mul_nonneg_nonneg; [apply Z.div_pos|]; lia|].
    rewrite Z.mul_comm. apply Z.mul_div_le. lia. }
  assert (- Z.abs a <= Z.quot a b * b <= Z.abs a) as Hp.
  { rewrite quot_abs by done. destruct (Z.ltb_spec a 0), (Z.ltb_spec b 0); cbn [xorb]; lia. }
  pose proof (Z.quot_rem a b Hz) as Er. pose proof (Z.rem_bound_abs a b Hz) as Hr.
  unfold di_mul, di_sub, di_check.
  rewrite (proj2 (Z.leb_le _ _)), (proj2 (Z.ltb_lt _ _)) by lia. cbn [andb mbind result_bind].
  replace (a - Z.quot a b * b) with (Z.rem a b) by lia.
  by rewrite (proj2 (Z.leb_le _ _)), (proj2 (Z.ltb_lt _ _)) by lia.
Qed.

Lemma hi_u64 a : hi (u64 a) = u32 (Z.shiftr a 32).
Proof.
  rewrite hi_div, Z.shiftr_div_pow2 by lia. unfold wrap. change (2 ^ 64) with (2 ^ 32 * 2 ^ 32).
  rewrite Z.rem_mul_r, Z.mul_comm, Z.div_add, Z.div_small by (lia || by apply Z.mod_pos_bound).
  lia.
Qed.

Lemma u64_words a : u64 a = u32 (Z.shiftr a 32) * 2 ^ 32 + u32 a.
Proof.
  rewrite (hi_lo (u64 a)), hi_u64. unfold lo. by rewrite wrap_wrap_le by lia.
Qed.

Lemma s32_zero x : s32 x = 0 <-> u32 x = 0.
Proof.
  split; intros E; [|by unfold sgn; rewrite E].
  by rewrite <- wrap_sgn, E.
Qed.

Lemma clzdi2_eq a : - 2 ^ 63 <= a < 2 ^ 63 -> a <> 0 -> clzdi2 a = 63 - Z.log2 (u64 a).
Proof.
  intros Ha Hz. unfold clzdi2. cbv zeta. pose proof (u64_words a) as E.
  pose proof (wrap_range 32 a). pose proof (wrap_in_u 64 a ltac:(lia)) as Hu.
  assert (u64 a <> 0).
  { destruct (Z.ltb_spec a 0); [rewrite <- (wrap_shift 64 _ 1)|];
      rewrite wrap_id; unfold in_u; lia. }
  destruct (Z.eqb_spec (s32 (Z.shiftr a 32)) 0) as [E0|E0]; cbn [b2z].
  - apply s32_zero in E0 as E1. rewrite E0. rewrite E1, Z.mul_0_l, Z.add_0_l in E.
    change (u32 (- (1))) with (Z.ones 32). rewrite Z.land_0_l, Z.land_ones by lia.
    change (u32 0) with 0. rewrite Z.lor_0_l, Z.mod_small by lia.
    rewrite clzsi2_small by lia. rewrite E. change (Z.land (- (1)) 32) with 32. lia.
  - assert (hi (u64 a) <> 0) as Hh by (rewrite hi_u64, <- s32_zero; done).
    destruct (log2_hi _ Hu Hh) as [Hr ->].
    change (Z.lnot (-0)) with (-1). rewrite Z.land_m1_r, wrap_sgn. change (u32 (-0)) with 0.
    rewrite Z.land_0_r, Z.lor_0_r, <- hi_u64, clzsi2_small by lia. change (Z.land (-0) 32) with 0. lia.
Qed.

Lemma testbit_u32 a i : i < 32 -> Z.testbit (u32 a) i = Z.testbit a i.
Proof.
  intros. destruct (Z.ltb_spec i 0); [by rewrite !Z.testbit_neg_r by lia|].
  by apply Z.mod_pow2_bits_low.
Qed.

Lemma ctzdi2_eq a : - 2 ^ 63 <= a < 2 ^ 63 -> a <> 0 ->
  Z.testbit a (ctzdi2 a) = true /\ forall i, i < ctzdi2 a -> Z.testbit a i = false.
Proof.
  intros Ha Hz. unfold ctzdi2. cbv zeta. pose proof (u64_words a) as E.
  pose proof (wrap_range 32 a). pose proof (wrap_range 32 (Z.shiftr a 32)).
  assert (u64 a <> 0).
  { destruct (Z.ltb_spec a 0); [rewrite <- (wrap_shift 64 _ 1)|];
      rewrite wrap_id; unfold in_u; lia. }
  destruct (Z.eqb_spec (u32 a) 0) as [E0|E0]; cbn [b2z].
  - change (Z.lnot (- (1))) with 0. change (u32 0) with 0. rewrite Z.land_0_r, Z.lor_0_r.
    change (- (1)) with (-1). rewrite Z.land_m1_r, wrap_sgn. change (Z.land (-1) 32) with 32.
    destruct (ctzsi2_small (u32 (Z.shiftr a 32))) as [T L]; [lia|].
    set (r := ctzsi2 _) in *. pose proof T as [? _]. apply tz_testbit in T as [T1 T2].
    rewrite testbit_u32, Z.shiftr_spec in T1 by lia. split; [done|]. intros i Hi.
    destruct (Z.ltb_spec i 32).
    + rewrite <- testbit_u32, E0 by lia. apply Z.bits_0.
    + specialize (T2 (i - 32)). rewrite testbit_u32, Z.shiftr_spec in T2 by lia.
      replace i with (i - 32 + 32) by lia. apply T2. lia.
  - change (-0) with 0. change (u32 (Z.lnot 0)) with (Z.ones 32).
    rewrite Z.land_0_r, Z.land_ones by lia. change (u32 0) with 0.
    rewrite Z.lor_0_l, Z.mod_small by lia. cbn [Z.land]. rewrite Z.add_0_r.
    destruct (ctzsi2_small (u32 a)) as [T L]; [lia|]. apply tz_testbit in T as [T1 T2].
    rewrite testbit_u32 in T1 by lia. split; [done|]. intros i Hi.
    specialize (T2 i Hi). by rewrite testbit_u32 in T2 by lia.
Qed.

(** The bit scans count zeros: [__clzsi2] and [__clzdi2] count the zeros above the
    highest set bit of a 32-bit and a 64-bit number, [__ctzsi2] and [__ctzdi2] return
    the position of the lowest set bit. *)
Theorem bit_scan_correct a : - 2 ^ 63 <= a < 2 ^ 63 -> a <> 0 ->
  clzdi2 a = 63 - Z.log2 (u64 a) /\
  (Z.testbit a (ctzdi2 a) = true /\ forall i, i < ctzdi2 a -> Z.testbit a i = false) /\
  (0 < a < 2 ^ 32 -> clzsi2 a = 31 - Z.log2 a /\ tz a (ctzsi2 a)).
Proof.
  intros Ha Hz. split; [by apply clzdi2_eq|]. split; [by apply ctzdi2_eq|].
  intros. split; [by apply clzsi2_small|by apply ctzsi2_small].
Qed.

Module Int64Witness.

Lemma udivmoddi4_correct_witness :
  udivmoddi4 (2 ^ 64 - 1) (3 * 2 ^ 32 + 1) true = Ok (1431655765, Some 2863311530).
Proof.
  assert (in_u 64 (2 ^ 64 - 1)) as H1 by (unfold in_u; lia).
  assert (in_u 64 (3 * 2 ^ 32 + 1)) as H2 by (unfold in_u; lia).
  assert (3 * 2 ^ 32 + 1 <> 0) as H3 by lia.
  destruct (udivmoddi4_correct _ _ true H1 H2 H3) as [E _]. rewrite E. vm_compute. reflexivity.
Defined.

Lemma divmoddi_correct_witness : divmoddi4 (-1000000000007) 7 = Ok (-142857142858, -1).
Proof.
  assert (- 2 ^ 63 < -1000000000007 < 2 ^ 63) as H1 by lia.
  assert (- 2 ^ 63 < 7 < 2 ^ 63) as H2 by lia.
  assert (7 <> 0) as H3 by lia.
  destruct (divmoddi_correct _ _ H1 H2 H3) as (_ & _ & E). rewrite E. vm_compute. reflexivity.
Defined.

Lemma bit_scan_correct_witness : clzdi2 0x500000000 = 29 /\ clzsi2 40 = 26.
Proof.
  split.
  - assert (- 2 ^ 63 <= 0x500000000 < 2 ^ 63) as H1 by lia.
    assert (0x500000000 <> 0) as H2 by lia.
    destruct (bit_scan_correct _ H1 H2) as (E & _). rewrite E. vm_compute. reflexivity.
  - assert (- 2 ^ 63 <= 40 < 2 ^ 63) as H1 by lia.
    assert (40 <> 0) as H2 by lia. assert (0 < 40 < 2 ^ 32) as H3 by lia.
    destruct (bit_scan_correct _ H1 H2) as (_ & _ & E). destruct (E H3) as [E1 _].
    rewrite E1. vm_compute. reflexivity.
Defined.

End Int64Witness.
