(* ===== verification/Digits.v ===== *)
(** Positional notation: the digits of a number, and the two loops by which the
    repository's C code counts and prints them ([klib/src/stdio.c] and
    [nemu/tools/gen-expr/gen-expr.c]). *)

From S2P Require Import Prelude.

(** [while (num != 0) { num /= base; cnt ++; }], at most [fuel] rounds. *)
Fixpoint len_loop (fuel : nat) (base num cnt : Z) : Z :=
  match fuel with
  | O => cnt
  | S fuel => if negb (num =? 0) then len_loop fuel base (num / base) (cnt + 1) else cnt
  end.

(** The digits of [x], most significant first; none for zero. *)
Fixpoint digits_of (fuel : nat) (b x : Z) : list Z :=
  match fuel with
  | O => []
  | S fuel => if x =? 0 then [] else digits_of fuel b (x / b) ++ [x mod b]
  end.

Definition number (b : Z) (ds : list Z) : Z := foldl (fun acc d => acc * b + d) 0 ds.

(** The numbers that the digit loop divides out, in the order it prints them. *)
Fixpoint quots (b : Z) (n : nat) (x : Z) : list Z :=
  match n with
  | O => []
  | S j => Nat.iter j (fun t => t / b) x :: quots b j x
  end.

Lemma quots_snoc b n x : quots b (S n) x = quots b n (x / b) ++ [x].
Proof.
  revert x. induction n as [|n IH]; intros x; [done|].
  change (quots b (S (S n)) x) with (Nat.iter (S n) (fun t => t / b) x :: quots b (S n) x).
  rewrite IH, Nat.iter_succ_r. done.
Qed.

Lemma quots_digits {A} fuel b (char : Z -> A) x : (forall t, char (t mod b) = char t) ->
  map char (quots b (length (digits_of fuel b x)) x) = map char (digits_of fuel b x).
Proof.
  intros Hc. revert x. induction fuel as [|fuel IH]; intros x; cbn [digits_of]; [done|].
  destruct (x =? 0); [done|]. rewrite length_app, Nat.add_comm. cbn [length Nat.add].
  rewrite quots_snoc, !map_app, IH. simpl. by rewrite Hc.
Qed.

Lemma number_app b ds d : number b (ds ++ [d]) = number b ds * b + d.
Proof. unfold number. by rewrite foldl_app. Qed.

Lemma digits_of_number fuel b x : 1 < b -> 0 <= x < b ^ Z.of_nat fuel ->
  number b (digits_of fuel b x) = x.
Proof.
  intros Hb. revert x. induction fuel as [|fuel IH]; intros x Hx; cbn [digits_of].
  - change (b ^ Z.of_nat 0) with 1 in Hx. cbn. lia.
  - destruct (Z.eqb_spec x 0) as [->|]; [done|].
    rewrite Nat2Z.inj_succ, Z.pow_succ_r in Hx by lia. rewrite number_app, IH.
    + pose proof (Z.div_mod x b). lia.
    + split; [apply Z.div_pos; lia|]. apply Z.div_lt_upper_bound; lia.
Qed.

Lemma digits_of_range fuel b x : 1 < b -> Forall (fun d => 0 <= d < b) (digits_of fuel b x).
Proof.
  intros Hb. revert x. induction fuel as [|fuel IH]; intros x; cbn [digits_of]; [done|].
  destruct (x =? 0); [done|]. apply Forall_app. split; [done|]. constructor; [|done].
  apply Z.mod_pos_bound. lia.
Qed.

(** No leading zero. *)
Lemma digits_of_head fuel b x d ds : 1 < b -> 0 <= x < b ^ Z.of_nat fuel ->
  digits_of fuel b x = d :: ds -> d <> 0.
Proof.
  intros Hb. revert x d ds. induction fuel as [|fuel IH]; intros x d ds Hx; cbn [digits_of]; [done|].
  destruct (Z.eqb_spec x 0); [done|].
  rewrite Nat2Z.inj_succ, Z.pow_succ_r in Hx by lia.
  assert (0 <= x / b < b ^ Z.of_nat fuel) as Hq.
  { split; [apply Z.div_pos; lia|]. apply Z.div_lt_upper_bound; lia. }
  destruct (digits_of fuel b (x / b)) as [|e es] eqn:E; cbn [app].
  - intros [= <- <-]. pose proof (digits_of_number fuel b (x / b) Hb Hq) as N. rewrite E in N.
    cbn in N. pose proof (Z.div_mod x b). lia.
  - intros [= <- <-]. by eapply IH.
Qed.

Lemma len_loop_eq fuel b x cnt : len_loop fuel b x cnt = cnt + Z.of_nat (length (digits_of fuel b x)).
Proof.
  revert x cnt. induction fuel as [|fuel IH]; intros x cnt; cbn [len_loop digits_of]; [simpl; lia|].
  destruct (x =? 0); cbn [negb]; [simpl; lia|]. rewrite IH, length_app. simpl. lia.
Qed.

Lemma digits_of_length fuel b x (k : nat) : 1 < b -> 0 <= x < b ^ Z.of_nat k ->
  (length (digits_of fuel b x) <= k)%nat.
Proof.
  intros Hb. revert x k. induction fuel as [|fuel IH]; intros x k Hx; cbn [digits_of]; [simpl; lia|].
  destruct (Z.eqb_spec x 0); [simpl; lia|]. destruct k as [|k].
  { change (b ^ Z.of_nat 0) with 1 in Hx. lia. }
  rewrite Nat2Z.inj_succ, Z.pow_succ_r in Hx by lia. rewrite length_app. simpl.
  pose proof (IH (x / b) k). assert (0 <= x / b < b ^ Z.of_nat k); [|lia].
  split; [apply Z.div_pos; lia|]. apply Z.div_lt_upper_bound; lia.
Qed.
