(* ===== verification/GenExpr.v ===== *)
(** The random expression generator ([nemu/tools/gen-expr/gen-expr.c]), whose output
    tests the debugger's evaluator ([test_expr] of [nemu-main.c]).

    [rnd k] is the value of the [k]-th call of [rand]; the C library promises that it
    is not negative. The recursion of [gen_rand_expr] is bounded by the counter
    [cnt]: below 100 a call recurses with a larger counter, from 100 on it does not,
    so [100 - cnt] levels of fuel are enough. *)

From S2P Require Import Prelude Config Machine HostMem Region IoMap Paddr Isa Expr ExprSpec Digits.
From Stdlib Require Import Ascii.

Local Open Scope Z_scope.

(** * The generator *)

Definition BUF_SIZE : nat := Z.to_nat 65536.

Record GenState : Type := mkGen { buf : list ascii; position : nat; gcnt : Z; calls : nat }.
#[global] Instance eta_GenState : Eta GenState :=
  fun x => mkGen (buf x) (position x) (gcnt x) (calls x).

Section Gen.
Context (rnd : nat -> Z).

Definition rand : M GenState Z := fun s => Ok (rnd (calls s), s <| calls := S (calls s) |>).

(** [buf[position] = c]. *)
Definition poke (c : ascii) : M GenState unit := fun s =>
  if (position s <? BUF_SIZE)%nat then Ok (tt, s <| buf := <[position s := c]> (buf s) |>)
  else Abort (AUndef "buf overflow").

(** Also [buf[position] = c; position ++] of the other functions. *)
Definition gen (ch : ascii) : M GenState unit :=
  poke ch ;; modify (fun s => s <| position := S (position s) |>).

(** Ten rounds are enough for a 32-bit number. *)
Definition cnt_num (num : Z) : Z := len_loop 10 10 num 0.

Definition digit (tmp : Z) : ascii := ascii_of_nat (Z.to_nat (tmp mod 10 + 48)).

(** [for(int i = cnt-1; i >= 0; i --)]. *)
Fixpoint num_loop (i : nat) (num : Z) : M GenState unit :=
  match i with
  | O => mret tt
  | S j =>
      let tmp := Nat.iter j (fun t => t / 10) num in
      gen (digit tmp) ;;
      num_loop j num
  end.

Definition gen_num : M GenState Z :=
  r ← rand;
  let num := Z.rem r 1000000 in
  num_loop (Z.to_nat (cnt_num num)) num ;;
  gen "u"%char ;;
  mret num.

(** The [switch] on a random number below 4. *)
Definition rand_op (op : Z) : option ascii :=
  if op =? 0 then Some "+"%char else if op =? 1 then Some "-"%char
  else if op =? 2 then Some "*"%char else if op =? 3 then Some "/"%char else None.

Definition gen_rand_op : M GenState ascii :=
  r ← rand;
  let op := Z.rem r 4 in
  match rand_op op with
  | Some c => gen c ;; mret c
  | None => modify (fun s => s <| position := S (position s) |>) ;; mret "000"%char
  end.

Definition choose (num : Z) : M GenState Z := r ← rand; mret (Z.rem r num).

(** The [switch] on the operator, at the end of a binary expression: a zero divisor is
    replaced by [1]. *)
Definition combine (op : ascii) (start_pos : nat) (ret3 ret4 : Z) : M GenState Z :=
  if Ascii.eqb op "+" then mret (u32 (ret3 + ret4))
  else if Ascii.eqb op "-" then mret (u32 (ret3 - ret4))
  else if Ascii.eqb op "*" then mret (u32 (ret3 * ret4))
  else if Ascii.eqb op "/" then
    if ret4 =? 0 then
      modify (fun s => s <| position := start_pos |>) ;;
      gen "1"%char ;;
      poke "000"%char ;;
      mret ret3
    else mret (ret3 / ret4)
  else mret 0.

Fixpoint gen_rand_expr (fuel : nat) : M GenState Z :=
  match fuel with
  | O => undef "out of fuel"
  | S fuel =>
      modify (fun s => s <| gcnt := gcnt s + 1 |>) ;;
      cnt ← gets gcnt;
      if cnt <? 100 then
        c ← choose 3;
        if c =? 0 then gen_num
        else if c =? 1 then gen_rand_expr fuel
        else
          gen "("%char ;;
          ret3 ← gen_rand_expr fuel;
          gen ")"%char ;;
          op ← gen_rand_op;
          start_pos ← gets position;
          gen "("%char ;;
          ret4 ← gen_rand_expr fuel;
          gen ")"%char ;;
          combine op start_pos ret3 ret4
      else gen_num
  end.

(** One round of [main], up to the terminated text. *)
Definition gen_one : M GenState Z :=
  modify (fun s => s <| position := 0%nat |>) ;;
  modify (fun s => s <| gcnt := 0 |>) ;;
  v ← gen_rand_expr 100;
  poke "000"%char ;;
  mret v.

End Gen.

(** * Expressions of the generator *)

Inductive gexp : Type :=
| GNum (n : Z)
| GBin (o : binop) (l r : gexp)
| GDiv1 (l : gexp).

Definition op_char (o : binop) : ascii :=
  match o with Add => "+" | Sub => "-" | Mul => "*" | _ => "/" end%char.

Definition num_text (n : Z) : list ascii := map digit (digits_of 10 10 n).

Fixpoint gtext (e : gexp) : list ascii :=
  match e with
  | GNum n => num_text n ++ ["u"%char]
  | GBin o l r => "("%char :: gtext l ++ ")"%char :: op_char o :: "("%char :: gtext r ++ [")"%char]
  | GDiv1 l => "("%char :: gtext l ++ [")"%char; "/"%char; "1"%char]
  end.

(** The value in C's unsigned arithmetic. *)
Fixpoint gval (e : gexp) : Z :=
  match e with
  | GNum n => n
  | GBin o l r => bin_sem o (gval l) (gval r)
  | GDiv1 l => gval l
  end.

(** Literals are in range and no divisor is zero. *)
Fixpoint gwf (e : gexp) : Prop :=
  match e with
  | GNum n => 0 <= n < 1000000
  | GBin o l r => gwf l /\ gwf r /\ (o = Add \/ o = Sub \/ o = Mul \/ o = Div /\ gval r <> 0)
  | GDiv1 l => gwf l
  end.

(** No literal is zero. *)
Fixpoint nonzero_lits (e : gexp) : bool :=
  match e with
  | GNum n => negb (n =? 0)
  | GBin _ l r => nonzero_lits l && nonzero_lits r
  | GDiv1 l => nonzero_lits l
  end.

(** The expression as the debugger reads it. *)
Fixpoint gast (e : gexp) : ast :=
  match e with
  | GNum n => Dec n
  | GBin o l r => Bin o (Paren (gast l)) (Paren (gast r))
  | GDiv1 l => Bin Div (Paren (gast l)) (Dec 1)
  end.

(** * Writing the text *)

#[local] Opaque BUF_SIZE.

Definition gok (s : GenState) : Prop := length (buf s) = BUF_SIZE.

Definition wrote (s s' : GenState) (txt : list ascii) : Prop :=
  gok s' /\ position s' = (position s + length txt)%nat /\
  take (position s') (buf s') = take (position s) (buf s) ++ txt.

Lemma wrote_refl s : gok s -> wrote s s [].
Proof. intros H. split_and!; [done|simpl; lia|by rewrite app_nil_r]. Qed.

Lemma wrote_trans s1 s2 s3 a b : wrote s1 s2 a -> wrote s2 s3 b -> wrote s1 s3 (a ++ b).
Proof.
  intros (? & P1 & T1) (? & P2 & T2). split_and!; [done|rewrite length_app; lia|].
  by rewrite T2, T1, <- app_assoc.
Qed.

(** Only the text, the position and the buffer matter. *)
Lemma wrote_ext s1 s1' s2 s2' a : buf s1 = buf s1' -> position s1 = position s1' ->
  buf s2 = buf s2' -> position s2 = position s2' -> wrote s1' s2' a -> wrote s1 s2 a.
Proof. unfold wrote, gok. intros -> -> -> ->. done. Qed.

Lemma poke_run c s : (position s < BUF_SIZE)%nat ->
  poke c s = Ok (tt, s <| buf := <[position s := c]> (buf s) |>).
Proof. intros H. unfold poke. by apply Nat.ltb_lt in H as ->. Qed.

Lemma gen_run c s : gok s -> (position s < BUF_SIZE)%nat ->
  exists s', gen c s = Ok (tt, s') /\ wrote s s' [c] /\ gcnt s' = gcnt s /\ calls s' = calls s.
Proof.
  intros Hg Hp. unfold gen. rewrite (bind_run _ _ _ _ _ (poke_run c s Hp)). eexists. split; [done|].
  split; [|done]. unfold wrote, gok in *. cbn. rewrite length_insert.
  split_and!; [done|simpl; lia|].
  rewrite (take_S_r _ _ c); [|apply list_lookup_insert_eq; lia]. by rewrite take_insert_ge by lia.
Qed.

(** * The numbers and operators that are written *)

Lemma num_loop_run n num s : gok s -> (position s + n < BUF_SIZE)%nat ->
  exists s', num_loop n num s = Ok (tt, s') /\ wrote s s' (map digit (quots 10 n num)) /\
    gcnt s' = gcnt s /\ calls s' = calls s.
Proof.
  revert s. induction n as [|n IH]; intros s Hg Hp; cbn [num_loop quots map].
  - exists s. split_and!; try done. by apply wrote_refl.
  - destruct (gen_run (digit (Nat.iter n (fun t => t / 10) num)) s) as (s1 & E1 & W1 & C1 & K1); [done|lia|].
    pose proof W1 as (G1 & P1 & _). simpl in P1.
    destruct (IH s1) as (s2 & E2 & W2 & C2 & K2); [done|lia|].
    exists s2. rewrite (bind_run _ _ _ _ _ E1). split_and!; try done; try congruence.
    by apply (wrote_trans _ _ _ [_] _ W1 W2).
Qed.

Lemma num_digits n : 0 <= n < 1000000 ->
  (length (digits_of 10 10 n) <= 6)%nat /\
  map digit (quots 10 (Z.to_nat (cnt_num n)) n) = num_text n.
Proof.
  intros Hn. unfold cnt_num. rewrite len_loop_eq, Z.add_0_l, Nat2Z.id. split.
  - by apply (digits_of_length 10 10 n 6).
  - apply quots_digits. intros t. unfold digit. by rewrite Z.mod_mod.
Qed.

Section Run.
Context (rnd : nat -> Z).
Hypothesis Hrnd : forall k, 0 <= rnd k.

Lemma gen_num_run s : gok s -> (position s + 7 < BUF_SIZE)%nat ->
  exists n s', gen_num rnd s = Ok (n, s') /\ 0 <= n < 1000000 /\ wrote s s' (gtext (GNum n)) /\
    gcnt s' = gcnt s.
Proof.
  intros Hg Hp. unfold gen_num. rewrite (bind_run _ _ _ _ _ eq_refl). cbv zeta.
  set (n := Z.rem (rnd (calls s)) 1000000). set (s1 := s <| calls := S (calls s) |>).
  assert (0 <= n < 1000000) as Hn by (apply Z.rem_bound_pos; [apply Hrnd|lia]).
  destruct (num_digits n Hn) as [Hl Ed].
  assert (Z.to_nat (cnt_num n) <= 6)%nat by (unfold cnt_num; rewrite len_loop_eq; lia).
  destruct (num_loop_run (Z.to_nat (cnt_num n)) n s1) as (s2 & E2 & W2 & C2 & _);
    [done|change (position s1) with (position s); lia|].
  rewrite Ed in W2. pose proof W2 as (G2 & P2 & _). unfold num_text in P2. rewrite length_map in P2.
  change (position s1) with (position s) in P2. destruct (gen_run "u" s2) as (s3 & E3 & W3 & C3 & _); [done|lia|].
  exists n, s3. rewrite (bind_run _ _ _ _ _ E2), (bind_run _ _ _ _ _ E3).
  split_and!; try done; [lia|lia| |by rewrite C3, C2].
  cbn [gtext]. apply (wrote_trans _ s2); [|done]. by apply (wrote_ext _ s1 _ s2).
Qed.

Lemma rand_op_cases r : 0 <= r ->
  exists o, rand_op (Z.rem r 4) = Some (op_char o) /\ (o = Add \/ o = Sub \/ o = Mul \/ o = Div).
Proof.
  intros Hr. assert (0 <= Z.rem r 4 < 4) by (apply Z.rem_bound_pos; lia).
  assert (Z.rem r 4 = 0 \/ Z.rem r 4 = 1 \/ Z.rem r 4 = 2 \/ Z.rem r 4 = 3) as
    [->|[->|[->| ->]]] by lia; [exists Add|exists Sub|exists Mul|exists Div]; auto.
Qed.

Lemma gen_rand_op_run s : gok s -> (position s < BUF_SIZE)%nat ->
  exists o s', gen_rand_op rnd s = Ok (op_char o, s') /\ (o = Add \/ o = Sub \/ o = Mul \/ o = Div) /\
    wrote s s' [op_char o] /\ gcnt s' = gcnt s.
Proof.
  intros Hg Hp. unfold gen_rand_op. rewrite (bind_run _ _ _ _ _ eq_refl). cbv zeta.
  destruct (rand_op_cases (rnd (calls s))) as (o & -> & Ho); [apply Hrnd|].
  destruct (gen_run (op_char o) (s <| calls := S (calls s) |>)) as (s1 & E1 & W1 & C1 & _); [done|done|].
  exists o, s1. rewrite (bind_run _ _ _ _ _ E1). split_and!; done.
Qed.

(** The most calls of [gen_rand_expr] that one call can make, itself included. *)
Definition budget (c : Z) : Z := 2 * Z.max 0 (99 - c) + 1.

(** What a call leaves: it has written an expression and returned its value. *)
Definition produces (s : GenState) (r : result (Z * GenState)) : Prop :=
  exists e s', r = Ok (gval e, s') /\ wrote s s' (gtext e) /\ gwf e /\
    let k := gcnt s' - gcnt s in
    1 <= k <= budget (gcnt s) /\ Z.of_nat (length (gtext e)) <= 7 * k /\
    Z.of_nat (length (tokens (gast e))) <= 6 * k.

(** Room for the text of a call and the terminator. *)
Definition room (s : GenState) : Prop :=
  Z.of_nat (position s) + 7 * budget (gcnt s) < Z.of_nat BUF_SIZE.

Lemma produces_num s s0 : gok s -> (position s + 7 < BUF_SIZE)%nat ->
  position s0 = position s -> buf s0 = buf s -> gcnt s = gcnt s0 + 1 ->
  produces s0 (gen_num rnd s).
Proof.
  intros Hg Hp Ep Eb Ec. destruct (gen_num_run s Hg Hp) as (n & s' & E & Hn & W & C).
  exists (GNum n), s'. split; [done|]. split; [by apply (wrote_ext _ s _ s')|]. split; [done|].
  cbv zeta. destruct (num_digits n Hn) as [Hl _]. cbn [gtext gast tokens length]. unfold num_text.
  rewrite length_app, length_map. cbn [length]. rewrite C, Ec. unfold budget. lia.
Qed.

(** A subexpression in parentheses. *)
Lemma paren_run {B} (m : M GenState Z) (K : Z -> M GenState B) s : gok s -> 
  Z.of_nat (position s) + 1 + 7 * budget (gcnt s) < Z.of_nat BUF_SIZE ->
  (forall s1, gok s1 -> gcnt s1 = gcnt s -> room s1 -> produces s1 (m s1)) ->
  exists e s', (gen "(" ;; v ← m; gen ")" ;; K v) s = K (gval e) s' /\
    wrote s s' ("("%char :: gtext e ++ [")"%char]) /\ gwf e /\
    let k := gcnt s' - gcnt s in
    1 <= k <= budget (gcnt s) /\ Z.of_nat (length (gtext e)) <= 7 * k /\
    Z.of_nat (length (tokens (gast e))) <= 6 * k.
Proof.
  intros Hg Hp Hm. assert (1 <= budget (gcnt s)) by (unfold budget; lia).
  destruct (gen_run "(" s Hg) as (s1 & E1 & W1 & C1 & _); [lia|].
  pose proof W1 as (G1 & P1 & _). cbn [length] in P1.
  destruct (Hm s1) as (e & s2 & E2 & W2 & Hwf & Hk & Hl & Ht);
    [done|done|unfold room; rewrite P1, C1; lia|].
  pose proof W2 as (G2 & P2 & _). rewrite C1 in *.
  destruct (gen_run ")" s2 G2) as (s3 & E3 & W3 & C3 & _); [lia|].
  exists e, s3. rewrite (bind_run _ _ _ _ _ E1), (bind_run _ _ _ _ _ E2), (bind_run _ _ _ _ _ E3).
  rewrite C3. split; [done|]. split; [|done].
  apply (wrote_trans _ s1 _ ["("%char]); [done|]. by apply (wrote_trans _ s2).
Qed.

(** Returning to an earlier position drops what was written after it. *)
Lemma wrote_reset s s1 s2 a b : (position s1 <= BUF_SIZE)%nat -> wrote s s1 a -> wrote s1 s2 b ->
  wrote s (s2 <| position := position s1 |>) a.
Proof.
  intros Hp (G1 & P1 & T1) (G2 & P2 & T2). split_and!; [done|done|]. cbn. rewrite <- T1.
  rewrite P2 in T2. apply (f_equal (take (position s1))) in T2.
  rewrite take_take, Nat.min_l in T2 by lia. rewrite T2.
  unfold gok in G1.
  rewrite take_app_le by (rewrite length_take; lia). by rewrite take_take, Nat.min_id.
Qed.

Lemma binop_tokens o l r : Z.of_nat (length (tokens (gast (GBin o l r)))) =
  Z.of_nat (length (tokens (gast l))) + Z.of_nat (length (tokens (gast r))) + 5.
Proof. cbn [gast tokens]. rewrite length_app. cbn [length]. rewrite !length_app. cbn [length]. lia. Qed.

Lemma div1_tokens l :
  Z.of_nat (length (tokens (gast (GDiv1 l)))) = Z.of_nat (length (tokens (gast l))) + 4.
Proof. cbn [gast tokens]. rewrite length_app. cbn [length]. rewrite !length_app. cbn [length]. lia. Qed.

Lemma binop_text o l r :
  gtext (GBin o l r) = (("("%char :: gtext l ++ [")"%char]) ++ [op_char o]) ++
    "("%char :: gtext r ++ [")"%char].
Proof. cbn [gtext app]. by rewrite <- !app_assoc. Qed.

Lemma div1_text l :
  gtext (GDiv1 l) = (("("%char :: gtext l ++ [")"%char]) ++ ["/"%char]) ++ ["1"%char].
Proof. cbn [gtext app]. by rewrite <- !app_assoc. Qed.

Lemma combine_run o s s4 s5 l r : (o = Add \/ o = Sub \/ o = Mul \/ o = Div) -> gwf l -> gwf r ->
  wrote s s4 (("("%char :: gtext l ++ [")"%char]) ++ [op_char o]) ->
  wrote s4 s5 ("("%char :: gtext r ++ [")"%char]) -> (position s4 + 1 < BUF_SIZE)%nat ->
  exists e s', combine (op_char o) (position s4) (gval l) (gval r) s5 = Ok (gval e, s') /\
    wrote s s' (gtext e) /\ gwf e /\ gcnt s' = gcnt s5 /\
    (length (gtext e) <= length (gtext l) + length (gtext r) + 5)%nat /\
    (length (tokens (gast e)) <= length (tokens (gast l)) + length (tokens (gast r)) + 5)%nat.
Proof.
  intros Ho Hl Hr W4 W5 Hp.
  assert (wrote s s5 (gtext (GBin o l r))) as W by (rewrite binop_text; by eapply wrote_trans).
  assert (length (gtext (GBin o l r)) = length (gtext l) + length (gtext r) + 5)%nat as Hlen.
  { rewrite binop_text. repeat (rewrite length_app; cbn [length]). lia. }
  pose proof (binop_tokens o l r) as Htok.
  assert (o <> Div -> combine (op_char o) (position s4) (gval l) (gval r) s5
    = Ok (gval (GBin o l r), s5)) as Hnd by (by destruct Ho as [->|[->|[->| ->]]]).
  assert (gwf (GBin o l r) -> combine (op_char o) (position s4) (gval l) (gval r) s5
    = Ok (gval (GBin o l r), s5) -> exists e s', combine (op_char o) (position s4) (gval l) (gval r) s5
      = Ok (gval e, s') /\ wrote s s' (gtext e) /\ gwf e /\ gcnt s' = gcnt s5 /\
      (length (gtext e) <= length (gtext l) + length (gtext r) + 5)%nat /\
      (length (tokens (gast e)) <= length (tokens (gast l)) + length (tokens (gast r)) + 5)%nat) as Hfin.
  { intros Hwf E. exists (GBin o l r), s5. split_and!; try done; lia. }
  destruct Ho as [->|[->|[->| ->]]]; try (apply Hfin; [cbn; tauto|by apply Hnd]).
  clear Hnd. unfold combine in *. change (op_char Div) with "/"%char in *. cbn [Ascii.eqb Bool.eqb] in *.
  destruct (Z.eqb_spec (gval r) 0) as [E0|E0].
  - rewrite (bind_run _ _ _ _ _ eq_refl).
    pose proof (wrote_reset s s4 s5 _ _ ltac:(lia) W4 W5) as WR.
    set (s6 := s5 <| position := position s4 |>) in *. pose proof WR as (G6 & _).
    destruct (gen_run "1" s6 G6) as (s7 & E7 & W7 & C7 & _); [change (position s6) with (position s4); lia|].
    pose proof W7 as (G7 & P7 & T7). cbn [length] in P7. change (position s6) with (position s4) in P7.
    rewrite (bind_run _ _ _ _ _ E7). rewrite (bind_run _ _ _ _ _ (poke_run _ s7 ltac:(lia))).
    exists (GDiv1 l), (s7 <| buf := <[position s7 := "000"%char]> (buf s7) |>).
    pose proof (div1_tokens l). pose proof (length_tokens (gast r)). split; [done|]. split.
    { rewrite div1_text. apply (wrote_trans _ s6); [done|]. split_and!; cbn.
      - unfold gok in *. cbn. by rewrite length_insert.
      - by rewrite P7.
      - by rewrite take_insert_ge by lia. }
    split_and!; try done; [|lia]. rewrite div1_text. repeat (rewrite length_app; cbn [length]). lia.
  - apply Hfin; [cbn; tauto|]. cbn [gval bin_sem]. by rewrite (proj2 (Z.eqb_neq _ _) E0).
Qed.

Lemma gen_rand_expr_run fuel s : gok s -> room s -> 99 - gcnt s < Z.of_nat fuel -> (0 < fuel)%nat ->
  produces s (gen_rand_expr rnd fuel s).
Proof.
  revert s. induction fuel as [|fuel IH]; intros s Hg Hr Hf Hpos; [lia|]. cbn [gen_rand_expr].
  rewrite (bind_run _ _ _ _ _ eq_refl), (bind_run _ _ _ _ _ eq_refl).
  set (s1 := s <| gcnt := gcnt s + 1 |>). change (gcnt s1) with (gcnt s + 1).
  unfold room in Hr. assert (1 <= budget (gcnt s)) by (unfold budget; lia).
  destruct (Z.ltb_spec (gcnt s + 1) 100).
  2:{ apply produces_num; try done. change (position s1) with (position s). lia. }
  assert (budget (gcnt s + 1) + 2 <= budget (gcnt s)) as Hb by (unfold budget; lia).
  rewrite (bind_run _ _ _ _ _ eq_refl). set (s2 := s1 <| calls := S (calls s1) |>).
  destruct (Z.rem (rnd (calls s1)) 3 =? 0).
  { apply produces_num; try done. change (position s2) with (position s). lia. }
  destruct (Z.rem (rnd (calls s1)) 3 =? 1).
  { destruct (IH s2) as (e & s' & E & W & Hwf & Hk & Hl & Ht); [done|..|lia|].
    - unfold room. change (position s2) with (position s). change (gcnt s2) with (gcnt s + 1). lia.
    - change (gcnt s2) with (gcnt s + 1). lia.
    - exists e, s'. split; [done|]. split; [done|]. split; [done|].
      change (gcnt s2) with (gcnt s + 1) in *. cbv zeta in *. lia. }
  assert (position s2 = position s) as Ep by done. assert (gcnt s2 = gcnt s + 1) as Ec by done.
  assert (gok s2) as Hg2 by done.
  destruct (paren_run (gen_rand_expr rnd fuel) (fun ret3 =>
    op ← gen_rand_op rnd; start_pos ← gets position;
    gen "(" ;; ret4 ← gen_rand_expr rnd fuel; gen ")" ;; combine op start_pos ret3 ret4) s2 Hg2) as (e3 & s3 & E3 & W3 & Hwf3 & Hk3 & Hl3 & Ht3).
  { rewrite Ep, Ec. lia. }
  { intros s' Hg' Hc' Hr'. apply IH; [done|done|lia|]. destruct fuel; [|lia]. lia. }
  rewrite E3. clear E3. rewrite Ec in *. cbv zeta in Hk3, Hl3, Ht3.
  pose proof W3 as (G3 & P3 & _). cbn [length] in P3. rewrite length_app in P3. cbn [length] in P3.
  destruct (gen_rand_op_run s3) as (o & s4 & E4 & Ho & W4 & C4); [done|lia|].
  rewrite (bind_run _ _ _ _ _ E4), (bind_run _ _ _ _ _ eq_refl).
  pose proof W4 as (G4 & P4 & _). cbn [length] in P4.
  assert (1 + (gcnt s3 - (gcnt s + 1)) + budget (gcnt s3) <= budget (gcnt s)) as Hb4
    by (unfold budget in *; lia).
  destruct (paren_run (gen_rand_expr rnd fuel) (fun ret4 =>
    combine (op_char o) (position s4) (gval e3) ret4) s4 G4)
    as (e4 & s5 & E5 & W5 & Hwf5 & Hk5 & Hl5 & Ht5).
  { rewrite C4. lia. }
  { intros s' Hg' Hc' Hr'. apply IH; [done|done|lia|]. destruct fuel; [|lia]. lia. }
  rewrite E5, C4 in *. clear E5. cbv zeta in Hk5, Hl5, Ht5.
  destruct (combine_run o s2 s4 s5 e3 e4) as (e & s' & E & W & Hwf & C & Hl & Ht); try done.
  { by apply (wrote_trans _ s3). }
  { lia. }
  exists e, s'. split; [done|]. split; [done|]. split; [done|]. cbv zeta. rewrite C. lia.
Qed.
End Run.

(** * Reading the text back *)

Lemma digit_loop_eq fuel n acc : 0 < n < 10 ^ Z.of_nat fuel ->
  digits_loop fuel 10 n acc = map digit (digits_of fuel 10 n) ++ acc.
Proof.
  revert n acc. induction fuel as [|fuel IH]; intros n acc Hn.
  { change (10 ^ Z.of_nat 0) with 1 in Hn. lia. }
  cbn [digits_loop digits_of]. rewrite (proj2 (Z.eqb_neq n 0)) by lia. cbv zeta.
  pose proof (Z.mod_pos_bound n 10). rewrite (proj2 (Z.ltb_lt (n mod 10) 10)) by lia.
  assert (ascii_of_nat (Z.to_nat (48 + n mod 10)) = digit (n mod 10)) as ->.
  { unfold digit. rewrite Z.mod_mod by lia. do 2 f_equal. lia. }
  rewrite map_app, <- app_assoc. cbn [map app]. destruct (Z.ltb_spec n 10).
  - rewrite Z.div_small by lia. by destruct fuel.
  - rewrite Nat2Z.inj_succ, Z.pow_succ_r in Hn by lia. apply IH.
    split; [apply Z.div_str_pos; lia|]. apply Z.div_lt_upper_bound; lia.
Qed.

Lemma num_text_digits n : 0 < n < 1000000 -> num_text n = digits 10 n.
Proof.
  intros Hn. unfold num_text, digits. rewrite digit_loop_eq, app_nil_r; [done|].
  change (10 ^ Z.of_nat 10) with (10 ^ 10). lia.
Qed.

(** A number with the suffix [u] becomes a token without it. *)
Lemma lexes_dec_u n rest acc r : in_u 32 n -> Z.of_nat (length acc) < MAX_TOKENS ->
  lexes rest (mkToken TK_DEC (string_of_list_ascii (digits 10 n)) :: acc) r ->
  lexes (digits 10 n ++ "u"%char :: rest) acc r.
Proof.
  intros Hn Ha. destruct (digits_spec 10 n) as (_ & Hne & _ & _ & Hlen); [by left|done|].
  pose proof (dec_digits n Hn) as Hd. set (ds := digits 10 n) in *.
  assert (0 < length ds)%nat by (destruct ds; [done|cbn; lia]).
  apply (lexes_step _ rest (length ds + 1) TK_DEC); try lia.
  - assert (re_hex (ds ++ "u"%char :: rest) = None) as Eh.
    { destruct ds as [|c [|d l]]; [done|..]; cbn [app re_hex].
      - by rewrite andb_false_r.
      - cbn in Hd. apply andb_true_iff in Hd as [_ Hd]. apply andb_true_iff in Hd as [Hd _].
        apply digit_not in Hd as (-> & -> & _). by rewrite andb_false_r. }
    assert (re_dec (ds ++ "u"%char :: rest) = Some (length ds + 1)%nat) as Ed.
    { unfold re_dec. rewrite span_app by done.
      assert (nonzero (length ds) = Some (length ds)) as -> by (by destruct ds).
      cbn. by rewrite drop_app_length. }
    cbn [first_match rules]. by rewrite Eh, Ed.
  - cbn [push_token]. replace (length ds + 1 - 1)%nat with (length ds) by lia.
    rewrite list_lookup_middle by done. cbn [Ascii.eqb Bool.eqb].
    change (Ascii.eqb "u" "u") with true. cbv iota.
    replace (length ds + 1 - 1)%nat with (length ds) by lia.
    rewrite copy_exact by (done || lia). by apply add_token_ok.
  - rewrite drop_app_ge by lia. by replace (length ds + 1 - length ds)%nat with 1%nat by lia.
  - by destruct ds.
Qed.

Lemma gast_wf e : gwf e -> wf (gast e).
Proof.
  induction e as [n|o l IHl r IHr|l IHl]; cbn [gwf gast wf].
  - unfold in_u. lia.
  - intros (Hl & Hr & _). split_and!; auto.
    + by destruct l.
    + by destruct r.
    + destruct o; cbn; lia.
    + destruct o; cbn; lia.
  - intros Hl. split_and!; auto.
    + by destruct l.
    + unfold in_u. lia.
    + cbn. lia.
    + cbn. lia.
Qed.

(** An operand in parentheses. *)
Lemma lex_paren e acc rest r : 
  (forall acc rest r, Z.of_nat (length acc) + Z.of_nat (length (tokens (gast e))) <= MAX_TOKENS ->
     head_not is_alnum rest -> lexes rest (rev (tokens (gast e)) ++ acc) r ->
     lexes (gtext e ++ rest) acc (if nonzero_lits e then r else Ok None)) ->
  Z.of_nat (length acc) + Z.of_nat (length (tokens (gast e))) + 2 <= MAX_TOKENS ->
  lexes rest (rev (tokens (Paren (gast e))) ++ acc) r ->
  lexes ("("%char :: gtext e ++ ")"%char :: rest) acc (if nonzero_lits e then r else Ok None).
Proof.
  intros H Hlen Hr. apply (lexes_punct TK_LP (gtext e ++ ")"%char :: rest)); [done|lia|done|done|].
  apply H; [cbn [length]; lia|done|].
  apply (lexes_punct TK_RP rest); [done|rewrite length_app, length_rev; cbn [length]; lia|done|done|].
  cbn [tokens rev] in Hr. rewrite rev_app_distr in Hr. cbn [rev app] in Hr.
  by rewrite <- app_assoc in Hr.
Qed.

Lemma length_paren e :
  Z.of_nat (length (tokens (Paren (gast e)))) = Z.of_nat (length (tokens (gast e))) + 2.
Proof. cbn [tokens length]. rewrite length_app. cbn [length]. lia. Qed.

Lemma deref_after_paren a acc : deref_here (rev (tokens (Paren a)) ++ acc) = false.
Proof. cbn [tokens rev]. by rewrite rev_app_distr. Qed.

(** A literal zero is a bare [u], which no rule matches. *)
Lemma lexes_bare_u rest acc : lexes ("u"%char :: rest) acc (Ok None).
Proof. intros [|fuel] Hf; [cbn in Hf; lia|]. cbn [make_token_loop]. assert (first_match rules ("u"%char :: rest) = None) as -> by (by destruct rest). done. Qed.

Lemma lex_gen e : gwf e -> forall acc rest r,
  Z.of_nat (length acc) + Z.of_nat (length (tokens (gast e))) <= MAX_TOKENS ->
  head_not is_alnum rest -> lexes rest (rev (tokens (gast e)) ++ acc) r ->
  lexes (gtext e ++ rest) acc (if nonzero_lits e then r else Ok None).
Proof.
  induction e as [n|o l IHl r IHr|l IHl]; cbn [gwf nonzero_lits]; intros Hwf acc rest res Hlen Hr H.
  - destruct (Z.eqb_spec n 0) as [->|Hnz]; cbn [negb]; [apply lexes_bare_u|]. cbn [gtext]. rewrite num_text_digits, <- app_assoc by lia.
    cbn [gast tokens length rev app] in *.
    apply lexes_dec_u; [unfold in_u; lia|lia|done].
  - destruct Hwf as (Hl & Hr' & Ho).
    assert ((if nonzero_lits l && nonzero_lits r then res else Ok None) = (if nonzero_lits l then if nonzero_lits r then res else Ok None else Ok None)) as ->
      by (by destruct (nonzero_lits l)).
    rewrite binop_tokens in Hlen. pose proof (length_paren l) as Ll.
    replace (gtext (GBin o l r) ++ rest) with
      ("("%char :: gtext l ++ ")"%char :: [op_char o] ++ "("%char :: gtext r ++ ")"%char :: rest)
      by (cbn [gtext app]; rewrite <- !app_assoc; cbn [app]; by rewrite <- !app_assoc).
    apply lex_paren; [by apply IHl|lia|].
    assert ([op_char o] = text (mkToken (op_tk o) "")) as -> by (by destruct Ho as [->|[->|[->|[-> _]]]]).
    apply lexes_punct; [by destruct o|rewrite length_app, length_rev; lia|by destruct o| |].
    { intros _. apply deref_after_paren. }
    apply lex_paren; [by apply IHr|cbn [length]; rewrite length_app, length_rev; lia|].
    change (tokens (gast (GBin o l r))) with
      (tokens (Paren (gast l)) ++ [mkToken (op_tk o) ""] ++ tokens (Paren (gast r))) in H.
    rewrite !rev_app_distr, <- !app_assoc in H. exact H.
  - rewrite div1_tokens in Hlen. pose proof (length_paren l) as Ll.
    replace (gtext (GDiv1 l) ++ rest) with
      ("("%char :: gtext l ++ ")"%char :: text (mkToken TK_DIV "") ++ digits 10 1 ++ rest)
      by (cbn [gtext app]; by rewrite <- !app_assoc).
    apply lex_paren; [by apply IHl|lia|].
    apply lexes_punct; [done|rewrite length_app, length_rev; lia|done|done|].
    apply lexes_dec; [unfold in_u; lia|done|cbn [length]; rewrite length_app, length_rev; lia|].
    change (tokens (gast (GDiv1 l))) with
      (tokens (Paren (gast l)) ++ [mkToken TK_DIV ""] ++ tokens (Dec 1)) in H.
    rewrite !rev_app_distr, <- !app_assoc in H. exact H.
Qed.

Section Agrees.
Context `{CFG : Config} `{HOST : Host} `{CB : !Callbacks}.

Lemma sem_gast e s : gwf e -> sem (gast e) s = Ok (gval e, s).
Proof.
  induction e as [n|o l IHl r IHr|l IHl]; cbn [gwf gast sem gval].
  - done.
  - intros (Hl & Hr & _). by rewrite (bind_run _ _ _ _ _ (IHl Hl)), (bind_run _ _ _ _ _ (IHr Hr)).
  - intros Hl. rewrite (bind_run _ _ _ _ _ (IHl Hl)), (bind_run _ _ _ _ _ eq_refl).
    cbn [bin_sem Z.eqb]. by rewrite Z.div_1_r.
Qed.

Lemma expr_gen e s : gwf e -> Z.of_nat (length (tokens (gast e))) <= MAX_TOKENS ->
  expr (string_of_list_ascii (gtext e)) s = Ok (if nonzero_lits e then (gval e, None) else (0, Some false), s).
Proof.
  intros Hwf Hl. unfold expr.
  assert (make_token (string_of_list_ascii (gtext e)) = if nonzero_lits e then Ok (Some (tokens (gast e))) else Ok None) as Et.
  { unfold make_token. rewrite list_ascii_of_string_of_list_ascii.
    pose proof (lex_gen e Hwf [] [] (Ok (Some (tokens (gast e))))) as H.
    rewrite !app_nil_r in H. apply H; try done.
    rewrite <- (rev_involutive (tokens (gast e))) at 2. apply lexes_nil. }
  destruct (nonzero_lits e); rewrite (lift_run _ _ _ s Et); [|done]. unfold eval.
  pose proof (eval_ast (gast e) (gast_wf e Hwf)
    (Z.to_nat (Z.of_nat (length (tokens (gast e))) - 1 - 0 + 2)) [] [] s) as H.
  cbn [app length] in H. rewrite app_nil_r in H.
  by erewrite bind_run by (etransitivity; [apply H; lia|by apply sem_gast]).
Qed.

(** Every [u] of a text follows a digit. *)
Fixpoint readable (after_digit : bool) (txt : list ascii) : bool :=
  match txt with
  | [] => true
  | c :: txt => if Ascii.eqb c "u" then after_digit && readable false txt else readable (is_digit c) txt
  end.

Lemma readable_digits ds b rest : forallb is_digit ds = true ->
  readable b (ds ++ rest) = match ds with [] => readable b rest | _ => readable true rest end.
Proof.
  revert b. induction ds as [|c ds IH]; intros b H; [done|]. apply andb_true_iff in H as [Hc H]. cbn [app readable].
  assert (Ascii.eqb c "u" = false) as -> by (by apply digit_not in Hc as (_ & _ & ?)). rewrite Hc, IH by done. by destruct ds.
Qed.

(** It is so when no literal is zero. *)
Lemma readable_gtext e : gwf e -> forall rest, head_not is_alnum rest -> readable false (gtext e ++ rest) = nonzero_lits e && readable false rest.
Proof.
  induction e as [n|o l IHl r IHr|l IHl]; cbn [gwf]; intros Hwf rest Hr.
  - cbn [gtext nonzero_lits]. rewrite <- app_assoc. cbn [app]. destruct (Z.eqb_spec n 0) as [->|Hn]; [done|].
    assert (in_u 32 n) as Hu by (unfold in_u; lia). rewrite num_text_digits by lia. rewrite readable_digits by (by apply dec_digits).
    destruct (digits_spec 10 n (or_introl eq_refl) Hu) as (_ & Hne & _). by destruct (digits 10 n).
  - destruct Hwf as (Hl & Hr' & Ho).
    replace (gtext (GBin o l r) ++ rest) with
      ("("%char :: gtext l ++ ")"%char :: op_char o :: "("%char :: gtext r ++ ")"%char :: rest)
      by (cbn [gtext app]; rewrite <- !app_assoc; cbn [app]; by rewrite <- !app_assoc).
    change (readable false ("("%char :: ?t)) with (readable false t). rewrite IHl by done.
    assert (forall t, readable false (")"%char :: op_char o :: "("%char :: t) = readable false t) as -> by (intros t; by destruct o).
    rewrite IHr by done. cbn [nonzero_lits]. by rewrite andb_assoc.
  - replace (gtext (GDiv1 l) ++ rest) with ("("%char :: gtext l ++ ")"%char :: "/"%char :: "1"%char :: rest)
      by (cbn [gtext app]; by rewrite <- !app_assoc).
    change (readable false ("("%char :: ?t)) with (readable false t). rewrite IHl by done.
    change (readable false (")"%char :: "/"%char :: "1"%char :: rest)) with (readable true rest). cbn [nonzero_lits]. f_equal.
    destruct rest as [|c rest]; [done|]. cbn [readable]. destruct (Ascii.eqb_spec c "u") as [->|]; [done|done].
Qed.

(** C21. The generator and the evaluator: whatever numbers [rand] returns, one round of the
    generator ends without leaving its buffer, the buffer holds the terminated text of an
    expression without division by zero, and the returned value is the value of that
    expression in unsigned 32-bit arithmetic. The debugger's [expr] applied to the text
    computes the same value exactly when every [u] in it follows a digit; a literal 0 is
    written as a bare [u], and then [expr] finds no token and reports failure. *)
Theorem gen_expr_agrees rnd g0 s : (forall k, 0 <= rnd k) -> gok g0 ->
  exists e g, let txt := take (position g) (buf g) in
    gen_one rnd g0 = Ok (gval e, g) /\ gwf e /\ txt = gtext e /\ buf g !! position g = Some "000"%char /\
    expr (string_of_list_ascii txt) s = Ok (if readable false txt then (gval e, None) else (0, Some false), s).
Proof.
  intros Hrnd Hg. unfold gen_one. rewrite (bind_run _ _ _ _ _ eq_refl), (bind_run _ _ _ _ _ eq_refl).
  set (g1 := g0 <| position := 0%nat |> <| gcnt := 0 |>).
  destruct (gen_rand_expr_run rnd Hrnd 100 g1) as (e & g & E & W & Hwf & Hk & Hl & Ht).
  { done. }
  { unfold room. change (budget (gcnt g1)) with 199. change (Z.of_nat (position g1)) with 0.
    change BUF_SIZE with (Z.to_nat 65536). lia. }
  { change (gcnt g1) with 0. lia. }
  { lia. }
  change (budget (gcnt g1)) with 199 in Hk. change (gcnt g1) with 0 in *. rewrite Z.sub_0_r in *.
  destruct W as (G & P & T). change (position g1) with 0%nat in *. cbn [Nat.add take app] in P, T.
  assert (position g < BUF_SIZE)%nat as Hp by (change BUF_SIZE with (Z.to_nat 65536); lia).
  rewrite (bind_run _ _ _ _ _ E), (bind_run _ _ _ _ _ (poke_run _ g Hp)).
  eexists e, _. cbv zeta. split; [done|]. split; [done|]. cbn [position buf].
  set (g' := g <| buf := <[position g := "000"%char]> (buf g) |>).
  assert (take (position g') (buf g') = gtext e) as -> by (unfold g'; cbn; by rewrite take_insert_ge by lia).
  split; [done|]. split; [apply list_lookup_insert_eq; unfold gok in G; lia|].
  rewrite expr_gen by (done || (unfold MAX_TOKENS; lia)). pose proof (readable_gtext e Hwf [] I) as Hr.
  rewrite app_nil_r, andb_true_r in Hr. by rewrite Hr.
Qed.

End Agrees.

Module GenExprWitness.

#[local] Instance cfg : Config := kconfig false false false.
#[local] Instance host : Host := null_host.
#[local] Instance cb : Callbacks := {| run_callback := fun _ _ _ _ => mret tt |}.

(** A generator that starts with a binary expression. *)
Definition rnd (k : nat) : Z := default 0 ([2; 0; 12; 1; 0; 34] !! k).
Definition g0 : GenState := mkGen (replicate BUF_SIZE "000"%char) 0 0 0.
Definition s0 : Machine := machine_zero ∅ tt.

(** The generator writes [(12u)-(34u)], and the debugger computes the same value from it. *)
Lemma gen_expr_agrees_witness : (exists g, gen_one rnd g0 = Ok (u32 (12 - 34), g)) /\
  expr "(12u)-(34u)" s0 = Ok ((u32 (12 - 34), None), s0).
Proof.
  destruct (gen_expr_agrees rnd g0 s0) as (e & g & E & _ & _ & _ & X).
  - intros k. unfold rnd. do 6 (destruct k as [|k]; [vm_compute; discriminate|]).
    vm_compute. discriminate.
  - unfold gok, g0. cbn. apply length_replicate.
  - assert (match gen_one rnd g0 with Ok (v, g) => (v, string_of_list_ascii (take (position g) (buf g))) | Abort _ => (0, ""%string) end =
      (u32 (12 - 34), "(12u)-(34u)"%string)) as C by (vm_compute; reflexivity).
    rewrite E in C. injection C as Ev Et. rewrite Ev in E. split; [by exists g|].
    rewrite <- (list_ascii_of_string_of_list_ascii (take (position g) (buf g))), Et in X. rewrite string_of_list_ascii_of_string, Ev in X.
    exact X.
Defined.

End GenExprWitness.
