(* ===== verification/KlibMem.v ===== *)
(** Memory for the C library of the abstract machine ([abstract-machine/klib]).

    Guest memory is a finite map from addresses to bytes; an address without an
    entry is not mapped, and reading or writing it is undefined. [char] is unsigned,
    as on RISC-V, and [size_t] and pointers have 32 bits. A loop that follows a
    string takes as fuel one more than the number of mapped bytes: it visits a new
    address in every round, so it meets an unmapped byte before the fuel ends.

    [kout] is what [putch] printed, [rnext] and [maddr] are the statics [next] of
    [rand] and [addr] of [malloc]. *)

From S2P Require Import Prelude.

Record Klib : Type := mkKlib {
  km : gmap Z Z;
  kout : list Z;
  rnext : Z;
  maddr : option Z;
}.
#[global] Instance eta_Klib : Eta Klib := fun x => mkKlib (km x) (kout x) (rnext x) (maddr x).

(** [*p] and [*p = v]. *)
Definition load (p : Z) : M Klib Z := fun s =>
  match km s !! p with Some v => Ok (v, s) | None => Abort (AUndef "load") end.
Definition store (p v : Z) : M Klib unit := fun s =>
  match km s !! p with
  | Some _ => Ok (tt, s <| km := <[p := u8 v]> (km s) |>)
  | None => Abort (AUndef "store")
  end.

Definition mem_fuel : M Klib nat := gets (fun s => S (size (km s))).

(** * Byte sequences in memory *)

(** [wr m a cs] writes the bytes [cs] from address [a] on. *)
Fixpoint wr (m : gmap Z Z) (a : Z) (cs : list Z) : gmap Z Z :=
  match cs with
  | [] => m
  | c :: cs => wr (<[a := u8 c]> m) (a + 1) cs
  end.

(** The bytes [cs] stand at [a]. *)
Fixpoint bytes_at (m : gmap Z Z) (a : Z) (cs : list Z) : Prop :=
  match cs with
  | [] => True
  | c :: cs => m !! a = Some c /\ bytes_at m (a + 1) cs
  end.

(** [n] mapped bytes from [a] on. *)
Definition mapped (m : gmap Z Z) (a n : Z) : Prop :=
  forall i, 0 <= i < n -> is_Some (m !! (a + i)).

(** The null-terminated string [cs] at [a]. *)
Definition cstr (m : gmap Z Z) (a : Z) (cs : list Z) : Prop :=
  bytes_at m a (cs ++ [0]) /\ Forall (fun c => 0 < c < 256) cs.

Lemma load_Some p v s : km s !! p = Some v -> load p s = Ok (v, s).
Proof. unfold load. by intros ->. Qed.

Lemma store_Some p v s : is_Some (km s !! p) ->
  store p v s = Ok (tt, s <| km := <[p := u8 v]> (km s) |>).
Proof. unfold store. by intros [? ->]. Qed.

Lemma bytes_at_lookup m a cs i : bytes_at m a cs -> (i < length cs)%nat ->
  m !! (a + Z.of_nat i) = cs !! i.
Proof.
  revert a i. induction cs as [|c cs IH]; intros a i; [simpl; lia|].
  intros [E H] Hi. destruct i as [|i].
  - by rewrite Z.add_0_r.
  - change ((c :: cs) !! S i) with (cs !! i). rewrite <- (IH (a + 1) i); [f_equal; lia|done|simpl in Hi; lia].
Qed.

Lemma bytes_at_intro m a cs :
  (forall i, (i < length cs)%nat -> m !! (a + Z.of_nat i) = cs !! i) -> bytes_at m a cs.
Proof.
  revert a. induction cs as [|c cs IH]; intros a H; [done|]. split.
  - specialize (H 0%nat ltac:(simpl; lia)). by rewrite Z.add_0_r in H.
  - apply IH. intros i Hi. specialize (H (S i) ltac:(simpl; lia)).
    change ((c :: cs) !! S i) with (cs !! i) in H. rewrite <- H. f_equal. lia.
Qed.

Lemma bytes_at_app m a cs ds :
  bytes_at m a (cs ++ ds) <-> bytes_at m a cs /\ bytes_at m (a + Z.of_nat (length cs)) ds.
Proof.
  revert a. induction cs as [|c cs IH]; intros a; simpl.
  - rewrite Z.add_0_r. tauto.
  - rewrite IH. replace (a + 1 + Z.of_nat (length cs)) with (a + Z.of_nat (S (length cs))) by lia.
    tauto.
Qed.

Lemma mapped_bytes_at m a cs : bytes_at m a cs -> mapped m a (Z.of_nat (length cs)).
Proof.
  intros H i Hi. replace i with (Z.of_nat (Z.to_nat i)) by lia.
  rewrite (bytes_at_lookup _ _ _ _ H) by lia. apply lookup_lt_is_Some. lia.
Qed.

Lemma mapped_sub m a n b k : mapped m a n -> a <= b -> b + k <= a + n -> mapped m b k.
Proof. intros H ? ? i Hi. replace (b + i) with (a + (b - a + i)) by lia. apply H. lia. Qed.

Lemma wr_app m a cs ds : wr m a (cs ++ ds) = wr (wr m a cs) (a + Z.of_nat (length cs)) ds.
Proof.
  revert m a. induction cs as [|c cs IH]; intros m a; simpl.
  - by rewrite Z.add_0_r.
  - rewrite IH. f_equal. lia.
Qed.

Lemma wr_outside m a cs p : p < a \/ a + Z.of_nat (length cs) <= p -> wr m a cs !! p = m !! p.
Proof.
  revert m a. induction cs as [|c cs IH]; intros m a Hp; simpl in *; [done|].
  rewrite IH by lia. apply lookup_insert_ne. lia.
Qed.

Lemma wr_inside m a cs i : (i < length cs)%nat ->
  wr m a cs !! (a + Z.of_nat i) = u8 <$> cs !! i.
Proof.
  revert m a i. induction cs as [|c cs IH]; intros m a i Hi; simpl in *; [lia|].
  destruct i as [|i].
  - rewrite Z.add_0_r, wr_outside by lia. apply lookup_insert_eq.
  - change ((c :: cs) !! S i) with (cs !! i). rewrite <- IH with (m := <[a := u8 c]> m) (a := a + 1) by lia. f_equal. lia.
Qed.

Lemma wr_mapped m a cs b n : mapped m b n -> mapped (wr m a cs) b n.
Proof.
  revert m a. induction cs as [|c cs IH]; intros m a H; simpl; [done|].
  apply IH. intros i Hi. destruct (Z.eq_dec a (b + i)) as [->|].
  - rewrite lookup_insert_eq. eauto.
  - rewrite lookup_insert_ne by done. by apply H.
Qed.

Lemma bytes_at_wr m a cs : Forall (in_u 8) cs -> bytes_at (wr m a cs) a cs.
Proof.
  intros F. apply bytes_at_intro. intros i Hi. rewrite wr_inside by done.
  destruct (cs !! i) as [c|] eqn:E; [|done]. simpl. f_equal. apply wrap_id.
  by eapply Forall_lookup_1 in E.
Qed.

Lemma bytes_at_frame m m' a cs :
  (forall p, a <= p < a + Z.of_nat (length cs) -> m' !! p = m !! p) ->
  bytes_at m a cs -> bytes_at m' a cs.
Proof.
  intros H B. apply bytes_at_intro. intros i Hi. rewrite H by lia. by apply bytes_at_lookup.
Qed.

Lemma bytes_at_wr_other m a cs b ds :
  b + Z.of_nat (length ds) <= a \/ a + Z.of_nat (length cs) <= b ->
  bytes_at m b ds -> bytes_at (wr m a cs) b ds.
Proof. intros H. apply bytes_at_frame. intros p Hp. apply wr_outside. lia. Qed.

(** * Strings *)

Lemma cstr_tail m a c cs : cstr m a (c :: cs) -> m !! a = Some c /\ 0 < c < 256 /\ cstr m (a + 1) cs.
Proof. intros [[E B] F]. inversion F. subst. done. Qed.

Lemma cstr_nil m a : cstr m a [] -> m !! a = Some 0.
Proof. by intros [[E _] _]. Qed.

(** A string is shorter than the mapped memory: the fuel of the string loops is
    enough. *)
Lemma cstr_size m a cs : cstr m a cs -> (length cs < size m)%nat.
Proof.
  intros [B _]. apply mapped_bytes_at in B. rewrite length_app in B.
  rewrite <- size_dom. pose (X := list_to_set (seqZ a (Z.of_nat (S (length cs)))) : gset Z).
  assert (size X = S (length cs)) as E.
  { unfold X. rewrite size_list_to_set by apply NoDup_seqZ. rewrite length_seqZ. lia. }
  assert (X ⊆ dom m) as Hs.
  { intros p Hp. apply elem_of_list_to_set, elem_of_seqZ in Hp. apply elem_of_dom.
    replace p with (a + (p - a)) by lia. apply B. simpl; lia. }
  apply subseteq_size in Hs. lia.
Qed.

(** The string at an address is unique. *)
Lemma cstr_inj m a cs ds : cstr m a cs -> cstr m a ds -> cs = ds.
Proof.
  revert a ds. induction cs as [|c cs IH]; intros a [|d ds] H1 H2; [done|..].
  - apply cstr_nil in H1. apply cstr_tail in H2 as (? & ? & _). simplify_eq. lia.
  - apply cstr_nil in H2. apply cstr_tail in H1 as (? & ? & _). simplify_eq. lia.
  - apply cstr_tail in H1 as (? & ? & ?), H2 as (? & ? & ?). simplify_eq. f_equal. by eapply IH.
Qed.
