(* ===== verification/KlibString.v ===== *)
(** The string functions of [klib/src/string.c]. *)

From S2P Require Import Prelude KlibMem.

Definition no_fuel {A} : M Klib A := undef "unterminated string".

(** * The functions *)

Fixpoint strlen_loop (fuel : nat) (s num : Z) : M Klib Z :=
  match fuel with
  | O => no_fuel
  | S fuel =>
      c ← load s;
      if negb (c =? 0) then strlen_loop fuel (s + 1) (u32 (num + 1)) else mret num
  end.
Definition strlen (s : Z) : M Klib Z := fuel ← mem_fuel; strlen_loop fuel s 0.

(** [i] is an [int], compared with the unsigned [n] and then incremented. *)
Fixpoint memcpy_loop (n : nat) (i d s : Z) : M Klib unit :=
  match n with
  | O => mret tt
  | S n =>
      c ← load s;
      store d c ;;
      (if i =? 2 ^ 31 - 1 then undef "signed overflow" else mret tt) ;;
      memcpy_loop n (i + 1) (d + 1) (s + 1)
  end.
Definition memcpy (out in_ n : Z) : M Klib Z :=
  memcpy_loop (Z.to_nat n) 0 out in_ ;; mret out.

Definition strcpy (dst src : Z) : M Klib Z :=
  n ← strlen src;
  memcpy dst src (u32 (n + 1)) ;;
  mret dst.

Definition strncpy (dst src n : Z) : M Klib Z := panic "Not implemented".

Definition strcat (dst src : Z) : M Klib Z :=
  n ← strlen dst;
  strcpy (dst + n) src ;;
  mret dst.

Fixpoint strcmp_loop (fuel : nat) (s1 s2 : Z) : M Klib Z :=
  match fuel with
  | O => no_fuel
  | S fuel =>
      c1 ← load s1;
      c2 ← load s2;
      if negb (c1 =? 0) && negb (c2 =? 0) then
        if c1 <? c2 then mret (-1)
        else if c2 <? c1 then mret 1
        else strcmp_loop fuel (s1 + 1) (s2 + 1)
      else if c1 =? c2 then mret 0
      else mret (if c1 =? 0 then -1 else 1)
  end.
Definition strcmp (s1 s2 : Z) : M Klib Z := fuel ← mem_fuel; strcmp_loop fuel s1 s2.

Fixpoint strncmp_loop (n : nat) (s1 s2 : Z) : M Klib Z :=
  match n with
  | O => mret 0
  | S n =>
      c1 ← load s1;
      c2 ← load s2;
      if negb (c1 =? c2) || (c1 =? 0) then mret (u8 c1 - u8 c2)
      else strncmp_loop n (s1 + 1) (s2 + 1)
  end.
Definition strncmp (s1 s2 n : Z) : M Klib Z := strncmp_loop (Z.to_nat n) s1 s2.

Fixpoint memset_loop (n : nat) (d c : Z) : M Klib unit :=
  match n with
  | O => mret tt
  | S n => store d (u8 c) ;; memset_loop n (d + 1) c
  end.
Definition memset (s c n : Z) : M Klib Z := memset_loop (Z.to_nat n) s c ;; mret s.

(** The two loops of [memmove]: upwards from [i], and downwards from [i]. *)
Fixpoint move_up (k : nat) (i d s : Z) : M Klib unit :=
  match k with
  | O => mret tt
  | S k => c ← load (s + i); store (d + i) c ;; move_up k (i + 1) d s
  end.
Fixpoint move_down (i : nat) (d s : Z) : M Klib unit :=
  match i with
  | O => mret tt
  | S i => c ← load (s + Z.of_nat i); store (d + Z.of_nat i) c ;; move_down i d s
  end.
Definition memmove (dst src n : Z) : M Klib Z :=
  if (dst =? src) || (n =? 0) then mret dst
  else
    (if dst <? src then move_up (Z.to_nat n) 0 dst src else move_down (Z.to_nat n) dst src) ;;
    mret dst.

Fixpoint memcmp_loop (n : nat) (d s : Z) : M Klib Z :=
  match n with
  | O => mret 0
  | S n =>
      a ← load d;
      b ← load s;
      if a <? b then mret (-1)
      else if b <? a then mret 1
      else memcmp_loop n (d + 1) (s + 1)
  end.
Definition memcmp (s1 s2 n : Z) : M Klib Z := memcmp_loop (Z.to_nat n) s1 s2.

(** * Specifications *)

(** Dictionary order on byte strings. *)
Definition lex_lt (cs ds : list Z) : Prop :=
  exists p, (exists d ds', cs = p /\ ds = p ++ d :: ds') \/
    (exists c d cs' ds', cs = p ++ c :: cs' /\ ds = p ++ d :: ds' /\ c < d).

(** * Copying *)

Lemma wr_insert_below m p v a cs : p < a -> wr (<[p := v]> m) a cs = <[p := v]> (wr m a cs).
Proof.
  revert m a. induction cs as [|c cs IH]; intros m a Hp; simpl; [done|].
  rewrite insert_insert_ne by lia. apply IH. lia.
Qed.

Lemma wr_take_S m a cs i c : cs !! i = Some c ->
  wr m a (take (S i) cs) = <[a + Z.of_nat i := u8 c]> (wr m a (take i cs)).
Proof.
  intros E. rewrite (take_S_r cs i c E), wr_app, length_take_le; [done|].
  apply lookup_lt_Some in E. lia.
Qed.

Section Move.
Context (m : gmap Z Z) (d s : Z) (cs : list Z).
Hypothesis Hsrc : bytes_at m s cs.
Hypothesis Hdst : mapped m d (Z.of_nat (length cs)).

Lemma move_up_ok k i st : d <= s \/ s + Z.of_nat (length cs) <= d -> (i + k = length cs)%nat ->
  km st = wr m d (take i cs) ->
  move_up k (Z.of_nat i) d s st = Ok (tt, st <| km := wr m d cs |>).
Proof.
  intros Hov. revert i st. induction k as [|k IH]; intros i st Hk Hm; cbn [move_up].
  - rewrite take_ge in Hm by lia. destruct st. cbn in *. by subst.
  - destruct (lookup_lt_is_Some_2 cs i) as [c Hc]; [lia|].
    assert (length (take i cs) = i) as Hl by (rewrite length_take; lia).
    erewrite bind_run; [|apply load_Some].
    2:{ rewrite Hm, wr_outside by (rewrite Hl; lia). rewrite <- Hc. apply bytes_at_lookup; [done|lia]. }
    erewrite bind_run; [|apply store_Some; rewrite Hm; apply (wr_mapped _ _ _ _ _ Hdst); lia].
    replace (Z.of_nat i + 1) with (Z.of_nat (S i)) by lia. rewrite IH; [by destruct st|lia|].
    cbn. rewrite Hm. symmetry. by apply wr_take_S.
Qed.

Lemma move_down_ok i st : s < d -> (i <= length cs)%nat ->
  km st = wr m (d + Z.of_nat i) (drop i cs) ->
  move_down i d s st = Ok (tt, st <| km := wr m d cs |>).
Proof.
  intros Hov. revert st. induction i as [|i IH]; intros st Hi Hm; cbn [move_down].
  - rewrite Z.add_0_r in Hm. destruct st. cbn in *. by subst.
  - destruct (lookup_lt_is_Some_2 cs i) as [c Hc]; [lia|].
    erewrite bind_run; [|apply load_Some].
    2:{ rewrite Hm, wr_outside by lia. rewrite <- Hc. apply bytes_at_lookup; [done|lia]. }
    erewrite bind_run; [|apply store_Some; rewrite Hm; apply (wr_mapped _ _ _ _ _ Hdst); lia].
    rewrite IH; [by destruct st|lia|]. cbn. rewrite Hm, (drop_S cs c i Hc). cbn [wr].
    rewrite wr_insert_below by lia. do 2 f_equal. lia.
Qed.

Lemma memmove_ok st : km st = m -> Forall (in_u 8) cs ->
  memmove d s (Z.of_nat (length cs)) st = Ok (d, st <| km := wr m d cs |>).
Proof.
  intros Hm F. unfold memmove. destruct (Z.eqb_spec d s) as [E|Hne]; cbn [orb].
  { replace (wr m d cs) with (km st); [by destruct st|].
    rewrite Hm. apply map_eq. intros p.
    destruct (decide (d <= p < d + Z.of_nat (length cs))); [|by rewrite wr_outside by lia].
    replace p with (d + Z.of_nat (Z.to_nat (p - d))) by lia.
    rewrite (bytes_at_lookup (wr m d cs) d cs) by (lia || by apply bytes_at_wr).
    rewrite E. apply bytes_at_lookup; [done|lia]. }
  destruct (Z.eqb_spec (Z.of_nat (length cs)) 0) as [E0|].
  { replace (wr m d cs) with (km st); [by destruct st|]. by destruct cs. }
  rewrite Nat2Z.id. destruct (Z.ltb_spec d s).
  - by erewrite bind_run; [|apply (move_up_ok _ 0); [lia|lia|done]].
  - erewrite bind_run; [|apply move_down_ok; [lia|lia|]]; [done|]. by rewrite drop_all.
Qed.
End Move.

Lemma memcpy_loop_up n i j d s st : 0 <= i -> i + Z.of_nat n <= 2 ^ 31 - 1 ->
  memcpy_loop n i d s st = move_up n j (d - j) (s - j) st.
Proof.
  revert i j d s st. induction n as [|n IH]; intros i j d s st Hi Hn; [done|].
  cbn [memcpy_loop move_up]. replace (s - j + j) with s by lia. replace (d - j + j) with d by lia.
  unfold mbind, M_bind. destruct (load s st) as [[c st1]|]; [|done].
  destruct (store d c st1) as [[u st2]|]; [|done].
  destruct (Z.eqb_spec i (2 ^ 31 - 1)); [lia|]. unfold mret at 1, M_ret.
  rewrite (IH _ (j + 1)) by lia. f_equal; lia.
Qed.

Lemma memcpy_ok d s cs st : bytes_at (km st) s cs -> mapped (km st) d (Z.of_nat (length cs)) ->
  d <= s \/ s + Z.of_nat (length cs) <= d -> Z.of_nat (length cs) < 2 ^ 31 ->
  memcpy d s (Z.of_nat (length cs)) st = Ok (d, st <| km := wr (km st) d cs |>).
Proof.
  intros Hs Hd Hov Hn. unfold memcpy. rewrite Nat2Z.id.
  erewrite bind_run; [done|]. rewrite (memcpy_loop_up _ _ 0) by lia. rewrite !Z.sub_0_r.
  by apply (move_up_ok (km st) d s cs Hs Hd _ 0).
Qed.

Lemma memset_loop_ok n d c st : mapped (km st) d (Z.of_nat n) ->
  memset_loop n d c st = Ok (tt, st <| km := wr (km st) d (replicate n c) |>).
Proof.
  revert d st. induction n as [|n IH]; intros d st H; cbn [memset_loop]; [by destruct st|].
  erewrite bind_run; [|apply store_Some; rewrite <- (Z.add_0_r d); apply H; lia].
  rewrite wrap_wrap, IH; [by destruct st|]. cbn. apply (wr_mapped _ d [c]).
  eapply mapped_sub; [exact H|lia|lia].
Qed.

(** * Strings *)

Lemma strlen_loop_ok fuel a cs num st : cstr (km st) a cs -> (length cs < fuel)%nat ->
  0 <= num -> num + Z.of_nat (length cs) < 2 ^ 32 ->
  strlen_loop fuel a num st = Ok (num + Z.of_nat (length cs), st).
Proof.
  revert fuel a num. induction cs as [|c cs IH]; intros [|fuel] a num H Hf Hn Hb;
    try (simpl in Hf; lia); cbn [strlen_loop].
  - apply cstr_nil in H. erewrite bind_run by by apply load_Some.
    simpl length. by rewrite Z.add_0_r.
  - apply cstr_tail in H as (E & Hc & H). erewrite bind_run by by apply load_Some.
    rewrite (proj2 (Z.eqb_neq c 0)) by lia. cbn [negb]. simpl length in *.
    rewrite wrap_id by (unfold in_u; lia). rewrite IH by (done || lia). do 2 f_equal. lia.
Qed.

Lemma strlen_ok a cs st : cstr (km st) a cs -> Z.of_nat (length cs) < 2 ^ 32 ->
  strlen a st = Ok (Z.of_nat (length cs), st).
Proof.
  intros H Hb. unfold strlen, mem_fuel. rewrite (bind_run _ _ _ _ _ eq_refl).
  apply cstr_size in H as Hf. by rewrite (strlen_loop_ok _ _ cs) by (done || lia).
Qed.

Lemma strcpy_ok dst src cs st : cstr (km st) src cs ->
  mapped (km st) dst (Z.of_nat (length cs) + 1) ->
  dst <= src \/ src + Z.of_nat (length cs) < dst -> Z.of_nat (length cs) < 2 ^ 31 - 1 ->
  strcpy dst src st = Ok (dst, st <| km := wr (km st) dst (cs ++ [0]) |>).
Proof.
  intros H Hd Hov Hb. unfold strcpy. erewrite bind_run by (apply strlen_ok; [done|lia]).
  rewrite wrap_id by (unfold in_u; lia). destruct H as [H _].
  assert (Z.of_nat (length cs) + 1 = Z.of_nat (length (cs ++ [0]))) as E
    by (rewrite length_app; simpl; lia).
  rewrite E in *. erewrite bind_run; [done|]. apply memcpy_ok; [done|done|lia|lia].
Qed.

Lemma cstr_bytes cs : Forall (fun c => 0 < c < 256) cs -> Forall (in_u 8) (cs ++ [0]).
Proof.
  intros F. apply Forall_app. split; [|by repeat constructor].
  eapply Forall_impl; [exact F|]. intros c Hc. cbv beta in Hc. unfold in_u. change (2 ^ 8) with 256. lia.
Qed.

Lemma strcat_ok dst src ds cs st (n := Z.of_nat (length ds)) (k := Z.of_nat (length cs)) :
  cstr (km st) dst ds -> cstr (km st) src cs -> mapped (km st) dst (n + k + 1) ->
  src + k < dst + n \/ dst + n + k < src -> n < 2 ^ 31 -> k < 2 ^ 31 - 1 ->
  exists m, strcat dst src st = Ok (dst, st <| km := m |>) /\ cstr m dst (ds ++ cs) /\
    forall p, p < dst + n \/ dst + n + k < p -> m !! p = km st !! p.
Proof.
  intros Hd Hs Hm Hov Hn Hk. exists (wr (km st) (dst + n) (cs ++ [0])). split_and!.
  - unfold strcat. erewrite bind_run by (apply strlen_ok; [done|lia]).
    erewrite bind_run; [done|]. apply strcpy_ok; try done; try lia.
    eapply mapped_sub; [done|lia|lia].
  - destruct Hd as [Hd Fd], Hs as [Hs Fs]. split; [|by apply Forall_app].
    rewrite <- app_assoc. apply bytes_at_app. split.
    + apply bytes_at_wr_other; [lia|]. by apply bytes_at_app in Hd as [? _].
    + by apply bytes_at_wr, cstr_bytes.
  - intros p Hp. apply wr_outside. rewrite length_app. simpl. lia.
Qed.

(** * Comparison *)

(** The three outcomes of a comparison and what they say of the strings. *)
Definition cmp_spec (r : Z) (cs ds : list Z) : Prop :=
  (r = 0 /\ cs = ds) \/ (r = -1 /\ lex_lt cs ds) \/ (r = 1 /\ lex_lt ds cs).

Lemma lex_lt_nil d ds : lex_lt [] (d :: ds).
Proof. exists []. left. eauto. Qed.

Lemma lex_lt_head c d cs ds : c < d -> lex_lt (c :: cs) (d :: ds).
Proof. exists []. right. by exists c, d, cs, ds. Qed.

Lemma lex_lt_cons c cs ds : lex_lt cs ds -> lex_lt (c :: cs) (c :: ds).
Proof.
  intros [p [(d & ds' & -> & ->) | (x & d & cs' & ds' & -> & -> & H)]]; exists (c :: p).
  - left. by exists d, ds'.
  - right. by exists x, d, cs', ds'.
Qed.

Lemma cmp_spec_cons r c cs ds : cmp_spec r cs ds -> cmp_spec r (c :: cs) (c :: ds).
Proof.
  intros [[-> ->] | [[-> H] | [-> H]]]; [by left|right; left|right; right].
  all: split; [done|by apply lex_lt_cons].
Qed.

Lemma lex_lt_irrefl cs : ~ lex_lt cs cs.
Proof.
  intros [p [(d & ds' & -> & E) | (c & d & cs' & ds' & E & E' & H)]].
  - apply (f_equal length) in E. rewrite length_app in E. simpl in E. lia.
  - rewrite E in E'. apply app_inv_head in E'. simplify_eq. lia.
Qed.

Lemma lex_lt_cons_inv c cs ds : lex_lt (c :: cs) (c :: ds) -> lex_lt cs ds.
Proof.
  intros [p [(d & ds' & <- & E) | (x & d & cs' & ds' & E1 & E2 & H)]].
  - exists cs. left. exists d, ds'. split; [done|]. by injection E.
  - destruct p as [|y p]; [simplify_eq/=; lia|]. simplify_eq/=.
    exists p. right. by exists x, d, cs', ds'.
Qed.

Lemma lex_lt_asym cs ds : lex_lt cs ds -> lex_lt ds cs -> False.
Proof.
  revert ds. induction cs as [|c cs IH]; intros [|d ds].
  - intros H _. by apply lex_lt_irrefl in H.
  - intros _ [p [(x & l & E & E') | (x & y & l & l' & _ & E & _)]]; by destruct p.
  - intros [p [(x & l & E & E') | (x & y & l & l' & _ & E & _)]] _; by destruct p.
  - intros H1 H2. destruct (Z.lt_trichotomy c d) as [L|[->|L]].
    + destruct H2 as [[|x p] [(y & l & E & E') | (y & z & l & l' & E & E' & H)]];
        simplify_eq/=; lia.
    + by apply (IH ds); apply lex_lt_cons_inv with d.
    + destruct H1 as [[|x p] [(y & l & E & E') | (y & z & l & l' & E & E' & H)]];
        simplify_eq/=; lia.
Qed.

Lemma strcmp_loop_ok fuel s1 s2 cs ds st : cstr (km st) s1 cs -> cstr (km st) s2 ds ->
  (length cs < fuel)%nat -> exists r, strcmp_loop fuel s1 s2 st = Ok (r, st) /\ cmp_spec r cs ds.
Proof.
  revert fuel s1 s2 ds. induction cs as [|c cs IH]; intros [|fuel] s1 s2 [|d ds] H1 H2 Hf;
    try (simpl in Hf; lia); cbn [strcmp_loop];
    first [apply cstr_nil in H1 as E1|apply cstr_tail in H1 as (E1 & R1 & T1)];
    first [apply cstr_nil in H2 as E2|apply cstr_tail in H2 as (E2 & R2 & T2)];
    rewrite (bind_run _ _ _ _ _ (load_Some _ _ _ E1)), (bind_run _ _ _ _ _ (load_Some _ _ _ E2)).
  - exists 0. split; [done|by left].
  - rewrite (proj2 (Z.eqb_neq 0 d)) by lia. exists (-1). split; [done|].
    right. left. split; [done|apply lex_lt_nil].
  - rewrite (proj2 (Z.eqb_neq c 0)) by lia. exists 1. split; [done|].
    right. right. split; [done|apply lex_lt_nil].
  - rewrite (proj2 (Z.eqb_neq c 0)), (proj2 (Z.eqb_neq d 0)) by lia. cbn [negb andb].
    destruct (Z.ltb_spec c d).
    { exists (-1). split; [done|]. right. left. split; [done|by apply lex_lt_head]. }
    destruct (Z.ltb_spec d c).
    { exists 1. split; [done|]. right. right. split; [done|by apply lex_lt_head]. }
    assert (d = c) as -> by lia.
    destruct (IH fuel (s1 + 1) (s2 + 1) ds T1 T2) as (r & E & Hr); [simpl in Hf; lia|].
    exists r. split; [done|by apply cmp_spec_cons].
Qed.

Lemma memcmp_loop_ok s1 s2 cs ds st : length cs = length ds ->
  bytes_at (km st) s1 cs -> bytes_at (km st) s2 ds ->
  exists r, memcmp_loop (length cs) s1 s2 st = Ok (r, st) /\ cmp_spec r cs ds.
Proof.
  revert s1 s2 ds. induction cs as [|c cs IH]; intros s1 s2 [|d ds] Hl H1 H2; try done;
    cbn [length memcmp_loop].
  - exists 0. split; [done|by left].
  - destruct H1 as [E1 T1], H2 as [E2 T2].
    rewrite (bind_run _ _ _ _ _ (load_Some _ _ _ E1)), (bind_run _ _ _ _ _ (load_Some _ _ _ E2)).
    destruct (Z.ltb_spec c d).
    { exists (-1). split; [done|]. right. left. split; [done|by apply lex_lt_head]. }
    destruct (Z.ltb_spec d c).
    { exists 1. split; [done|]. right. right. split; [done|by apply lex_lt_head]. }
    assert (d = c) as -> by lia.
    destruct (IH (s1 + 1) (s2 + 1) ds) as (r & E & Hr); [by injection Hl|done..|].
    exists r. split; [done|by apply cmp_spec_cons].
Qed.

(** * Theorems *)

(** [memmove] copies any [n] mapped bytes to any [n] mapped bytes, also when the
    two areas overlap: afterwards the destination holds what the source held before,
    and every other byte is unchanged. [memcpy], which only copies upwards, does the
    same when the destination does not start inside the source. *)
Theorem memmove_correct dst src cs st (n := Z.of_nat (length cs)) :
  bytes_at (km st) src cs -> Forall (in_u 8) cs -> mapped (km st) dst n ->
  exists m, memmove dst src n st = Ok (dst, st <| km := m |>) /\ bytes_at m dst cs /\
    (forall p, p < dst \/ dst + n <= p -> m !! p = km st !! p) /\
    (dst <= src \/ src + n <= dst -> n < 2 ^ 31 ->
     memcpy dst src n st = memmove dst src n st).
Proof.
  intros Hs F Hd. unfold n in *. exists (wr (km st) dst cs).
  rewrite (memmove_ok (km st) dst src cs Hs Hd st eq_refl F). split_and!.
  - done.
  - by apply bytes_at_wr.
  - intros p Hp. by apply wr_outside.
  - intros Hov Hn. by apply memcpy_ok.
Qed.

(** [strcmp] decides the dictionary order of two strings: it returns 0 exactly for
    equal strings, -1 exactly when the first comes before the second and 1 exactly
    when it comes after; memory is unchanged. *)
Theorem strcmp_correct s1 s2 cs ds st : cstr (km st) s1 cs -> cstr (km st) s2 ds ->
  exists r, strcmp s1 s2 st = Ok (r, st) /\
    (r = 0 <-> cs = ds) /\ (r = -1 <-> lex_lt cs ds) /\ (r = 1 <-> lex_lt ds cs).
Proof.
  intros H1 H2. unfold strcmp, mem_fuel. rewrite (bind_run _ _ _ _ _ eq_refl).
  apply cstr_size in H1 as Hf.
  destruct (strcmp_loop_ok (S (size (km st))) s1 s2 cs ds st H1 H2) as (r & E & Hr); [lia|].
  exists r. split; [done|].
  pose proof (lex_lt_irrefl cs). pose proof (lex_lt_irrefl ds). pose proof (lex_lt_asym cs ds).
  destruct Hr as [[-> ->] | [[-> Hl] | [-> Hl]]]; split_and!; split; try done; intros; subst; tauto.
Qed.

Module KlibStringWitness.

Definition st : Klib :=
  mkKlib (list_to_map (zip (seqZ 0 10) [72; 105; 0; 72; 111; 0; 1; 2; 3; 4])) [] 1 None.

Lemma memmove_correct_witness : exists m,
  memmove 7 6 3 st = Ok (7, st <| km := m |>) /\ bytes_at m 7 [1; 2; 3].
Proof.
  destruct (memmove_correct 7 6 [1; 2; 3] st) as (m & E & B & _).
  - vm_compute. auto.
  - repeat constructor; vm_compute; auto; discriminate.
  - intros i Hi. assert (i = 0 \/ i = 1 \/ i = 2) as [-> | [-> | ->]] by (simpl in Hi; lia);
      vm_compute; eauto.
  - exists m. split; [exact E|exact B].
Defined.

Lemma strcmp_correct_witness : exists r, strcmp 0 3 st = Ok (r, st) /\ r = -1.
Proof.
  destruct (strcmp_correct 0 3 [72; 105] [72; 111] st) as (r & E & _ & H & _).
  - split; [vm_compute; auto|repeat constructor].
  - split; [vm_compute; auto|repeat constructor].
  - exists r. split; [exact E|]. apply H. exists [72]. right. exists 105, 111, [], []. auto with lia.
Defined.

End KlibStringWitness.
