(* ===== verification/KlibStdio.v ===== *)
(** Formatted output ([klib/src/stdio.c]).

    A [va_list] is the list of the remaining arguments, each as the [int], [unsigned]
    or pointer that was passed. [putch] appends to [kout]. *)

From S2P Require Import Prelude Digits KlibMem.

(** * The functions *)

(** 32 rounds are enough for a 32-bit number. *)
Definition u32_dev_len (num : Z) : Z := len_loop 32 10 num 0.
Definition u32_hex_len (num : Z) : Z := len_loop 32 16 num 0.

(** [*out++ = c]. *)
Definition emit (out c : Z) : M Klib Z := store out c ;; mret (out + 1).

(** [for (int i = 0; i < n; i ++) *out ++ = c;] *)
Fixpoint emit_n (n : nat) (out c : Z) : M Klib Z :=
  match n with
  | O => mret out
  | S n => out ← emit out c; emit_n n out c
  end.

Definition dec_char (t : Z) : Z := t mod 10 + 48.
Definition hex_char (t : Z) : Z := if t mod 16 <? 10 then t mod 16 + 48 else t mod 16 - 10 + 97.

(** [for (int i = len; i > 0; i --)]: [temp] is [num] divided [i - 1] times. *)
Fixpoint put_digits (base : Z) (char : Z -> Z) (i : nat) (num out : Z) : M Klib Z :=
  match i with
  | O => mret out
  | S j =>
      let temp := Nat.iter j (fun t => t / base) num in
      out ← emit out (char temp);
      put_digits base char j num out
  end.

(** The loop that copies a string argument to the output. *)
Fixpoint put_str (fuel : nat) (s out : Z) : M Klib Z :=
  match fuel with
  | O => undef "unterminated string"
  | S fuel =>
      c ← load s;
      if negb (c =? 0) then out ← emit out c; put_str fuel (s + 1) out else mret out
  end.

Definition INT_MIN : Z := - 2 ^ 31.

Definition put_dec (padding width d out : Z) : M Klib Z :=
  '(ud, out) ←
    (if d =? INT_MIN then out ← emit out 45; mret (2 ^ 31, out)
     else if d =? 0 then out ← emit out 48; mret (0, out)
     else if d <? 0 then
       let ud := - d in
       out ← (if padding =? 32 then
                out ← emit_n (Z.to_nat (width - u32_dev_len ud - 1)) out 32;
                emit out 45
              else mret out);
       out ← (if padding =? 48 then
                out ← emit out 45;
                emit_n (Z.to_nat (width - u32_dev_len ud)) out 48
              else mret out);
       mret (ud, out)
     else
       out ← emit_n (Z.to_nat (width - u32_dev_len d)) out padding;
       mret (d, out));
  put_digits 10 dec_char (Z.to_nat (u32_dev_len ud)) ud out.

Definition put_hex (padding width x out : Z) : M Klib Z :=
  out ← emit_n (Z.to_nat (width - u32_hex_len x)) out padding;
  put_digits 16 hex_char (Z.to_nat (u32_hex_len x)) x out.

(** The loop that reads the width; the result is [(width, fmt)]. *)
Fixpoint width_loop (fuel : nat) (width fmt : Z) : M Klib (Z * Z) :=
  match fuel with
  | O => undef "unterminated string"
  | S fuel =>
      c ← load fmt;
      if (48 <=? c) && (c <=? 57) then
        if width * 10 + c <? 2 ^ 31 then width_loop fuel (width * 10 + c - 48) (fmt + 1)
        else undef "signed overflow"
      else mret (width, fmt)
  end.

(** [va_arg]. *)
Definition va_arg (ap : list Z) : M Klib (Z * list Z) :=
  match ap with [] => undef "va_arg" | a :: ap => mret (a, ap) end.

(** The conversion after ['%']: the result is [(out, fmt, ap)]. *)
Definition directive (out fmt : Z) (ap : list Z) : M Klib (Z * Z * list Z) :=
  c ← load fmt;
  let '(padding, fmt) := if c =? 48 then (48, fmt + 1) else (32, fmt) in
  fuel ← mem_fuel;
  '(width, fmt) ← width_loop fuel 0 fmt;
  c ← load fmt;
  let fmt := fmt + 1 in
  if c =? 115 then
    '(s, ap) ← va_arg ap;
    fuel ← mem_fuel;
    out ← put_str fuel s out;
    mret (out, fmt, ap)
  else if c =? 99 then
    '(c, ap) ← va_arg ap;
    out ← emit out c;
    mret (out, fmt, ap)
  else if c =? 100 then
    '(d, ap) ← va_arg ap;
    out ← put_dec padding width (s32 d) out;
    mret (out, fmt, ap)
  else if c =? 120 then
    '(x, ap) ← va_arg ap;
    out ← put_hex padding width (u32 x) out;
    mret (out, fmt, ap)
  else mret (out, fmt, ap).

Fixpoint vsprintf_loop (fuel : nat) (out fmt : Z) (ap : list Z) : M Klib Z :=
  match fuel with
  | O => undef "unterminated string"
  | S fuel =>
      c ← load fmt;
      if negb (c =? 0) then
        if negb (c =? 37) then
          out ← emit out c;
          vsprintf_loop fuel out (fmt + 1) ap
        else
          '(out, fmt, ap) ← directive out (fmt + 1) ap;
          vsprintf_loop fuel out fmt ap
      else
        store out 0 ;;
        mret out
  end.

Definition vsprintf (out fmt : Z) (ap : list Z) : M Klib Z :=
  fuel ← mem_fuel;
  end_ ← vsprintf_loop fuel out fmt ap;
  mret (end_ - out).

Definition sprintf (out fmt : Z) (ap : list Z) : M Klib Z :=
  n ← vsprintf out fmt ap;
  mret n.

Definition putch (c : Z) : M Klib unit := modify (fun s => s <| kout := kout s ++ [c] |>).

Fixpoint puts_loop (fuel : nat) (p : Z) : M Klib unit :=
  match fuel with
  | O => undef "unterminated string"
  | S fuel =>
      c ← load p;
      if negb (c =? 0) then putch c ;; puts_loop fuel (p + 1) else mret tt
  end.

(** [out] is the address of the local buffer. *)
Definition printf (out fmt : Z) (ap : list Z) : M Klib Z :=
  num ← vsprintf out fmt ap;
  fuel ← mem_fuel;
  puts_loop fuel out ;;
  mret num.

Definition snprintf (out n fmt : Z) (ap : list Z) : M Klib Z := panic "Not implemented".
Definition vsnprintf (out n fmt : Z) (ap : list Z) : M Klib Z := panic "Not implemented".

(** * Specification: what a format directive asks for and what is printed *)

(** The digits of a 32-bit number. *)
Definition digits (b x : Z) : list Z := digits_of 32 b x.

Inductive item : Type :=
| Lit (c : Z)
| Str (p : Z) (cs : list Z)
| Chr (c : Z)
| Dec (zero : bool) (width d : Z)
| Hex (zero : bool) (width x : Z).

Definition pad_char (zero : bool) : Z := if zero then 48 else 32.
Definition fill (n c : Z) : list Z := replicate (Z.to_nat n) c.
Definition dec_text (x : Z) : list Z := map dec_char (digits 10 x).
Definition hex_text (x : Z) : list Z := map hex_char (digits 16 x).

(** What the C standard asks for: a number has at least one digit and its sign, if it is
    negative; it is filled up to the width with spaces in front of the sign or with zeros
    behind it. *)
Definition digit_char (v : Z) : Z := if v <? 10 then 48 + v else 87 + v.
Definition numeral (b x : Z) : list Z := map digit_char (if x =? 0 then [0] else digits b x).
Definition filled (zero : bool) (w : Z) (sign ds : list Z) : list Z :=
  let n := w - Z.of_nat (length sign + length ds) in
  if zero then sign ++ fill n 48 ++ ds else fill n 32 ++ sign ++ ds.

Definition asked_text (it : item) : list Z :=
  match it with
  | Lit c => [c]
  | Str _ cs => cs
  | Chr c => [u8 c]
  | Dec zero w d => filled zero w (if d <? 0 then [45] else []) (numeral 10 (Z.abs d))
  | Hex zero w x => filled zero w [] (numeral 16 x)
  end.

(** The items that the code gets wrong: a wide zero and the least [int] are not filled up, a
    negative number is filled up with one zero too many, [%x] of zero has no digit. *)
Definition misprinted (it : item) : bool :=
  match it with
  | Dec zero w d =>
      if d =? INT_MIN then 11 <? w
      else if d =? 0 then 1 <? w
      else (d <? 0) && zero && (Z.of_nat (length (numeral 10 (Z.abs d))) <? w)
  | Hex zero w x => (x =? 0) && (negb zero || (w =? 0))
  | _ => false
  end.

(** What the code prints. *)
Definition render (it : item) : list Z :=
  match it with
  | Lit c => [c]
  | Str _ cs => cs
  | Chr c => [u8 c]
  | Dec zero w d =>
      if d =? INT_MIN then 45 :: dec_text (2 ^ 31)
      else if d =? 0 then [48]
      else
        let ds := dec_text (Z.abs d) in
        let n := Z.of_nat (length ds) in
        if d <? 0 then
          if zero then 45 :: fill (w - n) 48 ++ ds else fill (w - n - 1) 32 ++ 45 :: ds
        else fill (w - n) (pad_char zero) ++ ds
  | Hex zero w x =>
      let ds := hex_text x in
      fill (w - Z.of_nat (length ds)) (pad_char zero) ++ ds
  end.

(** How an item is written in a format string. *)
Definition flags (zero : bool) (w : Z) : list Z := (if zero then [48] else []) ++ dec_text w.
Definition fmt_text (it : item) : list Z :=
  match it with
  | Lit c => [c]
  | Str _ _ => [37; 115]
  | Chr _ => [37; 99]
  | Dec zero w _ => 37 :: flags zero w ++ [100]
  | Hex zero w _ => 37 :: flags zero w ++ [120]
  end.

Definition item_args (it : item) : list Z :=
  match it with
  | Lit _ => []
  | Str p _ => [p]
  | Chr c => [c]
  | Dec _ _ d => [d]
  | Hex _ _ x => [x]
  end.

Definition item_ok (m : gmap Z Z) (it : item) : Prop :=
  match it with
  | Lit c => 0 < c < 256 /\ c <> 37
  | Str p cs => cstr m p cs
  | Chr _ => True
  | Dec _ w d => 0 <= w < 10 ^ 9 /\ INT_MIN <= d < 2 ^ 31
  | Hex _ w x => 0 <= w < 10 ^ 9 /\ in_u 32 x
  end.

(** The string argument of an item does not meet the area [a .. b). *)
Definition item_apart (a b : Z) (it : item) : Prop :=
  match it with
  | Str p cs => p + Z.of_nat (length cs) < a \/ b <= p
  | _ => True
  end.

Definition text (its : list item) : list Z := concat (map render its).
Definition asked (its : list item) : list Z := concat (map asked_text its).
Definition format (its : list item) : list Z := concat (map fmt_text its).
Definition arguments (its : list item) : list Z := concat (map item_args its).

(** * Digits *)

Lemma digits_number b x : 10 <= b -> in_u 32 x -> number b (digits b x) = x.
Proof.
  intros Hb [? Hx]. apply digits_of_number; [lia|].
  pose proof (Z.pow_le_mono_l 10 b (Z.of_nat 32)). change (10 ^ Z.of_nat 32) with (10 ^ 32) in *. lia.
Qed.

Lemma digits_head b x d ds : 10 <= b -> in_u 32 x -> digits b x = d :: ds -> d <> 0.
Proof.
  intros Hb [? Hx]. apply digits_of_head; [lia|].
  pose proof (Z.pow_le_mono_l 10 b (Z.of_nat 32)). change (10 ^ Z.of_nat 32) with (10 ^ 32) in *. lia.
Qed.

Lemma u32_dev_len_eq x : u32_dev_len x = Z.of_nat (length (dec_text x)).
Proof. unfold u32_dev_len, dec_text. by rewrite len_loop_eq, length_map. Qed.

Lemma u32_hex_len_eq x : u32_hex_len x = Z.of_nat (length (hex_text x)).
Proof. unfold u32_hex_len, hex_text. by rewrite len_loop_eq, length_map. Qed.

(** * Writers *)

(** [f] writes the bytes [cs] at its argument and returns the address after them. *)
Definition emits (f : Z -> M Klib Z) (cs : list Z) : Prop :=
  forall out st, mapped (km st) out (Z.of_nat (length cs)) ->
  f out st = Ok (out + Z.of_nat (length cs), st <| km := wr (km st) out cs |>).

Lemma emits_ret : emits mret [].
Proof. intros out st _. rewrite Z.add_0_r. by destruct st. Qed.

Lemma emits_emit c : emits (fun out => emit out c) [c].
Proof.
  intros out st H. unfold emit. erewrite bind_run; [done|]. apply store_Some.
  rewrite <- (Z.add_0_r out). apply H. simpl; lia.
Qed.

Lemma emits_seq f g cs ds : emits f cs -> emits g ds ->
  emits (fun out => out ← f out; g out) (cs ++ ds).
Proof.
  intros Hf Hg out st H. rewrite length_app in *.
  erewrite bind_run by (apply Hf; eapply mapped_sub; [done|lia|lia]).
  rewrite Hg.
  - by rewrite wr_app, Nat2Z.inj_add, Z.add_assoc.
  - apply wr_mapped. eapply mapped_sub; [done|lia|lia].
Qed.

Lemma emits_ext f g cs : (forall out st, f out st = g out st) -> emits g cs -> emits f cs.
Proof. intros E H out st Hm. rewrite E. by apply H. Qed.

Lemma emits_n n c : emits (fun out => emit_n n out c) (replicate n c).
Proof.
  induction n as [|n IH]; cbn [emit_n replicate]; [apply emits_ret|].
  apply (emits_seq _ _ [c] _ (emits_emit c) IH).
Qed.

Lemma emits_digits b (char : Z -> Z) n x : emits (put_digits b char n x) (map char (quots b n x)).
Proof.
  induction n as [|n IH]; [apply emits_ret|]. cbn [put_digits quots map].
  apply (emits_seq _ _ [_] _ (emits_emit _) IH).
Qed.

Lemma emits_dec x : emits (put_digits 10 dec_char (Z.to_nat (u32_dev_len x)) x) (dec_text x).
Proof.
  unfold dec_text, digits. rewrite <- (quots_digits 32 10 dec_char).
  - rewrite u32_dev_len_eq, Nat2Z.id. unfold dec_text, digits. rewrite length_map. apply emits_digits.
  - intros t. unfold dec_char. by rewrite Z.mod_mod.
Qed.

Lemma emits_hex x : emits (put_digits 16 hex_char (Z.to_nat (u32_hex_len x)) x) (hex_text x).
Proof.
  unfold hex_text, digits. rewrite <- (quots_digits 32 16 hex_char).
  - rewrite u32_hex_len_eq, Nat2Z.id. unfold hex_text, digits. rewrite length_map. apply emits_digits.
  - intros t. unfold hex_char. by rewrite Z.mod_mod.
Qed.

Lemma emits_put_hex zero w x : emits (put_hex (pad_char zero) w x) (render (Hex zero w x)).
Proof.
  pose proof (emits_hex x) as H. unfold put_hex, render. set (p := put_digits _ _ _ _) in *.
  rewrite u32_hex_len_eq. apply (emits_seq _ _ _ _ (emits_n _ _) H).
Qed.

Section Reassoc.
Context (A B : Z -> M Klib Z) (K : Z * Z -> M Klib Z) (ud out : Z) (st : Klib).

Lemma reassoc_first :
  ((out1 ← (out1 ← A out; B out1); out2 ← mret out1; mret (ud, out2)) ≫= K) st
  = (out1 ← A out; out2 ← B out1; K (ud, out2)) st.
Proof.
  unfold mbind, M_bind, mret, M_ret. destruct (A out st) as [[o s]|]; [|done].
  by destruct (B o s) as [[]|].
Qed.

Lemma reassoc_second :
  ((out1 ← mret out; out2 ← (out2 ← A out1; B out2); mret (ud, out2)) ≫= K) st
  = (out1 ← A out; out2 ← B out1; K (ud, out2)) st.
Proof.
  unfold mbind, M_bind, mret, M_ret. destruct (A out st) as [[o s]|]; [|done].
  by destruct (B o s) as [[]|].
Qed.
End Reassoc.

Lemma emits_put_dec zero w d : emits (put_dec (pad_char zero) w d) (render (Dec zero w d)).
Proof.
  unfold put_dec, render. destruct (Z.eqb_spec d INT_MIN) as [_|_].
  { eapply emits_ext; [intros; by rewrite bind_assoc|].
    apply (emits_seq _ _ [45] _ (emits_emit 45) (emits_dec (2 ^ 31))). }
  destruct (Z.eqb_spec d 0) as [->|].
  { eapply emits_ext; [intros; by rewrite bind_assoc|].
    apply (emits_seq _ _ [48] [] (emits_emit 48) (emits_dec 0)). }
  cbv zeta. destruct (Z.ltb_spec d 0).
  - replace (Z.abs d) with (- d) by lia.
    pose proof (emits_dec (- d)) as Hd. rewrite <- u32_dev_len_eq.
    destruct zero; cbn [pad_char Z.eqb Pos.eqb].
    + eapply emits_ext; [intros; apply reassoc_second|].
      apply (emits_seq _ _ [45] _ (emits_emit 45) (emits_seq _ _ _ _ (emits_n _ _) Hd)).
    + eapply emits_ext; [intros; apply reassoc_first|].
      apply (emits_seq _ _ _ _ (emits_n _ _) (emits_seq _ _ [45] _ (emits_emit 45) Hd)).
  - replace (Z.abs d) with d by lia. eapply emits_ext; [intros; by rewrite bind_assoc|].
    pose proof (emits_dec d) as Hd. rewrite <- u32_dev_len_eq.
    apply (emits_seq _ _ _ _ (emits_n _ _) Hd).
Qed.

Lemma put_str_ok fuel p cs out st : cstr (km st) p cs -> (length cs < fuel)%nat ->
  mapped (km st) out (Z.of_nat (length cs)) ->
  p + Z.of_nat (length cs) < out \/ out + Z.of_nat (length cs) <= p ->
  put_str fuel p out st = Ok (out + Z.of_nat (length cs), st <| km := wr (km st) out cs |>).
Proof.
  revert fuel p out st. induction cs as [|c cs IH]; intros [|fuel] p out st H Hf Hm Hd;
    try (simpl in Hf; lia); cbn [put_str].
  - apply cstr_nil in H. rewrite (bind_run _ _ _ _ _ (load_Some _ _ _ H)). cbn [negb Z.eqb].
    apply emits_ret. done.
  - apply cstr_tail in H as (E & Hc & H). rewrite (bind_run _ _ _ _ _ (load_Some _ _ _ E)).
    rewrite (proj2 (Z.eqb_neq c 0)) by lia. cbn [negb]. simpl length in *.
    erewrite bind_run by (apply emits_emit; eapply mapped_sub; [done|lia|simpl; lia]).
    change (Z.of_nat (length [c])) with 1. rewrite IH.
    + cbn [wr]. do 2 f_equal. lia.
    + destruct H as [H F]. split; [|done]. apply bytes_at_wr_other; [|done].
      rewrite length_app. simpl. lia.
    + lia.
    + apply wr_mapped. eapply mapped_sub; [done|lia|lia].
    + lia.
Qed.

Lemma foldl_ge ds acc : 0 <= acc -> Forall (fun d => 0 <= d < 10) ds ->
  acc <= foldl (fun a d => a * 10 + d) acc ds.
Proof.
  intros Ha F. revert acc Ha. induction F as [|d ds Hd F IH]; intros acc Ha; cbn [foldl]; [lia|].
  pose proof (IH (acc * 10 + d)). lia.
Qed.

Lemma width_loop_ok fuel ds acc fmt e st : Forall (fun d => 0 <= d < 10) ds -> 57 < e ->
  bytes_at (km st) fmt (map dec_char ds ++ [e]) -> (length ds < fuel)%nat -> 0 <= acc ->
  foldl (fun a d => a * 10 + d) acc ds < 10 ^ 9 ->
  width_loop fuel acc fmt st
  = Ok ((foldl (fun a d => a * 10 + d) acc ds, fmt + Z.of_nat (length ds)), st).
Proof.
  intros F He. revert fuel acc fmt. induction F as [|d ds Hd F IH];
    intros [|fuel] acc fmt B Hf Ha Hb; try (simpl in Hf; lia); cbn [width_loop map app] in *;
    destruct B as [E B]; rewrite (bind_run _ _ _ _ _ (load_Some _ _ _ E)).
  - rewrite (proj2 (Z.leb_gt e 57)), andb_false_r by lia. cbn [foldl length].
    by rewrite Z.add_0_r.
  - unfold dec_char. rewrite Z.mod_small by lia. cbn [foldl] in *.
    pose proof (foldl_ge ds (acc * 10 + d) ltac:(lia) F).
    rewrite (proj2 (Z.leb_le _ _)), (proj2 (Z.leb_le _ _)) by lia. cbn [andb].
    rewrite (proj2 (Z.ltb_lt _ _)) by lia.
    replace (acc * 10 + (d + 48) - 48) with (acc * 10 + d) by lia.
    rewrite IH by (done || simpl in Hf; lia). do 3 f_equal. simpl length. lia.
Qed.

(** The flags of a directive, up to the conversion character [e]. *)
Lemma flags_ok {A} zero w e fmt st (k : Z -> Z -> Z -> Z -> M Klib A) :
  0 <= w < 10 ^ 9 -> 57 < e -> bytes_at (km st) fmt (flags zero w ++ [e]) ->
  (length (flags zero w) < size (km st))%nat ->
  (c ← load fmt;
   let '(padding, fmt) := if c =? 48 then (48, fmt + 1) else (32, fmt) in
   fuel ← mem_fuel;
   '(width, fmt) ← width_loop fuel 0 fmt;
   c ← load fmt; k padding width fmt c) st
  = k (pad_char zero) w (fmt + Z.of_nat (length (flags zero w))) e st.
Proof.
  intros Hw He B Hs. unfold flags, dec_text in *.
  assert (in_u 32 w) as Hu by (unfold in_u; lia).
  pose proof (digits_of_range 32 10 w ltac:(lia)) as F. fold (digits 10 w) in F.
  pose proof (digits_number 10 w ltac:(lia) Hu) as N. unfold number in N.
  pose proof (digits_head 10 w) as Hh. set (ds := digits 10 w) in *. destruct zero; cbn [app] in *.
  - destruct B as [E B]. rewrite (bind_run _ _ _ _ _ (load_Some _ _ _ E)). cbn [Z.eqb Pos.eqb].
    rewrite (bind_run _ _ _ _ _ eq_refl). cbn [length] in *. rewrite length_map in *.
    erewrite bind_run by (apply (width_loop_ok _ ds _ _ e); [done..|simpl in Hs; lia|lia|lia]).
    rewrite N. apply bytes_at_app in B as [_ [Be _]]. rewrite length_map in Be.
    rewrite (bind_run _ _ _ _ _ (load_Some _ _ _ Be)). f_equal. lia.
  - assert (exists c, km st !! fmt = Some c /\ c <> 48) as (c & E & Hc).
    { destruct ds as [|d ds']; cbn [map app] in B; destruct B as [E _]; eexists; (split; [exact E|lia || idtac]).
      unfold dec_char. inversion F as [|? ? Hd]; subst. rewrite Z.mod_small by lia.
      specialize (Hh d ds' ltac:(lia) Hu eq_refl). lia. }
    rewrite (bind_run _ _ _ _ _ (load_Some _ _ _ E)), (proj2 (Z.eqb_neq c 48) Hc).
    rewrite (bind_run _ _ _ _ _ eq_refl). rewrite length_map in *.
    erewrite bind_run by (apply (width_loop_ok _ ds _ _ e); [done..|simpl in Hs; lia|lia|lia]).
    rewrite N. apply bytes_at_app in B as [_ [Be _]]. rewrite length_map in Be.
    by rewrite (bind_run _ _ _ _ _ (load_Some _ _ _ Be)).
Qed.

Definition conversion (it : item) : Z :=
  match it with Lit c => c | Str _ _ => 115 | Chr _ => 99 | Dec _ _ _ => 100 | Hex _ _ _ => 120 end.
Definition item_flags (it : item) : list Z :=
  match it with Dec zero w _ | Hex zero w _ => flags zero w | _ => [] end.

(** One directive prints its item. *)
Lemma directive_ok it out fmt ap st (n := Z.of_nat (length (render it))) :
  (forall c, it <> Lit c) -> item_ok (km st) it -> item_apart out (out + n) it ->
  mapped (km st) out n -> bytes_at (km st) fmt (item_flags it ++ [conversion it]) ->
  (length (item_flags it) < size (km st))%nat ->
  directive out fmt (item_args it ++ ap) st
  = Ok ((out + n, fmt + Z.of_nat (length (item_flags it)) + 1, ap),
        st <| km := wr (km st) out (render it) |>).
Proof.
  unfold n. intros Hl Hok Hap Hm B Hs. unfold directive. destruct it as [c|p cs|c|zero w d|zero w x].
  - by destruct (Hl c).
  - etransitivity; [apply (flags_ok false 0 115); done|]. cbn [Z.eqb Pos.eqb].
    rewrite (bind_run _ _ _ _ _ eq_refl), (bind_run _ _ _ _ _ eq_refl).
    cbn in Hok, Hap. apply cstr_size in Hok as Hsz.
    erewrite bind_run; [done|]. apply put_str_ok; (done || simpl; lia).
  - etransitivity; [apply (flags_ok false 0 99); done|]. cbn [Z.eqb Pos.eqb].
    rewrite (bind_run _ _ _ _ _ eq_refl).
    erewrite bind_run by (apply emits_emit; done).
    cbn [render wr]. by rewrite wrap_wrap.
  - destruct Hok as [Hw Hd]. etransitivity; [by apply (flags_ok zero w 100)|].
    cbn [Z.eqb Pos.eqb]. rewrite (bind_run _ _ _ _ _ eq_refl).
    rewrite sgn_id by (unfold INT_MIN in *; lia).
    erewrite bind_run; [done|]. by apply emits_put_dec.
  - destruct Hok as [Hw Hx]. etransitivity; [by apply (flags_ok zero w 120)|].
    cbn [Z.eqb Pos.eqb]. rewrite (bind_run _ _ _ _ _ eq_refl).
    rewrite wrap_id by done.
    erewrite bind_run; [done|]. by apply emits_put_hex.
Qed.

Lemma fmt_text_eq it : (forall c, it <> Lit c) ->
  fmt_text it = 37 :: item_flags it ++ [conversion it].
Proof. destruct it as [c| | | |]; try done. intros H. by destruct (H c). Qed.

(** One round of the loop consumes the text of an item. *)
Lemma step_ok it fuel out fmt ap st (n := Z.of_nat (length (render it))) :
  item_ok (km st) it -> item_apart out (out + n) it -> mapped (km st) out n ->
  bytes_at (km st) fmt (fmt_text it) -> (length (fmt_text it) < size (km st))%nat ->
  vsprintf_loop (S fuel) out fmt (item_args it ++ ap) st
  = vsprintf_loop fuel (out + n) (fmt + Z.of_nat (length (fmt_text it))) ap
      (st <| km := wr (km st) out (render it) |>).
Proof.
  intros Hok Hap Hm B Hs. cbn [vsprintf_loop].
  assert ((exists c, it = Lit c) \/ forall c, it <> Lit c) as [[c ->]|Hl].
  { destruct it; [left; by eexists|right; by intros..]. }
  - destruct Hok as [Hc H37], B as [E _]. rewrite (bind_run _ _ _ _ _ (load_Some _ _ _ E)).
    rewrite (proj2 (Z.eqb_neq c 0)), (proj2 (Z.eqb_neq c 37)) by lia. cbn [negb].
    by erewrite bind_run by (apply emits_emit; done).
  - rewrite fmt_text_eq in B, Hs |- * by done. destruct B as [E B].
    rewrite (bind_run _ _ _ _ _ (load_Some _ _ _ E)). cbn [Z.eqb Pos.eqb negb].
    cbn [length] in Hs |- *. rewrite length_app in Hs |- *. cbn [length] in Hs |- *.
    erewrite bind_run by (apply directive_ok; (done || lia)). fold n.
    f_equal. lia.
Qed.

Lemma vsprintf_loop_ok its fuel out fmt st (n := Z.of_nat (length (text its))) :
  cstr (km st) fmt (format its) -> Forall (item_ok (km st)) its ->
  Forall (item_apart out (out + n + 1)) its ->
  fmt + Z.of_nat (length (format its)) < out \/ out + n + 1 <= fmt ->
  mapped (km st) out (n + 1) -> (length its < fuel)%nat ->
  vsprintf_loop fuel out fmt (arguments its) st
  = Ok (out + n, st <| km := wr (km st) out (text its ++ [0]) |>).
Proof.
  unfold n. clear n. revert fuel out fmt st.
  induction its as [|it its IH]; intros [|fuel] out fmt st Hf Hok Hap Hd Hm Hfu;
    try (simpl in Hfu; lia).
  - apply cstr_nil in Hf. cbn [vsprintf_loop].
    rewrite (bind_run _ _ _ _ _ (load_Some _ _ _ Hf)). cbn [negb Z.eqb].
    erewrite bind_run by (apply store_Some; rewrite <- (Z.add_0_r out); apply Hm; simpl; lia).
    cbn [text map concat app wr length Z.of_nat]. by rewrite Z.add_0_r.
  - inversion Hok as [|? ? Hi Hok']. inversion Hap as [|? ? Ha Hap']. subst.
    unfold arguments, format, text in *. cbn [map concat] in *.
    fold (arguments its) (format its) (text its) in *.
    apply cstr_size in Hf as Hsz. rewrite !length_app in *. destruct Hf as [Bf Ff].
    rewrite <- app_assoc in Bf. apply bytes_at_app in Bf as [B1 B2].
    apply Forall_app in Ff as [_ Ff].
    rewrite step_ok; [|done| |eapply mapped_sub; [done|lia|lia]|done|lia].
    2:{ destruct it; try done. cbn in Ha |- *. lia. }
    set (st' := st <| km := wr (km st) out (render it) |>).
    rewrite IH with (st := st').
    + unfold st'. cbn. rewrite <- app_assoc, (wr_app _ _ (render it)). rewrite Nat2Z.inj_add, Z.add_assoc.
      by destruct st.
    + split; [|done]. apply bytes_at_wr_other; [rewrite length_app; simpl; lia|done].
    + rewrite Forall_forall in *. intros x Hx. specialize (Hok' x Hx). specialize (Hap' x Hx).
      destruct x as [| p cs | | |]; try done. cbn in Hok', Hap' |- *. destruct Hok' as [Hb Hc].
      split; [|done]. apply bytes_at_wr_other; [rewrite length_app; simpl; lia|done].
    + rewrite Forall_forall in *. intros x Hx. specialize (Hap' x Hx).
      destruct x; try done. cbn in Hap' |- *. lia.
    + lia.
    + apply wr_mapped. eapply mapped_sub; [done|lia|lia].
    + simpl in Hfu. lia.
Qed.

(** * What is printed and what is asked for *)

Lemma dec_numeral x : x <> 0 -> dec_text x = numeral 10 x.
Proof.
  intros Hx. unfold dec_text, numeral. rewrite (proj2 (Z.eqb_neq x 0)) by done. pose proof (digits_of_range 32 10 x ltac:(lia)) as F.
  fold (digits 10 x) in F. induction F as [|d ds Hd F IH]; cbn [map]; [done|]. rewrite IH. f_equal.
  unfold dec_char, digit_char. rewrite Z.mod_small, (proj2 (Z.ltb_lt d 10)) by lia. lia.
Qed.

Lemma hex_numeral x : x <> 0 -> hex_text x = numeral 16 x.
Proof.
  intros Hx. unfold hex_text, numeral. rewrite (proj2 (Z.eqb_neq x 0)) by done. pose proof (digits_of_range 32 16 x ltac:(lia)) as F.
  fold (digits 16 x) in F. induction F as [|d ds Hd F IH]; cbn [map]; [done|]. rewrite IH. f_equal.
  unfold hex_char, digit_char. rewrite Z.mod_small by lia. destruct (d <? 10); lia.
Qed.

Lemma fill_none n c : n <= 0 -> fill n c = [].
Proof. intros H. unfold fill. by replace (Z.to_nat n) with 0%nat by lia. Qed.
Lemma fill_last n c : 0 < n -> fill n c = fill (n - 1) c ++ [c].
Proof. intros H. unfold fill. replace (Z.to_nat n) with (S (Z.to_nat (n - 1))) by lia. by rewrite replicate_S_end. Qed.

Lemma length_fill n c : Z.of_nat (length (fill n c)) = Z.max 0 n.
Proof. unfold fill. rewrite length_replicate. lia. Qed.

Lemma length_filled zero w sign ds : Z.of_nat (length (filled zero w sign ds)) = Z.max w (Z.of_nat (length sign + length ds)).
Proof.
  unfold filled. cbv zeta. pose proof (length_fill (w - Z.of_nat (length sign + length ds)) 48).
  pose proof (length_fill (w - Z.of_nat (length sign + length ds)) 32). destruct zero; rewrite !length_app; lia.
Qed.

(** The code prints what is asked for exactly when the item is not one of those above. *)
Lemma render_asked m it : item_ok m it -> (render it = asked_text it <-> misprinted it = false).
Proof.
  intros Hok. destruct it as [c|p cs|c|zero w d|zero w x]; try done; cbn [render asked_text misprinted item_ok] in *; destruct Hok as [Hw Hx].
  - destruct (Z.eqb_spec d INT_MIN) as [->|Hm].
    { change (dec_text (2 ^ 31)) with (numeral 10 (Z.abs INT_MIN)). change (INT_MIN <? 0) with true. cbn iota.
      pose proof (length_filled zero w [45] (numeral 10 (Z.abs INT_MIN))) as Hl. change (Z.of_nat (length [45] + length (numeral 10 (Z.abs INT_MIN)))) with 11 in Hl.
      rewrite Z.ltb_ge. split; intros H; [rewrite <- H in Hl; change (11 = Z.max w 11) in Hl; lia|].
      unfold filled. cbv zeta. change (Z.of_nat (length [45] + length (numeral 10 (Z.abs INT_MIN)))) with 11.
      rewrite !(fill_none (w - 11)) by lia. by destruct zero. }
    destruct (Z.eqb_spec d 0) as [->|H0].
    { pose proof (length_filled zero w [] (numeral 10 (Z.abs 0))) as Hl. change (Z.of_nat (length (@nil Z) + length (numeral 10 (Z.abs 0)))) with 1 in Hl.
      rewrite Z.ltb_ge. split; intros H; [change (0 <? 0) with false in H; cbn iota in H; rewrite <- H in Hl; change (1 = Z.max w 1) in Hl; lia|].
      unfold filled. cbv zeta. change (Z.of_nat (length (if 0 <? 0 then [45] else []) + length (numeral 10 (Z.abs 0)))) with 1.
      rewrite !(fill_none (w - 1)) by lia. by destruct zero. }
    rewrite dec_numeral by lia. cbv zeta. set (ds := numeral 10 (Z.abs d)). destruct (Z.ltb_spec d 0); cbn [andb].
    + destruct zero; cbn [andb].
      * rewrite Z.ltb_ge. unfold filled. cbv zeta. cbn [length app]. split; intros H'.
        -- apply (f_equal (fun l => Z.of_nat (length l))) in H'. cbn [length] in H'. rewrite !length_app, !Nat2Z.inj_succ, !Nat2Z.inj_add, !length_fill in H'. lia.
        -- by rewrite !fill_none by lia.
      * split; [done|]. intros _. unfold filled. cbv zeta. cbn [length app plus].
        by replace (w - Z.of_nat (S (length ds))) with (w - Z.of_nat (length ds) - 1) by lia.
    + split; [by destruct zero|]. intros _. unfold filled. cbv zeta. cbn [length app plus]. by destruct zero.
  - destruct (Z.eqb_spec x 0) as [->|H0]; cbn [andb]; [|rewrite hex_numeral by done; split; [done|]; intros _; by destruct zero].
    change (hex_text 0) with (@nil Z). change (numeral 16 0) with [48]. unfold filled. cbv zeta. cbn [length app plus]. rewrite app_nil_r, Z.sub_0_r. change (Z.of_nat 1) with 1.
    destruct (Z.eqb_spec w 0) as [->|Hw']; [by destruct zero|]. rewrite (fill_last w) by lia. destruct zero; cbn [pad_char negb orb app].
    + done.
    + split; [|done]. intros [_ H]%app_inj_tail. done.
Qed.

Lemma text_asked m its : Forall (item_ok m) its -> Forall (fun it => misprinted it = false) its -> text its = asked its.
Proof.
  unfold text, asked. induction 1 as [|it its Hi _ IH]; intros Hm; [done|]. inversion_clear Hm. cbn [map concat].
  rewrite IH by done. f_equal. by apply (render_asked m).
Qed.

(** * Theorems *)

(** The number that a decimal text denotes. *)
Definition read_dec (cs : list Z) : Z :=
  match cs with
  | 45 :: cs => - number 10 (map (fun c => c - 48) cs)
  | _ => number 10 (map (fun c => c - 48) cs)
  end.

Lemma dec_text_value x : in_u 32 x -> number 10 (map (fun c => c - 48) (dec_text x)) = x.
Proof.
  intros Hx. unfold dec_text. rewrite map_map. rewrite <- (digits_number 10 x) at 2 by (done || lia).
  f_equal. pose proof (digits_of_range 32 10 x ltac:(lia)) as F. fold (digits 10 x) in F.
  induction F as [|d ds Hd F IH]; cbn [map]; [done|]. f_equal; [|done].
  unfold dec_char. rewrite Z.mod_small by lia. lia.
Qed.

Lemma dec_text_head x c cs : dec_text x = c :: cs -> c <> 45.
Proof.
  unfold dec_text. destruct (digits 10 x); [done|]. intros [= <- _]. unfold dec_char.
  pose proof (Z.mod_pos_bound z 10). lia.
Qed.

Lemma read_dec_render d : INT_MIN <= d < 2 ^ 31 -> read_dec (render (Dec false 0 d)) = d.
Proof.
  unfold INT_MIN. intros Hd. cbn [render]. unfold INT_MIN. destruct (Z.eqb_spec d (- 2 ^ 31)) as [->|].
  { cbn [read_dec]. rewrite dec_text_value; [done|unfold in_u; lia]. }
  destruct (Z.eqb_spec d 0) as [->|]; [done|]. cbv zeta. unfold fill.
  replace (Z.to_nat (0 - _ - 1)) with 0%nat by lia. replace (Z.to_nat (0 - _)) with 0%nat by lia.
  destruct (Z.ltb_spec d 0); cbn [replicate app].
  - cbn [read_dec]. rewrite dec_text_value by (unfold in_u; lia). lia.
  - rewrite Z.abs_eq by lia. rewrite <- (dec_text_value d) at 2 by (unfold in_u; lia).
    destruct (dec_text d) as [|c cs] eqn:E; [done|]. apply dec_text_head in E.
    unfold read_dec. repeat (case_match; try done).
Qed.

Lemma vsprintf_prints its out fmt st (n := Z.of_nat (length (text its))) :
  cstr (km st) fmt (format its) -> Forall (item_ok (km st)) its ->
  Forall (item_apart out (out + n + 1)) its ->
  fmt + Z.of_nat (length (format its)) < out \/ out + n + 1 <= fmt ->
  mapped (km st) out (n + 1) ->
  vsprintf out fmt (arguments its) st = Ok (n, st <| km := wr (km st) out (text its ++ [0]) |>).
Proof.
  intros Hf Hok Hap Hd Hm.
  unfold vsprintf, mem_fuel. rewrite (bind_run _ _ _ _ _ eq_refl).
  erewrite bind_run.
  2:{ apply vsprintf_loop_ok; try done. apply cstr_size in Hf.
      assert (length its <= length (format its))%nat as Hle; [|lia].
      clear. unfold format. induction its as [|it its IH]; cbn [map concat length]; [lia|].
      rewrite length_app. assert (1 <= length (fmt_text it))%nat by (destruct it; simpl; lia). lia. }
  unfold mret, M_ret. fold n. do 2 f_equal. lia.
Qed.


Module KlibStdioWitness.

(** The format [a%05d%s] at 0, the string [hi] at 10, the output area at 20. *)
Definition st : Klib :=
  mkKlib (list_to_map (zip (seqZ 0 8) [97; 37; 48; 53; 100; 37; 115; 0] ++
    zip (seqZ 10 3) [104; 105; 0] ++ zip (seqZ 20 12) (replicate 12 7))) [] 1 None.
Definition its : list item := [Lit 97; Dec true 5 42; Str 10 [104; 105]].


End KlibStdioWitness.
