(* ===== verification/KlibStdlib.v ===== *)
(** Random numbers, [atoi] and the bump allocator ([klib/src/stdlib.c]).

    [unsigned long] and pointers have 32 bits. The heap bounds are the fields of the
    machine's [heap] object. *)

From S2P Require Import Prelude KlibMem KlibStdio.

Definition rand : M Klib Z :=
  modify (fun s => s <| rnext := u32 (rnext s * 1103515245 + 12345) |>) ;;
  n ← gets rnext;
  mret ((n / 65536) mod 32768).

Definition srand (seed : Z) : M Klib unit := modify (fun s => s <| rnext := u32 seed |>).

(** [-x] overflows for the least [int]. *)
Definition c_abs (x : Z) : result Z :=
  if x <? 0 then if x =? INT_MIN then Abort (AUndef "signed overflow") else Ok (- x) else Ok x.

Fixpoint skip_spaces (fuel : nat) (p : Z) : M Klib Z :=
  match fuel with
  | O => undef "unterminated string"
  | S fuel => c ← load p; if c =? 32 then skip_spaces fuel (p + 1) else mret p
  end.

Fixpoint atoi_loop (fuel : nat) (p x : Z) : M Klib Z :=
  match fuel with
  | O => undef "unterminated string"
  | S fuel =>
      c ← load p;
      if (48 <=? c) && (c <=? 57) then
        if x * 10 + c <? 2 ^ 31 then atoi_loop fuel (p + 1) (x * 10 + c - 48)
        else undef "signed overflow"
      else mret x
  end.

Definition atoi (nptr : Z) : M Klib Z :=
  fuel ← mem_fuel;
  p ← skip_spaces fuel nptr;
  atoi_loop fuel p 0.

(** [ROUNDUP] of [klib-macros.h], on [uintptr_t]. *)
Definition roundup (a sz : Z) : Z := Z.land (u32 (a + sz - 1)) (u32 (Z.lnot (sz - 1))).

Section Heap.
Context (heap_start heap_end : Z).

(** The null pointer is 0. *)
Definition malloc (size : Z) : M Klib Z :=
  if size =? 0 then mret 0
  else
    a ← gets maddr;
    let addr := default heap_start a in
    let p := addr in
    let size := roundup size 8 in
    let addr := u32 (addr + size) in
    modify (fun s => s <| maddr := Some addr |>) ;;
    c_assert (addr <=? heap_end) "(uintptr_t)addr <= (uintptr_t)heap.end" ;;
    mret p.

Definition free (p : Z) : M Klib unit := mret tt.

(** [malloc] called once for each size. *)
Fixpoint mallocs (sizes : list Z) : M Klib (list Z) :=
  match sizes with
  | [] => mret []
  | n :: sizes => p ← malloc n; ps ← mallocs sizes; mret (p :: ps)
  end.
End Heap.

(** * The allocator

    A block is 8-byte aligned when the heap is, lies in the heap, and starts after
    every block handed out before. *)

Lemma roundup8 n : 0 < n <= 2 ^ 32 - 8 ->
  n <= roundup n 8 < n + 8 /\ roundup n 8 mod 8 = 0.
Proof.
  intros Hn. unfold roundup. change (u32 (Z.lnot (8 - 1))) with (Z.shiftl (Z.ones 29) 3).
  rewrite wrap_id by (unfold in_u; lia). set (x := n + 8 - 1).
  assert (Z.land x (Z.shiftl (Z.ones 29) 3) = x / 8 * 8) as ->.
  { transitivity (Z.shiftl (Z.land (Z.shiftr x 3) (Z.ones 29)) 3).
    - apply Z.bits_inj'. intros i Hi. rewrite Z.land_spec, !Z.shiftl_spec, Z.land_spec by lia.
      destruct (Z.ltb_spec i 3).
      + rewrite !(Z.testbit_neg_r _ (i - 3)) by lia. apply andb_false_r.
      + rewrite Z.shiftr_spec by lia. do 2 f_equal. lia.
    - rewrite Z.land_ones, Z.shiftl_mul_pow2, Z.shiftr_div_pow2 by lia.
      change (2 ^ 3) with 8. rewrite Z.mod_small; [done|].
      split; [apply Z.div_pos; lia|apply Z.div_lt_upper_bound; lia]. }
  split; [|by apply Z.mod_mul]. unfold x. pose proof (Z.div_mod (n + 8 - 1) 8).
  pose proof (Z.mod_pos_bound (n + 8 - 1) 8). lia.
Qed.

Section Alloc.
Context (hs he : Z).
Hypothesis Hheap : 0 < hs /\ hs mod 8 = 0 /\ he < 2 ^ 32.

(** The allocation pointer is in the heap and aligned. *)
Definition alloc_ok (s : Klib) : Prop :=
  let a := default hs (maddr s) in hs <= a <= he /\ a mod 8 = 0.

Lemma malloc_ok n s p s' : 0 < n <= 2 ^ 30 -> he < 2 ^ 31 -> alloc_ok s ->
  malloc hs he n s = Ok (p, s') ->
  alloc_ok s' /\ p = default hs (maddr s) /\ p mod 8 = 0 /\ hs <= p /\
  p + n <= default hs (maddr s') <= he /\ km s' = km s.
Proof.
  intros Hn He [Ha Hal] E. unfold malloc in E. rewrite (proj2 (Z.eqb_neq n 0)) in E by lia.
  apply bind_Ok in E as (a & s1 & E1 & E). inversion E1. subst. cbv zeta in E.
  set (addr := default hs (maddr s1)) in *.
  apply bind_Ok in E as ([] & s2 & E2 & E). inversion E2. subst.
  apply bind_Ok in E as ([] & s3 & E3 & E). apply c_assert_Ok in E3 as [Hle ->].
  inversion E. subst. destruct (roundup8 n ltac:(lia)) as [Hr Hm].
  assert (u32 (addr + roundup n 8) = addr + roundup n 8) as Ew by (apply wrap_id; unfold in_u; lia).
  rewrite Ew in *. apply Z.leb_le in Hle.
  unfold alloc_ok. cbn. unfold id. split_and!; try lia; try done.
  rewrite Z.add_mod, Hal, Hm by lia. done.
Qed.

(** Allocations one after the other do not overlap. *)
Lemma mallocs_disjoint sizes s ps s' : Forall (fun n => 0 < n <= 2 ^ 30) sizes -> he < 2 ^ 31 ->
  alloc_ok s -> mallocs hs he sizes s = Ok (ps, s') ->
  alloc_ok s' /\ length ps = length sizes /\
  (forall i p n, ps !! i = Some p -> sizes !! i = Some n ->
     default hs (maddr s) <= p /\ p mod 8 = 0 /\ p + n <= he) /\
  (forall i j p n q, (i < j)%nat -> ps !! i = Some p -> sizes !! i = Some n ->
     ps !! j = Some q -> p + n <= q).
Proof.
  intros F He. revert s ps. induction F as [|n sizes Hn F IH]; intros s ps Hs E; cbn [mallocs] in E.
  { inversion E. subst. split_and!; done. }
  apply bind_Ok in E as (p & s1 & E1 & E). apply bind_Ok in E as (qs & s2 & E2 & E).
  inversion E. subst. apply malloc_ok in E1 as (Ha & Hp & Hm & Hlo & Hhi & _); [|done..].
  destruct (IH s1 qs Ha E2) as (Ha' & Hl & Hb & Hd).
  split; [done|]. split; [simpl; lia|]. split.
  - intros [|i] x k Hx Hk; simpl in Hx, Hk.
    + simplify_eq. lia.
    + destruct (Hb i x k Hx Hk) as (? & ? & ?). lia.
  - intros [|i] [|j] x k q Hij Hx Hk Hq; simpl in Hx, Hk, Hq; try lia.
    + simplify_eq. destruct (lookup_lt_is_Some_2 sizes j) as [k' Hk'].
      { rewrite <- Hl. by apply lookup_lt_Some in Hq. }
      destruct (Hb j q k' Hq Hk') as (? & _). lia.
    + apply (Hd i j x k q); [lia|done..].
Qed.
End Alloc.
