(* ===== verification/Trace.v ===== *)
(** The instruction ring, the function table and the branch trace
    ([nemu/src/monitor/sdb/trace.c]).

    Text is a [string]; a [FILE *] opened for writing is the list of bytes written to
    it. An ELF file is a list of bytes, read at the offsets that [elf.h] gives the
    fields of the 32-bit structures. *)

From S2P Require Import Prelude.

(** * The instruction ring *)

Definition NR_RB : nat := 16.

Record IRingBuf : Type := mkRB { logbuf : string; valid : bool }.
Record ItraceState : Type := mkItrace { iringbuf : list IRingBuf; p : nat }.
#[global] Instance eta_ItraceState : Eta ItraceState := fun x => mkItrace (iringbuf x) (p x).

Definition itrace_zero : ItraceState := mkItrace (replicate NR_RB (mkRB "" false)) 0.

(** [strcpy] into the 128 bytes of [logbuf]. *)
Definition itrace_push (str1 : string) : M ItraceState unit := fun s =>
  if (String.length str1 <? 128)%nat then
    Ok (tt, mkItrace (<[p s := mkRB str1 true]> (iringbuf s)) (S (p s) mod NR_RB))
  else Abort (AUndef "strcpy past logbuf").

(** The lines printed, each with its arrow. *)
Definition itrace_dump (s : ItraceState) : list (bool * string) :=
  omap (fun '(i, b) => if valid b then Some ((i =? p s)%nat, logbuf b) else None)
    (imap pair (iringbuf s)).

Fixpoint itrace_pushes (xs : list string) : M ItraceState unit :=
  match xs with
  | [] => mret tt
  | x :: xs => itrace_push x ;; itrace_pushes xs
  end.

(** * Function table *)

(** A function name: a pointer into [strtab], or the literal ["???"]. *)
Inductive fname : Type := NameAt (off : Z) | Unknown.

Record FuncInfo : Type := mkFunc { name : fname; addr : Z; size_ : Z }.

(** [func_table] up to [func_num]. *)
Fixpoint find_func (func_table : list FuncInfo) (a : Z) : fname :=
  match func_table with
  | [] => Unknown
  | f :: fs =>
      if (addr f <=? a) && (a <? u32 (addr f + size_ f)) then name f else find_func fs a
  end.

(** [n] bytes of the file at [off]; a short read leaves the object indeterminate. *)
Definition file_read (file : list Z) (off n : Z) : result (list Z) :=
  if (0 <=? off) && (off + n <=? Z.of_nat (length file))
  then Ok (take (Z.to_nat n) (drop (Z.to_nat off) file))
  else Abort (AUndef "short read").

(** A little-endian field of a structure held in [bs]. *)
Definition field (bs : list Z) (off n : nat) : Z := le_combine (take n (drop off bs)).

Definition sizeof_Ehdr : Z := 52.
Definition sizeof_Shdr : Z := 40.
Definition sizeof_Sym : Z := 16.
Definition e_shoff (h : list Z) : Z := field h 32 4.
Definition e_shnum (h : list Z) : Z := field h 48 2.
Definition sh_type (h : list Z) : Z := field h 4 4.
Definition sh_offset (h : list Z) : Z := field h 16 4.
Definition sh_size (h : list Z) : Z := field h 20 4.
Definition sh_link (h : list Z) : Z := field h 24 4.
Definition st_name (h : list Z) : Z := field h 0 4.
Definition st_value (h : list Z) : Z := field h 4 4.
Definition st_size (h : list Z) : Z := field h 8 4.
Definition st_info (h : list Z) : Z := field h 12 1.
Definition SHT_SYMTAB : Z := 2.
Definition STT_FUNC : Z := 2.
Definition ELF32_ST_TYPE (info : Z) : Z := Z.land info 0xf.

(** An array of [n] structures of [sz] bytes at the start of [bs]. *)
Fixpoint structs (n : nat) (sz : Z) (bs : list Z) : list (list Z) :=
  match n with
  | O => []
  | S n => take (Z.to_nat sz) bs :: structs n sz (drop (Z.to_nat sz) bs)
  end.

(** The last section of type [SHT_SYMTAB]. *)
Fixpoint symtab_loop (i : nat) (shdr : list (list Z)) (symtab_idx : option nat) : option nat :=
  match shdr with
  | [] => symtab_idx
  | h :: shdr => symtab_loop (S i) shdr (if sh_type h =? SHT_SYMTAB then Some i else symtab_idx)
  end.

(** The loop over the symbols. *)
Fixpoint func_loop (syms : list (list Z)) : list FuncInfo :=
  match syms with
  | [] => []
  | sym :: syms =>
      if ELF32_ST_TYPE (st_info sym) =? STT_FUNC
      then mkFunc (NameAt (st_name sym)) (st_value sym) (st_size sym) :: func_loop syms
      else func_loop syms
  end.

(** The table and the string table. [file] is [None] when [fopen] fails: the table
    stays empty. *)
Definition init_ftrace (file : option (list Z)) : result (list FuncInfo * list Z) :=
  match file with
  | None => Ok ([], [])
  | Some file =>
      ehdr ← file_read file 0 sizeof_Ehdr;
      shdrs ← file_read file (e_shoff ehdr) (e_shnum ehdr * sizeof_Shdr);
      let shdr := structs (Z.to_nat (e_shnum ehdr)) sizeof_Shdr shdrs in
      match symtab_loop 0 shdr None with
      | None => Abort (AUndef "shdr[-1]")
      | Some symtab_idx =>
          let symtab := default [] (shdr !! symtab_idx) in
          match shdr !! Z.to_nat (sh_link symtab) with
          | None => Abort (AUndef "shdr[strtab_idx]")
          | Some strsec =>
              let sym_num := sh_size symtab / sizeof_Sym in
              syms ← file_read file (sh_offset symtab) (sym_num * sizeof_Sym);
              let strtab := take (Z.to_nat (sh_size strsec)) (drop (Z.to_nat (sh_offset strsec)) file) in
              let func_table := func_loop (structs (Z.to_nat sym_num) sizeof_Sym syms) in
              if Z.of_nat (length strtab) =? sh_size strsec then Ok (func_table, strtab)
              else Abort (AAssert "ret == shdr[strtab_idx].sh_size")
          end
      end
  end.

(** * Branch trace *)

Record BranchTrace : Type := mkBT { bt_pc : Z; bt_target : Z; bt_taken : Z }.

Definition bt_bytes (t : BranchTrace) : list Z :=
  le_split 4 (bt_pc t) ++ le_split 4 (bt_target t) ++ le_split 4 (bt_taken t).

Definition branch_trace_push (pc target : Z) (taken : bool) : M (list Z) unit :=
  let trace := mkBT pc target (if taken then 1 else 0) in
  modify (fun branch_trace_fp => branch_trace_fp ++ bt_bytes trace).

(** * The ring keeps the last sixteen lines *)

(** The slots from the next one to be written, oldest first. *)
Definition rotated (s : ItraceState) : list IRingBuf :=
  drop (p s) (iringbuf s) ++ take (p s) (iringbuf s).

Definition ring_ok (s : ItraceState) : Prop := length (iringbuf s) = NR_RB /\ (p s < NR_RB)%nat.

Lemma itrace_push_ok x s : ring_ok s -> (String.length x < 128)%nat ->
  exists s', itrace_push x s = Ok (tt, s') /\ ring_ok s' /\ p s' = (S (p s) mod NR_RB)%nat /\
    rotated s' = tail (rotated s) ++ [mkRB x true].
Proof.
  intros [Hl Hp] Hx. unfold itrace_push. apply Nat.ltb_lt in Hx as ->. eexists. split; [done|].
  unfold ring_ok, rotated, NR_RB in *. cbn [iringbuf p].
  destruct (lookup_lt_is_Some_2 (iringbuf s) (p s)) as [b Hb]; [lia|].
  rewrite length_insert, (drop_S _ _ _ Hb). cbn [app tail].
  split; [split; [done|apply Nat.mod_upper_bound; lia]|]. split; [done|].
  destruct (Nat.eq_dec (p s) 15%nat) as [E|].
  - rewrite E. change (16 mod 16)%nat with 0%nat. rewrite drop_0, take_0, app_nil_r.
    rewrite (drop_ge _ 16%nat) by lia. cbn [app].
    rewrite insert_take_drop by lia. rewrite (drop_ge _ 16%nat) by lia. done.
  - rewrite Nat.mod_small by lia. rewrite insert_take_drop by lia.
    rewrite drop_app_ge, take_app_ge by (rewrite length_take; lia).
    rewrite length_take, Hl. replace (S (p s) - p s `min` 16)%nat with 1%nat by lia.
    cbn [drop take]. rewrite drop_0, take_0, <- app_assoc. done.
Qed.

Lemma pushes_ok xs s : ring_ok s -> Forall (fun x => String.length x < 128)%nat xs ->
  exists s', itrace_pushes xs s = Ok (tt, s') /\ ring_ok s' /\
    p s' = ((p s + length xs) mod NR_RB)%nat /\ rotated s' = drop (length xs) (rotated s ++ map (fun x => mkRB x true) xs).
Proof.
  intros Hs F. revert s Hs. induction F as [|x xs Hx F IH]; intros s Hs; cbn [itrace_pushes map].
  - exists s. split; [done|]. split; [done|]. split; [|by rewrite app_nil_r].
    destruct Hs as [_ Hp]. rewrite Nat.add_0_r. by rewrite Nat.mod_small.
  - destruct (itrace_push_ok x s Hs Hx) as (s1 & E1 & H1 & P1 & R1).
    destruct (IH s1 H1) as (s2 & E2 & H2 & P2 & R2).
    exists s2. rewrite (bind_run _ _ _ _ _ E1). split; [done|]. split; [done|]. split.
    { rewrite P2, P1, Nat.Div0.add_mod_idemp_l. f_equal. simpl length. lia. }
    rewrite R2, R1. destruct (rotated s) as [|b l] eqn:E.
    { apply (f_equal length) in E. unfold rotated in E. destruct Hs as [Hl Hp].
      rewrite length_app, length_drop, length_take, Hl in E. unfold NR_RB in *. simpl in E. lia. }
    cbn [tail length app drop]. by rewrite <- app_assoc.
Qed.

(** The texts of the valid slots. *)
Definition texts (l : list IRingBuf) : list string :=
  omap (fun b => if valid b then Some (logbuf b) else None) l.

(** The lines of slots whose numbers start at [k]. *)
Definition lines (q k : nat) (l : list IRingBuf) : list (bool * string) :=
  omap (fun '(i, b) => if valid b then Some ((i =? q)%nat, logbuf b) else None)
    (imap (fun i => pair (k + i)%nat) l).

Lemma lines_cons q k b l : lines q k (b :: l) =
  (if valid b then [((k =? q)%nat, logbuf b)] else []) ++ lines q (S k) l.
Proof.
  unfold lines. cbn [imap omap list_omap]. rewrite Nat.add_0_r.
  assert (imap ((fun i => pair (k + i)%nat) ∘ S) l = imap (fun i => pair (S k + i)%nat) l) as ->.
  { apply imap_ext. intros i x _. simpl. f_equal. lia. }
  by destruct (valid b).
Qed.

Lemma lines_no_arrow q k l : (forall i, (i < length l)%nat -> (k + i)%nat <> q) ->
  lines q k l = map (pair false) (texts l).
Proof.
  revert k. induction l as [|b l IH]; intros k H; [done|]. rewrite lines_cons, IH.
  - unfold texts. cbn [omap list_omap].
    rewrite (proj2 (Nat.eqb_neq k q)); [by destruct (valid b)|].
    specialize (H 0%nat). rewrite Nat.add_0_r in H. apply H. simpl. lia.
  - intros i Hi. specialize (H (S i)). simpl in H. lia.
Qed.

Lemma dump_lines s : itrace_dump s =
  lines (p s) 0 (take (p s) (iringbuf s)) ++
  lines (p s) (length (take (p s) (iringbuf s))) (drop (p s) (iringbuf s)).
Proof.
  unfold itrace_dump, lines. rewrite <- omap_app.
  f_equal. rewrite <- (take_drop (p s) (iringbuf s)) at 1. rewrite imap_app. done.
Qed.

(** The arrow is put on the first line. *)
Definition arrow (l : list string) : list (bool * string) :=
  match l with [] => [] | x :: l => (true, x) :: map (pair false) l end.

Lemma texts_valid xs : texts (map (fun x => mkRB x true) xs) = xs.
Proof. induction xs as [|x xs IH]; [done|]. unfold texts. cbn. by f_equal. Qed.

Lemma texts_invalid n : texts (replicate n (mkRB "" false)) = [].
Proof. by induction n. Qed.

Lemma texts_app l k : texts (l ++ k) = texts l ++ texts k.
Proof. apply omap_app. Qed.

(** The instruction ring keeps the last sixteen lines: after any number of
    pushes, [itrace_dump] prints exactly the last sixteen of them (all, if fewer),
    the newer part that has wrapped around before the older part, with the arrow on
    the oldest line once the ring is full. *)
Theorem itrace_keeps_last xs : Forall (fun x => String.length x < 128)%nat xs ->
  exists s old new, itrace_pushes xs itrace_zero = Ok (tt, s) /\
    old ++ new = drop (length xs - NR_RB) xs /\
    itrace_dump s = map (pair false) new ++ arrow old.
Proof.
  intros F. destruct (pushes_ok xs itrace_zero) as (s & E & [Hl Hp] & P & R); [by split; [|unfold NR_RB; simpl; lia]|done|].
  exists s, (texts (drop (p s) (iringbuf s))), (texts (take (p s) (iringbuf s))).
  split; [done|]. change (rotated itrace_zero) with (replicate 16 (mkRB "" false)) in R.
  change (p itrace_zero) with 0%nat in P. cbn [Nat.add] in P. split.
  - rewrite <- texts_app. fold (rotated s). rewrite R. unfold NR_RB.
    destruct (Nat.le_gt_cases (length xs) 16).
    + rewrite drop_app_le by (rewrite length_replicate; lia).
      rewrite drop_replicate, texts_app, texts_invalid, texts_valid.
      by replace (length xs - 16)%nat with 0%nat by lia.
    + rewrite drop_app_ge by (rewrite length_replicate; lia).
      by rewrite length_replicate, <- fmap_drop, texts_valid.
  - rewrite dump_lines, lines_no_arrow.
    2:{ intros i Hi. rewrite length_take in Hi. lia. }
    f_equal. rewrite length_take, Hl. replace (p s `min` NR_RB)%nat with (p s) by lia.
    destruct (Nat.le_gt_cases NR_RB (length xs)).
    + assert (Forall (fun b => valid b = true) (drop (p s) (iringbuf s))) as Fv.
      { assert (Forall (fun b => valid b = true) (rotated s)) as Fr.
        { rewrite R. unfold NR_RB in *. rewrite drop_app_ge by (rewrite length_replicate; lia).
          apply Forall_drop. by apply Forall_map, Forall_true. }
        unfold rotated in Fr. by apply Forall_app in Fr as [? _]. }
      destruct (drop (p s) (iringbuf s)) as [|b l]; [done|]. rewrite lines_cons, lines_no_arrow.
      2:{ intros i _. lia. }
      inversion Fv as [|? ? Hv _]; subst. unfold texts. cbn [omap list_omap]. rewrite Hv, Nat.eqb_refl.
      done.
    + rewrite Nat.mod_small in P by done. unfold NR_RB in *.
      assert (drop (p s) (iringbuf s) = replicate (16 - length xs) (mkRB "" false)) as ->.
      { unfold rotated in R. rewrite drop_app_le in R by (rewrite length_replicate; lia).
        rewrite drop_replicate in R. apply app_inj_1 in R as [R _]; [done|].
        rewrite length_drop, length_replicate. lia. }
      rewrite texts_invalid. cbn [arrow].
      assert (forall n k, lines (p s) k (replicate n (mkRB "" false)) = []) as Hn; [|apply Hn].
      intros n. induction n as [|n IH]; intros k; [done|]. cbn [replicate]. rewrite lines_cons.
      apply IH.
Qed.

(** [find_func] returns the first function whose range holds the address. *)
Lemma find_func_spec fs a :
  (exists l f k, fs = l ++ f :: k /\ addr f <= a < u32 (addr f + size_ f) /\
     Forall (fun g => ~ addr g <= a < u32 (addr g + size_ g)) l /\ find_func fs a = name f) \/
  (Forall (fun g => ~ addr g <= a < u32 (addr g + size_ g)) fs /\ find_func fs a = Unknown).
Proof.
  induction fs as [|f fs IH]; cbn [find_func]; [by right|].
  destruct ((addr f <=? a) && (a <? u32 (addr f + size_ f))) eqn:E.
  - left. exists [], f, fs. breflect. done.
  - apply andb_false_iff in E.
    assert (~ addr f <= a < u32 (addr f + size_ f)) by (destruct E; breflect; lia).
    destruct IH as [(l & g & k & -> & Hg & Hl & ->)|[Hl ->]].
    + left. exists (f :: l), g, k. split_and!; try done; try lia. by constructor.
    + right. split; [by constructor|done].
Qed.

Module TraceWitness.

Lemma itrace_keeps_last_witness : exists s,
  itrace_pushes ["a"; "b"; "c"]%string itrace_zero = Ok (tt, s) /\
  exists old new, old ++ new = ["a"; "b"; "c"]%string /\
    itrace_dump s = map (pair false) new ++ arrow old.
Proof.
  destruct (itrace_keeps_last ["a"; "b"; "c"]%string) as (s & old & new & E & Ha & Hd).
  - repeat constructor.
  - exists s. split; [exact E|]. exists old, new. split; [exact Ha|exact Hd].
Defined.

End TraceWitness.
