(* ===== verification/Gdb.v ===== *)
(** The GDB remote protocol client of the QEMU reference
    ([nemu/tools/qemu-diff/src/protocol.c] and [gdb-host.c]).

    A connection is the bytes still to be read from the server, the bytes written to
    it and the acknowledge flag. The end of the input is the end of the file: a
    receive then exits, and a send that still waits for an acknowledgement would
    repeat for ever, so the model stops there. [heap_junk] is what a fresh block of
    the reply buffer holds. *)

From S2P Require Import Prelude.

(** * Hexadecimal *)

Definition isdigit (c : Z) : bool := (48 <=? c) && (c <=? 57).
Definition isxdigit (c : Z) : bool :=
  isdigit c || ((97 <=? c) && (c <=? 102)) || ((65 <=? c) && (c <=? 70)).
Definition tolower (c : Z) : Z := if (65 <=? c) && (c <=? 90) then c + 32 else c.

Definition hex_nibble (hex : Z) : Z := u8 (if isdigit hex then hex - 48 else tolower hex - 97 + 10).
Definition hex_encode (digit : Z) : Z := u8 (if 9 <? digit then 97 + digit - 10 else 48 + digit).

Definition UINT16_MAX : Z := 65535.
Definition gdb_decode_hex (msb lsb : Z) : Z :=
  if negb (isxdigit msb) || negb (isxdigit lsb) then UINT16_MAX
  else u16 (16 * hex_nibble msb + hex_nibble lsb).

(** The string ends at the first byte that is not a digit; reading past the list is
    not reached because the caller's string is terminated. *)
Fixpoint decode_loop (bytes : list Z) (value weight : Z) : Z :=
  match bytes with
  | b0 :: b1 :: rest =>
      if isxdigit b0 && isxdigit b1
      then decode_loop rest (u64 (value + weight * gdb_decode_hex b0 b1)) (u64 (weight * (16 * 16)))
      else value
  | _ => value
  end.
Definition gdb_decode_hex_str (bytes : list Z) : Z := decode_loop bytes 0 1.

(** * The connection *)

Record gdb_conn : Type := mkConn { c_in : list Z; c_out : list Z; ack : bool }.
#[global] Instance eta_gdb_conn : Eta gdb_conn := fun x => mkConn (c_in x) (c_out x) (ack x).

Definition EOF : Z := -1.

Definition fgetc : M gdb_conn Z := fun s =>
  match c_in s with
  | [] => Ok (EOF, s)
  | c :: cs => Ok (c, s <| c_in := cs |>)
  end.
(** [ungetc(EOF, in)] does nothing. *)
Definition ungetc (c : Z) : M gdb_conn unit :=
  modify (fun s => if c =? EOF then s else s <| c_in := c :: c_in s |>).
Definition fputs (cs : list Z) : M gdb_conn unit := modify (fun s => s <| c_out := c_out s ++ cs |>).

(** [gdb_begin] on a fresh socket: [fd] is what the server will send. *)
Definition gdb_begin (fd : list Z) : gdb_conn :=
  final (fputs [43]) (mkConn fd [] true).

(** [%02X] *)
Definition upper_hex (d : Z) : Z := if d <? 10 then 48 + d else 65 + (d - 10).
Definition hex2 (x : Z) : list Z := [upper_hex (x / 16); upper_hex (x mod 16)].

Definition checksum (command : list Z) : Z := foldl (fun sum c => u8 (sum + c)) 0 command.

Definition send_packet (command : list Z) : M gdb_conn unit :=
  let sum := checksum command in
  fputs [36] ;;
  fputs command ;;
  fputs (35 :: hex2 sum).

(** Each round reads one byte. *)
Fixpoint send_loop (fuel : nat) (command : list Z) : M gdb_conn unit :=
  match fuel with
  | O => undef "no acknowledgement"
  | S fuel =>
      send_packet command ;;
      a ← gets ack;
      if negb a then mret tt
      else
        c ← fgetc;
        if c =? 43 then mret tt else send_loop fuel command
  end.
Definition gdb_send (command : list Z) : M gdb_conn unit :=
  s ← get; send_loop (S (length (c_in s))) command.

(** * Receiving *)

Definition REPLY_SIZE : nat := Z.to_nat 4096.

(** The local variables of [recv_packet]: the first [i] bytes of [reply], the size of
    the block, the checksum and the escape flag. *)
Record rstate : Type := mkR { reply : list Z; rsize : nat; sum : Z; escape : bool }.

(** [while ((c = fgetc(in)) != EOF && c != '$');] *)
Fixpoint skip_to_start (fuel : nat) : M gdb_conn unit :=
  match fuel with
  | O => mret tt
  | S fuel => c ← fgetc; if negb (c =? EOF) && negb (c =? 36) then skip_to_start fuel else mret tt
  end.

(** The end of the loop body: add one character, with a bigger block if needed. *)
Definition add_char (r : rstate) (c : Z) : rstate :=
  let c := if escape r then Z.lxor c 0x20 else c in
  let size := if (length (reply r) =? rsize r)%nat then (rsize r * 2)%nat else rsize r in
  mkR (reply r ++ [c]) size (sum r) false.

(** [memset(&reply[i], reply[i - 1], count)], with a bigger block if needed. *)
Definition add_run (r : rstate) (c2 : Z) : M gdb_conn rstate :=
  let count := Z.to_nat (c2 - 29) in
  let i := length (reply r) in
  let size := if (rsize r <? i + count)%nat then (rsize r * 2)%nat else rsize r in
  if (size <? i + count)%nat then undef "reply overflow"
  else mret (mkR (reply r ++ replicate count (default 0 (last (reply r)))) size (u8 (sum r + c2)) (escape r)).

(** The main loop; the result is the reply and [*ret_sum_ok]. *)
Fixpoint recv_loop (fuel : nat) (r : rstate) : M gdb_conn (list Z * bool) :=
  match fuel with
  | O => stop (APanic "recv: Connection closed")
  | S fuel =>
      c ← fgetc;
      if c =? EOF then stop (APanic "recv: Connection closed")
      else
        let r := mkR (reply r) (rsize r) (u8 (sum r + c)) (escape r) in
        if c =? 36 then recv_loop fuel (mkR [] (rsize r) 0 false)
        else if c =? 35 then
          let sum := u8 (sum r - c) in
          msb ← fgetc;
          lsb ← fgetc;
          mret (reply r, sum =? gdb_decode_hex (u8 msb) (u8 lsb))
        else if c =? 125 then recv_loop fuel (mkR (reply r) (rsize r) (sum r) true)
        else if (c =? 42) && (0 <? length (reply r))%nat then
          c2 ← fgetc;
          if (c2 <? 29) || (126 <? c2) || (c2 =? 36) || (c2 =? 35) then
            ungetc c2 ;;
            recv_loop fuel (add_char r c)
          else
            r ← add_run r c2;
            recv_loop fuel r
        else recv_loop fuel (add_char r c)
  end.

Definition recv_packet : M gdb_conn (list Z * bool) :=
  s ← get;
  skip_to_start (S (length (c_in s))) ;;
  s ← get;
  recv_loop (S (length (c_in s))) (mkR [] REPLY_SIZE 0 false).

(** Each packet takes at least one byte of input. *)
Fixpoint gdb_recv_loop (fuel : nat) : M gdb_conn (list Z) :=
  match fuel with
  | O => stop (APanic "recv: Connection closed")
  | S fuel =>
      '(reply, acked) ← recv_packet;
      a ← gets ack;
      if negb a then mret reply
      else
        fputs [if acked : bool then 43 else 45] ;;
        if acked : bool then mret reply else gdb_recv_loop fuel
  end.
Definition gdb_recv : M gdb_conn (list Z) :=
  s ← get; gdb_recv_loop (S (length (c_in s))).

(** [!strcmp(reply, "OK")]: the reply is terminated where it ends. *)
Definition is_ok_reply (reply : list Z) : bool :=
  match reply with
  | 79 :: 75 :: [] => true
  | 79 :: 75 :: 0 :: _ => true
  | _ => false
  end.

Definition cmd_noack : list Z := [81; 83; 116; 97; 114; 116; 78; 111; 65; 99; 107; 77; 111; 100; 101].

Definition gdb_start_noack : M gdb_conn bool :=
  gdb_send cmd_noack ;;
  reply ← gdb_recv;
  let ok := (length reply =? 2)%nat && is_ok_reply reply in
  when ok (modify (fun s => s <| ack := false |>)) ;;
  mret ok.

(** * Commands of [gdb-host.c] *)

(** [sprintf("%x")]. *)
Fixpoint hex_digits (fuel : nat) (x : Z) (acc : list Z) : list Z :=
  match fuel with
  | O => acc
  | S fuel =>
      let acc := hex_encode (x mod 16) :: acc in
      if x <? 16 then acc else hex_digits fuel (x / 16) acc
  end.
Definition hex (x : Z) : list Z := hex_digits 8 x [].

(** [sprintf("%c%c", hex_encode(b >> 4), hex_encode(b & 0xf))] for every byte. *)
Definition hex_bytes (bs : list Z) : list Z :=
  flat_map (fun b => [hex_encode (Z.shiftr b 4); hex_encode (Z.land b 0xf)]) bs.

Definition gdb_memcpy_to_qemu_small (dest : Z) (src : list Z) : M gdb_conn bool :=
  gdb_send (77 :: 48 :: 120 :: hex dest ++ 44 :: hex (Z.of_nat (length src)) ++ 58 :: hex_bytes src) ;;
  reply ← gdb_recv;
  mret (is_ok_reply reply).

Definition mtu : nat := Z.to_nat 1500.

(** [while (len > mtu)]. *)
Fixpoint memcpy_loop (fuel : nat) (dest : Z) (src : list Z) (ok : bool) : M gdb_conn bool :=
  match fuel with
  | O => undef "out of fuel"
  | S fuel =>
      if (mtu <? length src)%nat then
        k ← gdb_memcpy_to_qemu_small dest (take mtu src);
        memcpy_loop fuel (u32 (dest + 1500)) (drop mtu src) (ok && k)
      else
        k ← gdb_memcpy_to_qemu_small dest src;
        mret (ok && k)
  end.
Definition gdb_memcpy_to_qemu (dest : Z) (src : list Z) : M gdb_conn bool :=
  memcpy_loop (S (length src)) dest src true.

(** The number of words of [union isa_gdb_regs]. *)
Definition nr_gdb_regs : nat := 77.

Section Regs.
Context (heap_junk : nat -> Z).

(** Byte [k] of the reply block: the reply, its terminator, then what the block held. *)
Definition reply_byte (reply : list Z) (k : nat) : Z :=
  if (k <? length reply)%nat then default 0 (reply !! k)
  else if (k =? length reply)%nat then 0 else heap_junk k.

(** One word: eight characters, with the ninth set to zero meanwhile. *)
Definition reg_word (reply : list Z) (i : nat) : Z :=
  u32 (gdb_decode_hex_str (map (fun j => reply_byte reply (8 * i + j)) (seq 0 8) ++ [0])).

Definition gdb_getregs : M gdb_conn (list Z) :=
  gdb_send [103] ;;
  reply ← gdb_recv;
  mret (map (reg_word reply) (seq 0 nr_gdb_regs)).
End Regs.

(** [r] as bytes. *)
Definition gdb_setregs (r : list Z) : M gdb_conn bool :=
  gdb_send (71 :: hex_bytes (flat_map (le_split 4) r)) ;;
  reply ← gdb_recv;
  mret (is_ok_reply reply).

Definition cmd_si : list Z := [118; 67; 111; 110; 116; 59; 115; 58; 49].
Definition gdb_si : M gdb_conn bool :=
  gdb_send cmd_si ;;
  _ ← gdb_recv;
  mret true.

(** * The reference functions of [diff-test.c] *)

Definition difftest_memcpy (addr : Z) (buf : list Z) (to_ref : bool) : M gdb_conn unit :=
  c_assert to_ref "direction == DIFFTEST_TO_REF" ;;
  ok ← gdb_memcpy_to_qemu addr buf;
  c_assert ok "ok == 1".

(** The first [n] words are the registers that both sides have. *)
Definition difftest_regcpy (heap_junk : nat -> Z) (n : nat) (dut : list Z) (to_ref : bool)
    : M gdb_conn (list Z) :=
  qemu_r ← gdb_getregs heap_junk;
  if to_ref then
    gdb_setregs (take n dut ++ drop n qemu_r) ;;
    mret dut
  else mret (take n qemu_r ++ drop n dut).

Fixpoint difftest_exec (n : nat) : M gdb_conn unit :=
  match n with
  | O => mret tt
  | S n => gdb_si ;; difftest_exec n
  end.

Definition difftest_raise_intr (NO : Z) : M gdb_conn unit := stop (AAssert "0").

(** * Specification of the wire format *)

(** A packet body: plain bytes, escaped bytes and runs that repeat the last byte. *)
Inductive pitem : Type :=
| Raw (b : Z)
| Esc (b : Z)
| Run (n : Z).

Definition special (b : Z) : bool := (b =? 36) || (b =? 35) || (b =? 125) || (b =? 42).

Definition wire (it : pitem) : list Z :=
  match it with
  | Raw b => [b]
  | Esc b => [125; Z.lxor b 0x20]
  | Run n => [42; n + 29]
  end.
Definition wires (its : list pitem) : list Z := concat (map wire its).

(** What an item adds to the bytes [acc] before it. *)
Definition meaning (acc : list Z) (it : pitem) : list Z :=
  match it with
  | Raw b | Esc b => acc ++ [b]
  | Run n => acc ++ replicate (Z.to_nat n) (default 0 (last acc))
  end.
Definition decoded (its : list pitem) : list Z := foldl meaning [] its.

Definition item_ok (acc : list Z) (it : pitem) : Prop :=
  match it with
  | Raw b => in_u 8 b /\ special b = false
  | Esc b => in_u 8 b /\ special (Z.lxor b 0x20) = false
  | Run n => acc <> [] /\ 0 <= n <= 97 /\ n <> 6 /\ n <> 7
  end.
Fixpoint items_ok (acc : list Z) (its : list pitem) : Prop :=
  match its with
  | [] => True
  | it :: its => item_ok acc it /\ items_ok (meaning acc it) its
  end.

Definition packet (its : list pitem) : list Z :=
  36 :: wires its ++ 35 :: hex2 (checksum (wires its)).

(** * Receiving a packet *)

Lemma fgetc_cons c cs s : c_in s = c :: cs -> fgetc s = Ok (c, s <| c_in := cs |>).
Proof. unfold fgetc. by intros ->. Qed.

Lemma fgetc_bind {B} c cs s (f : Z -> M gdb_conn B) :
  (fgetc ≫= f) (s <| c_in := c :: cs |>) = f c (s <| c_in := cs |>).
Proof. by destruct s. Qed.

Lemma skip_ok junk fuel s rest : c_in s = junk ++ 36 :: rest -> Forall (fun c => 0 <= c /\ c <> 36) junk ->
  (length junk < fuel)%nat -> skip_to_start fuel s = Ok (tt, s <| c_in := rest |>).
Proof.
  revert fuel s. induction junk as [|c junk IH]; intros [|fuel] s E F Hf; try (simpl in Hf; lia);
    cbn [skip_to_start app] in *; rewrite (bind_run _ _ _ _ _ (fgetc_cons _ _ _ E)).
  - done.
  - inversion F as [|? ? [Hc H36] F']; subst. rewrite (proj2 (Z.eqb_neq c EOF)) by (unfold EOF; lia).
    rewrite (proj2 (Z.eqb_neq c 36)) by lia. cbn [negb andb].
    rewrite (IH fuel _); [by destruct s|done|done|simpl in Hf; lia].
Qed.

(** The running sum. *)
Definition csum (s : Z) (cs : list Z) : Z := foldl (fun sum c => u8 (sum + c)) s cs.

Lemma csum_range s cs : in_u 8 s -> in_u 8 (csum s cs).
Proof.
  revert s. induction cs as [|c cs IH]; intros s Hs; cbn; [done|]. apply IH. by apply wrap_in_u.
Qed.

Lemma upper_hex_decode h l : 0 <= h < 16 -> 0 <= l < 16 ->
  gdb_decode_hex (u8 (upper_hex h)) (u8 (upper_hex l)) = 16 * h + l.
Proof.
  intros Hh Hl.
  assert (forall d, 0 <= d < 16 -> isxdigit (u8 (upper_hex d)) = true /\ hex_nibble (u8 (upper_hex d)) = d) as H.
  { intros d Hd. assert (In d (seqZ 0 16)) as Hin by (apply list_elem_of_In, elem_of_seqZ; lia).
    cbn in Hin. repeat (destruct Hin as [<-|Hin]; [by split|]). done. }
  destruct (H h Hh) as [E1 E2], (H l Hl) as [E3 E4]. unfold gdb_decode_hex.
  rewrite E1, E3, E2, E4. cbn [negb orb]. apply wrap_id. unfold in_u. change (2 ^ 16) with 65536. lia.
Qed.

(** The end of a packet: the checksum is compared. *)
Lemma recv_end fuel r s x rest : in_u 8 (sum r) -> in_u 8 x -> c_in s = 35 :: hex2 x ++ rest ->
  recv_loop (S fuel) r s = Ok ((reply r, sum r =? x), s <| c_in := rest |>).
Proof.
  intros Hs Hx E. cbn [recv_loop hex2 app] in *. rewrite (bind_run _ _ _ _ _ (fgetc_cons _ _ _ E)).
  change (35 =? EOF) with false. change (35 =? 36) with false. change (35 =? 35) with true.
  cbv zeta iota. rewrite !fgetc_bind. cbn [sum reply].
  unfold in_u in Hx. change (2 ^ 8) with 256 in Hx. rewrite upper_hex_decode.
  - autorewrite with wraps. replace (sum r + 35 - 35) with (sum r) by lia. rewrite wrap_id by done.
    replace (16 * (x / 16) + x mod 16) with x by (apply Z.div_mod; lia). by destruct s.
  - split; [apply Z.div_pos; lia|apply Z.div_lt_upper_bound; lia].
  - apply Z.mod_pos_bound. lia.
Qed.

Lemma special_false b : special b = false -> b <> 36 /\ b <> 35 /\ b <> 125 /\ b <> 42.
Proof. unfold special. intros H. breflect. done. Qed.

(** A character that the loop stores. *)
Lemma recv_char fuel r s c rest : c_in s = c :: rest -> in_u 8 c -> special c = false ->
  recv_loop (S fuel) r s =
  recv_loop fuel (add_char (mkR (reply r) (rsize r) (u8 (sum r + c)) (escape r)) c) (s <| c_in := rest |>).
Proof.
  intros E [Hc _] Hs. apply special_false in Hs as (H1 & H2 & H3 & H4). cbn [recv_loop].
  rewrite (bind_run _ _ _ _ _ (fgetc_cons _ _ _ E)). cbv zeta.
  rewrite (proj2 (Z.eqb_neq c EOF)) by (unfold EOF; lia). rewrite (proj2 (Z.eqb_neq _ _) H1).
  rewrite (proj2 (Z.eqb_neq _ _) H2), (proj2 (Z.eqb_neq _ _) H3), (proj2 (Z.eqb_neq _ _) H4). done.
Qed.

(** The reply fits its block. *)
Definition fits (r : rstate) : Prop := (length (reply r) <= rsize r /\ 97 <= rsize r)%nat.

(** The rounds of the loop that an item takes. *)
Definition rounds (it : pitem) : nat := match it with Esc _ => 2 | _ => 1 end.

Lemma add_char_fits r c : fits r -> fits (add_char r c).
Proof.
  unfold fits, add_char. cbn. rewrite length_app. cbn. intros [? ?].
  destruct (Nat.eqb_spec (length (reply r)) (rsize r)); lia.
Qed.

Lemma lxor_byte b : in_u 8 b -> in_u 8 (Z.lxor b 0x20).
Proof.
  intros Hb. assert (In b (seqZ 0 256)) as Hin.
  { apply list_elem_of_In, elem_of_seqZ. unfold in_u in Hb. change (2 ^ 8) with 256 in Hb. lia. }
  assert (forallb (fun b => (0 <=? Z.lxor b 0x20) && (Z.lxor b 0x20 <? 256)) (seqZ 0 256) = true) as H
    by (vm_compute; reflexivity).
  rewrite forallb_forall in H. specialize (H b Hin). breflect. split; [done|].
  by change (2 ^ 8) with 256.
Qed.

(** One item is received as what it means. *)
Lemma recv_item it fuel r s rest : c_in s = wire it ++ rest -> item_ok (reply r) it ->
  escape r = false -> fits r -> exists r', fits r' /\ escape r' = false /\
    reply r' = meaning (reply r) it /\ sum r' = csum (sum r) (wire it) /\
    recv_loop (rounds it + fuel) r s = recv_loop fuel r' (s <| c_in := rest |>).
Proof.
  intros E Hok He Hf. destruct it as [b|b|n]; cbn [rounds Nat.add wire app item_ok] in *.
  - destruct Hok as [Hb Hs]. rewrite (recv_char fuel r s b rest E Hb Hs).
    eexists. split; [|split; [|split; [|split; [|reflexivity]]]].
    + by apply add_char_fits.
    + done.
    + unfold add_char. cbn. by rewrite He.
    + done.
  - destruct Hok as [Hb Hs]. remember (S fuel) as f1 eqn:Ef. cbn [recv_loop].
    rewrite (bind_run _ _ _ _ _ (fgetc_cons _ _ _ E)). change (125 =? EOF) with false. change (125 =? 36) with false. change (125 =? 35) with false.
    change (125 =? 125) with true. cbv zeta iota. cbn [reply rsize sum escape].
    rewrite Ef. erewrite (recv_char _ _ _ (Z.lxor b 0x20) rest); [|done|by apply lxor_byte|done].
    eexists. split; [|split; [|split; [|split; [|reflexivity]]]].
    + by apply add_char_fits.
    + done.
    + unfold add_char. cbn. by rewrite Z.lxor_assoc, Z.lxor_nilpotent, Z.lxor_0_r.
    + done.
  - destruct Hok as (Hne & Hn & H6 & H7). cbn [recv_loop].
    rewrite (bind_run _ _ _ _ _ (fgetc_cons _ _ _ E)).
    change (42 =? EOF) with false. change (42 =? 36) with false. change (42 =? 35) with false.
    change (42 =? 125) with false. change (42 =? 42) with true. cbv zeta iota. cbn [reply rsize sum escape andb].
    rewrite (proj2 (Nat.ltb_lt 0 (length (reply r)))) by (destruct (reply r); [done|simpl; lia]).
    rewrite fgetc_bind.
    rewrite (proj2 (Z.ltb_ge _ _)), (proj2 (Z.ltb_ge _ _)), (proj2 (Z.eqb_neq _ _)), (proj2 (Z.eqb_neq _ _)) by lia.
    cbn [orb]. unfold add_run. cbn [reply rsize sum escape]. destruct Hf as [Hf1 Hf2].
    replace (n + 29 - 29) with n by lia. set (k := Z.to_nat n). assert (k <= 97)%nat by lia.
    set (sz := if (rsize r <? length (reply r) + k)%nat then (rsize r * 2)%nat else rsize r).
    assert (length (reply r) + k <= sz)%nat as Hsz.
    { unfold sz. destruct (Nat.ltb_spec (rsize r) (length (reply r) + k)); lia. }
    rewrite (proj2 (Nat.ltb_ge sz (length (reply r) + k)) Hsz). rewrite (bind_run _ _ _ _ _ eq_refl).
    eexists. split; [|split; [|split; [|split; [|reflexivity]]]]; try done.
    split; cbn; [rewrite length_app, length_replicate; lia|].
    unfold sz. destruct (Nat.ltb_spec (rsize r) (length (reply r) + k)); lia.
Qed.

Lemma csum_app s a b : csum s (a ++ b) = csum (csum s a) b.
Proof. apply foldl_app. Qed.

Lemma recv_items its fuel r s x rest : items_ok (reply r) its -> escape r = false -> fits r ->
  in_u 8 (sum r) -> in_u 8 x -> c_in s = wires its ++ 35 :: hex2 x ++ rest ->
  (length (wires its) < fuel)%nat ->
  recv_loop fuel r s =
  Ok ((foldl meaning (reply r) its, csum (sum r) (wires its) =? x), s <| c_in := rest |>).
Proof.
  revert fuel r s. induction its as [|it its IH]; intros fuel r s Hok He Hf Hs Hx E Hfu.
  - destruct fuel as [|fuel]; [simpl in Hfu; lia|]. by apply recv_end.
  - destruct Hok as [Hi Hok]. unfold wires in E, Hfu. cbn [map concat] in E, Hfu. fold (wires its) in E, Hfu.
    rewrite <- app_assoc in E. rewrite length_app in Hfu.
    assert (rounds it <= length (wire it))%nat by (destruct it; simpl; lia).
    destruct (recv_item it (fuel - rounds it) r s _ E Hi He Hf) as (r' & Hf' & He' & Er & Es & El).
    replace fuel with (rounds it + (fuel - rounds it))%nat by lia. rewrite El.
    rewrite (IH _ r' (s <| c_in := wires its ++ 35 :: hex2 x ++ rest |>)); try done; try lia.
    + change (wires (it :: its)) with (wire it ++ wires its). rewrite csum_app, Er, Es.
      by destruct s.
    + by rewrite Er.
    + rewrite Es. by apply csum_range.
Qed.

Lemma recv_packet_ok junk its rest s : c_in s = junk ++ packet its ++ rest ->
  Forall (fun c => 0 <= c /\ c <> 36) junk -> items_ok [] its ->
  recv_packet s = Ok ((decoded its, true), s <| c_in := rest |>).
Proof.
  intros E F Hok. unfold recv_packet. rewrite (bind_run _ _ _ _ _ eq_refl).
  unfold packet in E. cbn [app] in E.
  erewrite bind_run by (eapply skip_ok; [exact E|exact F|rewrite E, length_app; lia]).
  rewrite (bind_run _ _ _ _ _ eq_refl). cbn [c_in].
  erewrite (recv_items its); [|done|done| |done| |by cbn; rewrite <- app_assoc|].
  - cbn [reply sum]. fold (csum 0 (wires its)). change (checksum (wires its)) with (csum 0 (wires its)).
    rewrite Z.eqb_refl. by destruct s.
  - unfold fits, REPLY_SIZE. cbn [reply rsize length]. lia.
  - by apply csum_range.
  - cbn. rewrite !length_app. lia.
Qed.

(** C20. The client receives what was sent: whatever bytes without a packet start come
    first, and however the server splits the reply into plain bytes, escaped bytes
    and run lengths, [gdb_recv] returns the decoded reply, consumes exactly the
    packet, acknowledges it when acknowledgements are on, and never writes outside
    its growing buffer. *)
Theorem gdb_recv_decodes junk its rest s : c_in s = junk ++ packet its ++ rest ->
  Forall (fun c => 0 <= c /\ c <> 36) junk -> items_ok [] its ->
  gdb_recv s =
  Ok (decoded its, s <| c_in := rest |> <| c_out := c_out s ++ (if ack s then [43] else []) |>).
Proof.
  intros E F Hok. unfold gdb_recv. rewrite (bind_run _ _ _ _ _ eq_refl). cbn [gdb_recv_loop].
  rewrite (bind_run _ _ _ _ _ (recv_packet_ok junk its rest s E F Hok)).
  rewrite (bind_run _ _ _ _ _ eq_refl). destruct s as [i o []]; cbn.
  - done.
  - by rewrite app_nil_r.
Qed.

(** The bytes of [send_packet] are such a packet when the command has no special byte. *)
Lemma send_packet_packet cmd s : Forall (fun b => in_u 8 b /\ special b = false) cmd ->
  send_packet cmd s = Ok (tt, s <| c_out := c_out s ++ packet (map Raw cmd) |>) /\
  items_ok [] (map Raw cmd) /\ decoded (map Raw cmd) = cmd.
Proof.
  intros F. assert (wires (map Raw cmd) = cmd) as Ew.
  { unfold wires. rewrite map_map. clear. induction cmd; [done|]. cbn. by f_equal. }
  split_and!.
  - unfold packet. rewrite Ew. destruct s as [i o a].
    unfold send_packet, fputs, modify, mbind, M_bind. cbn. by rewrite <- !app_assoc.
  - clear Ew. generalize (@nil Z). induction F as [|b l Hb F IH]; intros acc; cbn; [done|]. split; [done|apply IH].
  - unfold decoded. assert (forall acc, foldl meaning acc (map Raw cmd) = acc ++ cmd) as H; [|apply H].
    clear. induction cmd as [|b l IH]; intros acc; cbn; [by rewrite app_nil_r|]. rewrite IH.
    by rewrite <- app_assoc.
Qed.

Module GdbWitness.

(** [+$0* #4A]: a zero, repeated three more times. *)
Definition its : list pitem := [Raw 48; Run 3].
Definition s0 : gdb_conn := mkConn ([43] ++ packet its ++ [7]) [] true.

Lemma gdb_recv_decodes_witness :
  gdb_recv s0 = Ok ([48; 48; 48; 48], mkConn [7] [43] true).
Proof.
  refine (gdb_recv_decodes [43] its [7] s0 _ _ _).
  - reflexivity.
  - repeat constructor; discriminate.
  - split_and!; try done; try lia.
Defined.

End GdbWitness.
