(* ===== verification/Sdb.v ===== *)
(** The command loop of the debugger ([nemu/src/monitor/sdb/sdb.c]).

    A command line is a list of characters, as [readline] returns it; [strtok]
    splits it at spaces. What a command prints is a list of [line]s. The loops over
    the watchpoint list take the pool size as fuel, which is enough because the list
    has no cycle ([wp_rep]). *)

From S2P Require Import Prelude Config Macro Decode Machine HostMem Region IoMap Paddr.
From S2P Require Import DevBasic Keyboard Sdcard Device Isa RvSpec IsaSelect IsaRefine Difftest.
From S2P Require Import Watchpoint Expr ExprSpec Cpu.
From Stdlib Require Import Ascii Sorted.

Local Open Scope Z_scope.

(** * Strings *)

Abbreviation chars := (list ascii).

Definition is_sp (c : ascii) : bool := Ascii.eqb c " ".

Fixpoint skip_sp (l : chars) : chars :=
  match l with
  | c :: l' => if is_sp c then skip_sp l' else l
  | [] => []
  end.

(** The characters up to the next space, and what follows that space ([None] when
    the string ended first). *)
Fixpoint token (l : chars) : chars * option chars :=
  match l with
  | [] => ([], None)
  | c :: l => if is_sp c then ([], Some l) else let '(t, r) := token l in (c :: t, r)
  end.

(** [strtok(s, " ")]: [None] is [NULL]; the saved pointer is the second part. *)
Definition strtok (l : chars) : option (chars * option chars) :=
  match skip_sp l with
  | [] => None
  | l => Some (token l)
  end.

(** [isspace]. *)
Definition is_space_c (c : ascii) : bool := Ascii.eqb c " " || between 9 13 c.
Fixpoint skip_space (l : chars) : chars :=
  match l with
  | c :: l' => if is_space_c c then skip_space l' else l
  | [] => []
  end.

(** [strtol(s, NULL, 0)] on any string. *)
Definition strtol_any (l : chars) : Z :=
  match skip_space l with
  | c :: l' =>
      if Ascii.eqb c "-" then Z.max (- strtol_abs l') (- 2 ^ 63)
      else if Ascii.eqb c "+" then Z.min (strtol_abs l') LONG_MAX
      else Z.min (strtol_abs (c :: l')) LONG_MAX
  | [] => 0
  end.

(** * Output *)

Inductive line : Type :=
| LWpHeader
| LNoWatchpoint
| LWatch (cnt : Z) (addr_expr : string) (last_val : Z)
| LRegs (vals : list Z)
| LMem (addr b3 b2 b1 b0 : Z)
| LValue (v : Z)
| LNewWatch (cnt : Z) (args : chars)
| LNoSuch
| LDeleted (num : Z)
| LHelp (name : string)
| LUnknown (cmd : chars).

Section Sdb.
Context `{CFG : Config} `{HOST : Host}.

(** A command: its return value and what it prints. *)
Abbreviation cmd := (M Machine (Z * list line)).

(** * Commands *)

Definition cmd_c (args : option chars) : cmd :=
  cpu_exec (u64 (-1)) ;; mret (0, []).

Definition cmd_q (args : option chars) : cmd :=
  modify (fun s => s <| nemu_state -> state := NEMU_QUIT |>) ;; mret (-1, []).

Definition cmd_si (args : option chars) : cmd :=
  let n := match args with Some a => strtol_any a | None => 1 end in
  cpu_exec (u64 n) ;; mret (0, []).

(** [while(wp != NULL)] of [info w]. *)
Fixpoint info_loop (fuel : nat) (wp : option nat) : M Machine (list line) :=
  match wp with
  | None => mret []
  | Some i =>
      match fuel with
      | O => undef "the list does not end"
      | S fuel =>
          n ← zoom (wp_node (Some i));
          ls ← info_loop fuel (next n);
          mret (LWatch (cnt n) (addr_expr n) (last_val n) :: ls)
      end
  end.

Definition info_w : M Machine (list line) :=
  wp ← zoom find_head_wp;
  ls ← info_loop NR_WP wp;
  mret ((match wp with Some _ => LWpHeader | None => LNoWatchpoint end) :: ls).

(** [strcmp(NULL, ...)] is undefined. *)
Definition cmd_info (args : option chars) : cmd :=
  match args with
  | None => undef "strcmp(NULL)"
  | Some a =>
      r ← (if decide (a = ["r"%char]) then v ← isa_reg_display; mret [LRegs v] else mret []);
      w ← (if decide (a = ["w"%char]) then info_w else mret []);
      mret (0, r ++ w)
  end.

(** [for(int i = 0; i < n; i ++)] of [x]; after [CONFIG_MSIZE / 4 + 1] rounds the
    address has left memory. *)
Fixpoint x_loop (fuel : nat) (addr : Z) : M Machine (list line) :=
  match fuel with
  | O => mret []
  | S fuel =>
      if (PMEM_LEFT <=? addr) && (addr <=? PMEM_RIGHT) then
        v3 ← vaddr_read addr 4;
        v2 ← vaddr_read addr 4;
        v1 ← vaddr_read addr 4;
        v0 ← vaddr_read addr 4;
        let l := LMem addr (Z.land (Z.shiftr v3 24) 0xff) (Z.land (Z.shiftr v2 16) 0xff)
                   (Z.land (Z.shiftr v1 8) 0xff) (Z.land v0 0xff) in
        ls ← x_loop fuel (u32 (addr + 4));
        mret (l :: ls)
      else panic "out of bound"
  end.

Definition cmd_x (args : option chars) : cmd :=
  match args with
  | None => mret (0, [])
  | Some a =>
      match strtok a with
      | None => undef "strlen(NULL)"
      | Some (first_para, None) => undef "past the end of the line"
      | Some (first_para, Some second_para) =>
          let n := strtol_any first_para in
          '(addr, _) ← expr (string_of_list_ascii second_para);
          ls ← x_loop (Z.to_nat (Z.min n (CONFIG_MSIZE / 4 + 2))) addr;
          mret (0, ls)
      end
  end.

Definition cmd_p (args : option chars) : cmd :=
  match args with
  | None => mret (0, [])
  | Some a => '(v, _) ← expr (string_of_list_ascii a); mret (0, [LValue v])
  end.

(** [sizeof(wp->addr_expr) - 1]. *)
Definition ADDR_EXPR_LEN : nat := 127.

(** [f] applied to node [i] of the pool. *)
Definition upd_wp (i : nat) (f : WP -> WP) : M WpState unit := fun s =>
  match wp_pool s !! i with
  | Some n => Ok (tt, s <| wp_pool := <[i := f n]> (wp_pool s) |>)
  | None => Abort (AUndef "wild WP pointer")
  end.

Definition cmd_w (args : option chars) : cmd :=
  match args with
  | None => mret (0, [])
  | Some a =>
      wp ← zoom new_wp;
      zoom (upd_wp wp (fun n => n <| addr_expr := string_of_list_ascii (take ADDR_EXPR_LEN a) |>)) ;;
      '(v, _) ← expr (string_of_list_ascii a);
      zoom (upd_wp wp (fun n => n <| last_val := v |>)) ;;
      n ← zoom (wp_node (Some wp));
      c ← (match next n with
           | None => mret 1
           | nx =>
               m ← zoom (wp_node nx);
               if cnt m =? 2 ^ 31 - 1 then undef "signed overflow" else mret (cnt m + 1)
           end);
      zoom (upd_wp wp (fun n => n <| cnt := c |>)) ;;
      mret (0, [LNewWatch c a])
  end.

(** [for(; tmp != NULL; tmp = tmp->next)] of [d]. *)
Fixpoint d_loop (fuel : nat) (num : Z) (tmp : option nat) : M Machine (list line) :=
  match tmp with
  | None => mret []
  | Some i =>
      match fuel with
      | O => undef "the list does not end"
      | S fuel =>
          n ← zoom (wp_node (Some i));
          if cnt n =? num then
            zoom (free_wp i) ;;
            mret [LDeleted num]
          else d_loop fuel num (next n)
      end
  end.

Definition cmd_d (args : option chars) : cmd :=
  match args with
  | None => mret (0, [])
  | Some a =>
      let num := s32 (strtol_any a) in
      tmp ← zoom find_head_wp;
      match tmp with
      | None => mret (0, [LNoSuch])
      | Some h =>
          n ← zoom (wp_node (Some h));
          if cnt n <? num then mret (0, [LNoSuch])
          else
            ls ← d_loop NR_WP num tmp;
            mret (0, ls)
      end
  end.

(** * The command table *)

Definition cmd_names : list string := ["help"; "c"; "q"; "si"; "info"; "x"; "p"; "w"; "d"].

(** The argument is what [strtok(NULL, " ")] goes on with. *)
Definition cmd_help (rest : option chars) : cmd :=
  match rest ≫= strtok with
  | None => mret (0, map LHelp cmd_names)
  | Some (arg, _) =>
      let name := string_of_list_ascii arg in
      if decide (name ∈ cmd_names) then mret (0, [LHelp name]) else mret (0, [LUnknown arg])
  end.

Definition handler (name : string) : option (option chars -> cmd) :=
  if String.eqb name "help" then Some cmd_help
  else if String.eqb name "c" then Some cmd_c
  else if String.eqb name "q" then Some cmd_q
  else if String.eqb name "si" then Some cmd_si
  else if String.eqb name "info" then Some cmd_info
  else if String.eqb name "x" then Some cmd_x
  else if String.eqb name "p" then Some cmd_p
  else if String.eqb name "w" then Some cmd_w
  else if String.eqb name "d" then Some cmd_d
  else None.

(** [args >= str_end] makes the argument [NULL]. *)
Definition args_of (rest : option chars) : option chars :=
  match rest with Some (c :: l) => Some (c :: l) | _ => None end.

(** One line. *)
Definition run_line (str : chars) : cmd :=
  match strtok str with
  | None => mret (0, [])
  | Some (c, rest) =>
      when CONFIG_DEVICE sdl_clear_event_queue ;;
      match handler (string_of_list_ascii c) with
      | Some h => h (args_of rest)
      | None => mret (0, [LUnknown c])
      end
  end.

(** [for (char *str; (str = rl_gets()) != NULL; )]: the list ends when [readline]
    returns [NULL]. *)
Fixpoint sdb_loop (input : list chars) : M Machine (list line) :=
  match input with
  | [] => mret []
  | str :: input =>
      '(r, ls) ← run_line str;
      if r <? 0 then mret ls
      else
        ls' ← sdb_loop input;
        mret (ls ++ ls')
  end.

Definition sdb_mainloop (is_batch_mode : bool) (input : list chars) : M Machine (list line) :=
  if is_batch_mode then cmd_c None ;; mret []
  else sdb_loop input.

(** [init_regex] compiles the rules of [Expr]. *)
Definition init_sdb : M Machine unit := zoom init_wp_pool.

End Sdb.

(** * Numbers of the watchpoints *)

(** The numbers that [info w] shows, in the order of the list. *)
Definition wp_cnt (w : WpState) (i : nat) : Z := default 0 (cnt <$> wp_pool w !! i).

(** Newest first, and starting from 1: so every number is used once. *)
Definition descending (l : list Z) : Prop :=
  StronglySorted (fun a b => b < a) l /\ Forall (fun c => 1 <= c) l.

Definition wp_inv (w : WpState) (used free : list nat) : Prop :=
  wp_rep w used free /\ descending (map (wp_cnt w) used).

Lemma descending_cons c l : descending l -> (forall x, x ∈ l -> x < c) -> 1 <= c -> descending (c :: l).
Proof.
  intros [Hs Hp] Hc H1. split; constructor; try done. apply Forall_forall. apply Hc.
Qed.

Lemma descending_head c l : descending (c :: l) -> forall x, x ∈ l -> x < c.
Proof. intros [Hs _] x Hx. inversion Hs as [|? ? _ F]. by eapply Forall_forall in F. Qed.

Lemma descending_tail c l : descending (c :: l) -> descending l.
Proof. intros [Hs Hp]. inversion Hs. inversion Hp. by split. Qed.

Lemma descending_NoDup l : descending l -> NoDup l.
Proof.
  induction l as [|c l IH]; intros H; constructor.
  - intros Hc. apply (descending_head _ _ H) in Hc. lia.
  - by apply IH, (descending_tail c).
Qed.

Lemma descending_filter (f : nat -> Z) (P : nat -> Prop) `{!forall i, Decision (P i)} l :
  descending (map f l) -> descending (map f (filter P l)).
Proof.
  induction l as [|i l IH]; intros Hd; [done|]. cbn [map] in Hd. rewrite filter_cons. case_decide.
  - cbn [map]. apply descending_cons.
    + by apply IH, (descending_tail (f i)).
    + intros x Hx. apply (descending_head _ _ Hd). apply list_elem_of_In, in_map_iff in Hx as (j & <- & Hj).
      apply list_elem_of_In, in_map. apply list_elem_of_In, list_elem_of_filter in Hj as [_ Hj].
      by apply list_elem_of_In.
    + destruct Hd as [_ Hp]. by inversion Hp.
  - by apply IH, (descending_tail (f i)).
Qed.

(** ** The shape determines the lists and the numbers *)

Lemma shape_lookup w w' i : wp_shape w' = wp_shape w ->
  (fun n => (NO n, next n, addr_expr n, cnt n)) <$> wp_pool w' !! i
  = (fun n => (NO n, next n, addr_expr n, cnt n)) <$> wp_pool w !! i.
Proof.
  unfold wp_shape. intros H. injection H as H _ _. apply (f_equal (.!! i)) in H.
  by rewrite !list_lookup_fmap in H.
Qed.

Lemma shape_chain w w' p l : wp_shape w' = wp_shape w ->
  chain (wp_pool w) p l -> chain (wp_pool w') p l.
Proof.
  intros Hs. revert p. induction l as [|i l IH]; intros p; cbn [chain]; [done|].
  intros (-> & n & Hn & Hc). split; [done|]. pose proof (shape_lookup w w' i Hs) as E.
  rewrite Hn in E. destruct (wp_pool w' !! i) as [m|]; [|done]. cbn in E. injection E as _ E _ _.
  exists m. split; [done|]. rewrite E. by apply IH.
Qed.

Lemma shape_rep w w' used free : wp_shape w' = wp_shape w -> wp_rep w used free -> wp_rep w' used free.
Proof.
  intros Hs [Hl Hno Hu Hf Hp]. pose proof Hs as Hs'. unfold wp_shape in Hs'.
  injection Hs' as Hm Hh Hfr. constructor.
  - apply (f_equal length) in Hm. rewrite !length_map in Hm. congruence.
  - intros i n Hn. pose proof (shape_lookup w w' i Hs) as E. rewrite Hn in E.
    destruct (wp_pool w !! i) as [m|] eqn:Em; [|done]. cbn in E. injection E as E _ _ _.
    rewrite E. by apply Hno.
  - rewrite Hh. by eapply shape_chain.
  - rewrite Hfr. by eapply shape_chain.
  - done.
Qed.

Lemma shape_cnt w w' i : wp_shape w' = wp_shape w -> wp_cnt w' i = wp_cnt w i.
Proof.
  intros Hs. unfold wp_cnt. pose proof (shape_lookup w w' i Hs) as E.
  destruct (wp_pool w' !! i), (wp_pool w !! i); try done. cbn in E |- *. by injection E.
Qed.

Lemma shape_inv w w' used free : wp_shape w' = wp_shape w -> wp_inv w used free -> wp_inv w' used free.
Proof.
  intros Hs [Hr Hd]. split; [by eapply shape_rep|]. erewrite map_ext; [exact Hd|].
  intros i. by apply shape_cnt.
Qed.

(** Changing the fields of a node that do not link it. *)
Lemma upd_chain pool i n m p l : pool !! i = Some n -> next m = next n ->
  chain pool p l -> chain (<[i := m]> pool) p l.
Proof.
  intros Hi Hn. revert p. induction l as [|j l IH]; intros p; cbn [chain]; [done|].
  intros (-> & k & Hk & Hc). split; [done|]. destruct (decide (i = j)) as [<-|].
  - exists m. rewrite list_lookup_insert_eq by (by eapply lookup_lt_Some). split; [done|].
    rewrite Hn. assert (k = n) as -> by congruence. by apply IH.
  - exists k. rewrite list_lookup_insert_ne by done. split; [done|by apply IH].
Qed.

Lemma upd_rep w i n m used free : wp_pool w !! i = Some n -> next m = next n -> NO m = NO n ->
  wp_rep w used free -> wp_rep (w <| wp_pool := <[i := m]> (wp_pool w) |>) used free.
Proof.
  intros Hi Hn HN [Hl Hno Hu Hf Hp]. constructor; cbn.
  - by rewrite length_insert.
  - intros j k Hk. apply list_lookup_insert_Some in Hk as [(-> & <- & _)|[_ Hk]]; [|by apply Hno].
    rewrite HN. by apply Hno.
  - by eapply upd_chain.
  - by eapply upd_chain.
  - done.
Qed.

(** ** Numbers are kept by the pool operations *)

Definition wp_data (n : WP) : Z * string * Z := (cnt n, addr_expr n, last_val n).
Definition same_cnt (w w' : WpState) : Prop := map wp_data (wp_pool w') = map wp_data (wp_pool w).

Lemma same_data w w' i : same_cnt w w' ->
  wp_data <$> wp_pool w' !! i = wp_data <$> wp_pool w !! i.
Proof.
  unfold same_cnt. intros H. apply (f_equal (.!! i)) in H. by rewrite !list_lookup_fmap in H.
Qed.

Lemma same_cnt_eq w w' i : same_cnt w w' -> wp_cnt w' i = wp_cnt w i.
Proof.
  intros H%(same_data _ _ i). unfold wp_cnt.
  destruct (wp_pool w' !! i), (wp_pool w !! i); try done. cbn in H. by injection H.
Qed.

(** What [info w] prints for node [i]. *)
Definition watch_line (w : WpState) (i : nat) : line :=
  match wp_pool w !! i with
  | Some n => LWatch (cnt n) (addr_expr n) (last_val n)
  | None => LNoWatchpoint
  end.

Lemma same_watch_line w w' i : same_cnt w w' -> watch_line w' i = watch_line w i.
Proof.
  intros H%(same_data _ _ i). unfold watch_line.
  destruct (wp_pool w' !! i), (wp_pool w !! i); try done. cbn in H. injection H. congruence.
Qed.

#[local] Instance same_cnt_refl : Reflexive same_cnt.
Proof. by intros w. Qed.
#[local] Instance same_cnt_trans : Transitive same_cnt.
Proof. unfold same_cnt. intros w1 w2 w3. congruence. Qed.

Lemma same_cnt_modify f : (forall w, wp_pool (f w) = wp_pool w) -> within same_cnt (modify f).
Proof. intros H. apply within_modify. intros w. unfold same_cnt. by rewrite H. Qed.

Lemma wp_node_cnt p : within same_cnt (wp_node p).
Proof. intros w a w' H. unfold wp_node in H. destruct (p ≫= _); [|done]. by injection H as <- <-. Qed.

Lemma set_next_cnt i p : within same_cnt (set_next i p).
Proof.
  intros w a w' H. unfold set_next in H. destruct (wp_pool w !! i) as [n|] eqn:E; [|done].
  injection H as <- <-. unfold same_cnt. cbn. apply list_eq. intros j. rewrite !list_lookup_fmap.
  destruct (decide (i = j)) as [<-|].
  - rewrite list_lookup_insert_eq by (by eapply lookup_lt_Some). by rewrite E.
  - by rewrite list_lookup_insert_ne.
Qed.

Lemma new_wp_cnt : within same_cnt new_wp.
Proof.
  intros w a w' Hr. unfold new_wp in Hr. destruct (free_ w) as [f|]; [|done]. apply bind_Ok in Hr as (n & w1 & H1 & Hr). apply wp_node_cnt in H1.
  apply bind_Ok in Hr as (u & w2 & H2 & Hr). apply set_next_cnt in H2.
  apply bind_Ok in Hr as (v & w3 & [= <- <-] & [= <- <-]). unfold same_cnt in *. cbn. congruence.
Qed.

Lemma free_loop_cnt fuel tmp wp : within same_cnt (free_loop fuel tmp wp).
Proof.
  pose proof wp_node_cnt. pose proof set_next_cnt.
  revert tmp. induction fuel as [|fuel IH]; intros tmp; cbn [free_loop]; within.
  by apply same_cnt_modify.
Qed.

Lemma free_wp_cnt wp : within same_cnt (free_wp wp).
Proof.
  pose proof wp_node_cnt. pose proof set_next_cnt. pose proof free_loop_cnt.
  intros w a w' Hr. unfold free_wp in Hr. destruct (head w) as [h|]; [|by injection Hr as <- <-].
  revert Hr. revert w a w'. change (within same_cnt
    (w ← wp_node (Some wp); n ← wp_node (Some h);
     if NO w =? NO n then
       modify (fun s => s <| head := next n |>) ;; f ← gets free_; set_next wp f ;;
       modify (fun s => s <| free_ := Some wp |>) ;; mret true
     else free_loop (S NR_WP) h wp)).
  within; by apply same_cnt_modify.
Qed.

(** * The invariant of the debugger *)

Section SdbInv.
Context `{CFG : Config} `{HOST : Host}.

Definition sdb_inv (s : Machine) : Prop :=
  machine_ok s /\ exists used free, wp_inv (wps s) used free.

Definition shape_same (s s' : Machine) : Prop := wp_shape (wps s') = wp_shape (wps s).

Lemma keeps_both {A} (m : M Machine A) :
  keeps machine_ok m -> within shape_same m -> keeps sdb_inv m.
Proof.
  intros Hk Hw. apply triple_intro. intros s a s' (Hm & used & free & Hi) E.
  split; [by eapply keeps_use|]. exists used, free. eapply shape_inv; [|exact Hi]. by eapply Hw.
Qed.

Lemma quiet_shape {A} (m : M Machine A) : within quiet m -> within shape_same m.
Proof. intros H s a s' E. by apply H in E as [_ ?]. Qed.

Lemma expr_quiet e : within quiet (expr e).
Proof.
  assert (Reflexive quiet) by (by intros s). assert (Transitive quiet).
  { intros s1 s2 s3 [? ?] [? ?]. split; congruence. }
  pose proof eval_count. pose proof (@lift_count). unfold expr, eval. within.
Qed.

Lemma expr_sdb e : keeps sdb_inv (expr e).
Proof. apply keeps_both; [apply expr_keeps|apply quiet_shape, expr_quiet]. Qed.

Lemma cpu_exec_sdb n : CONFIG_RVE = false -> keeps sdb_inv (cpu_exec n).
Proof. intros H. apply keeps_both; [by apply cpu_exec_keeps|apply cpu_exec_shape]. Qed.

Lemma wp_node_sdb p : keeps sdb_inv (zoom (wp_node p)).
Proof. apply keeps_both; [apply zoom_keeps|apply quiet_shape, wp_node_count]. Qed.

Lemma find_head_sdb : keeps sdb_inv (zoom find_head_wp).
Proof. apply keeps_both; [apply zoom_keeps|apply quiet_shape, find_head_count]. Qed.

Lemma read_sdb addr : keeps sdb_inv (vaddr_read addr 4).
Proof. apply keeps_both; [apply read_keeps|apply quiet_shape, read_count]. Qed.

Lemma poll_sdb : keeps sdb_inv sdl_clear_event_queue.
Proof.
  apply triple_intro. intros s a s' Hs E. unfold sdl_clear_event_queue in E.
  apply bind_Ok in E as (es & s1 & E & [= <- <-]). unfold poll_events in E. by injection E as <- <-.
Qed.

Lemma info_loop_sdb fuel wp : keeps sdb_inv (info_loop fuel wp).
Proof.
  pose proof wp_node_sdb. revert wp. induction fuel as [|fuel IH]; intros []; cbn [info_loop]; keeps; auto.
Qed.

Lemma reg_display_sdb : keeps sdb_inv isa_reg_display.
Proof.
  assert (Reflexive quiet) by (by intros s). assert (Transitive quiet).
  { intros s1 s2 s3 [? ?] [? ?]. split; congruence. }
  unfold isa_reg_display. apply keeps_both; [apply reg_values_keeps|]. apply quiet_shape.
  generalize 0%Z 32%nat. intros i n. revert i. induction n; intros i; cbn [reg_values]; within.
Qed.

Lemma x_loop_sdb fuel addr : keeps sdb_inv (x_loop fuel addr).
Proof.
  pose proof read_sdb. revert addr. induction fuel as [|fuel IH]; intros addr; cbn [x_loop]; keeps; auto with nemu.
Qed.

(** ** Setting a watchpoint *)

(** Node [f] is allocated and not yet numbered. *)
Definition fresh_inv (f : nat) (s : Machine) : Prop :=
  machine_ok s /\ exists used free, wp_rep (wps s) (f :: used) free /\
    descending (map (wp_cnt (wps s)) used).

Lemma rep_fresh w f used free : wp_rep w (f :: used) free -> f ∉ used.
Proof. intros H%rep_nodup. cbn in H. apply NoDup_cons in H as [H _]. set_solver. Qed.

Lemma cnt_insert w f m used : f ∉ used ->
  map (wp_cnt (w <| wp_pool := <[f := m]> (wp_pool w) |>)) used = map (wp_cnt w) used.
Proof.
  intros Hf. apply map_ext_in. intros j Hj%list_elem_of_In. unfold wp_cnt. cbn.
  rewrite list_lookup_insert_ne; [done|]. by intros ->.
Qed.

Lemma zoom_Ok {A} (m : M WpState A) s a s' : zoom m s = Ok (a, s') ->
  exists w, m (wps s) = Ok (a, w) /\ s' = s <| wps := w |>.
Proof.
  unfold zoom. destruct (m (wps s)) as [[x w]|] eqn:E; [|done]. intros [= <- <-]. by exists w.
Qed.

Lemma new_wp_fresh : triple sdb_inv (zoom new_wp) fresh_inv.
Proof.
  apply triple_intro. intros s f s' (Hm & used & free & Hr & Hd) E.
  assert (machine_ok s') as Hm' by (eapply (keeps_use machine_ok); [apply zoom_keeps|exact Hm|exact E]).
  apply zoom_Ok in E as (w & E & ->). split; [done|]. cbn.
  destruct free as [|g free]; [by rewrite (new_wp_full _ _ Hr) in E|].
  destruct (new_wp_run _ _ _ _ Hr) as (w' & E' & Hr'). rewrite E' in E. injection E as <- <-.
  exists used, free. split; [done|]. erewrite map_ext; [exact Hd|].
  intros i. apply same_cnt_eq. by eapply new_wp_cnt.
Qed.

Lemma upd_fresh f g : (forall n, next (g n) = next n /\ NO (g n) = NO n) ->
  keeps (fresh_inv f) (zoom (upd_wp f g)).
Proof.
  intros Hg. apply triple_intro. intros s u s' (Hm & used & free & Hr & Hd) E.
  assert (machine_ok s') as Hm' by (eapply (keeps_use machine_ok); [apply zoom_keeps|exact Hm|exact E]).
  apply zoom_Ok in E as (w & E & ->). split; [done|]. cbn. unfold upd_wp in E.
  destruct (wp_pool (wps s) !! f) as [n|] eqn:Hn; [|done]. injection E as <- <-. destruct (Hg n).
  exists used, free. split; [by eapply upd_rep|]. rewrite cnt_insert; [done|]. by eapply rep_fresh.
Qed.

Lemma expr_fresh f e : keeps (fresh_inv f) (expr e).
Proof.
  apply triple_intro. intros s a s' (Hm & used & free & Hr & Hd) E.
  split; [eapply (keeps_use machine_ok); [apply expr_keeps|exact Hm|exact E]|].
  apply expr_quiet in E as [_ Hs]. exists used, free. split; [by eapply shape_rep|].
  erewrite map_ext; [exact Hd|]. intros i. by apply shape_cnt.
Qed.

(** The number given to node [f] is larger than those in use. *)
Lemma number_fresh f s c s' : fresh_inv f s ->
  (n ← zoom (wp_node (Some f));
   match next n with
   | None => mret 1
   | nx =>
       m ← zoom (wp_node nx);
       if cnt m =? 2 ^ 31 - 1 then undef "signed overflow" else mret (cnt m + 1)
   end) s = Ok (c, s') ->
  s' = s /\ 1 <= c /\ forall used free, wp_rep (wps s) (f :: used) free ->
    descending (map (wp_cnt (wps s)) used) -> forall x, x ∈ map (wp_cnt (wps s)) used -> x < c.
Proof.
  intros (_ & used & free & Hr & Hd) E. apply bind_Ok in E as (n & s1 & E1 & E).
  apply zoom_Ok in E1 as (w & E1 & ->). unfold wp_node in E1. cbn in E1.
  destruct (wp_pool (wps s) !! f) as [n'|] eqn:Hn; [|done]. injection E1 as <- <-.
  assert (s <| wps := wps s |> = s) as Es by (by destruct s). rewrite Es in E.
  pose proof (rep_used _ _ _ Hr) as (_ & n'' & Hn'' & Hc). assert (n'' = n') as -> by congruence.
  assert (forall used2 free2, wp_rep (wps s) (f :: used2) free2 -> used2 = used) as Hu.
  { intros used2 free2 [_ _ (_ & k & Hk & Hc2) _ _]. assert (k = n') as -> by congruence.
    clear -Hc Hc2. revert Hc Hc2. generalize (next n') used. intros p l. revert p l.
    induction used2 as [|i l2 IH]; intros p [|j l]; cbn [chain]; try done.
    - intros (-> & _). done.
    - intros -> (? & _). done.
    - intros (-> & a & Ha & Hca) ([= ->] & b & Hb & Hcb). f_equal. simplify_eq. by eapply IH. }
  destruct (next n') as [i|] eqn:Hx.
  - destruct used as [|j used]; [done|]. destruct Hc as ([= <-] & m & Hm & _).
    apply bind_Ok in E as (m' & s2 & E2 & E). apply zoom_Ok in E2 as (w & E2 & ->).
    unfold wp_node in E2. cbn in E2. rewrite Hm in E2. injection E2 as <- <-. rewrite Es in E.
    destruct (cnt m =? 2 ^ 31 - 1); [done|]. injection E as <- <-.
    assert (wp_cnt (wps s) i = cnt m) as Ec by (unfold wp_cnt; by rewrite Hm).
    cbn [map] in Hd. rewrite Ec in Hd. split; [done|].
    split; [destruct Hd as [_ Hp]; inversion Hp; lia|].
    intros u2 f2 Hr2 _ x Hx2. apply Hu in Hr2 as ->. cbn [map] in Hx2. rewrite Ec in Hx2.
    apply elem_of_cons in Hx2 as [->|Hx2]; [lia|]. apply (descending_head _ _ Hd) in Hx2. lia.
  - injection E as <- <-. destruct used as [|j used]; [|by destruct Hc].
    split; [done|]. split; [lia|]. intros u2 f2 Hr2 _ x Hx2. apply Hu in Hr2 as ->.
    by apply elem_of_nil in Hx2.
Qed.

Lemma cmd_w_sdb args : keeps sdb_inv (cmd_w args).
Proof.
  destruct args as [a|]; [|apply keeps_ret]. cbn [cmd_w].
  apply (triple_bind _ _ _ fresh_inv); [apply new_wp_fresh|]. intros f.
  apply (triple_bind _ _ _ (fun _ => fresh_inv f)); [by apply upd_fresh|]. intros _.
  apply (triple_bind _ _ _ (fun _ => fresh_inv f)); [apply expr_fresh|]. intros [v ?].
  apply (triple_bind _ _ _ (fun _ => fresh_inv f)); [by apply upd_fresh|]. intros _.
  apply triple_intro. intros s r s' Hf E.
  rewrite <- bind_assoc in E. apply bind_Ok in E as (c & s1 & E1 & E).
  apply number_fresh in E1 as (-> & H1 & Hmax); [|done]. destruct Hf as (Hm & used & free & Hr & Hd).
  apply bind_Ok in E as (u & s2 & E2 & [= <- <-]).
  split; [eapply (keeps_use machine_ok); [apply zoom_keeps|exact Hm|exact E2]|].
  apply zoom_Ok in E2 as (w & E2 & ->). unfold upd_wp in E2. cbn.
  destruct (wp_pool (wps s) !! f) as [n|] eqn:Hn; [|done]. injection E2 as <- <-.
  exists (f :: used), free. split; [by eapply upd_rep|]. cbn [map].
  rewrite cnt_insert by (by eapply rep_fresh). unfold wp_cnt at 1. cbn.
  rewrite list_lookup_insert_eq by (by eapply lookup_lt_Some). cbn.
  apply descending_cons; [done|by eapply Hmax|done].
Qed.

(** ** Listing and deleting watchpoints *)

Lemma zoom_run {A B} (m : M WpState A) (k : A -> M Machine B) s a w :
  m (wps s) = Ok (a, w) -> (zoom m ≫= k) s = k a (s <| wps := w |>).
Proof. intros H. apply bind_run. unfold zoom. by rewrite H. Qed.

Lemma zoom_node_run {B} i n (k : WP -> M Machine B) s :
  wp_pool (wps s) !! i = Some n -> (zoom (wp_node (Some i)) ≫= k) s = k n s.
Proof.
  intros H. rewrite (zoom_run _ _ s n (wps s)); [by destruct s|]. unfold wp_node. cbn. by rewrite H.
Qed.

Lemma zoom_head_run {B} (k : option nat -> M Machine B) s :
  (zoom find_head_wp ≫= k) s = k (head (wps s)) s.
Proof. rewrite (zoom_run _ _ s (head (wps s)) (wps s)) by done. by destruct s. Qed.

Lemma info_loop_run fuel p l s : chain (wp_pool (wps s)) p l -> (length l <= fuel)%nat ->
  info_loop fuel p s = Ok (map (watch_line (wps s)) l, s).
Proof.
  revert fuel p. induction l as [|i l IH]; intros fuel p Hc Hf; cbn [chain] in Hc.
  - subst p. by destruct fuel.
  - destruct Hc as (-> & n & Hn & Hc). destruct fuel as [|fuel]; [cbn in Hf; lia|]. cbn [info_loop].
    rewrite (zoom_node_run i n) by done. cbn [length] in Hf.
    rewrite (bind_run _ _ _ _ _ (IH fuel (next n) Hc ltac:(lia))). cbn [map]. unfold watch_line at 2.
    by rewrite Hn.
Qed.

(** The whole output of [info w]. *)
Definition info_output (w : WpState) (used : list nat) : list line :=
  match used with
  | [] => [LNoWatchpoint]
  | _ => LWpHeader :: map (watch_line w) used
  end.

Lemma info_w_run s used free : wp_rep (wps s) used free ->
  cmd_info (Some ["w"%char]) s = Ok (0, info_output (wps s) used, s).
Proof.
  intros Hr. unfold cmd_info. rewrite (decide_False (P := ["w"%char] = ["r"%char])) by discriminate.
  rewrite decide_True by done. rewrite (bind_run _ _ s [] s) by done.
  rewrite (bind_run _ _ s (info_output (wps s) used) s); [done|]. unfold info_w.
  rewrite zoom_head_run. rewrite (bind_run _ _ _ _ _ (info_loop_run NR_WP _ _ _
    (rep_used _ _ _ Hr) (rep_length _ _ _ Hr))).
  destruct used as [|i used].
  - pose proof (rep_used _ _ _ Hr) as Hh. cbn in Hh. by rewrite Hh.
  - by destruct (rep_used _ _ _ Hr) as (-> & _).
Qed.

(** The node that shows number [num]. *)
Definition numbered_as (w : WpState) (num : Z) (used : list nat) : option nat :=
  List.find (fun i => wp_cnt w i =? num) used.

Lemma d_loop_run num fuel p l used free s :
  wp_rep (wps s) used free -> (forall i, i ∈ l -> i ∈ used) ->
  chain (wp_pool (wps s)) p l -> (length l <= fuel)%nat ->
  match numbered_as (wps s) num l with
  | Some i => exists w', d_loop fuel num p s = Ok ([LDeleted num], s <| wps := w' |>) /\
      free_wp i (wps s) = Ok (true, w') /\ wp_rep w' (without i used) (i :: free) /\ i ∈ used
  | None => d_loop fuel num p s = Ok ([], s)
  end.
Proof.
  intros Hr. revert fuel p. induction l as [|i l IH]; intros fuel p Hl Hc Hf; cbn [chain] in Hc.
  - subst p. by destruct fuel.
  - destruct Hc as (-> & n & Hn & Hc). destruct fuel as [|fuel]; [cbn in Hf; lia|].
    cbn [d_loop]. cbn [length] in Hf. rewrite (zoom_node_run i n) by done.
    unfold numbered_as. cbn [List.find]. unfold wp_cnt at 1. rewrite Hn. cbn.
    destruct (cnt n =? num); [|apply IH; [set_solver|done|lia]].
    destruct (free_wp_found _ _ _ i Hr) as (w' & E & Hr'); [set_solver|].
    exists w'. rewrite (zoom_run _ _ _ _ _ E). split_and!; try done. set_solver.
Qed.

Lemma filter_in_ext (P Q : nat -> Prop) `{!forall i, Decision (P i), !forall i, Decision (Q i)} (l : list nat) :
  (forall i, i ∈ l -> P i <-> Q i) -> filter P l = filter Q l.
Proof.
  induction l as [|i l IH]; intros HPQ; [done|].
  rewrite !filter_cons, IH by (intros j Hj; apply HPQ; by right).
  pose proof (HPQ i (list_elem_of_here _ _)). repeat case_decide; tauto.
Qed.

Lemma map_inj_in (f : nat -> Z) (l : list nat) i j : NoDup (map f l) -> i ∈ l -> j ∈ l -> f i = f j -> i = j.
Proof.
  induction l as [|k l IH]; [by rewrite elem_of_nil|]. cbn [map].
  intros [Hk Hn]%NoDup_cons Hi Hj E.
  assert (forall x, x ∈ l -> f x ∈ map f l) as Hin.
  { intros x Hx. by apply list_elem_of_In, in_map, list_elem_of_In. }
  apply elem_of_cons in Hi as [->|Hi], Hj as [->|Hj]; auto.
  - destruct Hk. rewrite E. auto.
  - destruct Hk. rewrite <- E. auto.
Qed.

(** Removing the node numbered [num] from the list removes the entry [num]. *)
Lemma without_numbered w used num i :
  descending (map (wp_cnt w) used) -> numbered_as w num used = Some i ->
  without i used = filter (fun j => wp_cnt w j <> num) used.
Proof.
  intros Hd%descending_NoDup Hf. apply find_some in Hf as [Hi%list_elem_of_In E%Z.eqb_eq].
  apply filter_in_ext. intros j Hj. split; [|congruence].
  intros Hne Ec. apply Hne. eapply map_inj_in; try done. congruence.
Qed.

Lemma cmd_d_run s used free a : wp_inv (wps s) used free ->
  let num := s32 (strtol_any a) in
  match numbered_as (wps s) num used with
  | Some i => exists w', cmd_d (Some a) s = Ok (0, [LDeleted num], s <| wps := w' |>) /\
      wp_inv w' (without i used) (i :: free) /\
      map (watch_line w') (without i used)
        = map (watch_line (wps s)) (filter (fun j => wp_cnt (wps s) j <> num) used)
  | None => exists ls, cmd_d (Some a) s = Ok (0, ls, s)
  end.
Proof.
  intros [Hr Hd] num. unfold cmd_d. fold num. rewrite zoom_head_run.
  pose proof (rep_used _ _ _ Hr) as Hc. pose proof (rep_length _ _ _ Hr) as Hlen.
  pose proof (d_loop_run num NR_WP (head (wps s)) used used free s Hr ltac:(done) Hc Hlen) as Hrun.
  destruct used as [|h used]; [cbn in Hc |- *; rewrite Hc; by eexists|].
  destruct Hc as (Hh & n & Hn & Hc). rewrite Hh in Hrun |- *. rewrite (zoom_node_run h n) by done.
  assert (cnt n = wp_cnt (wps s) h) as Ec by (unfold wp_cnt; by rewrite Hn).
  destruct (numbered_as (wps s) num (h :: used)) as [i|] eqn:Ei.
  - destruct Hrun as (w' & Hrun & Hfree & Hr' & Hi). exists w'.
    assert (wp_cnt (wps s) i = num) as Ein by (apply find_some in Ei as [_ E%Z.eqb_eq]; done).
    rewrite (proj2 (Z.ltb_ge _ _)).
    2:{ apply elem_of_cons in Hi as [->|Hi]; [lia|]. cbn [map] in Hd.
        apply Z.lt_le_incl. rewrite Ec, <- Ein. apply (descending_head _ _ Hd).
        by apply list_elem_of_In, in_map, list_elem_of_In. }
    rewrite (bind_run _ _ _ _ _ Hrun). split; [done|]. apply free_wp_cnt in Hfree. split.
    + split; [done|]. erewrite map_ext; [by apply descending_filter, Hd|].
      intros j. by apply same_cnt_eq.
    + rewrite <- (without_numbered _ _ _ _ Hd Ei). apply map_ext. intros j. by apply same_watch_line.
  - destruct (cnt n <? num); [by eexists|]. rewrite (bind_run _ _ _ _ _ Hrun). by eexists.
Qed.

Lemma cmd_d_sdb args : keeps sdb_inv (cmd_d args).
Proof.
  apply triple_intro. intros s r s' (Hm & used & free & Hi) E.
  destruct args as [a|]; [|injection E as <- <-; by split; eauto].
  pose proof (cmd_d_run s used free a Hi) as H. cbv zeta in H.
  destruct (numbered_as _ _ _) as [i|].
  - destruct H as (w' & H & Hi' & _). rewrite E in H. injection H as -> ->.
    split; [|by eauto]. by apply (keeps_update (fun s => s <| wps := w' |>) ltac:(done) s).
  - destruct H as (ls & H). rewrite E in H. injection H as -> ->. split; eauto.
Qed.

(** ** Every command *)

Lemma cmd_x_sdb args : keeps sdb_inv (cmd_x args).
Proof.
  pose proof expr_sdb. pose proof x_loop_sdb. destruct args as [a|]; cbn [cmd_x]; keeps; auto.
Qed.

Lemma cmd_p_sdb args : keeps sdb_inv (cmd_p args).
Proof. pose proof expr_sdb. destruct args as [a|]; cbn [cmd_p]; keeps; auto. Qed.

Lemma cmd_info_sdb args : keeps sdb_inv (cmd_info args).
Proof.
  pose proof reg_display_sdb. pose proof info_loop_sdb. pose proof find_head_sdb.
  destruct args as [a|]; unfold cmd_info, info_w; keeps; auto.
Qed.

Lemma cmd_q_sdb args : keeps sdb_inv (cmd_q args).
Proof.
  unfold cmd_q. apply keeps_bind; [|intros; apply keeps_ret].
  apply keeps_both; [by apply keeps_update|]. intros s a s' [= <- <-]. done.
Qed.

Lemma handler_sdb name h args : CONFIG_RVE = false -> handler name = Some h -> keeps sdb_inv (h args).
Proof.
  intros Hr. unfold handler.
  pose proof cmd_x_sdb. pose proof cmd_p_sdb. pose proof cmd_info_sdb. pose proof cmd_q_sdb.
  pose proof cmd_w_sdb. pose proof cmd_d_sdb. pose proof (fun n => cpu_exec_sdb n Hr).
  repeat case_match; intros [= <-]; auto.
  - unfold cmd_help. keeps; auto.
  - unfold cmd_c. keeps; auto.
  - unfold cmd_si. keeps; auto.
Qed.

Lemma run_line_sdb str : CONFIG_RVE = false -> keeps sdb_inv (run_line str).
Proof.
  intros Hr. unfold run_line. destruct (strtok str) as [[c rest]|]; [|apply keeps_ret].
  apply keeps_bind; [apply keeps_when, poll_sdb|]. intros _.
  destruct (handler _) as [h|] eqn:E; [|apply keeps_ret]. by eapply handler_sdb.
Qed.

Lemma sdb_loop_sdb input : CONFIG_RVE = false -> keeps sdb_inv (sdb_loop input).
Proof.
  intros Hr. pose proof (fun str => run_line_sdb str Hr).
  induction input as [|str input IH]; cbn [sdb_loop]; keeps; auto.
Qed.

(** * Properties *)

(** C13. Whatever lines are typed, in interactive or batch mode, when the main loop of
    the debugger returns the machine is well formed and the watchpoint pool is the
    disjoint union of the list in use and the free list, with numbers that decrease
    along the list in use, so that each number names at most one watchpoint. *)
Theorem sdb_mainloop_invariant batch input s ls s' : CONFIG_RVE = false ->
  sdb_inv s -> sdb_mainloop batch input s = Ok (ls, s') -> sdb_inv s'.
Proof.
  intros Hr Hs. apply keeps_use; [|done]. unfold sdb_mainloop. destruct batch.
  - pose proof (fun n => cpu_exec_sdb n Hr). unfold cmd_c. keeps; auto.
  - by apply sdb_loop_sdb.
Qed.

(** Deleting a watchpoint by its number: when a watchpoint shows number [num], [d]
    removes that one, and a following [info w] prints the same lines as before in the
    same order without the line numbered [num]; otherwise [d] changes nothing. *)
Theorem cmd_d_deletes s used free a : wp_inv (wps s) used free ->
  cmd_info (Some ["w"%char]) s = Ok (0, info_output (wps s) used, s) /\
  let num := s32 (strtol_any a) in
  let rest := filter (fun j => wp_cnt (wps s) j <> num) used in
  if decide (num ∈ map (wp_cnt (wps s)) used) then
    exists s', cmd_d (Some a) s = Ok (0, [LDeleted num], s') /\
      cmd_info (Some ["w"%char]) s' = Ok (0, info_output (wps s) rest, s')
  else exists ls, cmd_d (Some a) s = Ok (0, ls, s).
Proof.
  intros Hi. split; [apply (info_w_run _ _ _ (proj1 Hi))|]. cbv zeta.
  pose proof (cmd_d_run s used free a Hi) as H. cbv zeta in H.
  destruct (numbered_as _ _ _) as [i|] eqn:Ei.
  - pose proof (without_numbered _ _ _ _ (proj2 Hi) Ei) as Ew.
    apply find_some in Ei as [Hin E%Z.eqb_eq]. rewrite decide_True.
    2:{ rewrite <- E. by apply list_elem_of_In, in_map. }
    destruct H as (w' & Hrun & [Hr' _] & Hl). eexists. split; [exact Hrun|].
    erewrite info_w_run; [|exact Hr']. cbn. unfold info_output. rewrite <- Ew in Hl |- *. by rewrite Hl.
  - rewrite decide_False; [done|]. intros Hin%list_elem_of_In%in_map_iff.
    destruct Hin as (j & Ej & Hj). pose proof (find_none _ _ Ei j Hj) as Hx. cbn in Hx.
    by apply Z.eqb_neq in Hx.
Qed.
End SdbInv.

(** * Instances of the properties on concrete data *)

Module SdbWitness.

#[local] Instance cfg : Config := kconfig false false false.
#[local] Instance host : Host := null_host.

Definition type (s : string) : chars := list_ascii_of_string s.

Definition s0 : Machine := final (init_isa ;; init_sdb) (machine_zero ∅ tt).

(** Two watchpoints, three steps (the first stops at once), a deletion. *)
Definition session : list chars :=
  map type ["w $pc"; "w $a0 + 1"; "si 3"; "p $pc"; "x 1 0x80000000"; "d 1"; "info w"; "q"].

Lemma s0_inv : sdb_inv s0.
Proof.
  split.
  - split; [split; [|vm_compute; reflexivity]|].
    + apply (bool_decide_unpack _). vm_compute. exact I.
    + apply (map_Forall_impl (fun _ v => 0 <= v /\ v < 256)); [|intros; unfold in_u; lia].
      apply (bool_decide_unpack _). vm_compute. exact I.
  - exists [], (seq 0 NR_WP). split; [|split; constructor].
    by apply (init_wp_pool_rep wps_zero (wps s0)).
Qed.

Lemma sdb_mainloop_invariant_witness :
  match sdb_mainloop false session s0 with
  | Ok (ls, s') => sdb_inv s' /\ last ls = Some (LWatch 2 "$a0 + 1" 1)
  | Abort _ => False
  end.
Proof.
  destruct (sdb_mainloop false session s0) as [[ls s']|e] eqn:E.
  - split; [exact (sdb_mainloop_invariant false session s0 ls s' eq_refl s0_inv E)|].
    revert E. vm_compute. intros [= <- _]. reflexivity.
  - revert E. vm_compute. discriminate.
Defined.

(** After [w $pc], [w $a0] and [w 7]. *)
Definition s3 : Machine := final (sdb_loop (map type ["w $pc"; "w $a0"; "w 7"])) s0.

Lemma s3_inv : wp_inv (wps s3) [2; 1; 0]%nat (seq 3 29).
Proof.
  split.
  - constructor; [vm_compute; reflexivity| | | |by apply (bool_decide_unpack _); vm_compute].
    + intros i n H. do 32 (destruct i as [|i]; [vm_compute in H; by injection H as <-|]).
      vm_compute in H. by destruct i.
    + vm_compute. repeat (split; [reflexivity|eexists; split; [reflexivity|]]). reflexivity.
    + vm_compute. repeat (split; [reflexivity|eexists; split; [reflexivity|]]). reflexivity.
  - vm_compute. split; repeat constructor; discriminate.
Qed.

Lemma cmd_d_deletes_witness :
  exists s', cmd_d (Some (type "2")) s3 = Ok (0, [LDeleted 2], s') /\
    cmd_info (Some ["w"%char]) s' =
      Ok (0, [LWpHeader; LWatch 3 "7" 7; LWatch 1 "$pc" 0x80000000], s').
Proof. exact (proj2 (cmd_d_deletes s3 _ _ (type "2") s3_inv)). Defined.

End SdbWitness.
