(* ===== verification/Monitor.v ===== *)
(** Start-up and the main program: [nemu/src/monitor/monitor.c], [init_mem] of
    [memory/paddr.c], [engine/interpreter/init.c] and [nemu-main.c].

    [getopt_long] is taken as the list of what its calls return; the host's files
    are a function from path to bytes ([None] when [fopen] fails). Log output and the
    welcome message are left out. *)

From S2P Require Import Prelude Config Macro Decode Machine HostMem Region IoMap Paddr.
From S2P Require Import DevBasic Keyboard Sdcard Device Isa RvSpec IsaSelect IsaRefine Difftest.
From S2P Require Import Watchpoint Expr ExprSpec Cpu Sdb.
From Stdlib Require Import Ascii.

Local Open Scope Z_scope.

(** * Command line *)

(** One value of [getopt_long]: an option character with [optarg], or 1 with a
    non-option argument. *)
Inductive opt : Type :=
| Opt (o : ascii) (optarg : string)
| OptArg (optarg : string).

(** The statics of [monitor.c] and [is_batch_mode] of [sdb.c]. *)
Record Args : Type := mkArgs {
  is_batch_mode : bool;
  log_file : option string;
  diff_so_file : option string;
  img_file : option string;
  difftest_port : Z;
  ftrace_elf_file : option string;
}.
#[global] Instance eta_Args : Eta Args :=
  fun x => mkArgs (is_batch_mode x) (log_file x) (diff_so_file x) (img_file x) (difftest_port x) (ftrace_elf_file x).

Definition args_zero : Args := mkArgs false None None None 1234 None.

Fixpoint dec_run (l : list ascii) (acc : Z) : Z :=
  match l with
  | c :: l => if is_digit c then dec_run l (10 * acc + (code c - 48)) else acc
  | [] => acc
  end.

(** [sscanf(s, "%d", &v)]: [v] is unchanged when there is no digit. *)
Definition scan_d (s : string) (v : Z) : Z :=
  let l := skip_space (list_ascii_of_string s) in
  let '(neg, l) := match l with
                   | c :: l' => if Ascii.eqb c "-" then (true, l')
                                else if Ascii.eqb c "+" then (false, l') else (false, l)
                   | [] => (false, l)
                   end in
  match l with
  | c :: _ =>
      if is_digit c then
        let n := dec_run l 0 in
        s32 (if neg : bool then Z.max (- n) (- 2 ^ 63) else Z.min n LONG_MAX)
      else v
  | [] => v
  end.

(** [None]: the usage text and [exit(0)]. *)
Fixpoint parse_args (os : list opt) (a : Args) : option Args :=
  match os with
  | [] => Some a
  | OptArg f :: _ => Some (a <| img_file := Some f |>)
  | Opt o optarg :: os =>
      if Ascii.eqb o "b" then parse_args os (a <| is_batch_mode := true |>)
      else if Ascii.eqb o "p" then
        parse_args os (a <| difftest_port := scan_d optarg (difftest_port a) |>)
      else if Ascii.eqb o "l" then parse_args os (a <| log_file := Some optarg |>)
      else if Ascii.eqb o "d" then parse_args os (a <| diff_so_file := Some optarg |>)
      else if Ascii.eqb o "f" then parse_args os (a <| ftrace_elf_file := Some optarg |>)
      else None
  end.

Section Monitor.
Context `{CFG : Config} `{HOST : Host}.

(** The files of the host, and the value of [rand()] in [init_mem]. *)
Variable files : string -> option (list Z).
Variable rand_value : Z.

(** * Memory and image *)

(** [pmem] is a static array. *)
Definition init_mem : M Machine unit :=
  if CONFIG_MEM_RANDOM
  then mem_copy (Ptr BPmem 0) (replicate (Z.to_nat CONFIG_MSIZE) (u8 rand_value))
  else mret tt.

(** [fread(p, size, 1, fp)] from the start of a file of [size] bytes. *)
Definition fread1 (p : ptr) (data : list Z) : M Machine Z :=
  match data with
  | [] => mret 0
  | _ => mem_copy p data ;; mret 1
  end.

(** [fopen(..., "w")] truncates the trace file. *)
Definition pc_trace_init : M Machine unit := modify (fun s => s <| pc_trace := [] |>).

Definition load_file (path : string) (dst : M Machine ptr) (after : M Machine unit) : M Machine Z :=
  match files path with
  | None => panic "Can not open"
  | Some data =>
      p ← dst;
      ret ← fread1 p data;
      after ;;
      c_assert (ret =? 1) "ret == 1" ;;
      mret (Z.of_nat (length data))
  end.

Definition pc_trace_img : string :=
  "/home/gao-zhouhao/ysyx-workbench/am-kernels/benchmarks/microbench/build/microbench-riscv32e-npc.bin".
Definition branch_trace_img : string :=
  "/home/gao-zhouhao/ysyx-workbench/am-kernels/benchmarks/microbench/build/microbench-riscv32e-ysyxsoc.bin".

(** [branch_trace_init] opens the file of [Trace.branch_trace_push]. *)
Definition load_img (img_file : option string) : M Machine Z :=
  if CONFIG_PC_TRACE then load_file pc_trace_img (mret (Ptr BPsram 0)) pc_trace_init
  else if CONFIG_BRANCH_TRACE then
    load_file branch_trace_img (guest_to_host CONFIG_FLASH_BASE) (mret tt)
  else
    match img_file with
    | None => mret 4096
    | Some f => load_file f (guest_to_host RESET_VECTOR) (mret tt)
    end.

(** * The monitor and [main] *)

Definition set_csr_init (i : nat) (v : Z) : M Machine unit :=
  modify (fun s => s <| cpu -> csr := <[i := v]> (csr (cpu s)) |>).

(** [None] when the process has exited in [parse_args]. The assertion is the first
    line of [init_difftest]. *)
Definition init_monitor (os : list opt) : M Machine (option Args) :=
  set_csr_init 0x300 0x1800 ;;
  set_csr_init 0xf11 0x79737978 ;;
  set_csr_init 0xf12 0x017F4E2E ;;
  match parse_args os args_zero with
  | None => mret None
  | Some a =>
      init_mem ;;
      when CONFIG_DEVICE init_device ;;
      init_isa ;;
      img_size ← load_img (img_file a);
      when CONFIG_DIFFTEST (c_assert (bool_decide (is_Some (diff_so_file a))) "ref_so_file != NULL") ;;
      init_difftest img_size ;;
      init_sdb ;;
      mret (Some a)
  end.

Definition engine_start (a : Args) (input : list (list ascii)) : M Machine (list line) :=
  sdb_mainloop (is_batch_mode a) input.

Definition nemu_main (os : list opt) (input : list (list ascii)) : M Machine Z :=
  a ← init_monitor os;
  match a with
  | None => mret 0
  | Some a => engine_start a input ;; is_exit_status_bad
  end.

End Monitor.


(** * Frames of the initialisation *)

Section Boot.
Context `{CFG : Config} `{HOST : Host}.

(** Device set-up leaves registers and watchpoints alone. *)
Definition boot_frame (s s' : Machine) : Prop :=
  cpu s' = cpu s /\ wps s' = wps s /\ (heap_ok (mem s) -> heap_ok (mem s')).

#[local] Instance boot_frame_refl : Reflexive boot_frame.
Proof. by intros s. Qed.
#[local] Instance boot_frame_trans : Transitive boot_frame.
Proof. intros s1 s2 s3 (E1 & W1 & H1) (E2 & W2 & H2). split_and!; [congruence|congruence|auto]. Qed.

Lemma boot_io {A} (m : M Machine A) : within io_frame m -> within boot_frame m.
Proof. intros H s a s' E. apply H in E as []. by split_and!. Qed.

Lemma boot_modify f : (forall s, cpu (f s) = cpu s /\ wps (f s) = wps s /\ mem (f s) = mem s) ->
  within boot_frame (modify f).
Proof. intros H. apply within_modify. intros s. destruct (H s) as (? & ? & E). split_and!; [done..|by rewrite E]. Qed.

#[local] Hint Extern 2 (within boot_frame (modify _)) =>
  apply boot_modify; intros; split_and!; reflexivity : nemu.

Lemma new_space_boot n : within boot_frame (new_space n).
Proof. intros s a s' H. unfold new_space in H. case_match; [|done]. by injection H as <- <-. Qed.

Lemma add_mmio_boot name a sp len cb : within boot_frame (add_mmio_map name a sp len cb).
Proof. intros s [] s' (-> & _)%add_mmio_map_Ok. by split_and!. Qed.

Lemma add_pio_boot name a sp len cb : within boot_frame (add_pio_map name a sp len cb).
Proof. unfold add_pio_map. within. Qed.

Lemma set8_boot p i v : within boot_frame (set8 p i v).
Proof. apply boot_io, set8_within. Qed.
Lemma set32_boot p i v : within boot_frame (set32 p i v).
Proof. apply boot_io, set32_within. Qed.

Lemma memset_boot p n : within boot_frame (memset_zero p n).
Proof.
  intros s a s' H. unfold memset_zero in H. destruct (in_block _ _); [|done]. injection H as <- <-.
  split_and!; try done. intros Hh. cbn. intros k v Hv. apply map_lookup_filter_Some in Hv as [Hv _].
  by apply (Hh k).
Qed.

Lemma init_device_boot : within boot_frame init_device.
Proof.
  pose proof new_space_boot. pose proof add_mmio_boot. pose proof add_pio_boot.
  pose proof set8_boot. pose proof set32_boot. pose proof memset_boot.
  unfold init_device, init_map, init_serial, init_timer, init_vga, init_i8042, init_audio, init_disk,
    init_sdcard, add_alarm_handle, init_keymap, upd_sd. within.
Qed.

Lemma guest_to_host_state paddr s p s' : guest_to_host paddr s = Ok (p, s') -> s' = s.
Proof. unfold guest_to_host. intros H. repeat case_match; inv_ok; done. Qed.

Lemma mem_copy_Ok p bs s u s' : mem_copy p bs s = Ok (u, s') ->
  s' = s <| mem := poke_bytes (mem s) (blk p) (off p) bs |>.
Proof. unfold mem_copy. case_match; [|done]. by intros [= <- <-]. Qed.

Lemma mem_copy_boot p bs : Forall (in_u 8) bs -> within boot_frame (mem_copy p bs).
Proof. intros Hb s u s' ->%mem_copy_Ok. split_and!; try done. intros Hh. by apply poke_bytes_ok. Qed.

Lemma init_mem_boot r : within boot_frame (init_mem r).
Proof.
  unfold init_mem. destruct CONFIG_MEM_RANDOM; [|apply within_ret, _].
  apply mem_copy_boot, Forall_replicate. by apply wrap_in_u.
Qed.

Lemma load_img_boot files f : (forall path bs, files path = Some bs -> Forall (in_u 8) bs) ->
  within boot_frame (load_img files f).
Proof.
  intros Hf.
  assert (forall a, within boot_frame (guest_to_host a)).
  { intros a s p s' ->%guest_to_host_state. done. }
  assert (within boot_frame pc_trace_init) by (by apply boot_modify).
  assert (forall path dst after, within boot_frame dst -> within boot_frame after ->
    within boot_frame (load_file files path dst after)).
  { intros path dst after Hd Ha. unfold load_file. destruct (files path) as [bs|] eqn:E; [|by within].
    pose proof (fun p => mem_copy_boot p bs (Hf _ _ E)) as Hc. unfold fread1.
    destruct bs; within. }
  unfold load_img. within; auto; apply H1; auto; apply within_ret, _.
Qed.

(** What lies in memory at the reset vector after the image has been loaded. *)
Lemma load_img_bytes files f s n s' :
  CONFIG_PC_TRACE = false -> CONFIG_BRANCH_TRACE = false ->
  load_img files f s = Ok (n, s') ->
  match f with
  | None => s' = s
  | Some path => exists bs p, files path = Some bs /\ guest_to_host RESET_VECTOR s = Ok (p, s) /\
      n = Z.of_nat (length bs) /\ mem s' = poke_bytes (mem s) (blk p) (off p) bs
  end.
Proof.
  intros Hp Hb. unfold load_img. rewrite Hp, Hb. destruct f as [path|]; [|by intros [= <- <-]].
  unfold load_file. destruct (files path) as [bs|]; [|done]. intros H.
  apply bind_Ok in H as (p & s1 & Hg & H). pose proof (guest_to_host_state _ _ _ _ Hg) as ->.
  apply bind_Ok in H as (r & s2 & Hr & H). inv_ok.
  exists bs, p. unfold fread1 in Hr. destruct bs; [by inv_ok|].
  apply bind_Ok in Hr as (u & s3 & Hc & [= <- <-]). apply mem_copy_Ok in Hc as ->. done.
Qed.

(** ** [init_isa] and the debugger *)

(** The registers that [init_monitor] leaves. *)
Definition csr_boot : list Z :=
  <[0xf12%nat := 0x017F4E2E]> (<[0xf11%nat := 0x79737978]> (<[0x300%nat := 0x1800]> (replicate nr_csr 0))).

Definition cpu_boot : CPU_state :=
  mkCPU (replicate nr_gpr 0) RESET_VECTOR csr_boot.

Lemma cpu_boot_ok : cpu_ok cpu_boot.
Proof.
  unfold cpu_ok, cpu_boot, csr_boot. cbn [gpr pc csr]. rewrite !length_insert, !length_replicate. split_and!; try done.
  - by apply Forall_replicate.
  - unfold RESET_VECTOR. case_match; [done|by apply wrap_in_u].
  - repeat apply Forall_insert; try done. by apply Forall_replicate.
Qed.

Lemma init_isa_Ok s u s' : init_isa s = Ok (u, s') -> exists p,
  guest_to_host RESET_VECTOR s = Ok (p, s) /\
  s' = s <| mem := poke_bytes (mem s) (blk p) (off p) img_bytes |>
         <| cpu -> pc := RESET_VECTOR |> <| cpu -> gpr := <[0%nat := 0]> (gpr (cpu s)) |>.
Proof.
  unfold init_isa. intros H. apply bind_Ok in H as (p & s1 & Hg & H).
  pose proof (guest_to_host_state _ _ _ _ Hg) as ->. apply bind_Ok in H as (v & s2 & Hc & H).
  apply mem_copy_Ok in Hc as ->. exists p. split; [done|].
  unfold restart, gets, modify, mbind, M_bind in H. by injection H as <- <-.
Qed.

Lemma img_bytes_ok : Forall (in_u 8) img_bytes.
Proof. apply (bool_decide_unpack _). by vm_compute. Qed.

Lemma init_difftest_boot n : within boot_frame (init_difftest n).
Proof.
  assert (forall a, within boot_frame (guest_to_host a)).
  { intros a s p s' ->%guest_to_host_state. done. }
  assert (forall p n, within boot_frame (read_host p n)).
  { intros p k s a s' H1. unfold read_host in H1. case_match; [|done]. by injection H1 as <- <-. }
  unfold init_difftest, ref_set. within.
Qed.

(** The state that [guest_to_host] looks at is the configuration only. *)
Lemma guest_to_host_any a s s' p : guest_to_host a s = Ok (p, s) -> guest_to_host a s' = Ok (p, s').
Proof. unfold guest_to_host. intros H. repeat case_match; inv_ok; done. Qed.

(** A state on the way: registers [c], the watchpoint statics still zero. *)
Definition booting (c : CPU_state) (s : Machine) : Prop :=
  cpu s = c /\ wps s = wps_zero /\ heap_ok (mem s).

Lemma frame_booting {A} c (m : M Machine A) : within boot_frame m -> keeps (booting c) m.
Proof.
  intros Hw. apply triple_intro. intros s a s' (Ec & Ew & Hh) (E & W & B)%Hw. split_and!; [congruence|congruence|auto].
Qed.

Lemma set_csrs_booting h r : map_Forall (fun _ v => in_u 8 v) h ->
  exists s, booting (mkCPU (replicate nr_gpr 0) 0 csr_boot) s /\ forall A (k : M Machine A),
    (set_csr_init 0x300 0x1800 ;; set_csr_init 0xf11 0x79737978 ;; set_csr_init 0xf12 0x017F4E2E ;; k)
      (machine_zero h r) = k s.
Proof.
  intros Hh. eexists. split; [|intros A k; reflexivity]. split_and!; try reflexivity.
  by apply machine_zero_heap.
Qed.

Lemma init_isa_booting s u s' :
  booting (mkCPU (replicate nr_gpr 0) 0 csr_boot) s -> init_isa s = Ok (u, s') ->
  booting cpu_boot s' /\ exists p, guest_to_host RESET_VECTOR s' = Ok (p, s') /\
    peek_bytes (mem s') (blk p) (off p) (length img_bytes) = img_bytes.
Proof.
  intros (Hc & Hw & Hh) (p & Hg & ->)%init_isa_Ok. split.
  - split_and!; [|exact Hw|apply poke_bytes_ok; [exact Hh|apply img_bytes_ok]].
    transitivity (mkCPU (<[0%nat := 0]> (gpr (cpu s))) RESET_VECTOR (csr (cpu s))); [reflexivity|].
    rewrite Hc. unfold cpu_boot, nr_gpr. by destruct CONFIG_RVE.
  - exists p. split; [by eapply guest_to_host_any|apply peek_bytes_poke].
Qed.

Lemma init_difftest_mem n s u s' : init_difftest n s = Ok (u, s') -> mem s' = mem s.
Proof.
  unfold init_difftest, ref_set. destruct CONFIG_DIFFTEST; intros H; [|by inv_ok].
  apply bind_Ok in H as (p & s1 & Hg & H). pose proof (guest_to_host_state _ _ _ _ Hg) as ->.
  apply bind_Ok in H as (bs & s2 & Hr & H). unfold read_host in Hr. case_match; [|done].
  injection Hr as <- <-. inv_ok. done.
Qed.

Lemma init_sdb_booting c s u s' : booting c s -> init_sdb s = Ok (u, s') ->
  cpu s' = c /\ mem s' = mem s /\ heap_ok (mem s') /\ wp_rep (wps s') [] (seq 0 NR_WP).
Proof.
  intros (Hc & Hw & Hh) (w & E & ->)%zoom_Ok. split_and!; try done. cbn.
  destruct u. eapply init_wp_pool_rep; [|exact E]. rewrite Hw. reflexivity.
Qed.

(** * Properties *)

(** C14. When [init_monitor] returns, the emulator is ready to run: the invariant of the
    debugger holds (registers and memory bytes in range, watchpoint pool well formed)
    with no watchpoint set, the general registers are zero, the pc is the reset vector,
    [mstatus], [mvendorid] and [marchid] have their initial values, and the memory at
    the reset vector holds the image file given on the command line, or the built-in
    program when none was given. *)
Theorem init_monitor_ready files rnd os h r a s :
  CONFIG_RVE = false -> CONFIG_PC_TRACE = false -> CONFIG_BRANCH_TRACE = false ->
  (forall path bs, files path = Some bs -> Forall (in_u 8) bs) ->
  map_Forall (fun _ v => in_u 8 v) h ->
  init_monitor files rnd os (machine_zero h r) = Ok (Some a, s) ->
  parse_args os args_zero = Some a /\
  sdb_inv s /\ wp_rep (wps s) [] (seq 0 NR_WP) /\ cpu s = cpu_boot /\
  exists p, guest_to_host RESET_VECTOR s = Ok (p, s) /\
    match img_file a with
    | Some path => exists bs, files path = Some bs /\
        peek_bytes (mem s) (blk p) (off p) (length bs) = bs
    | None => peek_bytes (mem s) (blk p) (off p) (length img_bytes) = img_bytes
    end.
Proof.
  intros Hr Hpc Hbr Hf Hh H. unfold init_monitor in H.
  destruct (set_csrs_booting h r Hh) as (s0 & S0 & E0). rewrite E0 in H.
  destruct (parse_args os args_zero) as [a'|]; [|by injection H].
  apply bind_Ok in H as (u1 & s1 & H1 & H). apply (keeps_use _ _ _ _ _ (frame_booting _ _ (init_mem_boot _)) S0) in H1 as S1.
  apply bind_Ok in H as (u2 & s2 & H2 & H).
  assert (booting (mkCPU (replicate nr_gpr 0) 0 csr_boot) s2) as S2.
  { revert S1 H2. apply keeps_use, keeps_when, frame_booting, init_device_boot. }
  apply bind_Ok in H as (u3 & s3 & H3 & H). apply (init_isa_booting _ _ _ S2) in H3 as (S3 & p & Hg & Hi).
  apply bind_Ok in H as (n & s4 & H4 & H).
  apply (keeps_use _ _ _ _ _ (frame_booting _ _ (load_img_boot _ _ Hf)) S3) in H4 as S4.
  apply (load_img_bytes _ _ _ _ _ Hpc Hbr) in H4.
  apply bind_Ok in H as (u5 & s5 & H5 & H).
  assert (s5 = s4) as -> by (revert H5; destruct CONFIG_DIFFTEST; cbn [when]; intros; inv_ok; done).
  apply bind_Ok in H as (u6 & s6 & H6 & H).
  apply (keeps_use _ _ _ _ _ (frame_booting _ _ (init_difftest_boot _)) S4) in H6 as S6.
  apply init_difftest_mem in H6. apply bind_Ok in H as (u7 & s7 & H7 & [= -> ->]).
  apply (init_sdb_booting _ _ _ _ S6) in H7 as (Hc & Hm & Hb & Hw). rewrite H6 in Hm.
  split; [done|]. split.
  { split; [split; [|done]|].
    - split; rewrite Hc; [apply cpu_boot_ok|]. unfold cpu_boot, nr_gpr. by rewrite Hr.
    - exists [], (seq 0 NR_WP). split; [done|split; constructor]. }
  split_and!; [done|done|]. exists p. split; [by eapply guest_to_host_any|]. rewrite Hm.
  destruct (img_file a) as [path|]; [|by rewrite H4].
  destruct H4 as (bs & q & Ef & Hq & _ & ->). exists bs. split; [done|].
  rewrite Hg in Hq. injection Hq as ->. apply peek_bytes_poke.
Qed.
End Boot.

(** * Instances of the properties on concrete data *)

Module MonitorWitness.

#[local] Instance cfg : Config := kconfig false true false.
#[local] Instance host : Host := null_host.

(** [addi a0, x0, 0] and [ebreak]. *)
Definition prog : list Z := [0x13; 0x05; 0x00; 0x00; 0x73; 0x00; 0x10; 0x00].
Definition files (path : string) : option (list Z) :=
  if String.eqb path "dummy.bin" then Some prog else None.
Definition command_line : list opt := [Opt "b" ""; Opt "p" " 4321x"; OptArg "dummy.bin"].
Definition s0 : Machine := machine_zero ∅ tt.

Lemma init_monitor_ready_witness :
  match init_monitor files 0 command_line s0 with
  | Ok (Some a, s) =>
      difftest_port a = 4321 /\ sdb_inv s /\ pc (cpu s) = 0x80000000 /\
      exists p, guest_to_host RESET_VECTOR s = Ok (p, s) /\
        exists bs, files "dummy.bin" = Some bs /\ peek_bytes (mem s) (blk p) (off p) (length bs) = bs
  | _ => False
  end.
Proof.
  destruct (init_monitor files 0 command_line s0) as [[[a|] s]|e] eqn:E;
    [|revert E; vm_compute; discriminate..].
  destruct (init_monitor_ready (CFG := cfg) (HOST := host) files 0 command_line ∅ tt a s eq_refl eq_refl eq_refl) as
    (Ha & Hs & _ & Hc & p & Hp & Hm).
  - intros path bs. unfold files. case_match; [|done]. intros [= <-].
    apply (bool_decide_unpack _). by vm_compute.
  - apply map_Forall_empty.
  - exact E.
  - vm_compute in Ha. injection Ha as <-. split; [reflexivity|].
    split; [exact Hs|]. split; [rewrite Hc; reflexivity|]. exists p. exact (conj Hp Hm).
Defined.

(** Batch mode runs the program to its good trap. *)
Example main_good_trap :
  match nemu_main files 0 command_line [] s0 with Ok (r, _) => r = 0 | Abort _ => False end.
Proof. vm_compute. reflexivity. Qed.

End MonitorWitness.
