(* ===== verification/AmBus.v ===== *)
(** The abstract machine's view of the hardware: [abstract-machine/am/src/riscv/riscv.h]
    and [am/include/amdev.h].

    A program on the abstract machine reaches its devices by loads, stores and the trap
    that ends it. [Bus] is that interface; the platform code is written against it, and
    [AmNemu] and [AmSoc] use it for the platforms [nemu], [npc] and [ysyxsoc]. *)

From S2P Require Import Prelude.

(** Loads and stores of 1, 2 or 4 bytes, and the trap instruction with its code in a0. *)
Class Bus (S : Type) : Type := {
  bus_read : Z -> Z -> M S Z;
  bus_write : Z -> Z -> Z -> M S unit;
  bus_trap : Z -> M S unit;
}.

Section Ports.
Context {S : Type} `{BUS : Bus S}.

Definition inb (addr : Z) : M S Z := bus_read addr 1.
Definition inw (addr : Z) : M S Z := bus_read addr 2.
Definition inl (addr : Z) : M S Z := bus_read addr 4.
Definition outb (addr data : Z) : M S unit := bus_write addr 1 (u8 data).
Definition outw (addr data : Z) : M S unit := bus_write addr 2 (u16 data).
Definition outl (addr data : Z) : M S unit := bus_write addr 4 (u32 data).

End Ports.

(** * Device registers ([AM_DEVREG])

    The buffer of [ioe_read] and [ioe_write], by the structure the caller passes. *)

Inductive devreg : Type :=
| UART_CONFIG_T (present : bool)
| UART_TX_T (data : Z)
| UART_RX_T (data : Z)
| TIMER_CONFIG_T (present has_rtc : bool)
| TIMER_RTC_T (year month day hour minute second : Z)
| TIMER_UPTIME_T (us : Z)
| INPUT_CONFIG_T (present : bool)
| INPUT_KEYBRD_T (keydown : bool) (keycode : Z)
| GPU_CONFIG_T (present has_accel : bool) (width height vmemsz : Z)
| GPU_STATUS_T (ready : bool)
| GPU_FBDRAW_T (x y pixels w h : Z) (sync : bool)
| AUDIO_CONFIG_T (present : bool) (bufsize : Z)
| AUDIO_CTRL_T (freq channels samples : Z)
| AUDIO_STATUS_T (count : Z)
| AUDIO_PLAY_T (buf_start buf_end : Z)
| DISK_CONFIG_T (present : bool) (blksz blkcnt : Z)
| DISK_STATUS_T (ready : bool)
| DISK_BLKIO_T (write : bool) (buf blkno blkcnt : Z)
| NET_CONFIG_T (present : bool).

(** The numbers of the registers. *)
Definition AM_UART_CONFIG : Z := 1.
Definition AM_UART_TX : Z := 2.
Definition AM_UART_RX : Z := 3.
Definition AM_TIMER_CONFIG : Z := 4.
Definition AM_TIMER_RTC : Z := 5.
Definition AM_TIMER_UPTIME : Z := 6.
Definition AM_INPUT_CONFIG : Z := 7.
Definition AM_INPUT_KEYBRD : Z := 8.
Definition AM_GPU_CONFIG : Z := 9.
Definition AM_GPU_STATUS : Z := 10.
Definition AM_GPU_FBDRAW : Z := 11.
Definition AM_AUDIO_CONFIG : Z := 14.
Definition AM_AUDIO_CTRL : Z := 15.
Definition AM_AUDIO_STATUS : Z := 16.
Definition AM_AUDIO_PLAY : Z := 17.
Definition AM_DISK_CONFIG : Z := 18.
Definition AM_DISK_STATUS : Z := 19.
Definition AM_DISK_BLKIO : Z := 20.
Definition AM_NET_CONFIG : Z := 21.

Definition AM_KEY_NONE : Z := 0.

(** [AM_KEYS]: the names in the order of the enumeration, from 1. *)
Definition AM_KEYS : list string := [
  "ESCAPE"; "F1"; "F2"; "F3"; "F4"; "F5"; "F6"; "F7"; "F8"; "F9"; "F10"; "F11"; "F12";
  "GRAVE"; "1"; "2"; "3"; "4"; "5"; "6"; "7"; "8"; "9"; "0"; "MINUS"; "EQUALS"; "BACKSPACE";
  "TAB"; "Q"; "W"; "E"; "R"; "T"; "Y"; "U"; "I"; "O"; "P"; "LEFTBRACKET"; "RIGHTBRACKET"; "BACKSLASH";
  "CAPSLOCK"; "A"; "S"; "D"; "F"; "G"; "H"; "J"; "K"; "L"; "SEMICOLON"; "APOSTROPHE"; "RETURN";
  "LSHIFT"; "Z"; "X"; "C"; "V"; "B"; "N"; "M"; "COMMA"; "PERIOD"; "SLASH"; "RSHIFT";
  "LCTRL"; "APPLICATION"; "LALT"; "SPACE"; "RALT"; "RCTRL";
  "UP"; "DOWN"; "LEFT"; "RIGHT"; "INSERT"; "DELETE"; "HOME"; "END"; "PAGEUP"; "PAGEDOWN" ]%string.

Fixpoint index_from (ks : list string) (k : string) (i : Z) : Z :=
  match ks with
  | [] => 0
  | k' :: ks => if String.eqb k k' then i else index_from ks k (i + 1)
  end.
(** [AM_KEY_k]. *)
Definition AM_KEY (k : string) : Z := index_from AM_KEYS k 1.

(** A handler of the table [lut], called with a pointer to the caller's structure. *)
Definition handler_t (S : Type) : Type := devreg -> M S devreg.

(** A structure of another type than the handler writes to. *)
Definition bad_buf {S A} : M S A := undef "the buffer has another type".

(** * A byte memory behind the bus *)

Definition ram : Type := Z -> Z.

Definition set_bytes (m : ram) (a : Z) (bs : list Z) : ram := fun k =>
  if (a <=? k) && (k <? a + Z.of_nat (length bs)) then nth (Z.to_nat (k - a)) bs 0 else m k.

Definition get_bytes (m : ram) (a : Z) (n : nat) : list Z := map (fun i => m (a + i)) (seqZ 0 (Z.of_nat n)).

(** Accesses that do not run past the end of the address space. *)
#[global] Instance ram_bus : Bus ram := {|
  bus_read a n := gets (fun m => le_combine (get_bytes m a (Z.to_nat n)));
  bus_write a n v := modify (fun m => set_bytes m a (le_split (Z.to_nat n) v));
  bus_trap _ := mret tt;
|}.

Definition bytes_ok (m : ram) : Prop := forall a, in_u 8 (m a).
