(* ===== verification/AmNemu.v ===== *)
(** The platform [nemu] of the abstract machine: [abstract-machine/am/src/platform/nemu]
    ([trm.c], [mpe.c] and [ioe/*.c]).

    The platform code over any [Bus]; [AmOnNemu] runs it on the emulator and shows that
    the runtime and the emulated devices agree. *)

From S2P Require Import Prelude AmBus.

Definition DEVICE_BASE : Z := 0xa0000000.
Definition MMIO_BASE : Z := 0xa0000000.
Definition SERIAL_PORT : Z := DEVICE_BASE + 0x00003f8.
Definition KBD_ADDR : Z := DEVICE_BASE + 0x0000060.
Definition RTC_ADDR : Z := DEVICE_BASE + 0x0000048.
Definition VGACTL_ADDR : Z := DEVICE_BASE + 0x0000100.
Definition FB_ADDR : Z := MMIO_BASE + 0x1000000.
Definition SYNC_ADDR : Z := VGACTL_ADDR + 4.

Section Platform.
Context {S : Type} `{BUS : Bus S}.

(** * [trm.c] *)

Definition putch (ch : Z) : M S unit := outb SERIAL_PORT ch.

(** The emulator leaves its loop at the trap, so the endless loop behind it is never
    run. *)
Definition halt (code : Z) : M S unit := bus_trap code.

Definition trm_init (main : M S Z) : M S unit := ret ← main; halt ret.

(** * [mpe.c] *)

Definition mpe_init (entry : M S unit) : M S bool := entry ;; panic "MPE entry returns".
Definition cpu_count : Z := 1.
Definition cpu_current : Z := 0.

(** * [ioe/timer.c] *)

(** The loop ends when the high word did not change around the reading of the low
    word; [fuel] bounds the rounds. *)
Fixpoint uptime_loop (fuel : nat) : M S Z :=
  match fuel with
  | O => undef "the clock was never read twice in the same high word"
  | Datatypes.S fuel =>
      high1 ← inl (RTC_ADDR + 4);
      low ← inl (RTC_ADDR + 0);
      high2 ← inl (RTC_ADDR + 4);
      if negb (high1 =? high2) then uptime_loop fuel
      else mret (Z.lor (u64 (Z.shiftl high1 32)) low)
  end.

Definition am_timer_init : M S unit := mret tt.
Definition am_timer_uptime (fuel : nat) : handler_t S := fun buf =>
  match buf with
  | TIMER_UPTIME_T _ => us ← uptime_loop fuel; mret (TIMER_UPTIME_T us)
  | _ => bad_buf
  end.

Definition am_timer_rtc : handler_t S := fun buf =>
  match buf with
  | TIMER_RTC_T _ _ _ _ _ _ => mret (TIMER_RTC_T 1900 0 0 0 0 0)
  | _ => bad_buf
  end.

(** * [ioe/input.c] *)

Definition KEYDOWN_MASK : Z := 0x8000.

Definition input_keybrd : M S (bool * Z) :=
  key ← inl KBD_ADDR;
  mret (Z.land key KEYDOWN_MASK =? KEYDOWN_MASK, s32 (Z.land key (u32 (Z.lnot KEYDOWN_MASK)))).

Definition am_input_keybrd : handler_t S := fun buf =>
  match buf with
  | INPUT_KEYBRD_T _ _ => '(down, code) ← input_keybrd; mret (INPUT_KEYBRD_T down code)
  | _ => bad_buf
  end.

(** * [ioe/gpu.c] *)

(** [for (i = 0; i < n; i ++) fb[i] = i;] from [i] on, [n] more rounds. *)
Fixpoint fb_fill (n : nat) (i : Z) : M S unit :=
  match n with
  | O => mret tt
  | Datatypes.S n => bus_write (u32 (FB_ADDR + 4 * i)) 4 (u32 i) ;; fb_fill n (i + 1)
  end.

Definition am_gpu_init : M S unit :=
  v ← inl VGACTL_ADDR;
  let w := s32 (Z.shiftr v 16) in
  v ← inl VGACTL_ADDR;
  let h := s32 (Z.land v 0xffff) in
  (if w * h <? 2 ^ 31 then fb_fill (Z.to_nat (w * h)) 0 else undef "w * h overflows") ;;
  outl SYNC_ADDR 1.

Definition am_gpu_config : handler_t S := fun buf =>
  match buf with
  | GPU_CONFIG_T _ _ _ _ _ =>
      w ← inl VGACTL_ADDR;
      h ← inl VGACTL_ADDR;
      mret (GPU_CONFIG_T true false (s32 (Z.shiftr w 16)) (s32 (Z.land h 0xffff)) 0)
  | _ => bad_buf
  end.

(** [outl(FB_ADDR + ((y+i)*width + j + x) * 4, src[i*w + j])]. *)
Definition fb_addr (width x y i j : Z) : Z := u32 (FB_ADDR + u32 ((u32 (y + i) * width + j + x) * 4)).
Definition draw_pixel (width x y w src i j : Z) : M S unit :=
  p ← bus_read (u32 (src + 4 * u32 (i * w + j))) 4;
  outl (fb_addr width x y i j) p.

Fixpoint draw_row (width x y w src i : Z) (n : nat) (j : Z) : M S unit :=
  match n with
  | O => mret tt
  | Datatypes.S n => draw_pixel width x y w src i j ;; draw_row width x y w src i n (j + 1)
  end.

Fixpoint draw_rows (width x y w src : Z) (n : nat) (i : Z) : M S unit :=
  match n with
  | O => mret tt
  | Datatypes.S n => draw_row width x y w src i (Z.to_nat w) 0 ;; draw_rows width x y w src n (i + 1)
  end.

Definition am_gpu_fbdraw : handler_t S := fun buf =>
  match buf with
  | GPU_FBDRAW_T x y pixels w h sync =>
      v ← inl VGACTL_ADDR;
      let width := Z.shiftr v 16 in
      (if pixels =? 0 then mret tt
       else if (u32 h <? 2 ^ 31) && (u32 w <? 2 ^ 31) then
         draw_rows width (u32 x) (u32 y) (u32 w) pixels (Z.to_nat (u32 h)) 0
       else undef "the loop counter overflows") ;;
      when sync (outl SYNC_ADDR 1) ;;
      mret buf
  | _ => bad_buf
  end.

Definition am_gpu_status : handler_t S := fun buf =>
  match buf with GPU_STATUS_T _ => mret (GPU_STATUS_T true) | _ => bad_buf end.

(** * [ioe/audio.c] and [ioe/disk.c]: absent devices *)

Definition am_audio_init : M S unit := mret tt.
Definition am_audio_config : handler_t S := fun buf =>
  match buf with AUDIO_CONFIG_T _ n => mret (AUDIO_CONFIG_T false n) | _ => bad_buf end.
Definition am_audio_ctrl : handler_t S := mret.
Definition am_audio_status : handler_t S := fun buf =>
  match buf with AUDIO_STATUS_T _ => mret (AUDIO_STATUS_T 0) | _ => bad_buf end.
Definition am_audio_play : handler_t S := mret.
Definition am_disk_config : handler_t S := fun buf =>
  match buf with DISK_CONFIG_T _ a b => mret (DISK_CONFIG_T false a b) | _ => bad_buf end.
Definition am_disk_status : handler_t S := mret.
Definition am_disk_blkio : handler_t S := mret.

(** * [ioe/ioe.c] *)

Definition am_uart_rx : handler_t S := mret.
Definition am_timer_config : handler_t S := fun buf =>
  match buf with TIMER_CONFIG_T _ _ => mret (TIMER_CONFIG_T true true) | _ => bad_buf end.
Definition am_input_config : handler_t S := fun buf =>
  match buf with INPUT_CONFIG_T _ => mret (INPUT_CONFIG_T true) | _ => bad_buf end.
Definition am_uart_config : handler_t S := fun buf =>
  match buf with UART_CONFIG_T _ => mret (UART_CONFIG_T false) | _ => bad_buf end.
Definition am_net_config : handler_t S := fun buf =>
  match buf with NET_CONFIG_T _ => mret (NET_CONFIG_T false) | _ => bad_buf end.

Definition fail_handler : handler_t S := fun _ => panic "access nonexist register".

(** The initial table; [fuel] is for the timer's loop. *)
Definition lut_init (fuel : nat) (reg : Z) : option (handler_t S) :=
  if reg =? AM_TIMER_CONFIG then Some am_timer_config
  else if reg =? AM_TIMER_RTC then Some am_timer_rtc
  else if reg =? AM_TIMER_UPTIME then Some (am_timer_uptime fuel)
  else if reg =? AM_INPUT_CONFIG then Some am_input_config
  else if reg =? AM_INPUT_KEYBRD then Some am_input_keybrd
  else if reg =? AM_GPU_CONFIG then Some am_gpu_config
  else if reg =? AM_GPU_FBDRAW then Some am_gpu_fbdraw
  else if reg =? AM_GPU_STATUS then Some am_gpu_status
  else if reg =? AM_UART_CONFIG then Some am_uart_config
  else if reg =? AM_AUDIO_CONFIG then Some am_audio_config
  else if reg =? AM_AUDIO_CTRL then Some am_audio_ctrl
  else if reg =? AM_AUDIO_STATUS then Some am_audio_status
  else if reg =? AM_AUDIO_PLAY then Some am_audio_play
  else if reg =? AM_DISK_CONFIG then Some am_disk_config
  else if reg =? AM_DISK_STATUS then Some am_disk_status
  else if reg =? AM_DISK_BLKIO then Some am_disk_blkio
  else if reg =? AM_NET_CONFIG then Some am_net_config
  else if reg =? AM_UART_RX then Some am_uart_rx
  else None.

(** After [ioe_init] the empty slots hold [fail]. *)
Definition lut (fuel : nat) (reg : Z) : handler_t S :=
  match lut_init fuel reg with Some h => h | None => fail_handler end.

Definition ioe_init : M S bool := am_gpu_init ;; am_timer_init ;; am_audio_init ;; mret true.

(** [lut[reg]] outside the 128 slots is undefined. *)
Definition ioe_read (fuel : nat) (reg : Z) (buf : devreg) : M S devreg :=
  if (0 <=? reg) && (reg <? 128) then lut fuel reg buf else undef "lut index".
Definition ioe_write (fuel : nat) (reg : Z) (buf : devreg) : M S devreg := ioe_read fuel reg buf.

End Platform.
