(* ===== verification/AmOnNemu.v ===== *)
(** The platform [nemu] of the abstract machine on the emulator.

    [nemu_bus] gives the platform code of [AmNemu] the emulator as its hardware: a load
    or store of the guest is [vaddr_read] or [vaddr_write], and the trap of [halt] is
    [mv a0, code; ebreak]. [board] says that the five devices are registered at the
    addresses of [nemu.h]; the theorems are about the two programs together. *)

From S2P Require Import Prelude Config Machine HostMem Region IoMap DevBasic Keyboard Sdcard Device.
From S2P Require Import Paddr Isa AmBus AmNemu.

Section OnNemu.
Context `{CFG : Config} `{HOST : Host}.

#[global] Instance nemu_bus : Bus Machine := {|
  bus_read := vaddr_read;
  bus_write := vaddr_write;
  bus_trap code := set_R 10 code ;; p ← gets (fun s => pc (cpu s)); a0 ← R 10; set_nemu_state NEMU_END p a0;
|}.

(** * The board *)

(** A range of the bus with the object behind it. *)
Definition mapped (s : Machine) (addr len : Z) (p : io_ptr) (cb : option io_callback) : Prop :=
  (exists i name, maps s !! i = Some (mkMap name addr (addr + len - 1) p cb)) /\
  0 <= io_off p /\ io_off p + len <= IO_SPACE_MAX.

Record board (s : Machine) : Prop := mkBoard {
  b_device : CONFIG_DEVICE = true;
  b_maps : maps_ok (maps s);
  b_serial : mapped s SERIAL_PORT 8 (serial_base (dev s)) (Some serial_io);
  b_rtc : mapped s RTC_ADDR 8 (rtc_port_base (dev s)) (Some rtc_io);
  b_kbd : mapped s KBD_ADDR 4 (i8042_data_port_base (dev s)) (Some i8042_data_io);
  b_vga : mapped s VGACTL_ADDR 8 (vgactl_port_base (dev s)) None;
  b_fb : mapped s FB_ADDR screen_size (vmem (dev s)) None;
  b_ram : forall a, DEVICE_BASE <= a < FB_ADDR + screen_size -> ram_ptr a = None;
}.

(** The statics that a device access leaves alone. *)
Record same_board (s s' : Machine) : Prop := mkSame {
  sb_maps : maps s' = maps s;
  sb_serial : serial_base (dev s') = serial_base (dev s);
  sb_rtc : rtc_port_base (dev s') = rtc_port_base (dev s);
  sb_kbd : i8042_data_port_base (dev s') = i8042_data_port_base (dev s);
  sb_vga : vgactl_port_base (dev s') = vgactl_port_base (dev s);
  sb_vmem : vmem (dev s') = vmem (dev s);
}.

Lemma board_same s s' : board s -> same_board s s' -> board s'.
Proof.
  intros [] [Em Es Er Ek Ev Ef]. unfold mapped in *.
  constructor; unfold mapped; rewrite ?Em, ?Es, ?Er, ?Ek, ?Ev, ?Ef; assumption.
Qed.

(** [difftest_skip_ref] on every device access. *)
Definition skip (s : Machine) : Machine :=
  if CONFIG_DIFFTEST then s <| is_skip_ref := true |> <| skip_dut_nr_inst := 0 |> else s.

Lemma skip_run s : difftest_skip_ref s = Ok (tt, skip s).
Proof. unfold difftest_skip_ref, skip. by destruct CONFIG_DIFFTEST. Qed.

Lemma skip_same s : same_board s (skip s) /\ mem (skip s) = mem s /\ dev (skip s) = dev s /\
  boot_time (skip s) = boot_time s /\ time_reads (skip s) = time_reads s /\ maps (skip s) = maps s /\
  nemu_state (skip s) = nemu_state s.
Proof. unfold skip. by destruct CONFIG_DIFFTEST. Qed.

(** An access to a device register reaches the registered range. *)
Lemma mapped_find s addr len p cb a : maps_ok (maps s) -> mapped s addr len p cb -> addr <= a < addr + len ->
  exists i name, find_map (maps s) a = Some i /\ maps s !! i = Some (mkMap name addr (addr + len - 1) p cb).
Proof.
  intros Hok ((i & name & Hi) & _) Ha. exists i, name. split; [|done].
  apply (find_map_unique _ _ _ _ Hok Hi). unfold map_inside. cbn [low high].
  apply andb_true_iff. rewrite !Z.leb_le. lia.
Qed.

Lemma rest_read a n s : CONFIG_DEVICE = true -> ram_ptr a = None -> paddr_read a n s = mmio_read a n s.
Proof. unfold ram_ptr, paddr_read. intros ->. repeat case_match; done. Qed.
Lemma rest_write a n v s : CONFIG_DEVICE = true -> ram_ptr a = None -> paddr_write a n v s = mmio_write a n v s.
Proof. unfold ram_ptr, paddr_write. intros ->. repeat case_match; done. Qed.

Lemma fetch_run a i m s : find_map (maps s) a = Some i -> maps s !! i = Some m ->
  fetch_mmio_map a s = Ok (Some m, skip s).
Proof.
  intros Hf Hi. unfold fetch_mmio_map, find_mapid_by_addr, mbind, M_bind, gets. rewrite Hf, skip_run. cbn.
  by rewrite Hi.
Qed.

Lemma reg_read s addr len p cb o n : board s -> mapped s addr len p cb -> 0 <= o < len ->
  DEVICE_BASE <= addr -> addr + o < FB_ADDR + screen_size -> width_ok n = true ->
  vaddr_read (addr + o) n s =
  (invoke_callback cb o n false ;; host_read (io_at p o) n) (skip s).
Proof.
  intros B Hm Ho Ha Hb Hw. destruct (mapped_find s addr len p cb (addr + o) (b_maps _ B) Hm ltac:(lia)) as (i & name & Hf & Hi).
  pose proof (b_maps _ B) as (_ & Hr & _). rewrite Forall_lookup in Hr. specialize (Hr _ _ Hi). cbn in Hr.
  unfold vaddr_read. rewrite rest_read; [|apply B|apply (b_ram _ B); lia].
  unfold mmio_read. rewrite (bind_run _ _ _ _ _ (fetch_run _ _ _ _ Hf Hi)). unfold map_read.
  rewrite (bind_run (c_assert _ _) _ _ tt (skip s)).
  2:{ unfold c_assert, width_ok in *. apply orb_true_iff in Hw as [[->%Z.eqb_eq | ->%Z.eqb_eq]%orb_true_iff | ->%Z.eqb_eq]; done. }
  rewrite (bind_run (check_bound _ _) _ _ (mkMap name addr (addr + len - 1) p cb) (skip s)).
  2:{ unfold check_bound. cbn [low high]. rewrite (proj2 (Z.leb_le _ _)), (proj2 (Z.leb_le _ _)) by lia. done. }
  cbn [low space callback]. replace (addr + o - addr) with o by lia.
  rewrite (wrap_id 32 o) by (unfold in_u; lia). done.
Qed.

Lemma reg_write s addr len p cb o n v : board s -> mapped s addr len p cb -> 0 <= o < len ->
  DEVICE_BASE <= addr -> addr + o < FB_ADDR + screen_size -> width_ok n = true ->
  vaddr_write (addr + o) n v s =
  (host_write (io_at p o) n v ;; invoke_callback cb o n true) (skip s).
Proof.
  intros B Hm Ho Ha Hb Hw. destruct (mapped_find s addr len p cb (addr + o) (b_maps _ B) Hm ltac:(lia)) as (i & name & Hf & Hi).
  pose proof (b_maps _ B) as (_ & Hr & _). rewrite Forall_lookup in Hr. specialize (Hr _ _ Hi). cbn in Hr.
  unfold vaddr_write. rewrite rest_write; [|apply B|apply (b_ram _ B); lia].
  unfold mmio_write. rewrite (bind_run _ _ _ _ _ (fetch_run _ _ _ _ Hf Hi)). unfold map_write.
  rewrite (bind_run (c_assert _ _) _ _ tt (skip s)).
  2:{ unfold c_assert, width_ok in *. apply orb_true_iff in Hw as [[->%Z.eqb_eq | ->%Z.eqb_eq]%orb_true_iff | ->%Z.eqb_eq]; done. }
  rewrite (bind_run (check_bound _ _) _ _ (mkMap name addr (addr + len - 1) p cb) (skip s)).
  2:{ unfold check_bound. cbn [low high]. rewrite (proj2 (Z.leb_le _ _)), (proj2 (Z.leb_le _ _)) by lia. done. }
  cbn [low space callback]. replace (addr + o - addr) with o by lia.
  rewrite (wrap_id 32 o) by (unfold in_u; lia). done.
Qed.

(** Words of device memory. *)
Definition io_word (s : Machine) (p : io_ptr) (o : Z) : Z :=
  le_combine (peek_bytes (mem s) BIoSpace (io_off p + o) 4).

Lemma io_in_block p o n : 0 <= io_off p + o -> io_off p + o + n <= IO_SPACE_MAX -> in_block (io_at p o) n = true.
Proof. intros H1 H2. unfold in_block. cbn [io_at off blk block_size]. apply andb_true_iff. rewrite !Z.leb_le. lia. Qed.

Lemma io_load p o s : 0 <= io_off p + o -> io_off p + o + 4 <= IO_SPACE_MAX ->
  host_read (io_at p o) 4 s = Ok (io_word s p o, s).
Proof. intros H1 H2. unfold host_read, load. cbn [Z.eqb Pos.eqb]. by rewrite io_in_block. Qed.

Definition io_poke (s : Machine) (p : io_ptr) (o : Z) (n : nat) (v : Z) : Machine :=
  s <| mem := poke_bytes (mem s) BIoSpace (io_off p + o) (le_split n v) |>.

Lemma io_poke_mem s p o n v :
  mem (io_poke s p o n v) = poke_bytes (mem s) BIoSpace (io_off p + o) (le_split n v).
Proof. done. Qed.

Lemma io_store p o n v s : 0 <= io_off p + o -> io_off p + o + Z.of_nat n <= IO_SPACE_MAX ->
  store (io_at p o) n v s = Ok (tt, io_poke s p o n v).
Proof. intros H1 H2. unfold store. by rewrite io_in_block. Qed.

Lemma io_word_poke s p o v : in_u 32 v -> io_word (io_poke s p o 4 v) p o = v.
Proof.
  intros Hv. unfold io_word. rewrite io_poke_mem.
  pose proof (peek_bytes_poke (mem s) BIoSpace (io_off p + o) (le_split 4 v)) as H.
  rewrite length_le_split in H. rewrite H, le_combine_split. by apply wrap_id.
Qed.

Lemma io_word_poke_other s p o n v q o' :
  io_off q + o' + 4 <= io_off p + o \/ io_off p + o + Z.of_nat n <= io_off q + o' ->
  io_word (io_poke s p o n v) q o' = io_word s q o'.
Proof.
  intros H. unfold io_word. rewrite io_poke_mem. f_equal. apply peek_bytes_poke_other.
  rewrite length_le_split. tauto.
Qed.

Lemma io_poke_same s p o n v : same_board s (io_poke s p o n v).
Proof. done. Qed.

Lemma screen_size_pos : 0 < screen_size < 2 ^ 31.
Proof. unfold screen_size, screen_width, screen_height, SCREEN_W, SCREEN_H. by destruct CONFIG_VGA_SIZE_800x600. Qed.

(** Addresses of [nemu.h]. *)
Ltac amaddr :=
  pose proof screen_size_pos;
  unfold SYNC_ADDR, SERIAL_PORT, RTC_ADDR, KBD_ADDR, VGACTL_ADDR, FB_ADDR, DEVICE_BASE, MMIO_BASE in *;
  first [done|lia].

(** * The clock *)

(** What [get_time] gives next. *)
Definition device_time (s : Machine) (k : nat) : Z :=
  u64 (u64 (host_time (time_reads s + k)) - boot_time s).

Lemma get_time_run s : boot_time s <> 0 ->
  get_time s = Ok (device_time s 0, s <| time_reads := Datatypes.S (time_reads s) |>).
Proof.
  intros Hb. unfold get_time, get_time_internal, mbind, M_bind, gets.
  rewrite (proj2 (Z.eqb_neq _ _) Hb). cbn. unfold device_time. by rewrite Nat.add_0_r.
Qed.

(** The clock has been read and its value is in the registers. *)
Record latched (us : Z) (s s' : Machine) : Prop := mkLatched {
  la_same : same_board s s';
  la_boot : boot_time s' = boot_time s;
  la_low : io_word s' (rtc_port_base (dev s')) 0 = u32 us;
  la_high : io_word s' (rtc_port_base (dev s')) 4 = us / 2 ^ 32;
}.

Lemma rtc_high s : board s -> boot_time s <> 0 ->
  exists s', inl (RTC_ADDR + 4) s = Ok (device_time s 0 / 2 ^ 32, s') /\
    latched (device_time s 0) s s' /\ time_reads s' = Datatypes.S (time_reads s).
Proof.
  intros B Hb. pose proof (b_rtc _ B) as Hm. destruct Hm as (_ & Hp0 & Hp1).
  unfold inl, bus_read, nemu_bus.
  rewrite (reg_read s RTC_ADDR 8 _ (Some rtc_io) 4 4 B (b_rtc _ B)) by amaddr.
  destruct (skip_same s) as (Ss & Em & Ed & Ebt & Etr & _).
  set (p := rtc_port_base (dev s)) in *. set (us := device_time s 0).
  set (s1 := (skip s) <| time_reads := Datatypes.S (time_reads s) |>).
  set (s3 := io_poke (io_poke s1 p 0 4 (u32 us)) p 4 4 (us / 2 ^ 32)).
  assert (in_u 64 us) as Hus by (by apply wrap_in_u). unfold in_u in Hus.
  assert (in_u 32 (us / 2 ^ 32)) as Hhi by (unfold in_u; Z.to_euclidean_division_equations; lia).
  assert (invoke_callback (Some rtc_io) 4 4 false (skip s) = Ok (tt, s3)) as Hcb.
  { cbn [invoke_callback run_callback device_callbacks]. unfold rtc_io_handler.
    rewrite (bind_run (c_assert _ _) _ _ tt (skip s)) by done. cbn [negb andb Z.eqb Pos.eqb].
    rewrite (bind_run _ _ _ us s1)
      by (rewrite get_time_run by (by rewrite Ebt); unfold us, s1, device_time; rewrite Etr, Ebt; reflexivity).
    rewrite (bind_run (gets _) _ _ p s1) by (unfold gets, s1; cbn; by rewrite Ed).
    rewrite (bind_run (set32 _ _ _) _ _ tt (io_poke s1 p 0 4 (u32 us))).
    2:{ unfold set32. rewrite wrap_wrap. apply io_store; lia. }
    unfold set32. rewrite Z.shiftr_div_pow2, (wrap_id 32 _ Hhi) by lia. apply io_store; lia. }
  rewrite (bind_run _ _ _ _ _ Hcb), io_load by lia. exists s3.
  assert (rtc_port_base (dev s3) = p) as Ep by (unfold s3, s1; cbn; by rewrite Ed).
  split; [|split].
  - unfold s3. by rewrite io_word_poke.
  - constructor.
    + destruct Ss. constructor; cbn; rewrite ?Ed; done.
    + cbn. by rewrite Ebt.
    + rewrite Ep. unfold s3. rewrite io_word_poke_other by lia. rewrite io_word_poke; [done|by apply wrap_in_u].
    + rewrite Ep. unfold s3. by rewrite io_word_poke.
  - done.
Qed.

Lemma rtc_low us s s' : board s' -> latched us s s' ->
  exists s'', inl (RTC_ADDR + 0) s' = Ok (u32 us, s'') /\ latched us s s'' /\ time_reads s'' = time_reads s'.
Proof.
  intros B L. pose proof (b_rtc _ B) as Hm. destruct Hm as (_ & Hp0 & Hp1).
  unfold inl, bus_read, nemu_bus.
  rewrite (reg_read s' RTC_ADDR 8 _ (Some rtc_io) 0 4 B (b_rtc _ B)) by amaddr.
  destruct (skip_same s') as (Ss & Em & Ed & Ebt & Etr & _). destruct L as [Hs Hbt Hlo Hhi].
  rewrite (bind_run (invoke_callback _ _ _ _) _ _ tt (skip s')) by done.
  rewrite io_load by lia. exists (skip s'). unfold io_word in *. rewrite Em. split; [by rewrite Hlo|].
  split; [|done]. constructor.
  - destruct Hs, Ss. constructor; congruence.
  - congruence.
  - unfold io_word. by rewrite Ed, Em.
  - unfold io_word. by rewrite Ed, Em.
Qed.

(** The loop of [__am_timer_uptime] in the [k]-th round. *)
Definition round_ok (s : Machine) (k : nat) : bool :=
  device_time s (2 * k) / 2 ^ 32 =? device_time s (2 * k + 1) / 2 ^ 32.

Lemma uptime_round fuel s : board s -> boot_time s <> 0 ->
  exists s', uptime_loop (Datatypes.S fuel) s =
    (if round_ok s 0 then mret (device_time s 0) else uptime_loop fuel) s' /\
    board s' /\ boot_time s' = boot_time s /\ time_reads s' = (time_reads s + 2)%nat.
Proof.
  intros B Hb. destruct (rtc_high s B Hb) as (s1 & R1 & L1 & T1).
  pose proof (board_same _ _ B (la_same _ _ _ L1)) as B1.
  destruct (rtc_low _ _ _ B1 L1) as (s2 & R2 & L2 & T2).
  pose proof (board_same _ _ B (la_same _ _ _ L2)) as B2.
  assert (boot_time s2 = boot_time s) as Hb2 by apply L2.
  destruct (rtc_high s2 B2 ltac:(congruence)) as (s3 & R3 & L3 & T3).
  assert (device_time s2 0 = device_time s 1) as Ed.
  { unfold device_time. rewrite Hb2, T2, T1. by replace (Datatypes.S (time_reads s) + 0)%nat with (time_reads s + 1)%nat by lia. }
  exists s3. split_and!.
  - cbn [uptime_loop]. rewrite (bind_run _ _ _ _ _ R1), (bind_run _ _ _ _ _ R2), (bind_run _ _ _ _ _ R3), Ed.
    unfold round_ok. change (2 * 0)%nat with 0%nat. cbn [Nat.add].
    destruct (_ =? _); cbn [negb]; [|done]. unfold mret, M_ret. do 2 f_equal.
    assert (in_u 64 (device_time s 0)) as Hu by (by apply wrap_in_u). unfold in_u in Hu.
    rewrite Z.shiftl_mul_pow2, wrap_id by (unfold in_u; Z.to_euclidean_division_equations; lia).
    rewrite lor_add by (done || by apply wrap_range). unfold wrap. Z.to_euclidean_division_equations; lia.
  - exact (board_same _ _ B2 (la_same _ _ _ L3)).
  - rewrite (la_boot _ _ _ L3). congruence.
  - lia.
Qed.

Lemma device_time_later s s' n k : boot_time s' = boot_time s -> time_reads s' = (time_reads s + n)%nat ->
  device_time s' k = device_time s (n + k).
Proof. intros Hb Ht. unfold device_time. rewrite Hb, Ht. by rewrite Nat.add_assoc. Qed.

(** [__am_timer_uptime] on the emulator: it returns the device time of the first
    reading of the first round in which the high word stays the same, after two
    readings of the clock per round, and leaves the devices in place; more fuel than
    rounds is enough. *)
Theorem uptime_correct k fuel s : board s -> boot_time s <> 0 ->
  (forall i, (i < k)%nat -> round_ok s i = false) -> round_ok s k = true -> (k < fuel)%nat ->
  exists s', ioe_read fuel AM_TIMER_UPTIME (TIMER_UPTIME_T 0) s = Ok (TIMER_UPTIME_T (device_time s (2 * k)), s') /\
    board s' /\ time_reads s' = (time_reads s + 2 * (k + 1))%nat.
Proof.
  intros B Hb Hbad Hok Hf.
  assert (exists s', uptime_loop fuel s = Ok (device_time s (2 * k), s') /\ board s' /\
    time_reads s' = (time_reads s + 2 * (k + 1))%nat) as (s' & R & Bs & T).
  { revert k fuel s B Hb Hbad Hok Hf. induction k as [|k IH]; intros fuel s B Hb Hbad Hok Hf;
      (destruct fuel as [|fuel]; [lia|]); destruct (uptime_round fuel s B Hb) as (s1 & R & B1 & Hb1 & T1).
    - exists s1. rewrite R, Hok. split_and!; [done|done|lia].
    - rewrite (Hbad 0%nat) in R by lia.
      assert (forall i, round_ok s1 i = round_ok s (Datatypes.S i)) as Hr.
      { intros i. unfold round_ok. rewrite !(device_time_later s s1 2) by done.
        replace (2 + 2 * i)%nat with (2 * Datatypes.S i)%nat by lia.
        by replace (2 + (2 * i + 1))%nat with (2 * Datatypes.S i + 1)%nat by lia. }
      destruct (IH fuel s1) as (s' & R' & B' & T'); [done|congruence| | |lia|].
      + intros i Hi. rewrite Hr. apply Hbad. lia.
      + by rewrite Hr.
      + exists s'. rewrite R, R'. split_and!; [|done|lia]. rewrite (device_time_later s s1 2) by done.
        by replace (2 + 2 * k)%nat with (2 * Datatypes.S k)%nat by lia. }
  exists s'. split_and!; [|done|done]. unfold ioe_read. cbn -[uptime_loop].
  unfold lut, lut_init. cbn -[uptime_loop]. by rewrite (bind_run _ _ _ _ _ R).
Qed.

(** * The keyboard *)

Lemma key_enqueue_same v s u s' : key_enqueue v s = Ok (u, s') ->
  same_board s s' /\ keymap (dev s') = keymap (dev s) /\ nemu_state s' = nemu_state s.
Proof. unfold key_enqueue. intros H. inv_ok. case_match; by inv_ok. Qed.

Lemma key_dequeue_same s v s' : key_dequeue s = Ok (v, s') -> same_board s s' /\ mem s' = mem s.
Proof. unfold key_dequeue. intros H. inv_ok. case_match; by inv_ok. Qed.

(** What the abstract machine makes of a code. *)
Definition key_of (v : Z) : bool * Z :=
  (Z.land v KEYDOWN_MASK =? KEYDOWN_MASK, s32 (Z.land v (u32 (Z.lnot KEYDOWN_MASK)))).

Definition head_code (q : list Z) : Z := match q with [] => NEMU_KEY_NONE | v :: _ => v end.

Lemma queue_code d v q : queue d = v :: q -> in_u 32 v.
Proof.
  intros H. assert (v ∈ queue d) as Hin by (rewrite H; by left). unfold queue in Hin.
  apply list_elem_of_fmap in Hin as (i & -> & _). by apply wrap_in_u.
Qed.

(** A read of the data port takes the first waiting code. *)
Lemma keybrd_run s : board s -> ring_ok (dev s) ->
  exists s', input_keybrd s = Ok (key_of (head_code (queue (dev s))), s') /\
    board s' /\ ring_ok (dev s') /\ queue (dev s') = tail (queue (dev s)).
Proof.
  intros B Hr. pose proof (b_kbd _ B) as Hm. destruct Hm as (_ & Hp0 & Hp1).
  destruct (skip_same s) as (Ss & Em & Ed & _).
  assert (exists s1, key_dequeue (skip s) = Ok (head_code (queue (dev s)), s1) /\
    ring_ok (dev s1) /\ queue (dev s1) = tail (queue (dev s))) as (s1 & Hd & Hr1 & Hq1).
  { pose proof (key_dequeue_spec (skip s)) as H. rewrite Ed in H. specialize (H Hr).
    destruct (queue (dev s)) as [|v q] eqn:Eq; [exists (skip s); by rewrite Ed, Eq|].
    destruct H as (d' & -> & ? & ?). by exists ((skip s) <| dev := d' |>). }
  pose proof (key_dequeue_same _ _ _ Hd) as [Ss1 _].
  set (p := i8042_data_port_base (dev s)) in *. set (v := head_code (queue (dev s))) in *.
  assert (i8042_data_port_base (dev s1) = p) as Ep by (unfold p; destruct Ss, Ss1; congruence).
  assert (in_u 32 v) as Hv.
  { unfold v. destruct (queue (dev s)) as [|v' q] eqn:Eq; [done|]. by apply (queue_code _ _ _ Eq). }
  unfold input_keybrd, inl, bus_read, nemu_bus.
  replace KBD_ADDR with (KBD_ADDR + 0) by lia.
  erewrite bind_run; [|rewrite (reg_read s KBD_ADDR 4 p (Some i8042_data_io) 0 4 B (b_kbd _ B)) by amaddr;
    erewrite bind_run; [apply io_load; lia|]].
  2:{ cbn [invoke_callback run_callback device_callbacks]. unfold i8042_data_io_handler.
      rewrite (bind_run (c_assert _ _) _ _ tt (skip s)) by done.
      rewrite (bind_run (c_assert _ _) _ _ tt (skip s)) by done.
      rewrite (bind_run _ _ _ _ _ Hd), (bind_run (gets _) _ _ p s1) by (unfold gets; by rewrite Ep).
      unfold set32. rewrite (wrap_id 32 v Hv). apply io_store; lia. }
  exists (io_poke s1 p (4 * 0) 4 v). split; [|split_and!].
  - rewrite io_word_poke by done. done.
  - apply (board_same s); [done|]. destruct Ss, Ss1. constructor; cbn; congruence.
  - done.
  - done.
Qed.

Lemma key_of_code c (down : bool) : 0 <= c < 2 ^ 15 ->
  key_of (Z.lor c (if down then Keyboard.KEYDOWN_MASK else 0)) = (down, c).
Proof.
  intros Hc. unfold key_of. rewrite !Z.land_lor_distr_l.
  assert (Z.land c KEYDOWN_MASK = 0) as -> by (rewrite Z.land_comm; apply (land_high_low 1 c 15); lia).
  assert (Z.land c (u32 (Z.lnot KEYDOWN_MASK)) = c) as ->.
  { rewrite <- (Z.mod_small c (2 ^ 15)) at 1 by lia. rewrite <- Z.land_ones, <- Z.land_assoc by lia.
    change (Z.land (Z.ones 15) (u32 (Z.lnot KEYDOWN_MASK))) with (Z.ones 15).
    rewrite Z.land_ones by lia. by apply Z.mod_small. }
  destruct down; cbn [Z.land]; rewrite ?Z.lor_0_l.
  - change (Z.land Keyboard.KEYDOWN_MASK KEYDOWN_MASK) with 0x8000.
    change (Z.land Keyboard.KEYDOWN_MASK (u32 (Z.lnot KEYDOWN_MASK))) with 0.
    rewrite Z.lor_0_r, sgn_small by lia. done.
  - rewrite Z.land_0_l, Z.lor_0_r, sgn_small by lia. done.
Qed.

(** A key that the keyboard knows. *)
Definition key_event (km : list Z) (e : sdl_event) (k : bool * Z) : Prop :=
  match e with
  | SDL_KEY sc down => k = (down, nth (Z.to_nat (u8 sc)) km 0) /\ 0 < snd k < 2 ^ 15
  | _ => False
  end.

Definition event_code (k : bool * Z) : Z := Z.lor (snd k) (if fst k then Keyboard.KEYDOWN_MASK else 0).

Lemma event_code_u32 k : 0 < snd k < 2 ^ 15 -> in_u 32 (event_code k).
Proof.
  intros Hk. unfold event_code. destruct (fst k); [|rewrite Z.lor_0_r; unfold in_u; lia].
  rewrite Z.lor_comm. change Keyboard.KEYDOWN_MASK with (1 * 2 ^ 15). rewrite lor_add by lia. unfold in_u; lia.
Qed.

(** The polling loop enqueues the codes of the events. *)
Lemma handle_keys km es ks s : CONFIG_HAS_KEYBOARD = true -> Forall2 (key_event km) es ks ->
  state (nemu_state s) = NEMU_RUNNING -> keymap (dev s) = km -> ring_ok (dev s) ->
  (length (queue (dev s)) + length ks <= 1023)%nat ->
  exists s', handle_events es s = Ok (tt, s') /\ same_board s s' /\ ring_ok (dev s') /\
    queue (dev s') = queue (dev s) ++ map event_code ks.
Proof.
  intros Hk H. revert s. induction H as [|e k es ks He _ IH]; intros s Hn Hkm Hr Hl.
  { exists s. split_and!; [done|done|done|]. cbn. by rewrite app_nil_r. }
  destruct e as [|sc down|]; [done| |done]. destruct He as [-> Hc]. cbn [snd length] in *.
  set (c := nth (Z.to_nat (u8 sc)) km 0) in *.
  pose proof (key_enqueue_spec (event_code (down, c)) s Hr (event_code_u32 (down, c) Hc)) as He.
  destruct (Nat.eqb_spec (length (queue (dev s))) 1023) as [E|E]; [lia|]. destruct He as (d' & He & Hr' & Hq').
  destruct (key_enqueue_same _ _ _ _ He) as (Ss & Hkm' & Hn').
  assert (handle_event (SDL_KEY sc down) s = Ok (tt, s <| dev := d' |>)) as Hev.
  { cbn [handle_event]. rewrite Hk. unfold send_key, mbind, M_bind, gets. rewrite Hkm. fold c.
    rewrite bool_decide_true by done. rewrite (proj2 (Z.eqb_neq c NEMU_KEY_NONE)) by (unfold NEMU_KEY_NONE; lia).
    exact He. }
  destruct (IH (s <| dev := d' |>)) as (s' & R & S' & Hr2 & Hq2); [exact Hn|congruence|exact Hr'| |].
  { change (dev (s <| dev := d' |>)) with d'. rewrite Hq', length_app. cbn [length]. lia. }
  exists s'. cbn [handle_events]. rewrite (bind_run _ _ _ _ _ Hev), R. split_and!; [done| |done|].
  - destruct Ss, S'. constructor; congruence.
  - rewrite Hq2. change (dev (s <| dev := d' |>)) with d'. rewrite Hq'. cbn [map]. by rewrite <- app_assoc.
Qed.

(** [n] reads of [AM_INPUT_KEYBRD]. *)
Fixpoint read_keys (n : nat) : M Machine (list devreg) :=
  match n with
  | O => mret []
  | Datatypes.S n =>
      k ← ioe_read 0 AM_INPUT_KEYBRD (INPUT_KEYBRD_T false 0);
      ks ← read_keys n;
      mret (k :: ks)
  end.

Lemma read_key s : board s -> ring_ok (dev s) ->
  exists s', ioe_read 0 AM_INPUT_KEYBRD (INPUT_KEYBRD_T false 0) s =
      Ok (let k := key_of (head_code (queue (dev s))) in INPUT_KEYBRD_T (fst k) (snd k), s') /\
    board s' /\ ring_ok (dev s') /\ queue (dev s') = tail (queue (dev s)).
Proof.
  intros B Hr. destruct (keybrd_run s B Hr) as (s' & R & H). exists s'. split; [|exact H].
  unfold ioe_read, lut, lut_init. cbn -[key_of input_keybrd]. by rewrite (bind_run _ _ _ _ _ R).
Qed.

Lemma read_keys_run ks s : board s -> ring_ok (dev s) -> Forall (fun k => 0 < snd k < 2 ^ 15) ks ->
  queue (dev s) = map event_code ks ->
  exists s', read_keys (length ks + 1) s =
    Ok (map (fun k => INPUT_KEYBRD_T (fst k) (snd k)) ks ++ [INPUT_KEYBRD_T false AM_KEY_NONE], s') /\
    board s' /\ queue (dev s') = [].
Proof.
  intros B Hr Hks. revert s B Hr. induction Hks as [|k ks Hk _ IH]; intros s B Hr Hq;
    destruct (read_key s B Hr) as (s1 & R & B1 & Hr1 & Hq1); rewrite Hq in R, Hq1.
  - exists s1. cbn [length Nat.add read_keys]. rewrite (bind_run _ _ _ _ _ R). done.
  - cbn [map head_code tail] in R, Hq1. destruct (IH s1 B1 Hr1 Hq1) as (s' & R' & B' & Hq').
    exists s'. cbn [length Nat.add read_keys map app].
    rewrite (bind_run _ _ _ _ _ R), (bind_run _ _ _ _ _ R'). split; [|done].
    unfold mret, M_ret. do 3 f_equal. destruct k as [down c]. unfold event_code. cbn [fst snd] in *.
    rewrite key_of_code by lia. done.
Qed.

(** C24. A key travels from the host's event queue through the emulated keyboard to the
    program: after the polling loop took a burst of presses and releases of known
    keys, reading [AM_INPUT_KEYBRD] returns exactly these events, in order and with
    their direction, and then [AM_KEY_NONE]. *)
Theorem keys_delivered es ks s : board s -> CONFIG_HAS_KEYBOARD = true ->
  state (nemu_state s) = NEMU_RUNNING -> ring_ok (dev s) -> queue (dev s) = [] ->
  Forall2 (key_event (keymap (dev s))) es ks -> (length ks <= 1023)%nat ->
  exists s', (handle_events es ;; read_keys (length ks + 1)) s =
    Ok (map (fun k => INPUT_KEYBRD_T (fst k) (snd k)) ks ++ [INPUT_KEYBRD_T false AM_KEY_NONE], s') /\
    board s' /\ queue (dev s') = [].
Proof.
  intros B Hk Hn Hr Hq He Hl.
  destruct (handle_keys _ es ks s Hk He Hn eq_refl Hr) as (s1 & R1 & S1 & Hr1 & Hq1); [rewrite Hq; exact Hl|].
  rewrite Hq in Hq1. cbn [app] in Hq1. rewrite (bind_run _ _ _ _ _ R1).
  apply read_keys_run; [by apply (board_same s)|done| |done].
  clear -He. induction He as [|e k es ks H _ IH]; constructor; [|done]. destruct e; [done| |done]. apply H.
Qed.

(** * The serial port *)

(** The divisor latch is closed. *)
Definition uart_ready (s : Machine) : Prop :=
  Z.land (peek (mem s) BIoSpace (io_off (serial_base (dev s)) + 3)) 0x80 = 0.

Lemma get8_run p o s : 0 <= io_off p + o -> io_off p + o + 1 <= IO_SPACE_MAX ->
  get8 p o s = Ok (peek (mem s) BIoSpace (io_off p + o), s).
Proof.
  intros H1 H2. unfold get8, load. rewrite io_in_block by done. cbn [io_at blk off peek_bytes le_combine].
  by rewrite Z.mul_0_r, Z.add_0_r.
Qed.

(** [putch] sends the character to the serial output and leaves the port ready. *)
Lemma putch_run ch s : board s -> uart_ready s ->
  exists s', putch ch s = Ok (tt, s') /\ board s' /\ uart_ready s' /\
    serial_out (dev s') = serial_out (dev s) ++ [u8 ch].
Proof.
  intros B Hu. pose proof (b_serial _ B) as Hm. destruct Hm as (_ & Hp0 & Hp1).
  destruct (skip_same s) as (Ss & Em & Ed & _). set (p := serial_base (dev s)) in *.
  unfold putch, outb, bus_write, nemu_bus. replace SERIAL_PORT with (SERIAL_PORT + 0) by lia.
  rewrite (reg_write s SERIAL_PORT 8 p (Some serial_io) 0 1 (u8 ch) B (b_serial _ B)) by amaddr.
  set (s1 := io_poke (skip s) p 0 1 (u8 ch)).
  rewrite (bind_run _ _ _ tt s1) by (apply (io_store p 0 1); lia).
  cbn [invoke_callback run_callback device_callbacks]. unfold serial_io_handler.
  rewrite (bind_run (c_assert _ _) _ _ tt s1) by done.
  rewrite (bind_run (gets _) _ _ p s1) by (unfold gets, s1; cbn; by rewrite Ed).
  cbn [CH_OFFSET Z.eqb]. change (0 =? CH_OFFSET) with true. cbv iota.
  rewrite (bind_run _ _ _ _ _ (get8_run p 3 s1 ltac:(lia) ltac:(lia))).
  assert (peek (mem s1) BIoSpace (io_off p + 3) = peek (mem s) BIoSpace (io_off p + 3)) as E3.
  { unfold s1. rewrite io_poke_mem, peek_poke_other by (rewrite length_le_split; lia). by rewrite Em. }
  assert (peek (mem s1) BIoSpace (io_off p + 0) = u8 ch) as E0.
  { unfold s1. rewrite io_poke_mem. cbn [le_split poke_bytes]. unfold peek. rewrite lookup_insert_eq. cbn. apply wrap_wrap. }
  rewrite E3. unfold uart_ready in Hu. fold p in Hu. rewrite Hu. cbn [Z.eqb].
  rewrite (bind_run _ _ _ _ _ (get8_run p 0 s1 ltac:(lia) ltac:(lia))), E0.
  eexists. split; [reflexivity|]. split_and!.
  - apply (board_same s); [done|]. destruct Ss. constructor; cbn; congruence.
  - change (Z.land (peek (mem s1) BIoSpace (io_off (serial_base (dev (skip s))) + 3)) 0x80 = 0).
    rewrite Ed. fold p. by rewrite E3.
  - cbn. by rewrite Ed.
Qed.

(** * The screen *)

(** [n] words of guest memory at [src]. *)
Definition pixels_at (s : Machine) (src n : Z) (pix : Z -> Z) : Prop := forall k, 0 <= k < n ->
  exists p, ram_ptr (u32 (src + 4 * k)) = Some p /\ blk p <> BIoSpace /\ in_block p 4 = true /\
    le_combine (peek_bytes (mem s) (blk p) (off p) 4) = pix k /\ in_u 32 (pix k).

(** Word [idx] of the frame buffer. *)
Definition pixel (s : Machine) (idx : Z) : Z := io_word s (vmem (dev s)) (4 * idx).

Definition W : Z := screen_width.
Definition H : Z := screen_height.

Lemma screen_dims : 0 < W < 1024 /\ 0 < H < 1024 /\ screen_size = W * H * 4.
Proof.
  unfold W, H, screen_size, screen_width, screen_height, SCREEN_W, SCREEN_H. by destruct CONFIG_VGA_SIZE_800x600.
Qed.

(** Drawing changes only device memory. *)
Record drawing (s s' : Machine) : Prop := mkDrawing {
  d_same : same_board s s';
  d_guest : forall b o n, b <> BIoSpace -> peek_bytes (mem s') b o n = peek_bytes (mem s) b o n;
}.

Lemma draw_pixel_run s0 s x y w h src pix i j : board s -> drawing s0 s -> pixels_at s0 src (w * h) pix ->
  0 <= x -> 0 <= y -> x + w <= W -> y + h <= H -> 0 <= i < h -> 0 <= j < w ->
  exists s', draw_pixel W x y w src i j s = Ok (tt, s') /\ board s' /\ drawing s0 s' /\
    forall idx, pixel s' idx = if idx =? (y + i) * W + (x + j) then pix (i * w + j) else pixel s idx.
Proof.
  intros B Dr Hpix Hx Hy Hxw Hyh Hi Hj. destruct screen_dims as (HW & HH & HS).
  assert (0 <= i * w + j < w * h) as Hk by nia.
  assert (0 <= (y + i) * W + (x + j) < W * H) as Hidx by nia.
  destruct (Hpix _ Hk) as (q & Hq & Hqb & Hqi & Hqv & Hqu).
  pose proof (b_fb _ B) as Hm. destruct Hm as (_ & Hp0 & Hp1).
  destruct (skip_same s) as (Ss & Em & Ed & _). set (p := vmem (dev s)) in *.
  assert (w * h < 2 ^ 31) as Hwh by nia. assert (W * H < 2 ^ 20) as HWH by nia.
  unfold draw_pixel. rewrite (wrap_id 32 (i * w + j)) by (unfold in_u; lia).
  rewrite (bind_run (bus_read _ _) _ _ (pix (i * w + j)) s).
  2:{ change (bus_read (u32 (src + 4 * (i * w + j))) 4 s) with (paddr_read (u32 (src + 4 * (i * w + j))) 4 s).
      rewrite (paddr_read_ram _ _ _ _ Hq). unfold host_read, load. cbn [Z.eqb Pos.eqb].
      change (Z.of_nat 4) with 4. rewrite Hqi.
      rewrite (d_guest _ _ Dr) by done. by rewrite Hqv. }
  assert (fb_addr W x y i j = FB_ADDR + 4 * ((y + i) * W + (x + j))) as ->.
  { unfold fb_addr. rewrite (wrap_id 32 (y + i)) by (unfold in_u; lia).
    rewrite (wrap_id 32 (_ * 4)), wrap_id by (unfold in_u, FB_ADDR, MMIO_BASE; lia). lia. }
  unfold outl, bus_write, nemu_bus.
  rewrite (reg_write s FB_ADDR screen_size p None _ 4 _ B (b_fb _ B)) by amaddr.
  rewrite (wrap_id 32 (pix _)) by done.
  set (s1 := io_poke (skip s) p (4 * ((y + i) * W + (x + j))) 4 (pix (i * w + j))).
  rewrite (bind_run _ _ _ tt s1) by (apply (io_store p _ 4); lia).
  exists s1. split; [done|]. split_and!.
  - apply (board_same s); [done|]. destruct Ss. constructor; cbn; congruence.
  - destruct Dr as [S0 G0]. split; [destruct Ss, S0; constructor; cbn; congruence|].
    intros b o n Hb. unfold s1. rewrite io_poke_mem, peek_bytes_poke_other by (left; congruence). rewrite Em. by apply G0.
  - intros idx. unfold pixel. change (vmem (dev s1)) with (vmem (dev (skip s))). rewrite Ed. fold p.
    unfold s1. destruct (Z.eqb_spec idx ((y + i) * W + (x + j))) as [-> | Hne].
    + by apply io_word_poke.
    + rewrite io_word_poke_other by lia. unfold io_word. by rewrite Em.
Qed.

(** The part of the rectangle that is done after [i] rows and [j] pixels of row [i]. *)
Definition done_part (x y w i j idx : Z) : bool :=
  let r := idx / W - y in
  let c := idx mod W - x in
  (0 <=? r) && (0 <=? c) && (c <? w) && ((r <? i) || ((r =? i) && (c <? j))).

Definition frame_after (x y w i j : Z) (pix : Z -> Z) (s0 : Machine) (idx : Z) : Z :=
  if done_part x y w i j idx then pix ((idx / W - y) * w + (idx mod W - x)) else pixel s0 idx.

Lemma frame_step x y w i j pix s0 idx : 0 <= x -> 0 <= y -> x + w <= W -> 0 <= i -> 0 <= j < w ->
  frame_after x y w i (j + 1) pix s0 idx =
  if idx =? (y + i) * W + (x + j) then pix (i * w + j) else frame_after x y w i j pix s0 idx.
Proof.
  intros Hx Hy Hw Hi Hj. destruct screen_dims as (HW & _ & _).
  pose proof (Z.div_mod idx W ltac:(lia)) as Hdm. pose proof (Z.mod_pos_bound idx W ltac:(lia)) as Hmb.
  unfold frame_after, done_part. destruct (Z.eqb_spec idx ((y + i) * W + (x + j))) as [-> | Hne].
  - assert (((y + i) * W + (x + j)) / W = y + i) as -> by (symmetry; apply Z.div_unique with (x + j); lia).
    assert (((y + i) * W + (x + j)) mod W = x + j) as -> by (symmetry; apply Z.mod_unique with (y + i); lia).
    replace (y + i - y) with i by lia. replace (x + j - x) with j by lia.
    rewrite (proj2 (Z.leb_le 0 i)), (proj2 (Z.leb_le 0 j)), (proj2 (Z.ltb_lt j w)), Z.eqb_refl, (proj2 (Z.ltb_lt j (j + 1))) by lia.
    by rewrite orb_true_r.
  - assert (idx / W - y = i -> idx mod W - x <> j) as Hn by (intros; nia).
    replace ((idx / W - y =? i) && (idx mod W - x <? j + 1)) with ((idx / W - y =? i) && (idx mod W - x <? j)); [done|].
    destruct (Z.eqb_spec (idx / W - y) i) as [e|]; [|done]. specialize (Hn e). cbn [andb].
    destruct (Z.ltb_spec (idx mod W - x) j), (Z.ltb_spec (idx mod W - x) (j + 1)); try done; lia.
Qed.

Lemma frame_row x y w i pix s0 idx : 0 <= i ->
  frame_after x y w i w pix s0 idx = frame_after x y w (i + 1) 0 pix s0 idx.
Proof.
  intros Hi. unfold frame_after, done_part.
  set (r := idx / W - y). set (c := idx mod W - x).
  replace ((r <? i) || (r =? i) && (c <? w)) with ((r <? i) || (r =? i) && (c <? w)) by done.
  destruct (Z.leb_spec 0 r), (Z.leb_spec 0 c), (Z.ltb_spec c w), (Z.ltb_spec r i), (Z.eqb_spec r i),
    (Z.ltb_spec r (i + 1)), (Z.eqb_spec r (i + 1)), (Z.ltb_spec c 0); cbn [andb orb]; try done; lia.
Qed.

Lemma draw_row_run n s0 s x y w h src pix i j : board s -> drawing s0 s -> pixels_at s0 src (w * h) pix ->
  0 <= x -> 0 <= y -> x + w <= W -> y + h <= H -> 0 <= i < h -> 0 <= j -> j + Z.of_nat n = w ->
  (forall idx, pixel s idx = frame_after x y w i j pix s0 idx) ->
  exists s', draw_row W x y w src i n j s = Ok (tt, s') /\ board s' /\ drawing s0 s' /\
    forall idx, pixel s' idx = frame_after x y w i w pix s0 idx.
Proof.
  intros B Dr Hpix Hx Hy Hw Hh Hi. revert s j B Dr.
  induction n as [|n IH]; intros s j B Dr Hj Hn Hs; cbn [draw_row].
  - exists s. split; [done|]. split_and!; [done|done|]. intros idx. rewrite Hs. f_equal. lia.
  - destruct (draw_pixel_run s0 s x y w h src pix i j B Dr Hpix) as (s1 & R1 & B1 & D1 & P1); [lia..|].
    rewrite (bind_run _ _ _ _ _ R1). apply IH; [done|done|lia|lia|].
    intros idx. rewrite P1, frame_step by lia. by rewrite Hs.
Qed.

Lemma draw_rows_run n s0 s x y w h src pix i : board s -> drawing s0 s -> pixels_at s0 src (w * h) pix ->
  0 <= x -> 0 <= y -> 0 <= w -> x + w <= W -> y + h <= H -> 0 <= i -> i + Z.of_nat n = h ->
  (forall idx, pixel s idx = frame_after x y w i 0 pix s0 idx) ->
  exists s', draw_rows W x y w src n i s = Ok (tt, s') /\ board s' /\ drawing s0 s' /\
    forall idx, pixel s' idx = frame_after x y w h 0 pix s0 idx.
Proof.
  intros B Dr Hpix Hx Hy Hw0 Hw Hh. revert s i B Dr.
  induction n as [|n IH]; intros s i B Dr Hi Hn Hs; cbn [draw_rows].
  - exists s. split; [done|]. split_and!; [done|done|]. intros idx. rewrite Hs. f_equal. lia.
  - destruct (draw_row_run (Z.to_nat w) s0 s x y w h src pix i 0 B Dr Hpix) as (s1 & R1 & B1 & D1 & P1); [lia..|done|].
    rewrite (bind_run _ _ _ _ _ R1). apply IH; [done|done|lia|lia|].
    intros idx. rewrite P1. by apply frame_row.
Qed.

(** The VGA controller reports the screen. *)
Definition vga_apart (s : Machine) : Prop :=
  io_off (vgactl_port_base (dev s)) + 8 <= io_off (vmem (dev s)) \/
  io_off (vmem (dev s)) + screen_size <= io_off (vgactl_port_base (dev s)).
Definition vga_ready (s : Machine) : Prop :=
  io_word s (vgactl_port_base (dev s)) 0 = W * 2 ^ 16 + H /\ vga_apart s.

Lemma vgactl_run s : board s -> vga_ready s -> inl VGACTL_ADDR s = Ok (W * 2 ^ 16 + H, skip s).
Proof.
  intros B [Hv _]. pose proof (b_vga _ B) as Hm. destruct Hm as (_ & Hp0 & Hp1).
  destruct (skip_same s) as (Ss & Em & Ed & _).
  unfold inl, bus_read, nemu_bus. replace VGACTL_ADDR with (VGACTL_ADDR + 0) by lia.
  rewrite (reg_read s VGACTL_ADDR 8 _ None 0 4 B (b_vga _ B)) by amaddr.
  rewrite (bind_run _ _ _ tt (skip s)) by done. rewrite io_load by lia. unfold io_word. rewrite Em. by rewrite <- Hv.
Qed.

Lemma skip_drawing s : drawing s (skip s).
Proof. destruct (skip_same s) as (Ss & Em & _). split; [done|]. intros. by rewrite Em. Qed.

(** Asking for the frame to be shown. *)
Lemma sync_run s : board s -> vga_apart s ->
  exists s', outl SYNC_ADDR 1 s = Ok (tt, s') /\ board s' /\
    (forall idx, 0 <= idx < W * H -> pixel s' idx = pixel s idx) /\
    io_word s' (vgactl_port_base (dev s')) 4 = 1.
Proof.
  intros B Hd. unfold vga_apart in Hd. pose proof (b_vga _ B) as Hm. destruct Hm as (_ & Hp0 & Hp1).
  pose proof (b_fb _ B) as Hm. destruct Hm as (_ & Hf0 & Hf1).
  destruct (skip_same s) as (Ss & Em & Ed & _). destruct screen_dims as (HW & HH & HS).
  unfold outl, bus_write, nemu_bus, SYNC_ADDR.
  rewrite (reg_write s VGACTL_ADDR 8 _ None 4 4 _ B (b_vga _ B)) by amaddr.
  set (p := vgactl_port_base (dev s)) in *. set (s1 := io_poke (skip s) p 4 4 (u32 1)).
  rewrite (bind_run _ _ _ tt s1) by (apply (io_store p 4 4); lia).
  exists s1. split; [done|]. split_and!.
  - apply (board_same s); [done|]. destruct Ss. constructor; cbn; congruence.
  - intros idx Hi. unfold pixel. change (vmem (dev s1)) with (vmem (dev (skip s))). rewrite Ed.
    unfold s1. rewrite io_word_poke_other by lia. unfold io_word. by rewrite Em.
  - change (vgactl_port_base (dev s1)) with (vgactl_port_base (dev (skip s))). rewrite Ed. fold p. by apply io_word_poke.
Qed.

Definition in_rect (x y w h idx : Z) : bool :=
  (x <=? idx mod W) && (idx mod W <? x + w) && (y <=? idx / W) && (idx / W <? y + h).

Lemma in_rect_done x y w h idx : done_part x y w h 0 idx = in_rect x y w h idx.
Proof.
  unfold done_part, in_rect. set (r := idx / W). set (c := idx mod W).
  destruct (Z.leb_spec 0 (r - y)), (Z.leb_spec 0 (c - x)), (Z.ltb_spec (c - x) w), (Z.ltb_spec (r - y) h),
    (Z.eqb_spec (r - y) h), (Z.ltb_spec (c - x) 0), (Z.leb_spec x c), (Z.ltb_spec c (x + w)),
    (Z.leb_spec y r), (Z.ltb_spec r (y + h)); cbn [andb orb]; try done; lia.
Qed.

(** C23. Drawing on the emulated screen: [AM_GPU_FBDRAW] with a rectangle inside the
    screen copies the program's pixels to the rectangle, leaves every other pixel
    alone, and sets the synchronization register when asked to. *)
Theorem fbdraw_correct x y w h src pix sync s : board s -> vga_ready s -> pixels_at s src (w * h) pix ->
  0 <= x -> 0 <= y -> 0 <= w -> 0 <= h -> x + w <= W -> y + h <= H -> src <> 0 ->
  let buf := GPU_FBDRAW_T x y src w h sync in
  exists s', ioe_write 0 AM_GPU_FBDRAW buf s = Ok (buf, s') /\ board s' /\
    (forall idx, 0 <= idx < W * H -> pixel s' idx =
      if in_rect x y w h idx then pix ((idx / W - y) * w + (idx mod W - x)) else pixel s idx) /\
    (sync = true -> io_word s' (vgactl_port_base (dev s')) 4 = 1).
Proof.
  intros B Hv Hpix Hx Hy Hw Hh Hxw Hyh Hsrc buf. destruct screen_dims as (HW & HH & HS).
  destruct (skip_same s) as (Ss & Em & Ed & _).
  assert (board (skip s)) as B1 by (by apply (board_same s)).
  destruct (draw_rows_run (Z.to_nat h) s (skip s) x y w h src pix 0 B1 (skip_drawing s) Hpix)
    as (s2 & R2 & B2 & D2 & P2); [lia..| |].
  { intros idx. unfold frame_after. rewrite in_rect_done. unfold in_rect.
    destruct (Z.leb_spec y (idx / W)), (Z.ltb_spec (idx / W) (y + 0)); try lia; rewrite ?andb_false_r;
      unfold pixel, io_word; by rewrite Em, Ed. }
  assert (vga_apart s2) as Hv2.
  { destruct Hv as [_ Hv]. destruct (d_same _ _ D2). unfold vga_apart in *. congruence. }
  assert (forall idx, pixel s2 idx =
    if in_rect x y w h idx then pix ((idx / W - y) * w + (idx mod W - x)) else pixel s idx) as P3.
  { intros idx. rewrite P2. unfold frame_after. by rewrite in_rect_done. }
  assert (ioe_write 0 AM_GPU_FBDRAW buf s = (when sync (outl SYNC_ADDR 1) ;; mret buf) s2) as ->.
  { change (ioe_write 0 AM_GPU_FBDRAW buf s) with (am_gpu_fbdraw buf s). unfold am_gpu_fbdraw, buf.
    rewrite (bind_run _ _ _ _ _ (vgactl_run s B Hv)). rewrite (proj2 (Z.eqb_neq src 0)) by done.
    rewrite !(wrap_id 32) by (unfold in_u; lia).
    rewrite (proj2 (Z.ltb_lt h (2 ^ 31))), (proj2 (Z.ltb_lt w (2 ^ 31))) by lia. cbn [andb].
    assert (Z.shiftr (W * 2 ^ 16 + H) 16 = W) as ->.
    { rewrite Z.shiftr_div_pow2 by lia. symmetry. apply Z.div_unique with H; lia. }
    by rewrite (bind_run _ _ _ _ _ R2). }
  destruct sync; cbn [when].
  - destruct (sync_run s2 B2 Hv2) as (s3 & R3 & B3 & P4 & Hs). exists s3.
    rewrite (bind_run _ _ _ _ _ R3). split; [done|]. split_and!; [done| |done]. intros idx Hi. by rewrite P4.
  - exists s2. split; [done|]. by split_and!.
Qed.

End OnNemu.

Module AmWitness.

#[local] Instance cfg : Config := kconfig false true false.
(** A clock that crosses 2^32 microseconds while it is read, and one known key. *)
#[local] Instance host : Host := {|
  host_time n := 2 ^ 32 + 6 * Z.of_nat n;
  sdl_queue := fun _ => [];
  sdl_scancode k := if String.eqb k "A" then 4 else 0;
  sdcard_image := None;
  RState := unit;
  ref_difftest_memcpy := fun _ _ r => r;
  ref_difftest_setregs := fun _ r => r;
  ref_difftest_getregs := fun _ c => c;
  ref_difftest_exec := fun _ r => Ok r;
  ref_r_init := mkCPU (replicate 32 0) 0 [];
|}.

Definition s1 : Machine :=
  Eval vm_compute in
  (final init_device (machine_zero ∅ tt)) <| boot_time := 5 |> <| nemu_state -> state := NEMU_RUNNING |>.

Lemma s1_maps : maps_ok (maps s1).
Proof.
  split_and!.
  - vm_compute. lia.
  - cbn. repeat constructor; cbn; lia.
  - intros i j m1 m2 Hi Hj Hne. cbn in Hi, Hj. unfold disjoint_maps.
    do 7 (destruct i as [|i]; [do 7 (destruct j as [|j]; [cbn in Hi, Hj; simplify_eq; cbn; lia|]); done|]). done.
Qed.

Lemma s1_board : board s1.
Proof.
  constructor; [done|exact s1_maps| | | | | |].
  - split; [exists 0%nat; eexists; reflexivity|split; vm_compute; discriminate].
  - split; [exists 1%nat; eexists; reflexivity|split; vm_compute; discriminate].
  - split; [exists 4%nat; eexists; reflexivity|split; vm_compute; discriminate].
  - split; [exists 2%nat; eexists; reflexivity|split; vm_compute; discriminate].
  - split; [exists 3%nat; eexists; reflexivity|split; vm_compute; discriminate].
  - intros a Ha. unfold ram_ptr. cbn [soc_memory cfg kconfig].
    assert (in_pmem a = false) as ->; [|done]. change (DEVICE_BASE <= a < FB_ADDR + 480000) in Ha.
    unfold DEVICE_BASE, FB_ADDR, MMIO_BASE in Ha. unfold in_pmem. cbn [CONFIG_MBASE CONFIG_MSIZE cfg kconfig].
    apply Z.ltb_ge. rewrite wrap_id by (unfold in_u; lia). lia.
Qed.

(** The high word changes in the first round, so the loop goes round twice. *)
Lemma uptime_correct_witness : exists s',
  ioe_read 2 AM_TIMER_UPTIME (TIMER_UPTIME_T 0) s1 = Ok (TIMER_UPTIME_T (2 ^ 32 + 7), s') /\
  board s' /\ time_reads s' = 4%nat.
Proof.
  apply (uptime_correct 1 2 s1 s1_board); [done| |done|lia]. intros [|i] Hi; [reflexivity|lia].
Defined.

Lemma keys_delivered_witness : exists s',
  (handle_events [SDL_KEY 4 true; SDL_KEY 4 false] ;; read_keys 3) s1 =
    Ok ([INPUT_KEYBRD_T true 43; INPUT_KEYBRD_T false 43; INPUT_KEYBRD_T false 0], s') /\
  board s' /\ queue (dev s') = [].
Proof.
  apply (keys_delivered [SDL_KEY 4 true; SDL_KEY 4 false] [(true, 43); (false, 43)] s1 s1_board); try done.
  - repeat constructor; cbn; lia.
  - cbn. lia.
Defined.

(** One pixel at column 2 of row 1. *)
Lemma fbdraw_correct_witness :
  let buf := GPU_FBDRAW_T 2 1 0x80000000 1 1 true in
  exists s', ioe_write 0 AM_GPU_FBDRAW buf s1 = Ok (buf, s') /\ board s' /\
    (forall idx, 0 <= idx < W * H -> pixel s' idx = if in_rect 2 1 1 1 idx then 0 else pixel s1 idx) /\
    (true = true -> io_word s' (vgactl_port_base (dev s')) 4 = 1).
Proof.
  apply (fbdraw_correct 2 1 1 1 0x80000000 (fun _ => 0) true s1 s1_board); try done.
  - split; [reflexivity|]. left. vm_compute. discriminate.
  - intros k Hk. assert (k = 0) as -> by lia. exists (Ptr BPmem 0). by split_and!.
Defined.

End AmWitness.
