(* ===== verification/Bootloader.v ===== *)
(** The boot loaders of the platform [ysyxsoc]:
    [abstract-machine/am/src/riscv/ysyxsoc/bootloader.c].

    The first stage copies the second stage, and the second stage copies the sections
    of the program from their load addresses to their run addresses and clears the bss
    sections. The loops move words through the bus; the linker's symbols are the record
    [layout]. *)

From S2P Require Import Prelude AmBus.

(** A section with its load address, and one without. *)
Record section : Type := mkSection { sec_start : Z; sec_end : Z; sec_lma : Z }.
Record area : Type := mkArea { area_start : Z; area_end : Z }.

Record layout : Type := mkLayout {
  start_ : Z;
  ssbl_start : Z;
  ssbl_text : section;
  text : section;
  rodata : section;
  data : section;
  data_extra : section;
  bss : area;
  bss_extra : area;
}.

(** [(size_t)(&end - &start)] for [uint32_t] objects. *)
Definition nr_words (start end_ : Z) : Z := u32 (Z.quot (end_ - start) 4).

Section Loader.
Context {S : Type} `{BUS : Bus S}.
Variable ly : layout.

(** [while (size != 0) { *dst++ = *src++; size--; }], [size] as a number of rounds. *)
Fixpoint copy_loop (dst src : Z) (size : nat) : M S unit :=
  match size with
  | O => mret tt
  | Datatypes.S size =>
      w ← bus_read src 4;
      bus_write dst 4 w ;;
      copy_loop (u32 (dst + 4)) (u32 (src + 4)) size
  end.

Fixpoint zero_loop (dst : Z) (size : nat) : M S unit :=
  match size with
  | O => mret tt
  | Datatypes.S size => bus_write dst 4 0 ;; zero_loop (u32 (dst + 4)) size
  end.

Definition fsbl_copy (dst src size : Z) : M S unit := copy_loop dst src (Z.to_nat size).
Definition ssbl_copy (dst src size : Z) : M S unit := copy_loop dst src (Z.to_nat size).
Definition ssbl_zero (dst size : Z) : M S unit := zero_loop dst (Z.to_nat size).

Definition copy_section (s : section) : M S unit :=
  ssbl_copy (sec_start s) (sec_lma s) (nr_words (sec_start s) (sec_end s)).
Definition zero_area (a : area) : M S unit := ssbl_zero (area_start a) (nr_words (area_start a) (area_end a)).

(** The stages return the address they jump to. *)
Definition fs_bootloader : M S Z :=
  fsbl_copy (sec_start (ssbl_text ly)) (sec_lma (ssbl_text ly))
    (nr_words (sec_start (ssbl_text ly)) (sec_end (ssbl_text ly))) ;;
  mret (ssbl_start ly).

Definition ss_bootloader : M S Z :=
  copy_section (text ly) ;;
  copy_section (rodata ly) ;;
  copy_section (data ly) ;;
  copy_section (data_extra ly) ;;
  zero_area (bss ly) ;;
  zero_area (bss_extra ly) ;;
  mret (start_ ly).

End Loader.

(** * The loops as changes of a byte memory *)

(** The word at [src] is copied to [dst]. *)
Lemma copy_word m src dst k : bytes_ok m ->
  set_bytes m dst (le_split 4 (le_combine (get_bytes m src 4))) k =
  if (dst <=? k) && (k <? dst + 4) then m (src + (k - dst)) else m k.
Proof.
  intros Hm. unfold set_bytes.
  assert (length (get_bytes m src 4) = 4%nat) as Hl by done.
  assert (le_split 4 (le_combine (get_bytes m src 4)) = get_bytes m src 4) as ->.
  { rewrite <- Hl at 1. apply le_split_combine. apply Forall_map, Forall_forall. intros; apply Hm. }
  rewrite Hl. change (Z.of_nat 4) with 4. destruct (Z.leb_spec dst k), (Z.ltb_spec k (dst + 4)); cbn [andb]; try done.
  unfold get_bytes. assert (k - dst = 0 \/ k - dst = 1 \/ k - dst = 2 \/ k - dst = 3) as [E | [E | [E | E]]] by lia;
    rewrite E; reflexivity.
Qed.

(** What one copy leaves: [n] bytes at [dst] are those that were at [src]. *)
Definition copied (m : ram) (dst src n : Z) : ram := fun k =>
  if (dst <=? k) && (k <? dst + n) then m (src + (k - dst)) else m k.

Definition apart (a n b m : Z) : Prop := a + n <= b \/ b + m <= a.

Lemma copied_ok m dst src n : bytes_ok m -> bytes_ok (copied m dst src n).
Proof. intros H k. unfold copied. by case_match. Qed.

(** [n] bytes at [dst] are zero. *)
Definition zeroed (m : ram) (dst n : Z) : ram := fun k => if (dst <=? k) && (k <? dst + n) then 0 else m k.

Definition same (m m' : ram) : Prop := forall k, m k = m' k.

#[global] Instance same_equiv : Equivalence same.
Proof. split; [done | by intros m m' H k | by intros a b c H1 H2 k; rewrite H1]. Qed.

#[global] Instance copied_proper : Proper (same ==> eq ==> eq ==> eq ==> same) copied.
Proof. intros m m' H d ? <- s ? <- n ? <- k. unfold copied. by rewrite !H. Qed.

#[global] Instance zeroed_proper : Proper (same ==> eq ==> eq ==> same) zeroed.
Proof. intros m m' H d ? <- n ? <- k. unfold zeroed. by rewrite !H. Qed.

Lemma copied_in m dst src n k : dst <= k < dst + n -> copied m dst src n k = m (src + (k - dst)).
Proof. intros H. unfold copied. destruct (Z.leb_spec dst k), (Z.ltb_spec k (dst + n)); done || lia. Qed.

Lemma copied_out m dst src n k : k < dst \/ dst + n <= k -> copied m dst src n k = m k.
Proof. intros H. unfold copied. destruct (Z.leb_spec dst k), (Z.ltb_spec k (dst + n)); done || lia. Qed.

Lemma zeroed_in m dst n k : dst <= k < dst + n -> zeroed m dst n k = 0.
Proof. intros H. unfold zeroed. destruct (Z.leb_spec dst k), (Z.ltb_spec k (dst + n)); done || lia. Qed.

Lemma zeroed_out m dst n k : k < dst \/ dst + n <= k -> zeroed m dst n k = m k.
Proof. intros H. unfold zeroed. destruct (Z.leb_spec dst k), (Z.ltb_spec k (dst + n)); done || lia. Qed.

Lemma same_ok m m' : same m m' -> bytes_ok m -> bytes_ok m'.
Proof. intros E H k. rewrite <- E. apply H. Qed.

Lemma zeroed_ok m dst n : bytes_ok m -> bytes_ok (zeroed m dst n).
Proof. intros H k. unfold zeroed. case_match; [unfold in_u; lia | done]. Qed.

(** The copying loop, as a change of the memory. *)
Lemma copy_loop_run n dst src m : bytes_ok m -> 0 <= dst -> 0 <= src ->
  dst + 4 * Z.of_nat n < 2 ^ 32 -> src + 4 * Z.of_nat n < 2 ^ 32 -> apart dst (4 * Z.of_nat n) src (4 * Z.of_nat n) ->
  exists m', copy_loop dst src n m = Ok (tt, m') /\ same m' (copied m dst src (4 * Z.of_nat n)).
Proof.
  revert dst src m. induction n as [|n IH]; intros dst src m Hm Hd Hs Hd1 Hs1 Ha; cbn [copy_loop].
  { exists m. split; [done|]. intros k. by rewrite copied_out by lia. }
  set (m1 := set_bytes m dst (le_split 4 (le_combine (get_bytes m src 4)))).
  assert (same m1 (copied m dst src 4)) as E1 by (intros k; apply copy_word, Hm).
  destruct (IH (dst + 4) (src + 4) m1) as (m' & R & H);
    [by eapply same_ok, copied_ok | lia | lia | lia | lia | unfold apart in *; lia |].
  exists m'. split.
  - rewrite (bind_run (bus_read src 4) _ m (le_combine (get_bytes m src 4)) m) by reflexivity.
    rewrite (bind_run (bus_write dst 4 _) _ m tt m1) by reflexivity.
    rewrite !(wrap_id 32) by (unfold in_u; lia). exact R.
  - rewrite H, E1. intros k. unfold apart in Ha.
    destruct (decide (dst + 4 <= k < dst + 4 + 4 * Z.of_nat n)).
    + rewrite copied_in, copied_out, copied_in by lia. f_equal. lia.
    + rewrite copied_out by lia. destruct (decide (dst <= k < dst + 4)).
      * by rewrite !copied_in by lia.
      * by rewrite !copied_out by lia.
Qed.

Lemma zero_word m dst k : set_bytes m dst (le_split 4 0) k = zeroed m dst 4 k.
Proof.
  unfold set_bytes, zeroed. change (Z.of_nat (length (le_split 4 0))) with 4.
  destruct (Z.leb_spec dst k), (Z.ltb_spec k (dst + 4)); cbn [andb]; try done.
  assert (k - dst = 0 \/ k - dst = 1 \/ k - dst = 2 \/ k - dst = 3) as [E | [E | [E | E]]] by lia; rewrite E; reflexivity.
Qed.

(** The clearing loop, likewise. *)
Lemma zero_loop_run n dst m : 0 <= dst -> dst + 4 * Z.of_nat n < 2 ^ 32 ->
  exists m', zero_loop dst n m = Ok (tt, m') /\ same m' (zeroed m dst (4 * Z.of_nat n)).
Proof.
  revert dst m. induction n as [|n IH]; intros dst m Hd Hd1; cbn [zero_loop].
  { exists m. split; [done|]. intros k. by rewrite zeroed_out by lia. }
  set (m1 := set_bytes m dst (le_split 4 0)).
  assert (same m1 (zeroed m dst 4)) as E1 by (intros k; apply zero_word).
  destruct (IH (dst + 4) m1) as (m' & R & H); [lia | lia |].
  exists m'. split.
  - rewrite (bind_run (bus_write dst 4 _) _ m tt m1) by reflexivity.
    rewrite !(wrap_id 32) by (unfold in_u; lia). exact R.
  - rewrite H, E1. intros k.
    destruct (decide (dst + 4 <= k < dst + 4 + 4 * Z.of_nat n)); [by rewrite !zeroed_in by lia|].
    rewrite zeroed_out by lia. destruct (decide (dst <= k < dst + 4)).
    + by rewrite !zeroed_in by lia.
    + by rewrite !zeroed_out by lia.
Qed.

(** * The program after loading *)

Definition sec_size (s : section) : Z := sec_end s - sec_start s.
Definition area_size (a : area) : Z := area_end a - area_start a.

(** The whole words of [n] bytes: the word count is truncated. *)
Definition whole (n : Z) : Z := 4 * (n / 4).

Lemma whole_le n : 0 <= n -> 0 <= whole n <= n.
Proof. unfold whole. dlia. Qed.

(** A section that fits the address space, and whose image is elsewhere. Its size is any
    number of bytes: the linker script ends [.text] and [.rodata] where their last object
    does. *)
Definition section_ok (s : section) : Prop :=
  0 <= sec_start s /\ sec_start s <= sec_end s < 2 ^ 32 /\
  0 <= sec_lma s /\ sec_lma s + sec_size s < 2 ^ 32 /\ apart (sec_start s) (sec_size s) (sec_lma s) (sec_size s).

Definition area_ok (a : area) : Prop := 0 <= area_start a /\ area_start a <= area_end a < 2 ^ 32.

Lemma nr_words_size a b : 0 <= a -> a <= b < 2 ^ 32 -> 4 * Z.of_nat (Z.to_nat (nr_words a b)) = whole (b - a).
Proof.
  intros Ha Hb. unfold nr_words, whole. rewrite Z.quot_div_nonneg by lia.
  rewrite wrap_id by (unfold in_u; dlia). dlia.
Qed.

Lemma copy_section_run s m : bytes_ok m -> section_ok s ->
  exists m', copy_section s m = Ok (tt, m') /\ same m' (copied m (sec_start s) (sec_lma s) (whole (sec_size s))).
Proof.
  intros Hm (H1 & H2 & H4 & H5 & H6). unfold copy_section, ssbl_copy, sec_size in *.
  pose proof (nr_words_size _ _ H1 H2) as E. rewrite <- E. pose proof (whole_le (sec_end s - sec_start s) ltac:(lia)).
  apply copy_loop_run; try rewrite E; unfold apart in *; try done; lia.
Qed.

Lemma zero_area_run a m : area_ok a ->
  exists m', zero_area a m = Ok (tt, m') /\ same m' (zeroed m (area_start a) (whole (area_size a))).
Proof.
  intros (H1 & H2). unfold zero_area, ssbl_zero, area_size in *.
  pose proof (nr_words_size _ _ H1 H2) as E. rewrite <- E. pose proof (whole_le (area_end a - area_start a) ltac:(lia)).
  apply zero_loop_run; try rewrite E; lia.
Qed.

(** The sections and areas the second stage fills, as destinations. *)
Definition sections (ly : layout) : list section := [text ly; rodata ly; data ly; data_extra ly].
Definition areas (ly : layout) : list area := [bss ly; bss_extra ly].

Definition dest_sec (s : section) : Z * Z := (sec_start s, sec_size s).
Definition dest_area (a : area) : Z * Z := (area_start a, area_size a).
Definition dests (ly : layout) : list (Z * Z) := map dest_sec (sections ly) ++ map dest_area (areas ly).

(** The part of a destination that is filled. *)
Definition filled (d : Z * Z) : Z * Z := (d.1, whole d.2).

Definition apart_pair (x y : Z * Z) : Prop := apart x.1 x.2 y.1 y.2.

(** No two destinations meet, and no destination meets an image. *)
Definition layout_ok (ly : layout) : Prop :=
  Forall section_ok (sections ly) /\ Forall area_ok (areas ly) /\
  ForallOrdPairs apart_pair (dests ly) /\
  Forall (fun s => Forall (fun d => apart_pair d (sec_lma s, sec_size s)) (dests ly)) (sections ly).

(** A byte outside a range. *)
Definition outside (k : Z) (d : Z * Z) : Prop := k < d.1 \/ d.1 + d.2 <= k.

(** A memory in which the program is loaded as far as its whole words go, from the memory
    before. *)
Definition loaded (ly : layout) (m m' : ram) : Prop :=
  Forall (fun s => forall k, 0 <= k < whole (sec_size s) -> m' (sec_start s + k) = m (sec_lma s + k)) (sections ly) /\
  Forall (fun a => forall k, 0 <= k < whole (area_size a) -> m' (area_start a + k) = 0) (areas ly) /\
  Forall (fun d => forall k, whole d.2 <= k < d.2 -> m' (d.1 + k) = m (d.1 + k)) (dests ly) /\
  (forall k, Forall (outside k) (dests ly) -> m' k = m k).

(** The images in the order the loader applies them. *)
Definition image_of (m : ram) (s : section) : ram := copied m (sec_start s) (sec_lma s) (whole (sec_size s)).
Definition clear_of (m : ram) (a : area) : ram := zeroed m (area_start a) (whole (area_size a)).

Lemma image_of_ok m s : bytes_ok m -> bytes_ok (image_of m s).
Proof. apply copied_ok. Qed.

Lemma image_of_proper m m' s : same m m' -> same (image_of m s) (image_of m' s).
Proof. intros E. unfold image_of. by rewrite E. Qed.

Lemma clear_of_proper m m' s : same m m' -> same (clear_of m s) (clear_of m' s).
Proof. intros E. unfold clear_of. by rewrite E. Qed.

Lemma ss_bootloader_run ly m : bytes_ok m -> Forall section_ok (sections ly) -> Forall area_ok (areas ly) ->
  exists m', ss_bootloader ly m = Ok (start_ ly, m') /\
    same m' (fold_left clear_of (areas ly) (fold_left image_of (sections ly) m)).
Proof.
  intros Hm Hs Ha. unfold sections, areas in *. cbn [fold_left].
  rewrite !Forall_cons in Hs. destruct Hs as (S1 & S2 & S3 & S4 & _).
  rewrite !Forall_cons in Ha. destruct Ha as (A1 & A2 & _).
  destruct (copy_section_run _ m Hm S1) as (m1 & R1 & E1).
  assert (bytes_ok m1) as H1 by (symmetry in E1; by eapply same_ok, copied_ok).
  destruct (copy_section_run _ m1 H1 S2) as (m2 & R2 & E2).
  assert (bytes_ok m2) as H2 by (symmetry in E2; by eapply same_ok, copied_ok).
  destruct (copy_section_run _ m2 H2 S3) as (m3 & R3 & E3).
  assert (bytes_ok m3) as H3 by (symmetry in E3; by eapply same_ok, copied_ok).
  destruct (copy_section_run _ m3 H3 S4) as (m4 & R4 & E4).
  destruct (zero_area_run _ m4 A1) as (m5 & R5 & E5).
  destruct (zero_area_run _ m5 A2) as (m6 & R6 & E6).
  exists m6. split.
  - unfold ss_bootloader.
    by rewrite (bind_run _ _ _ _ _ R1), (bind_run _ _ _ _ _ R2), (bind_run _ _ _ _ _ R3), (bind_run _ _ _ _ _ R4),
      (bind_run _ _ _ _ _ R5), (bind_run _ _ _ _ _ R6).
  - rewrite E6. apply clear_of_proper. rewrite E5. apply clear_of_proper.
    rewrite E4. apply image_of_proper. rewrite E3. apply image_of_proper. rewrite E2. by apply image_of_proper.
Qed.

(** A byte outside of what is filled keeps its value. *)
Lemma images_out ss m k : Forall (outside k) (map (filled ∘ dest_sec) ss) -> fold_left image_of ss m k = m k.
Proof.
  revert m. induction ss as [|s ss IH]; intros m H; [done|]. cbn in *. apply Forall_cons in H as [H1 H2].
  rewrite IH by done. by apply copied_out.
Qed.

Lemma clears_out l m k : Forall (outside k) (map (filled ∘ dest_area) l) -> fold_left clear_of l m k = m k.
Proof.
  revert m. induction l as [|a l IH]; intros m H; [done|]. cbn in *. apply Forall_cons in H as [H1 H2].
  rewrite IH by done. by apply zeroed_out.
Qed.

Lemma outside_filled k d : 0 <= d.2 -> outside k d -> outside k (filled d).
Proof. intros H. pose proof (whole_le _ H). unfold outside, filled. cbn. lia. Qed.

Lemma apart_outside (d : Z * Z) a n k : apart_pair d (a, n) -> 0 <= k < n -> outside (a + k) d.
Proof. unfold apart_pair, apart, outside. cbn. lia. Qed.

Lemma apart_outside_l (d : Z * Z) a n k : apart_pair (a, n) d -> 0 <= k < n -> outside (a + k) d.
Proof. unfold apart_pair, apart, outside. cbn. lia. Qed.

(** From a list of pairwise disjoint ranges, the bytes of one are outside the others. *)
Lemma pair_outside l : ForallOrdPairs apart_pair l -> forall i j d e k, l !! i = Some d -> l !! j = Some e -> i <> j -> 0 <= k < d.2 -> outside (d.1 + k) e.
Proof.
  induction 1 as [|x l Hx _ IH]; intros i j d e k Hi Hj Hn Hk; [done|]. rewrite Forall_forall in Hx. destruct i as [|i], j as [|j]; cbn in Hi, Hj.
  - done.
  - injection Hi as ->. destruct d as [a n]. eapply apart_outside_l; [|exact Hk]. by eapply Hx, list_elem_of_lookup_2.
  - injection Hj as ->. destruct d as [a n]. eapply apart_outside; [|exact Hk]. by eapply Hx, list_elem_of_lookup_2.
  - by apply (IH i j d e k); auto.
Qed.

Lemma images_in ss m s k : Forall section_ok ss -> ForallOrdPairs apart_pair (map dest_sec ss) ->
  Forall (fun s => Forall (fun d => apart_pair d (sec_lma s, sec_size s)) (map dest_sec ss)) ss ->
  s ∈ ss -> 0 <= k < whole (sec_size s) -> fold_left image_of ss m (sec_start s + k) = m (sec_lma s + k).
Proof.
  revert m. induction ss as [|s0 ss IH]; intros m Ho Hd Hi Hs Hk; [by apply elem_of_nil in Hs|].
  assert (forall s, s ∈ s0 :: ss -> 0 <= sec_size s) as Hz by (rewrite Forall_forall in Ho; intros s1 (?&?&_)%Ho; unfold sec_size; lia).
  pose proof (whole_le _ (Hz s Hs)) as Hw.
  cbn in *. inversion Hd as [|? ? D1 D2]; subst. apply Forall_cons in Hi as [I1 I2]. apply Forall_cons in Ho as [O1 O2].
  apply elem_of_cons in Hs as [-> | Hs].
  - rewrite images_out.
    + unfold image_of. rewrite copied_in by lia. f_equal. lia.
    + apply Forall_map. rewrite Forall_map in D1. rewrite Forall_forall in *. intros s1 H1. apply outside_filled; [apply Hz; set_solver|].
      apply (apart_outside_l _ _ (sec_size s0)); [by apply D1|lia].
  - rewrite IH; try done.
    + rewrite Forall_forall in I2. specialize (I2 s Hs). apply Forall_cons in I2 as [I2 _].
      apply copied_out. change (outside (sec_lma s + k) (filled (dest_sec s0))). apply outside_filled; [apply Hz; set_solver|].
      apply (apart_outside _ _ (sec_size s)); [done|lia].
    + eapply Forall_impl; [exact I2|]. cbn. intros s1 H1. by apply Forall_cons in H1 as [_ H1].
Qed.

Lemma clears_in l m a k : Forall area_ok l -> ForallOrdPairs apart_pair (map dest_area l) ->
  a ∈ l -> 0 <= k < whole (area_size a) -> fold_left clear_of l m (area_start a + k) = 0.
Proof.
  revert m. induction l as [|a0 l IH]; intros m Ho Hd Ha Hk; [by apply elem_of_nil in Ha|].
  assert (forall a, a ∈ a0 :: l -> 0 <= area_size a) as Hz by (rewrite Forall_forall in Ho; intros a1 (?&?)%Ho; unfold area_size; lia).
  pose proof (whole_le _ (Hz a Ha)) as Hw. apply Forall_cons in Ho as [O1 O2].
  cbn in *. inversion Hd as [|? ? D1 D2]; subst. apply elem_of_cons in Ha as [-> | Ha]; [|by apply IH].
  rewrite clears_out; [apply zeroed_in; lia|].
  apply Forall_map. rewrite Forall_map in D1. rewrite Forall_forall in *. intros a1 H1. apply outside_filled; [apply Hz; set_solver|].
  apply (apart_outside_l _ _ (area_size a0)); [by apply D1|lia].
Qed.

Lemma pairs_app {A} (P : A -> A -> Prop) l l' : ForallOrdPairs P (l ++ l') ->
  ForallOrdPairs P l /\ ForallOrdPairs P l' /\ Forall (fun x => Forall (P x) l') l.
Proof.
  induction l as [|x l IH]; cbn; intros H; [by repeat constructor|].
  inversion H as [|? ? H1 H2]; subst. apply Forall_app in H1 as [H1 H1'].
  destruct (IH H2) as (I1 & I2 & I3). by repeat constructor.
Qed.

(** The bytes behind the last whole word of a destination are in no filled range. *)
Lemma tail_outside l i d k : ForallOrdPairs apart_pair l -> Forall (fun d => 0 <= d.2) l -> l !! i = Some d -> whole d.2 <= k < d.2 ->
  Forall (outside (d.1 + k)) (map filled l).
Proof.
  intros Hp Hz Hi Hk. rewrite Forall_forall in Hz. assert (0 <= d.2) as Hd by (by eapply Hz, list_elem_of_lookup_2). pose proof (whole_le _ Hd).
  apply Forall_map, Forall_lookup. intros j e Hj. destruct (decide (i = j)) as [<-|Hn].
  - assert (d = e) as <- by congruence. unfold outside, filled. cbn. lia.
  - apply outside_filled; [by eapply Hz, list_elem_of_lookup_2|]. apply (pair_outside l Hp i j d e k Hi Hj Hn). lia.
Qed.

(** C26. The second-stage boot loader of ysyxsoc, on a layout in which the destinations do
    not meet each other or a load image, ends at the program's entry; the whole words of every
    section hold the bytes of its image, the whole words of both bss areas are zero, and the
    rest of memory is untouched. That includes the last one to three bytes of a section whose
    size is no multiple of four, which the linker script allows for [.text] and [.rodata]:
    they are not loaded. *)
Theorem ss_bootloader_loads ly m : bytes_ok m -> layout_ok ly ->
  exists m', ss_bootloader ly m = Ok (start_ ly, m') /\ loaded ly m m'.
Proof.
  intros Hm (Hs & Ha & Hd & Hi). destruct (ss_bootloader_run ly m Hm Hs Ha) as (m' & R & E).
  assert (Forall (fun d => 0 <= d.2) (dests ly)) as Hz.
  { apply Forall_app; split; apply Forall_map; eapply Forall_impl; [exact Hs| |exact Ha|]; cbn; unfold sec_size, area_size;
      [intros s0 (?&?&_)|intros s0 (?&?)]; lia. }
  assert (forall k, Forall (outside k) (map filled (dests ly)) -> m' k = m k) as Hout.
  { intros k Hk. rewrite E. unfold dests in Hk. rewrite map_app, !map_map in Hk. apply Forall_app in Hk as [K1 K2]. by rewrite clears_out, images_out. }
  exists m'. split; [done|]. pose proof Hd as Hd'. unfold dests in Hd'. destruct (pairs_app _ _ _ Hd') as (D1 & D2 & D3).
  split; [|split; [|split]].
  - apply Forall_forall. intros s Es k Hk. rewrite E.
    assert (0 <= sec_size s) as Hn by (rewrite Forall_forall in Hs; destruct (Hs s Es) as (?&?&_); unfold sec_size; lia). pose proof (whole_le _ Hn).
    rewrite clears_out.
    + apply images_in; try done. eapply Forall_impl; [exact Hi|]. intros s1 H1. by apply Forall_app in H1 as [H1 _].
    + rewrite Forall_map, Forall_forall in D3. specialize (D3 s Es). apply Forall_map. rewrite Forall_map, Forall_forall in D3. apply Forall_forall. intros a Ea.
      apply outside_filled; [rewrite Forall_forall in Ha; destruct (Ha a Ea); cbn; unfold area_size; lia|].
      apply (apart_outside_l _ _ (sec_size s)); [by apply D3|lia].
  - apply Forall_forall. intros a Ea k Hk. rewrite E. by apply clears_in.
  - apply Forall_lookup. intros i d Hi' k Hk. apply Hout. by apply (tail_outside _ i d).
  - intros k Hk. apply Hout, Forall_map. rewrite Forall_forall in *. intros d Hd''. apply outside_filled; [by apply Hz|by apply Hk].
Qed.

(** The first stage puts the second in place and jumps to it. *)
Theorem fs_bootloader_loads ly m : bytes_ok m -> section_ok (ssbl_text ly) ->
  exists m', fs_bootloader ly m = Ok (ssbl_start ly, m') /\ same m' (image_of m (ssbl_text ly)).
Proof.
  intros Hm Hs. destruct (copy_section_run _ m Hm Hs) as (m' & R & E). exists m'. split; [|done].
  unfold fs_bootloader. by rewrite (bind_run _ _ _ _ _ R).
Qed.

Module BootWitness.

(** A flash image at 0x30000000, the program in SRAM and SDRAM; [.rodata] ends with a string
    of nine bytes. *)
Definition ly : layout := mkLayout 0xa0000000 0x0f000000
  (mkSection 0x0f000000 0x0f000100 0x30000100)
  (mkSection 0xa0000000 0xa0000010 0x30001000)
  (mkSection 0xa0000010 0xa0000019 0x30002000)
  (mkSection 0xa0000020 0xa0000028 0x30003000)
  (mkSection 0xa0000030 0xa0000030 0x30004000)
  (mkArea 0xa0000030 0xa0000038) (mkArea 0xa0000040 0xa0000040).

Definition flash : ram := fun k => Z.land k 255.

Lemma ly_ok : layout_ok ly.
Proof.
  unfold layout_ok, dests, sections, areas, section_ok, area_ok, dest_sec, dest_area, sec_size, area_size.
  cbn [map app ly text rodata data data_extra bss bss_extra].
  repeat first [apply Forall_nil_2 | apply Forall_cons_2 | apply FOP_nil | apply FOP_cons | apply conj];
    unfold apart_pair, apart; cbn [fst snd sec_start sec_end sec_lma area_start area_end]; lia.
Qed.

(** The last byte of [.rodata] keeps what the memory held. *)
Lemma ss_bootloader_loads_witness : exists m', ss_bootloader ly flash = Ok (0xa0000000, m') /\
  m' 0xa0000017 = flash 0x30002007 /\ m' 0xa0000018 = flash 0xa0000018 /\ flash 0xa0000018 <> flash 0x30002008.
Proof.
  destruct (ss_bootloader_loads ly flash) as (m' & R & L1 & _ & L3 & _); [|exact ly_ok|].
  - intros a. unfold flash, in_u. change 255 with (Z.ones 8). rewrite Z.land_ones by lia. apply Z.mod_pos_bound. lia.
  - exists m'. split; [exact R|]. rewrite Forall_forall in L1. rewrite Forall_forall in L3.
    specialize (L1 (rodata ly) ltac:(unfold sections; set_solver) 7 ltac:(vm_compute; split; [discriminate|reflexivity])).
    specialize (L3 (dest_sec (rodata ly)) ltac:(unfold dests, sections; cbn [map app]; set_solver) 8 ltac:(vm_compute; split; [discriminate|reflexivity])).
    split; [exact L1|]. split; [exact L3|]. vm_compute. discriminate.
Defined.

End BootWitness.
