(* ===== verification/AmNpc.v ===== *)
(** The platform [npc] of the abstract machine: [abstract-machine/am/src/riscv/npc]
    ([timer.c], [input.c], [ioe.c], [mpe.c], [trm.c]). *)

From S2P Require Import Prelude AmBus.

Section Platform.
Context {S : Type} `{BUS : Bus S}.

(** * [trm.c] *)

Definition putch (ch : Z) : M S unit := outb 0x10000000 ch.
(** The simulator stops at the trap. *)
Definition halt (code : Z) : M S unit := bus_trap code.

(** * [mpe.c] *)

Definition mpe_init : bool := false.
Definition cpu_count : Z := 1.
Definition cpu_current : Z := 0.
(** The stub leaves [*addr] alone. *)
Definition atomic_xchg (addr newval : Z) : M S Z := mret 0.

(** * [timer.c] *)

Definition systemFrequency : Z := 5.

Fixpoint uptime_loop (fuel : nat) : M S Z :=
  match fuel with
  | O => undef "the clock was never read twice in the same high word"
  | Datatypes.S fuel =>
      high1 ← inl (0xa0000048 + 4);
      low ← inl (0xa0000048 + 0);
      high2 ← inl (0xa0000048 + 4);
      if negb (high1 =? high2) then uptime_loop fuel
      else mret (u64 (Z.lor (u64 (Z.shiftl high1 32)) low * systemFrequency))
  end.

Definition am_timer_init : M S unit := mret tt.
Definition am_timer_uptime (fuel : nat) : handler_t S := fun buf =>
  match buf with
  | TIMER_UPTIME_T _ => us ← uptime_loop fuel; mret (TIMER_UPTIME_T us)
  | _ => bad_buf
  end.
Definition am_timer_rtc : handler_t S := fun buf =>
  match buf with TIMER_RTC_T _ _ _ _ _ _ => mret (TIMER_RTC_T 1900 0 0 0 0 0) | _ => bad_buf end.

(** * [input.c] *)

Definition am_input_keybrd : handler_t S := fun buf =>
  match buf with INPUT_KEYBRD_T _ _ => mret (INPUT_KEYBRD_T false AM_KEY_NONE) | _ => bad_buf end.

(** * [ioe.c] *)

Definition am_uart_rx : handler_t S := mret.
Definition am_timer_config : handler_t S := fun buf =>
  match buf with TIMER_CONFIG_T _ _ => mret (TIMER_CONFIG_T true true) | _ => bad_buf end.
Definition am_input_config : handler_t S := fun buf =>
  match buf with INPUT_CONFIG_T _ => mret (INPUT_CONFIG_T true) | _ => bad_buf end.
(** Declared for [AM_INPUT_CONFIG_T], which has the layout of [AM_UART_CONFIG_T]. *)
Definition am_uart_config : handler_t S := fun buf =>
  match buf with UART_CONFIG_T _ => mret (UART_CONFIG_T false) | _ => bad_buf end.

Definition fail_handler : handler_t S := fun _ => panic "access nonexist register".

Definition lut_init (fuel : nat) (reg : Z) : option (handler_t S) :=
  if reg =? AM_TIMER_CONFIG then Some am_timer_config
  else if reg =? AM_TIMER_RTC then Some am_timer_rtc
  else if reg =? AM_TIMER_UPTIME then Some (am_timer_uptime fuel)
  else if reg =? AM_INPUT_CONFIG then Some am_input_config
  else if reg =? AM_INPUT_KEYBRD then Some am_input_keybrd
  else if reg =? AM_UART_CONFIG then Some am_uart_config
  else if reg =? AM_UART_RX then Some am_uart_rx
  else None.

Definition lut (fuel : nat) (reg : Z) : handler_t S :=
  match lut_init fuel reg with Some h => h | None => fail_handler end.

Definition ioe_init : M S bool := am_timer_init ;; mret true.

Definition ioe_read (fuel : nat) (reg : Z) (buf : devreg) : M S devreg :=
  if (0 <=? reg) && (reg <? 128) then lut fuel reg buf else undef "lut index".
Definition ioe_write (fuel : nat) (reg : Z) (buf : devreg) : M S devreg := ioe_read fuel reg buf.

End Platform.

(** A clock behind the bus: its value at the [n]-th read of one of the two words. *)
Class Clock (S : Type) `{BUS : Bus S} : Type := {
  clock_at : S -> Z;
  tick : S -> S;
  clock_u : forall s, in_u 64 (clock_at s);
  clock_low : forall s, bus_read 0xa0000048 4 s = Ok (u32 (clock_at s), tick s);
  clock_high : forall s, bus_read 0xa000004c 4 s = Ok (Z.shiftr (clock_at s) 32, tick s);
}.

Section Uptime.
Context {S : Type} `{CLK : Clock S}.

(** The states at the readings. *)
Definition after (n : nat) (s : S) : S := Nat.iter n tick s.

(** The high word is the same before and after the reading of the low one. *)
Definition steady (n : nat) (s : S) : Prop :=
  Z.shiftr (clock_at (after n s)) 32 = Z.shiftr (clock_at (after (2 + n) s)) 32.

Lemma after_tick n s : after n (tick s) = after (Datatypes.S n) s.
Proof. unfold after. rewrite <- Nat.iter_succ_r. done. Qed.

Lemma npc_uptime_round fuel s : uptime_loop (Datatypes.S fuel) s =
  (if negb (Z.shiftr (clock_at s) 32 =? Z.shiftr (clock_at (after 2 s)) 32) then uptime_loop fuel
   else mret (u64 (Z.lor (u64 (Z.shiftl (Z.shiftr (clock_at s) 32) 32)) (u32 (clock_at (after 1 s))) * systemFrequency)))
  (after 3 s).
Proof.
  cbn [uptime_loop]. unfold inl. change (0xa0000048 + 4) with 0xa000004c. change (0xa0000048 + 0) with 0xa0000048.
  rewrite (bind_run _ _ _ _ _ (clock_high s)), (bind_run _ _ _ _ _ (clock_low _)), (bind_run _ _ _ _ _ (clock_high _)).
  reflexivity.
Qed.

Lemma word_pair a b : in_u 64 a -> in_u 64 b -> Z.shiftr a 32 = Z.shiftr b 32 ->
  Z.lor (u64 (Z.shiftl (Z.shiftr a 32) 32)) (u32 b) = b.
Proof.
  intros Ha Hb ->. unfold in_u in *. rewrite wrap_id.
  - rewrite lor_shiftl_add by (unfold wrap; try apply Z.mod_pos_bound; lia).
    unfold wrap. rewrite Z.shiftr_div_pow2 by lia. pose proof (Z.div_mod b (2 ^ 32)). lia.
  - unfold in_u. rewrite Z.shiftl_mul_pow2, Z.shiftr_div_pow2 by lia.
    pose proof (Z.div_mod b (2 ^ 32)). pose proof (Z.mod_pos_bound b (2 ^ 32)).
    assert (b / 2 ^ 32 < 2 ^ 32) by (apply Z.div_lt_upper_bound; lia).
    assert (0 <= b / 2 ^ 32) by (apply Z.div_pos; lia). nia.
Qed.

(** The uptime on npc: when the clock never runs backwards and the [k]-th round is the
    first in which the high word is steady, the loop returns the reading of that round,
    scaled by the frequency. *)
Lemma uptime_reads k fuel s :
  (forall s, clock_at s <= clock_at (tick s)) ->
  (forall i, (i < k)%nat -> ~ steady (3 * i) s) -> steady (3 * k) s -> (k < fuel)%nat ->
  uptime_loop fuel s = Ok (u64 (clock_at (after (3 * k + 1) s) * systemFrequency), after (3 * k + 3) s).
Proof.
  intros Hmono. revert fuel s. induction k as [|k IH]; intros [|fuel] s Hno Hst Hf; try lia; rewrite npc_uptime_round.
  - unfold steady in Hst. change (after (3 * 0) s) with s in Hst. change (after (2 + 3 * 0) s) with (after 2 s) in Hst.
    rewrite <- Hst, Z.eqb_refl. cbn [negb]. unfold mret, M_ret.
    rewrite word_pair; [done|apply clock_u..|].
    assert (clock_at s <= clock_at (after 1 s) <= clock_at (after 2 s)) as [H1 H2] by (split; apply Hmono).
    rewrite !Z.shiftr_div_pow2 in * by lia.
    pose proof (Z.div_le_mono _ _ (2 ^ 32) ltac:(lia) H1). pose proof (Z.div_le_mono _ _ (2 ^ 32) ltac:(lia) H2). lia.
  - assert (~ steady 0 s) as H0 by (apply (Hno 0%nat); lia). unfold steady in H0.
    change (after 0 s) with s in H0. change (after (2 + 0) s) with (after 2 s) in H0.
    rewrite (proj2 (Z.eqb_neq _ _) H0). cbn [negb].
    assert (forall n, after n (after 3 s) = after (3 + n) s) as E.
    { intros n. unfold after. by rewrite <- Nat.iter_add, Nat.add_comm. }
    rewrite (IH fuel (after 3 s)).
    + rewrite !E. do 3 f_equal; [do 3 f_equal|]; lia.
    + intros i Hi Hs. apply (Hno (Datatypes.S i)); [lia|]. unfold steady in *. rewrite !E in Hs.
      replace (3 * Datatypes.S i)%nat with (3 + 3 * i)%nat by lia. exact Hs.
    + unfold steady in *. rewrite !E. replace (3 * Datatypes.S k)%nat with (3 + 3 * k)%nat in Hst by lia. exact Hst.
    + lia.
Qed.

End Uptime.
