(* ===== verification/AmSoc.v ===== *)
(** The platform [ysyxsoc] of the abstract machine: [abstract-machine/am/src/riscv/ysyxsoc]
    ([timer.c], [uart.c], [gpu.c], [input.c], [ioe.c], [mpe.c], [trm.c]).

    The keyboard driver is a decoder of PS/2 scan codes whose two flags survive between
    the calls; the theorem at the end shows that it recovers the key events however the
    bytes are spread over the calls. *)

From S2P Require Import Prelude AmBus.

(** The statics of [__am_input_keybrd]. *)
Record Ps2State : Type := mkPs2 { break_code : bool; extended : bool }.

#[global] Instance Ps2State_eq_dec : EqDecision Ps2State.
Proof. solve_decision. Defined.

Definition PS2_ADDR : Z := 0x10011000.
Definition FB_ADDR : Z := 0x21000000.
Definition systemFrequency : Z := 5.

(** The tables [keymap] and [ext_keymap] by their designated entries; every other entry
    is 0. *)
Definition keymap_list : list (Z * string) := [
  (0x76, "ESCAPE"); (0x05, "F1"); (0x06, "F2"); (0x04, "F3"); (0x0c, "F4"); (0x03, "F5");
  (0x0b, "F6"); (0x83, "F7"); (0x0a, "F8"); (0x01, "F9"); (0x09, "F10"); (0x78, "F11");
  (0x07, "F12"); (0x0e, "GRAVE"); (0x16, "1"); (0x1e, "2"); (0x26, "3"); (0x25, "4"); (0x2e, "5");
  (0x36, "6"); (0x3d, "7"); (0x3e, "8"); (0x46, "9"); (0x45, "0"); (0x4e, "MINUS");
  (0x55, "EQUALS"); (0x66, "BACKSPACE"); (0x0d, "TAB"); (0x15, "Q"); (0x1d, "W"); (0x24, "E");
  (0x2d, "R"); (0x2c, "T"); (0x35, "Y"); (0x3c, "U"); (0x43, "I"); (0x44, "O"); (0x4d, "P");
  (0x54, "LEFTBRACKET"); (0x5b, "RIGHTBRACKET"); (0x5d, "BACKSLASH"); (0x58, "CAPSLOCK");
  (0x1c, "A"); (0x1b, "S"); (0x23, "D"); (0x2b, "F"); (0x34, "G"); (0x33, "H"); (0x3b, "J");
  (0x42, "K"); (0x4b, "L"); (0x4c, "SEMICOLON"); (0x52, "APOSTROPHE"); (0x5a, "RETURN");
  (0x12, "LSHIFT"); (0x1a, "Z"); (0x22, "X"); (0x21, "C"); (0x2a, "V"); (0x32, "B"); (0x31, "N");
  (0x3a, "M"); (0x41, "COMMA"); (0x49, "PERIOD"); (0x4a, "SLASH"); (0x59, "RSHIFT");
  (0x14, "LCTRL"); (0x11, "LALT"); (0x29, "SPACE") ]%string.

Definition ext_keymap_list : list (Z * string) := [
  (0x14, "RCTRL"); (0x11, "RALT"); (0x75, "UP"); (0x72, "DOWN"); (0x6b, "LEFT"); (0x74, "RIGHT");
  (0x70, "INSERT"); (0x71, "DELETE"); (0x6c, "HOME"); (0x69, "END"); (0x7d, "PAGEUP");
  (0x7a, "PAGEDOWN"); (0x2f, "APPLICATION") ]%string.

Fixpoint entry (l : list (Z * string)) (code : Z) : Z :=
  match l with
  | [] => 0
  | (c, k) :: l => if c =? code then AM_KEY k else entry l code
  end.
Definition keymap (code : Z) : Z := entry keymap_list code.
Definition ext_keymap (code : Z) : Z := entry ext_keymap_list code.

Section Platform.
Context {S : Type} `{BUS : Bus S}.

(** * [trm.c] *)

(** [putch] polls the line status until the transmitter is empty; [fuel] bounds the
    polls. *)
Fixpoint putch (fuel : nat) (ch : Z) : M S unit :=
  match fuel with
  | O => undef "the transmitter was never empty"
  | Datatypes.S fuel =>
      lsr ← inb 0x10000005;
      if Z.land lsr 0x20 =? 0 then putch fuel ch else outb 0x10000000 ch
  end.
Definition halt (code : Z) : M S unit := bus_trap code.

(** * [mpe.c] *)

Definition mpe_init : bool := false.
Definition cpu_count : Z := 1.
Definition cpu_current : Z := 0.
Definition atomic_xchg (addr newval : Z) : M S Z := mret 0.

(** * [timer.c] *)

Fixpoint uptime_loop (fuel : nat) : M S Z :=
  match fuel with
  | O => undef "the clock was never read twice in the same high word"
  | Datatypes.S fuel =>
      high1 ← inl (0x02000048 + 4);
      low ← inl (0x02000048 + 0);
      high2 ← inl (0x02000048 + 4);
      if negb (high1 =? high2) then uptime_loop fuel
      else mret (u64 (Z.lor (u64 (Z.shiftl high1 32)) low * systemFrequency))
  end.

Definition am_timer_init : M S unit := mret tt.
Definition am_timer_uptime (fuel : nat) : handler_t S := fun buf =>
  match buf with
  | TIMER_UPTIME_T _ => us ← uptime_loop fuel; mret (TIMER_UPTIME_T us)
  | _ => bad_buf
  end.
Definition am_timer_rtc : handler_t S := fun buf =>
  match buf with TIMER_RTC_T _ _ _ _ _ _ => mret (TIMER_RTC_T 1900 0 0 0 0 0) | _ => bad_buf end.

(** * [uart.c] *)

Definition am_uart_init : M S unit :=
  tmp ← inb 0x10000003;
  let tmp := u8 (Z.lor tmp 0x80) in
  outb 0x10000003 tmp ;;
  outb 0x10000000 0x01 ;;
  outb 0x10000001 0x00 ;;
  tmp ← inb 0x10000003;
  let tmp := u8 (Z.land tmp (Z.lnot 0x80)) in
  outb 0x10000003 tmp.

(** [char] is unsigned on the target. *)
Definition am_uart_rx : handler_t S := fun buf =>
  match buf with
  | UART_RX_T _ =>
      lsr ← inb 0x10000005;
      if Z.land lsr 1 =? 1 then c ← inb 0x10000000; mret (UART_RX_T c) else mret (UART_RX_T 0xff)
  | _ => bad_buf
  end.

(** * [gpu.c] *)

(** [fb[(y+i)*width + j + x] = src[i*w + j]]. *)
Definition draw_pixel (x y w src i j : Z) : M S unit :=
  p ← bus_read (u32 (src + 4 * u32 (i * w + j))) 4;
  bus_write (u32 (FB_ADDR + 4 * u32 (u32 (y + i) * 640 + j + x))) 4 p.

Fixpoint draw_row (x y w src i : Z) (n : nat) (j : Z) : M S unit :=
  match n with
  | O => mret tt
  | Datatypes.S n => draw_pixel x y w src i j ;; draw_row x y w src i n (j + 1)
  end.

Fixpoint draw_rows (x y w src : Z) (n : nat) (i : Z) : M S unit :=
  match n with
  | O => mret tt
  | Datatypes.S n => draw_row x y w src i (Z.to_nat w) 0 ;; draw_rows x y w src n (i + 1)
  end.

Definition am_gpu_fbdraw : handler_t S := fun buf =>
  match buf with
  | GPU_FBDRAW_T x y pixels w h sync =>
      (if pixels =? 0 then mret tt
       else if (u32 h <? 2 ^ 31) && (u32 w <? 2 ^ 31) then
         draw_rows (u32 x) (u32 y) (u32 w) pixels (Z.to_nat (u32 h)) 0
       else undef "the loop counter overflows") ;;
      mret buf
  | _ => bad_buf
  end.

(** * [input.c] *)

(** The loop of [__am_input_keybrd]: a byte 0 ends it without a key, a prefix sets a flag,
    any other byte is a key. The result is the key with the flags after the call. *)
Fixpoint keybrd_loop (fuel : nat) (st : Ps2State) : M S (bool * Z * Ps2State) :=
  match fuel with
  | O => undef "prefix bytes without end"
  | Datatypes.S fuel =>
      code ← inb PS2_ADDR;
      if code =? 0 then mret (false, AM_KEY_NONE, st)
      else if code =? 0xe0 then keybrd_loop fuel (mkPs2 (break_code st) true)
      else if code =? 0xf0 then keybrd_loop fuel (mkPs2 true (extended st))
      else
        let keycode := if extended st then ext_keymap code else keymap code in
        mret (negb (break_code st), keycode, mkPs2 false false)
  end.

(** The handler with its statics as argument and result. *)
Definition am_input_keybrd (fuel : nat) (st : Ps2State) (buf : devreg) : M S (devreg * Ps2State) :=
  match buf with
  | INPUT_KEYBRD_T _ _ =>
      '(down, code, st) ← keybrd_loop fuel st;
      mret (INPUT_KEYBRD_T down code, st)
  | _ => bad_buf
  end.

(** * [ioe.c] *)

Definition am_timer_config : handler_t S := fun buf =>
  match buf with TIMER_CONFIG_T _ _ => mret (TIMER_CONFIG_T true true) | _ => bad_buf end.
Definition am_input_config : handler_t S := fun buf =>
  match buf with INPUT_CONFIG_T _ => mret (INPUT_CONFIG_T true) | _ => bad_buf end.
Definition am_uart_config : handler_t S := fun buf =>
  match buf with UART_CONFIG_T _ => mret (UART_CONFIG_T true) | _ => bad_buf end.
Definition am_gpu_config : handler_t S := fun buf =>
  match buf with GPU_CONFIG_T _ _ _ _ _ => mret (GPU_CONFIG_T true false 640 480 0) | _ => bad_buf end.

Definition fail_handler : handler_t S := fun _ => panic "access nonexist register".

(** The handlers without the keyboard's. *)
Definition lut_init (fuel : nat) (reg : Z) : option (handler_t S) :=
  if reg =? AM_TIMER_CONFIG then Some am_timer_config
  else if reg =? AM_TIMER_RTC then Some am_timer_rtc
  else if reg =? AM_TIMER_UPTIME then Some (am_timer_uptime fuel)
  else if reg =? AM_INPUT_CONFIG then Some am_input_config
  else if reg =? AM_UART_CONFIG then Some am_uart_config
  else if reg =? AM_UART_RX then Some am_uart_rx
  else if reg =? AM_GPU_CONFIG then Some am_gpu_config
  else if reg =? AM_GPU_FBDRAW then Some am_gpu_fbdraw
  else None.

Definition lut (fuel : nat) (reg : Z) : handler_t S :=
  match lut_init fuel reg with Some h => h | None => fail_handler end.

Definition ioe_init : M S bool := am_timer_init ;; am_uart_init ;; mret true.

Definition ioe_read (fuel : nat) (st : Ps2State) (reg : Z) (buf : devreg) : M S (devreg * Ps2State) :=
  if (0 <=? reg) && (reg <? 128) then
    if reg =? AM_INPUT_KEYBRD then am_input_keybrd fuel st buf
    else buf ← lut fuel reg buf; mret (buf, st)
  else undef "lut index".
Definition ioe_write (fuel : nat) (st : Ps2State) (reg : Z) (buf : devreg) : M S (devreg * Ps2State) :=
  ioe_read fuel st reg buf.

End Platform.

(** * Key events through the driver *)

(** The controller: a read of its register takes the oldest received byte, or 0 when
    there is none; more bytes may be received at any time. *)
Class Ps2 (S : Type) `{BUS : Bus S} : Type := {
  received : S -> list Z;
  receive : list Z -> S -> S;
  receive_spec : forall bs s, received (receive bs s) = received s ++ bs;
  ps2_empty : forall s, received s = [] -> inb PS2_ADDR s = Ok (0, s);
  ps2_next : forall c q s, received s = c :: q -> exists s', inb PS2_ADDR s = Ok (c, s') /\ received s' = q;
}.

Definition key_event : Type := bool * Z.

(** Scan code set 2 of PS/2 keyboards: the make code of each key, in the order of
    [AM_KEYS]. This is the convention of the keyboard, not the tables of the driver. *)
Definition scan_set_2 : list (list Z) :=
  map (fun c => [c]) [
    0x76; 0x05; 0x06; 0x04; 0x0c; 0x03; 0x0b; 0x83; 0x0a; 0x01; 0x09; 0x78; 0x07;
    0x0e; 0x16; 0x1e; 0x26; 0x25; 0x2e; 0x36; 0x3d; 0x3e; 0x46; 0x45; 0x4e; 0x55; 0x66;
    0x0d; 0x15; 0x1d; 0x24; 0x2d; 0x2c; 0x35; 0x3c; 0x43; 0x44; 0x4d; 0x54; 0x5b; 0x5d;
    0x58; 0x1c; 0x1b; 0x23; 0x2b; 0x34; 0x33; 0x3b; 0x42; 0x4b; 0x4c; 0x52; 0x5a;
    0x12; 0x1a; 0x22; 0x21; 0x2a; 0x32; 0x31; 0x3a; 0x41; 0x49; 0x4a; 0x59; 0x14] ++
  [[0xe0; 0x2f]; [0x11]; [0x29]; [0xe0; 0x11]; [0xe0; 0x14]] ++
  map (fun c => [0xe0; c]) [0x75; 0x72; 0x6b; 0x74; 0x70; 0x71; 0x6c; 0x69; 0x7d; 0x7a].

(** What a keyboard sends for an event: the make code of the key when it is pressed; when it
    is released the same with the byte [0xf0] before the last one. *)
Definition encode (e : key_event) : option (list Z) :=
  let '(down, k) := e in
  match scan_set_2 !! Z.to_nat (k - 1) with
  | Some [c] => Some (if down then [c] else [0xf0; c])
  | Some [p; c] => Some (if down then [p; c] else [p; 0xf0; c])
  | _ => None
  end.

(** The decoder as a function of the bytes: the events with a known key. *)
Fixpoint decode (st : Ps2State) (bs : list Z) : list key_event * Ps2State :=
  match bs with
  | [] => ([], st)
  | c :: bs =>
      if c =? 0 then decode st bs
      else if c =? 0xe0 then decode (mkPs2 (break_code st) true) bs
      else if c =? 0xf0 then decode (mkPs2 true (extended st)) bs
      else
        let k := if extended st then ext_keymap c else keymap c in
        let '(es, st') := decode (mkPs2 false false) bs in
        (if k =? AM_KEY_NONE then es else (negb (break_code st), k) :: es, st')
  end.

Section Driver.
Context {S : Type} `{PS2 : Ps2 S}.

(** A program that polls [n] times and keeps the events. *)
Fixpoint poll (fuel n : nat) (st : Ps2State) : M S (list key_event * Ps2State) :=
  match n with
  | O => mret ([], st)
  | Datatypes.S n =>
      '(buf, st) ← ioe_read fuel st AM_INPUT_KEYBRD (INPUT_KEYBRD_T false 0);
      '(es, st) ← poll fuel n st;
      match buf with
      | INPUT_KEYBRD_T down k => mret (if k =? AM_KEY_NONE then es else (down, k) :: es, st)
      | _ => bad_buf
      end
  end.

(** Bytes arrive in chunks; after each the program polls until the receiver is empty. *)
Fixpoint poll_all (chunks : list (list Z)) (st : Ps2State) : M S (list key_event * Ps2State) :=
  match chunks with
  | [] => mret ([], st)
  | bs :: chunks =>
      modify (receive bs) ;;
      '(es, st) ← poll (Datatypes.S (length bs)) (length bs) st;
      '(es', st) ← poll_all chunks st;
      mret (es ++ es', st)
  end.

Lemma decode_app st a b : decode st (a ++ b) =
  let '(es, st1) := decode st a in let '(es', st2) := decode st1 b in (es ++ es', st2).
Proof.
  revert st. induction a as [|c a IH]; intros st; cbn [decode app]; [by destruct (decode st b)|].
  destruct (c =? 0); [apply IH|]. destruct (c =? 0xe0); [apply IH|]. destruct (c =? 0xf0); [apply IH|].
  rewrite IH. destruct (decode (mkPs2 false false) a) as [es st1]. destruct (decode st1 b) as [es' st2].
  by destruct (_ =? AM_KEY_NONE).
Qed.

(** One call takes at least one byte, if there is one, and decodes what it takes. *)
Lemma keybrd_loop_run fuel st s : (length (received s) < fuel)%nat -> exists down k st' s' used,
  keybrd_loop fuel st s = Ok (down, k, st', s') /\ received s = used ++ received s' /\
  decode st used = (if k =? AM_KEY_NONE then [] else [(down, k)], st') /\
  (received s = [] \/ used <> []).
Proof.
  revert st s. induction fuel as [|fuel IH]; intros st s Hf; [lia|]. cbn [keybrd_loop].
  destruct (received s) as [|c q] eqn:Eq.
  { rewrite (bind_run _ _ _ _ _ (ps2_empty s Eq)). exists false, 0, st, s, []. rewrite Eq. by split_and!; [..|left]. }
  destruct (ps2_next c q s Eq) as (s1 & R1 & Q1). rewrite (bind_run _ _ _ _ _ R1). cbn in Hf.
  destruct (c =? 0) eqn:E0.
  { exists false, 0, st, s1, [c]. cbn [decode]. rewrite E0, Q1. by split_and!; [..|right]. }
  destruct (c =? 0xe0) eqn:E1; [|destruct (c =? 0xf0) eqn:E2].
  - destruct (IH (mkPs2 (break_code st) true) s1) as (d & k & st' & s' & u & R & Hq & Hd & _); [rewrite Q1; lia|].
    exists d, k, st', s', (c :: u). rewrite R. cbn [decode app]. rewrite E0, E1, Hd, <- Hq, Q1. by split_and!; [..|right].
  - destruct (IH (mkPs2 true (extended st)) s1) as (d & k & st' & s' & u & R & Hq & Hd & _); [rewrite Q1; lia|].
    exists d, k, st', s', (c :: u). rewrite R. cbn [decode app]. rewrite E0, E1, E2, Hd, <- Hq, Q1. by split_and!; [..|right].
  - eexists _, _, _, s1, [c]. split; [reflexivity|]. cbn [decode app]. rewrite E0, E1, E2, Q1. by split_and!; [..|right].
Qed.

Lemma poll_run fuel n st s : (length (received s) < fuel)%nat -> (length (received s) <= n)%nat ->
  exists s', poll fuel n st s = Ok (decode st (received s), s') /\ received s' = [].
Proof.
  revert st s. induction n as [|n IH]; intros st s Hf Hn; cbn [poll].
  { exists s. destruct (received s); [done|cbn in Hn; lia]. }
  destruct (keybrd_loop_run fuel st s Hf) as (d & k & st' & s' & u & R & Hq & Hd & Hu).
  assert (ioe_read fuel st AM_INPUT_KEYBRD (INPUT_KEYBRD_T false 0) s = Ok (INPUT_KEYBRD_T d k, st', s')) as R'.
  { change (ioe_read fuel st AM_INPUT_KEYBRD (INPUT_KEYBRD_T false 0) s)
      with (am_input_keybrd fuel st (INPUT_KEYBRD_T false 0) s).
    unfold am_input_keybrd. by rewrite (bind_run _ _ _ _ _ R). }
  rewrite (bind_run _ _ _ _ _ R').
  assert (length (received s') <= length (received s))%nat by (rewrite Hq, length_app; lia).
  destruct (IH st' s') as (s2 & R2 & Q2).
  { lia. }
  { destruct Hu as [Hu | Hu]; [rewrite Hu in *; cbn in *; lia|].
    destruct u; [done|]. apply (f_equal length) in Hq. cbn in Hq. rewrite length_app in Hq. lia. }
  exists s2. rewrite (bind_run _ _ _ _ _ R2). split; [|done].
  rewrite Hq, decode_app, Hd. destruct (decode st' (received s')) as [es st2]. by destruct (k =? AM_KEY_NONE).
Qed.

Lemma poll_all_run chunks st s : received s = [] ->
  exists s', poll_all chunks st s = Ok (decode st (concat chunks), s') /\ received s' = [].
Proof.
  revert st s. induction chunks as [|bs chunks IH]; intros st s Hs; cbn [poll_all concat]; [by exists s|].
  rewrite (bind_run (modify _) _ s tt (receive bs s)) by done.
  assert (received (receive bs s) = bs) as Hr by (rewrite receive_spec, Hs; done).
  destruct (poll_run (Datatypes.S (length bs)) (length bs) st (receive bs s)) as (s1 & R1 & Q1); [rewrite Hr; lia..|].
  rewrite (bind_run _ _ _ _ _ R1), Hr, decode_app. destruct (decode st bs) as [es st1].
  destruct (IH st1 s1 Q1) as (s2 & R2 & Q2). exists s2. rewrite (bind_run _ _ _ _ _ R2).
  by destruct (decode st1 (concat chunks)).
Qed.

End Driver.

(** The bytes of an event decode to the event, whatever follows. *)
Definition round_trip (e : key_event) : bool :=
  match encode e with
  | Some bs => bool_decide (decode (mkPs2 false false) bs = ([e], mkPs2 false false))
  | None => false
  end.

(** Every key of the abstract machine has a code, and its two events survive. *)
Lemma all_keys_round_trip k down : 1 <= k <= Z.of_nat (length AM_KEYS) -> round_trip (down, k) = true.
Proof.
  intros Hk. assert (forallb (fun k => round_trip (true, k) && round_trip (false, k)) (seqZ 1 (Z.of_nat (length AM_KEYS))) = true)
    as H by (vm_compute; reflexivity).
  rewrite forallb_forall in H. specialize (H k). rewrite <- list_elem_of_In, elem_of_seqZ in H.
  specialize (H ltac:(lia)). apply andb_true_iff in H as [H1 H2]. by destruct down.
Qed.

Lemma decode_encode es bss : Forall2 (fun e bs => encode e = Some bs) es bss ->
  Forall (fun e => 1 <= e.2 <= Z.of_nat (length AM_KEYS)) es ->
  decode (mkPs2 false false) (concat bss) = (es, mkPs2 false false).
Proof.
  induction 1 as [|[down k] bs es bss He _ IH]; intros Hk; [done|]. apply Forall_cons in Hk as [Hk Hks].
  cbn [concat]. rewrite decode_app. pose proof (all_keys_round_trip k down Hk) as H. unfold round_trip in H.
  rewrite He in H. apply bool_decide_eq_true_1 in H. rewrite H, (IH Hks). done.
Qed.

(** C27. The PS/2 driver of ysyxsoc: for any sequence of presses and releases of the keys
    of the abstract machine, and any way to cut the bytes that a keyboard with scan code set
    2 sends for them into arrivals (also in the middle of a prefix), the polls return exactly those events
    in order, and the decoder is back in its initial state. *)
Theorem ps2_delivers {S} `{PS2 : Ps2 S} es bss chunks (s : S) :
  Forall (fun e => 1 <= e.2 <= Z.of_nat (length AM_KEYS)) es ->
  Forall2 (fun e bs => encode e = Some bs) es bss -> concat chunks = concat bss -> received s = [] ->
  exists s', poll_all chunks (mkPs2 false false) s = Ok (es, mkPs2 false false, s') /\ received s' = [].
Proof.
  intros Hk He Hc Hs. destruct (poll_all_run chunks (mkPs2 false false) s Hs) as (s' & R & Q).
  exists s'. by rewrite R, Hc, (decode_encode es bss He Hk).
Qed.

Module SocWitness.

(** A controller that is only its queue. *)
#[local] Instance queue_bus : Bus (list Z) := {|
  bus_read a n := fun q => match q with [] => Ok (0, []) | c :: q => Ok (c, q) end;
  bus_write _ _ _ := mret tt;
  bus_trap _ := mret tt;
|}.

#[local] Program Instance queue_ps2 : Ps2 (list Z) := {| received q := q; receive bs q := q ++ bs |}.
Next Obligation. done. Qed.
Next Obligation. intros s ->. done. Qed.
Next Obligation. intros c q s ->. by exists q. Qed.

(** Right control pressed and released, with a cut inside the second prefix. *)
Lemma ps2_delivers_witness : let k := AM_KEY "RCTRL" in
  exists s', poll_all [[0xe0; 0x14; 0xe0]; [0xf0]; [0x14]] (mkPs2 false false) [] =
    Ok ([(true, k); (false, k)], mkPs2 false false, s') /\ received s' = [].
Proof.
  apply (ps2_delivers [(true, AM_KEY "RCTRL"); (false, AM_KEY "RCTRL")] [[0xe0; 0x14]; [0xe0; 0xf0; 0x14]]); try done.
  - repeat constructor; cbn; lia.
  - repeat constructor.
Defined.

End SocWitness.
