(* ===== verification/AmCte.v ===== *)
(** The context and trap extension of the riscv platforms:
    [abstract-machine/am/src/riscv/{nemu,npc,ysyxsoc}/cte.c] and [trap.S], with [Context]
    of [am/include/arch/riscv.h] and [Event] of [am/include/am.h].

    [hart] is what the assembly of [trap.S] touches: the registers, four control registers
    and memory. The three copies of [cte.c] are the same code; [trap.S] differs in the size
    of the frame and in the bit that nemu sets in [mstatus]. *)

From S2P Require Import Prelude AmBus.

Record hart : Type := mkHart {
  gpr : Z -> Z;
  mcause : Z;
  mstatus : Z;
  mepc : Z;
  mtvec : Z;
  pc : Z;
  hmem : ram;
}.
#[global] Instance eta_hart : Eta hart :=
  fun s => mkHart (gpr s) (mcause s) (mstatus s) (mepc s) (mtvec s) (pc s) (hmem s).

(** The field [event] of an event; this code leaves the other fields zero. *)
Inductive Event : Type :=
| EVENT_NULL | EVENT_YIELD | EVENT_SYSCALL | EVENT_PAGEFAULT | EVENT_ERROR | EVENT_IRQ_TIMER | EVENT_IRQ_IODEV.

(** The constants in which the copies of [trap.S] differ: the number of registers (by
    [__riscv_e]), the words of a frame after them, and [MPRV]. *)
Class TrapS : Type := {
  NR_REGS : Z;
  extra_words : Z;
  set_mprv : bool;
  nr_regs_ok : NR_REGS = 16 \/ NR_REGS = 32;
  extra_ok : 3 <= extra_words <= 4;
}.

#[program] Definition nemu_trap (rve : bool) : TrapS :=
  {| NR_REGS := if rve then 16 else 32; extra_words := 3; set_mprv := true |}.
Next Obligation. intros []; [by left | by right]. Qed.
Next Obligation. lia. Qed.

#[program] Definition npc_trap (rve : bool) : TrapS :=
  {| NR_REGS := if rve then 16 else 32; extra_words := 4; set_mprv := false |}.
Next Obligation. intros []; [by left | by right]. Qed.
Next Obligation. lia. Qed.

(** * Instructions *)

Definition word (m : ram) (a : Z) : Z := le_combine (get_bytes m a 4).
Definition set_word (m : ram) (a v : Z) : ram := set_bytes m a (le_split 4 v).

Definition x (n : Z) : M hart Z := gets (fun s => gpr s n).
Definition set_reg (r : Z -> Z) (n v : Z) : Z -> Z := fun k => if k =? n then v else r k.
Definition set_x (n v : Z) : M hart unit := modify (fun s => s <| gpr := set_reg (gpr s) n v |>).
Definition lw (a : Z) : M hart Z := gets (fun s => word (hmem s) (u32 a)).
Definition sw (a v : Z) : M hart unit := modify (fun s => s <| hmem := set_word (hmem s) (u32 a) v |>).

Section Steps.
Context {A : Type} (r : Z -> Z) (mc ms me mt p : Z) (m : ram).

Lemma x_bind n (f : Z -> M hart A) : (x n ≫= f) (mkHart r mc ms me mt p m) = f (r n) (mkHart r mc ms me mt p m).
Proof. reflexivity. Qed.
Lemma set_x_bind n v (f : unit -> M hart A) :
  (set_x n v ≫= f) (mkHart r mc ms me mt p m) = f tt (mkHart (set_reg r n v) mc ms me mt p m).
Proof. reflexivity. Qed.
Lemma lw_bind a (f : Z -> M hart A) :
  (lw a ≫= f) (mkHart r mc ms me mt p m) = f (word m (u32 a)) (mkHart r mc ms me mt p m).
Proof. reflexivity. Qed.
Lemma sw_bind a v (f : unit -> M hart A) :
  (sw a v ≫= f) (mkHart r mc ms me mt p m) = f tt (mkHart r mc ms me mt p (set_word m (u32 a) v)).
Proof. reflexivity. Qed.
Lemma gets_bind {B} (g : hart -> B) (f : B -> M hart A) :
  (gets g ≫= f) (mkHart r mc ms me mt p m) = f (g (mkHart r mc ms me mt p m)) (mkHart r mc ms me mt p m).
Proof. reflexivity. Qed.
Lemma modify_bind g (f : unit -> M hart A) :
  (modify g ≫= f) (mkHart r mc ms me mt p m) = f tt (g (mkHart r mc ms me mt p m)).
Proof. reflexivity. Qed.

End Steps.

Lemma bind_cong {S A B} (m : M S A) (f g : A -> M S B) s : (forall a s, f a s = g a s) -> (m ≫= f) s = (m ≫= g) s.
Proof. unfold mbind, M_bind. intros H. destruct (m s) as [[]|]; [apply H | reflexivity]. Qed.

(** Straight-line code on a state given by its fields. *)
Ltac hart_steps :=
  repeat (first [ rewrite bind_assoc | rewrite x_bind | rewrite set_x_bind | rewrite lw_bind | rewrite sw_bind
                | rewrite gets_bind | rewrite modify_bind ];
          unfold update; cbn [gpr hmem mcause mstatus mepc mtvec pc]).

Section Cte.
Context `{TRAP : TrapS}.

(** * [trap.S] *)

Definition REGS_LO16 : list Z := [1; 3; 4; 5; 6; 7; 8; 9; 10; 11; 12; 13; 14; 15].
Definition REGS_HI16 : list Z := if NR_REGS =? 32 then seqZ 16 16 else [].
Definition REGS : list Z := REGS_LO16 ++ REGS_HI16.

Definition CONTEXT_SIZE : Z := (NR_REGS + extra_words) * 4.
Definition OFFSET_CAUSE : Z := (NR_REGS + 0) * 4.
Definition OFFSET_STATUS : Z := (NR_REGS + 1) * 4.
Definition OFFSET_EPC : Z := (NR_REGS + 2) * 4.

Definition PUSH (n : Z) : M hart unit := sp ← x 2; v ← x n; sw (sp + n * 4) v.
Definition POP (n : Z) : M hart unit := sp ← x 2; v ← lw (sp + n * 4); set_x n v.

Fixpoint MAP (l : list Z) (f : Z -> M hart unit) : M hart unit :=
  match l with [] => mret tt | n :: l => f n ;; MAP l f end.

(** From the entry to [call __am_irq_handle]. *)
Definition asm_save : M hart unit :=
  sp ← x 2; set_x 2 (u32 (sp - CONTEXT_SIZE)) ;;
  MAP REGS PUSH ;;
  v ← gets mcause; set_x 5 v ;;
  v ← gets mstatus; set_x 6 v ;;
  v ← gets mepc; set_x 7 v ;;
  sp ← x 2; v ← x 5; sw (sp + OFFSET_CAUSE) v ;;
  v ← x 6; sw (sp + OFFSET_STATUS) v ;;
  v ← x 7; sw (sp + OFFSET_EPC) v ;;
  when set_mprv (
    set_x 10 (2 ^ 17) ;;
    t1 ← x 6; a0 ← x 10; set_x 6 (Z.lor t1 a0) ;;
    t1 ← x 6; modify (fun s => s <| mstatus := t1 |>)) ;;
  sp ← x 2; set_x 10 sp.

(** From the return of the call to [mret]. *)
Definition asm_restore : M hart unit :=
  a0 ← x 10; set_x 2 a0 ;;
  sp ← x 2; v ← lw (sp + OFFSET_STATUS); set_x 6 v ;;
  v ← lw (sp + OFFSET_EPC); set_x 7 v ;;
  v ← x 6; modify (fun s => s <| mstatus := v |>) ;;
  v ← x 7; modify (fun s => s <| mepc := v |>) ;;
  MAP REGS POP ;;
  sp ← x 2; set_x 2 (u32 (sp + CONTEXT_SIZE)) ;;
  modify (fun s => s <| pc := mepc s |>).

(** * [cte.c] *)

(** A user handler may change anything and returns the context to resume. *)
Definition handler : Type := Event -> Z -> M hart Z.

Definition irq_handle (user_handler : option handler) (c : Z) : M hart Z :=
  match user_handler with
  | Some h =>
      cause ← lw (c + OFFSET_CAUSE);
      ev ← (if cause =? 11 then
              epc ← lw (c + OFFSET_EPC); sw (c + OFFSET_EPC) (u32 (epc + 4)) ;; mret EVENT_YIELD
            else mret EVENT_ERROR);
      c ← h ev c;
      c_assert (negb (c =? 0)) "c != NULL" ;;
      mret c
  | None => mret c
  end.

Definition asm_trap (user_handler : option handler) : M hart unit :=
  asm_save ;; c ← x 10; c ← irq_handle user_handler c; set_x 10 c ;; asm_restore.

(** The static [user_handler] after the call is the result. *)
Definition cte_init (entry : Z) (h : option handler) : M hart (option handler) :=
  modify (fun s => s <| mtvec := entry |>) ;; mret h.

(** [gpr], [mcause], [mstatus], [mepc], [pdir]. *)
Definition sizeof_Context : Z := (NR_REGS + 4) * 4.

Definition kcontext (kstack_end entry arg : Z) : M hart Z :=
  let cp := u32 (kstack_end - sizeof_Context) in
  sw (cp + OFFSET_EPC) entry ;;
  sw (cp + OFFSET_STATUS) 0x1800 ;;
  sw (cp + 10 * 4) arg ;;
  sw (cp + 2 * 4) cp ;;
  mret cp.

(** [li a7, -1; ecall], [a5] with sixteen registers; [pc] is that of the [ecall]. *)
Definition yield : M hart unit :=
  set_x (if NR_REGS =? 16 then 15 else 17) (u32 (-1)) ;;
  modify (fun s => s <| mepc := pc s |> <| mcause := 11 |> <| pc := mtvec s |>).

Definition ienabled : bool := false.
Definition iset (enable : bool) : M hart unit := mret tt.

(** * Frames *)

Lemma regs_range n : n ∈ REGS -> 1 <= n < NR_REGS /\ n <> 2.
Proof.
  unfold REGS, REGS_HI16, REGS_LO16. intros H%elem_of_app. destruct nr_regs_ok as [E | E]; rewrite E in *; cbn [Z.eqb Pos.eqb] in H.
  - destruct H as [H | H]; [|by apply elem_of_nil in H]. rewrite !elem_of_cons, elem_of_nil in H. lia.
  - rewrite !elem_of_cons, elem_of_nil, elem_of_seqZ in H. lia.
Qed.

Lemma regs_all n : 1 <= n < NR_REGS -> n = 2 \/ n ∈ REGS.
Proof.
  intros Hn. unfold REGS, REGS_HI16, REGS_LO16. rewrite elem_of_app, !elem_of_cons.
  destruct nr_regs_ok as [E | E]; rewrite E in *; cbn [Z.eqb Pos.eqb]; [lia|]. rewrite elem_of_seqZ. lia.
Qed.

(** A frame at [c] that lies in the address space. *)
Definition fits (c : Z) : Prop := 0 <= c /\ c + CONTEXT_SIZE <= 2 ^ 32.

(** What the frame at [c] holds. *)
Record frame_at (m : ram) (c : Z) (r : Z -> Z) (status epc : Z) : Prop := mkFrame {
  f_regs : forall n, n ∈ REGS -> word m (c + n * 4) = r n;
  f_status : word m (c + OFFSET_STATUS) = status;
  f_epc : word m (c + OFFSET_EPC) = epc;
}.

Lemma get_set_other m a v k : k < a \/ a + 4 <= k -> set_word m a v k = m k.
Proof.
  intros H. unfold set_word, set_bytes. change (Z.of_nat (length (le_split 4 v))) with 4.
  destruct (Z.leb_spec a k), (Z.ltb_spec k (a + 4)); done || lia.
Qed.

Lemma word_ext m m' a : (forall k, a <= k < a + 4 -> m k = m' k) -> word m a = word m' a.
Proof.
  intros H. unfold word, get_bytes. f_equal. apply map_ext_in. intros i Hi.
  apply list_elem_of_In, elem_of_seqZ in Hi. apply H. lia.
Qed.

Lemma word_set m a v : in_u 32 v -> word (set_word m a v) a = v.
Proof.
  intros Hv. unfold word. assert (get_bytes (set_word m a v) a 4 = le_split 4 v) as ->.
  { unfold get_bytes, set_word, set_bytes. change (Z.of_nat (length (le_split 4 v))) with 4.
    change (seqZ 0 (Z.of_nat 4)) with [0; 1; 2; 3]. cbn [map].
    rewrite !(proj2 (Z.leb_le a _)), !(proj2 (Z.ltb_lt _ (a + 4))) by lia. cbn [andb].
    replace (a + 0 - a) with 0 by lia. replace (a + 1 - a) with 1 by lia. replace (a + 2 - a) with 2 by lia.
    by replace (a + 3 - a) with 3 by lia. }
  rewrite le_combine_split. by apply wrap_id.
Qed.

Lemma word_set_other m a v b : b + 4 <= a \/ a + 4 <= b -> word (set_word m a v) b = word m b.
Proof. intros H. apply word_ext. intros k Hk. apply get_set_other. lia. Qed.

(** The registers pushed at [sp]. *)
Definition pushed (l : list Z) (sp : Z) (r : Z -> Z) (m : ram) : ram :=
  fold_left (fun m n => set_word m (u32 (sp + n * 4)) (r n)) l m.

Lemma MAP_push l s : MAP l PUSH s = Ok (tt, s <| hmem := pushed l (gpr s 2) (gpr s) (hmem s) |>).
Proof.
  revert s. induction l as [|n l IH]; intros s; [by destruct s|]. cbn [MAP].
  rewrite (bind_run (PUSH n) _ s tt (s <| hmem := set_word (hmem s) (u32 (gpr s 2 + n * 4)) (gpr s n) |>)) by reflexivity.
  by rewrite IH.
Qed.

Lemma pushed_out l sp r m k : fits sp -> (forall n, n ∈ l -> n ∈ REGS) ->
  k < sp \/ sp + NR_REGS * 4 <= k -> pushed l sp r m k = m k.
Proof.
  intros [Hc Hc1] Hl Hk. revert m. unfold CONTEXT_SIZE in *. pose proof extra_ok.
  induction l as [|n l IH]; intros m; [reflexivity|]. cbn [pushed fold_left].
  destruct (regs_range n) as [Hn _]; [apply Hl, list_elem_of_here|].
  etransitivity; [apply IH; intros n' Hn'; by apply Hl, list_elem_of_further|].
  rewrite wrap_id by (unfold in_u; lia). apply get_set_other. lia.
Qed.

Lemma pushed_in l sp r m n : fits sp -> (forall n, n ∈ l -> n ∈ REGS) -> (forall n, in_u 32 (r n)) -> n ∈ l ->
  word (pushed l sp r m) (sp + n * 4) = r n.
Proof.
  intros [Hc Hc1] Hl Hr Hn. pose proof extra_ok. unfold CONTEXT_SIZE in *. revert m Hn. induction l as [|k l IH]; intros m Hn; [by apply elem_of_nil in Hn|].
  cbn [pushed fold_left]. assert (forall n, n ∈ l -> n ∈ REGS) as Hl' by (intros; by apply Hl, list_elem_of_further).
  destruct (decide (n ∈ l)) as [Hi | Hi]; [by apply IH|]. apply elem_of_cons in Hn as [-> | Hn]; [|done].
  destruct (regs_range k) as [Hk _]; [apply Hl, list_elem_of_here|]. rewrite (wrap_id 32 (sp + k * 4)) by (unfold in_u; lia).
  clear IH. assert (forall m, word (pushed l sp r m) (sp + k * 4) = word m (sp + k * 4)) as E.
  { clear m Hl. induction l as [|j l IH]; intros m; [done|]. cbn [pushed fold_left].
    apply not_elem_of_cons in Hi as [Hne Hi].
    destruct (regs_range j) as [Hj _]; [apply Hl', list_elem_of_here|].
    etransitivity; [apply IH; [intros; by apply Hl', list_elem_of_further | done]|].
    rewrite (wrap_id 32 (sp + j * 4)) by (unfold in_u; lia). apply word_set_other. lia. }
  etransitivity; [apply E|]. by apply word_set.
Qed.

(** The saved state: the frame at [c] and the arguments of the call. *)
Definition saved_mem (s : hart) (c : Z) : ram :=
  set_word (set_word (set_word (pushed REGS c (set_reg (gpr s) 2 c) (hmem s))
    (u32 (c + OFFSET_CAUSE)) (mcause s)) (u32 (c + OFFSET_STATUS)) (mstatus s)) (u32 (c + OFFSET_EPC)) (mepc s).

Lemma asm_save_run s c : c = u32 (gpr s 2 - CONTEXT_SIZE) -> exists s1, asm_save s = Ok (tt, s1) /\
  gpr s1 10 = c /\ hmem s1 = saved_mem s c.
Proof.
  intros ->. destruct s as [r mc ms me mt p m]. cbn [gpr]. unfold asm_save.
  rewrite x_bind, set_x_bind. rewrite (bind_run _ _ _ _ _ (MAP_push REGS _)).
  unfold update; cbn [gpr hmem mcause mstatus mepc mtvec pc]. unfold saved_mem; cbn [gpr hmem mcause mstatus mepc].
  destruct set_mprv; cbn [when]; hart_steps; eexists; (split; [reflexivity|]); by split.
Qed.

Lemma saved_frame s c : fits c -> (forall n, in_u 32 (gpr s n)) ->
  in_u 32 (mcause s) -> in_u 32 (mstatus s) -> in_u 32 (mepc s) ->
  frame_at (saved_mem s c) c (gpr s) (mstatus s) (mepc s) /\ word (saved_mem s c) (c + OFFSET_CAUSE) = mcause s /\
  forall k, k < c \/ c + CONTEXT_SIZE <= k -> saved_mem s c k = hmem s k.
Proof.
  intros Hf Hr H1 H2 H3. pose proof Hf as [Hc Hc1]. pose proof extra_ok. pose proof nr_regs_ok.
  assert (in_u 32 c) as Hcu by (unfold in_u, CONTEXT_SIZE in *; lia).
  unfold saved_mem. unfold CONTEXT_SIZE, OFFSET_CAUSE, OFFSET_STATUS, OFFSET_EPC in *.
  rewrite !(wrap_id 32 (c + _)) by (unfold in_u; lia). split_and!; [constructor| |].
  - intros n Hn. destruct (regs_range n Hn) as [Hn1 Hn2]. rewrite !word_set_other by (unfold OFFSET_STATUS, OFFSET_EPC; lia).
    rewrite pushed_in; try done.
    + unfold set_reg. by rewrite (proj2 (Z.eqb_neq n 2)).
    + intros k. unfold set_reg. by destruct (k =? 2).
  - unfold OFFSET_STATUS. rewrite word_set_other by lia. by apply word_set.
  - unfold OFFSET_EPC. by apply word_set.
  - rewrite !word_set_other by lia. by apply word_set.
  - intros k Hk. rewrite !get_set_other by lia. apply pushed_out; [done|done|lia].
Qed.

(** The registers loaded from the frame at [sp]. *)
Definition popped (l : list Z) (sp : Z) (m : ram) (r : Z -> Z) : Z -> Z :=
  fold_left (fun r n => set_reg r n (word m (u32 (sp + n * 4)))) l r.

Lemma popped_cons k l sp m r : popped (k :: l) sp m r = popped l sp m (set_reg r k (word m (u32 (sp + k * 4)))).
Proof. reflexivity. Qed.

Lemma MAP_pop l s : (forall n, n ∈ l -> n <> 2) -> MAP l POP s = Ok (tt, s <| gpr := popped l (gpr s 2) (hmem s) (gpr s) |>).
Proof.
  revert s. induction l as [|n l IH]; intros s Hl; [by destruct s|]. cbn [MAP].
  set (s1 := s <| gpr := set_reg (gpr s) n (word (hmem s) (u32 (gpr s 2 + n * 4))) |>).
  rewrite (bind_run (POP n) _ s tt s1) by reflexivity.
  rewrite IH by (intros; by apply Hl, list_elem_of_further).
  assert (gpr s1 2 = gpr s 2) as E.
  { change (gpr s1 2) with (if 2 =? n then word (hmem s) (u32 (gpr s 2 + n * 4)) else gpr s 2).
    destruct (Z.eqb_spec 2 n) as [<- | _]; [|done]. by destruct (Hl 2 (list_elem_of_here _ _)). }
  by rewrite E.
Qed.

Lemma popped_out l sp m r n : n ∉ l -> popped l sp m r n = r n.
Proof.
  revert r. induction l as [|k l IH]; intros r Hn; [done|]. apply not_elem_of_cons in Hn as [Hk Hn].
  rewrite popped_cons, IH by done. unfold set_reg. by rewrite (proj2 (Z.eqb_neq n k)).
Qed.

Lemma popped_in l sp m r n : n ∈ l -> popped l sp m r n = word m (u32 (sp + n * 4)).
Proof.
  revert r. induction l as [|k l IH]; intros r Hn; [by apply elem_of_nil in Hn|].
  rewrite popped_cons. destruct (decide (n ∈ l)) as [Hi | Hi]; [by apply IH|]. apply elem_of_cons in Hn as [-> | Hn]; [|done].
  rewrite popped_out by done. unfold set_reg. by rewrite Z.eqb_refl.
Qed.

(** Returning to the context at [a0]. *)
Lemma asm_restore_run s c r status epc : gpr s 10 = c -> fits c -> frame_at (hmem s) c r status epc ->
  exists s', asm_restore s = Ok (tt, s') /\ (forall n, n ∈ REGS -> gpr s' n = r n) /\
    gpr s' 2 = u32 (c + CONTEXT_SIZE) /\ pc s' = epc /\ mstatus s' = status /\ hmem s' = hmem s.
Proof.
  destruct s as [g mc ms me mt p m]. cbn [gpr hmem]. intros Ec [Hc Hc1] [F1 F2 F3]. pose proof extra_ok. pose proof nr_regs_ok.
  assert (2 ∉ REGS) as H2 by (intros [_ ?]%regs_range; done).
  unfold CONTEXT_SIZE, OFFSET_STATUS, OFFSET_EPC in *. unfold asm_restore. hart_steps.
  rewrite (bind_run _ _ _ _ _ (MAP_pop REGS _ (fun n Hn => proj2 (regs_range n Hn)))).
  unfold update; cbn [gpr hmem mcause mstatus mepc mtvec pc]. hart_steps.
  eexists. split; [reflexivity|]. cbn [gpr hmem mcause mstatus mepc mtvec pc].
  rewrite Ec. unfold OFFSET_STATUS, OFFSET_EPC, CONTEXT_SIZE.
  assert (forall v w, set_reg (set_reg (set_reg g 2 c) 6 v) 7 w 2 = c) as E2 by reflexivity.
  assert (set_reg g 2 c 2 = c) as E1 by reflexivity.
  split_and!; try done.
  - intros n Hn. destruct (regs_range n Hn) as [Hn1 Hn2]. unfold set_reg at 1. rewrite (proj2 (Z.eqb_neq n 2)) by done.
    rewrite popped_in by done. rewrite E2, wrap_id by (unfold in_u; lia). by apply F1.
  - unfold set_reg at 1. cbn [Z.eqb Pos.eqb]. by rewrite popped_out.
  - cbn. rewrite wrap_id by (unfold in_u; lia). exact F3.
  - cbn. rewrite wrap_id by (unfold in_u; lia). exact F2.
Qed.

Lemma frame_ext m m' c r st ep : (forall k, c <= k < c + CONTEXT_SIZE -> m k = m' k) ->
  frame_at m c r st ep -> frame_at m' c r st ep.
Proof.
  intros H [F1 F2 F3]. pose proof extra_ok. pose proof nr_regs_ok. unfold CONTEXT_SIZE, OFFSET_STATUS, OFFSET_EPC in *.
  constructor; unfold OFFSET_STATUS, OFFSET_EPC in *.
  - intros n Hn. destruct (regs_range n Hn). rewrite <- F1 by done. apply word_ext. intros k Hk. symmetry. apply H. lia.
  - rewrite <- F2. apply word_ext. intros k Hk. symmetry. apply H. lia.
  - rewrite <- F3. apply word_ext. intros k Hk. symmetry. apply H. lia.
Qed.

(** The system call has been noticed: the frame resumes behind the [ecall]. *)
Lemma frame_advance m c r st ep v : fits c -> in_u 32 v -> frame_at m c r st ep ->
  frame_at (set_word m (u32 (c + OFFSET_EPC)) v) c r st v.
Proof.
  intros [Hc Hc1] Hv [F1 F2 F3]. pose proof extra_ok. pose proof nr_regs_ok. unfold CONTEXT_SIZE, OFFSET_STATUS, OFFSET_EPC in *.
  rewrite wrap_id by (unfold in_u; lia). constructor; unfold OFFSET_STATUS, OFFSET_EPC in *.
  - intros n Hn. destruct (regs_range n Hn). rewrite word_set_other by lia. by apply F1.
  - rewrite word_set_other by lia. exact F2.
  - by apply word_set.
Qed.

(** The state is one of 32-bit registers, with room for a frame below the stack pointer. *)
Definition hart_ok (s : hart) : Prop :=
  (forall n, in_u 32 (gpr s n)) /\ in_u 32 (mcause s) /\ in_u 32 (mstatus s) /\ in_u 32 (mepc s) /\
  CONTEXT_SIZE <= gpr s 2.

(** What the handler does after the event is known. *)
Definition trap_tail (h : handler) (ev : Event) (c : Z) : M hart unit :=
  c ← h ev c; c_assert (negb (c =? 0)) "c != NULL" ;; set_x 10 c ;; asm_restore.

Lemma asm_trap_yield h s : hart_ok s -> mcause s = 11 ->
  let c := gpr s 2 - CONTEXT_SIZE in
  exists s1, asm_trap (Some h) s = trap_tail h EVENT_YIELD c s1 /\ fits c /\
    frame_at (hmem s1) c (gpr s) (mstatus s) (u32 (mepc s + 4)) /\
    (forall k, k < c \/ c + CONTEXT_SIZE <= k -> hmem s1 k = hmem s k).
Proof.
  intros (Hr & H1 & H2 & H3 & Hsp) Hy c. pose proof (Hr 2) as Hr2. unfold in_u in Hr2. pose proof extra_ok. pose proof nr_regs_ok.
  assert (fits c) as Hf by (unfold fits, c, CONTEXT_SIZE in *; lia). pose proof Hf as [Hc Hc1].
  destruct (asm_save_run s c) as (s1 & R1 & A1 & M1).
  { symmetry. apply wrap_id. unfold in_u, c, CONTEXT_SIZE in *; lia. }
  destruct (saved_frame s c Hf Hr H1 H2 H3) as (F & Fc & Fo). rewrite <- M1 in F, Fc, Fo.
  pose proof (f_epc _ _ _ _ _ F) as Fe.
  exists (s1 <| hmem := set_word (hmem s1) (u32 (c + OFFSET_EPC)) (u32 (mepc s + 4)) |>). split_and!; [|done| |].
  - unfold asm_trap. rewrite (bind_run _ _ _ _ _ R1). destruct s1 as [g mc ms me mt p m]. cbn [gpr hmem] in *.
    unfold irq_handle. rewrite x_bind, A1, bind_assoc, lw_bind.
    rewrite (wrap_id 32 (c + OFFSET_CAUSE)) by (unfold in_u, CONTEXT_SIZE, OFFSET_CAUSE in *; lia).
    rewrite Fc, Hy. cbn [Z.eqb Pos.eqb]. rewrite !bind_assoc, lw_bind, !bind_assoc, sw_bind.
    rewrite (wrap_id 32 (c + OFFSET_EPC)) by (unfold in_u, CONTEXT_SIZE, OFFSET_EPC in *; lia). rewrite Fe.
    rewrite (bind_run (mret EVENT_YIELD) _ _ EVENT_YIELD _ eq_refl). unfold trap_tail, update; cbn [gpr hmem].
    rewrite bind_assoc. apply bind_cong. intros c' s'. rewrite bind_assoc. by apply bind_cong.
  - eapply frame_advance; [done|by apply wrap_in_u|exact F].
  - intros k Hk. change (set_word (hmem s1) (u32 (c + OFFSET_EPC)) (u32 (mepc s + 4)) k = hmem s k).
    rewrite get_set_other; [by apply Fo|]. unfold CONTEXT_SIZE, OFFSET_EPC in *.
    rewrite wrap_id by (unfold in_u; lia). lia.
Qed.

(** C25. A thread that yields is resumed: the trap entry calls the user handler with
    [EVENT_YIELD] and a context below the stack, changing nothing else in memory, and
    whenever later the trap code returns to that context, whatever ran in between as long
    as it left the frame alone, the thread continues behind its [ecall] with all its
    registers, its stack pointer and [mstatus]. *)
Theorem yield_resumes h s : hart_ok s -> mcause s = 11 ->
  let c := gpr s 2 - CONTEXT_SIZE in
  exists s1, asm_trap (Some h) s = trap_tail h EVENT_YIELD c s1 /\
    (forall k, k < c \/ c + CONTEXT_SIZE <= k -> hmem s1 k = hmem s k) /\
    forall s2, gpr s2 10 = c -> (forall k, c <= k < c + CONTEXT_SIZE -> hmem s2 k = hmem s1 k) ->
      exists s3, asm_restore s2 = Ok (tt, s3) /\ (forall n, 1 <= n < NR_REGS -> gpr s3 n = gpr s n) /\
        pc s3 = u32 (mepc s + 4) /\ mstatus s3 = mstatus s /\ hmem s3 = hmem s2.
Proof.
  intros Hs Hy c. destruct (asm_trap_yield h s Hs Hy) as (s1 & R1 & Hf & F & Ho). fold c in R1, Hf, F, Ho.
  exists s1. split_and!; [done..|]. intros s2 Ha Hm.
  destruct (asm_restore_run s2 c (gpr s) (mstatus s) (u32 (mepc s + 4)) Ha Hf) as (s3 & R3 & G1 & G2 & P3 & M3 & E3).
  { eapply frame_ext; [|exact F]. intros k Hk. symmetry. by apply Hm. }
  exists s3. split; [exact R3|]. split; [|by split_and!]. intros n Hn. destruct (regs_all n Hn) as [-> | Hi]; [|by apply G1].
  rewrite G2. destruct Hs as [Hr _]. replace (c + CONTEXT_SIZE) with (gpr s 2) by lia. apply wrap_id, Hr.
Qed.

(** A fresh kernel context starts at its entry with the argument in a0 and an empty stack;
    on nemu the stack starts one word below the end of the area. *)
Theorem kcontext_starts kend entry arg s : sizeof_Context <= kend < 2 ^ 32 -> in_u 32 entry -> in_u 32 arg ->
  exists c s1, kcontext kend entry arg s = Ok (c, s1) /\ forall s2, gpr s2 10 = c ->
    (forall k, c <= k < c + CONTEXT_SIZE -> hmem s2 k = hmem s1 k) ->
    exists s3, asm_restore s2 = Ok (tt, s3) /\ pc s3 = entry /\ gpr s3 10 = arg /\ mstatus s3 = 0x1800 /\
      gpr s3 2 = kend - 4 * (4 - extra_words).
Proof.
  intros Hk He Harg. pose proof extra_ok. pose proof nr_regs_ok. unfold sizeof_Context in *.
  destruct s as [g mc ms me mt p m]. set (c := kend - (NR_REGS + 4) * 4). unfold kcontext, sizeof_Context.
  rewrite (wrap_id 32 (kend - _)) by (unfold in_u; lia). fold c. hart_steps.
  unfold OFFSET_EPC, OFFSET_STATUS. rewrite !(wrap_id 32 (c + _)) by (unfold in_u, c; lia).
  exists c. eexists. split; [reflexivity|]. cbn [hmem]. intros s2 Ha Hm.
  assert (fits c) as Hf by (unfold fits, c, CONTEXT_SIZE; lia).
  destruct (asm_restore_run s2 c (fun n => word (hmem s2) (c + n * 4)) 0x1800 entry Ha Hf) as (s3 & R3 & G1 & G2 & P3 & M3 & E3).
  { eapply frame_ext; [intros k Hk2; symmetry; by apply Hm|]. constructor; unfold OFFSET_STATUS, OFFSET_EPC, CONTEXT_SIZE in *.
    - intros n Hn. destruct (regs_range n Hn). apply word_ext. intros k Hk2. symmetry. apply Hm. lia.
    - rewrite !word_set_other by lia. apply word_set. unfold in_u. lia.
    - rewrite !word_set_other by lia. by apply word_set. }
  exists s3. split; [exact R3|]. split; [exact P3|]. split; [|split; [exact M3|]].
  - rewrite G1 by (unfold REGS; rewrite elem_of_app; left; unfold REGS_LO16; rewrite !elem_of_cons; lia).
    erewrite word_ext; [|intros k Hk2; apply Hm; unfold CONTEXT_SIZE; lia].
    rewrite word_set_other by lia. by apply word_set.
  - rewrite G2. unfold CONTEXT_SIZE, c. rewrite wrap_id by (unfold in_u; lia). lia.
Qed.

End Cte.

Module CteWitness.

#[local] Instance trap : TrapS := npc_trap true.

(** A thread at 0x80001000 with its stack at 0x80010000 that has just yielded. *)
Definition s : hart := mkHart (fun n => if n =? 2 then 0x80010000 else Z.land n 31) 11 0x1800 0x80001000 0x80002000
  0x80002000 (fun _ => 0).

Lemma yield_resumes_witness : let h : handler := fun _ c => mret c in let c := gpr s 2 - CONTEXT_SIZE in
  exists s1, asm_trap (Some h) s = trap_tail h EVENT_YIELD c s1 /\
    (forall k, k < c \/ c + CONTEXT_SIZE <= k -> hmem s1 k = hmem s k) /\
    forall s2, gpr s2 10 = c -> (forall k, c <= k < c + CONTEXT_SIZE -> hmem s2 k = hmem s1 k) ->
      exists s3, asm_restore s2 = Ok (tt, s3) /\ (forall n, 1 <= n < NR_REGS -> gpr s3 n = gpr s n) /\
        pc s3 = u32 (mepc s + 4) /\ mstatus s3 = mstatus s /\ hmem s3 = hmem s2.
Proof.
  intros h. refine (yield_resumes h s _ eq_refl).
  split; [|unfold s, in_u, CONTEXT_SIZE; cbn [mcause mstatus mepc gpr Z.eqb Pos.eqb NR_REGS extra_words trap npc_trap]; lia].
  intros n. unfold s; cbn [gpr]. destruct (n =? 2); [unfold in_u; lia|]. change 31 with (Z.ones 5).
  rewrite Z.land_ones by lia. pose proof (Z.mod_pos_bound n (2 ^ 5) ltac:(lia)). unfold in_u. lia.
Defined.

End CteWitness.
