(* ===== verification/MiniRv.v ===== *)
(** The minirv instruction replacement ([abstract-machine/tools/minirv]).

    A minirv processor has eight instructions. [inst-replace.h] defines an
    assembler macro for every other RV32I instruction: the macro expands to base
    instructions that look results up in byte tables, which [gen-lut.c] writes. This
    file has the tables, the base instructions and, for each macro, the list of base
    instructions it expands to; [MiniRvProof] shows that the expansions compute what
    the replaced instructions are specified to compute in [RvSpec].

    The conditionals of the macros compare register operands, here register numbers;
    [.abort] is [None]. The linker's addresses are the record [symbols]. Memory is
    the flat space of [2 ^ 32] bytes. *)

From S2P Require Import Prelude RvSpec.

(** * The lookup tables ([gen-lut.c]) *)

(** [gen_table]: [fwrite(&res, entry_size, 1, fp)] for every row and column. *)
Definition gen_table (row col entry_size : nat) (expr : Z -> Z -> Z) : list Z :=
  concat (map (fun j =>
    concat (map (fun i => le_split entry_size (u32 (expr (Z.of_nat j) (Z.of_nat i)))) (seq 0 col)))
    (seq 0 row)).

Definition and8_bytes : list Z := gen_table 256 256 1 (fun j i => Z.land j i).
Definition or8_bytes : list Z := gen_table 256 256 1 (fun j i => Z.lor j i).
Definition xor8_bytes : list Z := gen_table 256 256 1 (fun j i => Z.lxor j i).
Definition sll8_bytes : list Z := gen_table 32 256 4 (fun j i => Z.shiftl i j).
Definition srl8_bytes : list Z := gen_table 32 256 4 (fun j i => Z.shiftr (u32 (Z.shiftl i 24)) j).
Definition sra8_bytes : list Z := gen_table 32 256 4 (fun j i => Z.shiftr (s32 (Z.shiftl i 24)) j).

Definition lut_bin : list Z :=
  and8_bytes ++ or8_bytes ++ xor8_bytes ++ sll8_bytes ++ srl8_bytes ++ sra8_bytes.

(** The small tables of [inst-replace.h]. *)
Definition same_result_bytes : list Z := [1; 0; 0; 0; 0; 0; 0; 0].
Definition check_8bit_0_bytes : list Z := 0 :: repeat 1 255.
Definition slt1_bytes : list Z := [0; 1; 0; 0; 1; 1; 0; 1].
Definition sltu1_bytes : list Z := [0; 1; 1; 1; 0; 0; 0; 1].
Definition or1_bytes : list Z := [0; 1; 1; 1].

(** Where the linker puts the data of [inst-replace.h]. *)
Record symbols : Type := mkSymbols {
  logic_shift_table : Z;
  same_result_table : Z;
  check_8bit_0_table : Z;
  slt1_table : Z;
  sltu1_table : Z;
  or1_table : Z;
  check_same_array : Z;
}.

Definition and8_table (y : symbols) : Z := logic_shift_table y.
Definition or8_table (y : symbols) : Z := and8_table y + 256 * 256.
Definition xor8_table (y : symbols) : Z := or8_table y + 256 * 256.
Definition sll8_table (y : symbols) : Z := xor8_table y + 256 * 256.
Definition srl8_table (y : symbols) : Z := sll8_table y + 32 * 256 * 4.
Definition sra8_table (y : symbols) : Z := srl8_table y + 32 * 256 * 4.

(** * The base machine *)

Definition reg := Z.
Definition x0 : reg := 0.
Definition ra : reg := 1.
Definition sp : reg := 2.
Definition gp : reg := 3.
Definition tp : reg := 4.
Definition s0 : reg := 8.
Definition s1 : reg := 9.

Inductive binst : Type :=
| Add (rd rs1 rs2 : reg)
| Addi (rd rs1 : reg) (imm : Z)
| Lui (rd : reg) (imm : Z)
| Lw (rd : reg) (off : Z) (base : reg)
| Lbu (rd : reg) (off : Z) (base : reg)
| Sw (rs : reg) (off : Z) (base : reg)
| Sb (rs : reg) (off : Z) (base : reg)
| Jalr (rd : reg) (off : Z) (base : reg).

Record mini : Type := mkMini { mregs : reg -> Z; mbytes : Z -> Z }.
#[global] Instance eta_mini : Eta mini := fun s => mkMini (mregs s) (mbytes s).

Definition rget (s : mini) (r : reg) : Z := if r =? 0 then 0 else mregs s r.
Definition fupd (f : Z -> Z) (k v : Z) : Z -> Z := fun i => if i =? k then v else f i.
Definition rset (s : mini) (r : reg) (v : Z) : mini := s <| mregs := fupd (mregs s) r (u32 v) |>.

Definition ld8 (m : Z -> Z) (a : Z) : Z := m (u32 a).
Definition ld32 (m : Z -> Z) (a : Z) : Z :=
  ld8 m a + 2 ^ 8 * ld8 m (a + 1) + 2 ^ 16 * ld8 m (a + 2) + 2 ^ 24 * ld8 m (a + 3).
Definition st8 (m : Z -> Z) (a v : Z) : Z -> Z := fupd m (u32 a) (u8 v).
Definition st32 (m : Z -> Z) (a v : Z) : Z -> Z :=
  st8 (st8 (st8 (st8 m a v) (a + 1) (Z.shiftr v 8)) (a + 2) (Z.shiftr v 16)) (a + 3) (Z.shiftr v 24).

(** A base instruction other than [jalr]. *)
Definition exec (i : binst) (s : mini) : mini :=
  match i with
  | Add rd rs1 rs2 => rset s rd (rget s rs1 + rget s rs2)
  | Addi rd rs1 imm => rset s rd (rget s rs1 + imm)
  | Lui rd imm => rset s rd (Z.shiftl imm 12)
  | Lw rd off base => rset s rd (ld32 (mbytes s) (rget s base + off))
  | Lbu rd off base => rset s rd (ld8 (mbytes s) (rget s base + off))
  | Sw rs off base => s <| mbytes := st32 (mbytes s) (rget s base + off) (rget s rs) |>
  | Sb rs off base => s <| mbytes := st8 (mbytes s) (rget s base + off) (rget s rs) |>
  | Jalr _ _ _ => s
  end.

(** From the first instruction of a block at [pc] until control leaves the block:
    the state and the next pc. *)
Fixpoint run (c : list binst) (pc : Z) (s : mini) : mini * Z :=
  match c with
  | [] => (s, u32 pc)
  | Jalr rd off base :: _ => (rset s rd (pc + 4), 2 * (u32 (rget s base + off) / 2))
  | i :: c => run c (pc + 4) (exec i s)
  end.

(** * Macros *)

Section Macros.
Variable y : symbols.

(** [SP_VAR_BYTE(n, boffset)] is [(-(n) * 4 + (boffset))(sp)]. *)
Definition sp_var_byte (n boffset : Z) : Z := - n * 4 + boffset.
Definition sp_var (n : Z) : Z := sp_var_byte n 0.
Definition VAR_A : Z := 4.
Definition VAR_B : Z := 5.
Definition VAR_C : Z := 6.
Definition VAR_D : Z := 7.
Definition PUSH (r : reg) (n : Z) : list binst := [Sw r (sp_var n) sp].
Definition POP (r : reg) (n : Z) : list binst := [Lw r (sp_var n) sp].
Definition lbu_v (r : reg) (n b : Z) : list binst := [Lbu r (sp_var_byte n b) sp].
Definition sb_v (r : reg) (n b : Z) : list binst := [Sb r (sp_var_byte n b) sp].

(** [%hi] and [%lo] of an address. *)
Definition hi20 (a : Z) : Z := Z.land (Z.shiftr (a + 0x800) 12) 0xfffff.
Definition lo12 (a : Z) : Z := sgn 12 a.
Definition la (r : reg) (addr : Z) : list binst := [Lui r (hi20 addr); Addi r r (lo12 addr)].

(** Assembler pseudo-instructions that are base instructions. *)
Definition mv (rd rs : reg) : list binst := [Addi rd rs 0].
Definition li (rd : reg) (imm : Z) : list binst := [Addi rd x0 imm].
Definition jr (rs : reg) : list binst := [Jalr x0 0 rs].

Definition getbyte (rd rs1 : reg) (byte : Z) : list binst :=
  PUSH rs1 VAR_C ++ lbu_v rd VAR_C byte.

Definition sh (rs : reg) (off : Z) (base : reg) : list binst :=
  [Sb rs (0 + off) base] ++ getbyte tp rs 1 ++ [Sb tp (1 + off) base].

(** The recursive calls of [slli] have an immediate below 8, so two levels are
    enough. *)
Fixpoint slli_rec (fuel : nat) (rd rs1 : reg) (imm : Z) : list binst :=
  match fuel with
  | O => []
  | S fuel =>
      if imm =? 0 then if negb (rd =? rs1) then mv rd rs1 else []
      else if 24 <=? imm then
        PUSH x0 VAR_A ++ sb_v rs1 VAR_A 3 ++ POP rd VAR_A ++ slli_rec fuel rd rd (imm - 24)
      else if 16 <=? imm then
        PUSH x0 VAR_A ++ sh rs1 (sp_var_byte VAR_A 2) sp ++ POP rd VAR_A ++
        slli_rec fuel rd rd (imm - 16)
      else Add rd rs1 rs1 :: repeat (Add rd rd rd) (Z.to_nat (imm - 1))
  end.
Definition slli (rd rs1 : reg) (imm : Z) : list binst := slli_rec 2 rd rs1 imm.

Definition not_byte (b : Z) : list binst :=
  lbu_v gp VAR_C b ++ [Add gp gp tp; Lbu gp 0 gp] ++ sb_v gp VAR_D b.
Definition not_ (rd rs1 : reg) : list binst :=
  PUSH gp 3 ++ PUSH rs1 VAR_C ++ la tp (xor8_table y + Z.shiftl 0xff 8) ++
  not_byte 3 ++ not_byte 2 ++ not_byte 1 ++ not_byte 0 ++
  POP gp 3 ++ POP rd VAR_D.

Definition sub (rd rs1 rs2 : reg) : list binst :=
  not_ tp rs2 ++ [Add rd rs1 tp; Addi rd rd 1].
Definition neg (rd rs : reg) : list binst := sub rd x0 rs.

Definition msb (rd rs1 : reg) : list binst :=
  getbyte rd rs1 3 ++ slli rd rd 1 ++ getbyte rd rd 1.

Definition slt_template (lut : Z) (rd rs1 rs2 : reg) : list binst :=
  PUSH s0 1 ++ PUSH s1 2 ++ PUSH rs2 VAR_A ++ mv s0 rs1 ++ POP s1 VAR_A ++
  msb gp s0 ++ slli gp gp 1 ++
  msb tp s1 ++ [Add gp gp tp] ++ slli gp gp 1 ++
  sub tp s0 s1 ++ msb tp tp ++ [Add gp gp tp] ++
  la tp lut ++ [Add tp tp gp] ++
  POP s1 2 ++ POP s0 1 ++ [Lbu rd 0 tp].
Definition slt (rd rs1 rs2 : reg) : list binst := slt_template (slt1_table y) rd rs1 rs2.
Definition sltu (rd rs1 rs2 : reg) : list binst := slt_template (sltu1_table y) rd rs1 rs2.
Definition snez (rd rs : reg) : list binst := sltu rd x0 rs.
Definition sltz (rd rs : reg) : list binst := msb rd rs.
Definition sgt (rd rs1 rs2 : reg) : list binst := slt rd rs2 rs1.
Definition sgtu (rd rs1 rs2 : reg) : list binst := sltu rd rs2 rs1.
Definition sgtz (rd rs : reg) : list binst := slt rd x0 rs.

Definition logic8_byte_internal (lut_reg : reg) (b : Z) : list binst :=
  lbu_v tp VAR_A b ++ sb_v tp VAR_D 1 ++ lbu_v tp VAR_B b ++ sb_v tp VAR_D 0 ++
  POP tp VAR_D ++ [Add tp lut_reg tp; Lbu tp 0 tp] ++ sb_v tp VAR_C b.

Definition logic (lut : Z) (rd rs1 rs2 : reg) : option (list binst) :=
  if rd =? x0 then Some []
  else if (rd =? sp) || (rs1 =? sp) || (rs2 =? sp) then None
  else if (rd =? gp) || (rs1 =? gp) || (rs2 =? gp) then None
  else if (rd =? tp) || (rs1 =? tp) then None
  else Some (
    PUSH rs1 VAR_A ++ PUSH rs2 VAR_B ++ la rd lut ++ PUSH x0 VAR_D ++
    logic8_byte_internal rd 3 ++ logic8_byte_internal rd 2 ++
    logic8_byte_internal rd 1 ++ logic8_byte_internal rd 0 ++
    POP rd VAR_C).
Definition and_ (rd rs1 rs2 : reg) : option (list binst) := logic (and8_table y) rd rs1 rs2.
Definition or_ (rd rs1 rs2 : reg) : option (list binst) := logic (or8_table y) rd rs1 rs2.
Definition xor_ (rd rs1 rs2 : reg) : option (list binst) := logic (xor8_table y) rd rs1 rs2.

Definition check_8bit_same (table rd : reg) (b : Z) : list binst :=
  lbu_v rd VAR_A b ++ [Add tp table rd; Addi rd x0 1; Sb rd 0 tp] ++
  lbu_v rd VAR_B b ++ [Add rd table rd; Sb x0 0 rd; Lbu rd 0 tp].

Definition seq_ (rd rs1 rs2 : reg) : list binst :=
  PUSH rs1 VAR_A ++ PUSH rs2 VAR_B ++ PUSH s0 1 ++ PUSH s1 2 ++
  la s0 (check_same_array y) ++
  check_8bit_same s0 gp 0 ++
  check_8bit_same s0 s1 1 ++ [Add gp gp s1] ++
  check_8bit_same s0 s1 2 ++ [Add gp gp s1] ++
  check_8bit_same s0 s1 3 ++ [Add gp gp s1] ++
  la tp (same_result_table y) ++ [Add tp tp gp; Lbu rd 0 tp] ++
  POP s1 2 ++ POP s0 1.

Definition check_8bit_0 (table rd : reg) (b : Z) : list binst :=
  lbu_v rd VAR_A b ++ [Add rd table rd; Lbu rd 0 rd].

Definition seqz (rd rs1 : reg) : list binst :=
  PUSH rs1 VAR_A ++ PUSH s0 1 ++
  la s0 (check_8bit_0_table y) ++
  check_8bit_0 s0 gp 0 ++
  check_8bit_0 s0 tp 1 ++ [Add gp gp tp] ++
  check_8bit_0 s0 tp 2 ++ [Add gp gp tp] ++
  check_8bit_0 s0 tp 3 ++ [Add gp gp tp] ++
  la tp (same_result_table y) ++ [Add tp tp gp; Lbu rd 0 tp] ++
  POP s0 1.

(** ** Shifts *)

Definition getshamt (rd rs1 : reg) : list binst :=
  sb_v rs1 VAR_B 0 ++ lbu_v rd VAR_B 0 ++ la tp (and8_table y + Z.shiftl 0x1f 8) ++
  [Add rd rd tp; Lbu rd 0 rd].

Definition get_shift_byte_in_tp (base : reg) (b : Z) : list binst :=
  lbu_v tp VAR_A b ++ slli tp tp 2 ++ [Add tp base tp; Lw tp 0 tp].

(** [s0 = table + shamt * 1024]. *)
Definition shift_row (table : Z) (rs2 : reg) : list binst :=
  getshamt s0 rs2 ++ PUSH x0 VAR_B ++ sb_v s0 VAR_B 1 ++ POP s0 VAR_B ++ slli s0 s0 2 ++
  la tp table ++ [Add s0 s0 tp].

Definition sll (rd rs1 rs2 : reg) : list binst :=
  PUSH s0 1 ++ PUSH rs1 VAR_A ++ shift_row (sll8_table y) rs2 ++
  PUSH x0 VAR_B ++ get_shift_byte_in_tp s0 3 ++ sb_v tp VAR_B 3 ++ POP gp VAR_B ++
  get_shift_byte_in_tp s0 2 ++ sh tp (sp_var_byte VAR_B 2) sp ++ POP tp VAR_B ++ [Add gp gp tp] ++
  get_shift_byte_in_tp s0 1 ++ slli tp tp 8 ++ [Add gp gp tp] ++
  get_shift_byte_in_tp s0 0 ++ POP s0 1 ++ [Add rd gp tp].

(** The second operand of [shift_right_template]. *)
Inductive shift_by : Type := ByReg (rs2 : reg) | ByImm (imm : Z).

Definition shift_right_bytes (rd : reg) (is_arith : bool) : list binst :=
  get_shift_byte_in_tp s0 2 ++ PUSH tp VAR_B ++
  get_shift_byte_in_tp s0 1 ++ PUSH tp VAR_C ++
  get_shift_byte_in_tp s0 0 ++ PUSH tp VAR_D ++
  lbu_v gp VAR_B 1 ++ lbu_v tp VAR_C 2 ++ [Add gp gp tp] ++ lbu_v tp VAR_D 3 ++ [Add gp gp tp] ++
  PUSH gp VAR_D ++
  lbu_v gp VAR_B 2 ++ lbu_v tp VAR_C 3 ++ [Add gp gp tp] ++ sb_v gp VAR_D 1 ++
  lbu_v gp VAR_B 3 ++ sb_v gp VAR_D 2 ++
  POP gp VAR_D ++
  (if is_arith then la tp (sra8_table y - srl8_table y) ++ [Add s0 s0 tp] else []) ++
  get_shift_byte_in_tp s0 3 ++ POP s0 1 ++ [Add rd gp tp].

Definition shift_right_template (rd rs1 : reg) (by_ : shift_by) (is_arith : bool) : list binst :=
  match by_ with
  | ByImm imm =>
      if imm =? 24 then
        if is_arith then
          PUSH rs1 VAR_A ++ la tp (sra8_table y + Z.shiftl imm 10) ++ lbu_v rd VAR_A 3 ++
          slli rd rd 2 ++ [Add tp tp rd; Lw rd 0 tp]
        else getbyte rd rs1 3
      else
        PUSH s0 1 ++ PUSH rs1 VAR_A ++ la s0 (srl8_table y + Z.shiftl imm 10) ++
        shift_right_bytes rd is_arith
  | ByReg rs2 =>
      PUSH s0 1 ++ PUSH rs1 VAR_A ++ shift_row (srl8_table y) rs2 ++ shift_right_bytes rd is_arith
  end.
Definition srl (rd rs1 rs2 : reg) : list binst := shift_right_template rd rs1 (ByReg rs2) false.
Definition sra (rd rs1 rs2 : reg) : list binst := shift_right_template rd rs1 (ByReg rs2) true.
Definition srli (rd rs1 : reg) (imm : Z) : list binst := shift_right_template rd rs1 (ByImm imm) false.
Definition srai (rd rs1 : reg) (imm : Z) : list binst := shift_right_template rd rs1 (ByImm imm) true.

(** ** Immediate operands: [def_itype] *)

Definition slti (rd rs1 : reg) (imm : Z) : list binst := li tp imm ++ slt rd rs1 tp.
Definition sltiu (rd rs1 : reg) (imm : Z) : list binst := li tp imm ++ sltu rd rs1 tp.
Definition andi (rd rs1 : reg) (imm : Z) : option (list binst) := app (li tp imm) <$> and_ rd rs1 tp.
Definition ori (rd rs1 : reg) (imm : Z) : option (list binst) := app (li tp imm) <$> or_ rd rs1 tp.
Definition xori (rd rs1 : reg) (imm : Z) : option (list binst) := app (li tp imm) <$> xor_ rd rs1 tp.

(** ** Loads *)

Definition lb (rd : reg) (off : Z) (base : reg) : list binst :=
  PUSH x0 VAR_A ++ [Lbu rd off base] ++ sb_v rd VAR_A 3 ++ POP rd VAR_A ++ srai rd rd 24.
Definition lhu (rd : reg) (off : Z) (base : reg) : list binst :=
  PUSH x0 VAR_A ++ [Lbu tp (1 + off) base] ++ sb_v tp VAR_A 1 ++ POP tp VAR_A ++
  [Lbu rd (0 + off) base; Add rd rd tp].
Definition lh (rd : reg) (off : Z) (base : reg) : list binst :=
  PUSH x0 VAR_A ++ [Lbu gp (1 + off) base] ++ sb_v gp VAR_A 3 ++ POP gp VAR_A ++
  srai gp gp 16 ++ [Lbu rd (0 + off) base; Add rd rd gp].

(** ** Jumps *)

Definition call_template (r : reg) (addr : Z) : list binst := la r addr ++ [Jalr r 0 r].
Definition j (addr : Z) : list binst := la tp addr ++ [Jalr x0 0 tp].
Definition jal (rd : reg) (addr : Z) : list binst :=
  if rd =? x0 then j addr else call_template rd addr.
Definition call (addr : Z) : list binst := call_template ra addr.
Definition tail (addr : Z) : list binst := la tp addr ++ jr tp ++ call_template ra addr.

(** ** Branches

    [lbl] is the label [non_taken_...] behind the expansion. *)

Definition branch_resolve (target : Z) (is_tp_high_sel_target : bool) (lbl : Z) : list binst :=
  slli tp tp 2 ++ [Add tp sp tp] ++
  (if is_tp_high_sel_target then
     la gp target ++ PUSH gp VAR_A ++ la gp lbl ++ PUSH gp VAR_B
   else la gp lbl ++ PUSH gp VAR_A ++ la gp target ++ PUSH gp VAR_B) ++
  [Lw tp (- VAR_B * 4) tp] ++ jr tp.

Definition beq_flag (rs1 rs2 : reg) : list binst :=
  if rs2 =? x0 then seqz tp rs1 else if rs1 =? x0 then seqz tp rs2 else seq_ tp rs1 rs2.

Definition gtz_flag (rs2 : reg) : list binst :=
  msb gp rs2 ++ [Addi tp rs2 (-1)] ++ msb tp tp ++ [Add gp gp tp] ++
  la tp (or1_table y) ++ [Add tp gp tp; Lbu tp 0 tp].

Definition branch (c : cond) (rs1 rs2 : reg) (target lbl : Z) : list binst :=
  match c with
  | BEQ => beq_flag rs1 rs2 ++ branch_resolve target true lbl
  | BNE => beq_flag rs1 rs2 ++ branch_resolve target false lbl
  | BLT =>
      if rs2 =? x0 then msb tp rs1 ++ branch_resolve target true lbl
      else if rs1 =? x0 then gtz_flag rs2 ++ branch_resolve target false lbl
      else slt tp rs1 rs2 ++ branch_resolve target true lbl
  | BLTU => sltu tp rs1 rs2 ++ branch_resolve target true lbl
  | BGE =>
      if rs1 =? x0 then gtz_flag rs2 ++ branch_resolve target true lbl
      else slt tp rs1 rs2 ++ branch_resolve target false lbl
  | BGEU => sltu tp rs1 rs2 ++ branch_resolve target false lbl
  end.

(** The expansion at address [pc]: the label is the address behind it. *)
Definition branch_at (c : cond) (rs1 rs2 : reg) (target pc : Z) : list binst :=
  branch c rs1 rs2 target (pc + 4 * Z.of_nat (length (branch c rs1 rs2 target 0))).

(** Branch pseudo-instructions. *)
Definition beqz (rs : reg) (target pc : Z) : list binst := branch_at BEQ rs x0 target pc.
Definition bnez (rs : reg) (target pc : Z) : list binst := branch_at BNE rs x0 target pc.
Definition blez (rs : reg) (target pc : Z) : list binst := branch_at BGE x0 rs target pc.
Definition bgez (rs : reg) (target pc : Z) : list binst := branch_at BGE rs x0 target pc.
Definition bltz (rs : reg) (target pc : Z) : list binst := branch_at BLT rs x0 target pc.
Definition bgtz (rs : reg) (target pc : Z) : list binst := branch_at BLT x0 rs target pc.
Definition bgt (rs rt : reg) (target pc : Z) : list binst := branch_at BLT rt rs target pc.
Definition ble (rs rt : reg) (target pc : Z) : list binst := branch_at BGE rt rs target pc.
Definition bgtu (rs rt : reg) (target pc : Z) : list binst := branch_at BLTU rt rs target pc.
Definition bleu (rs rt : reg) (target pc : Z) : list binst := branch_at BGEU rt rs target pc.

(** * The replaced instructions *)

Definition replace_op (o : alu) (rd rs1 rs2 : reg) : option (list binst) :=
  match o with
  | ADD => Some [Add rd rs1 rs2]
  | SUB => Some (sub rd rs1 rs2)
  | SLL => Some (sll rd rs1 rs2)
  | SLT => Some (slt rd rs1 rs2)
  | SLTU => Some (sltu rd rs1 rs2)
  | XOR => xor_ rd rs1 rs2
  | SRL => Some (srl rd rs1 rs2)
  | SRA => Some (sra rd rs1 rs2)
  | OR => or_ rd rs1 rs2
  | AND => and_ rd rs1 rs2
  | _ => None
  end.

Definition replace_opimm (o : alu) (rd rs1 : reg) (imm : Z) : option (list binst) :=
  match o with
  | ADD => Some [Addi rd rs1 imm]
  | SLL => Some (slli rd rs1 imm)
  | SLT => Some (slti rd rs1 imm)
  | SLTU => Some (sltiu rd rs1 imm)
  | XOR => xori rd rs1 imm
  | SRL => Some (srli rd rs1 imm)
  | SRA => Some (srai rd rs1 imm)
  | OR => ori rd rs1 imm
  | AND => andi rd rs1 imm
  | _ => None
  end.

Definition replace_load (len : Z) (signed : bool) (rd : reg) (off : Z) (base : reg)
    : option (list binst) :=
  if len =? 1 then if signed then Some (lb rd off base) else Some [Lbu rd off base]
  else if len =? 2 then if signed then Some (lh rd off base) else Some (lhu rd off base)
  else if len =? 4 then Some [Lw rd off base]
  else None.

Definition replace_store (len : Z) (rs : reg) (off : Z) (base : reg) : option (list binst) :=
  if len =? 1 then Some [Sb rs off base]
  else if len =? 2 then Some (sh rs off base)
  else if len =? 4 then Some [Sw rs off base]
  else None.

End Macros.
