(* ===== verification/MiniRvTables.v ===== *)
(** The lookup tables of minirv: what lies at which offset of [lut.bin]. *)

From S2P Require Import Prelude RvSpec MiniRv.

(** * Bytes of words *)

Definition byte (b x : Z) : Z := (x / 2 ^ (8 * b)) mod 2 ^ 8.

Lemma byte_range b x : 0 <= byte b x < 256.
Proof. apply Z.mod_pos_bound. lia. Qed.

(** Literal powers, then Euclidean division. *)
Ltac bytes_lia :=
  unfold byte, in_u, wrap in *; cbn [Z.mul] in *;
  repeat match goal with
  | |- context [2 ^ ?k] => let v := eval vm_compute in (2 ^ k) in change (2 ^ k) with v
  | H : context [2 ^ ?k] |- _ => let v := eval vm_compute in (2 ^ k) in change (2 ^ k) with v in H
  end; Z.to_euclidean_division_equations; lia.

Lemma word_bytes x : in_u 32 x ->
  x = byte 0 x + 2 ^ 8 * byte 1 x + 2 ^ 16 * byte 2 x + 2 ^ 24 * byte 3 x.
Proof. intros. bytes_lia. Qed.

Lemma byte_word b0 b1 b2 b3 :
  0 <= b0 < 256 -> 0 <= b1 < 256 -> 0 <= b2 < 256 -> 0 <= b3 < 256 ->
  let w := b0 + 2 ^ 8 * b1 + 2 ^ 16 * b2 + 2 ^ 24 * b3 in
  in_u 32 w /\ byte 0 w = b0 /\ byte 1 w = b1 /\ byte 2 w = b2 /\ byte 3 w = b3.
Proof. intros H0 H1 H2 H3 w. subst w. split_and!; bytes_lia. Qed.

Lemma u8_byte x : u8 x = byte 0 x.
Proof. unfold byte, wrap. cbn [Z.mul]. change (2 ^ 0) with 1. by rewrite Z.div_1_r. Qed.

Lemma u8_shiftr x b : 0 <= b -> u8 (Z.shiftr x (8 * b)) = byte b x.
Proof. intros. unfold byte, wrap. by rewrite Z.shiftr_div_pow2 by lia. Qed.

(** * Table lookup *)

Lemma nth_concat_map {A} (f : nat -> list A) (n row j i : nat) d :
  (forall k, length (f k) = n) -> (j < row)%nat -> (i < n)%nat ->
  nth (j * n + i) (concat (map f (seq 0 row))) d = nth i (f j) d.
Proof.
  intros Hn Hj Hi. assert (forall m a, (j < m)%nat ->
    nth (j * n + i) (concat (map f (seq a m))) d = nth i (f (a + j)%nat) d) as H.
  { clear row Hj. induction j as [|j IH]; intros m a Hm; (destruct m as [|m]; [lia|]); cbn [seq map concat].
    - rewrite app_nth1 by (rewrite Hn; lia). by rewrite Nat.add_0_r.
    - rewrite app_nth2 by (rewrite Hn; nia). rewrite Hn.
      replace (S j * n + i - n)%nat with (j * n + i)%nat by nia. rewrite IH by lia. do 2 f_equal. lia. }
  apply (H row 0%nat Hj).
Qed.

Lemma length_concat_map {A} (f : nat -> list A) n row :
  (forall k, length (f k) = n) -> length (concat (map f (seq 0 row))) = (row * n)%nat.
Proof.
  intros Hn. generalize 0%nat. induction row as [|row IH]; intros a; cbn [seq map concat]; [done|].
  rewrite length_app, Hn, IH. lia.
Qed.

Lemma gen_table_length row col es f : length (gen_table row col es f) = (row * (col * es))%nat.
Proof.
  unfold gen_table. apply length_concat_map. intros k. apply length_concat_map. intros. apply length_le_split.
Qed.

Lemma gen_table_nth row col es f (j i b : nat) : (j < row)%nat -> (i < col)%nat -> (b < es)%nat ->
  nth (j * (col * es) + (i * es + b)) (gen_table row col es f) 0
  = nth b (le_split es (u32 (f (Z.of_nat j) (Z.of_nat i)))) 0.
Proof.
  intros Hj Hi Hb. unfold gen_table.
  rewrite (nth_concat_map _ (col * es)%nat row j); [|intros; apply length_concat_map; intros; apply length_le_split|done|nia].
  rewrite (nth_concat_map _ es col i); [done|intros; apply length_le_split|done|done].
Qed.

Lemma Forall_concat_map {A} (P : A -> Prop) (f : nat -> list A) l :
  (forall k, Forall P (f k)) -> Forall P (concat (map f l)).
Proof. intros H. induction l as [|k l IH]; cbn [map concat]; [constructor|by apply Forall_app]. Qed.

Lemma gen_table_u8 row col es f : Forall (in_u 8) (gen_table row col es f).
Proof.
  unfold gen_table. apply Forall_concat_map. intros j. apply Forall_concat_map. intros i. apply le_split_bytes.
Qed.

#[global] Opaque gen_table.

(** The byte of a table at row [j], column [i]: the tables of bytes, and byte [b] of the
    entries of the tables of words. *)
Lemma logic_entry f j i : 0 <= j < 256 -> 0 <= i < 256 -> 0 <= f j i < 256 ->
  nth (Z.to_nat (j * 256 + i)) (gen_table 256 256 1 f) 0 = f j i.
Proof.
  intros Hj Hi Hf. replace (Z.to_nat (j * 256 + i)) with
    (Z.to_nat j * (256 * 1) + (Z.to_nat i * 1 + 0))%nat by lia.
  rewrite gen_table_nth by lia. rewrite !Z2Nat.id by lia. cbn [le_split nth].
  rewrite !wrap_id; unfold in_u; rewrite ?wrap_id; unfold in_u; lia.
Qed.

Lemma shift_entry f j i b : 0 <= j < 32 -> 0 <= i < 256 -> 0 <= b < 4 ->
  nth (Z.to_nat (j * 1024 + (i * 4 + b))) (gen_table 32 256 4 f) 0 = byte b (u32 (f j i)).
Proof.
  intros Hj Hi Hb. replace (Z.to_nat (j * 1024 + (i * 4 + b))) with
    (Z.to_nat j * (256 * 4) + (Z.to_nat i * 4 + Z.to_nat b))%nat by lia.
  rewrite gen_table_nth by lia. rewrite !Z2Nat.id by lia. generalize (u32 (f j i)) as x. intros x.
  assert (b = 0 \/ b = 1 \/ b = 2 \/ b = 3) as [-> | [-> | [-> | ->]]] by lia;
    cbn [Z.to_nat Pos.to_nat Pos.iter_op Nat.add le_split nth]; unfold byte, wrap; cbn [Z.mul].
  - change (2 ^ 0) with 1. by rewrite Z.div_1_r.
  - done.
  - by rewrite Z.div_div by lia.
  - by rewrite !Z.div_div by lia.
Qed.

(** The parts of [lut_bin]. *)
Lemma lut_parts k :
  (0 <= k < 65536 -> nth (Z.to_nat k) lut_bin 0 = nth (Z.to_nat k) and8_bytes 0) /\
  (0 <= k < 65536 -> nth (Z.to_nat (65536 + k)) lut_bin 0 = nth (Z.to_nat k) or8_bytes 0) /\
  (0 <= k < 65536 -> nth (Z.to_nat (131072 + k)) lut_bin 0 = nth (Z.to_nat k) xor8_bytes 0) /\
  (0 <= k < 32768 -> nth (Z.to_nat (196608 + k)) lut_bin 0 = nth (Z.to_nat k) sll8_bytes 0) /\
  (0 <= k < 32768 -> nth (Z.to_nat (229376 + k)) lut_bin 0 = nth (Z.to_nat k) srl8_bytes 0) /\
  (0 <= k < 32768 -> nth (Z.to_nat (262144 + k)) lut_bin 0 = nth (Z.to_nat k) sra8_bytes 0).
Proof.
  assert (forall f, Z.of_nat (length (gen_table 256 256 1 f)) = 65536) as L1
    by (intros; rewrite gen_table_length; lia).
  assert (forall f, Z.of_nat (length (gen_table 32 256 4 f)) = 32768) as L4
    by (intros; rewrite gen_table_length; lia).
  assert (forall (l r : list Z) n k, Z.of_nat (length l) = n -> 0 <= n -> 0 <= k ->
    nth (Z.to_nat (n + k)) (l ++ r) 0 = nth (Z.to_nat k) r 0) as Hr.
  { intros l r n k' Hn H0 Hk. rewrite app_nth2 by lia. f_equal. lia. }
  unfold lut_bin, and8_bytes, or8_bytes, xor8_bytes, sll8_bytes, srl8_bytes, sra8_bytes.
  split_and!; intros Hk.
  - apply app_nth1. specialize (L1 (fun j i => Z.land j i)). lia.
  - rewrite (Hr _ _ 65536) by (done || lia). apply app_nth1. specialize (L1 (fun j i => Z.lor j i)). lia.
  - replace (131072 + k) with (65536 + (65536 + k)) by lia. rewrite !(Hr _ _ 65536) by (done || lia).
    apply app_nth1. specialize (L1 (fun j i => Z.lxor j i)). lia.
  - replace (196608 + k) with (65536 + (65536 + (65536 + k))) by lia. rewrite !(Hr _ _ 65536) by (done || lia).
    apply app_nth1. rewrite gen_table_length. lia.
  - replace (229376 + k) with (65536 + (65536 + (65536 + (32768 + k)))) by lia.
    rewrite !(Hr _ _ 65536), (Hr _ _ 32768) by (done || lia). apply app_nth1. rewrite gen_table_length. lia.
  - replace (262144 + k) with (65536 + (65536 + (65536 + (32768 + (32768 + k))))) by lia.
    by rewrite !(Hr _ _ 65536), !(Hr _ _ 32768) by (done || lia).
Qed.

Lemma lut_length : Z.of_nat (length lut_bin) = 294912.
Proof.
  unfold lut_bin, and8_bytes, or8_bytes, xor8_bytes, sll8_bytes, srl8_bytes, sra8_bytes.
  rewrite !length_app, !gen_table_length. lia.
Qed.

Lemma lut_u8 : Forall (in_u 8) lut_bin.
Proof.
  unfold lut_bin, and8_bytes, or8_bytes, xor8_bytes, sll8_bytes, srl8_bytes, sra8_bytes.
  rewrite !Forall_app. split_and!; apply gen_table_u8.
Qed.
#[global] Opaque lut_bin.
