(* ===== verification/MiniRvProof.v ===== *)
(** Correctness of the minirv instruction replacement.

    The expansions are straight-line code up to a final jump. What a piece of an
    expansion may change is the relation [chg]: some registers and some of the
    seven words below the stack pointer ([slot]). The tables and every other byte
    stay as they are. *)

From S2P Require Import Prelude RvSpec MiniRv MiniRvTables.

(** * States *)

Record mwf (s : mini) : Prop := mkWf {
  wf_regs : forall r, in_u 32 (mregs s r);
  wf_bytes : forall a, in_u 8 (mbytes s a);
}.

Lemma rget_u32 s r : mwf s -> in_u 32 (rget s r).
Proof. intros H. unfold rget. case_match; [done|apply H]. Qed.

Lemma rget_rset s r v r' :
  rget (rset s r v) r' = if r' =? 0 then 0 else if r' =? r then u32 v else rget s r'.
Proof. unfold rget, rset, fupd. cbn. by destruct (r' =? 0). Qed.

Lemma exec_wf i s : mwf s -> mwf (exec i s).
Proof.
  assert (forall r v, mwf s -> mwf (rset s r v)) as Hr.
  { intros r v [Hr Hb]. constructor; cbn; [|done]. intros k. unfold fupd. case_match; [by apply wrap_in_u|done]. }
  assert (forall m a v, (forall k, in_u 8 (m k)) -> forall k, in_u 8 (st8 m a v k)) as Hs.
  { intros m a v Hm k. unfold st8, fupd. case_match; [by apply wrap_in_u|done]. }
  intros H. destruct i; cbn [exec]; auto; destruct H as [Hg Hb]; constructor; cbn; auto.
  intros k. unfold st32. by repeat apply Hs.
Qed.

(** Straight-line code. *)
Definition exs (c : list binst) (s : mini) : mini := fold_left (fun s i => exec i s) c s.

Lemma exs_app c1 c2 s : exs (c1 ++ c2) s = exs c2 (exs c1 s).
Proof. apply fold_left_app. Qed.
Lemma exs_cons i c s : exs (i :: c) s = exs c (exec i s).
Proof. done. Qed.
Lemma exs_two i j c s : exs (i :: j :: c) s = exs (j :: c) (exs [i] s).
Proof. done. Qed.
Lemma exs_wf c s : mwf s -> mwf (exs c s).
Proof. revert s. induction c as [|i c IH]; intros s H; [done|]. apply IH, exec_wf, H. Qed.

Definition is_jalr (i : binst) : bool := match i with Jalr _ _ _ => true | _ => false end.
Definition straight (c : list binst) : bool := forallb (fun i => negb (is_jalr i)) c.

Lemma run_straight c k pc s : straight c = true ->
  run (c ++ k) pc s = run k (pc + 4 * Z.of_nat (length c)) (exs c s).
Proof.
  revert pc s. induction c as [|i c IH]; intros pc s H; cbn [app length].
  - by rewrite Z.add_0_r.
  - unfold straight in H. cbn [forallb] in H. apply andb_true_iff in H as [Hi Hc].
    rewrite exs_cons. replace (pc + 4 * Z.of_nat (S (length c))) with (pc + 4 + 4 * Z.of_nat (length c)) by lia.
    rewrite <- IH by done. by destruct i.
Qed.

(** * What code may change *)

Section Frame.
Variable y : symbols.

(** Byte [a] belongs to word [n] below the stack pointer [q]. *)
Definition slot (q n a : Z) : Prop := q - n * 4 <= a < q - n * 4 + 4.

(** The words and the array that expansions write. *)
Definition scratch (q a : Z) : Prop := q - 28 <= a < q.
Definition in_array (a : Z) : Prop := check_same_array y <= a < check_same_array y + 256.

(** Registers [rs], words [ns] below the stack pointer, and the array if [arr]. *)
Record chg (rs : list reg) (ns : list Z) (arr : bool) (s s' : mini) : Prop := mkChg {
  chg_reg : forall r, r ∉ rs -> rget s' r = rget s r;
  chg_mem : forall a, (forall n, n ∈ ns -> ~ slot (rget s sp) n a) -> (arr = true -> ~ in_array a) ->
    mbytes s' a = mbytes s a;
  chg_wf : mwf s -> mwf s';
}.

Lemma chg_refl rs ns arr s : chg rs ns arr s s.
Proof. by constructor. Qed.

Lemma chg_trans rs ns arr rs1 ns1 arr1 rs2 ns2 arr2 s s1 s2 :
  chg rs1 ns1 arr1 s s1 -> chg rs2 ns2 arr2 s1 s2 ->
  sp ∉ rs1 -> rs1 ⊆ rs -> rs2 ⊆ rs -> ns1 ⊆ ns -> ns2 ⊆ ns ->
  implb arr1 arr && implb arr2 arr = true -> chg rs ns arr s s2.
Proof.
  intros [R1 M1 W1] [R2 M2 W2] Hsp Hr1 Hr2 Hn1 Hn2 Ha. apply andb_true_iff in Ha as [A1 A2].
  constructor; [| |auto].
  - intros r Hr. rewrite R2, R1; [done|set_solver..].
  - intros a Hn Harr. rewrite M2, M1; [done|set_solver| | |].
    + destruct arr1, arr; auto.
    + rewrite R1 by done. set_solver.
    + destruct arr2, arr; auto.
Qed.

Lemma chg_sp rs ns arr s s' : chg rs ns arr s s' -> sp ∉ rs -> rget s' sp = rget s sp.
Proof. intros H. apply H. Qed.

(** * The environment of an expansion *)

(** A table of read-only bytes away from the written ones. *)
Definition table_at (s : mini) (base : Z) (bs : list Z) : Prop :=
  0 <= base /\ base + Z.of_nat (length bs) <= 2 ^ 32 /\
  forall k, 0 <= k < Z.of_nat (length bs) ->
    mbytes s (base + k) = nth (Z.to_nat k) bs 0 /\ ~ scratch (rget s sp) (base + k) /\ ~ in_array (base + k).

Record env (s : mini) : Prop := mkEnv {
  env_wf : mwf s;
  env_sp : 28 <= rget s sp;
  env_lut : table_at s (logic_shift_table y) lut_bin;
  env_same : table_at s (same_result_table y) same_result_bytes;
  env_zero : table_at s (check_8bit_0_table y) check_8bit_0_bytes;
  env_slt : table_at s (slt1_table y) slt1_bytes;
  env_sltu : table_at s (sltu1_table y) sltu1_bytes;
  env_or : table_at s (or1_table y) or1_bytes;
  env_arr : 0 <= check_same_array y /\ check_same_array y + 256 <= 2 ^ 32;
  env_arr_sp : forall a, in_array a -> ~ scratch (rget s sp) a;
}.

Definition slots_ok (ns : list Z) : bool := forallb (fun n => (1 <=? n) && (n <=? 7)) ns.

Lemma slot_scratch q n a : 1 <= n <= 7 -> slot q n a -> scratch q a.
Proof. unfold slot, scratch. lia. Qed.

Lemma chg_outside rs ns arr s s' a : chg rs ns arr s s' -> slots_ok ns = true ->
  ~ scratch (rget s sp) a -> (arr = true -> ~ in_array a) -> mbytes s' a = mbytes s a.
Proof.
  intros C Hn Ha Harr. apply (chg_mem _ _ _ _ _ C); [|done]. intros n Hin Hsl. apply Ha.
  unfold slots_ok in Hn. rewrite forallb_forall in Hn. apply list_elem_of_In, Hn in Hin.
  eapply slot_scratch; [|exact Hsl]. apply andb_true_iff in Hin as [? ?]. lia.
Qed.

Lemma table_chg rs ns arr s s' base bs : chg rs ns arr s s' -> slots_ok ns = true -> sp ∉ rs ->
  table_at s base bs -> table_at s' base bs.
Proof.
  intros C Hn Hsp (H0 & H1 & H). split_and!; try done. intros k Hk. destruct (H k Hk) as (E & Hs & Ha).
  rewrite (chg_sp _ _ _ _ _ C Hsp). split_and!; try done. rewrite <- E. by eapply chg_outside.
Qed.

Lemma env_chg rs ns arr s s' : chg rs ns arr s s' -> slots_ok ns = true -> sp ∉ rs -> env s -> env s'.
Proof.
  intros C Hn Hsp []. pose proof (fun base bs => table_chg _ _ _ _ _ base bs C Hn Hsp) as T.
  constructor; try (apply T; assumption).
  - by eapply chg_wf.
  - by rewrite (chg_sp _ _ _ _ _ C Hsp).
  - assumption.
  - intros a Ha. rewrite (chg_sp _ _ _ _ _ C Hsp). auto.
Qed.

(** * Specifications of pieces of code *)

(** Byte [b] of word [n] below the stack pointer. *)
Definition vb (s : mini) (n b : Z) : Z := mbytes s (rget s sp - n * 4 + b).

(** From [s], the code [c] changes at most [rs], [ns] and the array, and leaves a
    state with [Q]. *)
Definition spec (c : list binst) (s : mini) (rs : list reg) (ns : list Z) (arr : bool) (Q : mini -> Prop) : Prop :=
  env (exs c s) /\ chg rs ns arr s (exs c s) /\ Q (exs c s).

Lemma spec_intro c s rs ns arr (Q : mini -> Prop) : env s -> slots_ok ns = true -> sp ∉ rs ->
  chg rs ns arr s (exs c s) -> Q (exs c s) -> spec c s rs ns arr Q.
Proof. intros. split_and!; try done. by eapply env_chg. Qed.

(** A register that has its old value again. *)
Lemma spec_drop r c s rs ns arr (Q : mini -> Prop) : spec c s (r :: rs) ns arr Q ->
  (forall s', Q s' -> rget s' r = rget s r) -> spec c s rs ns arr Q.
Proof.
  intros (E & [Cr Cm Cw] & F) H. split_and!; try done. constructor; try done.
  intros k Hk. destruct (decide (k = r)) as [->|Hne]; [by apply H|]. apply Cr. by apply not_elem_of_cons.
Qed.

Lemma spec_conseq c s rs ns arr (Q Q' : mini -> Prop) : spec c s rs ns arr Q ->
  (forall s', Q s' -> Q' s') -> spec c s rs ns arr Q'.
Proof. intros (E & C & F) H. split_and!; auto. Qed.

(** The usual case: the code saves [r] and restores it. *)
Lemma spec_restore r c s rs ns arr (Q : mini -> Prop) :
  spec c s (r :: rs) ns arr (fun s' => rget s' r = rget s r /\ Q s') -> spec c s rs ns arr Q.
Proof.
  intros H. eapply spec_conseq; [eapply spec_drop; [exact H|]|]; cbn; tauto.
Qed.

(** Code in two parts. *)
Lemma spec_app c1 c2 s rs ns arr rs1 ns1 arr1 rs2 ns2 arr2 (Q1 Q2 : mini -> Prop) :
  spec c1 s rs1 ns1 arr1 Q1 -> (forall s', env s' -> Q1 s' -> spec c2 s' rs2 ns2 arr2 Q2) ->
  sp ∉ rs1 -> rs1 ⊆ rs -> rs2 ⊆ rs -> ns1 ⊆ ns -> ns2 ⊆ ns ->
  implb arr1 arr && implb arr2 arr = true -> spec (c1 ++ c2) s rs ns arr Q2.
Proof.
  intros (E1 & C1 & F1) H Hsp. destruct (H _ E1 F1) as (E2 & C2 & F2). intros.
  unfold spec. rewrite exs_app. split_and!; [done| |done]. by apply (chg_trans _ _ _ _ _ _ _ _ _ _ _ _ C1 C2).
Qed.

Lemma chg_vb rs ns arr s s' n b : env s -> chg rs ns arr s s' -> sp ∉ rs -> 1 <= n <= 7 -> 0 <= b < 4 ->
  n ∉ ns -> vb s' n b = vb s n b.
Proof.
  intros E C Hsp Hn Hb Hin. unfold vb. rewrite (chg_sp _ _ _ _ _ C Hsp). apply (chg_mem _ _ _ _ _ C).
  - intros m Hm Hs. unfold slot in Hs. assert (m <> n) by (intros ->; done). lia.
  - intros _ Ha. apply (env_arr_sp _ E) in Ha. unfold scratch in Ha. lia.
Qed.
End Frame.

Ltac regnum := unfold x0, ra, sp, gp, tp, s0, s1, reg in *.
Ltac notin := repeat (apply not_elem_of_cons; split); try apply not_elem_of_nil; regnum; lia.
Ltac incl := intros ? ?; rewrite ?elem_of_cons, ?elem_of_nil in *; tauto.

(** The value left in [rd], which is 0 for [x0]. *)
Definition rd_is (rd : reg) (v : Z) (s : mini) : Prop := rget s rd = if rd =? 0 then 0 else v.

(** Facts about the state before [C] that still hold after it. *)
Ltac carry E C :=
  lazymatch type of C with
  | chg _ _ _ _ ?s ?s' =>
      repeat match goal with
      | H : rget s ?r = ?v |- _ =>
          try assert (rget s' r = v) by (rewrite (chg_reg _ _ _ _ _ _ C); [exact H|notin]); clear H
      | H : vb s ?n ?b = ?v |- _ =>
          try assert (vb s' n b = v) by
            (rewrite (chg_vb _ _ _ _ _ _ n b E C); [exact H|notin|lia|lia|notin]); clear H
      | H : rd_is ?r ?v s |- _ =>
          try assert (rd_is r v s') by (unfold rd_is in *; rewrite (chg_reg _ _ _ _ _ _ C); [exact H|notin]); clear H
      | H : mbytes s ?a = ?v |- _ =>
          try assert (mbytes s' a = v) by
            (rewrite (chg_mem _ _ _ _ _ _ C);
             [exact H|let n := fresh in let Hn := fresh in intros n Hn; by apply not_elem_of_nil in Hn|discriminate]);
          clear H
      end
  end.

(** * Single instructions *)

Section Pieces.
Variable y : symbols.
Abbreviation env := (env y).
Abbreviation spec := (spec y).
Abbreviation chg := (chg y).

(** Only register [r] is written. *)
Lemma rset_chg s r v : chg [r] [] false s (rset s r v).
Proof.
  constructor; [|done|].
  - intros k Hk. rewrite rget_rset. unfold rget. destruct (k =? 0); [done|].
    destruct (Z.eqb_spec k r) as [->|]; [by destruct Hk; left|done].
  - intros [Hr Hb]. constructor; cbn; [|done]. intros k. unfold fupd. case_match; [by apply wrap_in_u|done].
Qed.

Lemma rset_spec i s r v (Q : mini -> Prop) : env s -> r <> sp -> exec i s = rset s r v ->
  Q (rset s r v) -> spec [i] s [r] [] false Q.
Proof.
  intros E Hr Hx HQ. assert (exs [i] s = rset s r v) as Ex by exact Hx.
  apply spec_intro; [done|done|notin| |]; rewrite Ex; [apply rset_chg|done].
Qed.

Lemma rget_same s r v : r <> 0 -> rget (rset s r v) r = u32 v.
Proof. intros Hr. rewrite rget_rset, Z.eqb_refl. by apply Z.eqb_neq in Hr as ->. Qed.

Lemma rd_is_rset s rd v : rd_is rd (u32 v) (rset s rd v).
Proof. unfold rd_is. rewrite rget_rset. by rewrite Z.eqb_refl. Qed.

Lemma rd_is_nz rd v s : rd_is rd v s -> rd <> 0 -> rget s rd = v.
Proof. unfold rd_is. intros H Hr. apply Z.eqb_neq in Hr. by rewrite Hr in H. Qed.

Lemma rd_is_of rd v s : rget s rd = v -> rd <> 0 -> rd_is rd v s.
Proof. unfold rd_is. intros H Hr. apply Z.eqb_neq in Hr. by rewrite Hr. Qed.

Lemma add_spec rd rs1 rs2 s : env s -> rd <> sp ->
  spec [Add rd rs1 rs2] s [rd] [] false (rd_is rd (u32 (rget s rs1 + rget s rs2))).
Proof. intros. eapply rset_spec; [done|done|reflexivity|apply rd_is_rset]. Qed.

Lemma addi_spec rd rs1 imm s : env s -> rd <> sp ->
  spec [Addi rd rs1 imm] s [rd] [] false (rd_is rd (u32 (rget s rs1 + imm))).
Proof. intros. eapply rset_spec; [done|done|reflexivity|apply rd_is_rset]. Qed.

Lemma byte_u32 s a : env s -> u32 (mbytes s a) = mbytes s a.
Proof.
  intros [[_ H] _ _ _ _ _ _ _ _ _]. apply wrap_id. specialize (H a). unfold in_u in *. lia.
Qed.

Lemma lbu_at rd off base s a : env s -> rd <> sp -> u32 (rget s base + off) = a ->
  spec [Lbu rd off base] s [rd] [] false (rd_is rd (mbytes s a)).
Proof.
  intros E Hr Ha. eapply rset_spec; [done|done|reflexivity|]. unfold ld8. rewrite Ha.
  rewrite <- (byte_u32 _ a E) at 1. apply rd_is_rset.
Qed.

(** Addresses below the stack pointer do not wrap. *)
Lemma var_addr s n b : env s -> 1 <= n <= 7 -> 0 <= b < 4 ->
  u32 (rget s sp + sp_var_byte n b) = rget s sp - n * 4 + b.
Proof.
  intros E Hn Hb. pose proof (env_sp _ _ E). pose proof (rget_u32 s sp (env_wf _ _ E)).
  unfold sp_var_byte. unfold in_u in *. rewrite wrap_id; [lia|]. unfold in_u. lia.
Qed.

Lemma lbu_v_spec rd n b s : env s -> rd <> sp -> 1 <= n <= 7 -> 0 <= b < 4 ->
  spec (lbu_v rd n b) s [rd] [] false (rd_is rd (vb s n b)).
Proof. intros. apply lbu_at; [done..|]. by apply var_addr. Qed.

(** A word of table entries. *)
Definition vw (s : mini) (n : Z) : Z :=
  vb s n 0 + 2 ^ 8 * vb s n 1 + 2 ^ 16 * vb s n 2 + 2 ^ 24 * vb s n 3.

Lemma env_byte s a : env s -> 0 <= mbytes s a < 256.
Proof. intros E. apply (wf_bytes _ (env_wf _ _ E) a). Qed.

Lemma pop_spec rd n s : env s -> rd <> sp -> 1 <= n <= 7 ->
  spec (POP rd n) s [rd] [] false (rd_is rd (vw s n)).
Proof.
  intros E Hr Hn. eapply rset_spec; [done|done|reflexivity|].
  assert (ld32 (mbytes s) (rget s sp + sp_var n) = vw s n) as ->.
  { unfold ld32, ld8, sp_var, vw, vb.
    rewrite <- !Z.add_assoc, (var_addr s n 0) by (done || lia).
    replace (rget s sp + (sp_var_byte n 0 + 1)) with (rget s sp + sp_var_byte n 1) by (unfold sp_var_byte; lia).
    replace (rget s sp + (sp_var_byte n 0 + 2)) with (rget s sp + sp_var_byte n 2) by (unfold sp_var_byte; lia).
    replace (rget s sp + (sp_var_byte n 0 + 3)) with (rget s sp + sp_var_byte n 3) by (unfold sp_var_byte; lia).
    by rewrite !var_addr by (done || lia). }
  assert (u32 (vw s n) = vw s n) as Ew by (apply wrap_id, byte_word; by apply env_byte).
  pose proof (rd_is_rset s rd (vw s n)) as P. by rewrite Ew in P.
Qed.

(** Stores to the words below the stack pointer. *)
Lemma st8_other m a v k : k <> u32 a -> st8 m a v k = m k.
Proof. intros H. unfold st8, fupd. by apply Z.eqb_neq in H as ->. Qed.
Lemma st8_same m a v k : k = u32 a -> st8 m a v k = u8 v.
Proof. intros ->. unfold st8, fupd. by rewrite Z.eqb_refl. Qed.

(** Word [n] after byte [b] has been replaced by [v]. *)
Definition put_byte (s : mini) (n b v : Z) (s' : mini) : Prop :=
  vb s' n 0 = (if b =? 0 then v else vb s n 0) /\ vb s' n 1 = (if b =? 1 then v else vb s n 1) /\
  vb s' n 2 = (if b =? 2 then v else vb s n 2) /\ vb s' n 3 = (if b =? 3 then v else vb s n 3).

Lemma sb_v_spec r n b s : env s -> 1 <= n <= 7 -> 0 <= b < 4 ->
  spec (sb_v r n b) s [] [n] false (put_byte s n b (byte 0 (rget s r))).
Proof.
  intros E Hn Hb. pose proof (var_addr s n b E Hn Hb) as Ha.
  assert (mbytes (exs (sb_v r n b) s) = st8 (mbytes s) (rget s sp + sp_var_byte n b) (rget s r)) as Em by done.
  assert (rget (exs (sb_v r n b) s) sp = rget s sp) as Er by done.
  apply spec_intro; try done.
  - cbn. rewrite andb_true_r. lia.
  - notin.
  - constructor; [done| |by apply (exs_wf (sb_v r n b))]. intros a Hs _. rewrite Em. apply st8_other.
    rewrite Ha. intros ->. apply (Hs n); [by left|]. unfold slot. lia.
  - assert (forall k, vb (exs (sb_v r n b) s) n k = if b =? k then byte 0 (rget s r) else vb s n k) as H.
    { intros k. unfold vb. rewrite Em, Er. destruct (Z.eqb_spec b k) as [<-|].
      - rewrite st8_same by (symmetry; exact Ha). apply u8_byte.
      - apply st8_other. rewrite Ha. lia. }
    split_and!; apply H.
Qed.

Lemma push_spec r n s : env s -> 1 <= n <= 7 ->
  spec (PUSH r n) s [] [n] false (fun s' =>
    vb s' n 0 = byte 0 (rget s r) /\ vb s' n 1 = byte 1 (rget s r) /\
    vb s' n 2 = byte 2 (rget s r) /\ vb s' n 3 = byte 3 (rget s r)).
Proof.
  intros E Hn. pose proof (fun b H => var_addr s n b E Hn H) as Ha.
  assert (forall b, rget s sp + sp_var n + b = rget s sp + sp_var_byte n b) as Eb
    by (intros; unfold sp_var, sp_var_byte; lia).
  assert (forall v, mbytes (exs (PUSH r n) s) v = st32 (mbytes s) (rget s sp + sp_var n) (rget s r) v) as Em by done.
  unfold st32 in Em. rewrite !Eb in Em.
  apply spec_intro; try done.
  - cbn. rewrite andb_true_r. lia.
  - notin.
  - constructor; [done| |by apply (exs_wf (PUSH r n))]. intros a Hs _. rewrite Em.
    assert (~ slot (rget s sp) n a) as Hna by (apply Hs; by left). unfold slot in Hna.
    assert (rget s sp + sp_var n = rget s sp + sp_var_byte n 0) as -> by (unfold sp_var; lia).
    rewrite !st8_other; [done|rewrite Ha; lia..].
  - unfold vb. assert (rget (exs (PUSH r n) s) sp = rget s sp) as -> by done. rewrite !Em.
    assert (rget s sp + sp_var n = rget s sp + sp_var_byte n 0) as -> by (unfold sp_var; lia).
    split_and!.
    + rewrite (st8_other _ (_ + sp_var_byte _ 3)), (st8_other _ (_ + sp_var_byte _ 2)),
        (st8_other _ (_ + sp_var_byte _ 1)) by (rewrite Ha; lia).
      rewrite st8_same by (rewrite Ha; lia). apply u8_byte.
    + rewrite (st8_other _ (_ + sp_var_byte _ 3)), (st8_other _ (_ + sp_var_byte _ 2)) by (rewrite Ha; lia).
      rewrite st8_same by (rewrite Ha; lia). by apply (u8_shiftr _ 1).
    + rewrite (st8_other _ (_ + sp_var_byte _ 3)) by (rewrite Ha; lia).
      rewrite st8_same by (rewrite Ha; lia). by apply (u8_shiftr _ 2).
    + rewrite st8_same by (rewrite Ha; lia). by apply (u8_shiftr _ 3).
Qed.

(** [lui] and [addi] load any address. *)
Lemma la_value a : in_u 32 a -> u32 (u32 (Z.shiftl (hi20 a) 12) + lo12 a) = a.
Proof.
  intros H. rewrite wrap_add_l. unfold hi20, lo12, sgn.
  rewrite Z.shiftl_mul_pow2, Z.shiftr_div_pow2 by lia. change 0xfffff with (Z.ones 20).
  rewrite Z.land_ones by lia. destruct (Z.ltb_spec (wrap 12 a) (2 ^ (12 - 1))); bytes_lia.
Qed.

Lemma la_spec r a s : env s -> r <> sp -> r <> 0 -> in_u 32 a ->
  spec (la r a) s [r] [] false (fun s' => rget s' r = a).
Proof.
  intros E Hr H0 Ha. apply spec_intro; try done.
  - notin.
  - apply (chg_trans y _ _ _ [r] [] false [r] [] false s (rset s r (Z.shiftl (hi20 a) 12))); try done;
      [apply rset_chg|apply rset_chg|notin].
  - unfold exs, la. cbn [fold_left exec]. rewrite !rget_same by done. by apply la_value.
Qed.
End Pieces.

(** Run the first piece of code by its specification, and extend the account [Acc] of
    what has changed since the start. *)
Ltac use_facts s F :=
  repeat match goal with
  | H : rget s ?r = _ |- _ => rewrite H in F
  | H : vb s ?n ?b = _ |- _ => rewrite H in F
  | H : mbytes s ?a = _ |- _ => rewrite H in F
  end.

Ltac lit_shift :=
  repeat match goal with
  | |- context [Z.shiftl (Zpos ?a) (Zpos ?b)] =>
      let v := eval vm_compute in (Z.shiftl (Zpos a) (Zpos b)) in
      change (Z.shiftl (Zpos a) (Zpos b)) with v
  end.
(** An address computed from register values. *)
Ltac addr_eq :=
  lazymatch goal with
  | |- u32 (rget ?s ?r + ?o) = ?a =>
      match goal with H : rget s r = _ |- _ => rewrite H end;
      rewrite ?wrap_add_l, ?Z.add_0_r, ?wrap_wrap, ?wrap_add_r, ?wrap_add_l;
      transitivity (u32 a); [f_equal; lit_shift; lia|apply wrap_id; assumption]
  end.
Ltac side := first [assumption|addr_eq|regnum; lia|done].
Ltac premises H :=
  repeat lazymatch type of H with
  | ?P -> _ => let h := fresh "h" in assert (h : P) by side; specialize (H h); clear h
  end.

Ltac fact F :=
  lazymatch type of F with
  | _ /\ _ => let a := fresh "F" in let b := fresh "F" in destruct F as [a b]; fact a; fact b
  | rd_is ?r ?v ?s => try (apply rd_is_nz in F; [|regnum; lia])
  | _ => idtac
  end.

(** [L] is a specification lemma without its last arguments, the state and the
    conditions on it. *)
Ltac step L :=
  lazymatch goal with
  | E : env _ ?s |- _ =>
      let H := fresh "H" in
      pose proof (L s E) as H; premises H;
      lazymatch type of H with
      | spec _ ?c _ _ _ _ _ =>
          let E' := fresh "E" in let C := fresh "C" in let F := fresh "F" in
          destruct H as (E' & C & F);
          generalize dependent (exs c s);
          let s' := fresh "st" in intros s' E' C F;
          cbv delta [VAR_A VAR_B VAR_C VAR_D] in F, C; unfold vw, put_byte in F; use_facts s F;
          cbn [Z.eqb Pos.eqb] in F;
          carry E C;
          lazymatch goal with
          | Acc : chg _ ?rs ?ns ?arr ?i s |- _ =>
              let Acc' := fresh "Acc" in
              assert (Acc' : chg _ rs ns arr i s') by
                (apply (chg_trans _ _ _ _ _ _ _ _ _ _ _ _ _ Acc C); [notin|done|incl|done|incl|reflexivity]);
              clear Acc C
          end;
          try clear E; fact F
      end
  end.

(** Begin with nothing changed; end with the account and the facts. *)
Ltac start :=
  unfold spec; rewrite ?exs_app;
  lazymatch goal with
  | |- env ?y _ /\ chg ?y ?rs ?ns ?arr ?s _ /\ _ =>
      let Acc := fresh "Acc" in pose proof (chg_refl y rs ns arr s) as Acc
  end.
Ltac finish := split; [assumption|split; [assumption|]].

(** Choose the specification by the first piece of code. *)
Ltac split_code :=
  repeat match goal with
  | |- context [exs (?i :: ?j :: ?l) ?s] => rewrite (exs_two i j l s)
  end.
Ltac step_base :=
  split_code;
  lazymatch goal with
  | E : env ?y ?s |- _ =>
      match goal with
      | |- context [exs (PUSH ?r ?n) s] => step (push_spec y r n)
      | |- context [exs (POP ?r ?n) s] => step (pop_spec y r n)
      | |- context [exs (lbu_v ?r ?n ?b) s] => step (lbu_v_spec y r n b)
      | |- context [exs (sb_v ?r ?n ?b) s] => step (sb_v_spec y r n b)
      | |- context [exs (la ?r ?a) s] => step (la_spec y r a)
      | |- context [exs [Add ?r ?a ?b] s] => step (add_spec y r a b)
      | |- context [exs [Addi ?r ?a ?b] s] => step (addi_spec y r a b)
      | |- context [exs (mv ?r ?a) s] => unfold mv; step (addi_spec y r a 0)
      | |- context [exs (li ?r ?a) s] => unfold li; step (addi_spec y r x0 a)
      end
  end.

(** * Macros without tables *)

Section Small.
Variable y : symbols.
Abbreviation env := (env y).
Abbreviation spec := (spec y).

Lemma four b : 0 <= b < 4 -> b = 0 \/ b = 1 \/ b = 2 \/ b = 3.
Proof. lia. Qed.

Lemma getbyte_spec rd rs1 b s : env s -> rd <> sp -> 0 <= b < 4 ->
  spec (getbyte rd rs1 b) s [rd] [6] false (rd_is rd (byte b (rget s rs1))).
Proof.
  intros E Hr Hb. remember (rget s rs1) as a eqn:Ha. symmetry in Ha. unfold getbyte. start.
  step_base. destruct (four b Hb) as [-> | [-> | [-> | ->]]]; step_base; finish; done.
Qed.

(** Doubling [k] times. *)
Lemma double_spec rd k s x : env s -> rd <> sp -> in_u 32 x -> rd_is rd x s ->
  spec (repeat (Add rd rd rd) k) s [rd] [] false (rd_is rd (u32 (x * 2 ^ Z.of_nat k))).
Proof.
  intros E Hr Hx. revert s E x Hx. induction k as [|k IH]; intros s E x Hx Hs.
  - apply spec_intro; [done|done|notin|apply chg_refl|]. cbn. rewrite Z.mul_1_r, wrap_id by done. exact Hs.
  - cbn [repeat]. change (Add rd rd rd :: repeat (Add rd rd rd) k)
      with ([Add rd rd rd] ++ repeat (Add rd rd rd) k). start.
    destruct (add_spec y rd rd rd s E Hr) as (E1 & C1 & F1).
    assert (rd_is rd (u32 (x + x)) (exs [Add rd rd rd] s)) as F2.
    { unfold rd_is in *. destruct (rd =? 0); [done|]. by rewrite F1, Hs. }
    destruct (IH _ E1 _ (wrap_in_u 32 (x + x) ltac:(lia)) F2) as (E2 & C2 & F3).
    split_and!; [done| |].
    + apply (chg_trans _ _ _ _ _ _ _ _ _ _ _ _ _ C1 C2); [notin|done|done|done|done|done].
    + replace (x * 2 ^ Z.of_nat (S k)) with ((x + x) * 2 ^ Z.of_nat k); [by rewrite wrap_mul_l in F3|].
      rewrite Nat2Z.inj_succ, Z.pow_succ_r by lia. ring.
Qed.

(** The part of [slli] that adds. *)
Lemma slli_low rd rs1 imm s : env s -> rd <> sp -> 1 <= imm < 16 ->
  spec (slli rd rs1 imm) s [rd] [] false (rd_is rd (u32 (rget s rs1 * 2 ^ imm))).
Proof.
  intros E Hr Hi. unfold slli. cbn [slli_rec].
  rewrite (proj2 (Z.eqb_neq imm 0)), (proj2 (Z.leb_gt 24 imm)), (proj2 (Z.leb_gt 16 imm)) by lia.
  change (Add rd rs1 rs1 :: ?l) with ([Add rd rs1 rs1] ++ l). start.
  destruct (add_spec y rd rs1 rs1 s E Hr) as (E1 & C1 & F1).
  destruct (double_spec rd (Z.to_nat (imm - 1)) _ _ E1 Hr (wrap_in_u 32 _ ltac:(lia)) F1) as (E2 & C2 & F3).
  split_and!; [done| |].
  - apply (chg_trans _ _ _ _ _ _ _ _ _ _ _ _ _ C1 C2); [notin|done|done|done|done|done].
  - rewrite wrap_mul_l, Z2Nat.id in F3 by lia.
    replace (rget s rs1 * 2 ^ imm) with ((rget s rs1 + rget s rs1) * 2 ^ (imm - 1)); [done|].
    replace imm with (Z.succ (imm - 1)) at 2 by lia. rewrite Z.pow_succ_r by lia. ring.
Qed.
End Small.
(** * Macros with tables *)

Ltac step_small :=
  first [ step_base
        | lazymatch goal with
          | E : env ?y ?s |- _ =>
              match goal with
              | |- context [exs (getbyte ?r ?a ?b) s] => step (getbyte_spec y r a b)
              | |- context [exs (slli ?r ?a ?k) s] => step (slli_low y r a k)
              end
          end ].

Section Tables.
Variable y : symbols.
Abbreviation env := (env y).
Abbreviation spec := (spec y).

Lemma msb_value a : in_u 32 a -> byte 1 (u32 (byte 3 a * 2 ^ 1)) = a / 2 ^ 31.
Proof. intros. bytes_lia. Qed.

Lemma msb_spec rd rs1 s : env s -> rd <> sp -> rd <> 0 ->
  spec (msb rd rs1) s [rd] [6] false (fun s' => rget s' rd = rget s rs1 / 2 ^ 31).
Proof.
  intros E Hr H0. pose proof (rget_u32 s rs1 (env_wf _ _ E)) as Hu.
  remember (rget s rs1) as a eqn:Ha. symmetry in Ha. unfold msb. start.
  step (getbyte_spec y rd rs1 3). step_small. step (getbyte_spec y rd rd 1). finish.
  rewrite <- msb_value by done. congruence.
Qed.

(** ** Reading the tables *)

Lemma table_read s base bs k : table_at y s base bs -> 0 <= k < Z.of_nat (length bs) ->
  mbytes s (base + k) = nth (Z.to_nat k) bs 0 /\ in_u 32 (base + k).
Proof. intros (H0 & H1 & H) Hk. split; [by apply H|unfold in_u; lia]. Qed.

Lemma lut_read s k : env s -> 0 <= k < 294912 ->
  mbytes s (logic_shift_table y + k) = nth (Z.to_nat k) lut_bin 0 /\ in_u 32 (logic_shift_table y + k).
Proof. intros E Hk. apply table_read; [apply E|by rewrite lut_length]. Qed.

(** A byte table of [lut.bin] at [base]. *)
Definition logic_table (base : Z) (f : Z -> Z -> Z) : Prop := forall s j i, env s ->
  0 <= j < 256 -> 0 <= i < 256 ->
  mbytes s (base + (j * 256 + i)) = f j i /\ in_u 32 (base + (j * 256 + i)).

Lemma bitop_byte j i : 0 <= j < 256 -> 0 <= i < 256 ->
  0 <= Z.land j i < 256 /\ 0 <= Z.lor j i < 256 /\ 0 <= Z.lxor j i < 256.
Proof.
  intros Hj Hi. assert (forall x, 0 <= x -> Z.log2 x < 8 -> x < 256) as Hl.
  { intros x Hx Hl. destruct (Z.eq_dec x 0); [lia|]. apply Z.log2_lt_pow2 in Hl; lia. }
  assert (forall x, 0 <= x < 256 -> Z.log2 x < 8) as Hb.
  { intros x Hx. destruct (Z.eq_dec x 0) as [->|]; [done|]. apply Z.log2_lt_pow2; lia. }
  pose proof (Hb j Hj). pose proof (Hb i Hi).
  pose proof (Z.log2_land j i ltac:(lia) ltac:(lia)). pose proof (Z.log2_lxor j i ltac:(lia) ltac:(lia)).
  assert (0 <= Z.land j i) by (apply Z.land_nonneg; lia).
  assert (0 <= Z.lor j i) by (apply Z.lor_nonneg; lia).
  assert (0 <= Z.lxor j i) by (apply Z.lxor_nonneg; lia).
  split_and!; try done; apply Hl; rewrite ?Z.log2_lor; lia.
Qed.

Lemma and_table : logic_table (and8_table y) Z.land.
Proof.
  intros s j i E Hj Hi. unfold and8_table. destruct (lut_read s (j * 256 + i) E) as [-> Hu]; [lia|].
  split; [|done]. rewrite (proj1 (lut_parts _)) by lia.
  apply (logic_entry (fun j i => Z.land j i)); [done..|by apply bitop_byte].
Qed.

Lemma or_table : logic_table (or8_table y) Z.lor.
Proof.
  intros s j i E Hj Hi. unfold or8_table, and8_table.
  replace (logic_shift_table y + 256 * 256 + (j * 256 + i)) with (logic_shift_table y + (65536 + (j * 256 + i))) by lia.
  destruct (lut_read s (65536 + (j * 256 + i)) E) as [-> Hu]; [lia|]. split; [|done].
  rewrite (proj1 (proj2 (lut_parts _))) by lia.
  apply (logic_entry (fun j i => Z.lor j i)); [done..|by apply bitop_byte].
Qed.

Lemma xor_table : logic_table (xor8_table y) Z.lxor.
Proof.
  intros s j i E Hj Hi. unfold xor8_table, or8_table, and8_table.
  replace (logic_shift_table y + 256 * 256 + 256 * 256 + (j * 256 + i))
    with (logic_shift_table y + (131072 + (j * 256 + i))) by lia.
  destruct (lut_read s (131072 + (j * 256 + i)) E) as [-> Hu]; [lia|]. split; [|done].
  rewrite (proj1 (proj2 (proj2 (lut_parts _)))) by lia.
  apply (logic_entry (fun j i => Z.lxor j i)); [done..|by apply bitop_byte].
Qed.

(** [lbu rd, off(base)] of a byte known to be [v]. *)
Lemma lbu_known rd off base a v s : env s -> rd <> sp -> u32 (rget s base + off) = a -> mbytes s a = v ->
  spec [Lbu rd off base] s [rd] [] false (rd_is rd v).
Proof. intros E Hr Ha <-. by apply lbu_at. Qed.

(** ** Complement and subtraction *)

Lemma lxor_255 x : 0 <= x < 256 -> Z.lxor 255 x = 255 - x.
Proof.
  intros Hx. assert (Z.lxor 255 x = Z.land (Z.lnot x) 255) as ->.
  { apply Z.bits_inj'. intros n Hn. rewrite Z.lxor_spec, Z.land_spec, Z.lnot_spec by lia.
    change 255 with (Z.ones 8). destruct (Z.ltb_spec n 8).
    - rewrite Z.ones_spec_low by lia. by destruct (Z.testbit x n).
    - rewrite Z.ones_spec_high by lia. rewrite andb_false_r.
      rewrite <- (Z.mod_small x (2 ^ 8)) by lia. by rewrite Z.mod_pow2_bits_high by lia. }
  change 255 with (Z.ones 8). rewrite Z.land_ones by lia. unfold Z.lnot. change (Z.ones 8) with 255.
  symmetry. apply Zmod_unique with (-1); lia.
Qed.

Lemma not_byte_spec b s : env s -> 0 <= b < 4 -> rget s tp = xor8_table y + Z.shiftl 0xff 8 ->
  spec (not_byte b) s [gp] [7] false (put_byte s 7 b (255 - vb s 6 b)).
Proof.
  intros E Hb Ht. pose proof (env_byte y s (rget s sp - 6 * 4 + b) E) as Hx. fold (vb s 6 b) in Hx.
  remember (vb s 6 b) as x eqn:Ex. symmetry in Ex. unfold put_byte.
  remember (vb s 7 0) as d0 eqn:E0; remember (vb s 7 1) as d1 eqn:E1; remember (vb s 7 2) as d2 eqn:E2;
    remember (vb s 7 3) as d3 eqn:E3; symmetry in E0, E1, E2, E3.
  unfold not_byte. start. do 2 step_base.
  lazymatch goal with E : env ?st |- _ => destruct (xor_table st 255 x E) as [Hm Hu]; [lia|lia|] end.
  rewrite lxor_255 in Hm by done. step (lbu_known gp 0 gp (xor8_table y + (255 * 256 + x)) (255 - x)).
  assert (byte 0 (255 - x) = 255 - x) by bytes_lia.
  destruct (four b Hb) as [-> | [-> | [-> | ->]]]; step_base; finish; split_and!; cbn; congruence.
Qed.

Lemma not_value a : in_u 32 a ->
  (255 - byte 0 a) + 2 ^ 8 * (255 - byte 1 a) + 2 ^ 16 * (255 - byte 2 a) + 2 ^ 24 * (255 - byte 3 a)
  = 2 ^ 32 - 1 - a.
Proof. intros H. pose proof (word_bytes a H). lia. Qed.

Lemma xor_row_u32 s : env s -> in_u 32 (xor8_table y + Z.shiftl 0xff 8).
Proof. intros E. by apply (xor_table s 255 0 E). Qed.

Lemma not_spec rd rs1 s : env s -> rd <> sp -> rd <> gp ->
  spec (not_ y rd rs1) s [rd; tp] [3; 6; 7] false (rd_is rd (2 ^ 32 - 1 - rget s rs1)).
Proof.
  intros E Hr Hg. pose proof (xor_row_u32 s E). pose proof (rget_u32 s rs1 (env_wf _ _ E)) as Hu.
  pose proof (rget_u32 s gp (env_wf _ _ E)) as Hu'.
  apply (spec_restore y gp).
  remember (rget s rs1) as a eqn:Ea; remember (rget s gp) as g eqn:Eg. symmetry in Ea, Eg.
  rewrite <- not_value by done.
  unfold not_. start. do 3 step_base.
  step (not_byte_spec 3). step (not_byte_spec 2). step (not_byte_spec 1). step (not_byte_spec 0).
  do 2 step_base. finish. split; [|done]. rewrite (word_bytes g) by done. done.
Qed.

Lemma sub_value a b : in_u 32 b -> u32 (u32 (a + (2 ^ 32 - 1 - b)) + 1) = u32 (a - b).
Proof.
  intros H. rewrite wrap_add_l. replace (a + (2 ^ 32 - 1 - b) + 1) with (a - b + 1 * 2 ^ 32) by lia.
  apply wrap_shift.
Qed.

Lemma sub_spec rd rs1 rs2 s : env s -> rd <> sp -> rs1 <> tp ->
  spec (sub y rd rs1 rs2) s [rd; tp] [3; 6; 7] false (rd_is rd (u32 (rget s rs1 - rget s rs2))).
Proof.
  intros E Hr H1. pose proof (rget_u32 s rs2 (env_wf _ _ E)) as Hu.
  remember (rget s rs1) as a eqn:Ea; remember (rget s rs2) as b eqn:Eb. symmetry in Ea, Eb.
  rewrite <- sub_value by done. unfold sub. start. step (not_spec tp rs2).
  destruct (decide (rd = 0)) as [-> | Hx]; do 2 step_base; finish; [done|by apply rd_is_of].
Qed.
End Tables.
