(* ===== verification/MiniRvOps.v ===== *)
(** Correctness of the minirv comparisons and bitwise operations. *)

From S2P Require Import Prelude RvSpec MiniRv MiniRvTables MiniRvProof.

Ltac step_mid :=
  first [ step_small
        | lazymatch goal with
          | E : env ?y ?s |- _ =>
              match goal with
              | |- context [exs (msb ?r ?a) s] => step (msb_spec y r a)
              | |- context [exs (sub ?y ?r ?a ?b) s] => step (sub_spec y r a b)
              end
          end ].

(** Words that have been taken apart, and copies. *)
Ltac tidy :=
  repeat match goal with
  | Hu : in_u 32 ?a, H : context [byte 0 ?a + 2 ^ 8 * byte 1 ?a + 2 ^ 16 * byte 2 ?a + 2 ^ 24 * byte 3 ?a] |- _ =>
      rewrite <- (word_bytes a Hu) in H
  | Hu : in_u 32 ?a, H : context [u32 (?a + 0)] |- _ => rewrite Z.add_0_r, (wrap_id 32 a Hu) in H
  end.

Section Ops.
Variable y : symbols.
Abbreviation env := (env y).
Abbreviation spec := (spec y).

(** * Comparison *)

Definition slt_index (a b : Z) : Z := a / 2 ^ 31 * 4 + b / 2 ^ 31 * 2 + u32 (a - b) / 2 ^ 31.

Lemma slt_index_range a b : in_u 32 a -> in_u 32 b -> 0 <= slt_index a b < 8.
Proof. intros. unfold slt_index. bytes_lia. Qed.

Lemma slt_index_sum l a b :
  u32 (l + u32 (u32 (u32 (u32 (a / 2 ^ 31 * 2 ^ 1) + b / 2 ^ 31) * 2 ^ 1) + u32 (a - b) / 2 ^ 31))
  = u32 (l + slt_index a b).
Proof.
  unfold slt_index. generalize (a / 2 ^ 31), (b / 2 ^ 31), (u32 (a - b) / 2 ^ 31). intros p q r.
  rewrite (wrap_add_l 32 (p * 2 ^ 1) q), wrap_mul_l, (wrap_add_l 32 _ r), wrap_add_r. f_equal. ring.
Qed.

Lemma slt_index_cases a b : in_u 32 a -> in_u 32 b ->
  let i := slt_index a b in
  nth (Z.to_nat i) slt1_bytes 0 = alu_sem SLT a b /\ nth (Z.to_nat i) sltu1_bytes 0 = alu_sem SLTU a b.
Proof.
  intros Ha Hb i. pose proof (slt_index_range a b Ha Hb) as Hi. fold i in Hi. cbn [alu_sem].
  rewrite !(wrap_id 32) by done. unfold sgn. rewrite !(wrap_id 32) by done.
  assert (i = 0 \/ i = 1 \/ i = 2 \/ i = 3 \/ i = 4 \/ i = 5 \/ i = 6 \/ i = 7) as Hc by lia.
  unfold i, slt_index in Hc. clear Hi.
  repeat case_match; repeat (destruct Hc as [Hc|Hc]); fold (slt_index a b) in Hc; subst i; rewrite Hc;
    (split; [|]); try reflexivity; exfalso; unfold slt_index in Hc; bytes_lia.
Qed.

Definition slt_head (lut : Z) (rs1 rs2 : reg) : list binst :=
  PUSH s0 1 ++ PUSH s1 2 ++ PUSH rs2 VAR_A ++ mv s0 rs1 ++ POP s1 VAR_A ++
  msb gp s0 ++ slli gp gp 1 ++
  msb tp s1 ++ [Add gp gp tp] ++ slli gp gp 1 ++
  sub y tp s0 s1 ++ msb tp tp ++ [Add gp gp tp] ++
  la tp lut ++ [Add tp tp gp] ++ POP s1 2 ++ POP s0 1.

Lemma slt_template_head lut rd rs1 rs2 :
  slt_template y lut rd rs1 rs2 = slt_head lut rs1 rs2 ++ [Lbu rd 0 tp].
Proof. unfold slt_template, slt_head. by rewrite <- !app_assoc. Qed.

Lemma slt_head_spec lut rs1 rs2 s : env s -> in_u 32 lut ->
  spec (slt_head lut rs1 rs2) s [gp; tp] [1; 2; 3; 4; 6; 7] false (fun s' =>
    rget s' tp = u32 (lut + slt_index (rget s rs1) (rget s rs2))).
Proof.
  intros E Hl. pose proof (rget_u32 s rs1 (env_wf _ _ E)) as Ha. pose proof (rget_u32 s rs2 (env_wf _ _ E)) as Hb.
  pose proof (rget_u32 s s0 (env_wf _ _ E)) as H0. pose proof (rget_u32 s s1 (env_wf _ _ E)) as H1.
  apply (spec_restore y s0), (spec_restore y s1).
  remember (rget s rs1) as a eqn:Ea; remember (rget s rs2) as b eqn:Eb.
  remember (rget s s0) as v0 eqn:E0; remember (rget s s1) as v1 eqn:E1. symmetry in Ea, Eb, E0, E1.
  unfold slt_head. start. do 5 step_mid. tidy. do 12 step_mid. tidy. finish. split_and!; try done.
  etransitivity; [eassumption|]. apply slt_index_sum.
Qed.

(** The value left in [rd] by a base instruction that reads it from a table. *)
Lemma slt_template_spec lut bs (f : Z -> Z -> Z) rd rs1 rs2 s : env s -> rd <> sp ->
  table_at y s lut bs -> length bs = 8%nat ->
  (forall a b, in_u 32 a -> in_u 32 b -> nth (Z.to_nat (slt_index a b)) bs 0 = f a b) ->
  spec (slt_template y lut rd rs1 rs2) s [rd; gp; tp] [1; 2; 3; 4; 6; 7] false
    (rd_is rd (f (rget s rs1) (rget s rs2))).
Proof.
  intros E Hr T Hbs Hf. pose proof (rget_u32 s rs1 (env_wf _ _ E)) as Ha.
  pose proof (rget_u32 s rs2 (env_wf _ _ E)) as Hb. pose proof (slt_index_range _ _ Ha Hb) as Hi.
  assert (in_u 32 lut) as Hl by (destruct (table_read y _ _ _ 0 T); rewrite ?Hbs, ?Z.add_0_r in *; [lia|done]).
  rewrite slt_template_head. destruct (slt_head_spec lut rs1 rs2 s E Hl) as (E1 & C1 & F1).
  pose proof (table_chg y _ _ _ _ _ lut bs C1 eq_refl ltac:(notin) T) as T1.
  destruct (table_read y _ _ _ _ T1 ltac:(rewrite Hbs; exact Hi)) as [Hm Hu]. rewrite Hf in Hm by done.
  apply (spec_app y _ _ _ _ _ _ [gp; tp] [1; 2; 3; 4; 6; 7] false [rd] [] false
    (fun s' => s' = exs (slt_head lut rs1 rs2) s)); [by split_and!| |notin|incl|incl|done|incl|done].
  intros s' E' ->. eapply lbu_known; [done|done| |exact Hm]. rewrite F1, Z.add_0_r, wrap_wrap. by apply wrap_id.
Qed.

Lemma slt_spec rd rs1 rs2 s : env s -> rd <> sp ->
  spec (slt y rd rs1 rs2) s [rd; gp; tp] [1; 2; 3; 4; 6; 7] false
    (rd_is rd (alu_sem SLT (rget s rs1) (rget s rs2))).
Proof.
  intros E Hr. apply (slt_template_spec _ slt1_bytes); [exact E|exact Hr|exact (env_slt _ _ E)|done|]. intros. by apply slt_index_cases.
Qed.
Lemma sltu_spec rd rs1 rs2 s : env s -> rd <> sp ->
  spec (sltu y rd rs1 rs2) s [rd; gp; tp] [1; 2; 3; 4; 6; 7] false
    (rd_is rd (alu_sem SLTU (rget s rs1) (rget s rs2))).
Proof.
  intros E Hr. apply (slt_template_spec _ sltu1_bytes); [exact E|exact Hr|exact (env_sltu _ _ E)|done|]. intros. by apply slt_index_cases.
Qed.

(** * Bitwise operations *)

Lemma logic_byte_spec lut f r b s : logic_table y lut f -> env s -> 0 <= b < 4 -> r <> sp -> r <> tp ->
  rget s r = lut -> vb s 7 2 = 0 -> vb s 7 3 = 0 ->
  (forall j i, 0 <= j < 256 -> 0 <= i < 256 -> 0 <= f j i < 256) ->
  spec (logic8_byte_internal r b) s [tp] [6; 7] false (fun s' =>
    put_byte s 6 b (f (vb s 4 b) (vb s 5 b)) s' /\ vb s' 7 2 = 0 /\ vb s' 7 3 = 0).
Proof.
  intros L E Hb Hr Ht Hl H2 H3 Hf.
  pose proof (env_byte y s (rget s sp - 4 * 4 + b) E) as Hj. fold (vb s 4 b) in Hj.
  pose proof (env_byte y s (rget s sp - 5 * 4 + b) E) as Hi. fold (vb s 5 b) in Hi.
  remember (vb s 4 b) as j eqn:Ej; remember (vb s 5 b) as i eqn:Ei. symmetry in Ej, Ei.
  pose proof (Hf j i Hj Hi) as Hv. unfold put_byte.
  remember (vb s 6 0) as d0 eqn:E0; remember (vb s 6 1) as d1 eqn:E1; remember (vb s 6 2) as d2 eqn:E2;
    remember (vb s 6 3) as d3 eqn:E3; symmetry in E0, E1, E2, E3.
  assert (byte 0 j = j) as B1 by bytes_lia. assert (byte 0 i = i) as B2 by bytes_lia.
  assert (byte 0 (f j i) = f j i) as B3 by bytes_lia.
  unfold logic8_byte_internal. start. do 6 step_mid. rewrite B1, B2 in *.
  lazymatch goal with E : env ?st |- _ => destruct (L st j i E) as [Hm Hu]; [done|done|] end.
  step (lbu_known y tp 0 tp (lut + (j * 256 + i)) (f j i)).
  destruct (four b Hb) as [-> | [-> | [-> | ->]]]; step_mid; rewrite B3 in *; finish; cbn; by split_and!.
Qed.

(** [f] works on each byte of a word by itself. *)
Definition bytewise (f : Z -> Z -> Z) : Prop :=
  (forall a b k, 0 <= k -> byte k (f a b) = f (byte k a) (byte k b)) /\
  (forall a b, in_u 32 a -> in_u 32 b -> in_u 32 (f a b)).

Lemma byte_testbit k x n : 0 <= k -> 0 <= n -> Z.testbit (byte k x) n = (n <? 8) && Z.testbit x (n + 8 * k).
Proof.
  intros Hk Hn. unfold byte. destruct (Z.ltb_spec n 8).
  - rewrite Z.mod_pow2_bits_low by lia. by rewrite Z.div_pow2_bits by lia.
  - by rewrite Z.mod_pow2_bits_high by lia.
Qed.

Lemma bytewise_bits f (g : bool -> bool -> bool) :
  (forall a b n, 0 <= n -> Z.testbit (f a b) n = g (Z.testbit a n) (Z.testbit b n)) -> g false false = false ->
  bytewise f.
Proof.
  intros Hf Hg. split.
  - intros a b k Hk. apply Z.bits_inj'. intros n Hn.
    rewrite byte_testbit, !Hf, !byte_testbit by lia. by destruct (n <? 8).
  - intros a b Ha Hb. unfold in_u in *. assert (f a b = f a b mod 2 ^ 32) as ->; [|apply Z.mod_pos_bound; lia].
    apply Z.bits_inj'. intros n Hn. destruct (Z.ltb_spec n 32); [by rewrite Z.mod_pow2_bits_low by lia|].
    rewrite Z.mod_pow2_bits_high, Hf by lia.
    rewrite <- (Z.mod_small a (2 ^ 32)), <- (Z.mod_small b (2 ^ 32)) by done.
    by rewrite !Z.mod_pow2_bits_high by lia.
Qed.

Lemma bytewise_land : bytewise Z.land.
Proof. apply (bytewise_bits _ andb); [intros; apply Z.land_spec|done]. Qed.
Lemma bytewise_lor : bytewise Z.lor.
Proof. apply (bytewise_bits _ orb); [intros; apply Z.lor_spec|done]. Qed.
Lemma bytewise_lxor : bytewise Z.lxor.
Proof. apply (bytewise_bits _ xorb); [intros; apply Z.lxor_spec|done]. Qed.

Lemma bytewise_word f a b : bytewise f -> in_u 32 a -> in_u 32 b ->
  f a b = f (byte 0 a) (byte 0 b) + 2 ^ 8 * f (byte 1 a) (byte 1 b) +
    2 ^ 16 * f (byte 2 a) (byte 2 b) + 2 ^ 24 * f (byte 3 a) (byte 3 b).
Proof. intros [H Hu] Ha Hb. rewrite <- !H by lia. apply word_bytes. by apply Hu. Qed.

Lemma logic_spec lut f rd rs1 rs2 c s : logic_table y lut f -> bytewise f -> in_u 32 lut ->
  logic lut rd rs1 rs2 = Some c -> env s ->
  spec c s [rd; tp] [4; 5; 6; 7] false (rd_is rd (f (rget s rs1) (rget s rs2))).
Proof.
  intros L Hf Hl Hc E. pose proof (rget_u32 s rs1 (env_wf _ _ E)) as Ha.
  pose proof (rget_u32 s rs2 (env_wf _ _ E)) as Hb. unfold logic in Hc.
  destruct (Z.eqb_spec rd x0) as [-> | Hx].
  { simplify_eq. apply spec_intro; [done|done|notin|apply chg_refl|done]. }
  destruct (Z.eqb_spec rd sp) as [|Hr]; [done|]. destruct (Z.eqb_spec rs1 sp); [done|].
  destruct (Z.eqb_spec rs2 sp); [done|]. cbn [orb] in Hc.
  destruct (Z.eqb_spec rd gp); [done|]. destruct (Z.eqb_spec rs1 gp); [done|].
  destruct (Z.eqb_spec rs2 gp); [done|]. cbn [orb] in Hc.
  destruct (Z.eqb_spec rd tp) as [|Ht]; [done|]. destruct (Z.eqb_spec rs1 tp); [done|]. cbn [orb] in Hc.
  apply (inj Some) in Hc as <-. rewrite (bytewise_word f) by done.
  assert (forall j i, 0 <= j < 256 -> 0 <= i < 256 -> 0 <= f j i < 256) as Hv.
  { intros j i Hj Hi. assert (f j i = byte 0 (f j i)) as ->; [|apply byte_range].
    rewrite (proj1 Hf) by lia. f_equal; bytes_lia. }
  remember (rget s rs1) as a eqn:Ea; remember (rget s rs2) as b eqn:Eb. symmetry in Ea, Eb.
  assert (rget s x0 = 0) by done.
  start. do 4 step_mid. change (byte 2 0) with 0 in *. change (byte 3 0) with 0 in *.
  step (fun s => logic_byte_spec lut f rd 3 s L). step (fun s => logic_byte_spec lut f rd 2 s L).
  step (fun s => logic_byte_spec lut f rd 1 s L). step (fun s => logic_byte_spec lut f rd 0 s L).
  step_mid. finish. by apply rd_is_of.
Qed.

Lemma and_spec rd rs1 rs2 c s : and_ y rd rs1 rs2 = Some c -> env s ->
  spec c s [rd; tp] [4; 5; 6; 7] false (rd_is rd (alu_sem AND (rget s rs1) (rget s rs2))).
Proof.
  intros H E. apply (logic_spec (and8_table y) Z.land rd rs1 rs2); [apply and_table|apply bytewise_land| |exact H|exact E].
  rewrite <- (Z.add_0_r (and8_table y)). by apply (and_table y s 0 0 E).
Qed.
Lemma or_spec rd rs1 rs2 c s : or_ y rd rs1 rs2 = Some c -> env s ->
  spec c s [rd; tp] [4; 5; 6; 7] false (rd_is rd (alu_sem OR (rget s rs1) (rget s rs2))).
Proof.
  intros H E. apply (logic_spec (or8_table y) Z.lor rd rs1 rs2); [apply or_table|apply bytewise_lor| |exact H|exact E].
  rewrite <- (Z.add_0_r (or8_table y)). by apply (or_table y s 0 0 E).
Qed.
Lemma xor_spec rd rs1 rs2 c s : xor_ y rd rs1 rs2 = Some c -> env s ->
  spec c s [rd; tp] [4; 5; 6; 7] false (rd_is rd (alu_sem XOR (rget s rs1) (rget s rs2))).
Proof.
  intros H E. apply (logic_spec (xor8_table y) Z.lxor rd rs1 rs2); [apply xor_table|apply bytewise_lxor| |exact H|exact E].
  rewrite <- (Z.add_0_r (xor8_table y)). by apply (xor_table y s 0 0 E).
Qed.

(** * Equality *)

(** A byte stored in the array. *)
Lemma sb_arr r base off k j s : env s -> 0 <= k < 256 -> 0 <= j < 256 ->
  u32 (rget s base + off) = check_same_array y + k ->
  spec [Sb r off base] s [] [] true (fun s' => mbytes s' (check_same_array y + j) =
    if j =? k then byte 0 (rget s r) else mbytes s (check_same_array y + j)).
Proof.
  intros E Hk Hj Ha.
  assert (mbytes (exs [Sb r off base] s) = st8 (mbytes s) (rget s base + off) (rget s r)) as Em by done.
  apply spec_intro; [done|done|notin| |].
  - constructor; [done| |by apply (exs_wf [_])]. intros a _ H. rewrite Em. apply st8_other. rewrite Ha.
    intros ->. apply H; [done|]. unfold in_array. lia.
  - rewrite Em. destruct (Z.eqb_spec j k) as [-> | Hne].
    + rewrite st8_same by done. apply u8_byte.
    + apply st8_other. rewrite Ha. lia.
Qed.

Lemma check_8bit_same_spec rd b s : env s -> 0 <= b < 4 -> rd <> sp -> rd <> 0 -> rd <> s0 -> rd <> tp ->
  rget s s0 = check_same_array y ->
  spec (check_8bit_same s0 rd b) s [rd; tp] [] true (fun s' =>
    rget s' rd = if vb s 4 b =? vb s 5 b then 0 else 1).
Proof.
  intros E Hb Hr Hx Hs Ht Hl.
  pose proof (env_byte y s (rget s sp - 4 * 4 + b) E) as Hj. fold (vb s 4 b) in Hj.
  pose proof (env_byte y s (rget s sp - 5 * 4 + b) E) as Hi. fold (vb s 5 b) in Hi.
  remember (vb s 4 b) as j eqn:Ej; remember (vb s 5 b) as i eqn:Ei. symmetry in Ej, Ei.
  destruct (env_arr _ _ E) as [A0 A1].
  assert (in_u 32 (check_same_array y + j)) by (unfold in_u; lia).
  assert (in_u 32 (check_same_array y + i)) by (unfold in_u; lia).
  assert (rget s x0 = 0) by done.
  unfold check_8bit_same. start. do 3 step_mid. step (sb_arr rd tp 0 j j). rewrite Z.eqb_refl in *.
  do 2 step_mid. step (sb_arr x0 rd 0 i j). 
  step (lbu_known y rd 0 tp (check_same_array y + j) (if j =? i then 0 else 1)).
  finish. done.
Qed.

(** The number of bytes in which two words differ, as the code adds it up. *)
Definition diff_count (a b : Z) : Z :=
  let d k := if byte k a =? byte k b then 0 else 1 in u32 (u32 (u32 (d 0 + d 1) + d 2) + d 3).

Lemma diff_count_value a b : in_u 32 a -> in_u 32 b ->
  0 <= diff_count a b < 8 /\
  nth (Z.to_nat (diff_count a b)) same_result_bytes 0 = (if a =? b then 1 else 0).
Proof.
  intros Ha Hb. pose proof (word_bytes a Ha) as Wa. pose proof (word_bytes b Hb) as Wb.
  assert (a = b <-> byte 0 a = byte 0 b /\ byte 1 a = byte 1 b /\ byte 2 a = byte 2 b /\ byte 3 a = byte 3 b) as Hab
    by (split; [by intros ->|intros (B0 & B1 & B2 & B3); lia]).
  unfold diff_count.
  destruct (Z.eqb_spec (byte 0 a) (byte 0 b)), (Z.eqb_spec (byte 1 a) (byte 1 b)),
    (Z.eqb_spec (byte 2 a) (byte 2 b)), (Z.eqb_spec (byte 3 a) (byte 3 b)), (Z.eqb_spec a b);
    (split; [vm_compute; split; [discriminate|reflexivity]|]); try reflexivity; exfalso; tauto.
Qed.

(** Reading [same_result_table]. *)
Lemma same_read s a b : env s -> in_u 32 a -> in_u 32 b ->
  mbytes s (same_result_table y + diff_count a b) = (if a =? b then 1 else 0) /\
  in_u 32 (same_result_table y + diff_count a b) /\ in_u 32 (same_result_table y).
Proof.
  intros E Ha Hb. destruct (diff_count_value a b Ha Hb) as [Hr Hv]. rewrite <- Hv.
  destruct (table_read y s _ _ (diff_count a b) (env_same _ _ E) Hr) as [Hm Hu].
  split_and!; try done. pose proof (proj1 (env_same _ _ E)). unfold in_u in *. lia.
Qed.

Ltac same_lookup a b :=
  lazymatch goal with
  | F : rget ?st tp = u32 (_ + ?g), E : env ?st, Ha : in_u 32 a |- context [exs [Lbu ?rd 0 tp] ?st] =>
      change g with (diff_count a b) in F;
      let Hm := fresh "Hm" in
      pose proof (proj1 (same_read st a b E Ha ltac:(first [assumption|done]))) as Hm;
      step (lbu_known y rd 0 tp (same_result_table y + diff_count a b) (if a =? b then 1 else 0))
  end.

Lemma seq_spec rd rs1 rs2 s : env s -> rd <> sp -> rd <> s0 -> rd <> s1 ->
  spec (seq_ y rd rs1 rs2) s [rd; gp; tp] [1; 2; 4; 5] true
    (rd_is rd (if rget s rs1 =? rget s rs2 then 1 else 0)).
Proof.
  intros E Hr Hn0 Hn1. pose proof (rget_u32 s rs1 (env_wf _ _ E)) as Ha.
  pose proof (rget_u32 s rs2 (env_wf _ _ E)) as Hb.
  pose proof (rget_u32 s s0 (env_wf _ _ E)) as H0. pose proof (rget_u32 s s1 (env_wf _ _ E)) as H1.
  apply (spec_restore y s0), (spec_restore y s1).
  remember (rget s rs1) as a eqn:Ea; remember (rget s rs2) as b eqn:Eb.
  remember (rget s s0) as v0 eqn:E0; remember (rget s s1) as v1 eqn:E1. symmetry in Ea, Eb, E0, E1.
  assert (in_u 32 (check_same_array y)) by (destruct (env_arr _ _ E); unfold in_u; lia).
  destruct (same_read s a b E Ha Hb) as (_ & Hu & Hl).
  unfold seq_. start. do 5 step_mid.
  step (check_8bit_same_spec gp 0). step (check_8bit_same_spec s1 1). step_mid.
  step (check_8bit_same_spec s1 2). step_mid. step (check_8bit_same_spec s1 3). step_mid. do 2 step_mid.
  same_lookup a b. do 2 step_mid. tidy. finish. by split_and!.
Qed.

Lemma check_8bit_0_spec rd b s : env s -> 0 <= b < 4 -> rd <> sp -> rd <> 0 -> rd <> s0 ->
  rget s s0 = check_8bit_0_table y ->
  spec (check_8bit_0 s0 rd b) s [rd] [] false (fun s' => rget s' rd = if vb s 4 b =? 0 then 0 else 1).
Proof.
  intros E Hb Hr Hx Hs Hl.
  pose proof (env_byte y s (rget s sp - 4 * 4 + b) E) as Hj. fold (vb s 4 b) in Hj.
  remember (vb s 4 b) as j eqn:Ej. symmetry in Ej.
  unfold check_8bit_0. start. do 2 step_mid.
  lazymatch goal with E : env ?st |- _ => destruct (table_read y st _ _ j (env_zero _ _ E)) as [Hm Hu] end; [done|].
  assert (nth (Z.to_nat j) check_8bit_0_bytes 0 = if j =? 0 then 0 else 1) as Hv.
  { clear -Hj. destruct (Z.eqb_spec j 0) as [-> | Hne]; [done|]. unfold check_8bit_0_bytes.
    replace (Z.to_nat j) with (S (Z.to_nat (j - 1))) by lia. cbn [nth].
    rewrite nth_indep with (d' := 1) by (rewrite repeat_length; lia). apply nth_repeat. }
  rewrite Hv in Hm. step (lbu_known y rd 0 rd (check_8bit_0_table y + j) (if j =? 0 then 0 else 1)). finish. done.
Qed.

Lemma seqz_spec rd rs1 s : env s -> rd <> sp -> rd <> s0 ->
  spec (seqz y rd rs1) s [rd; gp; tp] [1; 4] false (rd_is rd (if rget s rs1 =? 0 then 1 else 0)).
Proof.
  intros E Hr Hn0. pose proof (rget_u32 s rs1 (env_wf _ _ E)) as Ha.
  pose proof (rget_u32 s s0 (env_wf _ _ E)) as H0.
  apply (spec_restore y s0).
  remember (rget s rs1) as a eqn:Ea. remember (rget s s0) as v0 eqn:E0. symmetry in Ea, E0.
  assert (in_u 32 (check_8bit_0_table y)).
  { destruct (env_zero _ _ E) as (? & Hz & _). change (Z.of_nat (length check_8bit_0_bytes)) with 256 in Hz.
    unfold in_u. lia. }
  destruct (same_read s a 0 E Ha ltac:(done)) as (_ & Hu & Hl).
  unfold seqz. start. do 3 step_mid.
  step (check_8bit_0_spec gp 0). step (check_8bit_0_spec tp 1). step_mid.
  step (check_8bit_0_spec tp 2). step_mid. step (check_8bit_0_spec tp 3). step_mid. do 2 step_mid.
  same_lookup a 0. step_mid. tidy. finish. by split_and!.
Qed.

End Ops.
