(* ===== verification/MiniRvShift.v ===== *)
(** Correctness of the minirv shifts. *)

From S2P Require Import Prelude RvSpec MiniRv MiniRvTables MiniRvProof MiniRvOps.

Section ShiftTables.
Variable y : symbols.
Abbreviation env := (env y).
Abbreviation spec := (spec y).

(** * Tables of words *)

Lemma ld8_u32 m a k : ld8 m (u32 a + k) = ld8 m (a + k).
Proof. unfold ld8. by rewrite wrap_add_l. Qed.

Lemma ld32_u32 m a : ld32 m (u32 a) = ld32 m a.
Proof. unfold ld32. rewrite !ld8_u32. unfold ld8. by rewrite wrap_wrap. Qed.

Lemma ld32_bytes m a v : in_u 32 a -> in_u 32 (a + 3) -> in_u 32 v ->
  (forall b, 0 <= b < 4 -> m (a + b) = byte b v) -> ld32 m a = v.
Proof.
  intros H0 H3 Hv Hb. unfold ld32, ld8, in_u in *. rewrite !(wrap_id 32) by (unfold in_u; lia).
  rewrite <- (Z.add_0_r a) at 1. rewrite !Hb by lia. symmetry. by apply word_bytes.
Qed.

Lemma lw_known rd off base a v s : env s -> rd <> sp -> u32 (rget s base + off) = a ->
  ld32 (mbytes s) a = v -> in_u 32 v -> spec [Lw rd off base] s [rd] [] false (rd_is rd v).
Proof.
  intros E Hr Ha Hm Hv. eapply rset_spec; [done|done|reflexivity|].
  rewrite <- ld32_u32, Ha, Hm. rewrite <- (wrap_id 32 v Hv) at 1. apply rd_is_rset.
Qed.

(** A table of words of [lut.bin] at [base]. *)
Definition shift_table (base : Z) (f : Z -> Z -> Z) : Prop := forall s j i, env s ->
  0 <= j < 32 -> 0 <= i < 256 ->
  ld32 (mbytes s) (base + j * 1024 + i * 4) = u32 (f j i) /\ in_u 32 (base + j * 1024 + i * 4).

Lemma shift_table_at base off f : base = logic_shift_table y + off -> 0 <= off <= 262144 ->
  (forall k, 0 <= k < 32768 -> nth (Z.to_nat (off + k)) lut_bin 0 = nth (Z.to_nat k) (gen_table 32 256 4 f) 0) ->
  shift_table base f.
Proof.
  intros -> Ho Hn s j i E Hj Hi.
  assert (forall b, 0 <= b < 4 ->
    mbytes s (logic_shift_table y + off + j * 1024 + i * 4 + b) = byte b (u32 (f j i)) /\
    in_u 32 (logic_shift_table y + off + j * 1024 + i * 4 + b)) as H.
  { intros b Hb. replace (logic_shift_table y + off + j * 1024 + i * 4 + b)
      with (logic_shift_table y + (off + (j * 1024 + (i * 4 + b)))) by lia.
    destruct (lut_read y s (off + (j * 1024 + (i * 4 + b))) E) as [-> Hu]; [lia|].
    split; [|done]. rewrite Hn by lia. by apply shift_entry. }
  destruct (H 0) as [_ H0]; [lia|]. destruct (H 3) as [_ H3]; [lia|]. rewrite Z.add_0_r in H0.
  split; [|done]. apply ld32_bytes; [done|done|by apply wrap_in_u|]. intros b Hb. by apply H.
Qed.

Lemma sll_table : shift_table (sll8_table y) (fun j i => Z.shiftl i j).
Proof.
  apply (shift_table_at _ 196608); [unfold sll8_table, xor8_table, or8_table, and8_table; lia|lia|].
  intros k Hk. by apply lut_parts.
Qed.
Lemma srl_table : shift_table (srl8_table y) (fun j i => Z.shiftr (u32 (Z.shiftl i 24)) j).
Proof.
  apply (shift_table_at _ 229376); [unfold srl8_table, sll8_table, xor8_table, or8_table, and8_table; lia|lia|].
  intros k Hk. by apply lut_parts.
Qed.
Lemma sra_table : shift_table (sra8_table y) (fun j i => Z.shiftr (s32 (Z.shiftl i 24)) j).
Proof.
  apply (shift_table_at _ 262144);
    [unfold sra8_table, srl8_table, sll8_table, xor8_table, or8_table, and8_table; lia|lia|].
  intros k Hk. by apply lut_parts.
Qed.

(** * Rows and entries *)

Lemma get_shift_byte_spec base f j r b s : shift_table base f -> env s -> 0 <= j < 32 -> 0 <= b < 4 -> r <> tp ->
  rget s r = base + j * 1024 ->
  spec (get_shift_byte_in_tp r b) s [tp] [] false (fun s' => rget s' tp = u32 (f j (vb s 4 b))).
Proof.
  intros T E Hj Hb Hr Hrow.
  pose proof (env_byte y s (rget s sp - 4 * 4 + b) E) as Hi. fold (vb s 4 b) in Hi.
  remember (vb s 4 b) as i eqn:Ei. symmetry in Ei.
  unfold get_shift_byte_in_tp. start. do 3 step_mid.
  lazymatch goal with E : env ?st |- _ => destruct (T st j i E) as [Hm Hu]; [done|done|] end.
  pose proof (wrap_in_u 32 (f j i) ltac:(lia)) as Hv.
  step (lw_known tp 0 tp (base + j * 1024 + i * 4) (u32 (f j i))). finish. done.
Qed.

Lemma land_31_byte v : Z.land 31 (byte 0 v) = v mod 32.
Proof.
  rewrite Z.land_comm. change 31 with (Z.ones 5). rewrite Z.land_ones by lia. unfold byte. cbn [Z.mul].
  change (2 ^ 0) with 1. change (2 ^ 5) with 32. bytes_lia.
Qed.

Lemma getshamt_spec rd rs1 s : env s -> rd <> sp -> rd <> 0 -> rd <> tp ->
  spec (getshamt y rd rs1) s [rd; tp] [5] false (fun s' => rget s' rd = rget s rs1 mod 32).
Proof.
  intros E Hr Hx Ht. remember (rget s rs1) as v eqn:Ev. symmetry in Ev.
  assert (in_u 32 (and8_table y + Z.shiftl 31 8)) as Hu by apply (and_table y s 31 0 E ltac:(lia) ltac:(lia)).
  pose proof (byte_range 0 v) as Hb. remember (vb s 5 0) as d. 
  unfold getshamt. start. do 4 step_mid.
  lazymatch goal with E : env ?st |- _ => destruct (and_table y st 31 (byte 0 v) E) as [Hm Hu']; [lia|done|] end.
  rewrite land_31_byte in Hm.
  step (lbu_known y rd 0 rd (and8_table y + (31 * 256 + byte 0 v)) (v mod 32)). finish. done.
Qed.

Lemma row_value table j : 0 <= j < 32 -> in_u 32 (table + j * 1024) ->
  u32 (u32 ((byte 0 0 + 2 ^ 8 * byte 0 j + 2 ^ 16 * byte 2 0 + 2 ^ 24 * byte 3 0) * 2 ^ 2) + table)
  = table + j * 1024.
Proof.
  intros Hj Hu. rewrite wrap_add_l. change (byte 0 0) with 0. change (byte 2 0) with 0. change (byte 3 0) with 0.
  assert (byte 0 j = j) as -> by bytes_lia. rewrite <- (wrap_id 32 _ Hu). f_equal. lia.
Qed.

Lemma shift_row_spec table f rs2 s : shift_table table f -> env s ->
  spec (shift_row y table rs2) s [s0; tp] [5] false (fun s' => rget s' s0 = table + rget s rs2 mod 32 * 1024).
Proof.
  intros T E. remember (rget s rs2) as v eqn:Ev. symmetry in Ev.
  assert (0 <= v mod 32 < 32) as Hj by (apply Z.mod_pos_bound; lia).
  destruct (T s (v mod 32) 0 E Hj ltac:(lia)) as [_ Hu]. rewrite Z.add_0_r in Hu.
  destruct (T s 0 0 E ltac:(lia) ltac:(lia)) as [_ Hu0]. rewrite !Z.add_0_r in Hu0.
  assert (rget s x0 = 0) by done. remember (v mod 32) as j eqn:Ej. symmetry in Ej.
  unfold shift_row. start. step (getshamt_spec s0 rs2). rewrite Ej in *.
  do 6 step_mid. finish. etransitivity; [eassumption|]. by apply row_value.
Qed.

(** * Left shifts *)

(** Two bytes of [r] into the upper half of word [n]. *)
Lemma sh_var_spec r n s : env s -> n = 4 \/ n = 5 ->
  spec (sh r (sp_var_byte n 2) sp) s [tp] [n; 6] false (fun s' =>
    vb s' n 0 = vb s n 0 /\ vb s' n 1 = vb s n 1 /\
    vb s' n 2 = byte 0 (rget s r) /\ vb s' n 3 = byte 1 (rget s r)).
Proof.
  intros E Hn.
  assert (sh r (sp_var_byte n 2) sp = sb_v r n 2 ++ getbyte tp r 1 ++ sb_v tp n 3) as ->
    by (destruct Hn as [-> | ->]; reflexivity).
  remember (rget s r) as a eqn:Ea; remember (vb s n 0) as d0 eqn:E0; remember (vb s n 1) as d1 eqn:E1.
  symmetry in Ea, E0, E1. start.
  assert (byte 0 (byte 1 a) = byte 1 a) as B by bytes_lia.
  destruct Hn as [-> | ->]; do 3 step_mid; rewrite B in *; finish; by split_and!.
Qed.

Lemma slli_rec_low fuel rd imm x s : env s -> rd <> sp -> 0 <= imm < 16 -> in_u 32 x -> rd_is rd x s ->
  spec (slli_rec (S fuel) rd rd imm) s [rd] [] false (rd_is rd (u32 (x * 2 ^ imm))).
Proof.
  intros E Hr Hi Hx Hs. cbn [slli_rec]. rewrite Z.eqb_refl. cbn [negb].
  rewrite (proj2 (Z.leb_gt 24 imm)), (proj2 (Z.leb_gt 16 imm)) by lia.
  destruct (Z.eqb_spec imm 0) as [-> | Hne].
  - rewrite Z.mul_1_r, wrap_id by done. by apply spec_intro; [| |notin|apply chg_refl|].
  - replace (Add rd rd rd :: repeat (Add rd rd rd) (Z.to_nat (imm - 1))) with (repeat (Add rd rd rd) (Z.to_nat imm))
      by (replace (Z.to_nat imm) with (S (Z.to_nat (imm - 1))) by lia; done).
    rewrite <- (Z2Nat.id imm) at 2 by lia. by apply double_spec.
Qed.

Lemma slli_rec_high rd rs1 imm : 16 <= imm ->
  slli rd rs1 imm =
  if 24 <=? imm then PUSH x0 VAR_A ++ sb_v rs1 VAR_A 3 ++ POP rd VAR_A ++ slli_rec 1 rd rd (imm - 24)
  else PUSH x0 VAR_A ++ sh rs1 (sp_var_byte VAR_A 2) sp ++ POP rd VAR_A ++ slli_rec 1 rd rd (imm - 16).
Proof.
  intros H. unfold slli. cbn [slli_rec].
  rewrite (proj2 (Z.eqb_neq imm 0)), (proj2 (Z.leb_le 16 imm)) by lia. done.
Qed.

Lemma shl_split a k imm : 0 <= k <= imm -> u32 (a * 2 ^ imm) = u32 (u32 (a * 2 ^ k) * 2 ^ (imm - k)).
Proof.
  intros H. rewrite wrap_mul_l, <- Z.mul_assoc, <- Z.pow_add_r by lia. do 3 f_equal. lia.
Qed.

Lemma shl_24 a : byte 0 0 + 2 ^ 8 * byte 1 0 + 2 ^ 16 * byte 2 0 + 2 ^ 24 * byte 0 a = u32 (a * 2 ^ 24).
Proof. bytes_lia. Qed.
Lemma shl_16 a : byte 0 0 + 2 ^ 8 * byte 1 0 + 2 ^ 16 * byte 0 a + 2 ^ 24 * byte 1 a = u32 (a * 2 ^ 16).
Proof. bytes_lia. Qed.

Lemma slli_spec rd rs1 imm s : env s -> rd <> sp -> 0 <= imm < 32 ->
  spec (slli rd rs1 imm) s [rd; tp] [4; 6] false (rd_is rd (u32 (rget s rs1 * 2 ^ imm))).
Proof.
  intros E Hr Hi. pose proof (rget_u32 s rs1 (env_wf _ _ E)) as Ha.
  destruct (Z.eq_dec imm 0) as [-> | Hz].
  { rewrite Z.mul_1_r, wrap_id by done. unfold slli. cbn [slli_rec Z.eqb].
    destruct (Z.eqb_spec rd rs1) as [-> | Hne]; cbn [negb].
    - apply spec_intro; [done|done|notin|apply chg_refl|]. unfold rd_is, rget. by destruct (rs1 =? 0).
    - remember (rget s rs1) as a eqn:Ea. symmetry in Ea. start. step_mid. tidy. by finish. }
  destruct (Z_lt_ge_dec imm 16).
  { start. step (slli_low y rd rs1 imm). by finish. }
  assert (rget s x0 = 0) by done. rewrite (slli_rec_high rd rs1) by lia.
  remember (rget s rs1) as a eqn:Ea. symmetry in Ea. destruct (Z.leb_spec 24 imm).
  - rewrite (shl_split a 24) by lia. pose proof (wrap_in_u 32 (a * 2 ^ 24) ltac:(lia)).
    start. do 3 step_mid. rewrite (shl_24 a) in *. step (slli_rec_low 0 rd (imm - 24) (u32 (a * 2 ^ 24))). by finish.
  - rewrite (shl_split a 16) by lia. pose proof (wrap_in_u 32 (a * 2 ^ 16) ltac:(lia)).
    start. unfold VAR_A. step_mid. step (sh_var_spec rs1 4). step_mid. rewrite (shl_16 a) in *.
    step (slli_rec_low 0 rd (imm - 16) (u32 (a * 2 ^ 16))). by finish.
Qed.

Definition sll_head (rs1 rs2 : reg) : list binst :=
  PUSH s0 1 ++ PUSH rs1 VAR_A ++ shift_row y (sll8_table y) rs2 ++
  PUSH x0 VAR_B ++ get_shift_byte_in_tp s0 3 ++ sb_v tp VAR_B 3 ++ POP gp VAR_B ++
  get_shift_byte_in_tp s0 2 ++ sh tp (sp_var_byte VAR_B 2) sp ++ POP tp VAR_B ++ [Add gp gp tp] ++
  get_shift_byte_in_tp s0 1 ++ slli tp tp 8 ++ [Add gp gp tp] ++
  get_shift_byte_in_tp s0 0 ++ POP s0 1.

Lemma sll_cut rd rs1 rs2 : sll y rd rs1 rs2 = sll_head rs1 rs2 ++ [Add rd gp tp].
Proof. unfold sll, sll_head. by rewrite <- !app_assoc. Qed.

Lemma sum4 p q r t : u32 (u32 (u32 (u32 p + u32 q) + u32 r) + u32 t) = u32 (p + q + r + t).
Proof.
  by rewrite (wrap_add_l 32 p (u32 q)), (wrap_add_r 32 p q), (wrap_add_l 32 (p + q) (u32 r)),
    (wrap_add_r 32 (p + q) r), wrap_add_l, wrap_add_r.
Qed.

Lemma sll_value a j : in_u 32 a -> 0 <= j ->
  let t k := u32 (Z.shiftl (byte k a) j) in
  u32 (u32 (u32 (u32 (t 3 * 2 ^ 24) + u32 (t 2 * 2 ^ 16)) + u32 (t 1 * 2 ^ 8)) + t 0) = u32 (a * 2 ^ j).
Proof.
  intros Ha Hj t. subst t. cbv beta. rewrite !Z.shiftl_mul_pow2 by done. rewrite (word_bytes a Ha) at 5.
  rewrite !(wrap_mul_l 32 (_ * 2 ^ j)), sum4. f_equal. ring.
Qed.

Lemma sll_head_spec rs1 rs2 s : env s ->
  spec (sll_head rs1 rs2) s [gp; tp] [1; 4; 5; 6] false (fun s' =>
    u32 (rget s' gp + rget s' tp) = u32 (alu_sem SLL (rget s rs1) (rget s rs2))).
Proof.
  intros E. pose proof (rget_u32 s rs1 (env_wf _ _ E)) as Ha. pose proof (rget_u32 s s0 (env_wf _ _ E)) as H0.
  apply (spec_restore y s0). cbn [alu_sem]. assert (rget s x0 = 0) by done.
  remember (rget s rs1) as a eqn:Ea. remember (rget s rs2) as v eqn:Ev. remember (rget s s0) as v0 eqn:E0.
  symmetry in Ea, Ev, E0. pose proof (Z.mod_pos_bound v 32 ltac:(lia)) as Hj.
  pose proof (sll_value a (v mod 32) Ha ltac:(lia)) as Hval.
  unfold sll_head, VAR_A, VAR_B. start. do 2 step_mid.
  step (fun s => shift_row_spec (sll8_table y) _ rs2 s sll_table). remember (v mod 32) as j eqn:Ej.
  step_mid. step (fun s => get_shift_byte_spec (sll8_table y) _ j s0 3 s sll_table).
  do 2 step_mid. rewrite shl_24 in *.
  step (fun s => get_shift_byte_spec (sll8_table y) _ j s0 2 s sll_table).
  step (sh_var_spec tp 5). do 2 step_mid. rewrite shl_16 in *.
  step (fun s => get_shift_byte_spec (sll8_table y) _ j s0 1 s sll_table). do 2 step_mid.
  step (fun s => get_shift_byte_spec (sll8_table y) _ j s0 0 s sll_table). step_mid. tidy. finish.
  split; [done|]. rewrite <- Hval. congruence.
Qed.

Lemma sll_macro_spec rd rs1 rs2 s : env s -> rd <> sp ->
  spec (sll y rd rs1 rs2) s [rd; gp; tp] [1; 4; 5; 6] false
    (rd_is rd (u32 (alu_sem SLL (rget s rs1) (rget s rs2)))).
Proof.
  intros E Hr. rewrite sll_cut.
  apply (spec_app y _ _ _ _ _ _ _ _ _ [rd] [] false _ _ (sll_head_spec rs1 rs2 s E)); [|notin|incl|incl|incl|incl|reflexivity].
  cbv beta. intros s' E' F. rewrite <- F. exact (add_spec y rd gp tp s' E' Hr).
Qed.

(** * Right shifts *)

(** ** Sums of words without common bits *)

Lemma shiftr_disjoint a b n : 0 <= n -> Z.land a b = 0 ->
  Z.shiftr (a + b) n = Z.shiftr a n + Z.shiftr b n /\ Z.land (Z.shiftr a n) (Z.shiftr b n) = 0.
Proof.
  intros Hn H. assert (Z.land (Z.shiftr a n) (Z.shiftr b n) = 0) as H' by (by rewrite <- Z.shiftr_land, H, Z.shiftr_0_l).
  split; [|done]. rewrite !Z.add_nocarry_lxor by done. apply Z.shiftr_lxor.
Qed.

Lemma byte_disjoint k a b : 0 <= k -> Z.land a b = 0 -> byte k (a + b) = byte k a + byte k b.
Proof.
  intros Hk H. destruct bytewise_lxor as [Hx _]. destruct bytewise_land as [Hl _].
  rewrite !Z.add_nocarry_lxor; [by apply Hx| |done]. by rewrite <- Hl, H.
Qed.

(** Entry [x] of row [j], and what it contributes when it stands [k] bytes lower. *)
Definition entry (x j : Z) : Z := u32 (Z.shiftr (u32 (Z.shiftl x 24)) j).

Lemma entry_byte x j c b k : c = b + k -> 0 <= x < 256 -> 0 <= j -> 0 <= k <= 3 -> 0 <= b ->
  byte c (entry x j) = byte b (Z.shiftr (x * 2 ^ (24 - 8 * k)) j).
Proof.
  intros -> Hx Hj Hk Hb. unfold entry. rewrite Z.shiftl_mul_pow2, (wrap_id 32 (x * 2 ^ 24)) by (unfold in_u; lia).
  assert (0 <= Z.shiftr (x * 2 ^ 24) j < 2 ^ 32) as Hr.
  { rewrite Z.shiftr_div_pow2 by done. pose proof (Z.pow_pos_nonneg 2 j). split; [apply Z.div_pos; lia|].
    apply Z.div_lt_upper_bound; nia. }
  rewrite wrap_id by exact Hr. rewrite !Z.shiftr_div_pow2 by done. unfold byte. f_equal.
  replace (x * 2 ^ 24) with (x * 2 ^ (24 - 8 * k) * 2 ^ (8 * k))
    by (rewrite <- Z.mul_assoc, <- Z.pow_add_r by lia; do 2 f_equal; lia).
  replace (8 * (b + k)) with (8 * k + 8 * b) by lia. rewrite Z.pow_add_r by lia.
  pose proof (Z.pow_pos_nonneg 2 j). pose proof (Z.pow_pos_nonneg 2 (8 * k)). pose proof (Z.pow_pos_nonneg 2 (8 * b)).
  rewrite <- !Z.div_div by lia. f_equal.
  rewrite Z.div_div, (Z.mul_comm (2 ^ j)), <- Z.div_div by lia. f_equal. apply Z.div_mul. lia.
Qed.

Lemma entry_u32 x j : in_u 32 (entry x j).
Proof. by apply wrap_in_u. Qed.

(** The lower three bytes of [a], shifted. *)
Definition low3 (a : Z) : Z := byte 2 a * 2 ^ 16 + (byte 1 a * 2 ^ 8 + byte 0 a).

Lemma low3_range a j : 0 <= j -> 0 <= Z.shiftr (low3 a) j < 2 ^ 24.
Proof.
  intros Hj. pose proof (byte_range 0 a). pose proof (byte_range 1 a). pose proof (byte_range 2 a).
  rewrite Z.shiftr_div_pow2 by done. pose proof (Z.pow_pos_nonneg 2 j). unfold low3.
  split; [apply Z.div_pos; lia|apply Z.div_lt_upper_bound; nia].
Qed.

(** A byte that is shifted right stays below its upper end. *)
Lemma shiftr_byte x k j b : 0 <= x < 256 -> 0 <= k -> 0 <= j -> k + 8 <= 8 * b -> byte b (Z.shiftr (x * 2 ^ k) j) = 0.
Proof.
  intros Hx Hk Hj Hb. pose proof (Z.pow_pos_nonneg 2 j). pose proof (Z.pow_pos_nonneg 2 k).
  assert (0 <= Z.shiftr (x * 2 ^ k) j < 2 ^ (8 * b)) as Hr.
  { rewrite Z.shiftr_div_pow2 by done. split; [apply Z.div_pos; lia|].
    apply Z.div_lt_upper_bound; [lia|]. pose proof (Z.pow_le_mono_r 2 (k + 8) (8 * b)).
    rewrite Z.pow_add_r in * by lia. nia. }
  unfold byte. by rewrite Z.div_small.
Qed.

Lemma low3_bytes a j b : 0 <= j -> 0 <= b ->
  byte b (Z.shiftr (low3 a) j) =
  byte b (Z.shiftr (byte 2 a * 2 ^ 16) j) + (byte b (Z.shiftr (byte 1 a * 2 ^ 8) j) + byte b (Z.shiftr (byte 0 a * 2 ^ 0) j)).
Proof.
  intros Hj Hb. pose proof (byte_range 0 a). pose proof (byte_range 1 a). pose proof (byte_range 2 a).
  destruct (shiftr_disjoint (byte 1 a * 2 ^ 8) (byte 0 a * 2 ^ 0) j) as [S1 D1];
    [done|rewrite Z.mul_1_r; apply land_high_low; lia|].
  destruct (shiftr_disjoint (byte 2 a * 2 ^ 16) (byte 1 a * 2 ^ 8 + byte 0 a * 2 ^ 0) j) as [S2 D2];
    [done|apply land_high_low; lia|].
  replace (low3 a) with (byte 2 a * 2 ^ 16 + (byte 1 a * 2 ^ 8 + byte 0 a * 2 ^ 0)) by (unfold low3; lia).
  rewrite S2, (byte_disjoint b) by done. f_equal. by rewrite S1, byte_disjoint.
Qed.

(** The three bytes as the code adds them up. *)
Lemma srl_low_value a j : 0 <= j ->
  let e k := entry (byte k a) j in
  let d := u32 (u32 (byte 1 (e 2) + byte 2 (e 1)) + byte 3 (e 0)) in
  byte 0 d + 2 ^ 8 * byte 0 (u32 (byte 2 (e 2) + byte 3 (e 1))) + 2 ^ 16 * byte 0 (byte 3 (e 2)) + 2 ^ 24 * byte 3 d
  = Z.shiftr (low3 a) j.
Proof.
  intros Hj e d. subst e d. cbv beta.
  pose proof (byte_range 0 a). pose proof (byte_range 1 a). pose proof (byte_range 2 a).
  rewrite (entry_byte (byte 2 a) j 1 0 1), (entry_byte (byte 2 a) j 2 1 1), (entry_byte (byte 2 a) j 3 2 1),
    (entry_byte (byte 1 a) j 2 0 2), (entry_byte (byte 1 a) j 3 1 2), (entry_byte (byte 0 a) j 3 0 3) by lia.
  change (24 - 8 * 1) with 16. change (24 - 8 * 2) with 8. change (24 - 8 * 3) with 0.
  pose proof (low3_bytes a j 0 Hj ltac:(lia)) as L0. pose proof (low3_bytes a j 1 Hj ltac:(lia)) as L1.
  pose proof (low3_bytes a j 2 Hj ltac:(lia)) as L2.
  rewrite (shiftr_byte (byte 1 a) 8 j), (shiftr_byte (byte 0 a) 0 j) in L2 by lia.
  rewrite (shiftr_byte (byte 0 a) 0 j) in L1 by lia. rewrite wrap_add_l.
  pose proof (low3_range a j Hj) as Hr. remember (Z.shiftr (low3 a) j) as q eqn:Eq. clear Eq.
  pose proof (word_bytes q ltac:(unfold in_u; lia)) as W. assert (byte 3 q = 0) as L3 by bytes_lia.
  pose proof (byte_range 0 q). pose proof (byte_range 1 q). pose proof (byte_range 2 q).
  assert (forall x, 0 <= x < 256 -> byte 0 x = x) as S0 by (intros; bytes_lia).
  assert (forall x, 0 <= x < 256 -> byte 0 (u32 x) = x /\ byte 3 (u32 x) = 0) as S by (intros; split; bytes_lia).
  rewrite Z.add_assoc in L0. rewrite !Z.add_0_r in L1, L2. rewrite <- L0, <- L1, <- L2, (S0 (byte 2 q)) by done.
  destruct (S (byte 0 q)) as [-> ->]; [done|]. destruct (S (byte 1 q)) as [-> _]; [done|]. lia.
Qed.

(** The upper byte, logically or arithmetically. *)
Definition right (is_arith : bool) (x : Z) : Z := if is_arith then s32 x else u32 x.

Lemma srx_value is_arith a j : in_u 32 a -> 0 <= j ->
  u32 (Z.shiftr (low3 a) j + u32 (Z.shiftr (right is_arith (Z.shiftl (byte 3 a) 24)) j))
  = u32 (right is_arith a / 2 ^ j).
Proof.
  intros Ha Hj. rewrite wrap_add_r, <- Z.shiftr_div_pow2 by done. rewrite Z.shiftl_mul_pow2 by lia.
  pose proof (byte_range 3 a). pose proof (low3_range a 0 ltac:(lia)) as Hl. rewrite Z.shiftr_0_r in Hl.
  assert (a = byte 3 a * 2 ^ 24 + low3 a) as Ea by (unfold low3; rewrite (word_bytes a Ha) at 1; lia).
  assert (exists h, right is_arith (byte 3 a * 2 ^ 24) = h * 2 ^ 24 /\ right is_arith a = h * 2 ^ 24 + low3 a)
    as (h & H1 & H2).
  { destruct is_arith; cbn [right].
    - unfold sgn. rewrite !(wrap_id 32) by (unfold in_u in *; lia).
      destruct (Z.ltb_spec (byte 3 a) 128).
      + exists (byte 3 a). destruct (Z.ltb_spec (byte 3 a * 2 ^ 24) (2 ^ (32 - 1))); [|lia].
        destruct (Z.ltb_spec a (2 ^ (32 - 1))); lia.
      + exists (byte 3 a - 256). destruct (Z.ltb_spec (byte 3 a * 2 ^ 24) (2 ^ (32 - 1))); [lia|].
        destruct (Z.ltb_spec a (2 ^ (32 - 1))); lia.
    - exists (byte 3 a). rewrite !(wrap_id 32) by (unfold in_u in *; lia). lia. }
  rewrite H1, H2. destruct (shiftr_disjoint (h * 2 ^ 24) (low3 a) j Hj) as [-> _]; [apply land_high_low; lia|].
  f_equal. lia.
Qed.

Definition srx_table (is_arith : bool) : Z := if is_arith then sra8_table y else srl8_table y.
Lemma srx_table_ok is_arith :
  shift_table (srx_table is_arith) (fun j i => Z.shiftr (right is_arith (Z.shiftl i 24)) j).
Proof. destruct is_arith; [apply sra_table|apply srl_table]. Qed.

(** [shift_right_bytes] without its last instruction. *)
Definition srx_head (is_arith : bool) : list binst :=
  get_shift_byte_in_tp s0 2 ++ PUSH tp VAR_B ++
  get_shift_byte_in_tp s0 1 ++ PUSH tp VAR_C ++
  get_shift_byte_in_tp s0 0 ++ PUSH tp VAR_D ++
  lbu_v gp VAR_B 1 ++ lbu_v tp VAR_C 2 ++ [Add gp gp tp] ++ lbu_v tp VAR_D 3 ++ [Add gp gp tp] ++
  PUSH gp VAR_D ++
  lbu_v gp VAR_B 2 ++ lbu_v tp VAR_C 3 ++ [Add gp gp tp] ++ sb_v gp VAR_D 1 ++
  lbu_v gp VAR_B 3 ++ sb_v gp VAR_D 2 ++
  POP gp VAR_D ++
  (if is_arith then la tp (sra8_table y - srl8_table y) ++ [Add s0 s0 tp] else []) ++
  get_shift_byte_in_tp s0 3 ++ POP s0 1.

Lemma srx_cut rd is_arith : shift_right_bytes y rd is_arith = srx_head is_arith ++ [Add rd gp tp].
Proof. unfold shift_right_bytes, srx_head. by rewrite <- !app_assoc. Qed.

(** The row of the other table. *)
Lemma srx_row_spec (is_arith : bool) j s : env s -> 0 <= j < 32 -> rget s s0 = srl8_table y + j * 1024 ->
  spec (if is_arith then la tp (sra8_table y - srl8_table y) ++ [Add s0 s0 tp] else []) s [s0; tp] [] false
    (fun s' => rget s' s0 = srx_table is_arith + j * 1024).
Proof.
  intros E Hj H. unfold srx_table. destruct is_arith.
  - destruct (sra_table s j 0 E Hj ltac:(lia)) as [_ Hu]. rewrite Z.add_0_r in Hu.
    assert (sra8_table y - srl8_table y = 32768) as Ed by (unfold sra8_table; lia). rewrite Ed.
    assert (in_u 32 32768) by done. start. do 2 step_mid. finish. etransitivity; [eassumption|].
    rewrite <- (wrap_id 32 _ Hu). f_equal. lia.
  - apply spec_intro; [done|done|notin|apply chg_refl|exact H].
Qed.

Lemma srx_head_spec is_arith a j v0 s : env s -> in_u 32 a -> in_u 32 v0 -> 0 <= j < 32 ->
  rget s s0 = srl8_table y + j * 1024 ->
  (forall b, 0 <= b < 4 -> vb s 4 b = byte b a) -> (forall b, 0 <= b < 4 -> vb s 1 b = byte b v0) ->
  spec (srx_head is_arith) s [s0; gp; tp] [5; 6; 7] false (fun s' =>
    rget s' s0 = v0 /\ u32 (rget s' gp + rget s' tp) = u32 (right is_arith a / 2 ^ j)).
Proof.
  intros E Ha Hv0 Hj Hrow H4 H1.
  pose proof (H4 0 ltac:(lia)); pose proof (H4 1 ltac:(lia)); pose proof (H4 2 ltac:(lia)); pose proof (H4 3 ltac:(lia));
  pose proof (H1 0 ltac:(lia)); pose proof (H1 1 ltac:(lia)); pose proof (H1 2 ltac:(lia)); pose proof (H1 3 ltac:(lia)).
  clear H4 H1. pose proof (srl_low_value a j ltac:(lia)) as Hlow. pose proof (srx_value is_arith a j Ha ltac:(lia)) as Hval.
  unfold srx_head. start.
  step (fun s => get_shift_byte_spec (srl8_table y) _ j s0 2 s srl_table). step_mid.
  step (fun s => get_shift_byte_spec (srl8_table y) _ j s0 1 s srl_table). step_mid.
  step (fun s => get_shift_byte_spec (srl8_table y) _ j s0 0 s srl_table). step_mid.
  do 13 step_mid. step (srx_row_spec is_arith j).
  step (fun s => get_shift_byte_spec (srx_table is_arith) _ j s0 3 s (srx_table_ok is_arith)). step_mid. tidy. finish.
  split; [done|]. rewrite <- Hval. f_equal. f_equal; [|done]. etransitivity; [eassumption|exact Hlow].
Qed.

(** The code before [shift_right_bytes]: [v] is the shift amount. *)
Definition srx_code (row : list binst) (rd rs1 : reg) (is_arith : bool) : list binst :=
  PUSH s0 1 ++ PUSH rs1 VAR_A ++ row ++ shift_right_bytes y rd is_arith.

Lemma srx_code_spec row rd rs1 rs2 is_arith j s : env s -> rd <> sp -> 0 <= j < 32 ->
  (forall s', env s' -> rget s' rs2 = rget s rs2 ->
    spec row s' [s0; tp] [5] false (fun s'' => rget s'' s0 = srl8_table y + j * 1024)) ->
  spec (srx_code row rd rs1 is_arith) s [rd; gp; tp] [1; 4; 5; 6; 7] false
    (rd_is rd (u32 (right is_arith (rget s rs1) / 2 ^ j))).
Proof.
  intros E Hr Hj Hrow.
  assert (srx_code row rd rs1 is_arith =
    (PUSH s0 1 ++ PUSH rs1 VAR_A ++ row ++ srx_head is_arith) ++ [Add rd gp tp]) as ->
    by (unfold srx_code; rewrite srx_cut; by rewrite <- !app_assoc).
  apply (spec_app y _ _ _ _ _ _ [gp; tp] [1; 4; 5; 6; 7] false [rd] [] false
    (fun s' => u32 (rget s' gp + rget s' tp) = u32 (right is_arith (rget s rs1) / 2 ^ j)));
    [|cbv beta; intros s' E' <-; exact (add_spec y rd gp tp s' E' Hr)|notin|incl|incl|incl|incl|reflexivity].
  pose proof (rget_u32 s rs1 (env_wf _ _ E)) as Ha. pose proof (rget_u32 s s0 (env_wf _ _ E)) as H0.
  apply (spec_restore y s0). 
  remember (rget s rs1) as a eqn:Ea. remember (rget s s0) as v0 eqn:E0. symmetry in Ea, E0.
  remember (rget s rs2) as v eqn:Ev. symmetry in Ev.
  start. do 2 step_mid. step Hrow.
  lazymatch goal with E : env ?st |- _ =>
    assert (forall b, 0 <= b < 4 -> vb st 4 b = byte b a)
      by (intros b Hb; destruct (four b Hb) as [-> | [-> | [-> | ->]]]; assumption);
    assert (forall b, 0 <= b < 4 -> vb st 1 b = byte b v0)
      by (intros b Hb; destruct (four b Hb) as [-> | [-> | [-> | ->]]]; assumption)
  end.
  step (srx_head_spec is_arith a j v0). finish. by split.
Qed.

Lemma srx_reg_spec rd rs1 rs2 is_arith s : env s -> rd <> sp ->
  spec (shift_right_template y rd rs1 (ByReg rs2) is_arith) s [rd; gp; tp] [1; 4; 5; 6; 7] false
    (rd_is rd (u32 (right is_arith (rget s rs1) / 2 ^ (rget s rs2 mod 32)))).
Proof.
  intros E Hr. apply (srx_code_spec (shift_row y (srl8_table y) rs2) rd rs1 rs2); [done|done|by apply Z.mod_pos_bound|].
  intros s' E' <-. exact (shift_row_spec _ _ rs2 s' srl_table E').
Qed.

Lemma lw_any rd off base s : env s -> rd <> sp ->
  spec [Lw rd off base] s [rd] [] false (rd_is rd (ld32 (mbytes s) (rget s base + off))).
Proof.
  intros E Hr. apply (lw_known _ _ _ (u32 (rget s base + off))); [done|done|done|apply ld32_u32|].
  unfold ld32, ld8. apply byte_word; by apply (env_byte y).
Qed.

Lemma srai_24_spec rd rs1 s : env s -> rd <> sp -> rd <> tp ->
  spec (PUSH rs1 VAR_A ++ la tp (sra8_table y + Z.shiftl 24 10) ++ lbu_v rd VAR_A 3 ++
    slli rd rd 2 ++ [Add tp tp rd; Lw rd 0 tp]) s [rd; gp; tp] [1; 4; 5; 6; 7] false
    (rd_is rd (u32 (right true (rget s rs1) / 2 ^ 24))).
Proof.
  intros E Hr Ht. pose proof (rget_u32 s rs1 (env_wf _ _ E)) as Ha.
  destruct (sra_table s 24 0 E ltac:(lia) ltac:(lia)) as [_ Hu0]. rewrite Z.add_0_r in Hu0.
  change (24 * 1024) with (Z.shiftl 24 10) in Hu0.
  remember (rget s rs1) as a eqn:Ea. symmetry in Ea. pose proof (byte_range 3 a) as Hb.
  start. destruct (decide (rd = 0)) as [-> | Hx]; do 5 step_mid.
  - step (lw_any 0 0 tp). finish. done.
  - lazymatch goal with E : env ?st |- _ =>
      destruct (sra_table st 24 (byte 3 a) E) as [Hm Hu]; [lia|done|] end.
    pose proof (wrap_in_u 32 (Z.shiftr (s32 (Z.shiftl (byte 3 a) 24)) 24) ltac:(lia)) as Hv.
    step (lw_known rd 0 tp (sra8_table y + 24 * 1024 + byte 3 a * 4) (u32 (Z.shiftr (s32 (Z.shiftl (byte 3 a) 24)) 24))).
    finish. apply rd_is_of; [|done]. rewrite <- (srx_value true a 24 Ha) by lia.
    assert (Z.shiftr (low3 a) 24 = 0) as ->; [|rewrite Z.add_0_l, wrap_wrap; done].
    pose proof (low3_range a 0 ltac:(lia)) as Hl. rewrite Z.shiftr_0_r in Hl.
    rewrite Z.shiftr_div_pow2 by lia. by apply Z.div_small.
Qed.

Lemma srx_imm_spec rd rs1 imm is_arith s : env s -> rd <> sp -> rd <> tp -> 0 <= imm < 32 ->
  spec (shift_right_template y rd rs1 (ByImm imm) is_arith) s [rd; gp; tp] [1; 4; 5; 6; 7] false
    (rd_is rd (u32 (right is_arith (rget s rs1) / 2 ^ imm))).
Proof.
  intros E Hr Ht Hi. cbn [shift_right_template]. destruct (Z.eqb_spec imm 24) as [-> | Hne].
  - destruct is_arith.
    + by apply srai_24_spec.
    + pose proof (rget_u32 s rs1 (env_wf _ _ E)) as Ha. start. step (getbyte_spec y rd rs1 3). finish.
      replace (u32 (right false (rget s rs1) / 2 ^ 24)) with (byte 3 (rget s rs1)); [done|].
      cbn [right]. bytes_lia.
  - apply (srx_code_spec (la s0 (srl8_table y + Z.shiftl imm 10)) rd rs1 x0); [done..|].
    intros s' E' _. destruct (srl_table s' imm 0 E' Hi ltac:(lia)) as [_ Hu]. rewrite Z.add_0_r in Hu.
    rewrite Z.shiftl_mul_pow2 by lia. change (2 ^ 10) with 1024. start. step_mid. finish. done.
Qed.

End ShiftTables.
