(* ===== verification/MiniRvMain.v ===== *)
(** The minirv instruction replacement as a whole: the expansion of each instruction
    that a compiler emits does what [RvSpec] says of the instruction.

    A compiler for minirv leaves [gp], [tp] and the bytes below the stack pointer
    alone; the expansions use them, and the comparison array, as scratch space. *)

From S2P Require Import Prelude RvSpec MiniRv MiniRvTables MiniRvProof MiniRvOps MiniRvShift.

(** * Straight-line expansions *)

Lemma straight_app c1 c2 : straight (c1 ++ c2) = straight c1 && straight c2.
Proof. apply forallb_app. Qed.

Lemma straight_repeat i n : is_jalr i = false -> straight (repeat i n) = true.
Proof. intros H. induction n as [|n IH]; [done|]. unfold straight in *. cbn [repeat forallb]. by rewrite H. Qed.

Lemma straight_slli_rec fuel rd rs1 imm : straight (slli_rec fuel rd rs1 imm) = true.
Proof.
  revert rs1 imm. induction fuel as [|fuel IH]; intros rs1 imm; cbn [slli_rec]; [done|].
  destruct (imm =? 0); [by destruct (rd =? rs1)|].
  destruct (24 <=? imm); [by rewrite !straight_app, IH|].
  destruct (16 <=? imm); [by rewrite !straight_app, IH|]. by apply (straight_repeat (Add rd rd rd)).
Qed.

Section Replace.
Variable y : symbols.
Abbreviation env := (env y).
Abbreviation spec := (spec y).

Lemma straight_srx rd rs1 by_ ar : straight (shift_right_template y rd rs1 by_ ar) = true.
Proof. destruct by_ as [rs2|imm]; [by destruct ar|]. unfold shift_right_template. destruct (imm =? 24); by destruct ar. Qed.

Lemma straight_logic lut rd rs1 rs2 c : logic lut rd rs1 rs2 = Some c -> straight c = true.
Proof. unfold logic. intros H. repeat case_match; simplify_eq; done. Qed.

Lemma straight_op o rd rs1 rs2 c : replace_op y o rd rs1 rs2 = Some c -> straight c = true.
Proof.
  destruct o; cbn [replace_op]; intros H; try discriminate H;
    first [exact (straight_logic _ _ _ _ _ H)|apply (inj Some) in H as <-; first [apply straight_srx|done]].
Qed.

Lemma straight_li lut rd rs1 imm c :
  app (li tp imm) <$> logic lut rd rs1 tp = Some c -> straight c = true.
Proof. intros H. destruct (logic lut rd rs1 tp) eqn:El; [|done]. injection H as <-. by apply straight_logic in El. Qed.

Lemma straight_opimm o rd rs1 imm c : replace_opimm y o rd rs1 imm = Some c -> straight c = true.
Proof.
  destruct o; cbn [replace_opimm]; intros H; try discriminate H;
    first [exact (straight_li _ _ _ _ _ H)
          |apply (inj Some) in H as <-; first [apply straight_srx|apply straight_slli_rec|done]].
Qed.

(** * Arithmetic instructions *)

(** What an expansion does to the machine: [rd] gets [v], and besides [gp], [tp] and
    the scratch space nothing else changes. *)
Record computes (c : list binst) (rd : reg) (v : Z) (s : mini) : Prop := mkComputes {
  c_run : forall k pc, run (c ++ k) pc s = run k (pc + 4 * Z.of_nat (length c)) (exs c s);
  c_rd : rget (exs c s) rd = if rd =? 0 then 0 else v;
  c_regs : forall r, r <> rd -> r <> gp -> r <> tp -> rget (exs c s) r = rget s r;
  c_mem : forall a, ~ scratch (rget s sp) a -> mbytes (exs c s) a = mbytes s a;
  c_env : env (exs c s);
}.

Lemma spec_computes c rd v s rs ns : straight c = true -> spec c s rs ns false (rd_is rd v) ->
  rs ⊆ [rd; gp; tp] -> slots_ok ns = true -> computes c rd v s.
Proof.
  intros Hc (E & C & F) Hrs Hns. constructor; try done.
  - intros k pc. by apply run_straight.
  - intros r H1 H2 H3. apply C. intros Hin%Hrs. rewrite !elem_of_cons in Hin.
    destruct Hin as [|[|[|Hin]]]; [done..|]. by apply not_elem_of_nil in Hin.
  - intros a Ha. by eapply chg_outside.
Qed.

(** A piece that changes less. *)
Lemma spec_widen c s rs ns arr rs' ns' arr' (Q : mini -> Prop) : spec c s rs ns arr Q -> env s ->
  sp ∉ rs' -> rs ⊆ rs' -> ns ⊆ ns' -> implb arr arr' = true -> spec c s rs' ns' arr' Q.
Proof.
  intros (E & C & F) E0 Hsp Hr Hn Ha. split_and!; try done.
  apply (chg_trans y _ _ _ [] [] false _ _ _ _ _ _ (chg_refl y _ _ _ s) C); try done; [notin|set_solver..].
Qed.
Ltac widen H := refine (spec_widen _ _ _ _ _ _ _ _ _ H _ _ _ _ _); [assumption|notin|incl|incl|reflexivity].

Definition free (r : reg) : Prop := r <> gp /\ r <> tp.

(** Operations whose result needs no wrapping. *)
Definition fits (o : alu) : bool := match o with SLT | SLTU | XOR | OR | AND => true | _ => false end.
Lemma alu_u32 o a b : in_u 32 a -> in_u 32 b -> fits o = true -> u32 (alu_sem o a b) = alu_sem o a b.
Proof.
  intros Ha Hb Ho. apply wrap_id. destruct o; try discriminate Ho; cbn [alu_sem];
    [by destruct (_ <? _)|by destruct (_ <? _)|by apply bytewise_lxor|by apply bytewise_lor|by apply bytewise_land].
Qed.

Lemma op_spec o rd rs1 rs2 c s : replace_op y o rd rs1 rs2 = Some c -> env s -> rd <> sp -> rs1 <> tp ->
  spec c s [rd; gp; tp] [1; 2; 3; 4; 5; 6; 7] false (rd_is rd (u32 (alu_sem o (rget s rs1) (rget s rs2)))).
Proof.
  intros Hc E Hr H1. pose proof (rget_u32 s rs1 (env_wf _ _ E)) as Ha. pose proof (rget_u32 s rs2 (env_wf _ _ E)) as Hb.
  pose proof (alu_u32 o _ _ Ha Hb) as Hn. destruct o; cbn [replace_op] in Hc; try discriminate Hc;
    try (rewrite Hn by reflexivity); try (apply (inj Some) in Hc as <-).
  - widen (add_spec y rd rs1 rs2 s E Hr).
  - widen (sub_spec y rd rs1 rs2 s E Hr H1).
  - widen (sll_macro_spec y rd rs1 rs2 s E Hr).
  - widen (slt_spec y rd rs1 rs2 s E Hr).
  - widen (sltu_spec y rd rs1 rs2 s E Hr).
  - widen (xor_spec y rd rs1 rs2 c s Hc E).
  - widen (srx_reg_spec y rd rs1 rs2 false s E Hr).
  - widen (srx_reg_spec y rd rs1 rs2 true s E Hr).
  - widen (or_spec y rd rs1 rs2 c s Hc E).
  - widen (and_spec y rd rs1 rs2 c s Hc E).
Qed.

(** [def_itype]: load the immediate, then the register form. *)
Lemma li_spec rd rs1 imm c o s : env s -> rd <> sp -> rs1 <> tp ->
  (forall s', env s' -> spec c s' [rd; gp; tp] [1; 2; 3; 4; 5; 6; 7] false
    (rd_is rd (alu_sem o (rget s' rs1) (rget s' tp)))) ->
  spec (li tp imm ++ c) s [rd; gp; tp] [1; 2; 3; 4; 5; 6; 7] false
    (rd_is rd (alu_sem o (rget s rs1) (u32 imm))).
Proof.
  intros E Hr H1 H. remember (rget s rs1) as a eqn:Ea. symmetry in Ea. assert (rget s x0 = 0) by done.
  start. step_mid. step H. finish. done.
Qed.

Lemma opimm_spec o rd rs1 imm c s : replace_opimm y o rd rs1 imm = Some c -> env s -> rd <> sp -> free rd -> free rs1 ->
  (o = SLL \/ o = SRL \/ o = SRA -> 0 <= imm < 32) -> - 2 ^ 11 <= imm < 2 ^ 11 ->
  spec c s [rd; gp; tp] [1; 2; 3; 4; 5; 6; 7] false (rd_is rd (u32 (alu_sem o (rget s rs1) (u32 imm)))).
Proof.
  intros Hc E Hr [Hg Ht] [Hg1 Ht1] Hs Hi. pose proof (rget_u32 s rs1 (env_wf _ _ E)) as Ha.
  pose proof (alu_u32 o _ _ Ha (wrap_in_u 32 imm ltac:(lia))) as Hn.
  assert (o = SLL \/ o = SRL \/ o = SRA -> u32 imm = imm /\ u32 imm mod 32 = imm) as Hm.
  { intros Ho. specialize (Hs Ho). rewrite wrap_id by (unfold in_u; lia). split; [done|]. by apply Z.mod_small. }
  destruct o; cbn [replace_opimm] in Hc; try discriminate Hc;
    try (rewrite Hn by reflexivity); try (apply (inj Some) in Hc as <-); cbn [alu_sem];
    try (destruct Hm as [Hm1 Hm2]; [tauto|rewrite Hm2]; specialize (Hs ltac:(tauto))).
  - rewrite wrap_add_r. widen (addi_spec y rd rs1 imm s E Hr).
  - widen (slli_spec y rd rs1 imm s E Hr Hs).
  - apply (li_spec rd rs1 imm (slt y rd rs1 tp) SLT s); [assumption..|]. intros s' E'. widen (slt_spec y rd rs1 tp s' E' Hr).
  - apply (li_spec rd rs1 imm (sltu y rd rs1 tp) SLTU s); [assumption..|]. intros s' E'. widen (sltu_spec y rd rs1 tp s' E' Hr).
  - unfold xori in Hc. destruct (xor_ y rd rs1 tp) as [c'|] eqn:Hc'; [|done]. apply (inj Some) in Hc as <-.
    apply (li_spec rd rs1 imm c' XOR s); [assumption..|]. intros s' E'. widen (xor_spec y rd rs1 tp c' s' Hc' E').
  - widen (srx_imm_spec y rd rs1 imm false s E Hr Ht Hs).
  - widen (srx_imm_spec y rd rs1 imm true s E Hr Ht Hs).
  - unfold ori in Hc. destruct (or_ y rd rs1 tp) as [c'|] eqn:Hc'; [|done]. apply (inj Some) in Hc as <-.
    apply (li_spec rd rs1 imm c' OR s); [assumption..|]. intros s' E'. widen (or_spec y rd rs1 tp c' s' Hc' E').
  - unfold andi in Hc. destruct (and_ y rd rs1 tp) as [c'|] eqn:Hc'; [|done]. apply (inj Some) in Hc as <-.
    apply (li_spec rd rs1 imm c' AND s); [assumption..|]. intros s' E'. widen (and_spec y rd rs1 tp c' s' Hc' E').
Qed.

(** * Loads *)

(** The value of [len] bytes at [a]. *)
Definition load_value (m : Z -> Z) (a len : Z) : Z :=
  if len =? 1 then ld8 m a else if len =? 2 then ld8 m a + 2 ^ 8 * ld8 m (a + 1) else ld32 m a.

(** None of the [len] bytes at [a] is in the scratch space below [q]. *)
Definition clear_of (q a len : Z) : Prop := forall i, 0 <= i < len -> ~ scratch q (u32 (a + i)).

(** A byte that the code so far has not touched. *)
Ltac untouched a :=
  lazymatch goal with
  | Acc : chg ?y _ _ _ ?s ?st, Ha : ~ scratch _ a |- _ =>
      let H := fresh "Hm" in
      assert (mbytes st a = mbytes s a) as H by (apply (chg_outside y _ _ _ _ _ a Acc eq_refl Ha); discriminate)
  end.

Ltac at_base base p off a :=
  lazymatch goal with
  | E : env ?st, B : rget ?st base = p |- _ => assert (u32 (rget st base + off) = a) by (rewrite B; done)
  end.

Lemma lb_value x : 0 <= x < 256 ->
  u32 (right true (byte 0 0 + 2 ^ 8 * byte 1 0 + 2 ^ 16 * byte 2 0 + 2 ^ 24 * byte 0 x) / 2 ^ 24) = u32 (sgn 8 x).
Proof.
  intros Hx. rewrite shl_24. unfold right, sgn. rewrite !wrap_wrap.
  assert (wrap 32 (x * 2 ^ 24) = x * 2 ^ 24) as -> by (apply wrap_id; unfold in_u; lia).
  assert (wrap 8 x = x) as -> by (apply wrap_id; unfold in_u; lia).
  destruct (Z.ltb_spec (x * 2 ^ 24) (2 ^ (32 - 1))), (Z.ltb_spec x (2 ^ (8 - 1))); try lia; bytes_lia.
Qed.

Lemma lb_spec rd off base s : env s -> rd <> sp -> free rd -> ~ scratch (rget s sp) (u32 (rget s base + off)) ->
  spec (lb y rd off base) s [rd; gp; tp] [1; 2; 3; 4; 5; 6; 7] false
    (rd_is rd (u32 (sgn 8 (mbytes s (u32 (rget s base + off)))))).
Proof.
  intros E Hr [Hg Ht] Hc. pose proof (env_byte y s (u32 (rget s base + off)) E) as Hx.
  remember (rget s base) as p eqn:Ep. symmetry in Ep. remember (u32 (p + off)) as a eqn:Ea.
  assert (rget s x0 = 0) by done. rewrite <- lb_value by done.
  unfold lb, srai. start. destruct (decide (rd = 0)) as [-> | Hz]; step_mid; untouched a; at_base base p off a.
  - step (lbu_known y 0 off base a (mbytes s a)). do 2 step_mid. step (srx_imm_spec y 0 0 24 true). finish. done.
  - step (lbu_known y rd off base a (mbytes s a)). do 2 step_mid. step (srx_imm_spec y rd rd 24 true). finish.
    by apply rd_is_of.
Qed.

Lemma lhu_value x0 x1 : 0 <= x0 < 256 -> 0 <= x1 < 256 ->
  u32 (x0 + (byte 0 0 + 2 ^ 8 * byte 0 x1 + 2 ^ 16 * byte 2 0 + 2 ^ 24 * byte 3 0)) = u32 (x0 + 2 ^ 8 * x1).
Proof. intros H0 H1. bytes_lia. Qed.

Lemma lhu_spec rd off base s : env s -> rd <> sp -> free rd -> free base ->
  ~ scratch (rget s sp) (u32 (rget s base + off)) -> ~ scratch (rget s sp) (u32 (rget s base + (1 + off))) ->
  spec (lhu rd off base) s [rd; gp; tp] [1; 2; 3; 4; 5; 6; 7] false
    (rd_is rd (u32 (mbytes s (u32 (rget s base + off)) + 2 ^ 8 * mbytes s (u32 (rget s base + (1 + off)))))).
Proof.
  intros E Hr [Hg Ht] [Hg' Ht'] Hc0 Hc1. pose proof (env_byte y s (u32 (rget s base + off)) E) as Hx0.
  pose proof (env_byte y s (u32 (rget s base + (1 + off))) E) as Hx1.
  remember (rget s base) as p eqn:Ep. symmetry in Ep. remember (u32 (p + off)) as a eqn:Ea.
  remember (u32 (p + (1 + off))) as b eqn:Eb.
  assert (rget s x0 = 0) by done. rewrite <- lhu_value by done.
  unfold lhu. start. rewrite Z.add_0_l. destruct (decide (rd = 0)) as [-> | Hz]; step_mid; untouched b; at_base base p (1 + off) b;
    step (lbu_known y tp (1 + off) base b (mbytes s b)); do 2 step_mid; untouched a; at_base base p off a.
  - step (lbu_known y 0 off base a (mbytes s a)). step_mid. finish. done.
  - step (lbu_known y rd off base a (mbytes s a)). step_mid. finish. by apply rd_is_of.
Qed.

Lemma lh_value x0 x1 : 0 <= x0 < 256 -> 0 <= x1 < 256 ->
  u32 (x0 + u32 (right true (byte 0 0 + 2 ^ 8 * byte 1 0 + 2 ^ 16 * byte 2 0 + 2 ^ 24 * byte 0 x1) / 2 ^ 16))
  = u32 (sgn 16 (x0 + 2 ^ 8 * x1)).
Proof.
  intros H0 H1. rewrite shl_24, wrap_add_r. unfold right, sgn. rewrite !wrap_wrap.
  assert (wrap 32 (x1 * 2 ^ 24) = x1 * 2 ^ 24) as -> by (apply wrap_id; unfold in_u; lia).
  assert (wrap 16 (x0 + 2 ^ 8 * x1) = x0 + 2 ^ 8 * x1) as -> by (apply wrap_id; unfold in_u; lia).
  destruct (Z.ltb_spec (x1 * 2 ^ 24) (2 ^ (32 - 1))), (Z.ltb_spec (x0 + 2 ^ 8 * x1) (2 ^ (16 - 1))); try lia; bytes_lia.
Qed.

Lemma lh_spec rd off base s : env s -> rd <> sp -> free rd -> free base ->
  ~ scratch (rget s sp) (u32 (rget s base + off)) -> ~ scratch (rget s sp) (u32 (rget s base + (1 + off))) ->
  spec (lh y rd off base) s [rd; gp; tp] [1; 2; 3; 4; 5; 6; 7] false
    (rd_is rd (u32 (sgn 16 (mbytes s (u32 (rget s base + off)) + 2 ^ 8 * mbytes s (u32 (rget s base + (1 + off))))))).
Proof.
  intros E Hr [Hg Ht] [Hg' Ht'] Hc0 Hc1. pose proof (env_byte y s (u32 (rget s base + off)) E) as Hx0.
  pose proof (env_byte y s (u32 (rget s base + (1 + off))) E) as Hx1.
  remember (rget s base) as p eqn:Ep. symmetry in Ep. remember (u32 (p + off)) as a eqn:Ea.
  remember (u32 (p + (1 + off))) as b eqn:Eb.
  assert (rget s x0 = 0) by done. rewrite <- lh_value by done.
  unfold lh, srai. start. rewrite Z.add_0_l. destruct (decide (rd = 0)) as [-> | Hz]; step_mid; untouched b; at_base base p (1 + off) b;
    step (lbu_known y gp (1 + off) base b (mbytes s b)); do 2 step_mid; step (srx_imm_spec y gp gp 16 true);
    untouched a; at_base base p off a.
  - step (lbu_known y 0 off base a (mbytes s a)). step_mid. finish. done.
  - step (lbu_known y rd off base a (mbytes s a)). step_mid. finish. by apply rd_is_of.
Qed.

Lemma load_spec len signed rd off base c s : replace_load y len signed rd off base = Some c -> env s ->
  rd <> sp -> free rd -> free base -> clear_of (rget s sp) (rget s base + off) len ->
  let v := load_value (mbytes s) (rget s base + off) len in
  spec c s [rd; gp; tp] [1; 2; 3; 4; 5; 6; 7] false (rd_is rd (u32 (if signed then sgn (8 * len) v else v))).
Proof.
  intros Hc E Hr Hd Hb Hcl. cbv zeta. unfold replace_load in Hc. unfold load_value.
  destruct (Z.eqb_spec len 1) as [-> | ].
  { pose proof (Hcl 0 ltac:(lia)) as H0. rewrite Z.add_0_r in H0.
    destruct signed; apply (inj Some) in Hc as <-; [exact (lb_spec rd off base s E Hr Hd H0)|].
    unfold ld8. rewrite (byte_u32 y) by done. widen (lbu_at y rd off base s _ E Hr eq_refl). }
  destruct (Z.eqb_spec len 2) as [-> | ].
  { pose proof (Hcl 0 ltac:(lia)) as H0. rewrite Z.add_0_r in H0. pose proof (Hcl 1 ltac:(lia)) as H1.
    unfold ld8. replace (rget s base + off + 1) with (rget s base + (1 + off)) in * by lia.
    destruct signed; apply (inj Some) in Hc as <-;
      [exact (lh_spec rd off base s E Hr Hd Hb H0 H1)|exact (lhu_spec rd off base s E Hr Hd Hb H0 H1)]. }
  destruct (Z.eqb_spec len 4) as [-> | ]; [|done]. apply (inj Some) in Hc as <-.
  assert (in_u 32 (ld32 (mbytes s) (rget s base + off))) as Hu
    by (unfold ld32, ld8; apply byte_word; by apply (env_byte y)).
  assert (u32 (if signed then sgn (8 * 4) (ld32 (mbytes s) (rget s base + off)) else ld32 (mbytes s) (rget s base + off))
    = ld32 (mbytes s) (rget s base + off)) as ->.
  { destruct signed; [rewrite (wrap_sgn 32)|]; by apply wrap_id. }
  widen (lw_any y rd off base s E Hr).
Qed.

Lemma straight_load len signed rd off base c : replace_load y len signed rd off base = Some c -> straight c = true.
Proof. unfold replace_load. intros H. repeat case_match; simplify_eq; reflexivity. Qed.

(** * Stores *)

Definition tables : list (Z * list Z) :=
  [(logic_shift_table y, lut_bin); (same_result_table y, same_result_bytes);
   (check_8bit_0_table y, check_8bit_0_bytes); (slt1_table y, slt1_bytes);
   (sltu1_table y, sltu1_bytes); (or1_table y, or1_bytes)].

(** Bytes that hold no table. *)
Definition writable (a : Z) : Prop :=
  forall t, t ∈ tables -> ~ (fst t <= a < fst t + Z.of_nat (length (snd t))).

Lemma env_store s s' : env s -> mwf s' -> rget s' sp = rget s sp ->
  (forall a, ~ writable a -> mbytes s' a = mbytes s a) -> env s'.
Proof.
  intros [W S L Sa Ze Sl Su Or Ar Ap] Hwf Hsp Hm.
  assert (forall i t, tables !! i = Some t -> table_at y s (fst t) (snd t) -> table_at y s' (fst t) (snd t)) as T.
  { intros i t Ht (H0 & H1 & H). split_and!; try done. rewrite Hsp. intros k Hk. rewrite Hm; [by apply H|].
    intros Hw. apply (Hw t); [by eapply list_elem_of_lookup_2|]. lia. }
  constructor; [exact Hwf|by rewrite Hsp
    |exact (T 0%nat _ eq_refl L)|exact (T 1%nat _ eq_refl Sa)|exact (T 2%nat _ eq_refl Ze)
    |exact (T 3%nat _ eq_refl Sl)|exact (T 4%nat _ eq_refl Su)|exact (T 5%nat _ eq_refl Or)|exact Ar|].
  intros a Ha. rewrite Hsp. auto.
Qed.

Definition store_bytes (m : Z -> Z) (a len v : Z) : Z -> Z :=
  if len =? 1 then st8 m a v
  else if len =? 2 then st8 (st8 m a v) (a + 1) (Z.shiftr v 8) else st32 m a v.

Lemma st8_writable m a v k : writable (u32 a) -> ~ writable k -> st8 m a v k = m k.
Proof. intros Ha Hk. apply st8_other. by intros ->. Qed.

(** One byte stored by the program. *)
Lemma sb_env r off base s : env s -> writable (u32 (rget s base + off)) -> env (exs [Sb r off base] s).
Proof. intros E Hw. apply (env_store s); [done|by apply exs_wf, (env_wf _ _ E)|done|]. intros a. by apply st8_writable. Qed.

Lemma sh_spec rs off base s : env s -> free rs -> free base ->
  (forall i, 0 <= i < 2 -> writable (u32 (rget s base + off + i))) -> clear_of (rget s sp) (rget s base + off) 2 ->
  let s' := exs (sh rs off base) s in
  env s' /\ (forall r, r <> tp -> rget s' r = rget s r) /\
  (forall a, ~ scratch (rget s sp) a ->
    mbytes s' a = store_bytes (mbytes s) (rget s base + off) 2 (rget s rs) a).
Proof.
  intros E [Hg Ht] [Hg' Ht'] Hw Hc. cbv zeta. unfold sh. rewrite Z.add_0_l, !exs_app.
  pose proof (Hw 0 ltac:(lia)) as Hw0. pose proof (Hw 1 ltac:(lia)) as Hw1. rewrite Z.add_0_r in Hw0.
  pose proof (sb_env rs off base s E Hw0) as E1.
  assert (forall r, rget (exs [Sb rs off base] s) r = rget s r) as R1 by done.
  assert (mbytes (exs [Sb rs off base] s) = st8 (mbytes s) (rget s base + off) (rget s rs)) as M1 by done.
  destruct (getbyte_spec y tp rs 1 _ E1 ltac:(done) ltac:(lia)) as (E2 & C2 & F2).
  apply rd_is_nz in F2; [|done]. rewrite R1 in F2.
  set (s2 := exs (getbyte tp rs 1) (exs [Sb rs off base] s)) in *.
  assert (forall r, r <> tp -> rget s2 r = rget s r) as R2 by (intros r Hr; rewrite (chg_reg _ _ _ _ _ _ C2); [done|notin]).
  assert (rget s2 base + (1 + off) = rget s base + off + 1) as Ha by (rewrite R2 by done; lia).
  split_and!.
  - apply sb_env; [done|]. by rewrite Ha.
  - intros r Hr. by apply R2.
  - intros a Hs. change (mbytes (exs [Sb tp (1 + off) base] s2) a)
      with (st8 (mbytes s2) (rget s2 base + (1 + off)) (rget s2 tp) a).
    rewrite Ha, F2. unfold store_bytes. cbn [Z.eqb Pos.eqb].
    assert (u8 (byte 1 (rget s rs)) = u8 (Z.shiftr (rget s rs) 8)) as E8.
    { rewrite (u8_shiftr _ 1) by lia. apply wrap_id. pose proof (byte_range 1 (rget s rs)). unfold in_u. lia. }
    destruct (decide (a = u32 (rget s base + off + 1))) as [-> | Hne].
    + rewrite !st8_same by done. exact E8.
    + rewrite !(st8_other _ (rget s base + off + 1)) by done. rewrite <- M1.
      apply (chg_outside y _ _ _ _ _ a C2); [done|by rewrite R1|discriminate].
Qed.

Lemma store_spec len rs off base c s : replace_store len rs off base = Some c -> env s -> free rs -> free base ->
  (forall i, 0 <= i < len -> writable (u32 (rget s base + off + i))) -> clear_of (rget s sp) (rget s base + off) len ->
  straight c = true /\ env (exs c s) /\ (forall r, r <> tp -> rget (exs c s) r = rget s r) /\
  (forall a, ~ scratch (rget s sp) a ->
    mbytes (exs c s) a = store_bytes (mbytes s) (rget s base + off) len (rget s rs) a).
Proof.
  intros Hc E Hrs Hb Hw Hcl. unfold replace_store in Hc. unfold store_bytes.
  destruct (Z.eqb_spec len 1) as [-> | ].
  { apply (inj Some) in Hc as <-. split_and!; [reflexivity| |reflexivity|reflexivity]. apply sb_env; [done|]. specialize (Hw 0 ltac:(lia)).
    by rewrite Z.add_0_r in Hw. }
  destruct (Z.eqb_spec len 2) as [-> | ].
  { apply (inj Some) in Hc as <-. split; [done|]. exact (sh_spec rs off base s E Hrs Hb Hw Hcl). }
  destruct (Z.eqb_spec len 4) as [-> | ]; [|done]. apply (inj Some) in Hc as <-. split_and!; [reflexivity| |reflexivity|reflexivity].
  apply (env_store s); [done|by apply exs_wf, (env_wf _ _ E)|done|]. intros a Ha.
  change (st32 (mbytes s) (rget s base + off) (rget s rs) a = mbytes s a). unfold st32.
  pose proof (Hw 0 ltac:(lia)) as Hw0. rewrite Z.add_0_r in Hw0.
  rewrite !st8_writable; first [done|apply Hw; lia|exact Hw0].
Qed.

End Replace.
