(* ===== verification/MiniRvBranch.v ===== *)
(** The minirv jumps and branches, and the theorems about the replacement. *)

From S2P Require Import Prelude RvSpec MiniRv MiniRvTables MiniRvProof MiniRvOps MiniRvShift MiniRvMain.

Section Branch.
Variable y : symbols.
Abbreviation env := (env y).
Abbreviation spec := (spec y).

(** * The condition as a flag in [tp] *)

Definition flag (c : list binst) (s : mini) (b : bool) : Prop :=
  spec c s [gp; tp] [1; 2; 3; 4; 5; 6; 7] true (fun s' => rget s' tp = b2z b).

Lemma flag_of c s rs ns arr v b : spec c s rs ns arr (rd_is tp v) -> env s -> v = b2z b ->
  rs ⊆ [gp; tp] -> ns ⊆ [1; 2; 3; 4; 5; 6; 7] -> flag c s b.
Proof.
  intros H E -> Hr Hn. unfold flag. apply (spec_conseq y _ _ _ _ _ (rd_is tp (b2z b))); [|intros s' F; by apply rd_is_nz].
  apply (spec_widen y _ _ _ _ _ _ _ _ _ H E); [notin|done|done|by destruct arr].
Qed.

Lemma seq_flag rs1 rs2 s : env s -> flag (seq_ y tp rs1 rs2) s (rget s rs1 =? rget s rs2).
Proof.
  intros E. eapply flag_of; [exact (seq_spec y tp rs1 rs2 s E ltac:(done) ltac:(done) ltac:(done))|done| |incl|incl].
  unfold b2z. by destruct (_ =? _).
Qed.
Lemma seqz_flag rs1 s : env s -> flag (seqz y tp rs1) s (rget s rs1 =? 0).
Proof.
  intros E. eapply flag_of; [exact (seqz_spec y tp rs1 s E ltac:(done) ltac:(done))|done| |incl|incl].
  unfold b2z. by destruct (_ =? _).
Qed.
Lemma slt_flag rs1 rs2 s : env s -> flag (slt y tp rs1 rs2) s (s32 (rget s rs1) <? s32 (rget s rs2)).
Proof.
  intros E. eapply flag_of; [exact (slt_spec y tp rs1 rs2 s E ltac:(done))|done| |incl|incl].
  cbn [alu_sem]. unfold b2z. by destruct (_ <? _).
Qed.
Lemma sltu_flag rs1 rs2 s : env s -> flag (sltu y tp rs1 rs2) s (rget s rs1 <? rget s rs2).
Proof.
  intros E. eapply flag_of; [exact (sltu_spec y tp rs1 rs2 s E ltac:(done))|done| |incl|incl].
  cbn [alu_sem]. rewrite !wrap_id by apply rget_u32, (env_wf _ _ E). unfold b2z. by destruct (_ <? _).
Qed.

Lemma msb_neg a : in_u 32 a -> a / 2 ^ 31 = b2z (s32 a <? 0).
Proof.
  intros H. unfold b2z, sgn. rewrite wrap_id by done.
  destruct (Z.ltb_spec a (2 ^ (32 - 1))).
  - destruct (Z.ltb_spec a 0); unfold in_u in *; [lia|bytes_lia].
  - destruct (Z.ltb_spec (a - 2 ^ 32) 0); unfold in_u in *; [bytes_lia|lia].
Qed.

Lemma msb_flag rs1 s : env s -> flag (msb tp rs1) s (s32 (rget s rs1) <? 0).
Proof.
  intros E. pose proof (msb_spec y tp rs1 s E ltac:(done) ltac:(done)) as H.
  unfold flag. rewrite <- msb_neg by apply rget_u32, (env_wf _ _ E).
  apply (spec_widen y _ _ _ _ _ _ _ _ _ H E); [notin|incl|incl|done].
Qed.

(** [rs2 <= 0], by the signs of [rs2] and [rs2 - 1]. *)
Lemma gtz_value b : in_u 32 b ->
  0 <= u32 (b / 2 ^ 31 + u32 (b + -1) / 2 ^ 31) < 4 /\
  nth (Z.to_nat (u32 (b / 2 ^ 31 + u32 (b + -1) / 2 ^ 31))) or1_bytes 0 = b2z (negb (0 <? s32 b)).
Proof.
  intros H. assert (b = 0 \/ 0 < b < 2 ^ 31 \/ b = 2 ^ 31 \/ 2 ^ 31 < b < 2 ^ 32) as Hc by (unfold in_u in H; lia).
  unfold sgn. rewrite (wrap_id 32 b) by done.
  destruct Hc as [-> | [Hc | [-> | Hc]]]; [by vm_compute| |by vm_compute|].
  - assert (b / 2 ^ 31 = 0) as -> by bytes_lia. assert (u32 (b + -1) / 2 ^ 31 = 0) as -> by bytes_lia.
    destruct (Z.ltb_spec b (2 ^ (32 - 1))); [|lia]. destruct (Z.ltb_spec 0 b); [by vm_compute|lia].
  - assert (b / 2 ^ 31 = 1) as -> by bytes_lia. assert (u32 (b + -1) / 2 ^ 31 = 1) as -> by bytes_lia.
    destruct (Z.ltb_spec b (2 ^ (32 - 1))); [lia|]. destruct (Z.ltb_spec 0 (b - 2 ^ 32)); [lia|by vm_compute].
Qed.

Lemma gtz_flag_ok rs2 s : env s -> free rs2 -> flag (gtz_flag y rs2) s (negb (0 <? s32 (rget s rs2))).
Proof.
  intros E [Hg Ht]. pose proof (rget_u32 s rs2 (env_wf _ _ E)) as Hb. destruct (gtz_value _ Hb) as [Hi Hv].
  unfold flag. rewrite <- Hv. remember (rget s rs2) as b eqn:Eb. symmetry in Eb.
  remember (u32 (b / 2 ^ 31 + u32 (b + -1) / 2 ^ 31)) as i eqn:Ei.
  destruct (table_read y s _ _ i (env_or _ _ E) Hi) as [_ Hu].
  assert (in_u 32 (or1_table y)) by (pose proof (proj1 (env_or _ _ E)); unfold in_u in *; lia).
  unfold gtz_flag. start. do 6 step_mid. rewrite <- Ei in *.
  lazymatch goal with E : env ?st |- _ => destruct (table_read y st _ _ i (env_or _ _ E) Hi) as [Hm _] end.
  step (lbu_known y tp 0 tp (or1_table y + i) (nth (Z.to_nat i) or1_bytes 0)). finish. done.
Qed.

(** * Choosing the next pc *)

Definition resolve_head (target : Z) (high : bool) (lbl : Z) : list binst :=
  slli tp tp 2 ++ [Add tp sp tp] ++
  (if high then la gp target ++ PUSH gp VAR_A ++ la gp lbl ++ PUSH gp VAR_B
   else la gp lbl ++ PUSH gp VAR_A ++ la gp target ++ PUSH gp VAR_B) ++
  [Lw tp (- VAR_B * 4) tp].

Lemma resolve_cut target high lbl : branch_resolve target high lbl = resolve_head target high lbl ++ jr tp.
Proof. unfold branch_resolve, resolve_head. by rewrite <- !app_assoc. Qed.

(** A word below the stack pointer, read through another register. *)
Lemma lw_slot rd base off n w s : env s -> rd <> sp -> 1 <= n <= 7 -> in_u 32 w ->
  u32 (rget s base + off) = rget s sp - n * 4 -> (forall b, 0 <= b < 4 -> vb s n b = byte b w) ->
  spec [Lw rd off base] s [rd] [] false (rd_is rd w).
Proof.
  intros E Hr Hn Hw Ha Hb. apply (lw_known y _ _ _ (rget s sp - n * 4)); [done|done|done| |done].
  pose proof (env_sp _ _ E). pose proof (rget_u32 s sp (env_wf _ _ E)). unfold in_u in *.
  apply ld32_bytes; [unfold in_u; lia|unfold in_u; lia|done|done].
Qed.

Ltac slot_is n w :=
  lazymatch goal with
  | E : env ?st |- _ =>
      assert (forall b, 0 <= b < 4 -> vb st n b = byte b w)
        by (let b := fresh in let Hb := fresh in
            intros b Hb; destruct (four b Hb) as [-> | [-> | [-> | ->]]]; assumption)
  end.

Ltac pick n :=
  lazymatch goal with
  | E : env ?st, Ht : rget ?st tp = _, Hq : rget ?st sp = _, H : forall n, _ \/ _ -> _ |- _ =>
      assert (u32 (rget st tp + -20) = rget st sp - n * 4)
        by (rewrite Ht, Hq; apply (H n); [lia|reflexivity])
  end.

Lemma resolve_spec target high lbl f s : env s -> in_u 32 target -> in_u 32 lbl -> rget s tp = b2z f ->
  spec (resolve_head target high lbl) s [gp; tp] [4; 5] false
    (fun s' => rget s' tp = if Bool.eqb f high then target else lbl).
Proof.
  intros E Ht Hl Hf. pose proof (env_sp _ _ E) as Hq. pose proof (rget_u32 s sp (env_wf _ _ E)) as Hqu.
  remember (rget s sp) as q eqn:Eq. symmetry in Eq. unfold in_u in Hqu.
  unfold resolve_head, VAR_A, VAR_B. change (- (5) * 4) with (-20). start.
  do 2 step_mid.
  assert (u32 (q + u32 (b2z f * 2 ^ 2)) = u32 (q + 4 * b2z f)) as Hv by (rewrite wrap_add_r; f_equal; lia).
  rewrite Hv in *. clear Hv.
  assert (forall n, n = 4 \/ n = 5 -> f = (n =? 4) -> u32 (u32 (q + 4 * b2z f) + -20) = q - n * 4) as Hadr.
  { intros n Hn ->. rewrite wrap_add_l.
    destruct Hn as [-> | ->]; cbn [Z.eqb Pos.eqb b2z]; (rewrite wrap_id; [|unfold in_u]; lia). }
  destruct high; rewrite ?exs_app; do 4 step_mid; destruct f; cbn [Bool.eqb].
  - pick 4. slot_is 4 target. step (lw_slot tp tp (-20) 4 target). by finish.
  - pick 5. slot_is 5 lbl. step (lw_slot tp tp (-20) 5 lbl). by finish.
  - pick 4. slot_is 4 lbl. step (lw_slot tp tp (-20) 4 lbl). by finish.
  - pick 5. slot_is 5 target. step (lw_slot tp tp (-20) 5 target). by finish.
Qed.

(** The state after [jr] has the same registers. *)
Lemma run_jr r pc s : run (jr r) pc s = (rset s x0 (pc + 4), 2 * (u32 (rget s r + 0) / 2)).
Proof. done. Qed.

(** * Branches *)

(** A flag that decides a condition. *)
Definition decides (c : cond) (rs1 rs2 : reg) (fc : list binst) (high : bool) : Prop :=
  straight fc = true /\
  forall s, env s -> free rs1 -> free rs2 -> exists f, flag fc s f /\ Bool.eqb f high = cond_sem c (rget s rs1) (rget s rs2).

Lemma beq_flag_ok rs1 rs2 s : env s -> flag (beq_flag y rs1 rs2) s (rget s rs1 =? rget s rs2).
Proof.
  intros E. unfold beq_flag. destruct (Z.eqb_spec rs2 x0) as [-> | ].
  - exact (seqz_flag rs1 s E).
  - destruct (Z.eqb_spec rs1 x0) as [-> | ]; [|exact (seq_flag rs1 rs2 s E)].
    rewrite Z.eqb_sym. exact (seqz_flag rs2 s E).
Qed.

Lemma eqb_true b : Bool.eqb b true = b.
Proof. by destruct b. Qed.
Lemma eqb_false b : Bool.eqb b false = negb b.
Proof. by destruct b. Qed.

Lemma branch_cut c rs1 rs2 : exists fc high, decides c rs1 rs2 fc high /\
  forall target lbl, branch y c rs1 rs2 target lbl = fc ++ branch_resolve target high lbl.
Proof.
  assert (straight (beq_flag y rs1 rs2) = true) as Hb
    by (unfold beq_flag; destruct (rs2 =? x0), (rs1 =? x0); reflexivity).
  destruct c; cbn [branch].
  - exists (beq_flag y rs1 rs2), true. split; [|reflexivity]. split; [exact Hb|]. intros s E _ _.
    eexists. split; [exact (beq_flag_ok rs1 rs2 s E)|]. apply eqb_true.
  - exists (beq_flag y rs1 rs2), false. split; [|reflexivity]. split; [exact Hb|]. intros s E _ _.
    eexists. split; [exact (beq_flag_ok rs1 rs2 s E)|]. apply eqb_false.
  - destruct (Z.eqb_spec rs2 x0) as [-> | ]; [|destruct (Z.eqb_spec rs1 x0) as [-> | ]].
    + exists (msb tp rs1), true. split; [|reflexivity]. split; [reflexivity|]. intros s E _ _.
      eexists. split; [exact (msb_flag rs1 s E)|]. apply eqb_true.
    + exists (gtz_flag y rs2), false. split; [|reflexivity]. split; [reflexivity|]. intros s E _ H2.
      eexists. split; [exact (gtz_flag_ok rs2 s E H2)|]. rewrite eqb_false. apply negb_involutive.
    + exists (slt y tp rs1 rs2), true. split; [|reflexivity]. split; [reflexivity|]. intros s E _ _.
      eexists. split; [exact (slt_flag rs1 rs2 s E)|]. apply eqb_true.
  - destruct (Z.eqb_spec rs1 x0) as [-> | ].
    + exists (gtz_flag y rs2), true. split; [|reflexivity]. split; [reflexivity|]. intros s E _ H2.
      eexists. split; [exact (gtz_flag_ok rs2 s E H2)|]. apply eqb_true.
    + exists (slt y tp rs1 rs2), false. split; [|reflexivity]. split; [reflexivity|]. intros s E _ _.
      eexists. split; [exact (slt_flag rs1 rs2 s E)|]. apply eqb_false.
  - exists (sltu y tp rs1 rs2), true. split; [|reflexivity]. split; [reflexivity|]. intros s E _ _.
    eexists. split; [exact (sltu_flag rs1 rs2 s E)|]. apply eqb_true.
  - exists (sltu y tp rs1 rs2), false. split; [|reflexivity]. split; [reflexivity|]. intros s E _ _.
    eexists. split; [exact (sltu_flag rs1 rs2 s E)|]. apply eqb_false.
Qed.

Lemma straight_resolve target high lbl : straight (resolve_head target high lbl) = true.
Proof. by destruct high. Qed.

Lemma resolve_length target high lbl lbl' :
  length (branch_resolve target high lbl) = length (branch_resolve target high lbl').
Proof. by destruct high. Qed.

Lemma branch_at_length c rs1 rs2 target pc lbl :
  length (branch_at y c rs1 rs2 target pc) = length (branch y c rs1 rs2 target lbl).
Proof.
  unfold branch_at. destruct (branch_cut c rs1 rs2) as (fc & high & _ & Hcut).
  rewrite !Hcut, !length_app. f_equal. apply resolve_length.
Qed.

Lemma even_jump a : in_u 32 a -> a mod 2 = 0 -> 2 * (u32 (a + 0) / 2) = a.
Proof. intros H He. rewrite Z.add_0_r, wrap_id by done. pose proof (Z.div_mod a 2). lia. Qed.

Lemma branch_run c rs1 rs2 target pc s : env s -> free rs1 -> free rs2 -> in_u 32 target -> target mod 2 = 0 ->
  let code := branch_at y c rs1 rs2 target pc in
  let next := pc + 4 * Z.of_nat (length code) in
  in_u 32 next -> pc mod 2 = 0 ->
  exists s', run code pc s = (s', if cond_sem c (rget s rs1) (rget s rs2) then target else next) /\
    env s' /\ chg y [x0; gp; tp] [1; 2; 3; 4; 5; 6; 7] true s s'.
Proof.
  intros E Hr1 Hr2 Ht Het code next Hn Hep. subst code next.
  rewrite (branch_at_length _ _ _ _ _ 0) in *. unfold branch_at.
  remember (pc + 4 * Z.of_nat (length (branch y c rs1 rs2 target 0))) as lbl eqn:El.
  assert (lbl mod 2 = 0) as Hel.
  { rewrite El. rewrite Z.add_mod, Hep by lia. replace (4 * Z.of_nat (length (branch y c rs1 rs2 target 0)))
      with (2 * Z.of_nat (length (branch y c rs1 rs2 target 0)) * 2) by lia. by rewrite Z.mod_mul. }
  destruct (branch_cut c rs1 rs2) as (fc & high & [Hst Hd] & Hcut). rewrite Hcut.
  destruct (Hd s E Hr1 Hr2) as (f & (E1 & C1 & F1) & Hf). rewrite <- Hf.
  destruct (resolve_spec target high lbl f _ E1 Ht Hn F1) as (E2 & C2 & F2).
  rewrite resolve_cut, run_straight, run_straight, run_jr by (exact Hst || apply straight_resolve).
  rewrite F2. set (s2 := exs (resolve_head target high lbl) (exs fc s)) in *.
  eexists. split; [f_equal; by destruct (Bool.eqb f high); apply even_jump|].
  pose proof (rset_chg y s2 x0 (pc + 4 * Z.of_nat (length fc) + 4 * Z.of_nat (length (resolve_head target high lbl)) + 4)) as C3.
  split; [exact (env_chg y _ _ _ _ _ C3 eq_refl ltac:(notin) E2)|].
  refine (chg_trans y _ _ _ [gp; tp] [1; 2; 3; 4; 5; 6; 7] true [x0] [] false s s2 _ _ C3 _ _ _ _ _ _);
    [|notin|incl|incl|incl|incl|reflexivity].
  refine (chg_trans y _ _ _ _ _ _ _ _ _ _ _ _ C1 C2 _ _ _ _ _ _); [notin|incl|incl|incl|incl|reflexivity].
Qed.

(** ** Jumps *)

Lemma la_run r a pc s k : run (la r a ++ k) pc s = run k (pc + 8) (exs (la r a) s).
Proof. by rewrite run_straight. Qed.

Lemma jal_run rd target pc s : env s -> rd <> sp -> in_u 32 target -> target mod 2 = 0 ->
  exists s', run (jal rd target) pc s = (s', target) /\ env s' /\
    chg y [x0; rd; tp] [] false s s' /\ rd_is rd (u32 (pc + 12)) s'.
Proof.
  intros E Hr Ht He. unfold jal, j, call_template. destruct (Z.eqb_spec rd x0) as [-> | Hne].
  - destruct (la_spec y tp target s E ltac:(done) ltac:(done) Ht) as (E1 & C1 & F1).
    pose proof (rset_chg y (exs (la tp target) s) x0 (pc + 8 + 4)) as C2.
    rewrite la_run. eexists. split; [cbn [run]; f_equal; rewrite F1; by apply even_jump|].
    split; [exact (env_chg y _ _ _ _ _ C2 eq_refl ltac:(notin) E1)|]. split; [|done].
    refine (chg_trans y _ _ _ _ _ _ _ _ _ _ _ _ C1 C2 _ _ _ _ _ _); [notin|incl|incl|incl|incl|reflexivity].
  - destruct (la_spec y rd target s E Hr Hne Ht) as (E1 & C1 & F1).
    pose proof (rset_chg y (exs (la rd target) s) rd (pc + 8 + 4)) as C2.
    rewrite la_run. eexists. split; [cbn [run]; f_equal; rewrite F1; by apply even_jump|].
    split; [refine (env_chg y _ _ _ _ _ C2 eq_refl _ E1); notin|]. split.
    + refine (chg_trans y _ _ _ _ _ _ _ _ _ _ _ _ C1 C2 _ _ _ _ _ _); [notin|incl|incl|incl|incl|reflexivity].
    + replace (pc + 12) with (pc + 8 + 4) by lia. apply rd_is_rset.
Qed.

(** * The replacement is correct *)

(** C15. The expansion of every register and immediate instruction, when there is one,
    computes what the instruction is specified to compute: [rd] gets the value, control
    continues behind the expansion, and nothing changes but [rd], [gp], [tp] and the
    scratch words below the stack pointer. *)
Theorem replace_alu_correct o rd rs1 c s : env s -> rd <> sp -> free rd -> free rs1 ->
  (forall rs2, replace_op y o rd rs1 rs2 = Some c ->
    computes y c rd (u32 (alu_sem o (rget s rs1) (rget s rs2))) s) /\
  (forall imm, replace_opimm y o rd rs1 imm = Some c -> - 2 ^ 11 <= imm < 2 ^ 11 ->
    (o = SLL \/ o = SRL \/ o = SRA -> 0 <= imm < 32) ->
    computes y c rd (u32 (alu_sem o (rget s rs1) (u32 imm))) s).
Proof.
  intros E Hr Hd H1. split.
  - intros rs2 Hc. eapply spec_computes; [exact (straight_op y _ _ _ _ _ Hc)
      |exact (op_spec y _ _ _ _ _ _ Hc E Hr (proj2 H1))|done|done].
  - intros imm Hc Hi Hs. eapply spec_computes; [exact (straight_opimm y _ _ _ _ _ Hc)
      |exact (opimm_spec y _ _ _ _ _ _ Hc E Hr Hd H1 Hs Hi)|done|done].
Qed.

(** C17. The expansions of loads and stores access memory as the instructions do: a load
    leaves the zero- or sign-extended bytes in [rd], a store changes exactly the
    addressed bytes outside the scratch words, for every access that avoids the scratch
    words (and, when storing, the tables). *)
Theorem replace_mem_correct len off base c s : env s -> free base ->
  clear_of (rget s sp) (rget s base + off) len ->
  (forall signed rd, replace_load y len signed rd off base = Some c -> rd <> sp -> free rd ->
    let v := load_value (mbytes s) (rget s base + off) len in
    computes y c rd (u32 (if signed then sgn (8 * len) v else v)) s) /\
  (forall rs, replace_store len rs off base = Some c -> free rs ->
    (forall i, 0 <= i < len -> writable y (u32 (rget s base + off + i))) ->
    (forall k pc, run (c ++ k) pc s = run k (pc + 4 * Z.of_nat (length c)) (exs c s)) /\
    env (exs c s) /\ (forall r, r <> tp -> rget (exs c s) r = rget s r) /\
    (forall a, ~ scratch (rget s sp) a ->
      mbytes (exs c s) a = store_bytes (mbytes s) (rget s base + off) len (rget s rs) a)).
Proof.
  intros E Hb Hcl. split.
  - intros signed rd Hc Hr Hd. eapply spec_computes; [exact (straight_load y _ _ _ _ _ _ Hc)
      |exact (load_spec y _ _ _ _ _ _ _ Hc E Hr Hd Hb Hcl)|done|done].
  - intros rs Hc Hrs Hw. destruct (store_spec y _ _ _ _ _ _ Hc E Hrs Hb Hw Hcl) as (Hst & E' & HR & HM).
    split; [|by split]. intros k pc. by apply run_straight.
Qed.

(** C16. The expansion of a conditional branch goes to the target exactly when the
    condition of the instruction holds and otherwise to the instruction behind the
    expansion; it changes no register but [gp] and [tp] and no byte outside the scratch
    words and the comparison array. *)
Theorem replace_branch_correct c rs1 rs2 target pc s :
  env s -> free rs1 -> free rs2 -> in_u 32 target -> target mod 2 = 0 -> pc mod 2 = 0 ->
  let code := branch_at y c rs1 rs2 target pc in
  let next := pc + 4 * Z.of_nat (length code) in
  in_u 32 next ->
  exists s', run code pc s = (s', if cond_sem c (rget s rs1) (rget s rs2) then target else next) /\
    env s' /\ (forall r, r <> gp -> r <> tp -> rget s' r = rget s r) /\
    (forall a, ~ scratch (rget s sp) a -> ~ in_array y a -> mbytes s' a = mbytes s a).
Proof.
  intros E H1 H2 Ht Het Hep code next Hn.
  destruct (branch_run c rs1 rs2 target pc s E H1 H2 Ht Het Hn Hep) as (s' & Hrun & E' & C).
  exists s'. split_and!; [exact Hrun|exact E'| |].
  - intros r Hg Htp. destruct (decide (r = x0)) as [-> | Hx]; [reflexivity|]. apply C. notin.
  - intros a Hs Ha. apply (chg_outside y _ _ _ _ _ a C); [reflexivity|exact Hs|]. intros _. exact Ha.
Qed.

End Branch.

(** * A machine with the tables in memory *)

Module MiniRvWitness.

Definition y0 : symbols :=
  mkSymbols 0x80010000 0x80060000 0x80060100 0x80060200 0x80060300 0x80060400 0x80061000.

Definition within (base size a : Z) : bool := (base <=? a) && (a <? base + size).

Definition m0 (a : Z) : Z :=
  if within 0x80010000 294912 a then nth (Z.to_nat (a - 0x80010000)) lut_bin 0
  else if within 0x80060000 8 a then nth (Z.to_nat (a - 0x80060000)) same_result_bytes 0
  else if within 0x80060100 256 a then nth (Z.to_nat (a - 0x80060100)) check_8bit_0_bytes 0
  else if within 0x80060200 8 a then nth (Z.to_nat (a - 0x80060200)) slt1_bytes 0
  else if within 0x80060300 8 a then nth (Z.to_nat (a - 0x80060300)) sltu1_bytes 0
  else if within 0x80060400 4 a then nth (Z.to_nat (a - 0x80060400)) or1_bytes 0
  else if a =? 0x80100001 then 0x80 else 0.

(** [sp] = 0x80200000, [a0] = 0x80000005, [a1] = 35, [a2] = 0x80100000. *)
Definition r0 (r : reg) : Z :=
  if r =? 2 then 0x80200000 else if r =? 10 then 0x80000005 else if r =? 11 then 35
  else if r =? 12 then 0x80100000 else 0.

Definition st0 : mini := mkMini r0 m0.

Lemma nth_u8 bs k : Forall (in_u 8) bs -> in_u 8 (nth k bs 0).
Proof.
  intros H. destruct (nth_in_or_default k bs 0) as [Hin | ->]; [|done].
  rewrite List.Forall_forall in H. by apply H.
Qed.

Lemma st0_wf : mwf st0.
Proof.
  constructor; cbn [mregs mbytes st0].
  - intros r. unfold r0. repeat case_match; done.
  - intros a. unfold m0. pose proof lut_u8 as Hl.
    repeat (case_match; [apply nth_u8; first [exact Hl|repeat constructor; fail|by repeat constructor]|]).
    by case_match.
Qed.

Lemma within_true base size a : base <= a < base + size -> within base size a = true.
Proof. unfold within. lia. Qed.
Lemma within_false base size a : a < base \/ base + size <= a -> within base size a = false.
Proof. unfold within. lia. Qed.

(** A table of [m0]: in no earlier table, and away from the written bytes. *)
Lemma st0_table base size bs : Z.of_nat (length bs) = size -> 0 <= base -> base + size <= 0x80061000 ->
  (forall a, base <= a < base + size -> m0 a = nth (Z.to_nat (a - base)) bs 0) -> table_at y0 st0 base bs.
Proof.
  intros <- H0 H1 H. split; [done|]. split; [lia|]. intros k Hk. split.
  - cbn [mbytes st0]. rewrite H by lia. f_equal. lia.
  - unfold scratch, in_array. change (rget st0 sp) with 0x80200000. cbn [check_same_array y0]. lia.
Qed.

Ltac lookup_m0 :=
  intros a Ha; cbn in Ha; unfold m0; repeat rewrite within_false by lia; rewrite within_true by lia; reflexivity.

Lemma st0_env : env y0 st0.
Proof.
  constructor; [exact st0_wf|done| | | | | | |done|].
  - apply (st0_table _ 294912); [exact lut_length|done|done|lookup_m0].
  - apply (st0_table _ 8); [done|done|done|lookup_m0].
  - apply (st0_table _ 256); [done|done|done|lookup_m0].
  - apply (st0_table _ 8); [done|done|done|lookup_m0].
  - apply (st0_table _ 8); [done|done|done|lookup_m0].
  - apply (st0_table _ 4); [done|done|done|lookup_m0].
  - intros a. unfold in_array, scratch. change (rget st0 sp) with 0x80200000. cbn [check_same_array y0]. lia.
Qed.

(** [sra a0, a0, a1] and [xori a0, a0, -1]. *)
Lemma replace_alu_correct_witness :
  rget (exs (sra y0 10 10 11) st0) 10 = 0xf0000000 /\
  match xori y0 10 10 (-1) with Some c => rget (exs c st0) 10 = 0x7ffffffa | None => False end.
Proof.
  split.
  - exact (c_rd y0 _ _ _ _ (proj1 (replace_alu_correct y0 SRA 10 10 (sra y0 10 10 11) st0 st0_env
      ltac:(done) ltac:(done) ltac:(done)) 11 eq_refl)).
  - destruct (xori y0 10 10 (-1)) as [c|] eqn:Hc; [|discriminate Hc].
    refine (c_rd y0 _ _ _ _ (proj2 (replace_alu_correct y0 XOR 10 10 c st0 st0_env
      ltac:(done) ltac:(done) ltac:(done)) (-1) Hc _ _)); [lia|intros [H | [H | H]]; discriminate H].
Defined.

(** [lh a0, 0(a2)] of the bytes 00 80, and [sh a0, 2(a2)]. *)
Lemma replace_mem_correct_witness :
  rget (exs (lh y0 10 0 12) st0) 10 = 0xffff8000 /\
  mbytes (exs (sh 10 2 12) st0) 0x80100002 = 5.
Proof.
  assert (forall off, 0 <= off < 4 -> clear_of (rget st0 sp) (rget st0 12 + off) 2) as Hc.
  { intros off Ho i Hi. change (rget st0 12) with 0x80100000. change (rget st0 sp) with 0x80200000.
    unfold scratch. rewrite wrap_id by (unfold in_u; lia). lia. }
  split.
  - exact (c_rd y0 _ _ _ _ (proj1 (replace_mem_correct y0 2 0 12 (lh y0 10 0 12) st0 st0_env
      ltac:(done) (Hc 0 ltac:(lia))) true 10 eq_refl ltac:(done) ltac:(done))).
  - refine (proj2 (proj2 (proj2 (proj2 (replace_mem_correct y0 2 2 12 (sh 10 2 12) st0 st0_env
      ltac:(done) (Hc 2 ltac:(lia))) 10 eq_refl ltac:(done) _))) 0x80100002 _).
    + intros i Hi t Ht. change (rget st0 12) with 0x80100000. rewrite wrap_id by (unfold in_u; lia).
      unfold tables in Ht. rewrite !elem_of_cons, elem_of_nil in Ht.
      destruct Ht as [-> | [-> | [-> | [-> | [-> | [-> | []]]]]]]; cbn [fst snd]; rewrite ?lut_length; cbn; lia.
    + unfold scratch. change (rget st0 sp) with 0x80200000. lia.
Defined.

(** [bltu a1, a0, 0x80000100] at 0x80000000. *)
Lemma replace_branch_correct_witness :
  exists s', run (branch_at y0 BLTU 11 10 0x80000100 0x80000000) 0x80000000 st0 = (s', 0x80000100) /\ rget s' 10 = 0x80000005.
Proof.
  destruct (replace_branch_correct y0 BLTU 11 10 0x80000100 0x80000000 st0 st0_env) as (s' & Hr & _ & Hg & _);
    [done|done|done|done|done| |].
  - rewrite (branch_at_length y0 _ _ _ _ _ 0). done.
  - exists s'. split; [exact Hr|]. by rewrite Hg.
Defined.
End MiniRvWitness.
