(* ===== verification/NpcDatapath.v ===== *)
(** The combinational parts of the processor [ysyx_25120302] ([npc/vsrc]): [params.vh],
    [ALU.sv], [CSR.sv], the decoder of [IDU.v], the data path of [EXU.sv] and the byte
    lanes of [LSU.sv].

    A vector is its value as a [Z], a single wire is a [bool]; logic has two values, as in
    the Verilator model. An [always @( * )] block is the sequence of its assignments. *)

From S2P Require Import Prelude.

(** [w[hi:lo]], [{n{b}}], [{a, b}] with [b] of [n] bits, and [~x] of 32 bits. *)
Definition slice (w hi lo : Z) : Z := (w / 2 ^ lo) mod 2 ^ (hi - lo + 1).
Definition rep (n : Z) (b : bool) : Z := if b then 2 ^ n - 1 else 0.
Definition cat (n a b : Z) : Z := a * 2 ^ n + b.
Definition vnot (x : Z) : Z := Z.ones 32 - x.

(** * [params.vh] *)

Definition NPC_ALU : Z := 0.
Definition NPC_MEM : Z := 1.
Definition NPC_PC4 : Z := 2.
Definition NPC_CSR : Z := 3.

Definition CSR_WRITE : Z := 0.
Definition CSR_SET : Z := 1.

Definition NPC_RS1_DATA : Z := 0.
Definition NPC_CUR_PC : Z := 1.
Definition NPC_ZERO : Z := 2.

Definition NPC_RS2_DATA : Z := 0.
Definition NPC_IMM : Z := 1.
Definition NPC_SHAMT : Z := 2.

Definition NPC_ALU_ADD : Z := 0.
Definition NPC_ALU_SUB : Z := 1.
Definition NPC_ALU_AND : Z := 2.
Definition NPC_ALU_OR : Z := 3.
Definition NPC_ALU_XOR : Z := 4.
Definition NPC_ALU_SLL : Z := 5.
Definition NPC_ALU_SRL : Z := 6.
Definition NPC_ALU_SRA : Z := 7.
Definition NPC_ALU_SLT : Z := 8.
Definition NPC_ALU_SLTU : Z := 9.

(** * [ALU.sv] *)

Record flags : Type := mkFlags { ZERO : bool; NEGATIVE : bool; NOBORROW : bool; OVERFLOW : bool }.

(** [{cout, diff} = {1'b0, a} + {1'b0, ~b} + 33'b1]. *)
Definition sub33 (a b : Z) : Z := (a + vnot b + 1) mod 2 ^ 33.
Definition cout (a b : Z) : bool := Z.testbit (sub33 a b) 32.
Definition diff (a b : Z) : Z := sub33 a b mod 2 ^ 32.

Definition flags_of (a b : Z) : flags :=
  mkFlags (diff a b =? 0) (Z.testbit (diff a b) 31) (cout a b)
    (xorb (Z.testbit a 31) (Z.testbit b 31) && xorb (Z.testbit a 31) (Z.testbit (diff a b) 31)).

Definition alu_result (alu_op a b : Z) : Z :=
  let f := flags_of a b in
  if alu_op =? NPC_ALU_ADD then u32 (a + b)
  else if alu_op =? NPC_ALU_SUB then diff a b
  else if alu_op =? NPC_ALU_AND then Z.land a b
  else if alu_op =? NPC_ALU_OR then Z.lor a b
  else if alu_op =? NPC_ALU_XOR then Z.lxor a b
  else if alu_op =? NPC_ALU_SLL then u32 (Z.shiftl a (slice b 4 0))
  else if alu_op =? NPC_ALU_SRL then Z.shiftr a (slice b 4 0)
  else if alu_op =? NPC_ALU_SRA then u32 (Z.shiftr (s32 a) (slice b 4 0))
  else if alu_op =? NPC_ALU_SLT then b2z (xorb (NEGATIVE f) (OVERFLOW f))
  else if alu_op =? NPC_ALU_SLTU then b2z (negb (NOBORROW f))
  else 0xffff.

(** * [CSR.sv] *)

Record csr_st : Type := mkCsr {
  mcycle : Z; mcycleh : Z; mstatus : Z; mtvec : Z; mepc : Z; mcause : Z;
}.
#[global] Instance eta_csr_st : Eta csr_st :=
  fun s => mkCsr (mcycle s) (mcycleh s) (mstatus s) (mtvec s) (mepc s) (mcause s).

Definition csr_rdata (s : csr_st) (csr_addr : Z) : Z :=
  if csr_addr =? 0xB00 then mcycle s
  else if csr_addr =? 0xB80 then mcycleh s
  else if csr_addr =? 0xF11 then 0x79737978
  else if csr_addr =? 0xF12 then 0x17F4E2E
  else if csr_addr =? 0x300 then mstatus s
  else if csr_addr =? 0x305 then mtvec s
  else if csr_addr =? 0x341 then mepc s
  else if csr_addr =? 0x342 then mcause s
  else 0.

(** The clock edge. The last assignment of the block is the counter's, so it wins over a
    write of [mcycle] or [mcycleh]. *)
Definition csr_edge (is_ecall csr_wen : bool) (pc csr_addr csr_wdata : Z) (s : csr_st) : csr_st :=
  let s' :=
    if is_ecall then s <| mepc := pc |> <| mcause := 11 |>
    else if csr_wen then
      if csr_addr =? 0xB00 then s <| mcycle := csr_wdata |>
      else if csr_addr =? 0xB80 then s <| mcycleh := csr_wdata |>
      else if csr_addr =? 0x300 then s <| mstatus := csr_wdata |>
      else if csr_addr =? 0x305 then s <| mtvec := csr_wdata |>
      else if csr_addr =? 0x341 then s <| mepc := csr_wdata |>
      else if csr_addr =? 0x342 then s <| mcause := csr_wdata |>
      else s
    else s in
  let c := (cat 32 (mcycleh s) (mcycle s) + 1) mod 2 ^ 64 in
  s' <| mcycleh := slice c 63 32 |> <| mcycle := slice c 31 0 |>.

(** * The decoder of [IDU.v] *)

Record ctrl : Type := mkCtrl {
  rf_we : bool; csr_wen : bool; wb_sel : Z; csr_op_sel : Z;
  is_ecall : bool; is_mret : bool; is_ebreak : bool; is_jalr : bool; is_jal : bool;
  is_branch : bool; is_load : bool; is_store : bool; is_fencei : bool; trap_valid : bool;
  alu_src1_sel : Z; alu_src2_sel : Z; alu_op : Z;
}.
#[global] Instance eta_ctrl : Eta ctrl := fun c =>
  mkCtrl (rf_we c) (csr_wen c) (wb_sel c) (csr_op_sel c) (is_ecall c) (is_mret c) (is_ebreak c) (is_jalr c) (is_jal c)
    (is_branch c) (is_load c) (is_store c) (is_fencei c) (trap_valid c) (alu_src1_sel c) (alu_src2_sel c) (alu_op c).

Definition opcode (inst : Z) : Z := slice inst 6 0.
Definition funct3 (inst : Z) : Z := slice inst 14 12.
Definition funct7 (inst : Z) : Z := slice inst 31 25.
Definition rs1_idx (inst : Z) : Z := slice inst 19 15.
Definition rs2_idx (inst : Z) : Z := slice inst 24 20.
Definition rd_idx (inst : Z) : Z := slice inst 11 7.
Definition shamt (inst : Z) : Z := slice inst 24 20.
Definition csr_addr (inst : Z) : Z := slice inst 31 20.

Definition immI (inst : Z) : Z := cat 12 (rep 20 (Z.testbit inst 31)) (slice inst 31 20).
Definition immU (inst : Z) : Z := cat 12 (slice inst 31 12) 0.
Definition immS (inst : Z) : Z := cat 12 (rep 20 (Z.testbit inst 31)) (cat 5 (slice inst 31 25) (slice inst 11 7)).
Definition immB (inst : Z) : Z :=
  cat 12 (rep 20 (Z.testbit inst 31)) (cat 11 (slice inst 7 7) (cat 5 (slice inst 30 25) (cat 1 (slice inst 11 8) 0))).
Definition immJ (inst : Z) : Z :=
  cat 20 (rep 12 (Z.testbit inst 31)) (cat 12 (slice inst 19 12) (cat 11 (slice inst 20 20) (cat 1 (slice inst 30 21) 0))).

Definition imm_of (inst : Z) : Z :=
  let op := opcode inst in
  if op =? 0x13 then immI inst
  else if op =? 0x67 then immI inst
  else if op =? 0x03 then immI inst
  else if op =? 0x37 then immU inst
  else if op =? 0x17 then immU inst
  else if op =? 0x23 then immS inst
  else if op =? 0x63 then immB inst
  else if op =? 0x6f then immJ inst
  else 0.

Definition ctrl0 : ctrl :=
  mkCtrl false false NPC_ALU CSR_WRITE false false false false false false false false false false
    NPC_RS1_DATA 0 NPC_ALU_ADD.

(** The arithmetic groups: the operation by [funct3] and [funct7]; where no line assigns,
    it stays [NPC_ALU_ADD]. *)
Definition op_alu (f3 f7 : Z) : Z :=
  if f3 =? 0 then if f7 =? 0x20 then NPC_ALU_SUB else NPC_ALU_ADD
  else if f3 =? 1 then NPC_ALU_SLL
  else if f3 =? 2 then NPC_ALU_SLT
  else if f3 =? 3 then NPC_ALU_SLTU
  else if f3 =? 4 then NPC_ALU_XOR
  else if f3 =? 6 then NPC_ALU_OR
  else if f3 =? 5 then if f7 =? 0 then NPC_ALU_SRL else if f7 =? 0x20 then NPC_ALU_SRA else NPC_ALU_ADD
  else NPC_ALU_AND.

Definition opimm_alu (f3 f7 : Z) : Z :=
  if f3 =? 0 then NPC_ALU_ADD
  else if f3 =? 1 then NPC_ALU_SLL
  else if f3 =? 2 then NPC_ALU_SLT
  else if f3 =? 3 then NPC_ALU_SLTU
  else if f3 =? 4 then NPC_ALU_XOR
  else if f3 =? 6 then NPC_ALU_OR
  else if f3 =? 5 then if f7 =? 0 then NPC_ALU_SRL else if f7 =? 0x20 then NPC_ALU_SRA else NPC_ALU_ADD
  else NPC_ALU_AND.

(** The control block: [en] is [in_valid && out_ready], [ecall], [ebreak] and [mret] are the
    comparisons of [in_inst] with the three words. *)
Definition control_block (en : bool) (op f3 f7 rd rs1 : Z) (ecall ebreak mret : bool) : ctrl :=
  let c := ctrl0 in
  if negb en then c else
  let c := if op =? 0x33 then
    c <| rf_we := true |> <| wb_sel := NPC_ALU |> <| alu_src1_sel := NPC_RS1_DATA |>
      <| alu_src2_sel := NPC_RS2_DATA |> <| alu_op := op_alu f3 f7 |> else c in
  let c := if op =? 0x13 then
    c <| rf_we := true |> <| wb_sel := NPC_ALU |> <| alu_src1_sel := NPC_RS1_DATA |>
      <| alu_src2_sel := if f3 =? 5 then NPC_SHAMT else NPC_IMM |> <| alu_op := opimm_alu f3 f7 |> else c in
  let c := if op =? 0x6f then
    c <| rf_we := true |> <| wb_sel := NPC_PC4 |> <| alu_src1_sel := NPC_CUR_PC |>
      <| alu_src2_sel := NPC_IMM |> <| alu_op := NPC_ALU_ADD |> <| is_jal := true |> else c in
  let c := if (op =? 0x67) && (f3 =? 0) then
    c <| rf_we := true |> <| wb_sel := NPC_PC4 |> <| alu_src1_sel := NPC_RS1_DATA |>
      <| alu_src2_sel := NPC_IMM |> <| alu_op := NPC_ALU_ADD |> <| is_jalr := true |> else c in
  let c := if op =? 0x63 then
    c <| rf_we := false |> <| alu_src1_sel := NPC_CUR_PC |> <| alu_src2_sel := NPC_IMM |>
      <| is_branch := true |> else c in
  let c := if op =? 0x37 then
    c <| rf_we := true |> <| wb_sel := NPC_ALU |> <| alu_src1_sel := NPC_ZERO |>
      <| alu_src2_sel := NPC_IMM |> <| alu_op := NPC_ALU_ADD |> else c in
  let c := if op =? 0x17 then
    c <| rf_we := true |> <| wb_sel := NPC_ALU |> <| alu_src1_sel := NPC_CUR_PC |>
      <| alu_src2_sel := NPC_IMM |> <| alu_op := NPC_ALU_ADD |> else c in
  let c := if op =? 0x03 then
    c <| rf_we := true |> <| wb_sel := NPC_MEM |> <| is_load := true |> <| alu_src1_sel := NPC_RS1_DATA |>
      <| alu_src2_sel := NPC_IMM |> <| alu_op := NPC_ALU_ADD |> else c in
  let c := if op =? 0x23 then
    c <| alu_src1_sel := NPC_RS1_DATA |> <| alu_src2_sel := NPC_IMM |> <| alu_op := NPC_ALU_ADD |>
      <| is_store := true |> else c in
  let c := if ecall then c <| is_ecall := true |> <| trap_valid := true |> else c in
  let c := if ebreak then c <| is_ebreak := true |> else c in
  let c := if mret then c <| is_mret := true |> <| trap_valid := true |> else c in
  let c := if (op =? 0x73) && (f3 =? 1) then
    c <| rf_we := if negb (rd =? 0) then true else rf_we c |> <| wb_sel := NPC_CSR |>
      <| csr_wen := true |> <| csr_op_sel := CSR_WRITE |> else c in
  let c := if (op =? 0x73) && (f3 =? 2) then
    c <| csr_wen := negb (rs1 =? 0) |> <| rf_we := if negb (rd =? 0) then true else rf_we c |>
      <| wb_sel := NPC_CSR |> <| csr_op_sel := CSR_SET |> else c in
  if (op =? 0x0f) && (f3 =? 1) then c <| is_fencei := true |> else c.

Definition control (en : bool) (inst : Z) : ctrl :=
  control_block en (opcode inst) (funct3 inst) (funct7 inst) (rd_idx inst) (rs1_idx inst)
    (inst =? 0x00000073) (inst =? 0x00100073) (inst =? 0x30200073).

(** Everything the decoder hands on. *)
Record decoded : Type := mkDecoded {
  d_ctl : ctrl; d_branch_op : Z; d_load_size : Z; d_store_size : Z;
  d_rd : Z; d_imm : Z; d_shamt : Z; d_csr_addr : Z;
}.
Definition decode (en : bool) (inst : Z) : decoded :=
  mkDecoded (control en inst) (funct3 inst) (funct3 inst) (funct3 inst)
    (rd_idx inst) (imm_of inst) (shamt inst) (csr_addr inst).

Definition uses_rs1 (inst : Z) : bool :=
  let op := opcode inst in
  if op =? 0x33 then true else if op =? 0x13 then true else if op =? 0x03 then true
  else if op =? 0x23 then true else if op =? 0x63 then true
  else if op =? 0x67 then funct3 inst =? 0
  else if op =? 0x73 then (funct3 inst =? 1) || (funct3 inst =? 2)
  else false.
Definition uses_rs2 (inst : Z) : bool :=
  let op := opcode inst in
  if op =? 0x33 then true else if op =? 0x23 then true else op =? 0x63.

(** * The data path of [EXU.sv] *)

Section Exu.
Variables (d : decoded) (in_pc src1 src2 : Z) (csr : csr_st).

Definition alu_src1 : Z :=
  let sel := alu_src1_sel (d_ctl d) in
  if sel =? NPC_RS1_DATA then src1 else if sel =? NPC_CUR_PC then in_pc
  else if sel =? NPC_ZERO then 0 else src1.
Definition alu_src2 : Z :=
  let sel := alu_src2_sel (d_ctl d) in
  if sel =? NPC_RS2_DATA then src2 else if sel =? NPC_IMM then d_imm d
  else if sel =? NPC_SHAMT then d_shamt d else src2.
Definition exu_alu_result : Z := alu_result (alu_op (d_ctl d)) alu_src1 alu_src2.

Definition branch_taken : bool :=
  let f := flags_of src1 src2 in
  let b := d_branch_op d in
  if b =? 0 then ZERO f
  else if b =? 1 then negb (ZERO f)
  else if b =? 4 then xorb (NEGATIVE f) (OVERFLOW f)
  else if b =? 5 then negb (xorb (NEGATIVE f) (OVERFLOW f))
  else if b =? 6 then negb (NOBORROW f)
  else if b =? 7 then NOBORROW f
  else false.

Definition wb_data : Z :=
  let sel := wb_sel (d_ctl d) in
  if sel =? NPC_ALU then exu_alu_result
  else if sel =? NPC_PC4 then u32 (in_pc + 4)
  else if sel =? NPC_CSR then csr_rdata csr (d_csr_addr d)
  else 0.

Definition store_data : Z := if is_store (d_ctl d) then src2 else 0.

Definition jal_target : Z := u32 (d_imm d + in_pc).
Definition jalr_target : Z := Z.land (u32 (d_imm d + src1)) (vnot 1).
Definition branch_target : Z := jal_target.
Definition trap_pc : Z :=
  if is_mret (d_ctl d) then mepc csr else if is_ecall (d_ctl d) then mtvec csr else 0.

Definition redirect_valid : bool :=
  is_jal (d_ctl d) || is_jalr (d_ctl d) || (is_branch (d_ctl d) && branch_taken) || trap_valid (d_ctl d).
Definition redirect_pc : Z :=
  if trap_valid (d_ctl d) then trap_pc
  else if is_jal (d_ctl d) then jal_target
  else if is_jalr (d_ctl d) then jalr_target
  else if is_branch (d_ctl d) && branch_taken then branch_target
  else 0.
Definition exu_npc : Z := if redirect_valid then redirect_pc else u32 (in_pc + 4).

Definition csr_wdata : Z :=
  if csr_op_sel (d_ctl d) =? CSR_WRITE then src1 else Z.lor (csr_rdata csr (d_csr_addr d)) src1.

End Exu.

(** * The byte lanes of [LSU.sv] *)

(** The value of a load: [word] is the bus word shifted down to the address. *)
Definition load_data (load_size mem_addr rdata : Z) : Z :=
  let word := Z.shiftr rdata (slice mem_addr 1 0 * 8) in
  if load_size =? 0 then cat 8 (rep 24 (Z.testbit word 7)) (slice word 7 0)
  else if load_size =? 1 then cat 16 (rep 16 (Z.testbit word 15)) (slice word 15 0)
  else if load_size =? 2 then word
  else if load_size =? 4 then Z.land word 0xff
  else if load_size =? 5 then Z.land word 0xffff
  else 0.

Definition lane_data (store_size mem_addr data : Z) : Z :=
  if store_size =? 0 then let b := slice data 7 0 in cat 8 (cat 8 (cat 8 b b) b) b
  else if store_size =? 1 then u32 (Z.shiftl (slice data 15 0) (slice mem_addr 1 0 * 8))
  else data.
Definition lane_strb (store_size mem_addr : Z) : Z :=
  if store_size =? 0 then Z.shiftl 1 (slice mem_addr 1 0) mod 2 ^ 4
  else if store_size =? 1 then Z.shiftl 3 (slice mem_addr 1 0) mod 2 ^ 4
  else if store_size =? 2 then 15
  else 0.
