(* ===== verification/NpcCore.v ===== *)
(** The processor [ysyx_25120302] as a state machine: the registers of [IFU.sv], [IDU.v],
    [EXU.sv], [LSU.sv] and [WBU.sv], and the connections of [ysyx_25120302.v].

    Each stage has a record of its registers and a function for the clock edge whose
    arguments are its input wires. [cycle] computes the wires between the stages from the
    registers and the two bus ports and takes every stage one edge further. [fatal] are the
    checks under [VERILATOR], which end the simulation at an edge. The performance counters
    are left out. *)

From S2P Require Import Prelude NpcDatapath.

(** [ARCH_NPC], otherwise [ARCH_YSYXSOC]. *)
Class NpcArch : Type := { ARCH_NPC : bool }.

(** The inputs of a cycle: reset and the answers on the ports of [IFU] and [LSU]. *)
Record bus_in : Type := mkBus {
  reset : bool;
  i_arready : bool; i_rvalid : bool; i_rdata : Z;
  l_arready : bool; l_rvalid : bool; l_rdata : Z;
  l_awready : bool; l_wready : bool; l_bvalid : bool;
}.

(** * [IFU.sv] *)

Inductive axi_state_t : Type := AXI_IDLE | AXI_SEND_AR | AXI_WAIT_R.
Inductive fencei_state_t : Type := FENCEI_IDLE | FENCEI_WAIT | FENCEI_BUSY.
Inductive ifu_state_t : Type := IFU_EMPTY | IFU_VALID.
#[global] Instance axi_state_eq : EqDecision axi_state_t.
Proof. solve_decision. Defined.
#[global] Instance fencei_state_eq : EqDecision fencei_state_t.
Proof. solve_decision. Defined.
#[global] Instance ifu_state_eq : EqDecision ifu_state_t.
Proof. solve_decision. Defined.

Record ifu_st : Type := mkIfu {
  axi_state : axi_state_t; outstanding_pc : Z; outstanding_stale : bool;
  fencei_state : fencei_state_t; out_icache_flush : bool; out_fencei_flush_done : bool;
  ifu_state : ifu_state_t; fetch_pc : Z; ifu_pc : Z; ifu_inst : Z;
  ifu_exception_valid : bool; ifu_exception_cause : Z; exception_pending : bool;
}.
#[global] Instance eta_ifu_st : Eta ifu_st := fun s =>
  mkIfu (axi_state s) (outstanding_pc s) (outstanding_stale s) (fencei_state s) (out_icache_flush s)
    (out_fencei_flush_done s) (ifu_state s) (fetch_pc s) (ifu_pc s) (ifu_inst s)
    (ifu_exception_valid s) (ifu_exception_cause s) (exception_pending s).

(** * [IDU.v], [EXU.sv], [LSU.sv] *)

Record idu_st : Type := mkIdu {
  idu_valid : bool; idu_dec : decoded; idu_pc : Z; idu_inst : Z; idu_src1 : Z; idu_src2 : Z;
  idu_exception_valid : bool; idu_exception_cause : Z; fence_pending : bool;
}.
#[global] Instance eta_idu_st : Eta idu_st := fun s =>
  mkIdu (idu_valid s) (idu_dec s) (idu_pc s) (idu_inst s) (idu_src1 s) (idu_src2 s)
    (idu_exception_valid s) (idu_exception_cause s) (fence_pending s).

Record exu_st : Type := mkExu {
  exu_valid : bool; x_is_load : bool; x_is_store : bool; x_is_fencei : bool;
  x_load_size : Z; x_store_size : Z; x_wb_data : Z; x_store_data : Z; x_mem_addr : Z;
  x_inst : Z; x_pc : Z; x_npc : Z; x_is_ebreak : bool; x_rf_we : bool; x_rd : Z;
}.
#[global] Instance eta_exu_st : Eta exu_st := fun s =>
  mkExu (exu_valid s) (x_is_load s) (x_is_store s) (x_is_fencei s) (x_load_size s) (x_store_size s)
    (x_wb_data s) (x_store_data s) (x_mem_addr s) (x_inst s) (x_pc s) (x_npc s) (x_is_ebreak s) (x_rf_we s) (x_rd s).

Inductive lsu_state_t : Type := LSU_IDLE | LSU_READ_ADDR | LSU_WAIT_R | LSU_WRITE_REQ | LSU_WAIT_B | LSU_DONE.
#[global] Instance lsu_state_eq : EqDecision lsu_state_t.
Proof. solve_decision. Defined.

(** What [LSU] keeps of the instruction it handles. *)
Record lsu_op : Type := mkOp {
  o_load_size : Z; o_mem_addr : Z; o_rd : Z; o_rf_we : bool; o_is_fencei : bool;
  o_pc : Z; o_inst : Z; o_npc : Z; o_is_ebreak : bool; o_is_mmio : bool;
}.

Record lsu_st : Type := mkLsu {
  lsu_state : lsu_state_t; lsu_valid : bool; lsu_reg : lsu_op; lsu_wb_data : Z;
  arvalid : bool; araddr : Z; awvalid : bool; awaddr : Z; wvalid : bool; wdata : Z; wstrb : Z;
}.
#[global] Instance eta_lsu_st : Eta lsu_st := fun s =>
  mkLsu (lsu_state s) (lsu_valid s) (lsu_reg s) (lsu_wb_data s) (arvalid s) (araddr s) (awvalid s) (awaddr s)
    (wvalid s) (wdata s) (wstrb s).

(** The processor; [rf] is the register file of [WBU.sv]. *)
Record npc : Type := mkNpc {
  ifu : ifu_st; idu : idu_st; exu : exu_st; csr : csr_st; lsu : lsu_st; rf : Z -> Z;
}.

Section Core.
Context `{ARCH : NpcArch}.

Definition RESET_PC : Z := if ARCH_NPC then 0x80000000 else 0x30000000.

(** * Stages *)

Section Ifu.
Variables (i : bus_in) (in_fencei_done : bool) (in_redirect_pc : Z) (in_redirect_fire in_ready : bool) (s : ifu_st).

Definition ifu_out_valid : bool := bool_decide (ifu_state s = IFU_VALID) && negb in_redirect_fire.
Definition ifu_out_fire : bool := ifu_out_valid && in_ready.
Definition ifu_arvalid : bool := bool_decide (axi_state s = AXI_SEND_AR).
Definition ifu_rready : bool := bool_decide (axi_state s = AXI_WAIT_R) && (negb ifu_out_valid || in_ready).
Definition ifu_ar_fire : bool := ifu_arvalid && i_arready i.
Definition ifu_r_fire : bool := i_rvalid i && ifu_rready.
Definition drop_response : bool := ifu_r_fire && (outstanding_stale s || in_redirect_fire).
Definition fetch_pc_misaligned : bool := negb (slice (fetch_pc s) 1 0 =? 0).

(** The block of the read port. *)
Definition ifu_axi_edge (n : ifu_st) : ifu_st :=
  if reset i then n <| axi_state := AXI_IDLE |> <| outstanding_pc := RESET_PC |> <| outstanding_stale := false |>
  else match axi_state s with
  | AXI_IDLE =>
      let n := n <| outstanding_stale := false |> in
      if bool_decide (ifu_state s = IFU_EMPTY) && bool_decide (fencei_state s = FENCEI_IDLE) && negb in_fencei_done &&
         negb in_redirect_fire && negb fetch_pc_misaligned && negb (exception_pending s)
      then n <| axi_state := AXI_SEND_AR |> <| outstanding_pc := fetch_pc s |> else n
  | AXI_SEND_AR =>
      let n := if in_redirect_fire then n <| outstanding_stale := true |> else n in
      if ifu_ar_fire then n <| axi_state := AXI_WAIT_R |> else n
  | AXI_WAIT_R =>
      if ifu_r_fire then n <| axi_state := AXI_IDLE |> <| outstanding_stale := false |>
      else if in_redirect_fire then n <| outstanding_stale := true |> else n
  end.

(** The block of the instruction fence. *)
Definition ifu_fence_edge (n : ifu_st) : ifu_st :=
  if reset i then n <| fencei_state := FENCEI_IDLE |> <| out_icache_flush := false |> <| out_fencei_flush_done := false |>
  else
    let n := n <| out_fencei_flush_done := false |> in
    match fencei_state s with
    | FENCEI_IDLE => if in_fencei_done then n <| fencei_state := FENCEI_WAIT |> else n
    | FENCEI_WAIT =>
        if bool_decide (axi_state s = AXI_IDLE) && i_arready i
        then n <| fencei_state := FENCEI_BUSY |> <| out_icache_flush := true |> else n
    | FENCEI_BUSY => n <| fencei_state := FENCEI_IDLE |> <| out_icache_flush := false |> <| out_fencei_flush_done := true |>
    end.

(** The block of the fetched instruction. *)
Definition ifu_fetch_edge (n : ifu_st) : ifu_st :=
  let no_exception n := n <| ifu_exception_valid := false |> <| ifu_exception_cause := 0 |> in
  if reset i then
    (no_exception n) <| ifu_state := IFU_EMPTY |> <| fetch_pc := RESET_PC |> <| ifu_pc := 0 |> <| ifu_inst := 0 |>
      <| exception_pending := false |>
  else if in_redirect_fire then
    (no_exception n) <| ifu_state := IFU_EMPTY |> <| fetch_pc := in_redirect_pc |> <| exception_pending := false |>
  else if in_fencei_done then
    let n := if bool_decide (ifu_state s = IFU_VALID) then n <| fetch_pc := ifu_pc s |> else n in
    (no_exception n) <| ifu_state := IFU_EMPTY |> <| exception_pending := false |>
  else match ifu_state s with
  | IFU_EMPTY =>
      if fetch_pc_misaligned && negb (exception_pending s) then
        n <| ifu_state := IFU_VALID |> <| ifu_pc := fetch_pc s |> <| ifu_inst := 0 |>
          <| ifu_exception_valid := true |> <| ifu_exception_cause := 0 |> <| exception_pending := true |>
      else if ifu_r_fire then
        if drop_response || negb (bool_decide (fencei_state s = FENCEI_IDLE)) then n <| ifu_state := IFU_EMPTY |>
        else (no_exception n) <| ifu_state := IFU_VALID |> <| fetch_pc := u32 (outstanding_pc s + 4) |>
               <| ifu_inst := i_rdata i |> <| ifu_pc := outstanding_pc s |>
      else n
  | IFU_VALID => if ifu_out_fire then n <| ifu_state := IFU_EMPTY |> <| ifu_exception_valid := false |> else n
  end.

Definition ifu_edge : ifu_st := ifu_fetch_edge (ifu_fence_edge (ifu_axi_edge s)).

End Ifu.

(** A producer of register [idx] in a later stage. *)
Definition produces (valid we : bool) (rd idx : Z) : bool := valid && we && negb (rd =? 0) && (rd =? idx).

Section Idu.
Variables (i : bus_in) (in_inst in_pc : Z) (in_exception_valid : bool) (in_exception_cause : Z).
Variables (in_flush in_fencei_flush_done in_valid in_ready : bool) (in_src1 in_src2 : Z).
Variables (in_exu_valid in_exu_rf_we : bool) (in_exu_rd : Z).
Variables (in_lsu_pending_valid in_lsu_rf_we : bool) (in_lsu_rd : Z).
Variables (in_wbu_valid in_wbu_rf_we : bool) (in_wbu_rd : Z).
Variable s : idu_st.

Definition producer_match (idx : Z) : bool :=
  produces (idu_valid s) (rf_we (d_ctl (idu_dec s))) (d_rd (idu_dec s)) idx ||
  produces in_exu_valid in_exu_rf_we in_exu_rd idx ||
  produces in_lsu_pending_valid in_lsu_rf_we in_lsu_rd idx ||
  produces in_wbu_valid in_wbu_rf_we in_wbu_rd idx.

Definition raw_hazard : bool :=
  (in_valid && uses_rs1 in_inst && negb (rs1_idx in_inst =? 0) && producer_match (rs1_idx in_inst)) ||
  (in_valid && uses_rs2 in_inst && negb (rs2_idx in_inst =? 0) && producer_match (rs2_idx in_inst)).

Definition idu_out_ready : bool := (negb (idu_valid s) || in_ready) && negb raw_hazard && negb (fence_pending s).
Definition idu_in_fire : bool := in_valid && idu_out_ready.
Definition idu_out_fire : bool := idu_valid s && in_ready.

Definition idu_fence_edge (n : idu_st) : idu_st :=
  if reset i then n <| fence_pending := false |>
  else if in_flush then n <| fence_pending := false |>
  else if idu_in_fire && is_fencei (d_ctl (decode idu_in_fire in_inst)) then n <| fence_pending := true |>
  else if in_fencei_flush_done then n <| fence_pending := false |>
  else n.

Definition idu_out_edge (n : idu_st) : idu_st :=
  let drop n := n <| idu_valid := false |> <| idu_exception_valid := false |> <| idu_exception_cause := 0 |> in
  if reset i then drop n
  else if in_flush then drop n
  else if idu_in_fire then
    n <| idu_valid := true |> <| idu_dec := decode idu_in_fire in_inst |> <| idu_pc := in_pc |> <| idu_inst := in_inst |>
      <| idu_src1 := in_src1 |> <| idu_src2 := in_src2 |>
      <| idu_exception_valid := in_exception_valid |> <| idu_exception_cause := in_exception_cause |>
  else if idu_out_fire then n <| idu_valid := false |>
  else n.

Definition idu_edge : idu_st := idu_out_edge (idu_fence_edge s).

End Idu.

Section Exu.
Variables (i : bus_in) (in_valid in_ready : bool) (d : idu_st) (c : csr_st) (s : exu_st).

Definition exu_out_ready : bool := negb (exu_valid s) || in_ready.
Definition exu_in_fire : bool := in_valid && exu_out_ready.
Definition exu_redirect_valid : bool := redirect_valid (idu_dec d) (idu_src1 d) (idu_src2 d).
Definition exu_redirect_pc : Z := redirect_pc (idu_dec d) (idu_pc d) (idu_src1 d) (idu_src2 d) c.
Definition redirect_fire : bool := negb (reset i) && exu_in_fire && exu_redirect_valid.

Definition exu_edge : exu_st :=
  if reset i then
    s <| exu_valid := false |> <| x_pc := 0 |> <| x_inst := 0 |> <| x_npc := 0 |> <| x_is_ebreak := false |>
  else if exu_in_fire then
    let k := d_ctl (idu_dec d) in
    mkExu true (is_load k) (is_store k) (is_fencei k) (d_load_size (idu_dec d)) (d_store_size (idu_dec d))
      (wb_data (idu_dec d) (idu_pc d) (idu_src1 d) (idu_src2 d) c) (store_data (idu_dec d) (idu_src2 d))
      (exu_alu_result (idu_dec d) (idu_pc d) (idu_src1 d) (idu_src2 d))
      (idu_inst d) (idu_pc d) (exu_npc (idu_dec d) (idu_pc d) (idu_src1 d) (idu_src2 d) c)
      (is_ebreak k) (rf_we k) (d_rd (idu_dec d))
  else if exu_valid s && in_ready then s <| exu_valid := false |>
  else s.

(** The instance of [CSR]. *)
Definition exu_csr_edge : csr_st :=
  let k := d_ctl (idu_dec d) in
  csr_edge (is_ecall k && in_valid && exu_out_ready) (csr_wen k && in_valid && exu_out_ready)
    (idu_pc d) (d_csr_addr (idu_dec d)) (csr_wdata (idu_dec d) (idu_src1 d) c) c.

End Exu.

Definition UART_BASE : Z := 0x10000000.
Definition UART_END : Z := 0x10000fff.
Definition CLINT_BASE : Z := if ARCH_NPC then 0xa0000000 else 0x02000000.
Definition CLINT_END : Z := if ARCH_NPC then 0xa00002ff else 0x020002ff.
Definition is_mmio_addr (addr : Z) : bool :=
  let within lo hi := (lo <=? addr) && (addr <=? hi) in
  within UART_BASE UART_END || within CLINT_BASE CLINT_END ||
  (negb ARCH_NPC && (within 0x10001000 0x10001fff || within 0x10002000 0x1000200f ||
    within 0x10011000 0x10011007 || within 0x21000000 0x211fffff)).

Section Lsu.
Variables (i : bus_in) (x : exu_st) (in_ready : bool) (s : lsu_st).

Definition lsu_out_ready : bool := bool_decide (lsu_state s = LSU_IDLE) && negb (lsu_valid s).
Definition lsu_in_fire : bool := exu_valid x && lsu_out_ready.
Definition lsu_out_fire : bool := lsu_valid s && in_ready.
Definition lsu_pending_valid : bool := negb (bool_decide (lsu_state s = LSU_IDLE)) && negb (lsu_valid s).
Definition aw_fire : bool := awvalid s && l_awready i.
Definition w_fire : bool := wvalid s && l_wready i.
Definition ar_fire : bool := arvalid s && l_arready i.
Definition b_fire : bool := l_bvalid i && bool_decide (lsu_state s = LSU_WAIT_B).
Definition r_fire : bool := l_rvalid i && bool_decide (lsu_state s = LSU_WAIT_R).

Definition lsu_state_edge (n : lsu_st) : lsu_st :=
  if reset i then n <| lsu_state := LSU_IDLE |>
  else match lsu_state s with
  | LSU_IDLE =>
      if lsu_in_fire && x_is_load x then n <| lsu_state := LSU_READ_ADDR |>
      else if lsu_in_fire && x_is_store x then n <| lsu_state := LSU_WRITE_REQ |> else n
  | LSU_READ_ADDR => if ar_fire then n <| lsu_state := LSU_WAIT_R |> else n
  | LSU_WAIT_R => if r_fire then n <| lsu_state := LSU_DONE |> else n
  | LSU_WRITE_REQ => if aw_fire && w_fire then n <| lsu_state := LSU_WAIT_B |> else n
  | LSU_WAIT_B => if b_fire then n <| lsu_state := LSU_DONE |> else n
  | LSU_DONE => if lsu_valid s && in_ready then n <| lsu_state := LSU_IDLE |> else n
  end.

Definition lsu_op_edge (n : lsu_st) : lsu_st :=
  if lsu_in_fire then
    n <| lsu_reg := mkOp (x_load_size x) (x_mem_addr x) (x_rd x) (x_rf_we x) (x_is_fencei x) (x_pc x) (x_inst x)
           (x_npc x) (x_is_ebreak x) ((x_is_load x || x_is_store x) && is_mmio_addr (x_mem_addr x)) |>
  else n.

Definition lsu_valid_edge (n : lsu_st) : lsu_st :=
  if reset i then n <| lsu_valid := false |>
  else if r_fire || b_fire then n <| lsu_valid := true |>
  else if lsu_in_fire && negb (x_is_load x) && negb (x_is_store x) then n <| lsu_valid := true |>
  else if lsu_out_fire then n <| lsu_valid := false |>
  else n.

Definition lsu_ar_edge (n : lsu_st) : lsu_st :=
  if reset i then n <| arvalid := false |>
  else if bool_decide (lsu_state s = LSU_IDLE) && lsu_in_fire && x_is_load x then
    n <| araddr := x_mem_addr x |> <| arvalid := true |>
  else if ar_fire then n <| arvalid := false |>
  else n.

Definition lsu_r_edge (n : lsu_st) : lsu_st :=
  let n := if r_fire then
    n <| lsu_wb_data := load_data (o_load_size (lsu_reg s)) (o_mem_addr (lsu_reg s)) (l_rdata i) |> else n in
  if lsu_in_fire && negb (x_is_load x) && negb (x_is_store x) then n <| lsu_wb_data := x_wb_data x |> else n.

Definition lsu_aw_edge (n : lsu_st) : lsu_st :=
  if reset i then n <| awvalid := false |>
  else if bool_decide (lsu_state s = LSU_IDLE) && lsu_in_fire && x_is_store x then
    n <| awaddr := x_mem_addr x |> <| awvalid := true |>
  else if aw_fire then n <| awvalid := false |>
  else n.

Definition lsu_w_edge (n : lsu_st) : lsu_st :=
  if reset i then n <| wvalid := false |>
  else if bool_decide (lsu_state s = LSU_IDLE) && lsu_in_fire && x_is_store x then
    n <| wvalid := true |> <| wdata := lane_data (x_store_size x) (x_mem_addr x) (x_store_data x) |>
      <| wstrb := lane_strb (x_store_size x) (x_mem_addr x) |>
  else if w_fire then n <| wvalid := false |>
  else n.

Definition lsu_edge : lsu_st :=
  lsu_w_edge (lsu_aw_edge (lsu_r_edge (lsu_ar_edge (lsu_valid_edge (lsu_op_edge (lsu_state_edge s)))))).

End Lsu.

(** * [WBU.sv] *)

Record commit : Type := mkCommit {
  commit_pc : Z; commit_inst : Z; commit_npc : Z; commit_ebreak : bool; commit_skip_ref : bool;
  commit_wen : bool; commit_rd : Z; commit_wdata : Z;
}.

Definition wbu_commit (l : lsu_st) : commit :=
  let o := lsu_reg l in
  mkCommit (o_pc o) (o_inst o) (o_npc o) (o_is_ebreak o) (o_is_mmio o)
    (o_rf_we o && negb (o_rd o =? 0)) (o_rd o) (lsu_wb_data l).

(** [commit_ready] is tied to 1. *)
Definition wbu_out_ready (i : bus_in) : bool := negb (reset i).
Definition commit_fire (i : bus_in) (l : lsu_st) : bool := lsu_valid l && wbu_out_ready i.
Definition fencei_done (i : bus_in) (l : lsu_st) : bool := commit_fire i l && o_is_fencei (lsu_reg l).

Definition rf_write (r : Z -> Z) (idx v : Z) : Z -> Z := fun k => if k =? idx then v else r k.
Definition wbu_edge (i : bus_in) (l : lsu_st) (r : Z -> Z) : Z -> Z :=
  if reset i then r
  else if commit_fire i l && commit_wen (wbu_commit l)
    then rf_write r (slice (commit_rd (wbu_commit l)) 3 0) (commit_wdata (wbu_commit l))
  else r.
Definition rf_read (r : Z -> Z) (idx : Z) : Z := if idx =? 0 then 0 else r (slice idx 3 0).

(** * [ysyx_25120302.v] *)

Section Top.
Variables (s : npc) (i : bus_in).

Definition lsu_ready : bool := lsu_out_ready (lsu s).
Definition exu_ready : bool := exu_out_ready lsu_ready (exu s).
Definition exu_fire : bool := exu_in_fire (idu_valid (idu s)) lsu_ready (exu s).
Definition redirect : bool := redirect_fire i (idu_valid (idu s)) lsu_ready (idu s) (exu s).
Definition redirect_to : Z := exu_redirect_pc (idu s) (csr s).
Definition fetched : bool := ifu_out_valid redirect (ifu s).
Definition idu_ready : bool :=
  idu_out_ready (ifu_inst (ifu s)) fetched exu_ready
    (exu_valid (exu s)) (x_rf_we (exu s)) (x_rd (exu s))
    (lsu_pending_valid (lsu s)) (o_rf_we (lsu_reg (lsu s))) (o_rd (lsu_reg (lsu s)))
    (lsu_valid (lsu s)) (commit_wen (wbu_commit (lsu s))) (commit_rd (wbu_commit (lsu s))) (idu s).

Definition cycle : npc := mkNpc
  (ifu_edge i (fencei_done i (lsu s)) redirect_to redirect idu_ready (ifu s))
  (idu_edge i (ifu_inst (ifu s)) (ifu_pc (ifu s)) (ifu_exception_valid (ifu s)) (ifu_exception_cause (ifu s))
     redirect (out_fencei_flush_done (ifu s)) fetched exu_ready
     (rf_read (rf s) (rs1_idx (ifu_inst (ifu s)))) (rf_read (rf s) (rs2_idx (ifu_inst (ifu s))))
     (exu_valid (exu s)) (x_rf_we (exu s)) (x_rd (exu s))
     (lsu_pending_valid (lsu s)) (o_rf_we (lsu_reg (lsu s))) (o_rd (lsu_reg (lsu s)))
     (lsu_valid (lsu s)) (commit_wen (wbu_commit (lsu s))) (commit_rd (wbu_commit (lsu s))) (idu s))
  (exu_edge i (idu_valid (idu s)) lsu_ready (idu s) (csr s) (exu s))
  (exu_csr_edge (idu_valid (idu s)) lsu_ready (idu s) (csr s) (exu s))
  (lsu_edge i (exu s) (wbu_out_ready i) (lsu s))
  (wbu_edge i (lsu s) (rf s)).

(** The [$fatal] checks of the five units: a pc or an instruction word of zero is handed on
    by a stage, or a word of zero is answered to a fetch. *)
Definition fatal : bool :=
  let f := ifu s in let d := idu s in let x := exu s in let o := lsu_reg (lsu s) in let c := wbu_commit (lsu s) in
  negb (reset i) &&
  (ifu_out_fire redirect idu_ready f && (negb (ifu_exception_valid f) && ((ifu_pc f =? 0) || (ifu_inst f =? 0))) ||
   ifu_r_fire i redirect idu_ready f && ((fetch_pc f =? 0) || (i_rdata i =? 0)) ||
   idu_out_fire exu_ready d && ((negb (idu_exception_valid d) && (idu_pc d =? 0)) || (idu_inst d =? 0)) ||
   exu_valid x && lsu_ready && ((x_pc x =? 0) || (x_inst x =? 0)) ||
   lsu_out_fire (wbu_out_ready i) (lsu s) && ((o_pc o =? 0) || (o_inst o =? 0)) ||
   commit_fire i (lsu s) && ((commit_pc c =? 0) || (commit_inst c =? 0))).

End Top.
End Core.
