(* ===== verification/NpcArch.v ===== *)
(** The instruction set that the processor implements, as a sequential machine, and the
    immediates and the ALU of the processor against it.

    [arch] is the state a program sees; [effect] gives what one instruction of the decoder
    of [RvSpec] does to it. Instructions come from a function [code], data from a byte
    memory. *)

From S2P Require Import Prelude AmBus RvSpec NpcDatapath NpcCore.

(** * The sequential machine *)

Record csrs : Type := mkCsrs { a_mstatus : Z; a_mtvec : Z; a_mepc : Z; a_mcause : Z }.
#[global] Instance eta_csrs : Eta csrs := fun s => mkCsrs (a_mstatus s) (a_mtvec s) (a_mepc s) (a_mcause s).

Record arch : Type := mkArch { a_pc : Z; a_reg : Z -> Z; a_csr : csrs; a_mem : ram }.

Definition a_get (a : arch) (r : Z) : Z := if r =? 0 then 0 else a_reg a r.

(** The implemented control registers; the others read as zero and drop what is written. *)
Definition a_csr_get (c : csrs) (n : Z) : Z :=
  if n =? 0x300 then a_mstatus c else if n =? 0x305 then a_mtvec c
  else if n =? 0x341 then a_mepc c else if n =? 0x342 then a_mcause c
  else if n =? 0xF11 then 0x79737978 else if n =? 0xF12 then 0x17F4E2E else 0.
Definition a_csr_put (c : csrs) (n v : Z) : csrs :=
  if n =? 0x300 then c <| a_mstatus := v |> else if n =? 0x305 then c <| a_mtvec := v |>
  else if n =? 0x341 then c <| a_mepc := v |> else if n =? 0x342 then c <| a_mcause := v |> else c.

Inductive memop : Type := NoMem | Load (len : Z) (signed : bool) (addr : Z) | Store (len addr v : Z).

(** The effect of an instruction: the next pc, the register written (0 for none) with its
    value unless it is loaded, the memory access and the control registers. *)
Record eff : Type := mkEff { e_npc : Z; e_rd : Z; e_val : Z; e_mem : memop; e_csr : csrs }.

Definition effect (a : arch) (i : instr) : eff :=
  let pc := a_pc a in
  let next := u32 (pc + 4) in
  let x := a_get a in
  let alu rd v := mkEff next rd (u32 v) NoMem (a_csr a) in
  match i with
  | I_lui rd imm => alu rd imm
  | I_auipc rd imm => alu rd (pc + imm)
  | I_jal rd imm => mkEff (u32 (pc + imm)) rd next NoMem (a_csr a)
  | I_jalr rd rs1 imm => mkEff (2 * (u32 (x rs1 + imm) / 2)) rd next NoMem (a_csr a)
  | I_branch c rs1 rs2 imm =>
      mkEff (if cond_sem c (x rs1) (x rs2) then u32 (pc + imm) else next) 0 0 NoMem (a_csr a)
  | I_load len signed rd rs1 imm => mkEff next rd 0 (Load len signed (u32 (x rs1 + imm))) (a_csr a)
  | I_store len rs1 rs2 imm => mkEff next 0 0 (Store len (u32 (x rs1 + imm)) (x rs2)) (a_csr a)
  | I_opimm o rd rs1 imm => alu rd (alu_sem o (x rs1) (u32 imm))
  | I_op o rd rs1 rs2 => alu rd (alu_sem o (x rs1) (x rs2))
  | I_ecall => mkEff (a_mtvec (a_csr a)) 0 0 NoMem ((a_csr a) <| a_mepc := pc |> <| a_mcause := 11 |>)
  | I_mret => mkEff (a_mepc (a_csr a)) 0 0 NoMem (a_csr a)
  | I_csrrw rd rs1 c => mkEff next rd (a_csr_get (a_csr a) c) NoMem (a_csr_put (a_csr a) c (x rs1))
  | I_csrrs rd rs1 c =>
      let v := a_csr_get (a_csr a) c in
      mkEff next rd v NoMem (if rs1 =? 0 then a_csr a else a_csr_put (a_csr a) c (Z.lor v (x rs1)))
  | I_fence_i | I_ebreak | I_illegal => mkEff next 0 0 NoMem (a_csr a)
  end.

Definition mem_load (m : ram) (len : Z) (signed : bool) (addr : Z) : Z :=
  let v := le_combine (get_bytes m addr (Z.to_nat len)) in if signed then u32 (sgn (8 * len) v) else v.

Definition e_result (a : arch) (e : eff) : Z :=
  match e_mem e with Load len signed addr => mem_load (a_mem a) len signed addr | _ => e_val e end.
Definition e_memory (a : arch) (e : eff) : ram :=
  match e_mem e with
  | Store len addr v => set_bytes (a_mem a) addr (le_split (Z.to_nat len) v)
  | _ => a_mem a
  end.

Section Code.
Variable code : Z -> Z.

Definition a_instr (a : arch) : instr := rv_decode (code (a_pc a)).
Definition a_eff (a : arch) : eff := effect a (a_instr a).

Definition a_step (a : arch) : arch :=
  let e := a_eff a in
  mkArch (e_npc e) (if e_rd e =? 0 then a_reg a else rf_write (a_reg a) (e_rd e) (e_result a e)) (e_csr e) (e_memory a e).

(** * What the processor supports *)

Definition base_op (o : alu) : bool :=
  match o with ADD | SUB | SLL | SLT | SLTU | XOR | SRL | SRA | OR | AND => true | _ => false end.

(** RV32E without the counters, with aligned accesses and jump targets. *)
Definition supported (a : arch) : Prop :=
  a_pc (a_step a) mod 4 = 0 /\
  match a_instr a with
  | I_lui rd _ | I_auipc rd _ | I_jal rd _ => rd < 16
  | I_jalr rd rs1 _ => rd < 16 /\ rs1 < 16
  | I_branch _ rs1 rs2 _ => rs1 < 16 /\ rs2 < 16
  | I_load len _ rd rs1 imm => rd < 16 /\ rs1 < 16 /\ u32 (a_get a rs1 + imm) mod len = 0
  | I_store len rs1 rs2 imm => rs1 < 16 /\ rs2 < 16 /\ u32 (a_get a rs1 + imm) mod len = 0
  | I_opimm _ rd rs1 _ => rd < 16 /\ rs1 < 16
  | I_op o rd rs1 rs2 => base_op o = true /\ rd < 16 /\ rs1 < 16 /\ rs2 < 16
  | I_csrrw rd rs1 c | I_csrrs rd rs1 c => rd < 16 /\ rs1 < 16 /\ c <> 0xB00 /\ c <> 0xB80
  | I_fence_i | I_ecall | I_ebreak | I_mret => True
  | I_illegal => False
  end.

End Code.

(** * Fields and immediates *)

Lemma slice_fld w hi lo n : n = hi - lo + 1 -> slice w hi lo = fld w lo n.
Proof. intros ->. reflexivity. Qed.

Lemma slice_range w hi lo : lo <= hi + 1 -> 0 <= slice w hi lo < 2 ^ (hi - lo + 1).
Proof. intros H. apply Z.mod_pos_bound. apply Z.pow_pos_nonneg; lia. Qed.

(** Sign extension by repeating the top bit. *)
Lemma rep_sgn n k x b : 0 < n -> 0 <= k -> n + k = 32 -> 0 <= x < 2 ^ n -> b = Z.testbit x (n - 1) ->
  cat n (rep k b) x = u32 (sgn n x).
Proof.
  intros Hn Hk Hs Hx ->. unfold cat, rep, sgn. rewrite (wrap_id n x) by exact Hx.
  assert (2 ^ n = 2 * 2 ^ (n - 1)) as En by (rewrite <- Z.pow_succ_r by lia; f_equal; lia).
  assert (2 ^ 32 = 2 ^ n * 2 ^ k) as E32 by (rewrite <- Z.pow_add_r by lia; f_equal; lia).
  assert (0 < 2 ^ (n - 1)) by (apply Z.pow_pos_nonneg; lia). assert (0 < 2 ^ k) by (apply Z.pow_pos_nonneg; lia).
  rewrite Z.testbit_odd, Z.shiftr_div_pow2 by lia.
  destruct (Z.ltb_spec x (2 ^ (n - 1))).
  - rewrite Z.div_small by lia. cbn [Z.odd]. rewrite wrap_id by (unfold in_u; nia). lia.
  - assert (x / 2 ^ (n - 1) = 1) as -> by (symmetry; apply Z.div_unique with (x - 2 ^ (n - 1)); lia).
    cbn [Z.odd]. unfold wrap. replace (x - 2 ^ n) with ((2 ^ k - 1) * 2 ^ n + x + (-1) * 2 ^ 32) by lia.
    rewrite Z.mod_add by lia. rewrite Z.mod_small; nia.
Qed.

Lemma testbit_slice w hi lo i : 0 <= lo -> 0 <= i < hi - lo + 1 -> Z.testbit (slice w hi lo) i = Z.testbit w (lo + i).
Proof.
  intros Hl Hi. unfold slice. rewrite Z.mod_pow2_bits_low by lia. rewrite Z.div_pow2_bits by lia. f_equal. lia.
Qed.

Lemma fld_bit w k : 0 <= k -> fld w k 1 = b2z (Z.testbit w k).
Proof. intros Hk. unfold fld. change (2 ^ 1) with 2. rewrite <- Z.testbit_spec' by done. by destruct (Z.testbit w k). Qed.

(** One more copy of the top bit below the repetition. *)
Lemma rep_succ n k b x : 0 <= n -> 0 <= k -> cat n (rep (k + 1) b) x = cat (n + 1) (rep k b) (b2z b * 2 ^ n + x).
Proof.
  intros Hn Hk. unfold cat, rep. rewrite !Z.pow_add_r by lia. destruct b; cbn [b2z]; lia.
Qed.

Lemma immI_ok w : immI w = u32 (imm_i w).
Proof.
  unfold immI, imm_i. rewrite (slice_fld w 31 20 12) by lia. apply rep_sgn; try lia.
  - exact (slice_range w 31 20 ltac:(lia)).
  - symmetry. exact (testbit_slice w 31 20 11 ltac:(lia) ltac:(lia)).
Qed.

Lemma immU_ok w : immU w = u32 (imm_u w).
Proof.
  unfold immU, imm_u, cat. rewrite (slice_fld w 31 12 20) by lia. pose proof (slice_range w 31 12 ltac:(lia)) as H.
  rewrite (slice_fld w 31 12 20) in H by lia. rewrite wrap_sgn, wrap_id by (unfold in_u; lia). lia.
Qed.

(** The top bit of a field that is put together from smaller ones. *)
Lemma cat_top n a b i : 0 <= n -> 0 <= b < 2 ^ n -> n <= i -> Z.testbit (cat n a b) i = Z.testbit a (i - n).
Proof.
  intros Hn Hb Hi. unfold cat. replace i with ((i - n) + n) at 1 by lia.
  rewrite <- Z.div_pow2_bits by lia. f_equal. symmetry. apply Z.div_unique with b; lia.
Qed.

Lemma immS_ok w : immS w = u32 (imm_s w).
Proof.
  unfold immS, imm_s. pose proof (slice_range w 11 7 ltac:(lia)) as H1. pose proof (slice_range w 31 25 ltac:(lia)) as H2.
  cbn in H1, H2. rewrite <- (slice_fld w 31 25 7), <- (slice_fld w 11 7 5) by lia.
  apply rep_sgn; try lia. symmetry. change (slice w 31 25 * 2 ^ 5 + slice w 11 7) with (cat 5 (slice w 31 25) (slice w 11 7)).
  rewrite cat_top by lia. exact (testbit_slice w 31 25 6 ltac:(lia) ltac:(lia)).
Qed.

Lemma b2z_range b : 0 <= b2z b <= 1.
Proof. destruct b; cbn; lia. Qed.

Lemma b2z_cat_top n b x : 0 <= n -> 0 <= x < 2 ^ n -> Z.testbit (b2z b * 2 ^ n + x) n = b.
Proof.
  intros Hn Hx. change (b2z b * 2 ^ n + x) with (cat n (b2z b) x). rewrite cat_top by lia. replace (n - n) with 0 by lia. by destruct b.
Qed.

Lemma immB_ok w : immB w = u32 (imm_b w).
Proof.
  unfold immB, imm_b. rewrite (fld_bit w 31) by lia. set (b := Z.testbit w 31).
  pose proof (slice_range w 7 7 ltac:(lia)) as H1. pose proof (slice_range w 30 25 ltac:(lia)) as H2.
  pose proof (slice_range w 11 8 ltac:(lia)) as H3. cbn in H1, H2, H3.
  rewrite (rep_succ 12 19) by lia.
  rewrite <- (slice_fld w 7 7 1), <- (slice_fld w 30 25 6), <- (slice_fld w 11 8 4) by lia.
  unfold cat at 2 3 4. set (x := slice w 7 7 * 2 ^ 11 + _).
  replace (b2z b * 2 ^ 12 + slice w 7 7 * 2 ^ 11 + slice w 30 25 * 2 ^ 5 + slice w 11 8 * 2) with (b2z b * 2 ^ 12 + x) by (unfold x; lia).
  assert (0 <= x < 2 ^ 12) by (unfold x; lia). pose proof (b2z_range b).
  apply rep_sgn; try lia. symmetry. by apply b2z_cat_top.
Qed.

Lemma immJ_ok w : immJ w = u32 (imm_j w).
Proof.
  unfold immJ, imm_j. rewrite (fld_bit w 31) by lia. set (b := Z.testbit w 31).
  pose proof (slice_range w 19 12 ltac:(lia)) as H1. pose proof (slice_range w 20 20 ltac:(lia)) as H2.
  pose proof (slice_range w 30 21 ltac:(lia)) as H3. cbn in H1, H2, H3.
  rewrite (rep_succ 20 11) by lia.
  rewrite <- (slice_fld w 19 12 8), <- (slice_fld w 20 20 1), <- (slice_fld w 30 21 10) by lia.
  unfold cat at 2 3 4. set (x := slice w 19 12 * 2 ^ 12 + _).
  replace (b2z b * 2 ^ 20 + slice w 19 12 * 2 ^ 12 + slice w 20 20 * 2 ^ 11 + slice w 30 21 * 2) with (b2z b * 2 ^ 20 + x) by (unfold x; lia).
  assert (0 <= x < 2 ^ 20) by (unfold x; lia). pose proof (b2z_range b).
  apply rep_sgn; try lia. symmetry. by apply b2z_cat_top.
Qed.

(** * The ALU *)

Lemma vnot_land x : in_u 32 x -> Z.land x (vnot 1) = 2 * (x / 2).
Proof.
  intros Hx. unfold in_u in Hx. change (vnot 1) with (Z.ones 32 - 1).
  pose proof (Z.div_mod x 2 ltac:(lia)). pose proof (Z.mod_pos_bound x 2 ltac:(lia)).
  assert (Z.land x (Z.ones 32 - 1) = x - x mod 2) as ->; [|lia].
  assert (Z.ones 32 - 1 = Z.ldiff (Z.ones 32) 1) as -> by reflexivity.
  replace (Z.land x (Z.ldiff (Z.ones 32) 1)) with (Z.ldiff (Z.land x (Z.ones 32)) 1)
    by (apply Z.bits_inj'; intros n Hn; rewrite !Z.ldiff_spec, !Z.land_spec, Z.ldiff_spec; btauto).
  rewrite Z.land_ones, Z.mod_small by lia. change 1 with (Z.ones 1) at 1. rewrite Z.ldiff_ones_r by lia.
  rewrite Z.shiftl_mul_pow2, Z.shiftr_div_pow2 by lia. change (2 ^ 1) with 2. lia.
Qed.

Lemma sub33_eq a b : in_u 32 a -> in_u 32 b -> sub33 a b = a - b + 2 ^ 32.
Proof. unfold sub33, vnot, in_u. intros Ha Hb. change (Z.ones 32) with (2 ^ 32 - 1). rewrite Z.mod_small; lia. Qed.

Lemma diff_eq a b : in_u 32 a -> in_u 32 b -> diff a b = u32 (a - b).
Proof.
  intros Ha Hb. unfold diff, wrap. rewrite sub33_eq by done.
  replace (a - b + 2 ^ 32) with (a - b + 1 * 2 ^ 32) by lia. by rewrite Z.mod_add by lia.
Qed.

Lemma top31 x : in_u 32 x -> Z.testbit x 31 = negb (x <? 2 ^ 31).
Proof.
  unfold in_u. intros Hx. rewrite Z.testbit_odd, Z.shiftr_div_pow2 by lia. destruct (Z.ltb_spec x (2 ^ 31)).
  - by rewrite Z.div_small by lia.
  - assert (x / 2 ^ 31 = 1) as ->; [|done]. symmetry. apply Z.div_unique with (x - 2 ^ 31); lia.
Qed.

Lemma flag_zero a b : in_u 32 a -> in_u 32 b -> ZERO (flags_of a b) = (a =? b).
Proof.
  intros Ha Hb. cbn [ZERO flags_of]. rewrite diff_eq by done. unfold in_u in *. unfold wrap.
  destruct (Z.leb_spec b a).
  - rewrite Z.mod_small by lia. destruct (Z.eqb_spec (a - b) 0), (Z.eqb_spec a b); done || lia.
  - replace (a - b) with (a - b + 2 ^ 32 + (-1) * 2 ^ 32) by lia. rewrite Z.mod_add, Z.mod_small by lia.
    destruct (Z.eqb_spec (a - b + 2 ^ 32) 0), (Z.eqb_spec a b); done || lia.
Qed.

Lemma flag_noborrow a b : in_u 32 a -> in_u 32 b -> NOBORROW (flags_of a b) = negb (a <? b).
Proof.
  intros Ha Hb. cbn [NOBORROW flags_of]. unfold cout. rewrite sub33_eq by done. unfold in_u in *.
  rewrite Z.testbit_odd, Z.shiftr_div_pow2 by lia. destruct (Z.ltb_spec a b).
  - by rewrite Z.div_small by lia.
  - assert ((a - b + 2 ^ 32) / 2 ^ 32 = 1) as ->; [|done]. symmetry. apply Z.div_unique with (a - b); lia.
Qed.

Lemma s32_by_top x : in_u 32 x -> s32 x = if x <? 2 ^ 31 then x else x - 2 ^ 32.
Proof. intros Hx. unfold sgn. by rewrite (wrap_id 32 x) by done. Qed.

Lemma flag_less a b : in_u 32 a -> in_u 32 b ->
  xorb (NEGATIVE (flags_of a b)) (OVERFLOW (flags_of a b)) = (s32 a <? s32 b).
Proof.
  intros Ha Hb. cbn [NEGATIVE OVERFLOW flags_of]. rewrite diff_eq by done. rewrite !top31 by (done || by apply wrap_in_u).
  rewrite !s32_by_top by done. unfold in_u in *.
  assert (u32 (a - b) = if b <=? a then a - b else a - b + 2 ^ 32) as ->.
  { unfold wrap. destruct (Z.leb_spec b a); [by rewrite Z.mod_small by lia|].
    replace (a - b) with (a - b + 2 ^ 32 + (-1) * 2 ^ 32) at 1 by lia. rewrite Z.mod_add, Z.mod_small by lia. lia. }
  destruct (Z.leb_spec b a), (Z.ltb_spec a (2 ^ 31)), (Z.ltb_spec b (2 ^ 31));
    match goal with |- context [?x <? 2 ^ 31] => destruct (Z.ltb_spec x (2 ^ 31)) end;
    match goal with |- _ = (?x <? ?y) => destruct (Z.ltb_spec x y) end; cbn; done || lia.
Qed.

Definition alu_code (o : alu) : Z :=
  match o with
  | ADD => NPC_ALU_ADD | SUB => NPC_ALU_SUB | SLL => NPC_ALU_SLL | SLT => NPC_ALU_SLT | SLTU => NPC_ALU_SLTU
  | XOR => NPC_ALU_XOR | SRL => NPC_ALU_SRL | SRA => NPC_ALU_SRA | OR => NPC_ALU_OR | AND => NPC_ALU_AND | _ => 15
  end.

Lemma shift_amount b : slice b 4 0 = b mod 32.
Proof. unfold slice. change (2 ^ 0) with 1. by rewrite Z.div_1_r. Qed.

Lemma bits_op_range f a b : (forall x y n, 0 <= n -> Z.testbit (f x y) n = true -> Z.testbit x n || Z.testbit y n = true) ->
  0 <= f a b -> in_u 32 a -> in_u 32 b -> in_u 32 (f a b).
Proof.
  intros Hf H0 Ha Hb. unfold in_u in *. split; [done|]. destruct (Z.eq_dec (f a b) 0) as [-> | Hn]; [lia|].
  apply Z.log2_lt_pow2; [lia|]. destruct (Z.ltb_spec (Z.log2 (f a b)) 32) as [|Hge]; [done|].
  pose proof (Z.bit_log2 (f a b) ltac:(lia)) as Hb2. apply Hf in Hb2; [|lia].
  rewrite (testbit_above a 32), (testbit_above b 32) in Hb2 by lia. done.
Qed.

Lemma alu_ok o a b : base_op o = true -> in_u 32 a -> in_u 32 b -> alu_result (alu_code o) a b = u32 (alu_sem o a b).
Proof.
  intros Ho Ha Hb. pose proof (Z.mod_pos_bound b 32 ltac:(lia)).
  destruct o; try discriminate Ho; unfold alu_result; cbn [alu_code alu_sem];
    cbn [Z.eqb Pos.eqb NPC_ALU_ADD NPC_ALU_SUB NPC_ALU_AND NPC_ALU_OR NPC_ALU_XOR NPC_ALU_SLL NPC_ALU_SRL NPC_ALU_SRA NPC_ALU_SLT NPC_ALU_SLTU].
  - done.
  - by apply diff_eq.
  - by rewrite shift_amount, Z.shiftl_mul_pow2 by lia.
  - rewrite flag_less by done. by destruct (s32 a <? s32 b).
  - rewrite flag_noborrow, negb_involutive, (wrap_id 32 a), (wrap_id 32 b) by done. by destruct (a <? b).
  - rewrite wrap_id; [done|]. apply (bits_op_range Z.lxor); try done; unfold in_u in *.
    + intros x y n _ E. rewrite Z.lxor_spec in E. by destruct (Z.testbit x n), (Z.testbit y n).
    + apply Z.lxor_nonneg. lia.
  - rewrite shift_amount, Z.shiftr_div_pow2 by lia. rewrite (wrap_id 32 a) by done. rewrite wrap_id; [done|]. unfold in_u in *.
    assert (0 < 2 ^ (b mod 32)) by (apply Z.pow_pos_nonneg; lia).
    split; [apply Z.div_pos; lia|]. apply Z.div_lt_upper_bound; nia.
  - by rewrite shift_amount, Z.shiftr_div_pow2 by lia.
  - rewrite wrap_id; [done|]. apply (bits_op_range Z.lor); try done; unfold in_u in *.
    + intros x y n _ E. by rewrite Z.lor_spec in E.
    + apply Z.lor_nonneg. lia.
  - rewrite wrap_id; [done|]. apply (bits_op_range Z.land); try done; unfold in_u in *.
    + intros x y n _ E. rewrite Z.land_spec in E. by destruct (Z.testbit x n), (Z.testbit y n).
    + apply Z.land_nonneg. lia.
Qed.
