(* ===== verification/NpcExec.v ===== *)
(** One instruction through the data path of the processor: what the decoder, the ALU, the
    branch unit and the control registers compute for a word is the effect of the
    instruction it encodes ([exec_ok]). *)

From S2P Require Import Prelude AmBus RvSpec NpcDatapath NpcCore NpcArch.

(** * One instruction through the data path *)

Definition csr_match (c : csr_st) (k : csrs) : Prop :=
  mstatus c = a_mstatus k /\ mtvec c = a_mtvec k /\ mepc c = a_mepc k /\ mcause c = a_mcause k.

Lemma csr_read_ok c k n : csr_match c k -> n <> 0xB00 -> n <> 0xB80 -> csr_rdata c n = a_csr_get k n.
Proof.
  intros (E1 & E2 & E3 & E4) H1 H2. unfold csr_rdata, a_csr_get.
  rewrite (proj2 (Z.eqb_neq n 0xB00)), (proj2 (Z.eqb_neq n 0xB80)), E1, E2, E3, E4 by done.
  destruct (Z.eqb_spec n 0xF11) as [-> | _]; [done|]. by destruct (Z.eqb_spec n 0xF12) as [-> | _].
Qed.

Lemma csr_idle_ok c k pc n v : csr_match c k -> csr_match (csr_edge false false pc n v c) k.
Proof. intros (E1 & E2 & E3 & E4). by split_and!. Qed.

Lemma csr_ecall_ok c k pc n v w : csr_match c k ->
  csr_match (csr_edge true w pc n v c) (k <| a_mepc := pc |> <| a_mcause := 11 |>).
Proof. intros (E1 & E2 & E3 & E4). by split_and!. Qed.

Lemma csr_write_ok c k pc n v : csr_match c k -> csr_match (csr_edge false true pc n v c) (a_csr_put k n v).
Proof.
  intros (E1 & E2 & E3 & E4). unfold csr_edge, a_csr_put.
  destruct (Z.eqb_spec n 0xB00) as [-> | _]; [by split_and!|]. destruct (Z.eqb_spec n 0xB80) as [-> | _]; [by split_and!|].
  repeat (case_match; [by split_and!|]). by split_and!.
Qed.

Definition load_code (len : Z) (signed : bool) : Z :=
  if len =? 1 then if signed then 0 else 4 else if len =? 2 then if signed then 1 else 5 else 2.
Definition store_code (len : Z) : Z := if len =? 1 then 0 else if len =? 2 then 1 else 2.

(** What the data path computes for an instruction with operands [s1] and [s2] is [e]. *)
Record executes (a : arch) (i : instr) (e : eff) (d : decoded) (s1 s2 : Z) (c : csr_st) : Prop := mkExecutes {
  ex_npc : exu_npc d (a_pc a) s1 s2 c = e_npc e;
  ex_we : rf_we (d_ctl d) = true -> d_rd d = e_rd e;
  ex_nowe : rf_we (d_ctl d) = false -> e_rd e = 0;
  ex_wb : rf_we (d_ctl d) = true -> is_load (d_ctl d) = false -> wb_data d (a_pc a) s1 s2 c = e_val e;
  ex_mem : match e_mem e with
    | NoMem => is_load (d_ctl d) = false /\ is_store (d_ctl d) = false
    | Load len sg addr => is_load (d_ctl d) = true /\ is_store (d_ctl d) = false /\
        exu_alu_result d (a_pc a) s1 s2 = addr /\ d_load_size d = load_code len sg /\
        (len = 1 \/ len = 2 \/ len = 4 /\ sg = true)
    | Store len addr v => is_load (d_ctl d) = false /\ is_store (d_ctl d) = true /\
        exu_alu_result d (a_pc a) s1 s2 = addr /\ store_data d s2 = v /\ d_store_size d = store_code len /\
        (len = 1 \/ len = 2 \/ len = 4)
    end;
  ex_csr : csr_match (csr_edge (is_ecall (d_ctl d)) (csr_wen (d_ctl d)) (a_pc a) (d_csr_addr d) (csr_wdata d s1 c) c) (e_csr e);
  ex_ebreak : is_ebreak (d_ctl d) = match i with I_ebreak => true | _ => false end;
  ex_fencei : is_fencei (d_ctl d) = match i with I_fence_i => true | _ => false end;
  ex_fence_next : i = I_fence_i -> redirect_valid d s1 s2 = false;
}.

Lemma opcode_fld w : opcode w = f_opcode w.
Proof. by apply slice_fld. Qed.
Lemma funct3_fld w : funct3 w = f_funct3 w.
Proof. by apply slice_fld. Qed.
Lemma funct7_fld w : funct7 w = f_funct7 w.
Proof. by apply slice_fld. Qed.
Lemma rs1_fld w : rs1_idx w = f_rs1 w.
Proof. by apply slice_fld. Qed.
Lemma rs2_fld w : rs2_idx w = f_rs2 w.
Proof. by apply slice_fld. Qed.
Lemma rd_fld w : rd_idx w = f_rd w.
Proof. by apply slice_fld. Qed.
Lemma csr_fld w : csr_addr w = f_csr w.
Proof. by apply slice_fld. Qed.

Lemma not_system w : f_opcode w <> 0x73 ->
  (w =? 0x00000073) = false /\ (w =? 0x00100073) = false /\ (w =? 0x30200073) = false.
Proof.
  intros H. split_and!; apply Z.eqb_neq; intros ->; by apply H.
Qed.

(** The control wires by opcode. *)
Ltac control_of E :=
  unfold control; rewrite ?opcode_fld, ?funct3_fld, ?funct7_fld, ?rd_fld, ?rs1_fld, ?E;
  let N := fresh in
  try (pose proof (not_system _ ltac:(rewrite E; discriminate)) as N; destruct N as (-> & -> & ->));
  reflexivity.

(** A field of a few bits, by cases on its value. *)
Ltac by_value x := repeat (case_match; [match goal with H : (x =? _) = true |- _ => apply Z.eqb_eq in H end|]).

Section Exec.
Variables (a : arch) (w s1 s2 : Z) (c : csr_st).
Hypotheses (Hpc : in_u 32 (a_pc a)) (Hregs : forall r, in_u 32 (a_get a r)).
Hypotheses (Hs1 : uses_rs1 w = true -> s1 = a_get a (f_rs1 w)) (Hs2 : uses_rs2 w = true -> s2 = a_get a (f_rs2 w)).
Hypothesis (Hc : csr_match c (a_csr a)).

Let d := decode true w.
Local Abbreviation executed_as i := (executes a i (effect a i) d s1 s2 c).

(** The wires of an instruction, from its control word and its immediate. *)
Ltac wires Hk Hi :=
  constructor; unfold d, decode; rewrite ?Hk;
  unfold exu_npc, redirect_valid, redirect_pc, jal_target, jalr_target, branch_target, trap_pc, wb_data, csr_wdata,
    store_data, exu_alu_result, alu_src1, alu_src2, branch_taken;
  cbn -[Z.mul Z.div Z.land vnot flags_of alu_result csr_edge csr_rdata a_csr_get a_csr_put]; rewrite ?Hi, ?rd_fld; try done;
  try (by apply csr_idle_ok).
Ltac imm_is H E := rewrite <- H; unfold imm_of; rewrite opcode_fld, E; reflexivity.
Ltac operand1 E := rewrite Hs1 in * by (unfold uses_rs1; rewrite ?opcode_fld, ?funct3_fld, ?E; reflexivity).
Ltac operand2 E := rewrite Hs2 in * by (unfold uses_rs2; rewrite ?opcode_fld, ?E; reflexivity).

Lemma exec_lui : f_opcode w = 0x37 -> executed_as (rv_decode w).
Proof.
  intros E. unfold rv_decode. rewrite E. cbn [Z.eqb Pos.eqb].
  assert (control true w = ctrl0 <| rf_we := true |> <| alu_src1_sel := NPC_ZERO |> <| alu_src2_sel := NPC_IMM |>) as Hk
    by control_of E.
  assert (imm_of w = u32 (imm_u w)) as Hi by imm_is immU_ok E.
  wires Hk Hi. intros _ _. rewrite (alu_ok ADD) by (done || (unfold in_u; lia) || by apply wrap_in_u).
  cbn [alu_sem]. by rewrite Z.add_0_l, wrap_wrap.
Qed.

Lemma exec_auipc : f_opcode w = 0x17 -> executed_as (rv_decode w).
Proof.
  intros E. unfold rv_decode. rewrite E. cbn [Z.eqb Pos.eqb].
  assert (control true w = ctrl0 <| rf_we := true |> <| alu_src1_sel := NPC_CUR_PC |> <| alu_src2_sel := NPC_IMM |>) as Hk
    by control_of E.
  assert (imm_of w = u32 (imm_u w)) as Hi by imm_is immU_ok E.
  wires Hk Hi. intros _ _. rewrite (alu_ok ADD) by (done || by apply wrap_in_u). cbn. by rewrite wrap_add_r.
Qed.

Lemma exec_jal : f_opcode w = 0x6f -> executed_as (rv_decode w).
Proof.
  intros E. unfold rv_decode. rewrite E. cbn [Z.eqb Pos.eqb].
  assert (control true w = ctrl0 <| rf_we := true |> <| wb_sel := NPC_PC4 |> <| alu_src1_sel := NPC_CUR_PC |>
    <| alu_src2_sel := NPC_IMM |> <| is_jal := true |>) as Hk by control_of E.
  assert (imm_of w = u32 (imm_j w)) as Hi by imm_is immJ_ok E.
  wires Hk Hi. rewrite wrap_add_l. by rewrite Z.add_comm.
Qed.

Lemma exec_jalr : f_opcode w = 0x67 -> f_funct3 w = 0 -> executed_as (rv_decode w).
Proof.
  intros E E3. unfold rv_decode. rewrite E, E3. cbn [Z.eqb Pos.eqb].
  assert (control true w = ctrl0 <| rf_we := true |> <| wb_sel := NPC_PC4 |> <| alu_src2_sel := NPC_IMM |>
    <| is_jalr := true |>) as Hk by (unfold control; rewrite ?funct3_fld, ?E3; control_of E).
  assert (imm_of w = u32 (imm_i w)) as Hi by imm_is immI_ok E.
  assert (s1 = a_get a (f_rs1 w)) as -> by (apply Hs1; unfold uses_rs1; rewrite opcode_fld, funct3_fld, E, E3; reflexivity).
  wires Hk Hi. rewrite wrap_add_l, vnot_land by (by apply wrap_in_u). by rewrite Z.add_comm.
Qed.

(** The branch unit decides the condition that funct3 names. *)
Definition cond_code (k : cond) : Z :=
  match k with BEQ => 0 | BNE => 1 | BLT => 4 | BGE => 5 | BLTU => 6 | BGEU => 7 end.

Lemma branch_taken_ok x y k : in_u 32 x -> in_u 32 y -> d_branch_op d = cond_code k -> branch_taken d x y = cond_sem k x y.
Proof.
  intros Hx Hy E. unfold branch_taken. rewrite E. destruct k; cbn [cond_code cond_sem Z.eqb Pos.eqb];
    rewrite ?flag_zero, ?flag_less, ?flag_noborrow, ?negb_involutive by done; reflexivity.
Qed.

Lemma rv_branch_codes : rv_branch w <> I_illegal ->
  exists k, rv_branch w = I_branch k (f_rs1 w) (f_rs2 w) (imm_b w) /\ f_funct3 w = cond_code k.
Proof.
  unfold rv_branch. intros H. by_value (f_funct3 w); first [done | by eexists; split; [reflexivity|]].
Qed.

Lemma exec_branch : f_opcode w = 0x63 -> rv_decode w <> I_illegal -> executed_as (rv_decode w).
Proof.
  intros E. unfold rv_decode. rewrite E. cbn [Z.eqb Pos.eqb]. intros (k & -> & E3)%rv_branch_codes.
  assert (control true w = ctrl0 <| alu_src1_sel := NPC_CUR_PC |> <| alu_src2_sel := NPC_IMM |> <| is_branch := true |>) as Hk
    by control_of E.
  assert (imm_of w = u32 (imm_b w)) as Hi by imm_is immB_ok E.
  assert (s1 = a_get a (f_rs1 w)) as -> by (apply Hs1; unfold uses_rs1; rewrite opcode_fld, E; reflexivity).
  assert (s2 = a_get a (f_rs2 w)) as -> by (apply Hs2; unfold uses_rs2; rewrite opcode_fld, E; reflexivity).
  assert (branch_taken d (a_get a (f_rs1 w)) (a_get a (f_rs2 w)) = cond_sem k (a_get a (f_rs1 w)) (a_get a (f_rs2 w))) as Hb
    by (apply branch_taken_ok; [done..|]; by rewrite <- funct3_fld in E3).
  constructor; unfold d, decode in *; rewrite ?Hk in *; try done.
  unfold exu_npc, redirect_valid, redirect_pc. cbn -[branch_taken branch_target]. rewrite Hb.
  cbn [effect e_npc]. destruct (cond_sem _ _ _); [|reflexivity].
  cbn. unfold branch_target, jal_target. cbn. by rewrite Hi, wrap_add_l, Z.add_comm.
Qed.

Lemma rv_load_codes : rv_load w <> I_illegal ->
  exists len sg, rv_load w = I_load len sg (f_rd w) (f_rs1 w) (imm_i w) /\ f_funct3 w = load_code len sg /\
    (len = 1 \/ len = 2 \/ len = 4 /\ sg = true).
Proof.
  unfold rv_load. intros H. by_value (f_funct3 w); first [done | by do 2 eexists; split_and!; [reflexivity|done|auto]].
Qed.

Lemma exec_load : f_opcode w = 0x03 -> rv_decode w <> I_illegal -> executed_as (rv_decode w).
Proof.
  intros E. unfold rv_decode. rewrite E. cbn [Z.eqb Pos.eqb]. intros (len & sg & -> & E3 & Hlen)%rv_load_codes.
  assert (control true w = ctrl0 <| rf_we := true |> <| wb_sel := NPC_MEM |> <| is_load := true |> <| alu_src2_sel := NPC_IMM |>) as Hk
    by control_of E.
  assert (imm_of w = u32 (imm_i w)) as Hi by imm_is immI_ok E.
  assert (s1 = a_get a (f_rs1 w)) as -> by (apply Hs1; unfold uses_rs1; rewrite opcode_fld, E; reflexivity).
  wires Hk Hi. split_and!; try done.
  rewrite (alu_ok ADD) by (done || by apply wrap_in_u). cbn. by rewrite wrap_add_r.
Qed.

Lemma rv_store_codes : rv_store w <> I_illegal ->
  exists len, rv_store w = I_store len (f_rs1 w) (f_rs2 w) (imm_s w) /\ f_funct3 w = store_code len /\
    (len = 1 \/ len = 2 \/ len = 4).
Proof.
  unfold rv_store. intros H. by_value (f_funct3 w); first [done | by eexists; split_and!; [reflexivity|done|auto]].
Qed.

Lemma exec_store : f_opcode w = 0x23 -> rv_decode w <> I_illegal -> executed_as (rv_decode w).
Proof.
  intros E. unfold rv_decode. rewrite E. cbn [Z.eqb Pos.eqb]. intros (len & -> & E3 & Hlen)%rv_store_codes.
  assert (control true w = ctrl0 <| alu_src2_sel := NPC_IMM |> <| is_store := true |>) as Hk by control_of E.
  assert (imm_of w = u32 (imm_s w)) as Hi by imm_is immS_ok E.
  assert (s1 = a_get a (f_rs1 w)) as -> by (apply Hs1; unfold uses_rs1; rewrite opcode_fld, E; reflexivity).
  assert (s2 = a_get a (f_rs2 w)) as -> by (apply Hs2; unfold uses_rs2; rewrite opcode_fld, E; reflexivity).
  wires Hk Hi. split_and!; try done.
  rewrite (alu_ok ADD) by (done || by apply wrap_in_u). cbn. by rewrite wrap_add_r.
Qed.

(** The register form: the operation that funct3 and funct7 name. *)
Lemma rv_op_codes f7 f3 o : rv_op f7 f3 = Some o -> base_op o = true -> op_alu f3 f7 = alu_code o.
Proof.
  unfold rv_op. intros H B. by_value f7; try done; subst f7;
    (by_value f3; try done; subst f3; injection H as <-; done).
Qed.

Lemma exec_op o : f_opcode w = 0x33 -> rv_decode w = I_op o (f_rd w) (f_rs1 w) (f_rs2 w) -> base_op o = true ->
  executed_as (rv_decode w).
Proof.
  intros E Ho B. assert (op_alu (f_funct3 w) (f_funct7 w) = alu_code o) as Hop.
  { apply rv_op_codes; [|done]. unfold rv_decode in Ho. rewrite E in Ho. cbn [Z.eqb Pos.eqb] in Ho.
    destruct (rv_op _ _); [|discriminate Ho]. by injection Ho as ->. }
  rewrite Ho.
  assert (control true w = ctrl0 <| rf_we := true |> <| alu_op := op_alu (f_funct3 w) (f_funct7 w) |>) as Hk by control_of E.
  assert (s1 = a_get a (f_rs1 w)) as -> by (apply Hs1; unfold uses_rs1; rewrite opcode_fld, E; reflexivity).
  assert (s2 = a_get a (f_rs2 w)) as -> by (apply Hs2; unfold uses_rs2; rewrite opcode_fld, E; reflexivity).
  rewrite Hop in Hk. wires Hk Hk. intros _ _. by apply alu_ok.
Qed.

(** The immediate form: the shifts to the right take the field of the amount, the shift to
    the left the low bits of the immediate. *)
Lemma fld_low n : 0 <= n -> forall lo k, 0 <= lo -> n <= k -> fld w lo k mod 2 ^ n = fld w lo n.
Proof.
  intros Hn lo k Hlo Hk. unfold fld. replace k with (n + (k - n)) by lia.
  by rewrite Z.pow_add_r, Z.rem_mul_r, Z.mul_comm, Z.mod_add, Z.mod_mod by (try apply Z.pow_nonzero; lia).
Qed.

Lemma imm_shamt : u32 (imm_i w) mod 32 = f_rs2 w.
Proof.
  unfold imm_i, f_rs2. rewrite <- (fld_low 5 ltac:(lia) 20 12) by lia. change 32 with (2 ^ 5). unfold sgn. 
  assert (forall x, u32 x mod 2 ^ 5 = x mod 2 ^ 5) as Hu.
  { intros x. unfold wrap. change (2 ^ 32) with (2 ^ 5 * 2 ^ 27). by rewrite Z.rem_mul_r, Z.mul_comm, Z.mod_add, Z.mod_mod by lia. }
  rewrite Hu. rewrite wrap_id by (apply (slice_range w 31 20); lia). destruct (_ <? _); [done|].
  change (2 ^ 12) with (2 ^ 7 * 2 ^ 5). unfold Z.sub. rewrite <- Z.mul_opp_l. by rewrite Z.mod_add by lia.
Qed.

(** The second operand of an immediate instruction: the shift to the left masks it. *)
Definition opimm_src2 : Z := if f_funct3 w =? 5 then f_rs2 w else u32 (imm_i w).

Lemma rv_opimm_codes : rv_opimm w <> I_illegal ->
  exists o imm, rv_opimm w = I_opimm o (f_rd w) (f_rs1 w) imm /\ base_op o = true /\
    opimm_alu (f_funct3 w) (f_funct7 w) = alu_code o /\
    (forall x, in_u 32 x -> u32 (alu_sem o x opimm_src2) = u32 (alu_sem o x (u32 imm))).
Proof.
  assert (0 <= f_rs2 w < 32) as Hr by exact (slice_range w 24 20 ltac:(lia)).
  unfold rv_opimm. intros H. by_value (f_funct3 w); try done;
    try by_value (f_funct7 w); try done;
    do 2 eexists; split_and!; try reflexivity; unfold opimm_src2;
    repeat match goal with H : f_funct3 _ = _ |- _ => rewrite H | H : f_funct7 _ = _ |- _ => rewrite H end;
    try reflexivity; intros x Hx; cbn [Z.eqb Pos.eqb alu_sem];
    rewrite ?(wrap_id 32 (f_rs2 w)) by (unfold in_u; lia); try done.
  by rewrite imm_shamt, (Z.mod_small (f_rs2 w)).
Qed.

Lemma exec_opimm : f_opcode w = 0x13 -> rv_decode w <> I_illegal -> executed_as (rv_decode w).
Proof.
  intros E. unfold rv_decode. rewrite E. cbn [Z.eqb Pos.eqb]. intros (o & imm & -> & B & Hop & Hsem)%rv_opimm_codes.
  assert (control true w = ctrl0 <| rf_we := true |> <| alu_src2_sel := if f_funct3 w =? 5 then NPC_SHAMT else NPC_IMM |>
    <| alu_op := opimm_alu (f_funct3 w) (f_funct7 w) |>) as Hk by control_of E.
  assert (imm_of w = u32 (imm_i w)) as Hi by imm_is immI_ok E.
  assert (s1 = a_get a (f_rs1 w)) as -> by (apply Hs1; unfold uses_rs1; rewrite opcode_fld, E; reflexivity).
  rewrite Hop in Hk.
  assert (in_u 32 opimm_src2) as Hr.
  { unfold opimm_src2. case_match; [|by apply wrap_in_u].
    pose proof (slice_range w 24 20 ltac:(lia)) as Hr. change (slice w 24 20) with (f_rs2 w) in Hr. unfold in_u. cbn in Hr. lia. }
  assert (exu_alu_result d (a_pc a) (a_get a (f_rs1 w)) s2 = u32 (alu_sem o (a_get a (f_rs1 w)) (u32 imm))) as Hx.
  { rewrite <- Hsem, <- alu_ok by done. unfold exu_alu_result, alu_src1, alu_src2, d, decode. rewrite Hk. cbn [d_ctl d_imm d_shamt].
    cbn [alu_src1_sel alu_src2_sel alu_op]. cbn. f_equal. unfold opimm_src2. rewrite Hi. by destruct (_ =? 5). }
  constructor; unfold d, decode in *; rewrite ?Hk in *; done.
Qed.

Lemma exec_fence_i : f_opcode w = 0x0f -> f_funct3 w = 1 -> executed_as (rv_decode w).
Proof.
  intros E E3. unfold rv_decode. rewrite E, E3. cbn [Z.eqb Pos.eqb].
  assert (control true w = ctrl0 <| is_fencei := true |>) as Hk by (unfold control; rewrite ?funct3_fld, ?E3; control_of E).
  wires Hk Hk.
Qed.

Lemma exec_ecall : w = 0x00000073 -> executed_as I_ecall.
Proof.
  intros Hw. assert (control true w = ctrl0 <| is_ecall := true |> <| trap_valid := true |>) as Hk by (rewrite Hw; reflexivity).
  wires Hk Hk; [apply Hc|]. by apply csr_ecall_ok.
Qed.

Lemma exec_ebreak : w = 0x00100073 -> executed_as I_ebreak.
Proof. intros Hw. assert (control true w = ctrl0 <| is_ebreak := true |>) as Hk by (rewrite Hw; reflexivity). wires Hk Hk. Qed.

Lemma exec_mret : w = 0x30200073 -> executed_as I_mret.
Proof.
  intros Hw. assert (control true w = ctrl0 <| is_mret := true |> <| trap_valid := true |>) as Hk by (rewrite Hw; reflexivity).
  wires Hk Hk. apply Hc.
Qed.

Lemma not_traps : f_funct3 w <> 0 -> (w =? 0x00000073) = false /\ (w =? 0x00100073) = false /\ (w =? 0x30200073) = false.
Proof. intros H. split_and!; apply Z.eqb_neq; intros Hw; apply H; by rewrite Hw. Qed.

Lemma exec_csrrw : f_opcode w = 0x73 -> f_funct3 w = 1 -> f_csr w <> 0xB00 -> f_csr w <> 0xB80 ->
  executed_as (I_csrrw (f_rd w) (f_rs1 w) (f_csr w)).
Proof.
  intros E E3 H1 H2. destruct (not_traps ltac:(rewrite E3; lia)) as (N1 & N2 & N3).
  assert (control true w = ctrl0 <| rf_we := negb (f_rd w =? 0) |> <| wb_sel := NPC_CSR |> <| csr_wen := true |>) as Hk.
  { unfold control. rewrite opcode_fld, funct3_fld, rd_fld, E, E3, N1, N2, N3. unfold control_block. cbn. by destruct (f_rd w =? 0). }
  assert (s1 = a_get a (f_rs1 w)) as -> by (apply Hs1; unfold uses_rs1; rewrite opcode_fld, funct3_fld, E, E3; reflexivity).
  wires Hk Hk.
  - by destruct (Z.eqb_spec (f_rd w) 0).
  - intros _ _. by apply csr_read_ok.
  - by apply csr_write_ok.
Qed.

Lemma exec_csrrs : f_opcode w = 0x73 -> f_funct3 w = 2 -> f_csr w <> 0xB00 -> f_csr w <> 0xB80 ->
  executed_as (I_csrrs (f_rd w) (f_rs1 w) (f_csr w)).
Proof.
  intros E E3 H1 H2. destruct (not_traps ltac:(rewrite E3; lia)) as (N1 & N2 & N3).
  assert (control true w = ctrl0 <| csr_wen := negb (f_rs1 w =? 0) |> <| rf_we := negb (f_rd w =? 0) |>
    <| wb_sel := NPC_CSR |> <| csr_op_sel := CSR_SET |>) as Hk.
  { unfold control. rewrite opcode_fld, funct3_fld, rd_fld, rs1_fld, E, E3, N1, N2, N3. unfold control_block. cbn. by destruct (f_rd w =? 0). }
  assert (s1 = a_get a (f_rs1 w)) as -> by (apply Hs1; unfold uses_rs1; rewrite opcode_fld, funct3_fld, E, E3; reflexivity).
  wires Hk Hk.
  - by destruct (Z.eqb_spec (f_rd w) 0).
  - intros _ _. by apply csr_read_ok.
  - rewrite (csr_read_ok c (a_csr a)) by done. destruct (f_rs1 w =? 0); [by apply csr_idle_ok | by apply csr_write_ok].
Qed.

(** A supported instruction is executed. *)
Lemma exec_ok code : w = code (a_pc a) -> supported code a -> executed_as (a_instr code a).
Proof.
  unfold supported, a_instr. intros <- (_ & Hs).
  destruct (Z.eqb_spec (f_opcode w) 0x37) as [E|N1]; [by apply exec_lui|].
  destruct (Z.eqb_spec (f_opcode w) 0x17) as [E|N2]; [by apply exec_auipc|].
  destruct (Z.eqb_spec (f_opcode w) 0x6f) as [E|N3]; [by apply exec_jal|].
  assert (rv_decode w <> I_illegal) as Hi by (intros E; by rewrite E in Hs).
  destruct (Z.eqb_spec (f_opcode w) 0x63) as [E|N4]; [by apply exec_branch|].
  destruct (Z.eqb_spec (f_opcode w) 0x03) as [E|N5]; [by apply exec_load|].
  destruct (Z.eqb_spec (f_opcode w) 0x23) as [E|N6]; [by apply exec_store|].
  destruct (Z.eqb_spec (f_opcode w) 0x13) as [E|N7]; [by apply exec_opimm|].
  unfold rv_decode in Hs |- *. apply Z.eqb_neq in N1, N2, N3, N4, N5, N6, N7. rewrite N1, N2, N3, N4, N5, N6, N7 in *.
  destruct (Z.eqb_spec (f_opcode w) 0x67) as [E|N8].
  { destruct (Z.eqb_spec (f_funct3 w) 0) as [E3|]; [|done]. pose proof (exec_jalr E E3) as R.
    unfold rv_decode in R. by rewrite E, E3 in R. }
  destruct (Z.eqb_spec (f_opcode w) 0x33) as [E|N9].
  { destruct (rv_op _ _) as [o|] eqn:Eo; [|done]. 
    assert (rv_decode w = I_op o (f_rd w) (f_rs1 w) (f_rs2 w)) as Ed by (unfold rv_decode; by rewrite E, Eo).
    rewrite <- Ed. apply (exec_op o); [done..|apply Hs]. }
  destruct (Z.eqb_spec (f_opcode w) 0x0f) as [E|N10].
  { destruct (Z.eqb_spec (f_funct3 w) 1) as [E3|]; [|done]. pose proof (exec_fence_i E E3) as R.
    unfold rv_decode in R. by rewrite E, E3 in R. }
  destruct (Z.eqb_spec (f_opcode w) 0x73) as [E|N11]; [|done]. unfold rv_system in *.
  destruct (Z.eqb_spec (f_funct3 w) 0) as [_|_].
  { destruct (Z.eqb_spec w 0x73); [by apply exec_ecall|]. destruct (Z.eqb_spec w 0x100073); [by apply exec_ebreak|].
    destruct (Z.eqb_spec w 0x30200073); [by apply exec_mret | done]. }
  destruct (Z.eqb_spec (f_funct3 w) 1) as [E3|_]; [by apply exec_csrrw; try apply Hs|].
  destruct (Z.eqb_spec (f_funct3 w) 2) as [E3|_]; [by apply exec_csrrs; try apply Hs | done].
Qed.
End Exec.

(** * The state a program sees stays in range *)

Record arch_ok (a : arch) : Prop := mkArchOk {
  ok_pc : in_u 32 (a_pc a);
  ok_reg : forall r, in_u 32 (a_reg a r);
  ok_mem : bytes_ok (a_mem a);
  ok_csr : in_u 32 (a_mstatus (a_csr a)) /\ in_u 32 (a_mtvec (a_csr a)) /\ in_u 32 (a_mepc (a_csr a)) /\ in_u 32 (a_mcause (a_csr a));
}.

Lemma a_get_ok a r : arch_ok a -> in_u 32 (a_get a r).
Proof. intros H. unfold a_get. case_match; [unfold in_u; lia | apply H]. Qed.

Lemma mem_load_ok m len sg addr : bytes_ok m -> 0 <= len <= 4 -> in_u 32 (mem_load m len sg addr).
Proof.
  intros Hm Hl. unfold mem_load. case_match; [by apply wrap_in_u|].
  assert (in_u (8 * Z.of_nat (length (get_bytes m addr (Z.to_nat len)))) (le_combine (get_bytes m addr (Z.to_nat len)))) as H1.
  { apply le_combine_range. apply Forall_forall. intros x Hx. apply list_elem_of_In, in_map_iff in Hx. destruct Hx as (k & <- & _). apply Hm. }
  unfold get_bytes in H1 at 1. rewrite length_map, length_seqZ in H1.
  unfold in_u in *. split; [apply H1|]. eapply Z.lt_le_trans; [apply H1|]. apply Z.pow_le_mono_r; lia.
Qed.

Lemma set_bytes_ok m addr bs : bytes_ok m -> Forall (in_u 8) bs -> bytes_ok (set_bytes m addr bs).
Proof.
  intros Hm Hb k. unfold set_bytes. case_match; [|apply Hm]. rewrite andb_true_iff, Z.leb_le, Z.ltb_lt in H.
  rewrite Forall_forall in Hb. apply Hb, list_elem_of_In, nth_In. lia.
Qed.

Lemma a_csr_get_ok a n : arch_ok a -> in_u 32 (a_csr_get (a_csr a) n).
Proof. intros [_ _ _ (H1 & H2 & H3 & H4)]. unfold a_csr_get. repeat case_match; try done; unfold in_u; lia. Qed.

Lemma lor_ok x y : in_u 32 x -> in_u 32 y -> in_u 32 (Z.lor x y).
Proof.
  intros Hx Hy. apply (bits_op_range Z.lor); try done; [|apply Z.lor_nonneg; unfold in_u in *; lia].
  intros u v n _ E. by rewrite Z.lor_spec in E.
Qed.

Lemma half_ok x : in_u 32 x -> in_u 32 (2 * (x / 2)).
Proof. unfold in_u. intros H. pose proof (Z.div_mod x 2 ltac:(lia)). pose proof (Z.mod_pos_bound x 2 ltac:(lia)). lia. Qed.

Record eff_ok (e : eff) : Prop := mkEffOk {
  ok_npc : in_u 32 (e_npc e);
  ok_val : in_u 32 (e_val e);
  ok_len : match e_mem e with Load len _ _ => 0 <= len <= 4 | _ => True end;
  ok_ecsr : in_u 32 (a_mstatus (e_csr e)) /\ in_u 32 (a_mtvec (e_csr e)) /\ in_u 32 (a_mepc (e_csr e)) /\ in_u 32 (a_mcause (e_csr e));
}.

Lemma rv_load_len w len sg rd rs1 imm : rv_decode w = I_load len sg rd rs1 imm -> 0 <= len <= 4.
Proof. unfold rv_decode, rv_branch, rv_load, rv_store, rv_opimm, rv_system. repeat case_match; try done; intros E; injection E; lia. Qed.

Lemma csr_put_ok a n v : arch_ok a -> in_u 32 v ->
  let c := a_csr_put (a_csr a) n v in
  in_u 32 (a_mstatus c) /\ in_u 32 (a_mtvec c) /\ in_u 32 (a_mepc c) /\ in_u 32 (a_mcause c).
Proof. intros [_ _ _ (H1 & H2 & H3 & H4)] Hv. unfold a_csr_put. repeat case_match; by split_and!. Qed.

Lemma a_eff_ok code a : arch_ok a -> eff_ok (a_eff code a).
Proof.
  intros Ha. unfold a_eff. pose proof (a_get_ok a) as Hg. pose proof (ok_csr a Ha) as Hc.
  assert (in_u 32 0) by (unfold in_u; lia). assert (forall x, in_u 32 (u32 x)) by (intros; by apply wrap_in_u).
  destruct (a_instr code a) eqn:E; constructor; cbn [effect e_npc e_val e_mem e_csr]; try done; try apply Hc.
  - by apply half_ok.
  - by case_match.
  - exact (rv_load_len _ _ _ _ _ _ E).
  - cbn. destruct Hc as (? & ? & ? & ?). split_and!; first [done | apply Ha | unfold in_u; lia].
  - by apply a_csr_get_ok.
  - apply csr_put_ok; [done|]. by apply Hg.
  - by apply a_csr_get_ok.
  - case_match; [apply Hc|]. apply csr_put_ok; [done|]. apply lor_ok; [by apply a_csr_get_ok | by apply Hg].
Qed.

Lemma e_result_ok code a : arch_ok a -> in_u 32 (e_result a (a_eff code a)).
Proof.
  intros Ha. destruct (a_eff_ok code a Ha) as [_ Hv Hl _]. unfold e_result.
  destruct (e_mem _); [done| |done]. apply mem_load_ok; [apply Ha | done].
Qed.

Lemma a_step_ok code a : arch_ok a -> arch_ok (a_step code a).
Proof.
  intros Ha. pose proof (a_eff_ok code a Ha) as He. pose proof (e_result_ok code a Ha) as Hr.
  unfold a_step. constructor; cbn [a_pc a_reg a_csr a_mem]; try apply He.
  - intros r. case_match; [apply Ha|]. unfold rf_write. case_match; [done | apply Ha].
  - unfold e_memory. destruct (e_mem _); try apply Ha. apply set_bytes_ok; [apply Ha|]. apply le_split_bytes.
Qed.
