(* ===== verification/NpcLanes.v ===== *)
(** The data port of the processor in front of a byte memory: a read returns the aligned
    word, a write changes the bytes that the strobe names. The lanes of [LSU.sv] turn them
    into the loads and stores of the instruction set ([load_lane], [store_lane]). *)

From S2P Require Import Prelude AmBus RvSpec NpcDatapath NpcCore NpcArch NpcExec.


(** Closed powers and lane numbers. *)
Ltac numerals :=
  repeat match goal with
  | |- context [2 ^ ?n] => let v := eval vm_compute in (2 ^ n) in change (2 ^ n) with v
  | |- context [Z.to_nat ?n] => let v := eval vm_compute in (Z.to_nat n) in change (Z.to_nat n) with v
  end.

Definition word_base (addr : Z) : Z := 4 * (addr / 4).
Definition bus_word (m : ram) (addr : Z) : Z := le_combine (get_bytes m (word_base addr) 4).
Definition strobe_write (m : ram) (addr data strb : Z) : ram := fun k =>
  let lane := k - word_base addr in
  if (0 <=? lane) && (lane <? 4) && Z.testbit strb lane then slice data (8 * lane + 7) (8 * lane) else m k.

Lemma slice_low addr : slice addr 1 0 = addr mod 4.
Proof. unfold slice. change (2 ^ 0) with 1. by rewrite Z.div_1_r. Qed.

(** The lane of an aligned access. *)
Lemma lane_cases len addr : len = 1 \/ len = 2 \/ len = 4 -> addr mod len = 0 ->
  len = 1 /\ (addr mod 4 = 0 \/ addr mod 4 = 1 \/ addr mod 4 = 2 \/ addr mod 4 = 3) \/
  len = 2 /\ (addr mod 4 = 0 \/ addr mod 4 = 2) \/ len = 4 /\ addr mod 4 = 0.
Proof. intros [-> | [-> | ->]] H; [left | right; left | right; right]; split; try done; dlia. Qed.

Lemma word_base_lane addr o : addr mod 4 = o -> word_base addr = addr - o.
Proof. unfold word_base. dlia. Qed.

(** A word shifted down to a lane. *)
Lemma shifted_word (b0 b1 b2 b3 : Z) o : in_u 8 b0 -> in_u 8 b1 -> in_u 8 b2 -> in_u 8 b3 ->
  Z.shiftr (b0 + 256 * (b1 + 256 * (b2 + 256 * (b3 + 256 * 0)))) (o * 8) =
    if o =? 0 then b0 + 256 * (b1 + 256 * (b2 + 256 * b3)) else if o =? 1 then b1 + 256 * (b2 + 256 * b3)
    else if o =? 2 then b2 + 256 * b3 else if o =? 3 then b3
    else Z.shiftr (b0 + 256 * (b1 + 256 * (b2 + 256 * (b3 + 256 * 0)))) (o * 8).
Proof.
  unfold in_u. intros H0 H1 H2 H3. repeat case_match; try done; subst;
    match goal with H : (o =? _) = true |- _ => apply Z.eqb_eq in H; subst o end;
    rewrite Z.shiftr_div_pow2 by lia; cbn -[Z.mul Z.add Z.div]; dlia.
Qed.

Lemma low_byte b x : in_u 8 b -> slice (b + 256 * x) 7 0 = b.
Proof. unfold in_u, slice. intros H. change (2 ^ (7 - 0 + 1)) with 256. change (2 ^ 0) with 1. dlia. Qed.

Lemma low_half b c x : in_u 8 b -> in_u 8 c -> slice (b + 256 * (c + 256 * x)) 15 0 = b + 256 * c.
Proof. unfold in_u, slice. intros H1 H2. change (2 ^ (15 - 0 + 1)) with 65536. change (2 ^ 0) with 1. dlia. Qed.

(** The value of a load by its lowest bytes. *)
Lemma load_byte (sg : bool) word b x : word = b + 256 * x -> in_u 8 b ->
  (if sg then cat 8 (rep 24 (Z.testbit word 7)) (slice word 7 0) else Z.land word 0xff) = if sg then u32 (sgn 8 b) else b.
Proof.
  intros -> Hb. rewrite low_byte by done. destruct sg.
  - apply rep_sgn; try done. replace (b + 256 * x) with (b + x * 2 ^ 8) by lia.
    rewrite <- (Z.mod_pow2_bits_low _ 8) by lia. rewrite Z.mod_add, Z.mod_small by (unfold in_u in *; lia). done.
  - change 0xff with (Z.ones 8). rewrite Z.land_ones by lia. unfold in_u in *. change (2 ^ 8) with 256. dlia.
Qed.

Lemma load_half (sg : bool) word b c x : word = b + 256 * (c + 256 * x) -> in_u 8 b -> in_u 8 c ->
  (if sg then cat 16 (rep 16 (Z.testbit word 15)) (slice word 15 0) else Z.land word 0xffff) =
  if sg then u32 (sgn 16 (b + 256 * c)) else b + 256 * c.
Proof.
  intros -> Hb Hc. rewrite low_half by done. unfold in_u in *. destruct sg.
  - apply rep_sgn; try (done || lia). replace (b + 256 * (c + 256 * x)) with (b + 256 * c + x * 2 ^ 16) by lia.
    rewrite <- (Z.mod_pow2_bits_low _ 16) by lia. by rewrite Z.mod_add, Z.mod_small by lia.
  - change 0xffff with (Z.ones 16). rewrite Z.land_ones by lia. change (2 ^ 16) with 65536. dlia.
Qed.

Lemma bus_word_bytes m addr : bus_word m addr =
  m (word_base addr) + 256 * (m (word_base addr + 1) + 256 * (m (word_base addr + 2) + 256 * (m (word_base addr + 3) + 256 * 0))).
Proof. unfold bus_word, get_bytes. rewrite (eq_refl : seqZ 0 (Z.of_nat 4) = [0; 1; 2; 3]). cbn [map le_combine]. by rewrite Z.add_0_r. Qed.

(** The bytes at the address are the lowest of the shifted word. *)
Lemma word_at m len addr : bytes_ok m -> len = 1 \/ len = 2 \/ len = 4 -> addr mod len = 0 ->
  exists x, Z.shiftr (bus_word m addr) (addr mod 4 * 8) =
    if len =? 1 then m addr + 256 * x else if len =? 2 then m addr + 256 * (m (addr + 1) + 256 * x)
    else m addr + 256 * (m (addr + 1) + 256 * (m (addr + 2) + 256 * m (addr + 3))).
Proof.
  intros Hm Hl Ha. rewrite bus_word_bytes, shifted_word by apply Hm.
  destruct (lane_cases len addr Hl Ha) as [[-> Ho] | [[-> Ho] | [-> Ho]]]; cbn [Z.eqb Pos.eqb];
    repeat match type of Ho with _ \/ _ => destruct Ho as [Ho|Ho] end;
    rewrite Ho, (word_base_lane _ _ Ho); cbn [Z.eqb Pos.eqb];
    replace (addr - 0) with addr by lia; replace (addr - 1 + 1) with addr by lia; replace (addr - 2 + 2) with addr by lia;
    replace (addr - 3 + 3) with addr by lia; replace (addr - 2 + 3) with (addr + 1) by lia.
  all: first [eexists; reflexivity | exists 0; lia].
Qed.

Lemma load_lane m len sg addr : bytes_ok m -> len = 1 \/ len = 2 \/ len = 4 /\ sg = true -> addr mod len = 0 ->
  load_data (load_code len sg) addr (bus_word m addr) = mem_load m len sg addr.
Proof.
  intros Hm Hl Ha. assert (forall k, in_u 8 (m k)) as Hk by exact Hm.
  destruct (word_at m len addr Hm ltac:(tauto) Ha) as (x & Hx).
  unfold load_data, mem_load. rewrite slice_low. set (word := Z.shiftr _ _) in *. clearbody word.
  destruct Hl as [-> | [-> | [-> ->]]]; cbn [Z.eqb Pos.eqb] in Hx.
  - pose proof (load_byte sg word _ x Hx (Hk _)) as R. unfold get_bytes. rewrite (eq_refl : seqZ 0 (Z.of_nat (Z.to_nat 1)) = [0]).
    cbn [map le_combine]. rewrite ?Z.mul_0_r, ?Z.add_0_r. by destruct sg.
  - pose proof (load_half sg word _ _ x Hx (Hk _) (Hk _)) as R. unfold get_bytes. rewrite (eq_refl : seqZ 0 (Z.of_nat (Z.to_nat 2)) = [0; 1]).
    cbn [map le_combine]. rewrite ?Z.mul_0_r, ?Z.add_0_r. by destruct sg.
  - unfold get_bytes. rewrite (eq_refl : seqZ 0 (Z.of_nat (Z.to_nat 4)) = [0; 1; 2; 3]). cbn [map le_combine].
    rewrite ?Z.mul_0_r, ?Z.add_0_r, <- Hx. change (8 * 4) with 32. rewrite wrap_sgn.
    change (load_data (load_code 4 true)) with (load_data 2). cbn. symmetry. apply wrap_id. rewrite Hx.
    pose proof (Hk addr); pose proof (Hk (addr + 1)); pose proof (Hk (addr + 2)); pose proof (Hk (addr + 3)).
    unfold in_u in *. lia.
Qed.

(** The byte of the lane [j] of the data of a store. *)
Lemma lane_byte len addr v j : in_u 32 v -> len = 1 \/ len = 2 \/ len = 4 -> addr mod len = 0 -> 0 <= j < 4 ->
  Z.testbit (lane_strb (store_code len) addr) j = (addr mod 4 <=? j) && (j <? addr mod 4 + len) /\
  (addr mod 4 <= j < addr mod 4 + len ->
   slice (lane_data (store_code len) addr v) (8 * j + 7) (8 * j) = nth (Z.to_nat (j - addr mod 4)) (le_split (Z.to_nat len) v) 0).
Proof.
  intros Hv Hl Ha Hj. unfold lane_strb, lane_data. rewrite slice_low.
  assert (j = 0 \/ j = 1 \/ j = 2 \/ j = 3) as Hj' by lia.
  destruct (lane_cases len addr Hl Ha) as [[-> Ho] | [[-> Ho] | [-> Ho]]]; cbn [store_code Z.eqb Pos.eqb];
    repeat match type of Ho with _ \/ _ => destruct Ho as [Ho|Ho] end; rewrite Ho;
    destruct Hj' as [-> | [-> | [-> | ->]]]; (split; [reflexivity|]); intros Hr; try (exfalso; lia);
    unfold slice, cat, wrap, in_u in *; rewrite ?Z.shiftl_mul_pow2 by lia; numerals; cbn [le_split nth]; unfold wrap; numerals; dlia.
Qed.

Lemma store_lane m len addr v : in_u 32 v -> len = 1 \/ len = 2 \/ len = 4 -> addr mod len = 0 -> forall k,
  strobe_write m addr (lane_data (store_code len) addr v) (lane_strb (store_code len) addr) k =
  set_bytes m addr (le_split (Z.to_nat len) v) k.
Proof.
  intros Hv Hl Ha k. unfold strobe_write, set_bytes. rewrite length_le_split, (word_base_lane addr _ eq_refl).
  pose proof (Z.mod_pos_bound addr 4 ltac:(lia)). replace (k - (addr - addr mod 4)) with (k - addr + addr mod 4) by lia.
  rewrite Z2Nat.id by lia. set (j := k - addr + addr mod 4).
  assert (addr mod 4 + len <= 4) by (destruct (lane_cases len addr Hl Ha) as [[-> ?] | [[-> ?] | [-> ?]]]; lia).
  destruct (Z.leb_spec 0 j), (Z.ltb_spec j 4); cbn [andb].
  2-4: destruct (Z.leb_spec addr k), (Z.ltb_spec k (addr + len)); [exfalso; lia|reflexivity..].
  destruct (lane_byte len addr v j Hv Hl Ha ltac:(lia)) as [-> Hb].
  destruct (Z.leb_spec (addr mod 4) j), (Z.ltb_spec j (addr mod 4 + len)), (Z.leb_spec addr k), (Z.ltb_spec k (addr + len));
    cbn [andb]; try done; try (exfalso; lia).
  rewrite Hb by lia. do 2 f_equal. lia.
Qed.
