(* ===== verification/NpcPipe.v ===== *)
(** The pipeline: the processor commits the sequential run of the program.

    [sys_step] is one clock cycle of the processor with a data memory that takes a write
    when both of its channels shake hands. [answers] is what the memories promise: an
    answered fetch carries the word of the program, an answered read the aligned word of
    the data memory; when they answer is free. [inv] says which instruction of the
    sequential run each stage holds. *)

From S2P Require Import Prelude AmBus RvSpec NpcDatapath NpcCore NpcArch NpcExec NpcLanes.

Record sys : Type := mkSys { core : npc; dmem : ram }.

(** * Stages *)

(** A latch of booleans as a number of instructions. *)
Definition nb (b : bool) : nat := if b then 1 else 0.

(** Comparisons of states that are known. *)
Ltac decided :=
  repeat match goal with
  | |- context [bool_decide ?P] =>
      let v := eval vm_compute in (bool_decide P) in
      match v with true => idtac | false => idtac end; change (bool_decide P) with v
  end; rewrite ?andb_false_r.

(** Handshakes on the data port that do not matter. *)
Ltac handshakes :=
  repeat match goal with
  | |- context [w_fire ?i ?l] => destruct (w_fire i l)
  | |- context [aw_fire ?i ?l] => destruct (aw_fire i l)
  | |- context [ar_fire ?i ?l] => destruct (ar_fire i l)
  end.

(** The load and store unit, register by register *)

Section LsuEdge.
Context `{ARCH : NpcArch}.
Variables (i : bus_in) (x : exu_st) (ready : bool) (l : lsu_st).

Ltac block n := destruct l, n; cbn in *; subst; repeat case_match; reflexivity.

Lemma state_block n : lsu_state n = lsu_state l ->
  lsu_state_edge i x ready l n = n <| lsu_state := lsu_state (lsu_state_edge i x ready l l) |>.
Proof. unfold lsu_state_edge. intros E. block n. Qed.
Lemma op_block n : lsu_reg n = lsu_reg l -> lsu_op_edge x l n = n <| lsu_reg := lsu_reg (lsu_op_edge x l l) |>.
Proof. unfold lsu_op_edge. intros E. block n. Qed.
Lemma valid_block n : lsu_valid n = lsu_valid l ->
  lsu_valid_edge i x ready l n = n <| lsu_valid := lsu_valid (lsu_valid_edge i x ready l l) |>.
Proof. unfold lsu_valid_edge. intros E. block n. Qed.
Lemma ar_block n : arvalid n = arvalid l -> araddr n = araddr l ->
  lsu_ar_edge i x l n = n <| arvalid := arvalid (lsu_ar_edge i x l l) |> <| araddr := araddr (lsu_ar_edge i x l l) |>.
Proof. unfold lsu_ar_edge. intros E1 E2. block n. Qed.
Lemma r_block n : lsu_wb_data n = lsu_wb_data l -> lsu_r_edge i x l n = n <| lsu_wb_data := lsu_wb_data (lsu_r_edge i x l l) |>.
Proof. unfold lsu_r_edge. intros E. block n. Qed.
Lemma aw_block n : awvalid n = awvalid l -> awaddr n = awaddr l ->
  lsu_aw_edge i x l n = n <| awvalid := awvalid (lsu_aw_edge i x l l) |> <| awaddr := awaddr (lsu_aw_edge i x l l) |>.
Proof. unfold lsu_aw_edge. intros E1 E2. block n. Qed.
Lemma w_block n : wvalid n = wvalid l -> wdata n = wdata l -> wstrb n = wstrb l ->
  lsu_w_edge i x l n = n <| wvalid := wvalid (lsu_w_edge i x l l) |> <| wdata := wdata (lsu_w_edge i x l l) |>
    <| wstrb := wstrb (lsu_w_edge i x l l) |>.
Proof. unfold lsu_w_edge. intros E1 E2 E3. block n. Qed.

Lemma lsu_edge_eq : lsu_edge i x ready l = mkLsu
  (lsu_state (lsu_state_edge i x ready l l)) (lsu_valid (lsu_valid_edge i x ready l l)) (lsu_reg (lsu_op_edge x l l))
  (lsu_wb_data (lsu_r_edge i x l l)) (arvalid (lsu_ar_edge i x l l)) (araddr (lsu_ar_edge i x l l))
  (awvalid (lsu_aw_edge i x l l)) (awaddr (lsu_aw_edge i x l l))
  (wvalid (lsu_w_edge i x l l)) (wdata (lsu_w_edge i x l l)) (wstrb (lsu_w_edge i x l l)).
Proof.
  unfold lsu_edge. rewrite state_block by done. rewrite op_block, valid_block, ar_block, r_block, aw_block, w_block by done. reflexivity.
Qed.
End LsuEdge.

(** Evaluates the registers of the unit in a known state. *)
Ltac lsu_registers Hr :=
  rewrite lsu_edge_eq;
  unfold lsu_w_edge, lsu_aw_edge, lsu_r_edge, lsu_ar_edge, lsu_valid_edge, lsu_op_edge, lsu_state_edge, lsu_out_fire,
    lsu_in_fire, lsu_out_ready, r_fire, b_fire; rewrite Hr; cbn [lsu_state lsu_valid]; decided; cbn [negb andb orb].

Section Pipe.
Context `{ARCH : NpcArch}.
Variable code : Z -> Z.

Definition store_fire (i : bus_in) (l : lsu_st) : bool :=
  bool_decide (lsu_state l = LSU_WRITE_REQ) && aw_fire i l && w_fire i l.

Definition sys_step (s : sys) (i : bus_in) : sys :=
  let l := lsu (core s) in
  mkSys (cycle (core s) i)
    (if store_fire i l then strobe_write (dmem s) (awaddr l) (wdata l) (wstrb l) else dmem s).

Definition answers (s : sys) (i : bus_in) : Prop :=
  let c := core s in
  reset i = false /\
  (i_rvalid i = true -> axi_state (ifu c) = AXI_WAIT_R -> i_rdata i = code (outstanding_pc (ifu c))) /\
  (l_rvalid i = true -> lsu_state (lsu c) = LSU_WAIT_R -> l_rdata i = bus_word (dmem s) (araddr (lsu c))).

(** ** Fetch *)

(** [IFU] delivers the program from address [t] on. *)
Record follows (s : ifu_st) (t : Z) : Prop := mkFollows {
  fo_aligned : t mod 4 = 0;
  fo_state : match ifu_state s with
    | IFU_EMPTY => fetch_pc s = t /\ (axi_state s <> AXI_IDLE -> outstanding_stale s = false -> outstanding_pc s = t)
    | IFU_VALID => ifu_pc s = t /\ ifu_inst s = code t /\ fetch_pc s = u32 (t + 4) /\ axi_state s = AXI_IDLE
    end;
  fo_pending : exception_pending s = false;
  fo_fence : fencei_state s <> FENCEI_IDLE \/ out_fencei_flush_done s = true -> ifu_state s = IFU_EMPTY;
}.

Lemma next_aligned t : t mod 4 = 0 -> u32 (t + 4) mod 4 = 0.
Proof. intros H. unfold wrap. change (2 ^ 32) with (4 * 2 ^ 30). rewrite Z.rem_mul_r by lia. dlia. Qed.

Lemma not_misaligned s : fetch_pc s mod 4 = 0 -> fetch_pc_misaligned s = false.
Proof. intros H. unfold fetch_pc_misaligned. by rewrite slice_low, H. Qed.

Section Fetch.
Variables (i : bus_in) (fdone : bool) (to t : Z) (ready : bool) (s : ifu_st).
Hypotheses (Hr : reset i = false) (Hf : follows s t).

(** A redirection empties the unit and outdates the request in flight. *)
Lemma ifu_redirected : to mod 4 = 0 -> (fencei_state s = FENCEI_IDLE /\ fdone = false) ->
  follows (ifu_edge i fdone to true ready s) to.
Proof.
  intros Ht (Hd & ->). destruct Hf as [_ Hs Hp Hfe]. unfold ifu_edge, ifu_fetch_edge, ifu_fence_edge, ifu_axi_edge. rewrite Hr, Hd. 
  destruct s as [ax op st fs fl fd ist fp pc ins ev ec ep]; cbn in *. subst fs.
  constructor; cbn.
  - done.
  - destruct ax; cbn; rewrite ?andb_false_r; cbn; [done| |]; repeat case_match; by cbn.
  - done.
  - done.
Qed.

(** The instruction is taken. *)
Lemma ifu_taken : ifu_state s = IFU_VALID -> ready = true -> fdone = false ->
  follows (ifu_edge i fdone to false ready s) (u32 (t + 4)).
Proof.
  intros Hv -> ->. destruct Hf as [Ha Hs Hp Hfe]. rewrite Hv in *. destruct Hs as (E1 & E2 & E3 & E4).
  assert (fencei_state s = FENCEI_IDLE) as Hfi by (destruct (fencei_state s); [done| exfalso; discriminate Hfe; by left..]).
  unfold ifu_edge, ifu_fetch_edge, ifu_fence_edge, ifu_axi_edge, ifu_out_fire, ifu_out_valid. rewrite Hr, E4, Hv, Hfi.
  destruct s as [ax op st fs fl fd ist fp pc ins ev ec ep]; cbn in *. constructor; cbn; try done. by apply next_aligned.
Qed.

(** Nothing leaves the unit: a request goes on, a response arrives or is dropped, a fence
    sends the instruction back. *)
Lemma ifu_held : ifu_out_fire false ready s = false ->
  (i_rvalid i = true -> axi_state s = AXI_WAIT_R -> i_rdata i = code (outstanding_pc s)) ->
  follows (ifu_edge i fdone to false ready s) t.
Proof.
  intros Ho Hd. destruct Hf as [Ha Hs Hp Hfe].
  unfold ifu_edge, ifu_fetch_edge, ifu_fence_edge, ifu_axi_edge, drop_response, ifu_ar_fire, ifu_arvalid, ifu_r_fire, ifu_rready. rewrite Hr, Ho, Hp.
  destruct (ifu_state s) eqn:Es.
  - destruct Hs as [Hpc Hout]. rewrite (not_misaligned s) by (by rewrite Hpc).
    unfold ifu_out_valid. rewrite Es. cbn [bool_decide decide_rel andb negb orb]. rewrite ?andb_false_r. cbn [orb].
    destruct s as [ax op st fs fl fd ist fp pc ins ev ec ep]; cbn in *; subst.
    destruct ax; cbn in *.
    + destruct fdone, fs; decided; cbn; destruct (i_arready i); constructor; cbn; intuition congruence.
    + destruct fdone, fs, (i_arready i); decided; cbn; constructor; cbn; intuition congruence.
    + destruct (i_rvalid i) eqn:Ev; cbn in *; [specialize (Hd eq_refl eq_refl)|];
        destruct fdone, fs, st; decided; cbn in *; constructor; cbn; intuition congruence.
  - destruct Hs as (E1 & E2 & E3 & E4). destruct s as [ax op st fs fl fd ist fp pc ins ev ec ep]; cbn in *; subst.
    assert (fs = FENCEI_IDLE) as -> by (destruct fs; [done | exfalso; discriminate Hfe; by left ..]).
    assert (fd = false) as -> by (destruct fd; [exfalso; discriminate Hfe; by right | done]).
    destruct fdone; decided; constructor; cbn; done.
Qed.
End Fetch.

(** ** What the later stages hold of instruction [a] *)

Record idu_ok (a : arch) (d : idu_st) : Prop := mkIduOk {
  do_pc : idu_pc d = a_pc a;
  do_inst : idu_inst d = code (a_pc a);
  do_dec : idu_dec d = decode true (code (a_pc a));
  do_src1 : uses_rs1 (code (a_pc a)) = true -> idu_src1 d = a_get a (f_rs1 (code (a_pc a)));
  do_src2 : uses_rs2 (code (a_pc a)) = true -> idu_src2 d = a_get a (f_rs2 (code (a_pc a)));
}.

(** The register a stage is going to write. *)
Definition writes (we : bool) (rd : Z) (e : eff) : Prop := (we = true -> rd = e_rd e) /\ (we = false -> e_rd e = 0).

Record exu_ok (a : arch) (x : exu_st) : Prop := mkExuOk {
  xo_pc : x_pc x = a_pc a;
  xo_inst : x_inst x = code (a_pc a);
  xo_npc : x_npc x = e_npc (a_eff code a);
  xo_rd : writes (x_rf_we x) (x_rd x) (a_eff code a);
  xo_wb : x_rf_we x = true -> x_is_load x = false -> x_wb_data x = e_val (a_eff code a);
  xo_mem : match e_mem (a_eff code a) with
    | NoMem => x_is_load x = false /\ x_is_store x = false
    | Load len sg addr => x_is_load x = true /\ x_is_store x = false /\ x_mem_addr x = addr /\
        x_load_size x = load_code len sg /\ (len = 1 \/ len = 2 \/ len = 4 /\ sg = true) /\ addr mod len = 0
    | Store len addr v => x_is_load x = false /\ x_is_store x = true /\ x_mem_addr x = addr /\
        x_store_data x = v /\ in_u 32 v /\ x_store_size x = store_code len /\ (len = 1 \/ len = 2 \/ len = 4) /\ addr mod len = 0
    end;
  xo_ebreak : x_is_ebreak x = match a_instr code a with I_ebreak => true | _ => false end;
  xo_fencei : x_is_fencei x = match a_instr code a with I_fence_i => true | _ => false end;
}.

(** The data access and whether it goes to a device that the reference skips. *)
Definition e_mmio (e : eff) : bool :=
  match e_mem e with NoMem => false | Load _ _ addr | Store _ addr _ => is_mmio_addr addr end.

Definition lsu_busy (l : lsu_st) : bool := negb (bool_decide (lsu_state l = LSU_IDLE)) || lsu_valid l.

Record lsu_ok (a : arch) (l : lsu_st) : Prop := mkLsuOk {
  lo_pc : o_pc (lsu_reg l) = a_pc a;
  lo_inst : o_inst (lsu_reg l) = code (a_pc a);
  lo_npc : o_npc (lsu_reg l) = e_npc (a_eff code a);
  lo_rd : writes (o_rf_we (lsu_reg l)) (o_rd (lsu_reg l)) (a_eff code a);
  lo_ebreak : o_is_ebreak (lsu_reg l) = match a_instr code a with I_ebreak => true | _ => false end;
  lo_fencei : o_is_fencei (lsu_reg l) = match a_instr code a with I_fence_i => true | _ => false end;
  lo_mmio : o_is_mmio (lsu_reg l) = e_mmio (a_eff code a);
  lo_state : match lsu_state l with
    | LSU_IDLE => lsu_valid l = true /\ e_mem (a_eff code a) = NoMem
    | LSU_READ_ADDR | LSU_WAIT_R => lsu_valid l = false /\
        match e_mem (a_eff code a) with
        | Load len sg addr => araddr l = addr /\ o_mem_addr (lsu_reg l) = addr /\ o_load_size (lsu_reg l) = load_code len sg /\
            (len = 1 \/ len = 2 \/ len = 4 /\ sg = true) /\ addr mod len = 0 /\ (lsu_state l = LSU_READ_ADDR -> arvalid l = true)
        | _ => False
        end
    | LSU_WRITE_REQ => lsu_valid l = false /\
        match e_mem (a_eff code a) with
        | Store len addr v => awaddr l = addr /\ wdata l = lane_data (store_code len) addr v /\
            wstrb l = lane_strb (store_code len) addr /\ in_u 32 v /\ (len = 1 \/ len = 2 \/ len = 4) /\ addr mod len = 0
        | _ => False
        end
    | LSU_WAIT_B => lsu_valid l = false /\ match e_mem (a_eff code a) with Store _ _ _ => True | _ => False end
    | LSU_DONE => lsu_valid l = true
    end;
  lo_value : lsu_valid l = true -> e_rd (a_eff code a) <> 0 -> lsu_wb_data l = e_result a (a_eff code a);
}.

Section Advance.
Variables (a : arch) (d : idu_st) (c : csr_st).
Hypotheses (Ha : arch_ok a) (Hs : supported code a) (Hd : idu_ok a d) (Hc : csr_match c (a_csr a)).

Lemma idu_executes : executes a (a_instr code a) (a_eff code a) (idu_dec d) (idu_src1 d) (idu_src2 d) c.
Proof.
  destruct Hd as [_ _ -> H1 H2]. unfold a_eff. by apply exec_ok; try apply Ha; try (intros r; by apply a_get_ok).
Qed.

Lemma supported_mem : match e_mem (a_eff code a) with
  | NoMem => True | Load len _ addr => addr mod len = 0 | Store len addr v => addr mod len = 0 /\ in_u 32 v end.
Proof.
  destruct Hs as [_ H]. unfold a_eff. destruct (a_instr code a); cbn; try done; try apply H.
  split; [apply H | by apply a_get_ok].
Qed.

(** The instruction of [IDU] enters [EXU]. *)
Lemma exu_takes i ready x : reset i = false -> exu_in_fire true ready x = true ->
  exu_valid (exu_edge i true ready d c x) = true /\ exu_ok a (exu_edge i true ready d c x) /\
  csr_match (exu_csr_edge true ready d c x) (e_csr (a_eff code a)).
Proof.
  intros Hr Hfire. pose proof idu_executes as [E1 E2 E3 E4 E5 E6 E7 E8 _]. pose proof supported_mem as Hm.
  unfold exu_in_fire in Hfire. cbn [andb] in Hfire.
  unfold exu_edge, exu_csr_edge, exu_in_fire. rewrite Hr, Hfire, !andb_true_r. cbn [andb]. destruct Hd as [D1 D2 D3 D4 D5].
  rewrite D1 in *. split; [done|]. split; [|done].
  constructor; cbn; try done.
  destruct (e_mem (a_eff code a)); [done| |]; cbn in *; tauto.
Qed.

(** Where [EXU] sends the fetch. *)
Lemma redirect_next :
  if exu_redirect_valid d then exu_redirect_pc d c = e_npc (a_eff code a) else u32 (a_pc a + 4) = e_npc (a_eff code a).
Proof.
  pose proof idu_executes as [E1 _ _ _ _ _ _ _ _]. unfold exu_npc in E1. destruct Hd as [D1 _ _ _ _].
  unfold exu_redirect_valid, exu_redirect_pc. rewrite D1. by destruct (redirect_valid _ _ _).
Qed.
End Advance.

(** [EXU] keeps its instruction or hands it on. *)
Lemma exu_keeps i v ready d c x : reset i = false -> exu_in_fire v ready x = false ->
  exu_edge i v ready d c x = x <| exu_valid := exu_valid x && negb ready |>.
Proof.
  intros Hr Hf. unfold exu_edge. rewrite Hr, Hf. destruct x as [[] ? ? ? ? ? ? ? ? ? ? ? ? ? ?]; by destruct ready.
Qed.

Lemma csr_keeps v ready d c x k : exu_in_fire v ready x = false -> csr_match c k -> csr_match (exu_csr_edge v ready d c x) k.
Proof.
  unfold exu_in_fire. intros Hf Hm. unfold exu_csr_edge. rewrite <- !andb_assoc, Hf, !andb_false_r. by apply csr_idle_ok.
Qed.

(** The instruction of [EXU] enters [LSU]. *)
Lemma lsu_takes i a x l : reset i = false -> exu_valid x = true -> lsu_busy l = false -> exu_ok a x ->
  lsu_busy (lsu_edge i x true l) = true /\ lsu_ok a (lsu_edge i x true l).
Proof.
  intros Hr Hv Hb Hx. unfold lsu_busy in Hb. apply orb_false_iff in Hb as [Hb Hlv].
  apply negb_false_iff, bool_decide_eq_true in Hb. destruct l as [st va reg wb arv ara awv awa wv wd ws]; cbn in Hb, Hlv; subst st va.
  destruct Hx as [X1 X2 X3 X4 X5 X6 X7 X8].
  lsu_registers Hr. rewrite Hv. cbn [negb andb orb].
  assert (e_mmio (a_eff code a) = (x_is_load x || x_is_store x) && is_mmio_addr (x_mem_addr x)) as Hmm.
  { unfold e_mmio. destruct (e_mem _); [destruct X6 as [-> ->] | destruct X6 as (-> & -> & -> & _) | destruct X6 as (-> & -> & -> & _)]; done. }
  destruct (e_mem (a_eff code a)) as [|len sg addr|len addr v] eqn:Em.
  - destruct X6 as [X6 X6']. rewrite X6, X6' in *. cbn [negb andb orb] in *.
    handshakes; (split; [done|]); constructor; cbn; try done.
    all: intros _ Hrd; unfold e_result; rewrite Em; apply X5; [|done]; destruct (x_rf_we x); [done|]; by destruct (Hrd (proj2 X4 eq_refl)).
  - destruct X6 as (X6 & X6' & X9 & X10 & X11 & X12). rewrite X6, X6' in *. cbn [negb andb orb] in *.
    handshakes; (split; [done|]); constructor; cbn; try done.
    all: by rewrite Em.
  - destruct X6 as (X6 & X6' & X9 & X10 & X11 & X12 & X13 & X14). rewrite X6, X6' in *. cbn [negb andb orb] in *.
    handshakes; (split; [done|]); constructor; cbn; try done.
    all: rewrite Em; split; [done|]; by rewrite X9, X10, X12.
Qed.

(** The data memory before or after the access of the instruction in [LSU]. *)
Definition written (l : lsu_st) : bool := lsu_valid l || bool_decide (lsu_state l = LSU_WAIT_B).
Definition mem_of (a : arch) (l : lsu_st) (m : ram) : Prop :=
  forall k, m k = if written l then e_memory a (a_eff code a) k else a_mem a k.

Lemma lsu_takes_mem i a x l m : reset i = false -> exu_valid x = true -> lsu_busy l = false -> exu_ok a x ->
  (forall k, m k = a_mem a k) -> mem_of a (lsu_edge i x true l) m.
Proof.
  intros Hr Hv Hb Hx Hm k. destruct (lsu_takes i a x l Hr Hv Hb Hx) as [_ [_ _ _ _ _ _ _ Ho _]]. rewrite Hm.
  unfold written. destruct (lsu_state (lsu_edge i x true l)) eqn:Es; decided; rewrite ?orb_false_r.
  { destruct Ho as [-> E]. unfold e_memory. by rewrite E. }
  1-3: by destruct Ho as [-> _].
  all: exfalso; revert Es; rewrite lsu_edge_eq; cbn [lsu_state]; unfold lsu_state_edge; unfold lsu_busy in Hb;
    apply orb_false_iff in Hb as [Hb _]; apply negb_false_iff, bool_decide_eq_true in Hb; rewrite Hr, Hb;
    destruct l; cbn in Hb; subst; repeat case_match; done.
Qed.

Lemma lsu_idles i x l : reset i = false -> exu_valid x = false -> lsu_busy l = false -> lsu_busy (lsu_edge i x true l) = false.
Proof.
  intros Hr Hv Hb. unfold lsu_busy in Hb. apply orb_false_iff in Hb as [Hb Hlv].
  apply negb_false_iff, bool_decide_eq_true in Hb. destruct l; cbn in Hb, Hlv; subst. lsu_registers Hr. by rewrite Hv.
Qed.

Lemma lsu_retires i a x l : reset i = false -> lsu_valid l = true -> lsu_ok a l -> lsu_busy (lsu_edge i x true l) = false.
Proof.
  intros Hr Hv [_ _ _ _ _ _ _ Ho _]. destruct l as [st va reg wb arv ara awv awa wv wd ws]; cbn in Hv, Ho; subst va.
  destruct st; try (by destruct Ho); lsu_registers Hr; rewrite ?andb_false_r; by rewrite ?andb_false_r.
Qed.

Lemma bus_word_ext m m' addr : (forall k, m k = m' k) -> bus_word m addr = bus_word m' addr.
Proof. intros H. by rewrite !bus_word_bytes, !H. Qed.

Lemma strobe_write_ext m m' addr d b k : (forall k, m k = m' k) -> strobe_write m addr d b k = strobe_write m' addr d b k.
Proof. intros H. unfold strobe_write. by rewrite H. Qed.

Lemma store_rd a len addr v : e_mem (a_eff code a) = Store len addr v -> e_rd (a_eff code a) = 0.
Proof. unfold a_eff. by destruct (a_instr code a). Qed.

(** An access goes on. *)
Lemma lsu_works i a x l m : reset i = false -> lsu_busy l = true -> lsu_valid l = false -> lsu_ok a l -> arch_ok a -> mem_of a l m ->
  (l_rvalid i = true -> lsu_state l = LSU_WAIT_R -> l_rdata i = bus_word m (araddr l)) ->
  lsu_busy (lsu_edge i x true l) = true /\ lsu_ok a (lsu_edge i x true l) /\
  mem_of a (lsu_edge i x true l) (if store_fire i l then strobe_write m (awaddr l) (wdata l) (wstrb l) else m).
Proof.
  intros Hr Hb Hv Hl Ha Hm Hd. destruct Hl as [L1 L2 L3 L4 L5 L6 L7 L8 L9].
  destruct l as [st va reg wb arv ara awv awa wv wd ws]; cbn in *; subst va. unfold store_fire, mem_of, written in *. cbn [lsu_state] in *.
  destruct st; cbn in L8; [by destruct L8| | | | |by destruct L8]; destruct L8 as [_ L8];
    destruct (e_mem (a_eff code a)) as [|len sg addr|len addr v] eqn:Em; try (by destruct L8); lsu_registers Hr; rewrite ?andb_false_r; cbn [andb].
  - destruct L8 as (E1 & E2 & E3 & E4 & E5 & E6). destruct (ar_fire _ _); (split; [done|]; split; [constructor; cbn; try done; by rewrite Em | done]).
  - destruct L8 as (E1 & E2 & E3 & E4 & E5 & E6). destruct (l_rvalid i); cbn [andb orb].
    + split; [done|]. cbn [lsu_reg]. rewrite E2, E3, (Hd eq_refl eq_refl), (bus_word_ext m (a_mem a)), E1 by done.
      rewrite load_lane by (done || apply Ha). split; [constructor; cbn; try done; intros _ _; by unfold e_result; rewrite Em|].
      intros k. cbn. rewrite Hm. unfold e_memory. by rewrite Em.
    + handshakes; (split; [done|]); (split; [constructor; cbn; try done; rewrite Em; by split_and! | done]).
  - destruct L8 as (E1 & E2 & E3 & E4 & E5 & E6). destruct (aw_fire _ _), (w_fire _ _); cbn [andb];
      (split; [done|]); (split; [constructor; cbn; try done; by rewrite Em|]); try done.
    intros k. cbn. rewrite E1, E2, E3, (strobe_write_ext m (a_mem a)), store_lane by done. unfold e_memory. by rewrite Em.
  - destruct (l_bvalid i); cbn [andb orb]; (split; [done|]); (split; [constructor; cbn; try done; try (by rewrite Em)|]); try done.
    by rewrite (store_rd _ _ _ _ Em).
Qed.
End Pipe.
