(* ===== verification/NpcRefine.v ===== *)
(** The invariant of the pipeline: which instruction of the sequential run each stage holds. *)

From S2P Require Import Prelude AmBus RvSpec NpcDatapath NpcCore NpcArch NpcExec NpcLanes NpcPipe.

(** * Operands *)

Section Operands.
Variable code : Z -> Z.

Lemma a_get_step a r : (r <> 0 -> e_rd (a_eff code a) <> r) -> a_get (a_step code a) r = a_get a r.
Proof.
  intros H. unfold a_get, a_step. cbn [a_reg]. destruct (Z.eqb_spec r 0) as [|Hr]; [done|].
  destruct (Z.eqb_spec (e_rd (a_eff code a)) 0) as [|]; [done|]. unfold rf_write.
  destruct (Z.eqb_spec r (e_rd (a_eff code a))) as [E|]; [|done]. by destruct (H Hr).
Qed.

(** A stage whose producer wire does not match leaves the register alone. *)
Lemma not_produced valid we rd idx e : writes we rd e -> valid = true -> produces valid we rd idx = false -> idx <> 0 -> e_rd e <> idx.
Proof.
  intros [H1 H2] -> Hp Hi E. unfold produces in Hp. cbn [andb] in Hp. destruct we; [|by rewrite H2 in E by done; subst].
  rewrite H1, E in Hp by done. rewrite Z.eqb_refl, andb_true_r in Hp. cbn in Hp. apply negb_false_iff, Z.eqb_eq in Hp. done.
Qed.

(** The register fields that an instruction reads are those of RV32E. *)
Lemma supported_rs1 a : supported code a -> uses_rs1 (code (a_pc a)) = true -> f_rs1 (code (a_pc a)) < 16.
Proof.
  intros [_ H]. unfold a_instr in H. set (w := code (a_pc a)) in *. clearbody w. unfold uses_rs1. rewrite opcode_fld, funct3_fld.
  unfold rv_decode, rv_branch, rv_load, rv_store, rv_opimm, rv_system in H.
  repeat (case_match; try done; simplify_eq); first [tauto | intros; lia].
Qed.

Lemma supported_rs2 a : supported code a -> uses_rs2 (code (a_pc a)) = true -> f_rs2 (code (a_pc a)) < 16.
Proof.
  intros [_ H]. unfold a_instr in H. set (w := code (a_pc a)) in *. clearbody w. unfold uses_rs2. rewrite opcode_fld.
  unfold rv_decode, rv_branch, rv_load, rv_store, rv_opimm, rv_system in H.
  repeat (case_match; try done; simplify_eq); first [tauto | intros; lia].
Qed.

(** The register that an instruction writes. *)
Lemma rd_nonneg a : 0 <= e_rd (a_eff code a).
Proof.
  assert (forall w, 0 <= f_rd w) as H by (intros w; apply (slice_range w 11 7); lia).
  unfold a_eff, a_instr. set (w := code (a_pc a)). clearbody w.
  unfold rv_decode, rv_branch, rv_load, rv_store, rv_opimm, rv_system. repeat case_match; cbn; apply H || lia.
Qed.

Lemma supported_rd a : supported code a -> 0 <= e_rd (a_eff code a) < 16.
Proof.
  intros [_ H]. split; [apply rd_nonneg|]. unfold a_eff. destruct (a_instr code a); cbn; tauto || lia.
Qed.

Lemma rf_read_ok (r : Z -> Z) a idx : (forall k, r k = a_reg a k) -> 0 <= idx < 16 -> rf_read r idx = a_get a idx.
Proof.
  intros H Hi. unfold rf_read, a_get. case_match; [done|]. rewrite H. f_equal. unfold slice.
  change (2 ^ 0) with 1. rewrite Z.div_1_r. by apply Z.mod_small.
Qed.
End Operands.

(** * The fence registers of [IFU] *)

Section FenceEdge.
Context `{ARCH : NpcArch}.
Variables (i : bus_in) (fd : bool) (to : Z) (rd rdy : bool) (s : ifu_st).
Hypothesis Hr : reset i = false.

Lemma axi_block_fence n : fencei_state (ifu_axi_edge i fd rd rdy s n) = fencei_state n.
Proof. unfold ifu_axi_edge. by repeat case_match. Qed.

Lemma fetch_block_fence n : fencei_state (ifu_fetch_edge i fd to rd rdy s n) = fencei_state n /\
  out_fencei_flush_done (ifu_fetch_edge i fd to rd rdy s n) = out_fencei_flush_done n.
Proof. unfold ifu_fetch_edge. by repeat case_match. Qed.

Lemma ifu_edge_fence :
  fencei_state (ifu_edge i fd to rd rdy s) = match fencei_state s with
    | FENCEI_IDLE => if fd then FENCEI_WAIT else FENCEI_IDLE
    | FENCEI_WAIT => if bool_decide (axi_state s = AXI_IDLE) && i_arready i then FENCEI_BUSY else FENCEI_WAIT
    | FENCEI_BUSY => FENCEI_IDLE
    end /\
  out_fencei_flush_done (ifu_edge i fd to rd rdy s) = bool_decide (fencei_state s = FENCEI_BUSY).
Proof.
  unfold ifu_edge. destruct (fetch_block_fence (ifu_fence_edge i fd s (ifu_axi_edge i fd rd rdy s s))) as [-> ->].
  pose proof (axi_block_fence s) as Ha. unfold ifu_fence_edge. rewrite Hr. set (n := ifu_axi_edge _ _ _ _ _ _) in *. clearbody n.
  destruct (fencei_state s) eqn:E; decided; [destruct fd|case_match|]; by split.
Qed.
End FenceEdge.

Definition fence (i : instr) : bool := match i with I_fence_i => true | _ => false end.

Section Refine.
Context `{ARCH : NpcArch}.
Variables (code : Z -> Z) (a0 : arch).

(** The sequential run. *)
Definition seq (n : nat) : arch := Nat.iter n (a_step code) a0.

Lemma seq_S n : seq (S n) = a_step code (seq n).
Proof. reflexivity. Qed.

Lemma seq_get r m n : (m <= n)%nat -> r <> 0 -> (forall j, (m <= j < n)%nat -> e_rd (a_eff code (seq j)) <> r) ->
  a_get (seq n) r = a_get (seq m) r.
Proof.
  intros Hmn Hr. induction n as [|n IH]; intros H; [by replace m with 0%nat by lia|].
  destruct (Nat.eq_dec m (S n)) as [-> | Hne]; [done|]. rewrite seq_S, a_get_step by (intros _; apply H; lia).
  apply IH; [lia|]. intros j Hj. apply H. lia.
Qed.

(** * The invariant *)

(** The indices of the instructions in [EXU] and [IDU], and the next to be decoded, when
    [nc] instructions have been committed. *)
Definition at_exu (nc : nat) (c : npc) : nat := nc + nb (lsu_busy (lsu c)).
Definition at_idu (nc : nat) (c : npc) : nat := at_exu nc c + nb (exu_valid (exu c)).
Definition at_ifu (nc : nat) (c : npc) : nat := at_idu nc c + nb (idu_valid (idu c)).

Definition fencing (c : npc) : Prop := fencei_state (ifu c) <> FENCEI_IDLE \/ out_fencei_flush_done (ifu c) = true.

Record inv (nc : nat) (s : sys) : Prop := mkInv {
  iv_rf : forall r, rf (core s) r = a_reg (seq nc) r;
  iv_mem : if lsu_busy (lsu (core s)) then mem_of code (seq nc) (lsu (core s)) (dmem s) else forall k, dmem s k = a_mem (seq nc) k;
  iv_lsu : lsu_busy (lsu (core s)) = true -> lsu_ok code (seq nc) (lsu (core s));
  iv_exu : exu_valid (exu (core s)) = true -> exu_ok code (seq (at_exu nc (core s))) (exu (core s));
  iv_csr : csr_match (csr (core s)) (a_csr (seq (at_idu nc (core s))));
  iv_idu : idu_valid (idu (core s)) = true -> idu_ok code (seq (at_idu nc (core s))) (idu (core s));
  iv_ifu : follows code (ifu (core s))
    (if idu_valid (idu (core s)) then u32 (a_pc (seq (at_idu nc (core s))) + 4) else a_pc (seq (at_idu nc (core s))));
  (** a fence is the youngest instruction and blocks the decoder *)
  iv_fence : forall j, (nc <= j < at_ifu nc (core s))%nat -> fence (a_instr code (seq j)) = true ->
    fence_pending (idu (core s)) = true /\ at_ifu nc (core s) = S j;
  iv_flush : fencing (core s) -> fence_pending (idu (core s)) = true /\ at_ifu nc (core s) = nc;
  iv_once : out_fencei_flush_done (ifu (core s)) = true -> fencei_state (ifu (core s)) = FENCEI_IDLE;
  iv_pending : fence_pending (idu (core s)) = true -> fencing (core s) \/
    exists j, (nc <= j < at_ifu nc (core s))%nat /\ fence (a_instr code (seq j)) = true;
}.

(** What the write-back stage reports of the instruction [a]. *)
Definition commits_as (a : arch) (c : commit) : Prop :=
  commit_pc c = a_pc a /\ commit_inst c = code (a_pc a) /\ commit_npc c = a_pc (a_step code a) /\
  commit_ebreak c = match a_instr code a with I_ebreak => true | _ => false end /\
  commit_skip_ref c = e_mmio (a_eff code a) /\
  commit_wen c = negb (e_rd (a_eff code a) =? 0) /\
  (commit_wen c = true -> commit_rd c = e_rd (a_eff code a) /\ commit_wdata c = e_result a (a_eff code a)).

Section Step.
Variables (nc : nat) (s : sys) (i : bus_in).
Hypotheses (Hinv : inv nc s) (Hans : answers code s i).
Hypotheses (Hok : forall n, arch_ok (seq n)) (Hsup : forall n, supported code (seq n)).

Local Abbreviation c := (core s).
Local Abbreviation s' := (sys_step s i).
Local Abbreviation c' := (cycle (core s) i).
Local Abbreviation nc' := ((nc + nb (lsu_valid (lsu (core s))))%nat).

Lemma reset_off : reset i = false.
Proof. apply Hans. Qed.

Lemma ready_is : lsu_ready c = negb (lsu_busy (lsu c)).
Proof. unfold lsu_ready, lsu_out_ready, lsu_busy. by rewrite negb_orb, negb_involutive. Qed.

Lemma writeback_ready : wbu_out_ready i = true.
Proof. unfold wbu_out_ready. by rewrite reset_off. Qed.

Lemma busy_valid : lsu_busy (lsu c) = false -> lsu_valid (lsu c) = false.
Proof. unfold lsu_busy. intros H%orb_false_iff. apply H. Qed.

Lemma no_store_fire : lsu_state (lsu c) <> LSU_WRITE_REQ -> dmem s' = dmem s.
Proof. intros H. cbn. unfold store_fire. by rewrite bool_decide_eq_false_2 by done. Qed.

(** [LSU] and the data memory. *)
Lemma step_lsu :
  lsu_busy (lsu c') = (exu_valid (exu c) && negb (lsu_busy (lsu c))) || (lsu_busy (lsu c) && negb (lsu_valid (lsu c))) /\
  (lsu_busy (lsu c') = true -> lsu_ok code (seq nc') (lsu c')) /\
  (if lsu_busy (lsu c') then mem_of code (seq nc') (lsu c') (dmem s') else forall k, dmem s' k = a_mem (seq nc') k).
Proof.
  pose proof Hinv as [_ Hm Hl Hx _ _ _ _ _ _ _]. pose proof reset_off as Hr. 
  assert (lsu c' = lsu_edge i (exu c) true (lsu c)) as El by (cbn; by rewrite writeback_ready).
  destruct (lsu_busy (lsu c)) eqn:Eb; rewrite ?andb_false_r, ?andb_true_r; cbn [negb andb orb].
  - specialize (Hl eq_refl). destruct (lsu_valid (lsu c)) eqn:Ev; cbn [negb nb].
    + assert (lsu_busy (lsu c') = false) as Eb' by (rewrite El; by apply (lsu_retires code i (seq nc))).
      rewrite Eb'. split_and!; [done..|]. rewrite no_store_fire by (destruct Hl as [_ _ _ _ _ _ _ Ho _]; intros E; rewrite E, Ev in Ho; by destruct Ho).
      intros k. rewrite Hm. unfold written. rewrite Ev. cbn [orb]. by rewrite Nat.add_1_r.
    + rewrite Nat.add_0_r. destruct (lsu_works code i (seq nc) (exu c) (lsu c) (dmem s) Hr Eb Ev Hl (Hok nc) Hm) as (W1 & W2 & W3); [apply Hans|].
      rewrite El, W1. by split_and!.
  - rewrite (busy_valid Eb). cbn [nb]. rewrite Nat.add_0_r. unfold at_exu in Hx. rewrite Eb, Nat.add_0_r in Hx.
    rewrite no_store_fire by (intros E; unfold lsu_busy in Eb; rewrite E in Eb; discriminate Eb).
    destruct (exu_valid (exu c)) eqn:Ex.
    + destruct (lsu_takes code i (seq nc) (exu c) (lsu c) Hr Ex Eb (Hx eq_refl)) as [T1 T2]. rewrite El, T1. split_and!; [done..|].
      apply lsu_takes_mem; try done. by apply Hx.
    + assert (lsu_busy (lsu c') = false) as Eb' by (rewrite El; by apply lsu_idles). by rewrite Eb'.
Qed.

(** The write-back stage. *)
Lemma step_commit : lsu_valid (lsu c) = true -> commits_as (seq nc) (wbu_commit (lsu c)).
Proof.
  intros Hv. assert (lsu_busy (lsu c) = true) as Hb by (unfold lsu_busy; rewrite Hv; apply orb_true_r).
  destruct (iv_lsu _ _ Hinv Hb) as [L1 L2 L3 [L4 L4'] L5 L6 L7 _ L9]. 
  assert (o_rf_we (lsu_reg (lsu c)) && negb (o_rd (lsu_reg (lsu c)) =? 0) = negb (e_rd (a_eff code (seq nc)) =? 0)) as Hw.
  { destruct (o_rf_we _); [by rewrite L4 | by rewrite L4']. }
  unfold commits_as, wbu_commit. cbn. split_and!; try done. rewrite Hw. intros Hn.
  apply negb_true_iff, Z.eqb_neq in Hn. split; [|by apply L9]. destruct (o_rf_we _); [by apply L4 | by rewrite L4' in Hn].
Qed.

Lemma step_rf r : rf c' r = a_reg (seq nc') r.
Proof.
  cbn [cycle rf]. unfold wbu_edge, commit_fire. rewrite writeback_ready, reset_off, andb_true_r.
  destruct (lsu_valid (lsu c)) eqn:Ev; cbn [andb nb]; [|rewrite Nat.add_0_r; apply Hinv].
  rewrite Nat.add_1_r, seq_S. destruct (step_commit Ev) as (_ & _ & _ & _ & _ & Hw & Hd). unfold a_step. cbn [a_reg].
  pose proof (supported_rd _ _ (Hsup nc)). rewrite Hw in *. destruct (Z.eqb_spec (e_rd (a_eff code (seq nc))) 0); cbn [negb]; [apply Hinv|].
  destruct Hd as [-> ->]; [done|]. unfold rf_write, slice. change (2 ^ 0) with 1. rewrite Z.div_1_r, Z.mod_small by done.
  by rewrite (iv_rf _ _ Hinv).
Qed.

(** Indices: an instruction that moves on keeps its number. *)
Lemma step_at_exu : at_exu nc' c' = (at_exu nc c + nb (exu_valid (exu c) && negb (lsu_busy (lsu c))))%nat.
Proof.
  unfold at_exu. destruct step_lsu as [-> _]. destruct (lsu_busy (lsu c)) eqn:Eb; rewrite ?andb_false_r, ?andb_true_r; cbn [negb andb orb nb].
  - destruct (lsu_valid (lsu c)); cbn; lia.
  - rewrite (busy_valid Eb), orb_false_r. cbn. lia.
Qed.

Lemma fire_is : exu_fire c = idu_valid (idu c) && (negb (exu_valid (exu c)) || negb (lsu_busy (lsu c))).
Proof. unfold exu_fire, exu_in_fire, exu_out_ready. by rewrite ready_is. Qed.

(** [EXU] and the control registers. *)
Lemma step_exu :
  exu_valid (exu c') = exu_fire c || (exu_valid (exu c) && lsu_busy (lsu c)) /\
  (exu_valid (exu c') = true -> exu_ok code (seq (at_exu nc' c')) (exu c')) /\
  csr_match (csr c') (a_csr (seq (at_idu nc c + nb (exu_fire c)))).
Proof.
  pose proof Hinv as [_ _ _ Hx Hc Hd _ _ _ _ _]. rewrite step_at_exu. pose proof fire_is as Hfi.
  cbn [cycle exu csr]. destruct (exu_fire c) eqn:Ef; cbn [orb nb]; symmetry in Hfi.
  - apply andb_true_iff in Hfi as [Hv Hxb]. rewrite Hv. specialize (Hd Hv).
    destruct (exu_takes code _ (idu c) (csr c) (Hok _) (Hsup _) Hd Hc i (lsu_ready c) (exu c) reset_off) as (T1 & T2 & T3).
    { unfold exu_fire in Ef. by rewrite Hv in Ef. }
    rewrite T1, Nat.add_1_r, seq_S. split_and!; [done| |done]. intros _.
    replace (at_exu nc c + _)%nat with (at_idu nc c); [done|]. unfold at_idu. f_equal. f_equal.
    destruct (exu_valid (exu c)); [|done]. cbn in Hxb. by rewrite Hxb.
  - rewrite exu_keeps by (apply reset_off || done). rewrite ready_is, negb_involutive. cbn [exu_valid].
    split_and!; [by destruct (exu c)| |rewrite Nat.add_0_r; by apply csr_keeps].
    intros Hv. assert (exu_valid (exu c) && lsu_busy (lsu c) = true) as Hvb by (by destruct (exu c)).
    rewrite Hvb. apply andb_true_iff in Hvb as [Hv1 Hb1]. rewrite Hv1, Hb1, Nat.add_0_r. specialize (Hx Hv1).
    destruct Hx. destruct (exu c); cbn in *. by constructor.
Qed.

Lemma step_at_idu : at_idu nc' c' = (at_idu nc c + nb (exu_fire c))%nat.
Proof.
  unfold at_idu. rewrite step_at_exu. destruct step_exu as [-> _]. rewrite fire_is.
  destruct (idu_valid (idu c)), (exu_valid (exu c)), (lsu_busy (lsu c)); cbn; lia.
Qed.

(** ** Decoding *)

Definition taken : bool := fetched c i && idu_ready c i.

Lemma redirect_is : redirect c i = exu_fire c && exu_redirect_valid (idu c).
Proof. unfold redirect, redirect_fire. by rewrite reset_off. Qed.

Lemma exu_ready_is : exu_ready c = negb (exu_valid (exu c)) || negb (lsu_busy (lsu c)).
Proof. unfold exu_ready, exu_out_ready. by rewrite ready_is. Qed.

Lemma taken_facts : taken = true ->
  redirect c i = false /\ ifu_state (ifu c) = IFU_VALID /\ idu_ready c i = true /\ exu_fire c = idu_valid (idu c) /\
  fence_pending (idu c) = false.
Proof.
  unfold taken, fetched, ifu_out_valid. intros [[Hv%bool_decide_eq_true Hr%negb_true_iff]%andb_true_iff Hi]%andb_true_iff.
  split_and!; try done; unfold idu_ready, idu_out_ready in Hi;
    apply andb_true_iff in Hi as [[Hi _]%andb_true_iff Hp%negb_true_iff]; [|done].
  rewrite fire_is, <- exu_ready_is. by destruct (idu_valid (idu c)), (exu_ready c).
Qed.

Lemma step_idu_valid : idu_valid (idu c') = if redirect c i then false else taken || (idu_valid (idu c) && negb (exu_fire c)).
Proof.
  cbn [cycle idu]. unfold idu_edge, idu_out_edge. rewrite reset_off. destruct (redirect c i) eqn:Er; [done|].
  change (idu_in_fire _ _ _ _ _ _ _ _ _ _ _ _ _) with taken. destruct taken; [done|]. cbn [orb].
  unfold idu_out_fire. rewrite fire_is, <- exu_ready_is. destruct (idu_valid (idu c)) eqn:Ev, (exu_ready c); cbn [andb negb]; try done;
    unfold idu_fence_edge; repeat case_match; done.
Qed.

Lemma step_pending : fence_pending (idu c') =
  if redirect c i then false
  else if taken && is_fencei (d_ctl (decode taken (ifu_inst (ifu c)))) then true
  else if out_fencei_flush_done (ifu c) then false else fence_pending (idu c).
Proof.
  cbn [cycle idu]. unfold idu_edge, idu_out_edge, idu_fence_edge. rewrite reset_off. destruct (redirect c i) eqn:Er; [done|].
  change (idu_in_fire _ _ _ _ _ _ _ _ _ _ _ _ _) with taken. destruct taken; [|by repeat case_match].
  by destruct (is_fencei _); [|destruct (out_fencei_flush_done _)].
Qed.

Lemma step_at_ifu : at_ifu nc' c' = (at_ifu nc c + nb taken)%nat.
Proof.
  unfold at_ifu. rewrite step_at_idu, step_idu_valid, redirect_is. destruct taken eqn:Et.
  - destruct (taken_facts Et) as (Hr & _ & _ & Hf & _). rewrite redirect_is in Hr. rewrite Hr, Hf. cbn. lia.
  - rewrite fire_is. destruct (idu_valid (idu c)), (exu_redirect_valid (idu c)), (negb (exu_valid (exu c)) || negb (lsu_busy (lsu c))); cbn; lia.
Qed.

(** Where the fetch stands: the address of the next instruction to decode. *)
Lemma next_pc : redirect c i = false -> exu_fire c = idu_valid (idu c) ->
  (if idu_valid (idu c) then u32 (a_pc (seq (at_idu nc c)) + 4) else a_pc (seq (at_idu nc c))) = a_pc (seq (at_ifu nc c)).
Proof.
  intros Hr Hf. unfold at_ifu. destruct (idu_valid (idu c)) eqn:Ev; cbn [nb]; [|by rewrite Nat.add_0_r].
  pose proof (redirect_next code _ _ _ (Hok _) (Hsup _) (iv_idu _ _ Hinv Ev) (iv_csr _ _ Hinv)) as R.
  rewrite redirect_is, Hf in Hr. cbn [andb] in Hr. rewrite Hr in R. by rewrite R, Nat.add_1_r.
Qed.

(** No instruction in flight writes a register that passes the hazard check. *)
Lemma in_flight idx j : (nc <= j < at_ifu nc c)%nat -> idx <> 0 ->
  producer_match (exu_valid (exu c)) (x_rf_we (exu c)) (x_rd (exu c))
    (lsu_pending_valid (lsu c)) (o_rf_we (lsu_reg (lsu c))) (o_rd (lsu_reg (lsu c)))
    (lsu_valid (lsu c)) (commit_wen (wbu_commit (lsu c))) (commit_rd (wbu_commit (lsu c))) (idu c) idx = false ->
  e_rd (a_eff code (seq j)) <> idx.
Proof.
  intros Hj Hi Hp. unfold producer_match in Hp. rewrite !orb_false_iff in Hp. destruct Hp as (((P1 & P2) & P3) & P4).
  unfold at_ifu, at_idu in Hj. destruct (decide (j < at_exu nc c)%nat) as [Hl|Hl].
  { unfold at_exu in Hl. destruct (lsu_busy (lsu c)) eqn:Eb; cbn [nb] in Hl; [|lia]. replace j with nc by lia.
    destruct (iv_lsu _ _ Hinv Eb) as [_ _ _ L4 _ _ _ _ _]. destruct (lsu_valid (lsu c)) eqn:Ev.
    - eapply not_produced; [|reflexivity|exact P4|done]. split; [|intros Hw]; cbn; [intros [Hw _]%andb_true_iff; by apply L4|].
      destruct (o_rf_we (lsu_reg (lsu c))) eqn:Ew; [|by apply L4]. cbn in Hw. rewrite Ew in Hw. apply negb_false_iff, Z.eqb_eq in Hw.
      by rewrite <- (proj1 L4 eq_refl).
    - eapply not_produced; [exact L4| |exact P3|done]. unfold lsu_pending_valid. unfold lsu_busy in Eb.
      rewrite Ev, orb_false_r in Eb. by rewrite Eb, Ev. }
  destruct (decide (j < at_idu nc c)%nat) as [Hl2|Hl2]; unfold at_idu in Hl2.
  { destruct (exu_valid (exu c)) eqn:Ex; cbn [nb] in Hl2; [|lia]. replace j with (at_exu nc c) by lia.
    destruct (iv_exu _ _ Hinv Ex) as [_ _ _ X4 _ _ _ _]. by apply (not_produced _ _ _ _ _ X4 eq_refl P2). }
  destruct (idu_valid (idu c)) eqn:Ed; cbn [nb] in Hj; [|lia]. replace j with (at_idu nc c) by (unfold at_idu; lia).
  destruct (idu_executes code _ _ _ (Hok _) (Hsup _) (iv_idu _ _ Hinv Ed) (iv_csr _ _ Hinv)) as [_ E1 E2 _ _ _ _ _ _].
  apply (not_produced _ _ _ _ _ (conj E1 E2) eq_refl P1 Hi).
Qed.

Lemma at_ifu_ge : (nc <= at_ifu nc c)%nat.
Proof. unfold at_ifu, at_idu, at_exu. lia. Qed.

Lemma committed_le : (nc' <= at_ifu nc c)%nat.
Proof.
  unfold at_ifu, at_idu, at_exu. destruct (lsu_valid (lsu c)) eqn:Ev; cbn [nb]; [|lia].
  assert (lsu_busy (lsu c) = true) as -> by (unfold lsu_busy; rewrite Ev; apply orb_true_r). cbn. lia.
Qed.

(** The operands that the decoder reads. *)
Lemma operand_ok idx : 0 <= idx < 16 ->
  (idx <> 0 -> producer_match (exu_valid (exu c)) (x_rf_we (exu c)) (x_rd (exu c))
    (lsu_pending_valid (lsu c)) (o_rf_we (lsu_reg (lsu c))) (o_rd (lsu_reg (lsu c)))
    (lsu_valid (lsu c)) (commit_wen (wbu_commit (lsu c))) (commit_rd (wbu_commit (lsu c))) (idu c) idx = false) ->
  rf_read (rf c) idx = a_get (seq (at_ifu nc c)) idx.
Proof.
  intros Hi Hp. rewrite (rf_read_ok _ (seq nc)) by (done || apply Hinv).
  destruct (Z.eq_dec idx 0) as [-> | Hn]; [done|]. symmetry. apply seq_get; [apply at_ifu_ge|done|].
  intros j Hj. by apply in_flight; [| |apply Hp].
Qed.

Lemma taken_inst : taken = true ->
  ifu_pc (ifu c) = a_pc (seq (at_ifu nc c)) /\ ifu_inst (ifu c) = code (a_pc (seq (at_ifu nc c))).
Proof.
  intros (Hr & Hv & _ & Hf & _)%taken_facts. destruct (iv_ifu _ _ Hinv) as [_ Hs _ _]. rewrite Hv in Hs.
  rewrite (next_pc Hr Hf) in Hs. by destruct Hs as (-> & -> & _).
Qed.

(** The instruction that enters [IDU]. *)
Lemma taken_idu : taken = true -> idu_ok code (seq (at_ifu nc c)) (idu c').
Proof.
  intros Ht. destruct (taken_inst Ht) as [Hp Hi]. destruct (taken_facts Ht) as (Hr & _ & Hready & _).
  unfold idu_ready, idu_out_ready in Hready. apply andb_true_iff in Hready as [[_ Hh%negb_true_iff]%andb_true_iff _].
  assert (fetched c i = true) as Hfe by (unfold taken in Ht; by apply andb_true_iff in Ht as [? _]).
  unfold raw_hazard in Hh. rewrite Hfe in Hh. cbn [andb] in Hh. apply orb_false_iff in Hh as [Hh1 Hh2].
  cbn [cycle idu]. unfold idu_edge, idu_out_edge. rewrite reset_off, Hr.
  change (idu_in_fire _ _ _ _ _ _ _ _ _ _ _ _ _) with taken. rewrite Ht. rewrite Hi, Hp in *.
  constructor; [done|done|done| |]; cbn [idu_src1 idu_src2]; cbn; intros Hu.
  - rewrite rs1_fld in *. rewrite Hu in Hh1. cbn [andb] in Hh1. apply operand_ok.
    { split; [apply (slice_range _ 19 15); lia | by apply supported_rs1]. }
    intros Hn. apply Z.eqb_neq in Hn. by rewrite Hn in Hh1.
  - rewrite rs2_fld in *. rewrite Hu in Hh2. cbn [andb] in Hh2. apply operand_ok.
    { split; [apply (slice_range _ 24 20); lia | by apply supported_rs2]. }
    intros Hn. apply Z.eqb_neq in Hn. by rewrite Hn in Hh2.
Qed.

Lemma step_idu : idu_valid (idu c') = true -> idu_ok code (seq (at_idu nc' c')) (idu c').
Proof.
  rewrite step_idu_valid, step_at_idu. destruct (redirect c i) eqn:Er; [done|]. destruct taken eqn:Et.
  - intros _. destruct (taken_facts Et) as (_ & _ & _ & Hf & _). rewrite Hf. by apply taken_idu.
  - cbn [orb]. intros [Hv Hf%negb_true_iff]%andb_true_iff. rewrite Hf, Nat.add_0_r. pose proof (iv_idu _ _ Hinv Hv) as [D1 D2 D3 D4 D5].
    cbn [cycle idu]. unfold idu_edge, idu_out_edge, idu_fence_edge. rewrite reset_off, Er.
    change (idu_in_fire _ _ _ _ _ _ _ _ _ _ _ _ _) with taken. rewrite Et. cbn [andb].
    assert (idu_out_fire (exu_ready c) (idu c) = false) as Ho by (unfold idu_out_fire; rewrite exu_ready_is, <- Hf; symmetry; apply fire_is).
    rewrite Ho. destruct (out_fencei_flush_done (ifu c)); [|done]. destruct (idu c); cbn in *. by constructor.
Qed.

(** ** Fences *)

Lemma fence_decoded : taken = true ->
  is_fencei (d_ctl (decode true (ifu_inst (ifu c)))) = fence (a_instr code (seq (at_ifu nc c))).
Proof.
  intros Ht. destruct (taken_inst Ht) as [_ ->]. pose proof (taken_idu Ht) as D. set (a := seq (at_ifu nc c)) in *.
  pose (k := mkCsr 0 0 (a_mstatus (a_csr a)) (a_mtvec (a_csr a)) (a_mepc (a_csr a)) (a_mcause (a_csr a))).
  destruct (idu_executes code a _ k (Hok _) (Hsup _) D ltac:(by split_and!)) as [_ _ _ _ _ _ _ E _].
  destruct D as [_ _ D3 _ _]. by rewrite D3 in E.
Qed.

Lemma fdone_is : fencei_done i (lsu c) = true -> lsu_valid (lsu c) = true /\ lsu_busy (lsu c) = true /\
  fence (a_instr code (seq nc)) = true /\ fence_pending (idu c) = true /\ at_ifu nc c = S nc /\ ~ fencing c.
Proof.
  unfold fencei_done, commit_fire. intros [[Hv _]%andb_true_iff Hf]%andb_true_iff.
  assert (lsu_busy (lsu c) = true) as Hb by (unfold lsu_busy; rewrite Hv; apply orb_true_r).
  destruct (iv_lsu _ _ Hinv Hb) as [_ _ _ _ _ L6 _ _ _]. rewrite Hf in L6. symmetry in L6.
  assert (nc < at_ifu nc c)%nat as Hlt by (unfold at_ifu, at_idu, at_exu; rewrite Hb; cbn; lia).
  destruct (iv_fence _ _ Hinv nc ltac:(lia) L6) as [Hp Hn]. split_and!; try done.
  intros Hg. destruct (iv_flush _ _ Hinv Hg) as [_ E]. lia.
Qed.

Lemma fdone_not_taken : fencei_done i (lsu c) = true -> taken = false.
Proof.
  intros (_ & _ & _ & Hp & _)%fdone_is. destruct taken eqn:Et; [|done]. apply taken_facts in Et as (_ & _ & _ & _ & Hq). congruence.
Qed.

Lemma redirect_facts : redirect c i = true -> idu_valid (idu c) = true /\ exu_fire c = true /\ exu_redirect_valid (idu c) = true /\
  fencei_done i (lsu c) = false /\ ~ fencing c.
Proof.
  rewrite redirect_is, fire_is. intros [[Hv Hx]%andb_true_iff Hr]%andb_true_iff. rewrite Hv, Hx. split_and!; try done.
  - destruct (fencei_done i (lsu c)) eqn:Ef; [|done]. apply fdone_is in Ef as (_ & Hb & _ & _ & He & _).
    unfold at_ifu, at_idu, at_exu in He. rewrite Hb, Hv in He. cbn in He. lia.
  - intros Hg. destruct (iv_flush _ _ Hinv Hg) as [_ He]. unfold at_ifu, at_idu, at_exu in He. rewrite Hv in He. cbn in He. lia.
Qed.

(** [IFU]. *)
Lemma step_ifu : follows code (ifu c')
  (if idu_valid (idu c') then u32 (a_pc (seq (at_idu nc' c')) + 4) else a_pc (seq (at_idu nc' c'))).
Proof.
  pose proof (iv_ifu _ _ Hinv) as Hf. rewrite step_idu_valid, step_at_idu. cbn [cycle ifu].
  destruct (redirect c i) eqn:Er.
  - destruct (redirect_facts Er) as (Hv & Hfi & Hrv & Hfd & Hng). rewrite Hfi, Nat.add_1_r, seq_S.
    pose proof (redirect_next code _ _ _ (Hok _) (Hsup _) (iv_idu _ _ Hinv Hv) (iv_csr _ _ Hinv)) as R. rewrite Hrv in R.
    change (redirect_to c) with (exu_redirect_pc (idu c) (csr c)). cbn [a_step a_pc]. rewrite R.
    eapply ifu_redirected; [apply reset_off|exact Hf|exact (proj1 (Hsup _))|]. rewrite Hfd. split; [|done].
    destruct (fencei_state (ifu c)) eqn:E; [done | destruct Hng; left; by rewrite E ..].
  - destruct taken eqn:Et; cbn [orb].
    + destruct (taken_facts Et) as (_ & Hv & Hid & Hfi & _). rewrite (next_pc Er Hfi) in Hf. rewrite Hfi.
      apply ifu_taken; try done; [apply reset_off|]. destruct (fencei_done i (lsu c)) eqn:Efd; [|done].
      apply fdone_not_taken in Efd. congruence.
    + replace (if idu_valid (idu c) && negb (exu_fire c) then _ else _) with
        (if idu_valid (idu c) then u32 (a_pc (seq (at_idu nc c)) + 4) else a_pc (seq (at_idu nc c))).
      { apply ifu_held; [apply reset_off|done| |apply Hans].
        unfold taken, fetched in Et. rewrite Er in Et. exact Et. }
      destruct (exu_fire c) eqn:Efi; cbn [nb negb]; [|by rewrite Nat.add_0_r, andb_true_r].
      assert (idu_valid (idu c) = true) as Hv by (rewrite fire_is in Efi; by apply andb_true_iff in Efi as [? _]).
      rewrite (next_pc Er) by congruence. unfold at_ifu. by rewrite Hv.
Qed.

Lemma step_fencing : fencing c' -> fencei_done i (lsu c) = true \/ fencei_state (ifu c) <> FENCEI_IDLE.
Proof.
  unfold fencing. cbn [cycle ifu]. destruct (ifu_edge_fence i (fencei_done i (lsu c)) (redirect_to c) (redirect c i) (idu_ready c i) (ifu c) reset_off) as [-> ->].
  destruct (fencei_state (ifu c)), (fencei_done i (lsu c)); decided; try (by left); try (by right). by intros [|].
Qed.

Lemma fencing_goes_on : fencei_done i (lsu c) = true \/ fencei_state (ifu c) <> FENCEI_IDLE -> fencing c'.
Proof.
  unfold fencing. cbn [cycle ifu]. destruct (ifu_edge_fence i (fencei_done i (lsu c)) (redirect_to c) (redirect c i) (idu_ready c i) (ifu c) reset_off) as [-> ->].
  destruct (fencei_state (ifu c)), (fencei_done i (lsu c)); decided; intros [|]; try done; try (by left); try (by right);
    left; by case_match.
Qed.

Lemma not_fencing_committed : fencing c -> lsu_valid (lsu c) = false.
Proof.
  intros [_ He]%(iv_flush _ _ Hinv). destruct (lsu_valid (lsu c)) eqn:Ev; [|done].
  unfold at_ifu, at_idu, at_exu, lsu_busy in He. rewrite Ev, orb_true_r in He. cbn in He. lia.
Qed.

(** A pending fence stays pending until the flush is done. *)
Lemma pending_stays : fence_pending (idu c) = true -> redirect c i = false -> out_fencei_flush_done (ifu c) = false ->
  fence_pending (idu c') = true /\ taken = false.
Proof.
  intros Hp Hr Hd. assert (taken = false) as Ht by (destruct taken eqn:Et; [apply taken_facts in Et as (_ & _ & _ & _ & Hq); congruence | done]).
  split; [|done]. rewrite step_pending, Hr, Ht, Hd. exact Hp.
Qed.

Lemma step_fence j : (nc' <= j < at_ifu nc' c')%nat -> fence (a_instr code (seq j)) = true ->
  fence_pending (idu c') = true /\ at_ifu nc' c' = S j.
Proof.
  rewrite step_at_ifu. intros Hj Hfe. destruct (decide (j < at_ifu nc c)%nat) as [Hlt|Hge].
  - destruct (iv_fence _ _ Hinv j ltac:(lia) Hfe) as [Hp Ha].
    assert (redirect c i = false) as Hr.
    { destruct (redirect c i) eqn:Er; [|done]. destruct (redirect_facts Er) as (Hv & _ & Hrv & _).
      destruct (idu_executes code _ _ _ (Hok _) (Hsup _) (iv_idu _ _ Hinv Hv) (iv_csr _ _ Hinv)) as [_ _ _ _ _ _ _ _ E].
      replace (at_idu nc c) with j in E by (unfold at_ifu in Ha; rewrite Hv in Ha; cbn in Ha; lia).
      unfold exu_redirect_valid in Hrv. rewrite E in Hrv; [done|]. by destruct (a_instr code (seq j)). }
    assert (out_fencei_flush_done (ifu c) = false) as Hd.
    { destruct (out_fencei_flush_done (ifu c)) eqn:Ed; [|done]. destruct (iv_flush _ _ Hinv (or_intror Ed)) as [_ ?]. lia. }
    destruct (pending_stays Hp Hr Hd) as [-> ->]. cbn. split; [done | lia].
  - destruct taken eqn:Et; cbn [nb] in *; [|lia]. replace j with (at_ifu nc c) in * by lia.
    split; [|lia]. rewrite step_pending. destruct (taken_facts Et) as (-> & _). by rewrite Et, (fence_decoded Et), Hfe.
Qed.

Lemma step_flush : fencing c' -> fence_pending (idu c') = true /\ at_ifu nc' c' = nc'.
Proof.
  intros Hg%step_fencing. rewrite step_at_ifu.
  assert (fence_pending (idu c) = true /\ redirect c i = false /\ out_fencei_flush_done (ifu c) = false /\ at_ifu nc c = nc') as (Hp & Hr & Hd & Ha).
  { destruct (fencei_done i (lsu c)) eqn:Efd.
    - destruct (fdone_is Efd) as (Hv & _ & _ & Hp & Ha & Hn). rewrite Hv. cbn. split_and!; [done| | |lia].
      + destruct (redirect c i) eqn:Er; [|done]. destruct (redirect_facts Er) as (_ & _ & _ & E & _). congruence.
      + destruct (out_fencei_flush_done (ifu c)) eqn:Ed; [|done]. destruct Hn. by right.
    - destruct Hg as [|Hg]; [done|]. assert (fencing c) as Hf by (by left). destruct (iv_flush _ _ Hinv Hf) as [Hp Ha].
      rewrite (not_fencing_committed Hf). cbn. split_and!; [done| | |lia].
      + destruct (redirect c i) eqn:Er; [|done]. destruct (redirect_facts Er) as (_ & _ & _ & _ & E). done.
      + destruct (out_fencei_flush_done (ifu c)) eqn:Ed; [|done]. by destruct Hg; apply (iv_once _ _ Hinv). }
  destruct (pending_stays Hp Hr Hd) as [-> ->]. cbn. split; [done | lia].
Qed.

Lemma step_pending_why : fence_pending (idu c') = true ->
  fencing c' \/ exists j, (nc' <= j < at_ifu nc' c')%nat /\ fence (a_instr code (seq j)) = true.
Proof.
  rewrite step_pending, step_at_ifu. destruct (redirect c i); [done|]. destruct taken eqn:Et; cbn [andb nb].
  - rewrite (fence_decoded Et). destruct (fence _) eqn:Ef; intros H.
    + right. exists (at_ifu nc c). split; [|done]. pose proof committed_le. lia.
    + destruct (taken_facts Et) as (_ & _ & _ & _ & Hp). rewrite Hp in H. by destruct (out_fencei_flush_done _).
  - destruct (out_fencei_flush_done (ifu c)) eqn:Ed; [done|]. intros Hp.
    destruct (iv_pending _ _ Hinv Hp) as [[Hg|Hg]|(j & Hj & Hf)]; [left; apply fencing_goes_on; by right|congruence|].
    destruct (decide (nc' <= j)%nat) as [Hle|Hlt]; [right; exists j; split; [lia|done]|].
    left. apply fencing_goes_on. left. destruct (lsu_valid (lsu c)) eqn:Ev; cbn in Hlt; [|lia]. replace j with nc in * by lia.
    unfold fencei_done, commit_fire. rewrite Ev, writeback_ready. cbn.
    assert (lsu_busy (lsu c) = true) as Hb by (unfold lsu_busy; rewrite Ev; apply orb_true_r).
    destruct (iv_lsu _ _ Hinv Hb) as [_ _ _ _ _ L6 _ _ _]. rewrite L6. exact Hf.
Qed.

(** One clock cycle keeps the invariant. *)
Lemma inv_step : inv nc' s'.
Proof.
  destruct step_lsu as (_ & Hl & Hm). destruct step_exu as (_ & Hx & Hc). constructor; cbn [core sys_step].
  - apply step_rf.
  - exact Hm.
  - exact Hl.
  - exact Hx.
  - by rewrite step_at_idu.
  - apply step_idu.
  - apply step_ifu.
  - apply step_fence.
  - apply step_flush.
  - cbn [cycle ifu]. destruct (ifu_edge_fence i (fencei_done i (lsu c)) (redirect_to c) (redirect c i) (idu_ready c i) (ifu c) reset_off) as [-> ->].
    intros E%bool_decide_eq_true. by rewrite E.
  - apply step_pending_why.
Qed.
End Step.
End Refine.
