(* ===== verification/NpcLive.v ===== *)
(** Progress of the pipeline: [distance] bounds the cycles until the next commit. A cycle in
    which the handshake that is waited for takes place brings it down ([serves]), no cycle
    brings it up. *)

From S2P Require Import Prelude AmBus RvSpec NpcDatapath NpcCore NpcArch NpcExec NpcLanes NpcPipe NpcRefine.

(** The write port takes the address and the data in the same cycle. *)
Definition paired (i : bus_in) : Prop := l_awready i = l_wready i.

Definition fetch_distance (f : ifu_st) : nat :=
  match fencei_state f with
  | FENCEI_WAIT => match axi_state f with AXI_SEND_AR => 22 | AXI_WAIT_R => 21 | AXI_IDLE => 20 end
  | FENCEI_BUSY => 19
  | FENCEI_IDLE =>
      match ifu_state f with
      | IFU_VALID => 5
      | IFU_EMPTY =>
          match axi_state f, outstanding_stale f with
          | AXI_SEND_AR, true => 10 | AXI_WAIT_R, true => 9 | AXI_IDLE, _ => 8
          | AXI_SEND_AR, false => 7 | AXI_WAIT_R, false => 6
          end
      end
  end.

Definition distance (c : npc) : nat :=
  if lsu_busy (lsu c) then
    if lsu_valid (lsu c) then 0
    else match lsu_state (lsu c) with LSU_READ_ADDR | LSU_WRITE_REQ => 2 | _ => 1 end
  else if exu_valid (exu c) then 3
  else if idu_valid (idu c) then 4
  else fetch_distance (ifu c).

Lemma fetch_distance_le f : (5 <= fetch_distance f <= 22)%nat.
Proof. unfold fetch_distance. repeat case_match; lia. Qed.

Lemma distance_le c : (distance c <= 22)%nat.
Proof. unfold distance. pose proof (fetch_distance_le (ifu c)). repeat case_match; lia. Qed.

(** The handshake that the pipeline waits for takes place in this cycle. *)
Definition fetch_serves (f : ifu_st) (i : bus_in) : bool :=
  match ifu_state f, axi_state f, fencei_state f with
  | IFU_VALID, _, _ => true
  | _, AXI_SEND_AR, _ => i_arready i
  | _, AXI_WAIT_R, _ => i_rvalid i
  | _, AXI_IDLE, FENCEI_WAIT => i_arready i
  | _, _, _ => true
  end.

Definition serves (c : npc) (i : bus_in) : bool :=
  if lsu_busy (lsu c) then
    match lsu_state (lsu c) with
    | LSU_READ_ADDR => l_arready i | LSU_WAIT_R => l_rvalid i
    | LSU_WRITE_REQ => l_awready i && l_wready i | LSU_WAIT_B => l_bvalid i
    | _ => true
    end
  else if exu_valid (exu c) || idu_valid (idu c) then true
  else fetch_serves (ifu c) i.

(** The memory makes the processor wait: the oldest instruction needs a handshake, the
    processor has its side of it up and the other side is missing. *)
Definition waits (c : npc) (i : bus_in) : bool :=
  let l := lsu c in
  if lsu_busy l then
    match lsu_state l with
    | LSU_READ_ADDR => arvalid l && negb (l_arready i) | LSU_WAIT_R => negb (l_rvalid i)
    | LSU_WRITE_REQ => awvalid l && wvalid l && negb (l_awready i && l_wready i) | LSU_WAIT_B => negb (l_bvalid i)
    | _ => false
    end
  else if exu_valid (exu c) || idu_valid (idu c) then false
  else match ifu_state (ifu c), axi_state (ifu c), fencei_state (ifu c) with
  | IFU_VALID, _, _ => false
  | _, AXI_SEND_AR, _ => negb (i_arready i)
  | _, AXI_WAIT_R, _ => negb (i_rvalid i)
  | _, AXI_IDLE, FENCEI_WAIT => negb (i_arready i)
  | _, _, _ => false
  end.

Lemma waits_not_served c i : waits c i = true -> serves c i = false.
Proof.
  unfold waits, serves, fetch_serves.
  destruct (lsu_busy (lsu c)); [destruct (lsu_state (lsu c)); try done; rewrite ?andb_true_iff, ?negb_true_iff; by intuition|].
  destruct (_ || _); [done|]. repeat case_match; try done; by rewrite negb_true_iff.
Qed.

(** A write request has both of its channels up. *)
Definition requests (l : lsu_st) : Prop := lsu_state l = LSU_WRITE_REQ -> awvalid l = true /\ wvalid l = true.

Ltac by_state := cbn; decided; cbn; lia.

Section Live.
Context `{ARCH : NpcArch}.

Lemma requests_step i x rdy l : reset i = false -> paired i -> requests l -> requests (lsu_edge i x rdy l).
Proof.
  intros Hr Hp Hq. destruct l as [st va reg wb arv ara awv awa wv wd ws]. unfold requests, paired in *. cbn [lsu_state awvalid wvalid] in Hq.
  destruct st; lsu_registers Hr; cbn [lsu_state awvalid wvalid].
  - destruct (exu_valid x && negb va) eqn:E; cbn [andb]; destruct (x_is_load x), (x_is_store x); try done.
  - by repeat case_match.
  - by repeat case_match.
  - destruct (Hq eq_refl) as [-> ->]. unfold aw_fire, w_fire. cbn [awvalid wvalid andb]. rewrite Hp. destruct (l_wready i); done.
  - by repeat case_match.
  - by repeat case_match.
Qed.

(** An empty fetch stage behind an empty pipeline. *)
Lemma fetch_progress code i to rdy f t : reset i = false -> follows code f t -> ifu_state f = IFU_EMPTY ->
  let f' := ifu_edge i false to false rdy f in
  (fetch_distance f' < fetch_distance f)%nat \/ fetch_serves f i = false /\ (fetch_distance f' <= fetch_distance f)%nat.
Proof.
  intros Hr [Ha Hs Hp _] He. rewrite He in Hs. destruct Hs as [Hpc _]. cbv zeta.
  unfold fetch_serves. rewrite He. unfold ifu_edge, ifu_fetch_edge, ifu_fence_edge, ifu_axi_edge, drop_response, ifu_out_fire, ifu_ar_fire, ifu_arvalid, ifu_r_fire, ifu_rready, ifu_out_valid.
  rewrite Hr, Hp, (not_misaligned f) by (by rewrite Hpc). rewrite He. decided.
  destruct f as [ax op st fs fl fd ist fp pc ins ev ec ep]; cbn in *; subst.
  destruct fs, ax; decided; cbn; try (destruct (i_arready i); cbn); try (destruct (i_rvalid i); cbn); destruct st; decided; cbn;
    first [left; lia | right; split; [done|lia]].
Qed.

Section Progress.
Variables (code : Z -> Z) (a0 : arch) (nc : nat) (s : sys) (i : bus_in).
Hypotheses (Hinv : inv code a0 nc s) (Hans : answers code s i).
Hypotheses (Hok : forall n, arch_ok (seq code a0 n)) (Hsup : forall n, supported code (seq code a0 n)).
Hypothesis Hq : requests (lsu (core s)).

Local Abbreviation c := (core s).
Local Abbreviation c' := (cycle (core s) i).
Local Abbreviation closer := ((distance c' < distance c)%nat \/ serves c i = false /\ (distance c' <= distance c)%nat).

Lemma lsu_progress : lsu_busy (lsu c) = true -> lsu_valid (lsu c) = false -> closer.
Proof.
  intros Hb Hv. pose proof (reset_off code s i Hans) as Hr. destruct (iv_lsu _ _ _ _ Hinv Hb) as [_ _ _ _ _ _ _ Ho _].
  unfold distance, serves. rewrite Hb, Hv. cbn [cycle lsu]. rewrite (writeback_ready code s i Hans).
  destruct (lsu c) as [st va reg wb arv ara awv awa wv wd ws]. cbn [lsu_state lsu_valid] in *. subst va. unfold requests in Hq. cbn in Hq.
  destruct st; cbn [lsu_state lsu_valid arvalid] in Ho; try (by destruct Ho); destruct Ho as [_ Ho];
    destruct (e_mem _); try (by destruct Ho); lsu_registers Hr; unfold ar_fire, aw_fire, w_fire, lsu_busy; cbn [lsu_state lsu_valid arvalid awvalid wvalid].
  - destruct Ho as (_ & _ & _ & _ & _ & Ho). rewrite (Ho eq_refl). cbn [andb].
    destruct (l_arready i); [left | right; split; [done|]]; by_state.
  - destruct (l_rvalid i); [left | right; split; [done|]]; by_state.
  - destruct (Hq eq_refl) as [-> ->]. cbn [andb].
    destruct (l_awready i), (l_wready i); [left | right; split; [done|].. ]; by_state.
  - destruct (l_bvalid i); [left | right; split; [done|]]; by_state.
Qed.

(** Nothing in flight: an instruction that has been fetched is taken. *)
Lemma valid_taken : lsu_busy (lsu c) = false -> exu_valid (exu c) = false -> idu_valid (idu c) = false ->
  ifu_state (ifu c) = IFU_VALID -> taken s i = true.
Proof.
  intros Hb Hx Hd Hv. assert (lsu_valid (lsu c) = false) as Hlv by (by apply busy_valid).
  assert (redirect c i = false) as Hr by (rewrite (redirect_is code s i Hans), fire_is, Hd; done).
  assert (fence_pending (idu c) = false) as Hpe.
  { destruct (fence_pending (idu c)) eqn:Ep; [|done]. destruct (iv_pending _ _ _ _ Hinv Ep) as [Hg|(j & Hj & _)].
    - apply (fo_fence _ _ _ (iv_ifu _ _ _ _ Hinv)) in Hg. congruence.
    - unfold at_ifu, at_idu, at_exu in Hj. rewrite Hb, Hx, Hd in Hj. cbn in Hj. lia. }
  unfold taken, fetched, ifu_out_valid. rewrite Hv, Hr. decided. cbn [andb negb].
  unfold idu_ready, idu_out_ready, raw_hazard, producer_match. rewrite Hd, Hx, Hlv, Hpe.
  assert (lsu_pending_valid (lsu c) = false) as -> by (unfold lsu_pending_valid; unfold lsu_busy in Hb; apply orb_false_iff in Hb as [-> _]; done).
  unfold produces. cbn [andb orb negb]. by rewrite !andb_false_r.
Qed.

Lemma progress : lsu_valid (lsu c) = false -> closer.
Proof.
  intros Hv. pose proof (reset_off code s i Hans) as Hr.
  destruct (lsu_busy (lsu c)) eqn:Eb; [by apply lsu_progress|].
  destruct (step_lsu code a0 nc s i Hinv Hans Hok) as (Hb' & _). destruct (step_exu code a0 nc s i Hinv Hans Hok Hsup) as (Hx' & _).
  destruct (exu_valid (exu c)) eqn:Ex.
  { left. unfold distance at 2. rewrite Eb, Ex. unfold distance. rewrite Hb', Eb. cbn. repeat case_match; lia. }
  rewrite Eb in Hb'. cbn [negb andb orb] in Hb'. rewrite fire_is, Ex, Eb in Hx'. cbn [negb andb orb] in Hx'. rewrite andb_true_r, orb_false_r in Hx'.
  unfold distance, serves. rewrite Hb', Hx', Eb, Ex. destruct (idu_valid (idu c)) eqn:Ed; [left; lia|]. cbn [orb].
  assert (redirect c i = false) as Hre by (rewrite (redirect_is code s i Hans), fire_is, Ed; done).
  rewrite (step_idu_valid code s i Hans), Hre, Ed, orb_false_r.
  destruct (taken s i) eqn:Et; [left; pose proof (fetch_distance_le (ifu c)); lia|].
  assert (ifu_state (ifu c) = IFU_EMPTY) as He.
  { destruct (ifu_state (ifu c)) eqn:Es; [done|]. by rewrite valid_taken in Et. }
  cbn [cycle ifu]. rewrite Hre. assert (fencei_done i (lsu c) = false) as -> by (unfold fencei_done, commit_fire; by rewrite Hv).
  eapply fetch_progress; [done|apply (iv_ifu _ _ _ _ Hinv)|done].
Qed.

(** The processor has its side up. *)
Lemma not_served_waits : serves c i = false -> waits c i = true.
Proof.
  unfold serves, waits, fetch_serves. destruct (lsu_busy (lsu c)) eqn:Eb.
  - destruct (iv_lsu _ _ _ _ Hinv Eb) as [_ _ _ _ _ _ _ Ho _]. intros Hs.
    destruct (lsu_state (lsu c)) eqn:Es; try done; rewrite ?Hs; try done.
    + destruct Ho as [_ Ho]. destruct (e_mem _); [done| |done]. destruct Ho as (_ & _ & _ & _ & _ & Ho). by rewrite Ho.
    + destruct (Hq Es) as [-> ->]. done.
  - destruct (_ || _); [done|]. repeat case_match; try done; by intros ->.
Qed.

End Progress.
End Live.

(** * Fetched addresses *)

Section Fetched.
Context `{ARCH : NpcArch}.

Lemma ifu_edge_port i fd to rd rdy s :
  axi_state (ifu_edge i fd to rd rdy s) = axi_state (ifu_axi_edge i fd rd rdy s s) /\
  outstanding_pc (ifu_edge i fd to rd rdy s) = outstanding_pc (ifu_axi_edge i fd rd rdy s s).
Proof.
  unfold ifu_edge. set (n := ifu_axi_edge _ _ _ _ _ _). clearbody n.
  assert (forall n, axi_state (ifu_fence_edge i fd s n) = axi_state n /\ outstanding_pc (ifu_fence_edge i fd s n) = outstanding_pc n) as H.
  { intros m. unfold ifu_fence_edge. by repeat case_match. }
  destruct (H n) as [<- <-]. clear H. generalize (ifu_fence_edge i fd s n). intros m. unfold ifu_fetch_edge. by repeat case_match.
Qed.

Variables (code : Z -> Z) (a0 : arch).

(** The addresses of the program and the one behind each instruction. *)
Variable P : Z -> Prop.
Hypothesis HP : forall n, P (a_pc (seq code a0 n)) /\ P (u32 (a_pc (seq code a0 n) + 4)).

(** Where a fetch is under way. *)
Definition asked (c : npc) : Prop := axi_state (ifu c) <> AXI_IDLE -> P (outstanding_pc (ifu c)).

Lemma fetch_address nc s : inv code a0 nc s ->
  match ifu_state (ifu (core s)) with IFU_EMPTY => P (fetch_pc (ifu (core s))) | IFU_VALID => P (ifu_pc (ifu (core s))) end.
Proof.
  intros Hi. pose proof (fo_state _ _ _ (iv_ifu _ _ _ _ Hi)) as Hf. destruct (ifu_state _); destruct Hf as [-> _]; case_match; apply HP.
Qed.

(** No other address is asked for. *)
Lemma asked_step nc s i : inv code a0 nc s -> reset i = false -> asked (core s) -> asked (cycle (core s) i).
Proof.
  intros Hi Hr Ht. pose proof (fetch_address nc s Hi) as Hx. unfold asked in *.
  cbn [cycle ifu]. generalize (fencei_done i (lsu (core s))) (redirect_to (core s)) (redirect (core s) i) (idu_ready (core s) i). intros fd to rd rdy.
  destruct (ifu_edge_port i fd to rd rdy (ifu (core s))) as [-> ->]. unfold ifu_axi_edge. rewrite Hr.
  destruct (axi_state (ifu (core s))) eqn:Ea.
  - match goal with |- context [if ?b then _ else _] => destruct b eqn:Eb end; cbn; [|by rewrite Ea]. intros _. rewrite !andb_true_iff, bool_decide_eq_true in Eb. destruct_and! Eb. by case_match.
  - intros _. assert (P (outstanding_pc (ifu (core s)))) as Ho by (by apply Ht). by repeat case_match.
  - intros _. assert (P (outstanding_pc (ifu (core s)))) as Ho by (by apply Ht). by repeat case_match.
Qed.

(** When no word that is fetched is zero, the checks of the simulation never strike. *)
Lemma no_fatal nc s i : (forall p, P p -> p <> 0 /\ code p <> 0) -> inv code a0 nc s -> answers code s i -> asked (core s) ->
  fatal (core s) i = false.
Proof.
  intros Hz Hi Ha Ht. pose proof (fetch_address nc s Hi) as Hf. pose proof (reset_off code s i Ha) as Hr. destruct Ha as (_ & Hd & _).
  assert (forall p v, P p -> v = code p -> (p =? 0) = false /\ (v =? 0) = false) as Hn
    by (intros p v Hp ->; split; apply Z.eqb_neq; by apply Hz).
  unfold fatal. rewrite Hr. cbn [negb andb]. rewrite !orb_false_iff. split_and!.
  - unfold ifu_out_fire, ifu_out_valid. destruct (ifu_state (ifu (core s))) eqn:Es; [done|].
    pose proof (fo_state _ _ _ (iv_ifu _ _ _ _ Hi)) as Hs. rewrite Es in Hs. destruct Hs as (E1 & E2 & _). rewrite <- E1 in E2.
    destruct (Hn _ _ Hf E2) as [-> ->]. by rewrite !andb_false_r.
  - unfold ifu_r_fire, ifu_rready. destruct (i_rvalid i) eqn:Ev; [|done]. case_bool_decide as Ew; [|done]. cbn [andb].
    pose proof (fo_state _ _ _ (iv_ifu _ _ _ _ Hi)) as Hs. destruct (ifu_state (ifu (core s))) eqn:Es;
      [|destruct Hs as (_ & _ & _ & E); by rewrite E in Ew].
    destruct (Hn _ _ Hf eq_refl) as [-> _]. destruct (Hn _ _ (Ht ltac:(by rewrite Ew)) (Hd eq_refl Ew)) as [_ ->]. by rewrite andb_false_r.
  - unfold idu_out_fire. destruct (idu_valid (idu (core s))) eqn:Ev; [|done]. destruct (iv_idu _ _ _ _ Hi Ev) as [E1 E2 _ _ _]. rewrite <- E1 in E2.
    destruct (Hn (idu_pc (idu (core s))) _ ltac:(rewrite E1; apply HP) E2) as [-> ->]. by rewrite !andb_false_r.
  - destruct (exu_valid (exu (core s))) eqn:Ev; [|done]. destruct (iv_exu _ _ _ _ Hi Ev) as [E1 E2 _ _ _ _ _ _]. rewrite <- E1 in E2.
    destruct (Hn (x_pc (exu (core s))) _ ltac:(rewrite E1; apply HP) E2) as [-> ->]. by rewrite !andb_false_r.
  - unfold lsu_out_fire. destruct (lsu_valid (lsu (core s))) eqn:Ev; [|done].
    destruct (iv_lsu _ _ _ _ Hi ltac:(unfold lsu_busy; by rewrite Ev, orb_true_r)) as [E1 E2 _ _ _ _ _ _ _]. rewrite <- E1 in E2.
    destruct (Hn (o_pc (lsu_reg (lsu (core s)))) _ ltac:(rewrite E1; apply HP) E2) as [-> ->]. by rewrite !andb_false_r.
  - unfold commit_fire. destruct (lsu_valid (lsu (core s))) eqn:Ev; [|done].
    destruct (iv_lsu _ _ _ _ Hi ltac:(unfold lsu_busy; by rewrite Ev, orb_true_r)) as [E1 E2 _ _ _ _ _ _ _]. rewrite <- E1 in E2.
    destruct (Hn (o_pc (lsu_reg (lsu (core s)))) _ ltac:(rewrite E1; apply HP) E2) as [H1 H2]. cbn [wbu_commit commit_pc commit_inst]. rewrite H1, H2. by rewrite !andb_false_r.
Qed.

(** The checks are off while [reset] is high. *)
Lemma fatal_reset c i : reset i = true -> fatal c i = false.
Proof. unfold fatal. by intros ->. Qed.
End Fetched.
#[global] Opaque fatal.

(** * A split write *)

Section Split.
Context `{ARCH : NpcArch}.

(** A write request of which one channel has been taken. *)
Definition half_sent (l : lsu_st) : Prop := lsu_state l = LSU_WRITE_REQ /\ lsu_valid l = false /\ (awvalid l = false \/ wvalid l = false).

Lemma half_sent_step i x l : reset i = false -> half_sent l -> half_sent (lsu_edge i x true l).
Proof.
  intros Hr (Hs & Hv & Hh). destruct l as [st va reg wb arv ara awv awa wv wd ws]. cbn in Hs, Hv, Hh. subst st va. lsu_registers Hr.
  rewrite ?andb_false_r. cbn [andb orb]. unfold aw_fire, w_fire. cbn [awvalid wvalid].
  destruct Hh as [-> | ->]; cbn [andb]; rewrite ?andb_false_r; (split_and!; [done|done|]); cbn; [by left|by right].
Qed.

(** C36. A memory that takes the address and the data of a write in different cycles stops
    the processor: once one channel has been taken alone, the load and store unit stays in
    its request state for ever, without a reset nothing is committed any more. *)
Theorem split_write_never_ends (s : sys) (i : bus_in) (ins : list bus_in) :
  let l := lsu (core s) in
  lsu_state l = LSU_WRITE_REQ -> lsu_valid l = false -> awvalid l = true -> wvalid l = true ->
  l_awready i <> l_wready i -> reset i = false -> Forall (fun i => reset i = false) ins ->
  let s' := fold_left sys_step ins (sys_step s i) in
  lsu_state (lsu (core s')) = LSU_WRITE_REQ /\ lsu_valid (lsu (core s')) = false.
Proof.
  intros l Hs Hv Ha Hw Hn Hr Hins s'.
  assert (forall ins s, Forall (fun i => reset i = false) ins -> half_sent (lsu (core s)) -> half_sent (lsu (core (fold_left sys_step ins s)))) as Hall.
  { clear. intros ins. induction ins as [|i ins IH]; intros s Hf Hh; [done|]. inversion_clear Hf. apply IH; [done|].
    cbn. unfold wbu_out_ready. rewrite H. by apply half_sent_step. }
  destruct (Hall ins (sys_step s i) Hins) as (H1 & H2 & _); [|done].
  cbn. unfold wbu_out_ready. rewrite Hr. cbn [negb]. fold l. clearbody l.
  destruct l as [st va reg wb arv ara awv awa wv wd ws]. cbn in Hs, Hv, Ha, Hw. subst. lsu_registers Hr.
  rewrite ?andb_false_r. cbn [andb orb]. unfold aw_fire, w_fire. cbn [awvalid wvalid andb].
  destruct (l_awready i), (l_wready i); try done; cbn; (split_and!; [done|done|]); cbn; [by left|by right].
Qed.
End Split.
