(* ===== verification/NpcCorrect.v ===== *)
(** The processor is correct: after a reset it commits the sequential run of its program
    ([npc_commits_sequential_run]), and as long as the memories answer it keeps committing
    ([npc_keeps_committing]). [zero_behind_jump] is a program that the checks of the
    Verilator build abort. *)

From S2P Require Import Prelude AmBus RvSpec NpcDatapath NpcCore NpcArch NpcExec NpcLanes NpcPipe NpcRefine NpcLive.

Section Run.
Context `{ARCH : NpcArch}.

(** A run: the commits of each cycle, in order, and the state at the end. *)
Fixpoint run (s : sys) (ins : list bus_in) : list commit * sys :=
  match ins with
  | [] => ([], s)
  | i :: ins =>
      let '(cs, s') := run (sys_step s i) ins in
      (if commit_fire i (lsu (core s)) then wbu_commit (lsu (core s)) :: cs else cs, s')
  end.

Variable code : Z -> Z.

Fixpoint obeys (s : sys) (ins : list bus_in) : Prop :=
  match ins with [] => True | i :: ins => answers code s i /\ obeys (sys_step s i) ins end.

(** What a program sees when it starts. *)
Definition start (s : sys) : arch :=
  mkArch RESET_PC (rf (core s))
    (mkCsrs (mstatus (csr (core s))) (mtvec (csr (core s))) (mepc (csr (core s))) (mcause (csr (core s)))) (dmem s).

Lemma RESET_PC_aligned : RESET_PC mod 4 = 0.
Proof. unfold RESET_PC. by destruct ARCH_NPC. Qed.

Lemma reset_ifu i fd to rd rdy s : reset i = true ->
  ifu_edge i fd to rd rdy s = mkIfu AXI_IDLE RESET_PC false FENCEI_IDLE false false IFU_EMPTY RESET_PC 0 0 false 0 false.
Proof. intros Hr. unfold ifu_edge, ifu_fetch_edge, ifu_fence_edge, ifu_axi_edge. rewrite Hr. by destruct s. Qed.

Lemma reset_lsu i x rdy l : reset i = true -> lsu_busy (lsu_edge i x rdy l) = false.
Proof.
  intros Hr. rewrite lsu_edge_eq. unfold lsu_busy. cbn [lsu_state lsu_valid]. unfold lsu_state_edge, lsu_valid_edge. rewrite Hr.
  by destruct l.
Qed.

Lemma inv_reset s i : reset i = true -> inv code (start (sys_step s i)) 0 (sys_step s i).
Proof.
  intros Hr. set (s0 := sys_step s i).
  assert (lsu_busy (lsu (core s0)) = false) as Hb by (by apply reset_lsu).
  assert (exu_valid (exu (core s0)) = false) as Hx by (cbn; unfold exu_edge; rewrite Hr; by destruct (exu (core s))).
  assert (idu_valid (idu (core s0)) = false /\ fence_pending (idu (core s0)) = false) as [Hd Hp]
    by (cbn; unfold idu_edge, idu_out_edge, idu_fence_edge; rewrite Hr; by destruct (idu (core s))).
  pose proof (reset_ifu i (fencei_done i (lsu (core s))) (redirect_to (core s)) (redirect (core s) i) (idu_ready (core s) i) (ifu (core s)) Hr
    : ifu (core s0) = _) as Hi.
  assert (at_exu 0 (core s0) = 0%nat) as A1 by (unfold at_exu; by rewrite Hb).
  assert (at_idu 0 (core s0) = 0%nat) as A2 by (unfold at_idu; by rewrite A1, Hx).
  assert (at_ifu 0 (core s0) = 0%nat) as A3 by (unfold at_ifu; by rewrite A2, Hd).
  constructor; rewrite ?Hb, ?Hx, ?Hd, ?A1, ?A2, ?A3, ?Hi, ?Hp; try done.
  - constructor; cbn; [apply RESET_PC_aligned|done|done|]. by intros [|].
  - intros j Hj. lia.
  - unfold fencing. rewrite Hi. by intros [|].
Qed.

(** Nothing is under way after a reset. *)
Lemma reset_distance s i : reset i = true -> distance (core (sys_step s i)) = 8%nat.
Proof.
  intros Hr. pose proof (reset_lsu i (exu (core s)) (wbu_out_ready i) (lsu (core s)) Hr) as Hb. set (s0 := sys_step s i).
  unfold distance. change (lsu (core s0)) with (lsu_edge i (exu (core s)) (wbu_out_ready i) (lsu (core s))). rewrite Hb.
  assert (exu_valid (exu (core s0)) = false) as -> by (cbn; unfold exu_edge; rewrite Hr; by destruct (exu (core s))).
  assert (idu_valid (idu (core s0)) = false) as -> by (cbn; unfold idu_edge, idu_out_edge, idu_fence_edge; rewrite Hr; by destruct (idu (core s))).
  cbn [s0 sys_step core cycle ifu]. by rewrite reset_ifu.
Qed.

Lemma reset_requests s i : reset i = true -> requests (lsu (core (sys_step s i))).
Proof.
  intros Hr E. pose proof (reset_lsu i (exu (core s)) (wbu_out_ready i) (lsu (core s)) Hr) as Hb.
  unfold lsu_busy in Hb. apply orb_false_iff in Hb as [Hb _].
  change (lsu (core (sys_step s i))) with (lsu_edge i (exu (core s)) (wbu_out_ready i) (lsu (core s))) in E. rewrite E in Hb. discriminate Hb.
Qed.

Section From.
Variable a0 : arch.
Hypotheses (Hok0 : arch_ok a0) (Hsup : forall n, supported code (seq code a0 n)).

Lemma seq_ok n : arch_ok (seq code a0 n).
Proof. induction n as [|n IH]; [done|]. by apply a_step_ok. Qed.

Lemma run_inv ins : forall nc s, inv code a0 nc s -> obeys s ins ->
  (forall n c, fst (run s ins) !! n = Some c -> commits_as code (seq code a0 (nc + n)) c) /\
  inv code a0 (nc + length (fst (run s ins))) (snd (run s ins)).
Proof.
  induction ins as [|i ins IH]; intros nc s Hi Ho; cbn [run].
  { cbn. rewrite Nat.add_0_r. split; [by intros []|done]. }
  destruct Ho as [Ha Ho]. pose proof (inv_step code a0 nc s i Hi Ha seq_ok Hsup) as Hi'.
  specialize (IH _ _ Hi' Ho). destruct (run (sys_step s i) ins) as [cs s'] eqn:Er. cbn [fst snd] in *.
  assert (commit_fire i (lsu (core s)) = lsu_valid (lsu (core s))) as ->
    by (unfold commit_fire; by rewrite (writeback_ready code s i Ha), andb_true_r).
  pose proof (step_commit code a0 nc s Hi) as Hc.
  destruct (lsu_valid (lsu (core s))); cbn [nb] in IH.
  - destruct IH as [IH1 IH2]. split.
    + intros [|n] c; cbn; [intros [= <-]; rewrite Nat.add_0_r; by apply Hc|]. intros H. specialize (IH1 n c H).
      by replace (nc + S n)%nat with (nc + 1 + n)%nat by lia.
    + cbn [length]. by replace (nc + S (length cs))%nat with (nc + 1 + length cs)%nat by lia.
  - by rewrite Nat.add_0_r in IH.
Qed.

(** Cycles of a run in which a memory makes the processor wait. *)
Fixpoint stalls (s : sys) (ins : list bus_in) : nat :=
  match ins with [] => 0 | i :: ins => nb (waits (core s) i) + stalls (sys_step s i) ins end.

Lemma run_live ins : forall nc s, inv code a0 nc s -> obeys s ins -> requests (lsu (core s)) -> Forall paired ins ->
  (length ins <= distance (core s) + 23 * length (fst (run s ins)) + stalls s ins)%nat.
Proof.
  induction ins as [|i ins IH]; intros nc s Hi Ho Hq Hp; cbn [run length stalls]; [lia|].
  destruct Ho as [Ha Ho]. inversion_clear Hp as [|? ? Hpi Hps].
  pose proof (inv_step code a0 nc s i Hi Ha seq_ok Hsup) as Hi'. pose proof (reset_off code s i Ha) as Hr.
  specialize (IH _ _ Hi' Ho (requests_step i _ _ _ Hr Hpi Hq) Hps).
  destruct (run (sys_step s i) ins) as [cs s'] eqn:Er. cbn [fst] in *.
  assert (commit_fire i (lsu (core s)) = lsu_valid (lsu (core s))) as ->
    by (unfold commit_fire; by rewrite (writeback_ready code s i Ha), andb_true_r).
  pose proof (distance_le (core (sys_step s i))).
  destruct (lsu_valid (lsu (core s))) eqn:Ev; [cbn [length] in *; lia|].
  destruct (progress code a0 nc s i Hi Ha seq_ok Hsup Hq Ev) as [Hlt | [Hs Hle]]; cbn [core sys_step] in *; [lia|].
  rewrite (not_served_waits code a0 nc s i Hi Hq Hs). cbn [nb]. lia.
Qed.
End From.

(** C2. The processor refines the sequential machine: from any state, after one cycle of
    reset, whatever the memories do as long as they answer with the right words, the commits
    are the instructions of the sequential run, in order and with the right next pc,
    register and value, and the register file is the one of the sequential machine after as
    many instructions; so is the data memory when no access is in progress. *)
Theorem npc_commits_sequential_run (s : sys) (i : bus_in) (ins : list bus_in) :
  let s0 := sys_step s i in
  let n := length (fst (run s0 ins)) in
  let s1 := snd (run s0 ins) in
  reset i = true -> arch_ok (start s0) -> (forall n, supported code (seq code (start s0) n)) -> obeys s0 ins ->
  (forall k c, fst (run s0 ins) !! k = Some c -> commits_as code (seq code (start s0) k) c) /\
  (forall r, rf (core s1) r = a_reg (seq code (start s0) n) r) /\
  (lsu_busy (lsu (core s1)) = false -> forall k, dmem s1 k = a_mem (seq code (start s0) n) k).
Proof.
  intros s0 n s1 Hr Hok Hsup Ho. destruct (run_inv (start s0) Hok Hsup ins 0 s0) as [H1 H2]; [by apply inv_reset|done|].
  split; [exact H1|]. split; [apply H2|]. intros Hb. pose proof (iv_mem _ _ _ _ H2) as Hm. fold s1 in Hm. by rewrite Hb in Hm.
Qed.


(** Memories that answer at once. *)
Definition prompt_in (s : sys) : bus_in :=
  mkBus false true true (code (outstanding_pc (ifu (core s)))) true true (bus_word (dmem s) (araddr (lsu (core s)))) true true true.
Fixpoint drive (n : nat) (s : sys) : list bus_in :=
  match n with O => [] | S n => prompt_in s :: drive n (sys_step s (prompt_in s)) end.

Lemma drive_obeys n : forall s, obeys s (drive n s).
Proof. induction n as [|n IH]; intros s; [done|]. split; [by split_and!|apply IH]. Qed.

Lemma drive_paired n : forall s, Forall paired (drive n s).
Proof. induction n as [|n IH]; intros s; constructor; [done|apply IH]. Qed.
End Run.

(** * A program that counts in memory *)

Definition npc_arch : NpcArch := {| ARCH_NPC := true |}.
Definition soc_arch : NpcArch := {| ARCH_NPC := false |}.

Section Counter.
Context `{ARCH : NpcArch}.

(** [lui x2, 0x80001; addi x1, x1, 1; sw x1, 0(x2); lw x3, 0(x2); jal x0, -16] *)
Definition counter (pc : Z) : Z :=
  let o := pc - RESET_PC in
  if o =? 0 then 0x80001137 else if o =? 4 then 0x00108093 else if o =? 8 then 0x00112023 else if o =? 12 then 0x00012183
  else if o =? 16 then 0xff1ff06f else 0.

Definition counting (a : arch) : Prop :=
  a_pc a = RESET_PC \/ a_pc a = RESET_PC + 16 \/
  (a_pc a = RESET_PC + 4 \/ a_pc a = RESET_PC + 8 \/ a_pc a = RESET_PC + 12) /\ a_reg a 2 = 0x80001000.

Lemma counting_step a : counting a -> supported counter a /\ counting (a_step counter a).
Proof.
  unfold counting, supported, a_step, a_eff, a_instr, counter, RESET_PC.
  destruct ARCH_NPC; (intros [E | [E | [[E | [E | E]] Hx]]]; rewrite E);
    match goal with |- context [rv_decode ?w] =>
      let v := eval vm_compute in (rv_decode w) in replace (rv_decode w) with v by (vm_compute; reflexivity) end;
    cbn [effect e_npc e_rd e_val e_mem e_csr a_pc a_reg a_get Z.eqb Pos.eqb]; rewrite ?E, ?Hx; (split; [by split_and!|]).
  1, 6: right; right; split; [left; reflexivity|]; reflexivity.
  1, 5: left; reflexivity.
  1, 4: right; right; split; [right; left; reflexivity|]; reflexivity || exact Hx.
  1, 3: right; right; split; [right; right; reflexivity|]; reflexivity || exact Hx.
  all: right; left; reflexivity.
Qed.

Lemma counter_supported a : counting a -> forall n, supported counter (seq counter a n).
Proof.
  intros Ha n. apply counting_step. induction n as [|n IH]; [done|]. by apply counting_step.
Qed.

(** Everything at zero, then a cycle of reset. *)
Definition zero_sys : sys := mkSys
  (mkNpc (mkIfu AXI_IDLE 0 false FENCEI_IDLE false false IFU_EMPTY 0 0 0 false 0 false)
     (mkIdu false (decode false 0) 0 0 0 0 false 0 false)
     (mkExu false false false false 0 0 0 0 0 0 0 0 false false 0) (mkCsr 0 0 0 0 0 0)
     (mkLsu LSU_IDLE false (mkOp 0 0 0 false false 0 0 0 false false) 0 false 0 false 0 false 0 0) (fun _ => 0)) (fun _ => 0).
Definition reset_in : bus_in := mkBus true false false 0 false false 0 false false false.
Definition demo : sys := sys_step zero_sys reset_in.

Lemma demo_ok : arch_ok (start demo).
Proof. constructor; try split_and!; intros; unfold in_u; cbn; try done; unfold RESET_PC; by destruct ARCH_NPC. Qed.

Lemma demo_supported n : supported counter (seq counter (start demo) n).
Proof. apply counter_supported. by left. Qed.
End Counter.

Section Demo.
Local Existing Instance npc_arch.

(** Sixty cycles with prompt memories: thirteen commits, those of the sequential run. *)
Lemma npc_commits_sequential_run_witness :
  (forall k c, fst (run demo (drive counter 60 demo)) !! k = Some c -> commits_as counter (seq counter (start demo) k) c) /\
  map commit_pc (fst (run demo (drive counter 60 demo))) =
    [0x80000000; 0x80000004; 0x80000008; 0x8000000c; 0x80000010; 0x80000000; 0x80000004; 0x80000008;
     0x8000000c; 0x80000010; 0x80000000; 0x80000004; 0x80000008].
Proof.
  split; [|vm_compute; reflexivity].
  apply (npc_commits_sequential_run counter zero_sys reset_in (drive counter 60 demo));
    [reflexivity|apply demo_ok|apply demo_supported|apply drive_obeys].
Defined.


(** A data memory that does not answer, and a program that loads, counts and jumps back:
    [lui x2, 0x80001; lw x3, 0(x2); addi x1, x1, 1; jal x0, -12]. *)
Definition silent_in (code : Z -> Z) (s : sys) : bus_in :=
  mkBus false true true (code (outstanding_pc (ifu (core s)))) true false 0 true true true.
Fixpoint silent (code : Z -> Z) (n : nat) (s : sys) : list bus_in :=
  match n with O => [] | S n => silent_in code s :: silent code n (sys_step s (silent_in code s)) end.
Definition spin (pc : Z) : Z :=
  let o := pc - RESET_PC in
  if o =? 0 then 0x80001137 else if o =? 4 then 0x00012183 else if o =? 8 then 0x00108093 else if o =? 12 then 0xff5ff06f else 0.

(** The checks of the design reject what a program may well contain: while the jump waits
    behind a load, the word behind it is fetched, and a zero there ends the simulation,
    although the word is never executed. *)
Example zero_behind_jump :
  let s := snd (run demo (silent spin 18 demo)) in
  idu_inst (idu (core s)) = 0xff5ff06f /\ outstanding_pc (ifu (core s)) = RESET_PC + 16 /\ spin (RESET_PC + 16) = 0 /\
  fatal (core s) (silent_in spin s) = true.
Proof. vm_compute. auto. Qed.

(** The program is about to write: the memory takes the address alone. *)
Definition storing : sys := snd (run demo (drive counter 14 demo)).
Definition split_in : bus_in := mkBus false true false 0 true false 0 true false false.

Lemma split_write_never_ends_witness :
  let s' := fold_left sys_step (repeat (prompt_in counter demo) 1000) (sys_step storing split_in) in
  lsu_state (lsu (core s')) = LSU_WRITE_REQ /\ lsu_valid (lsu (core s')) = false.
Proof.
  apply (split_write_never_ends storing split_in (repeat (prompt_in counter demo) 1000)); try (vm_compute; reflexivity);
    [vm_compute; discriminate|]. apply Forall_forall. intros i Hi. apply list_elem_of_In, repeat_spec in Hi. by subst.
Defined.
End Demo.
