(* ===== verification/NpcCache.v ===== *)
(** The instruction cache [ICACHE.sv] of the ysyxsoc configuration, between [IFU.sv] and a
    memory that answers bursts, and the whole processor with it.

    The cache is direct mapped: four lines of sixteen bytes, filled by a burst of four words.
    [cached_commits_sequential_run] shows that the processor behind the cache still commits
    the sequential run, whatever the timing of the bursts. *)

From S2P Require Import Prelude AmBus RvSpec NpcDatapath NpcCore NpcArch NpcExec NpcLanes NpcPipe NpcRefine NpcLive NpcCorrect.

(** * [ICACHE.sv] *)

Definition OFFSET_WIDTH : Z := 4.
Definition INDEX_WIDTH : Z := 2.
Definition WORDS_PER_LINE : Z := 4.

Inductive icache_state_t : Type := IC_IDLE | IC_RESP | IC_SEND_AR | IC_WAIT_R.
#[global] Instance icache_state_eq : EqDecision icache_state_t.
Proof. solve_decision. Defined.

Record icache : Type := mkIcache {
  ic_state : icache_state_t;
  req_word_offset : Z; refill_addr : Z; refill_cnt : Z;
  tag_array : Z -> Z; data_array : Z -> Z; valid_array : Z -> bool;
  in_rvalid : bool; in_rdata : Z;
  out_arvalid : bool; out_araddr : Z; out_arlen : Z; out_arsize : Z; out_arburst : Z;
}.
#[global] Instance eta_icache : Eta icache := fun c =>
  mkIcache (ic_state c) (req_word_offset c) (refill_addr c) (refill_cnt c) (tag_array c) (data_array c) (valid_array c)
    (in_rvalid c) (in_rdata c) (out_arvalid c) (out_araddr c) (out_arlen c) (out_arsize c) (out_arburst c).

Definition tag_of (addr : Z) : Z := slice addr 31 (OFFSET_WIDTH + INDEX_WIDTH).
Definition index_of (addr : Z) : Z := slice addr (OFFSET_WIDTH + INDEX_WIDTH - 1) OFFSET_WIDTH.
Definition offset_of (addr : Z) : Z := slice addr (OFFSET_WIDTH - 1) 0.
Definition line_of (addr : Z) : Z := cat OFFSET_WIDTH (slice addr 31 OFFSET_WIDTH) 0.

(** [w[hi:lo] <= v] and an element of an array. *)
Definition put_slice (w hi lo v : Z) : Z := cat lo (cat (hi - lo + 1) (w / 2 ^ (hi + 1)) v) (w mod 2 ^ lo).
Definition put {A} (f : Z -> A) (k : Z) (v : A) : Z -> A := fun j => if j =? k then v else f j.

(** The answers of the memory behind the cache. *)
Record burst_in : Type := mkBurst { out_arready : bool; out_rvalid : bool; out_rdata : Z; out_rlast : bool }.

Section Icache.
Variables (reset in_icache_flush : bool) (in_arvalid : bool) (in_araddr : Z) (in_rready : bool) (b : burst_in) (c : icache).

Definition in_arready : bool := bool_decide (ic_state c = IC_IDLE).
Definition out_rready : bool := bool_decide (ic_state c = IC_WAIT_R).

Definition icache_edge : icache :=
  if reset then
    c <| refill_addr := 0 |> <| valid_array := fun _ => false |> <| in_rvalid := false |> <| out_arvalid := false |> <| ic_state := IC_IDLE |>
  else if in_icache_flush then c <| valid_array := fun _ => false |>
  else match ic_state c with
  | IC_IDLE =>
      if in_arvalid && in_arready then
        if valid_array c (index_of in_araddr) && (tag_array c (index_of in_araddr) =? tag_of in_araddr) then
          c <| in_rdata := slice (data_array c (index_of in_araddr)) (offset_of in_araddr * 8 + 31) (offset_of in_araddr * 8) |>
            <| in_rvalid := true |> <| ic_state := IC_RESP |>
        else
          c <| refill_cnt := 0 |> <| req_word_offset := slice in_araddr (OFFSET_WIDTH - 1) 2 |>
            <| refill_addr := line_of in_araddr |> <| out_araddr := line_of in_araddr |> <| out_arvalid := true |>
            <| out_arburst := 1 |> <| out_arlen := WORDS_PER_LINE - 1 |> <| out_arsize := 2 |> <| ic_state := IC_SEND_AR |>
      else c
  | IC_RESP => if in_rvalid c && in_rready then c <| in_rvalid := false |> <| ic_state := IC_IDLE |> else c
  | IC_SEND_AR =>
      if out_arvalid c && out_arready b then
        c <| out_arvalid := false |> <| out_arburst := 0 |> <| out_arlen := 0 |> <| out_arsize := 0 |> <| ic_state := IC_WAIT_R |>
      else c
  | IC_WAIT_R =>
      if out_rvalid b && out_rready then
        let i := index_of (refill_addr c) in
        let o := offset_of (refill_addr c) in
        let n := c <| data_array := put (data_array c) i (put_slice (data_array c i) (o * 8 + 31) (o * 8) (out_rdata b)) |> in
        if out_rlast b then
          n <| valid_array := put (valid_array c) i true |> <| tag_array := put (tag_array c) i (tag_of (refill_addr c)) |>
            <| in_rdata := if req_word_offset c =? refill_cnt c then out_rdata b
                 else slice (data_array c i) (req_word_offset c * 32 + 31) (req_word_offset c * 32) |>
            <| in_rvalid := true |> <| ic_state := IC_RESP |>
        else
          n <| refill_addr := u32 (refill_addr c + 4) |> <| refill_cnt := (refill_cnt c + 1) mod 4 |>
      else c
  end.
End Icache.

(** * Part selects *)

Lemma cat_bits n a b k : 0 <= n -> 0 <= b < 2 ^ n -> 0 <= k -> Z.testbit (cat n a b) k = if k <? n then Z.testbit b k else Z.testbit a (k - n).
Proof.
  intros Hn Hb Hk. destruct (Z.ltb_spec k n); [|by apply cat_top]. unfold cat.
  rewrite <- (Z.mod_pow2_bits_low _ n) by lia. by rewrite Z.add_comm, Z.mod_add, Z.mod_small by lia.
Qed.

Lemma put_slice_bits w hi lo v k : 0 <= lo <= hi -> 0 <= v < 2 ^ (hi - lo + 1) -> 0 <= k ->
  Z.testbit (put_slice w hi lo v) k = if (lo <=? k) && (k <=? hi) then Z.testbit v (k - lo) else Z.testbit w k.
Proof.
  intros Hl Hv Hk. unfold put_slice. rewrite cat_bits by (try apply Z.mod_pos_bound; try apply Z.pow_pos_nonneg; lia).
  destruct (Z.ltb_spec k lo); [rewrite (proj2 (Z.leb_gt lo k)) by lia; by rewrite Z.mod_pow2_bits_low by lia|].
  rewrite (proj2 (Z.leb_le lo k)) by lia. cbn [andb]. rewrite cat_bits by lia.
  destruct (Z.ltb_spec (k - lo) (hi - lo + 1)), (Z.leb_spec k hi); try lia; [done|].
  rewrite Z.div_pow2_bits by lia. f_equal. lia.
Qed.

Lemma slice_bits w hi lo k : 0 <= lo <= hi -> 0 <= k -> Z.testbit (slice w hi lo) k = (k <=? hi - lo) && Z.testbit w (k + lo).
Proof.
  intros Hl Hk. destruct (Z.leb_spec k (hi - lo)).
  - rewrite testbit_slice by lia. cbn. f_equal. lia.
  - unfold slice. by rewrite Z.mod_pow2_bits_high by lia.
Qed.

(** A word of a line is written; the others stay. *)
Lemma word_put d i v : 0 <= i -> in_u 32 v -> slice (put_slice d (i * 32 + 31) (i * 32) v) (i * 32 + 31) (i * 32) = v.
Proof.
  intros Hi Hv. apply Z.bits_inj'. intros k Hk. rewrite slice_bits, put_slice_bits by (unfold in_u in Hv; replace (i * 32 + 31 - i * 32 + 1) with 32 by lia; lia).
  destruct (Z.leb_spec k (i * 32 + 31 - i * 32)); cbn [andb].
  - rewrite (proj2 (Z.leb_le _ _)), (proj2 (Z.leb_le _ _)) by lia. cbn. f_equal. lia.
  - symmetry. apply (testbit_above v 32); [done | lia].
Qed.

Lemma word_put_other d i j v : 0 <= i -> 0 <= j -> i <> j -> in_u 32 v ->
  slice (put_slice d (i * 32 + 31) (i * 32) v) (j * 32 + 31) (j * 32) = slice d (j * 32 + 31) (j * 32).
Proof.
  intros Hi Hj Hn Hv. apply Z.bits_inj'. intros k Hk. rewrite !slice_bits by lia. destruct (Z.leb_spec k (j * 32 + 31 - j * 32)); [|done]. cbn [andb].
  rewrite put_slice_bits by (unfold in_u in Hv; replace (i * 32 + 31 - i * 32 + 1) with 32 by lia; lia).
  destruct (Z.leb_spec (i * 32) (k + j * 32)), (Z.leb_spec (k + j * 32) (i * 32 + 31)); cbn; try done. exfalso. nia.
Qed.

(** * Addresses *)

Lemma slice_eq w hi lo : slice w hi lo = w / 2 ^ lo mod 2 ^ (hi - lo + 1).
Proof. reflexivity. Qed.

Ltac addresses :=
  unfold tag_of, index_of, offset_of, line_of, cat, OFFSET_WIDTH, INDEX_WIDTH, in_u in *; rewrite ?slice_eq in *; numerals;
  repeat match goal with H : context [2 ^ ?n] |- _ => let v := eval vm_compute in (2 ^ n) in change (2 ^ n) with v in H end; dlia.

Lemma addr_split a : in_u 32 a -> a mod 4 = 0 -> a = line_of a + 4 * slice a 3 2 /\ 0 <= slice a 3 2 < 4.
Proof. intros H1 H2. addresses. Qed.

Lemma offset_word a : in_u 32 a -> a mod 4 = 0 -> offset_of a * 8 = slice a 3 2 * 32.
Proof. intros H1 H2. addresses. Qed.

Lemma line_parts a : in_u 32 a -> line_of a = tag_of a * 64 + index_of a * 16 /\ 0 <= index_of a < 4.
Proof. intros H. addresses. Qed.

Lemma in_line a w : in_u 32 a -> 0 <= w < 4 ->
  index_of (line_of a + 4 * w) = index_of a /\ tag_of (line_of a + 4 * w) = tag_of a /\ offset_of (line_of a + 4 * w) * 8 = w * 32 /\
  (w < 3 -> u32 (line_of a + 4 * w + 4) = line_of a + 4 * (w + 1)).
Proof. intros H Hw. split_and!; [addresses..|]. intros. unfold wrap. addresses. Qed.

(** * The processor with its cache *)

Record chip : Type := mkChip { chip_sys : sys; chip_cache : icache }.

Section Chip.
Context `{ARCH : NpcArch}.

(** The instruction port is the cache; of [i] only the reset and the data port are used. *)
Definition port (k : icache) (i : bus_in) : bus_in :=
  mkBus (reset i) (in_arready k) (in_rvalid k) (in_rdata k)
    (l_arready i) (l_rvalid i) (l_rdata i) (l_awready i) (l_wready i) (l_bvalid i).

Definition chip_step (ch : chip) (i : bus_in) (b : burst_in) : chip :=
  let c := core (chip_sys ch) in
  let p := port (chip_cache ch) i in
  mkChip (sys_step (chip_sys ch) p)
    (icache_edge (reset i) (out_icache_flush (ifu c)) (ifu_arvalid (ifu c)) (outstanding_pc (ifu c))
       (ifu_rready (redirect c p) (idu_ready c p) (ifu c)) b (chip_cache ch)).

Fixpoint chip_run (ch : chip) (ins : list (bus_in * burst_in)) : list commit * chip :=
  match ins with
  | [] => ([], ch)
  | (i, b) :: ins =>
      let '(cs, ch') := chip_run (chip_step ch i b) ins in
      (if commit_fire i (lsu (core (chip_sys ch))) then wbu_commit (lsu (core (chip_sys ch))) :: cs else cs, ch')
  end.

Fixpoint ports (ch : chip) (ins : list (bus_in * burst_in)) : list bus_in :=
  match ins with [] => [] | (i, b) :: ins => port (chip_cache ch) i :: ports (chip_step ch i b) ins end.

Lemma chip_run_eq ins : forall ch,
  fst (chip_run ch ins) = fst (run (chip_sys ch) (ports ch ins)) /\
  chip_sys (snd (chip_run ch ins)) = snd (run (chip_sys ch) (ports ch ins)).
Proof.
  induction ins as [|[i b] ins IH]; intros ch; [done|]. cbn [chip_run ports run]. specialize (IH (chip_step ch i b)).
  cbn [chip_step chip_sys] in IH. destruct (chip_run (chip_step ch i b) ins), (run _ _). cbn in *. destruct IH as [-> ->]. done.
Qed.

Variable code : Z -> Z.
Hypothesis Hcode : forall a, in_u 32 (code a).

(** The memory behind the cache answers the beats of a burst in order, and marks the fourth. *)
Definition bursts (k : icache) (b : burst_in) : Prop :=
  ic_state k = IC_WAIT_R -> out_rvalid b = true ->
  out_rdata b = code (out_araddr k + 4 * refill_cnt k) /\ out_rlast b = (refill_cnt k =? 3).

Fixpoint chip_obeys (ch : chip) (ins : list (bus_in * burst_in)) : Prop :=
  match ins with
  | [] => True
  | (i, b) :: ins =>
      let s := chip_sys ch in
      (reset i = false /\ (l_rvalid i = true -> lsu_state (lsu (core s)) = LSU_WAIT_R -> l_rdata i = bus_word (dmem s) (araddr (lsu (core s)))) /\
       bursts (chip_cache ch) b) /\
      chip_obeys (chip_step ch i b) ins
  end.

(** ** The invariant of the cache *)

Definition line_word (d w : Z) : Z := slice d (w * 32 + 31) (w * 32).

Definition filling (k : icache) (idx : Z) : bool :=
  (bool_decide (ic_state k = IC_SEND_AR) || bool_decide (ic_state k = IC_WAIT_R)) && (idx =? index_of (refill_addr k)).

(** The refill of the line of [a] has come to word [refill_cnt]. *)
Record refills (a : Z) (k : icache) : Prop := mkRefills {
  re_req : req_word_offset k = slice a 3 2;
  re_line : out_araddr k = line_of a;
  re_cnt : 0 <= refill_cnt k < 4;
  re_addr : refill_addr k = line_of a + 4 * refill_cnt k;
  re_words : forall w, 0 <= w < refill_cnt k -> line_word (data_array k (index_of a)) w = code (line_of a + 4 * w);
}.

Record cache_inv (f : ifu_st) (k : icache) : Prop := mkCacheInv {
  ci_range : in_u 32 (outstanding_pc f);
  ci_aligned : outstanding_pc f mod 4 = 0;
  ci_flush : out_icache_flush f = true -> fencei_state f = FENCEI_BUSY /\ axi_state f = AXI_IDLE;
  ci_rvalid : in_rvalid k = bool_decide (ic_state k = IC_RESP);
  ci_lines : forall idx, 0 <= idx < 4 -> valid_array k idx = true -> filling k idx = false ->
    forall w, 0 <= w < 4 -> line_word (data_array k idx) w = code (tag_array k idx * 64 + idx * 16 + 4 * w);
  ci_state : match ic_state k with
    | IC_IDLE => axi_state f <> AXI_WAIT_R
    | IC_RESP => axi_state f = AXI_WAIT_R /\ in_rdata k = code (outstanding_pc f)
    | IC_SEND_AR | IC_WAIT_R => axi_state f = AXI_WAIT_R /\ refills (outstanding_pc f) k
    end;
}.

(** The read port of [IFU] over one edge. *)
Section IfuEdge.
Variables (i : bus_in) (fd : bool) (to : Z) (rd rdy : bool) (s : ifu_st).
Hypothesis Hr : reset i = false.
Let e := ifu_edge i fd to rd rdy s.

Lemma fetch_block_axi n : let f := ifu_fetch_edge i fd to rd rdy s n in
  axi_state f = axi_state n /\ outstanding_pc f = outstanding_pc n /\ out_icache_flush f = out_icache_flush n.
Proof. unfold ifu_fetch_edge. by repeat case_match. Qed.

Lemma fence_block_axi n : let f := ifu_fence_edge i fd s n in axi_state f = axi_state n /\ outstanding_pc f = outstanding_pc n.
Proof. unfold ifu_fence_edge. by repeat case_match. Qed.

Lemma axi_block_flush n : out_icache_flush (ifu_axi_edge i fd rd rdy s n) = out_icache_flush n.
Proof. unfold ifu_axi_edge. by repeat case_match. Qed.

Lemma ifu_edge_axi : axi_state e = axi_state (ifu_axi_edge i fd rd rdy s s) /\ outstanding_pc e = outstanding_pc (ifu_axi_edge i fd rd rdy s s).
Proof.
  unfold e, ifu_edge. destruct (fetch_block_axi (ifu_fence_edge i fd s (ifu_axi_edge i fd rd rdy s s))) as (-> & -> & _).
  apply fence_block_axi.
Qed.

(** The flush pulse comes while no request is on its way. *)
Lemma ifu_edge_flush : (out_icache_flush s = true -> fencei_state s = FENCEI_BUSY /\ axi_state s = AXI_IDLE) ->
  out_icache_flush e = true -> fencei_state e = FENCEI_BUSY /\ axi_state e = AXI_IDLE.
Proof.
  intros Hf He. destruct (ifu_edge_fence i fd to rd rdy s Hr) as [Es _]. fold e in Es. destruct ifu_edge_axi as [-> _]. rewrite Es.
  revert He. unfold e, ifu_edge. destruct (fetch_block_axi (ifu_fence_edge i fd s (ifu_axi_edge i fd rd rdy s s))) as (_ & _ & ->).
  unfold ifu_fence_edge. rewrite Hr. pose proof (axi_block_flush s) as Ha. destruct (fencei_state s) eqn:E; [| |done].
  - intros He. assert (out_icache_flush s = true) as Hs by (rewrite <- Ha; destruct fd; exact He). apply Hf in Hs as [? _]. congruence.
  - destruct (bool_decide (axi_state s = AXI_IDLE) && i_arready i) eqn:Ea.
    + intros _. split; [done|]. apply andb_true_iff in Ea as [Ea%bool_decide_eq_true _].
      unfold ifu_axi_edge. rewrite Hr, Ea, E. decided. cbn [andb]. by destruct s; cbn in *.
    + intros He. assert (out_icache_flush s = true) as Hs by (rewrite <- Ha; exact He). apply Hf in Hs as [? _]. congruence.
Qed.
End IfuEdge.

(** ** The cache over one edge *)

Local Ltac decided_in H :=
  repeat match type of H with
  | context [bool_decide ?P] =>
      let v := eval vm_compute in (bool_decide P) in
      match v with true => idtac | false => idtac end; change (bool_decide P) with v in H
  end.

Lemma filling_idle k idx : ic_state k = IC_IDLE \/ ic_state k = IC_RESP -> filling k idx = false.
Proof. unfold filling. by intros [-> | ->]. Qed.

(** A hit. *)
Lemma hit_word f k : cache_inv f k -> ic_state k = IC_IDLE -> valid_array k (index_of (outstanding_pc f)) = true ->
  tag_array k (index_of (outstanding_pc f)) = tag_of (outstanding_pc f) ->
  slice (data_array k (index_of (outstanding_pc f))) (offset_of (outstanding_pc f) * 8 + 31) (offset_of (outstanding_pc f) * 8) =
  code (outstanding_pc f).
Proof.
  intros [C1 C2 _ _ C5 _] Hs Hv Ht. set (a := outstanding_pc f) in *. rewrite (offset_word a C1 C2).
  destruct (addr_split a C1 C2) as [Ea Hw], (line_parts a C1) as [El Hi].
  rewrite (C5 _ Hi Hv (filling_idle _ _ (or_introl Hs)) _ Hw : slice _ _ _ = _), Ht. f_equal. lia.
Qed.

(** A beat of the refill. *)
Lemma beat_stored a k b : in_u 32 a -> refills a k -> out_rdata b = code (out_araddr k + 4 * refill_cnt k) ->
  let i := index_of (refill_addr k) in
  let o := offset_of (refill_addr k) in
  let d := put_slice (data_array k i) (o * 8 + 31) (o * 8) (out_rdata b) in
  i = index_of a /\ tag_of (refill_addr k) = tag_of a /\
  (forall w, 0 <= w < refill_cnt k + 1 -> line_word d w = code (line_of a + 4 * w)).
Proof.
  intros Ha [R1 R2 R3 R4 R5] Hb. cbv zeta. rewrite R4. destruct (in_line a (refill_cnt k) Ha R3) as (-> & -> & -> & _).
  split_and!; [done..|]. intros w Hw. rewrite Hb, R2. unfold line_word.
  destruct (Z.eq_dec w (refill_cnt k)) as [-> | Hn]; [apply word_put; [lia|apply Hcode]|].
  rewrite word_put_other by (lia || apply Hcode). apply R5. lia.
Qed.

Local Ltac regs := cbn -[ifu_edge bool_decide line_word index_of tag_of offset_of line_of put_slice put slice wrap Z.mul Z.add Z.modulo].

Section CacheStep.
Variables (f : ifu_st) (k : icache) (i : bus_in) (b : burst_in) (fd : bool) (to : Z) (rd rdy : bool).
Hypotheses (Hr : reset i = false) (Hinv : cache_inv f k) (Hb : bursts k b) (Hfp : in_u 32 (fetch_pc f)).

Local Abbreviation p := (port k i).
Local Abbreviation f' := (ifu_edge (port k i) fd to rd rdy f).
Local Abbreviation k' := (icache_edge false (out_icache_flush f) (ifu_arvalid f) (outstanding_pc f) (ifu_rready rd rdy f) b k).

(** While a request is answered, [IFU] waits with its address. *)
Lemma waiting : axi_state f = AXI_WAIT_R ->
  axi_state f' = (if in_rvalid k && ifu_rready rd rdy f then AXI_IDLE else AXI_WAIT_R) /\ outstanding_pc f' = outstanding_pc f.
Proof.
  intros Hw. destruct (ifu_edge_axi p fd to rd rdy f Hr) as [-> ->]. unfold ifu_axi_edge. cbn [reset port]. rewrite Hr, Hw.
  change (ifu_r_fire p rd rdy f) with (in_rvalid k && ifu_rready rd rdy f). destruct (in_rvalid k && _); [by destruct f|].
  destruct rd; by destruct f.
Qed.

(** Without a request, the next one starts with an aligned address in range. *)
Lemma requesting : axi_state f <> AXI_WAIT_R -> ic_state k = IC_IDLE ->
  in_u 32 (outstanding_pc f') /\ outstanding_pc f' mod 4 = 0 /\
  if ifu_arvalid f then axi_state f' = AXI_WAIT_R /\ outstanding_pc f' = outstanding_pc f else axi_state f' <> AXI_WAIT_R.
Proof.
  intros Hw Hk. destruct Hinv as [C1 C2 _ _ _ _]. destruct (ifu_edge_axi p fd to rd rdy f Hr) as [-> ->].
  unfold ifu_axi_edge, ifu_arvalid, ifu_ar_fire, ifu_arvalid. cbn [reset port i_arready]. unfold in_arready. rewrite Hr, Hk.
  destruct (axi_state f) eqn:Ea; [| |done]; decided; cbn [andb].
  - case_match; [|cbn; split_and!; [done|done|congruence]]. cbn. split_and!; [done| |done].
    rewrite !andb_true_iff in H. destruct H as [[_ H%negb_true_iff] _]. unfold fetch_pc_misaligned in H.
    rewrite slice_low in H. by apply negb_false_iff, Z.eqb_eq in H.
  - destruct rd; cbn; by split_and!.
Qed.

Lemma cache_step : cache_inv f' k'.
Proof.
  pose proof Hinv as [C1 C2 C3 C4 C5 C6].
  assert (out_icache_flush f' = true -> fencei_state f' = FENCEI_BUSY /\ axi_state f' = AXI_IDLE) as C3' by (by apply ifu_edge_flush).
  destruct (out_icache_flush f) eqn:Ef.
  { destruct (C3 eq_refl) as [_ Ha]. rewrite Ha in C6. destruct (ic_state k) eqn:Ek; try (by destruct C6).
    destruct (requesting ltac:(congruence) Ek) as (Q1 & Q2 & Q3). unfold ifu_arvalid in Q3. rewrite Ha in Q3. cbn in Q3.
    unfold icache_edge. constructor; regs; rewrite ?Ek; done. }
  unfold icache_edge. destruct (ic_state k) eqn:Ek.
  - destruct (requesting C6 Ek) as (Q1 & Q2 & Q3). unfold in_arready. rewrite Ek. decided. rewrite andb_true_r.
    destruct (ifu_arvalid f) eqn:Ea; [destruct Q3 as [Q3 Q4]|by constructor; rewrite ?Ek].
    destruct (valid_array k _ && _) eqn:Eh.
    + apply andb_true_iff in Eh as [Eh Et%Z.eqb_eq]. pose proof (hit_word f k Hinv Ek Eh Et) as Hh.
      constructor; regs; try done; [|by rewrite Q4].
      intros idx Hi Hv _ w Hw. apply C5; try done. by apply filling_idle; left.
    + constructor; regs; try done.
      * intros idx Hi Hv _ w Hw. apply C5; try done. by apply filling_idle; left.
      * split; [done|]. rewrite Q4. constructor; regs; try done; lia.
  - destruct C6 as [Ha Hd]. destruct (waiting Ha) as [W1 W2]. rewrite C4 in W1. decided_in W1. cbn [andb] in W1.
    rewrite C4. decided. cbn [andb]. destruct (ifu_rready rd rdy f); constructor; regs; try exact C3'; rewrite ?W1, ?W2, ?Ek; try done.
    intros idx Hi Hv _ w Hw. apply C5; try done. by apply filling_idle; right.
  - destruct C6 as [Ha Hd]. destruct (waiting Ha) as [W1 W2]. rewrite C4 in W1. decided_in W1. cbn [andb] in W1.
    destruct (out_arvalid k && out_arready b); constructor; regs; try exact C3'; rewrite ?W1, ?W2, ?Ek; try done.
    + intros idx Hi Hv Hf w Hw. apply C5; try done. unfold filling in *. rewrite Ek. exact Hf.
    + split; [done|]. by destruct Hd; constructor.
  - destruct C6 as [Ha Hd]. destruct (waiting Ha) as [W1 W2]. rewrite C4 in W1. decided_in W1. cbn [andb] in W1.
    unfold out_rready. rewrite Ek. decided. rewrite andb_true_r.
    destruct (out_rvalid b) eqn:Eb; [|constructor; try exact C3'; rewrite ?W1, ?W2, ?Ek; done].
    destruct (Hb Ek Eb) as [B1 B2]. destruct (beat_stored _ k b C1 Hd B1) as (S1 & S2 & S3). destruct Hd as [R1 R2 R3 R4 R5].
    cbv zeta. rewrite S1, S2, B2 in *. set (a := outstanding_pc f) in *.
    destruct (addr_split a C1 C2) as [Ea Hw], (line_parts a C1) as [El Hi].
    assert (forall idx w, 0 <= idx < 4 -> idx <> index_of a -> valid_array k idx = true -> 0 <= w < 4 ->
      line_word (data_array k idx) w = code (tag_array k idx * 64 + idx * 16 + 4 * w)) as Hother.
    { intros idx w H1 H2 H3 H4. apply C5; try done. unfold filling. rewrite S1. apply Z.eqb_neq in H2. by rewrite H2, andb_false_r. }
    destruct (Z.eqb_spec (refill_cnt k) 3) as [E3|E3]; constructor; regs; try exact C3'; rewrite ?W1, ?W2, ?Ek; try done.
    + intros idx H1 Hv _ w H2. unfold put in *. destruct (Z.eqb_spec idx (index_of a)) as [-> | Hn]; [|by apply Hother].
      rewrite S3 by lia. f_equal. lia.
    + split; [done|]. rewrite R1. destruct (Z.eqb_spec (slice a 3 2) (refill_cnt k)) as [E|E].
      * rewrite B1, R2, <- E. f_equal. fold a. lia.
      * pose proof (R5 (slice a 3 2) ltac:(lia)) as R. unfold line_word in R. rewrite R. f_equal. fold a. lia.
    + intros idx H1 Hv Hf w H2. unfold put. destruct (Z.eqb_spec idx (index_of a)) as [-> | Hn]; [|by apply Hother].
      exfalso. revert Hf. unfold filling. regs. rewrite R4. destruct (in_line a (refill_cnt k) C1 R3) as (_ & _ & _ & ->); [|lia].
      destruct (in_line a (refill_cnt k + 1) C1 ltac:(lia)) as (-> & _). rewrite Z.eqb_refl, Ek. decided. done.
    + split; [done|]. constructor; regs; try done; fold a.
      * apply Z.mod_pos_bound. lia.
      * rewrite R4. destruct (in_line a (refill_cnt k) C1 R3) as (_ & _ & _ & ->); [|lia]. by rewrite Z.mod_small by lia.
      * intros w H. rewrite Z.mod_small in H by lia. unfold put. rewrite Z.eqb_refl. by apply S3.
Qed.
End CacheStep.

(** ** The run of the processor with its cache *)

Lemma cache_answers k i f : cache_inv f k ->
  i_rvalid (port k i) = true -> axi_state f = AXI_WAIT_R -> i_rdata (port k i) = code (outstanding_pc f).
Proof.
  intros [_ _ _ C4 _ C6] Hv Ha. cbn in Hv |- *. rewrite C4 in Hv. apply bool_decide_eq_true in Hv. rewrite Hv in C6. apply C6.
Qed.

Section From.
Variable a0 : arch.
Hypotheses (Hok0 : arch_ok a0) (Hsup : forall n, supported code (seq code a0 n)).

Lemma fetch_range nc s : inv code a0 nc s -> in_u 32 (fetch_pc (ifu (core s))).
Proof.
  intros Hi. pose proof (iv_ifu _ _ _ _ Hi) as [_ Hs _ _].
  assert (forall n, in_u 32 (a_pc (seq code a0 n))) as Hp by (intros n; apply (seq_ok code a0 Hok0 n)).
  destruct (ifu_state _); [destruct Hs as [-> _]; case_match; [by apply wrap_in_u|apply Hp]|].
  destruct Hs as (_ & _ & -> & _). by apply wrap_in_u.
Qed.

Lemma ports_obey ins : forall nc ch, inv code a0 nc (chip_sys ch) -> cache_inv (ifu (core (chip_sys ch))) (chip_cache ch) ->
  chip_obeys ch ins -> obeys code (chip_sys ch) (ports ch ins).
Proof.
  induction ins as [|[i b] ins IH]; intros nc ch Hi Hc Ho; [done|]. destruct Ho as [(Hr & Hd & Hb) Ho]. cbn [ports obeys].
  assert (answers code (chip_sys ch) (port (chip_cache ch) i)) as Ha.
  { split_and!; [done| |done]. by apply cache_answers. }
  split; [done|]. apply (IH (nc + nb (lsu_valid (lsu (core (chip_sys ch)))))%nat (chip_step ch i b)); [| |done].
  - exact (inv_step code a0 nc _ _ Hi Ha (seq_ok code a0 Hok0) Hsup).
  - cbn [chip_step chip_sys chip_cache]. rewrite Hr. cbn [sys_step core cycle ifu].
    apply cache_step; try done. by apply (fetch_range nc).
Qed.
End From.

Lemma cache_reset ch i b : reset i = true ->
  cache_inv (ifu (core (chip_sys (chip_step ch i b)))) (chip_cache (chip_step ch i b)).
Proof.
  intros Hr. cbn [chip_step chip_sys chip_cache sys_step core cycle ifu]. rewrite reset_ifu by done. unfold icache_edge. rewrite Hr.
  constructor; cbn; try done; unfold RESET_PC; destruct ARCH_NPC; try done; unfold in_u; lia.
Qed.

(** C9. The processor behind its instruction cache still commits the sequential run: after a
    cycle of reset, whatever the memory behind the cache does as long as the beats of a burst
    are the words of the line in order, every answer of the cache is the word at the
    requested address, through hits, refills and flushes, so the commits and the registers
    are those of the sequential machine. *)
Theorem cached_commits_sequential_run (ch : chip) (i : bus_in) (b : burst_in) (ins : list (bus_in * burst_in)) :
  let ch0 := chip_step ch i b in
  let a0 := start (chip_sys ch0) in
  let cs := fst (chip_run ch0 ins) in
  reset i = true -> arch_ok a0 -> (forall n, supported code (seq code a0 n)) -> chip_obeys ch0 ins ->
  (forall k c, cs !! k = Some c -> commits_as code (seq code a0 k) c) /\
  (forall r, rf (core (chip_sys (snd (chip_run ch0 ins)))) r = a_reg (seq code a0 (length cs)) r).
Proof.
  intros ch0 a0 cs Hr Hok Hsup Ho. destruct (chip_run_eq ins ch0) as [Ec Es]. unfold cs. rewrite Ec, Es.
  pose proof (inv_reset code (chip_sys ch) (port (chip_cache ch) i) Hr : inv code a0 0 (chip_sys ch0)) as Hi.
  pose proof (ports_obey a0 Hok Hsup ins 0 ch0 Hi (cache_reset ch i b Hr) Ho) as Hob.
  destruct (run_inv code a0 Hok Hsup (ports ch0 ins) 0 (chip_sys ch0) Hi Hob) as [H1 H2]. split; [exact H1|apply H2].
Qed.

(** A memory that answers bursts at once. *)
Definition prompt_burst (k : icache) : burst_in := mkBurst true true (code (out_araddr k + 4 * refill_cnt k)) (refill_cnt k =? 3).
Fixpoint chip_drive (n : nat) (ch : chip) : list (bus_in * burst_in) :=
  match n with
  | O => []
  | S n => let i := prompt_in code (chip_sys ch) in let b := prompt_burst (chip_cache ch) in (i, b) :: chip_drive n (chip_step ch i b)
  end.

Lemma chip_drive_obeys n : forall ch, chip_obeys ch (chip_drive n ch).
Proof. induction n as [|n IH]; intros ch; [done|]. split; [by split_and!|apply IH]. Qed.
End Chip.

Section Demo.
Local Existing Instance soc_arch.

Definition zero_chip : chip :=
  mkChip zero_sys (mkIcache IC_IDLE 0 0 0 (fun _ => 0) (fun _ => 0) (fun _ => false) false 0 false 0 0 0 0).
Definition chip_demo : chip := chip_step zero_chip reset_in (mkBurst false false 0 false).

Lemma counter_word a : in_u 32 (counter a).
Proof. unfold counter. repeat case_match; by unfold in_u. Qed.

(** Eighty cycles: the first round of the loop misses twice, the others hit. *)
Lemma cached_commits_sequential_run_witness :
  (forall k c, fst (chip_run chip_demo (chip_drive counter 80 chip_demo)) !! k = Some c ->
    commits_as counter (seq counter (start (chip_sys chip_demo)) k) c) /\
  map commit_pc (fst (chip_run chip_demo (chip_drive counter 80 chip_demo))) =
    map (fun o => 0x30000000 + o) [0; 4; 8; 12; 16; 0; 4; 8; 12; 16; 0; 4; 8; 12; 16; 0].
Proof.
  split; [|vm_compute; reflexivity].
  apply (cached_commits_sequential_run counter counter_word zero_chip reset_in (mkBurst false false 0 false) (chip_drive counter 80 chip_demo));
    [reflexivity|apply demo_ok|apply demo_supported|apply chip_drive_obeys].
Defined.
End Demo.
