(* ===== verification/NpcMemory.v ===== *)
(** The memory of the simulator ([npc/csrc/memory.cpp]): [pmem_read] and [pmem_write] on an
    array of words, which the memory module of the processor calls, against the byte memory
    behind the data port ([pmem_write_is_strobe_write], [pmem_read_is_bus_word]). *)

From S2P Require Import Prelude AmBus RvSpec NpcDatapath NpcCore NpcArch NpcExec NpcLanes NpcCache.

Definition PSRAM_ADDR : Z := 0x80000000.
Definition PSRAM_SIZE : Z := 0x20000000.

(** [memory] has [N] words; an access beyond is undefined. *)
Definition N_WORDS : Z := 2 ^ 24.
Definition words : Type := Z -> Z.
Definition in_memory (idx : Z) : bool := (0 <=? idx) && (idx <? N_WORDS).

(** What [exit(1)] and an access out of the array are. *)
Inductive pmem (A : Type) : Type := Value (v : A) | OutOfBounds | ExitCode (n : Z).
Arguments Value {A} _.
Arguments OutOfBounds {A}.
Arguments ExitCode {A} _.

Definition in_psram (addr : Z) : bool := (PSRAM_ADDR <=? addr) && (addr <? PSRAM_ADDR + PSRAM_SIZE).

Definition pmem_read (memory : words) (raddr : Z) : pmem Z :=
  if in_psram raddr then
    let idx := Z.shiftr (raddr - PSRAM_ADDR) 2 in
    if in_memory idx then Value (memory idx) else OutOfBounds
  else
    let idx := Z.shiftr (Z.land raddr (vnot 3)) 2 in
    if Z.shiftl 1 24 <=? idx then ExitCode 1
    else if in_memory idx then Value (memory idx) else OutOfBounds.

(** [memory[i] &= ~mask; memory[i] |= wdata & mask]. *)
Definition merge (word wdata mask : Z) : Z := Z.lor (Z.land word (vnot mask)) (Z.land wdata mask).

Definition pmem_write (memory : words) (waddr wdata wmask : Z) : pmem words :=
  if in_psram waddr then
    let idx := Z.shiftr (waddr - PSRAM_ADDR) 2 in
    if negb (Z.testbit wmask 0 || Z.testbit wmask 1 || Z.testbit wmask 2 || Z.testbit wmask 3) then Value memory
    else if negb (in_memory idx) then OutOfBounds
    else
      let m := memory in
      let m := if Z.testbit wmask 0 then put m idx (merge (m idx) wdata 0x000000ff) else m in
      let m := if Z.testbit wmask 1 then put m idx (merge (m idx) wdata 0x0000ff00) else m in
      let m := if Z.testbit wmask 2 then put m idx (merge (m idx) wdata 0x00ff0000) else m in
      let m := if Z.testbit wmask 3 then put m idx (merge (m idx) wdata 0xff000000) else m in
      Value m
  else Value memory.

(** * Bytes *)

Definition bytes_of (memory : words) : ram := fun k => slice (memory (k / 4)) (8 * (k mod 4) + 7) (8 * (k mod 4)).
Definition words_ok (memory : words) : Prop := forall k, in_u 32 (memory k).

Lemma merge_bits word wdata j k : 0 <= j < 4 -> in_u 32 word -> in_u 32 wdata -> 0 <= k ->
  Z.testbit (merge word wdata (0xff * 2 ^ (8 * j))) k = if (8 * j <=? k) && (k <? 8 * j + 8) then Z.testbit wdata k else Z.testbit word k.
Proof.
  intros Hj Hw Hd Hk. unfold merge, vnot.
  assert (Z.testbit (0xff * 2 ^ (8 * j)) k = (8 * j <=? k) && (k <? 8 * j + 8)) as Hm.
  { change 0xff with (Z.ones 8). rewrite Z.mul_pow2_bits by lia. destruct (Z.leb_spec (8 * j) k); cbn [andb].
    - destruct (Z.ltb_spec k (8 * j + 8)); [apply Z.ones_spec_low; lia | apply Z.ones_spec_high; lia].
    - by apply Z.testbit_neg_r; lia. }
  rewrite Z.lor_spec, !Z.land_spec. replace (Z.ones 32 - 255 * 2 ^ (8 * j)) with (Z.ldiff (Z.ones 32) (255 * 2 ^ (8 * j))).
  2: { assert (j = 0 \/ j = 1 \/ j = 2 \/ j = 3) as [-> | [-> | [-> | ->]]] by lia; reflexivity. }
  rewrite Z.ldiff_spec, Hm. destruct (decide (k < 32)) as [Hlt|Hge].
  - rewrite Z.ones_spec_low by lia. destruct (_ && _), (Z.testbit word k), (Z.testbit wdata k); done.
  - rewrite (testbit_above word 32), (testbit_above wdata 32) by (done || lia). by destruct (_ && _).
Qed.

Lemma merge_ok word wdata j : 0 <= j < 4 -> in_u 32 word -> in_u 32 wdata -> in_u 32 (merge word wdata (0xff * 2 ^ (8 * j))).
Proof.
  intros Hj Hw Hd. assert (merge word wdata (255 * 2 ^ (8 * j)) = merge word wdata (255 * 2 ^ (8 * j)) mod 2 ^ 32) as ->;
    [|apply Z.mod_pos_bound; lia].
  apply Z.bits_inj'. intros k Hk. destruct (decide (k < 32)) as [Hlt|Hge]; [by rewrite Z.mod_pow2_bits_low by lia|].
  rewrite Z.mod_pow2_bits_high by lia. rewrite merge_bits by done.
  rewrite (testbit_above word 32), (testbit_above wdata 32) by (done || lia). by destruct (_ && _).
Qed.

(** One lane of a write on the byte view. *)
Definition lane_write (m : ram) (idx j wdata : Z) (on : bool) : ram := fun k =>
  if on && (k =? 4 * idx + j) then slice wdata (8 * j + 7) (8 * j) else m k.

Lemma merge_lane memory idx wdata j (on : bool) k : 0 <= j < 4 -> words_ok memory -> in_u 32 wdata ->
  bytes_of (if on then put memory idx (merge (memory idx) wdata (0xff * 2 ^ (8 * j))) else memory) k =
  lane_write (bytes_of memory) idx j wdata on k.
Proof.
  intros Hj Hm Hd. destruct on; [|done]. unfold bytes_of, lane_write, put. cbn [andb].
  pose proof (Z.mod_pos_bound k 4 ltac:(lia)) as Hk.
  destruct (Z.eqb_spec (k / 4) idx) as [E|E]; [|destruct (Z.eqb_spec k (4 * idx + j)) as [->|]; [exfalso; apply E; dlia|done]].
  apply Z.bits_inj'. intros n Hn. destruct (Z.eqb_spec k (4 * idx + j)) as [Ek|Ek].
  - assert (k mod 4 = j) as -> by dlia. rewrite !slice_bits by lia. destruct (Z.leb_spec n (8 * j + 7 - 8 * j)); [|done]. cbn [andb].
    rewrite merge_bits by (done || apply Hm || lia). by rewrite (proj2 (Z.leb_le _ _)), (proj2 (Z.ltb_lt _ _)) by lia.
  - assert (k mod 4 <> j) as Hne by (intros <-; apply Ek; dlia). rewrite E, !slice_bits by lia.
    destruct (Z.leb_spec n (8 * (k mod 4) + 7 - 8 * (k mod 4))); [|done]. cbn [andb].
    rewrite merge_bits by (done || apply Hm || lia).
    destruct (Z.leb_spec (8 * j) (n + 8 * (k mod 4))), (Z.ltb_spec (n + 8 * (k mod 4)) (8 * j + 8)); cbn; try done. exfalso; nia.
Qed.

Lemma put_ok memory idx v : words_ok memory -> in_u 32 v -> words_ok (put memory idx v).
Proof. intros Hm Hv k. unfold put. by case_match. Qed.

Lemma lane_write_ext m m' idx j d on k : (forall k, m k = m' k) -> lane_write m idx j d on k = lane_write m' idx j d on k.
Proof. intros H. unfold lane_write. by rewrite H. Qed.

(** The four lanes one after the other. *)
Lemma lanes_strobe m idx d b k : let w j m := lane_write m idx j d (Z.testbit b j) in
  w 3 (w 2 (w 1 (w 0 m))) k = strobe_write m (4 * idx) d b k.
Proof.
  cbv zeta. unfold lane_write, strobe_write, word_base. replace (4 * idx / 4) with idx by dlia. set (l := k - 4 * idx).
  assert (forall j, (k =? 4 * idx + j) = (l =? j)) as Hl by (intros j; unfold l; destruct (Z.eqb_spec k (4 * idx + j)), (Z.eqb_spec (k - 4 * idx) j); done || lia).
  rewrite !Hl. destruct (Z.leb_spec 0 l), (Z.ltb_spec l 4); cbn [andb].
  2-4: rewrite !(proj2 (Z.eqb_neq l _)) by lia; by rewrite !andb_false_r.
  assert (l = 0 \/ l = 1 \/ l = 2 \/ l = 3) as [-> | [-> | [-> | ->]]] by lia; cbn [Z.eqb Pos.eqb]; rewrite ?andb_false_r, ?andb_true_r; reflexivity.
Qed.

Lemma lane_stored memory idx wdata j (on : bool) : 0 <= j < 4 -> words_ok memory -> in_u 32 wdata ->
  words_ok (if on then put memory idx (merge (memory idx) wdata (0xff * 2 ^ (8 * j))) else memory).
Proof. intros Hj Hm Hd. destruct on; [|done]. apply put_ok; [done|]. by apply merge_ok. Qed.

Lemma strobe_none m addr d b k : (forall j, 0 <= j < 4 -> Z.testbit b j = false) -> strobe_write m addr d b k = m k.
Proof.
  intros H. unfold strobe_write. destruct (Z.leb_spec 0 (k - word_base addr)), (Z.ltb_spec (k - word_base addr) 4); try done.
  by rewrite H by lia.
Qed.

Lemma strobe_base m addr d b k : strobe_write m (4 * (addr / 4)) d b k = strobe_write m addr d b k.
Proof. unfold strobe_write, word_base. by replace (4 * (addr / 4) / 4) with (addr / 4) by dlia. Qed.

(** A write of the simulator's memory changes exactly the bytes that the mask names, as
    the strobes of the data port say: on the byte view of the word array it is
    [strobe_write]. *)
Theorem pmem_write_is_strobe_write memory waddr wdata wmask :
  words_ok memory -> in_u 32 wdata -> PSRAM_ADDR <= waddr < PSRAM_ADDR + 4 * N_WORDS ->
  exists memory', pmem_write memory waddr wdata wmask = Value memory' /\ words_ok memory' /\
    forall k, bytes_of memory' k = strobe_write (bytes_of memory) (waddr - PSRAM_ADDR) wdata wmask k.
Proof.
  intros Hm Hd Ha. unfold pmem_write. assert (in_psram waddr = true) as -> by (unfold in_psram; unfold N_WORDS, PSRAM_ADDR, PSRAM_SIZE in *; lia).
  cbv zeta. rewrite Z.shiftr_div_pow2 by lia. change (2 ^ 2) with 4. set (idx := (waddr - PSRAM_ADDR) / 4).
  assert (in_memory idx = true) as -> by (unfold in_memory, idx, N_WORDS, PSRAM_ADDR in *; dlia).
  destruct (Z.testbit wmask 0 || Z.testbit wmask 1 || Z.testbit wmask 2 || Z.testbit wmask 3) eqn:Eb; cbn [negb].
  - eexists. split; [reflexivity|]. pose proof (lane_stored memory idx wdata 0 (Z.testbit wmask 0) ltac:(lia) Hm Hd) as H0.
    pose proof (lane_stored _ idx wdata 1 (Z.testbit wmask 1) ltac:(lia) H0 Hd) as H1.
    pose proof (lane_stored _ idx wdata 2 (Z.testbit wmask 2) ltac:(lia) H1 Hd) as H2.
    split; [exact (lane_stored _ idx wdata 3 (Z.testbit wmask 3) ltac:(lia) H2 Hd)|]. intros k.
    rewrite <- strobe_base. fold idx. rewrite <- lanes_strobe. cbv zeta.
    rewrite (merge_lane _ idx wdata 3) by (done || lia). apply lane_write_ext. intros k3.
    rewrite (merge_lane _ idx wdata 2) by (done || lia). apply lane_write_ext. intros k2.
    rewrite (merge_lane _ idx wdata 1) by (done || lia). apply lane_write_ext. intros k1. by apply (merge_lane _ idx wdata 0).
  - exists memory. split_and!; [done..|]. intros k. rewrite strobe_none; [done|]. rewrite !orb_false_iff in Eb.
    intros j Hj. assert (j = 0 \/ j = 1 \/ j = 2 \/ j = 3) as [-> | [-> | [-> | ->]]] by lia; apply Eb.
Qed.

(** A word is its four bytes. *)
Lemma word_of_bytes memory addr : words_ok memory -> bus_word (bytes_of memory) addr = memory (addr / 4).
Proof.
  intros Hm. rewrite bus_word_bytes. unfold bytes_of, word_base. pose proof (Hm (addr / 4)) as Hw. set (i := addr / 4) in *.
  replace (4 * i / 4) with i by dlia. replace ((4 * i) mod 4) with 0 by dlia.
  replace ((4 * i + 1) / 4) with i by dlia. replace ((4 * i + 1) mod 4) with 1 by dlia.
  replace ((4 * i + 2) / 4) with i by dlia. replace ((4 * i + 2) mod 4) with 2 by dlia.
  replace ((4 * i + 3) / 4) with i by dlia. replace ((4 * i + 3) mod 4) with 3 by dlia.
  unfold slice, in_u in *. numerals. dlia.
Qed.

(** A read of the simulator's memory is the aligned word of the byte view, in the window
    of the bus and in the window that the memory module uses, where addresses start at zero. *)
Lemma pmem_read_is_bus_word memory raddr : words_ok memory -> 0 <= raddr < 4 * N_WORDS ->
  pmem_read memory (PSRAM_ADDR + raddr) = Value (bus_word (bytes_of memory) raddr) /\
  pmem_read memory raddr = Value (bus_word (bytes_of memory) raddr).
Proof.
  intros Hm Ha. rewrite word_of_bytes by done. unfold pmem_read, in_psram, N_WORDS in *.
  assert (in_memory (raddr / 4) = true) as Hi by (unfold in_memory, N_WORDS; dlia).
  split.
  - rewrite (proj2 (Z.leb_le _ _)), (proj2 (Z.ltb_lt _ _)) by (unfold PSRAM_ADDR, PSRAM_SIZE; lia). cbn [andb].
    replace (PSRAM_ADDR + raddr - PSRAM_ADDR) with raddr by lia. rewrite Z.shiftr_div_pow2 by lia. change (2 ^ 2) with 4. by rewrite Hi.
  - rewrite (proj2 (Z.leb_gt _ _)) by (unfold PSRAM_ADDR; lia). cbn [andb].
    assert (Z.shiftr (Z.land raddr (vnot 3)) 2 = raddr / 4) as ->.
    { rewrite Z.shiftr_land. change (Z.shiftr (vnot 3) 2) with (Z.ones 30). rewrite Z.land_ones, Z.shiftr_div_pow2 by lia.
      change (2 ^ 2) with 4. apply Z.mod_small. dlia. }
    rewrite Hi, (proj2 (Z.leb_gt _ _)); [done|]. change (Z.shiftl 1 24) with (2 ^ 24). dlia.
Qed.

(** The window of the bus is larger than the array: a read from 0x84000000 on is out of
    its bounds. *)
Lemma pmem_read_overruns memory : pmem_read memory 0x84000000 = OutOfBounds.
Proof. reflexivity. Qed.

Definition sample : words := fun k => if (0 <=? k) && (k <? 2 ^ 32) then k else 0.

Lemma sample_ok : words_ok sample.
Proof. intros k. unfold sample, in_u. case_match; lia. Qed.

Lemma pmem_write_is_strobe_write_witness : exists memory' : words,
  pmem_write sample 0x80000006 0xaabbccdd 12 = Value memory' /\ words_ok memory' /\
  (forall k, bytes_of memory' k = strobe_write (bytes_of sample) 6 0xaabbccdd 12 k) /\
  bytes_of memory' 7 = 0xaa.
Proof.
  destruct (pmem_write_is_strobe_write sample 0x80000006 0xaabbccdd 12) as (m & H1 & H2 & H3);
    [apply sample_ok | unfold in_u; lia | unfold PSRAM_ADDR, N_WORDS; lia | ].
  exists m. split_and!; [exact H1 | exact H2 | exact H3 | rewrite H3; reflexivity].
Defined.

Lemma pmem_read_is_bus_word_witness :
  pmem_read sample 0x80000009 = Value (bus_word (bytes_of sample) 9) /\ pmem_read sample 9 = Value (bus_word (bytes_of sample) 9).
Proof. apply (pmem_read_is_bus_word sample 9); [apply sample_ok | unfold N_WORDS; lia]. Defined.
