(* ===== verification/NpcSim.v ===== *)
(** The simulator of the processor: [npc/csrc/sim_main.cpp] (one clock cycle, reset),
    [csrc/cpu/cpu-exec.cpp] (the loop over committed instructions),
    [csrc/cpu/difftest/dut.cpp] (the comparison with a reference), [csrc/utils/state.c]
    and the commands [c], [q] and [si] of [csrc/monitor/sdb/sdb.cpp].

    The Verilated model is [sys] of [NpcPipe]; what the surroundings put on its input wires
    in each cycle is the class [Board], the reference that [dlopen] loads is the class
    [DiffRef]. The loop ends when enough instructions have been committed, not after a
    number of cycles, so [execute] takes fuel, one unit per cycle; [cpu_exec_ends] gives the
    fuel that is enough. The [$fatal] checks of the design end the program.
    [cpu_exec] returns its messages ([report]). Watchpoints and traces, which the
    configuration leaves out, are not modelled. *)

From S2P Require Import Prelude AmBus Machine Difftest RvSpec NpcDatapath NpcCore NpcArch NpcExec NpcLanes NpcPipe NpcRefine NpcLive NpcCorrect.

(** * State *)

(** [CPUArchState] of [npc_include.h] has the layout of [riscv32_CPU_state]. *)
Definition CPUArchState : Type := CPU_state.

Inductive npc_st : Type := NPC_RUNNING | NPC_STOP | NPC_END | NPC_ABORT | NPC_QUIT.
#[global] Instance npc_st_eq_dec : EqDecision npc_st.
Proof. solve_decision. Defined.

Record NPCState : Type := mkNpcState { state : npc_st; halt_pc : Z; halt_ret : Z }.
#[global] Instance eta_NPCState : Eta NPCState := fun x => mkNpcState (state x) (halt_pc x) (halt_ret x).

(** [Decode] of [cpu/decode.h]. *)
Record Decode : Type := mkDecode {
  s_pc : Z; s_snpc : Z; s_dnpc : Z; s_inst : Z;
  s_is_ebreak : bool; s_skip_ref : bool; s_wen : bool; s_rd : Z; s_wdata : Z;
}.

(** [Decode s = {};] *)
Definition Decode_zero : Decode := mkDecode 0 0 0 0 false false false 0 0.

(** The functions of the shared object; [ref_difftest_getregs r c] is the buffer [c] after
    [ref_difftest_regcpy(&c, DIFFTEST_TO_DUT)], [ref_r_init] what the local [ref_r] holds
    before it is written. *)
Class DiffRef : Type := {
  RefState : Type;
  ref_difftest_memcpy : Z -> list Z -> RefState -> result RefState;
  ref_difftest_setregs : CPUArchState -> RefState -> result RefState;
  ref_difftest_getregs : RefState -> CPUArchState -> result CPUArchState;
  ref_difftest_exec : Z -> RefState -> result RefState;
  ref_r_init : CPUArchState;
}.

(** The input wires in the [n]-th cycle ([reset] apart, which the simulator drives), and
    the switch [CONFIG_DIFFTEST]. *)
Class Board : Type := { wires : nat -> bus_in; DIFFTEST : bool }.

Section Sim.
Context `{ARCH : NpcArch} `{REF : DiffRef} `{BOARD : Board}.

(** [top] with the number of cycles so far, and the globals of the source files. *)
Record sim : Type := mkSim {
  top : sys;
  time : nat;
  cpu : CPUArchState;
  npc_state : NPCState;
  g_nr_guest_inst : Z;
  g_print_step : bool;
  is_skip_ref : bool;
  skip_dut_nr_inst : Z;
  ref : RefState;
}.
#[global] Instance eta_sim : Eta sim := fun x =>
  mkSim (top x) (time x) (cpu x) (npc_state x) (g_nr_guest_inst x) (g_print_step x) (is_skip_ref x) (skip_dut_nr_inst x) (ref x).

(** [cpu = {.pc=RESET_PC}], [npc_state = { .state = NPC_STOP }]. *)
Definition sim_zero (w : sys) (r : RefState) : sim :=
  mkSim w 0 (mkCPU (replicate 32 0) RESET_PC (replicate 4096 0)) (mkNpcState NPC_STOP 0 0) 0 false false 0 r.

(** * One cycle *)

Definition with_reset (b : bool) (i : bus_in) : bus_in :=
  mkBus b (i_arready i) (i_rvalid i) (i_rdata i) (l_arready i) (l_rvalid i) (l_rdata i) (l_awready i) (l_wready i) (l_bvalid i).

(** A rising edge of [top->clock]; [$fatal] ends the program. *)
Definition posedge (b : bool) : M sim unit :=
  i ← gets (fun s => with_reset b (wires (time s)));
  bad ← gets (fun s => fatal (core (top s)) i);
  if bad : bool then panic "PIPE ERROR"
  else modify (fun s => s <| top := sys_step (top s) i |> <| time := S (time s) |>).

(** What [exec_once] reads from the wires [DUT_COMMIT_*]. *)
Definition commit_decode (c : commit) : Decode :=
  mkDecode (commit_pc c) (u32 (commit_pc c + 4)) (commit_npc c) (commit_inst c) (commit_ebreak c) (commit_skip_ref c)
    (commit_wen c) (commit_rd c) (commit_wdata c).

(** [for (int i = 0; i < 16; i++) cpu.gpr[i] = DUT_RF[i];] *)
Fixpoint copy_rf (n i : nat) (rf : Z -> Z) (g : list Z) : list Z :=
  match n with
  | O => g
  | S n => copy_rf n (S i) rf (<[i := rf (Z.of_nat i)]> g)
  end.

Definition update_cpu (d : Decode) : M sim unit :=
  modify (fun s => s <| cpu -> gpr := copy_rf 16 0 (rf (core (top s))) (gpr (cpu s)) |>) ;;
  modify (fun s => s <| cpu -> gpr := <[0%nat := 0]> (gpr (cpu s)) |>) ;;
  modify (fun s => s <| cpu -> pc := s_dnpc d |>).

Definition halt_ebreak (d : Decode) : M sim unit :=
  modify (fun s => s <| npc_state -> halt_pc := s_pc d |>) ;;
  a0 ← gets (fun s => nth 10 (gpr (cpu s)) 0);
  modify (fun s => s <| npc_state -> halt_ret := a0 |>) ;;
  modify (fun s => s <| npc_state -> state := if a0 =? 0 then NPC_END else NPC_ABORT |>).

(** The wires are read while the clock is low, the registers after the edge. *)
Definition exec_once (d : Decode) : M sim (bool * Decode) :=
  i ← gets (fun s => with_reset false (wires (time s)));
  l ← gets (fun s => lsu (core (top s)));
  let fire := commit_fire i l in
  let d := if fire then commit_decode (wbu_commit l) else d in
  posedge false ;;
  when fire (update_cpu d) ;;
  when (fire && s_is_ebreak d) (halt_ebreak d) ;;
  mret (fire, d).

(** Thirty-one edges with [reset] high. *)
Fixpoint edges (n : nat) (b : bool) : M sim unit :=
  match n with O => mret tt | S n => posedge b ;; edges n b end.
Definition reset_top : M sim unit := edges 30 true ;; posedge true.

(** * The comparison *)

(** [reg_display] prints [DUT_RF[i]] for 32 values of [i]; the register file has 16
    elements. *)
Fixpoint rf_values (n i : nat) : M sim (list Z) :=
  match n with
  | O => mret []
  | S n =>
      if (i <? 16)%nat then
        v ← gets (fun s => rf (core (top s)) (Z.of_nat i)); vs ← rf_values n (S i); mret (v :: vs)
      else undef "DUT_RF index"
  end.
Definition reg_display : M sim (list Z) := rf_values 32 0.

Definition isa_difftest_checkregs (c ref_r : CPUArchState) : result bool :=
  match check_gprs 16 0 (gpr c) (gpr ref_r) with
  | Ok true => Ok (pc c =? pc ref_r)
  | r => r
  end.

Definition checkregs (ref_r : CPUArchState) (pc : Z) : M sim unit := fun s =>
  match isa_difftest_checkregs (cpu s) ref_r with
  | Ok true => Ok (tt, s)
  | Ok false =>
      (modify (fun s => s <| npc_state -> state := NPC_ABORT |>) ;;
       modify (fun s => s <| npc_state -> halt_pc := pc |>) ;;
       _ ← reg_display; mret tt) s
  | Abort e => Abort e
  end.

Definition difftest_skip_ref : M sim unit :=
  modify (fun s => s <| is_skip_ref := true |>) ;; modify (fun s => s <| skip_dut_nr_inst := 0 |>).

(** A call into the shared object. *)
Definition on_ref (f : RefState -> result RefState) : M sim unit := fun s =>
  match f (ref s) with Ok r => Ok (tt, s <| ref := r |>) | Abort e => Abort e end.

Definition ref_get (c : CPUArchState) : M sim CPUArchState := fun s =>
  match ref_difftest_getregs (ref s) c with Ok c => Ok (c, s) | Abort e => Abort e end.

Fixpoint ref_steps (n : nat) : M sim unit :=
  match n with O => mret tt | S n => on_ref (ref_difftest_exec 1) ;; ref_steps n end.
Definition difftest_skip_dut (nr_ref nr_dut : Z) : M sim unit :=
  modify (fun s => s <| skip_dut_nr_inst := s32 (skip_dut_nr_inst s + nr_dut) |>) ;; ref_steps (Z.to_nat nr_ref).

Definition difftest_step (pc npc : Z) : M sim unit :=
  skip ← gets is_skip_ref;
  if skip : bool then
    c ← gets cpu; on_ref (ref_difftest_setregs c) ;; modify (fun s => s <| is_skip_ref := false |>)
  else
    on_ref (ref_difftest_exec 1) ;;
    ref_r ← ref_get ref_r_init;
    checkregs ref_r pc.

(** [init_difftest] after the library has been loaded: the image goes to the reference,
    then the registers. The bytes of the image are those of the memory behind the bus. *)
Definition init_difftest (img_size : Z) : M sim unit :=
  m ← gets (fun s => dmem (top s));
  let base := if ARCH_NPC then 0x80000000 else 0x30000000 in
  on_ref (ref_difftest_memcpy base (get_bytes m base (Z.to_nat img_size))) ;;
  c ← gets cpu; on_ref (ref_difftest_setregs c).

(** * The loop *)

Definition trace_and_difftest (d : Decode) : M sim unit :=
  when DIFFTEST (when (s_skip_ref d) difftest_skip_ref ;; difftest_step (s_pc d) (s_dnpc d)).

(** The result is [false] when the fuel has run out inside the loop. *)
Fixpoint execute_loop (fuel : nat) (n : Z) (d : Decode) : M sim bool :=
  if 0 <? n then
    match fuel with
    | O => mret false
    | S fuel =>
        '(committed, d) ← exec_once d;
        (if committed : bool then
           modify (fun s => s <| g_nr_guest_inst := u64 (g_nr_guest_inst s + 1) |>) ;; trace_and_difftest d
         else mret tt) ;;
        st ← gets (fun s => state (npc_state s));
        if bool_decide (st = NPC_RUNNING) then execute_loop fuel (if committed : bool then n - 1 else n) d
        else mret true
    end
  else mret true.
Definition execute (fuel : nat) (n : Z) : M sim bool := execute_loop fuel n Decode_zero.

Definition MAX_INST_TO_PRINT : Z := 1000.

(** What [cpu_exec] prints: that the program has ended before, or how it has ended now. *)
Inductive verdict : Type := ABORT | HIT_GOOD_TRAP | HIT_BAD_TRAP.
Inductive report : Type := HasEnded | EndedAt (v : verdict) (pc : Z).

Definition verdict_of (n : NPCState) : verdict :=
  if bool_decide (state n = NPC_ABORT) then ABORT else if halt_ret n =? 0 then HIT_GOOD_TRAP else HIT_BAD_TRAP.

(** [n] is a [uint64_t]. The result is [None] when the fuel has run out, otherwise what is
    printed. *)
Definition cpu_exec (fuel : nat) (n : Z) : M sim (option (list report)) :=
  modify (fun s => s <| g_print_step := n <? MAX_INST_TO_PRINT |>) ;;
  st ← gets (fun s => state (npc_state s));
  match st with
  | NPC_END | NPC_ABORT | NPC_QUIT => mret (Some [HasEnded])
  | _ =>
      modify (fun s => s <| npc_state -> state := NPC_RUNNING |>) ;;
      done ← execute fuel n;
      if done : bool then
        st ← gets npc_state;
        match state st with
        | NPC_RUNNING => modify (fun s => s <| npc_state -> state := NPC_STOP |>) ;; mret (Some [])
        | NPC_END | NPC_ABORT => mret (Some [EndedAt (verdict_of st) (halt_pc st)])
        | _ => mret (Some [])
        end
      else mret None
  end.

(** * Commands *)

Definition cmd_c (fuel : nat) : M sim (option (list report)) := cpu_exec fuel (u64 (-1)).
Definition cmd_q : M sim unit := modify (fun s => s <| npc_state -> state := NPC_QUIT |>).
(** [long n] with the number that [strtol] found, if there was an argument. *)
Definition cmd_si (fuel : nat) (arg : option Z) : M sim (option (list report)) := cpu_exec fuel (u64 (default 1 arg)).

Definition is_exit_status_bad : M sim Z :=
  gets (fun s =>
    let n := npc_state s in
    let good := (bool_decide (state n = NPC_END) && (halt_ret n =? 0)) || bool_decide (state n = NPC_QUIT) in
    b2z (negb good)).

(** From the reset on: what is printed and the exit status, [None] when the fuel has run out. *)
Definition batch_main (fuel : nat) : M sim (option (list report * Z)) :=
  reset_top ;; out ← cmd_c fuel;
  match out with Some ls => r ← is_exit_status_bad; mret (Some (ls, r)) | None => mret None end.

(** [main] in batch mode: [init_monitor] prepares the reference, then the processor is
    reset and runs. *)
Definition sim_main (img_size : Z) (fuel : nat) : M sim (option (list report * Z)) :=
  when DIFFTEST (init_difftest img_size) ;; batch_main fuel.

End Sim.
