(* ===== verification/NpcSimProof.v ===== *)
(** The simulator reports what the program does: a run of [cpu_exec] commits instructions of
    the sequential machine until the count is used up or an [ebreak] is reached, leaves its
    registers in [cpu], and under difftest raises no alarm against a reference that follows
    the same instructions. *)

From S2P Require Import Prelude AmBus Machine Difftest RvSpec NpcDatapath NpcCore NpcArch NpcExec NpcLanes NpcPipe NpcRefine NpcLive NpcCorrect NpcSim.

Section Proof.
Context `{ARCH : NpcArch} `{REF : DiffRef} `{BOARD : Board}.
Variables (code : Z -> Z) (a0 : arch).

Local Abbreviation arun := (seq code a0).

Definition ebreaks (n : nat) : bool := match a_instr code (arun n) with I_ebreak => true | _ => false end.

(** The registers that are compared. *)
Definition regs_of (a : arch) (c : CPUArchState) : Prop :=
  length (gpr c) = 32%nat /\ (forall i, (i < 16)%nat -> gpr c !! i = Some (a_get a (Z.of_nat i))) /\ pc c = a_pc a.

(** What a reference promises: [tracks n r] is its state after [n] instructions. It either
    executes the next one or, when that one went to a device, is given its result. *)
Class RefTracks : Type := {
  tracks : nat -> RefState -> Prop;
  tracks_exec n r : tracks n r -> e_mmio (a_eff code (arun n)) = false ->
    exists r' c, ref_difftest_exec 1 r = Ok r' /\ ref_difftest_getregs r' ref_r_init = Ok c /\
      regs_of (arun (S n)) c /\ (ebreaks n = false -> tracks (S n) r');
  tracks_skip n r c : tracks n r -> e_mmio (a_eff code (arun n)) = true -> regs_of (arun (S n)) c ->
    exists r', ref_difftest_setregs c r = Ok r' /\ tracks (S n) r';
}.

(** [ends n k m e]: from instruction [n] on, with [k] to go, [m] are executed; [e] tells
    whether the last one is an [ebreak]. *)
Inductive ends : nat -> Z -> nat -> bool -> Prop :=
| ends_count n : ends n 0 0 false
| ends_ebreak n k : 0 < k -> ebreaks n = true -> ends n k 1 true
| ends_step n k m e : 0 < k -> ebreaks n = false -> ends (S n) (k - 1) m e -> ends n k (S m) e.

(** The wires of [k] cycles from cycle [t] on. *)
Definition inputs (t k : nat) : list bus_in := map (fun j => with_reset false (wires j)) (List.seq t k).

Lemma inputs_cons t k : inputs t (S k) = with_reset false (wires t) :: inputs (S t) k.
Proof. done. Qed.

Lemma inputs_length t k : length (inputs t k) = k.
Proof. unfold inputs. by rewrite length_map, length_seq. Qed.

Lemma inputs_paired t k : (forall j, (t <= j)%nat -> paired (wires j)) -> Forall paired (inputs t k).
Proof. intros H. apply Forall_forall. intros i Hi. apply list_elem_of_In, in_map_iff in Hi as (j & <- & Hj%in_seq). apply H. lia. Qed.

(** The processor commits [m] instructions in [fuel] cycles from cycle [t] on. *)
Definition enough (s : sys) (t fuel m : nat) : Prop := (m <= length (fst (run s (inputs t fuel))))%nat.

Lemma enough_step s t fuel m : enough s t (S fuel) m ->
  enough (sys_step s (with_reset false (wires t))) (S t) fuel (m - nb (lsu_valid (lsu (core s)))).
Proof.
  unfold enough. rewrite inputs_cons. cbn [run]. destruct (run _ (inputs (S t) fuel)) as [cs s']. cbn [fst].
  unfold commit_fire, wbu_out_ready. cbn [reset with_reset negb]. rewrite andb_true_r. destruct (lsu_valid _); cbn [length nb]; lia.
Qed.

Context `{TR : RefTracks}.
Hypotheses (Hok0 : arch_ok a0) (Hsup : forall n, supported code (arun n)).

(** What else is known of the processor and the time, and lasts; it keeps the checks of the
    design quiet. *)
Variable live : sys -> nat -> Prop.
Hypothesis Hlive : forall s t, live s t -> live (sys_step s (with_reset false (wires t))) (S t).
Hypothesis Hsafe : forall s t, live s t -> fatal (core s) (with_reset false (wires t)) = false.

Record sim_ok (n : nat) (s : sim) : Prop := mkSimOk {
  so_inv : inv code a0 n (top s);
  so_live : live (top s) (time s);
  so_obeys : forall k, obeys code (top s) (inputs (time s) k);
  so_gpr : length (gpr (cpu s)) = 32%nat;
  so_skip : is_skip_ref s = false;
  so_ref : DIFFTEST = true -> tracks n (ref s);
}.

Definition stopped (n : nat) : NPCState :=
  let v := a_get (arun (S n)) 10 in mkNpcState (if v =? 0 then NPC_END else NPC_ABORT) (a_pc (arun n)) v.

(** What is printed when instruction [n] is an [ebreak]. *)
Definition trapped (n : nat) : report :=
  EndedAt (if a_get (arun (S n)) 10 =? 0 then HIT_GOOD_TRAP else ABORT) (a_pc (arun n)).

(** ** Copying the registers *)

Lemma copy_rf_length n : forall i f g, length (copy_rf n i f g) = length g.
Proof. induction n as [|n IH]; intros i f g; cbn [copy_rf]; [done|]. by rewrite IH, length_insert. Qed.

Lemma copy_rf_other n : forall i f g j, (j < i)%nat -> copy_rf n i f g !! j = g !! j.
Proof.
  induction n as [|n IH]; intros i f g j Hj; cbn [copy_rf]; [done|]. rewrite IH by lia. by rewrite list_lookup_insert_ne by lia.
Qed.

Lemma copy_rf_get n : forall i f g j, (i <= j < i + n)%nat -> (i + n <= length g)%nat ->
  copy_rf n i f g !! j = Some (f (Z.of_nat j)).
Proof.
  induction n as [|n IH]; intros i f g j Hj Hl; cbn [copy_rf]; [lia|]. destruct (decide (j = i)) as [->|].
  - rewrite copy_rf_other by lia. by rewrite list_lookup_insert_eq by lia.
  - apply IH; [lia|]. rewrite length_insert. lia.
Qed.

Definition copied (f : Z -> Z) (p : Z) (c : CPUArchState) : CPUArchState :=
  mkCPU (<[0%nat := 0]> (copy_rf 16 0 f (gpr c))) p (Machine.csr c).

Lemma copied_regs f a c : length (gpr c) = 32%nat -> (forall r, f r = a_reg a r) -> regs_of a (copied f (a_pc a) c).
Proof.
  intros Hl Hf. unfold copied. split; [|split]; cbn [gpr pc].
  - by rewrite length_insert, copy_rf_length.
  - intros [|i] Hi; [by rewrite list_lookup_insert_eq by (rewrite copy_rf_length; lia)|].
    rewrite list_lookup_insert_ne by lia. rewrite copy_rf_get by lia. rewrite Hf. done.
  - done.
Qed.

(** ** One cycle *)

Definition clocked (s : sim) : sim :=
  s <| top := sys_step (top s) (with_reset false (wires (time s))) |> <| time := S (time s) |>.

Section Cycle.
Variables (n : nat) (s : sim).
Hypothesis Hs : sim_ok n s.
Local Abbreviation i := (with_reset false (wires (time s))).
Local Abbreviation l := (lsu (core (top s))).

Lemma cycle_answers : answers code (top s) i /\ forall k, obeys code (sys_step (top s) i) (inputs (S (time s)) k).
Proof. split; [apply (so_obeys n s Hs 1)|]. intros k. apply (so_obeys n s Hs (S k)). Qed.

Lemma cycle_inv : inv code a0 (n + nb (lsu_valid l)) (top (clocked s)) /\ live (top (clocked s)) (time (clocked s)) /\
  forall k, obeys code (top (clocked s)) (inputs (time (clocked s)) k).
Proof.
  destruct cycle_answers as [Ha Ho]. split_and!.
  - apply inv_step; [apply Hs|done|by apply seq_ok|done].
  - apply (Hlive _ _ (so_live _ _ Hs)).
  - exact Ho.
Qed.

Lemma posedge_run : posedge false s = Ok (tt, clocked s).
Proof. unfold posedge, gets, mbind, M_bind. by rewrite (Hsafe _ _ (so_live _ _ Hs)). Qed.

Lemma cycle_fire : commit_fire i l = lsu_valid l.
Proof. unfold commit_fire. by rewrite andb_true_r. Qed.

Lemma exec_once_idle d : lsu_valid l = false -> exec_once d s = Ok ((false, d), clocked s) /\ sim_ok n (clocked s).
Proof.
  intros Hv. split.
  - unfold exec_once, gets, mbind, M_bind. by rewrite cycle_fire, Hv, posedge_run.
  - destruct cycle_inv as (H1 & H2 & H3). rewrite Hv in H1. cbn [nb] in H1. rewrite Nat.add_0_r in H1.
    constructor; try done; apply Hs.
Qed.

(** What a committed instruction leaves in [cpu] and [npc_state]. *)
Definition committed : sim :=
  let s1 := clocked s in
  let s2 := s1 <| cpu := copied (rf (core (top s1))) (a_pc (arun (S n))) (cpu s) |> in
  if ebreaks n then s2 <| npc_state := stopped n |> else s2.

Lemma committed_regs : lsu_valid l = true -> regs_of (arun (S n)) (cpu committed).
Proof.
  intros Hv. destruct (cycle_inv) as (H1 & _ & _). rewrite Hv in H1. cbn [nb] in H1. rewrite Nat.add_1_r in H1.
  assert (cpu committed = copied (rf (core (top (clocked s)))) (a_pc (arun (S n))) (cpu s)) as ->
    by (unfold committed; by destruct (ebreaks n)).
  apply copied_regs; [apply Hs|apply H1].
Qed.

Lemma exec_once_commit d : lsu_valid l = true ->
  exec_once d s = Ok ((true, commit_decode (wbu_commit l)), committed).
Proof.
  intros Hv. pose proof (step_commit code a0 n (top s) (so_inv _ _ Hs) Hv) as (C1 & C2 & C3 & C4 & C5 & _).
  pose proof (committed_regs Hv) as (_ & Hg & _). specialize (Hg 10%nat ltac:(lia)).
  unfold exec_once, gets, mbind, M_bind. rewrite cycle_fire, Hv, posedge_run. cbn [when andb].
  unfold update_cpu, halt_ebreak, gets, modify, mbind, M_bind. cbn [commit_decode s_pc s_dnpc s_is_ebreak].
  rewrite C1, C3, C4. unfold committed in *. change (match a_instr code (arun n) with I_ebreak => true | _ => false end) with (ebreaks n).
  destruct (ebreaks n); cbn [when]; [|reflexivity].
  apply nth_lookup_Some with (d := 0) in Hg. change (Z.of_nat 10) with 10 in Hg. unfold mret, M_ret, stopped. rewrite <- Hg. reflexivity.
Qed.

(** The check after a commit: the reference takes the same step and agrees. *)
Lemma compared s1 : lsu_valid l = true -> cpu s1 = cpu committed -> is_skip_ref s1 = false ->
  (DIFFTEST = true -> tracks n (ref s1)) ->
  exists r k, trace_and_difftest (commit_decode (wbu_commit l)) s1 = Ok (tt, s1 <| ref := r |> <| skip_dut_nr_inst := k |>) /\
    (ebreaks n = false -> DIFFTEST = true -> tracks (S n) r).
Proof.
  intros Hv Hc Hk Ht. pose proof (step_commit code a0 n (top s) (so_inv _ _ Hs) Hv) as (C1 & C2 & C3 & C4 & C5 & _).
  pose proof (committed_regs Hv) as Hregs. rewrite <- Hc in Hregs.
  unfold trace_and_difftest. destruct DIFFTEST.
  2: { exists (ref s1), (skip_dut_nr_inst s1). split; [by destruct s1|intros _ [=]]. }
  specialize (Ht eq_refl). cbn [when commit_decode s_skip_ref s_pc s_dnpc]. rewrite C5.
  destruct (e_mmio (a_eff code (arun n))) eqn:Em; cbn [when].
  - destruct (tracks_skip n (ref s1) (cpu s1) Ht Em Hregs) as (r & Er & Hr). exists r, 0. split; [|done].
    unfold difftest_skip_ref, difftest_step, gets, modify, on_ref, mbind, M_bind. cbn. rewrite Er.
    destruct s1; cbn in *; by subst.
  - destruct (tracks_exec n (ref s1) Ht Em) as (r & c & Er & Ec & (Hl & Hg & Hp) & Hr).
    exists r, (skip_dut_nr_inst s1). split; [|by intros ? _; apply Hr]. destruct Hregs as (Hl' & Hg' & Hp').
    unfold difftest_step, gets, mret, M_ret, mbind, M_bind. rewrite Hk. unfold on_ref. rewrite Er.
    unfold ref_get. cbn [ref update]. change (ref (s1 <| ref := r |>)) with r. rewrite Ec.
    unfold checkregs, isa_difftest_checkregs. change (cpu (s1 <| ref := r |>)) with (cpu s1).
    rewrite check_gprs_spec by lia. rewrite bool_decide_true.
    + rewrite Hp, Hp', Z.eqb_refl. by destruct s1.
    + rewrite !drop_0. apply list_eq. intros j. destruct (decide (j < 16)%nat).
      * rewrite !lookup_take_lt by lia. by rewrite Hg, Hg' by lia.
      * by rewrite !lookup_take_ge by lia.
Qed.

(** The part of the loop body that a commit runs. *)
Lemma body_commit d : lsu_valid l = true -> exists s',
  exec_once d s = Ok ((true, commit_decode (wbu_commit l)), committed) /\
  (modify (fun s => s <| g_nr_guest_inst := u64 (g_nr_guest_inst s + 1) |>) ;; trace_and_difftest (commit_decode (wbu_commit l)))
    committed = Ok (tt, s') /\
  regs_of (arun (S n)) (cpu s') /\ g_nr_guest_inst s' = u64 (g_nr_guest_inst s + 1) /\ time s' = S (time s) /\
  npc_state s' = (if ebreaks n then stopped n else npc_state s) /\ (ebreaks n = false -> sim_ok (S n) s') /\
  top s' = top (clocked s) /\ inv code a0 (S n) (top s').
Proof.
  intros Hv. set (s1 := committed <| g_nr_guest_inst := u64 (g_nr_guest_inst committed + 1) |>).
  assert (is_skip_ref s1 = false /\ ref s1 = ref s /\ g_nr_guest_inst s1 = u64 (g_nr_guest_inst s + 1) /\ time s1 = S (time s) /\
    npc_state s1 = (if ebreaks n then stopped n else npc_state s) /\ top s1 = top (clocked s)) as (Hk & Hr & Hn & Ht & Hst & Htop).
  { pose proof (so_skip _ _ Hs). unfold s1, committed. by destruct (ebreaks n). }
  destruct (compared s1 Hv) as (r & k & E & Htr); [done|done|rewrite Hr; apply Hs|].
  destruct cycle_inv as (H1 & H2 & H3). rewrite Hv in H1. cbn [nb] in H1. rewrite Nat.add_1_r in H1.
  rewrite <- Htop in H1, H2, H3. change (time (clocked s)) with (S (time s)) in H2, H3. rewrite <- Ht in H2, H3.
  exists (s1 <| ref := r |> <| skip_dut_nr_inst := k |>). split_and!.
  - by apply exec_once_commit.
  - exact E.
  - apply (committed_regs Hv).
  - exact Hn.
  - exact Ht.
  - exact Hst.
  - intros Hb. constructor; [exact H1|exact H2|exact H3|apply (committed_regs Hv)|exact Hk|]. intros HD. by apply Htr.
  - exact Htop.
  - exact H1.
Qed.
End Cycle.

(** ** The loop *)

(** [m] instructions after [s], of which the last is an [ebreak] when [e] holds. *)
Definition reached (n m : nat) (e : bool) (s s' : sim) : Prop :=
  g_nr_guest_inst s' = u64 (g_nr_guest_inst s + Z.of_nat m) /\
  ((0 < m)%nat -> regs_of (arun (n + m)) (cpu s')) /\
  (if e then npc_state s' = stopped (n + m - 1) /\ inv code a0 (n + m) (top s') else npc_state s' = npc_state s /\ sim_ok (n + m) s').

Lemma reached_step n m e s s1 s' :
  g_nr_guest_inst s1 = u64 (g_nr_guest_inst s + 1) -> npc_state s1 = npc_state s -> regs_of (arun (S n)) (cpu s1) ->
  (m = 0%nat -> cpu s' = cpu s1) -> reached (S n) m e s1 s' -> reached n (S m) e s s'.
Proof.
  intros Hn Hst Hg Hz (R1 & R2 & R3). unfold reached. rewrite R1, Hn, <- Hst. replace (n + S m)%nat with (S n + m)%nat by lia. split_and!.
  - rewrite wrap_add_l. f_equal. lia.
  - intros _. destruct m as [|m]; [|apply R2; lia]. rewrite Hz by done. by rewrite Nat.add_0_r.
  - done.
Qed.

Lemma ends_nonneg n k m e : ends n k m e -> 0 <= k.
Proof. induction 1; lia. Qed.

Lemma execute_ends fuel : forall n k m e s d, sim_ok n s -> state (npc_state s) = NPC_RUNNING -> ends n k m e ->
  in_u 64 (g_nr_guest_inst s) ->
  enough (top s) (time s) fuel m ->
  exists s', execute_loop fuel k d s = Ok (true, s') /\ reached n m e s s' /\ (m = 0%nat -> cpu s' = cpu s).
Proof.
  induction fuel as [|fuel IH]; intros n k m e s d Hs Hrun He Hcnt Hf; cbn [execute_loop].
  all: destruct (Z.ltb_spec 0 k) as [Hk|Hk].
  2, 4: inversion He; subst; try lia; exists s; split; [done|]; split; [|done]; split_and!;
    [cbn; rewrite Z.add_0_r; by rewrite wrap_id|lia|done|by rewrite Nat.add_0_r].
  { unfold enough in Hf. cbn in Hf. inversion He; subst; lia. }
  apply enough_step in Hf.
  destruct (lsu_valid (lsu (core (top s)))) eqn:Ev.
  - destruct (body_commit n s Hs d Ev) as (s1 & Hb & Hb' & Hg & Hn & Ht & Hst & Hok & Htop & Hinv).
    rewrite (bind_run _ _ _ _ _ Hb), (bind_run _ _ _ _ _ Hb').
    rewrite (bind_run _ _ s1 (state (npc_state s1)) s1) by done. rewrite Hst.
    inversion He as [|? ? _ Hbr|? ? m' ? _ Hbr He']; subst; [lia| |]; rewrite Hbr in *.
    + assert (bool_decide (state (stopped n) = NPC_RUNNING) = false) as -> by (unfold stopped; by destruct (_ =? 0)).
      exists s1. split; [done|]. split; [|done]. split_and!; [done|by rewrite Nat.add_1_r|rewrite Hst; f_equal; lia|by rewrite Nat.add_1_r].
    + rewrite bool_decide_true by done.
      destruct (IH (S n) (k - 1) m' e s1 (commit_decode (wbu_commit (lsu (core (top s)))))) as (s' & E & R & Z0).
      * by apply Hok.
      * by rewrite Hst.
      * done.
      * rewrite Hn. by apply wrap_in_u.
      * rewrite Ht, Htop. cbn [nb] in Hf. by rewrite Nat.sub_1_r in Hf.
      * exists s'. split; [done|]. split; [|done]. by apply (reached_step n m' e s s1 s').
  - destruct (exec_once_idle n s Hs d Ev) as [E Hok]. rewrite (bind_run _ _ _ _ _ E). unfold mbind at 1, M_bind at 1, mret at 1, M_ret at 1.
    rewrite (bind_run _ _ (clocked s) (state (npc_state s)) (clocked s)) by done. rewrite bool_decide_true by done.
    destruct (IH n k m e (clocked s) d) as (s' & E' & R & Z0); try done.
    + cbn [nb] in Hf. by rewrite Nat.sub_0_r in Hf.
    + exists s'. done.
Qed.

(** ** [cpu_exec] *)

Lemma cpu_exec_ends n k m e s fuel : sim_ok n s -> state (npc_state s) = NPC_STOP -> ends n k m e ->
  in_u 64 (g_nr_guest_inst s) ->
  enough (top s) (time s) fuel m ->
  exists s', cpu_exec fuel k s = Ok (Some (if e then [trapped (n + m - 1)] else []), s') /\
    g_nr_guest_inst s' = u64 (g_nr_guest_inst s + Z.of_nat m) /\
    ((0 < m)%nat -> regs_of (arun (n + m)) (cpu s')) /\
    npc_state s' = (if e then stopped (n + m - 1) else npc_state s) /\ (e = false -> sim_ok (n + m) s') /\
    inv code a0 (n + m) (top s').
Proof.
  intros Hs Hst He Hcnt Hf. unfold cpu_exec.
  set (s1 := s <| g_print_step := k <? MAX_INST_TO_PRINT |>). rewrite (bind_run _ _ s tt s1) by done.
  rewrite (bind_run _ _ s1 NPC_STOP s1) by (unfold gets; by rewrite <- Hst).
  set (s2 := s1 <| npc_state -> state := NPC_RUNNING |>). rewrite (bind_run _ _ s1 tt s2) by done.
  assert (sim_ok n s2) as Hs2 by (constructor; apply Hs).
  destruct (execute_ends fuel n k m e s2 Decode_zero Hs2 eq_refl He Hcnt Hf) as (s3 & E & (R1 & R2 & R3) & _).
  unfold execute. rewrite (bind_run _ _ _ _ _ E). rewrite (bind_run _ _ s3 (npc_state s3) s3) by done.
  destruct e.
  - destruct R3 as [R3 R4]. rewrite R3. exists s3. split; [|done]. unfold stopped, trapped, verdict_of.
    generalize (a_get (arun (S (n + m - 1))) 10). intros v. by destruct (v =? 0) eqn:Ez; cbn; rewrite ?Ez.
  - destruct R3 as [R3 R4]. rewrite R3. cbn. eexists. split; [done|]. split_and!; [done|done| | |].
    + cbn. rewrite R3. destruct s as [? ? ? [] ? ? ? ? ?]. cbn in *. by subst.
    + intros _. constructor; apply R4.
    + apply R4.
Qed.

End Proof.

Section Reset.
Context `{ARCH : NpcArch} `{BOARD : Board}.

(** [n] edges with [reset] high from cycle [t] on. *)
Definition held (t n : nat) (w : sys) : sys := fold_left (fun w t => sys_step w (with_reset true (wires t))) (List.seq t n) w.

(** The processor after the reset of the simulator. *)
Definition reset_sys (w : sys) : sys := held 0 31 w.

Lemma held_last t n w : held t (S n) w = sys_step (held t n w) (with_reset true (wires (t + n))).
Proof. unfold held. rewrite List.seq_S, fold_left_app. done. Qed.

#[local] Opaque held.

(** Nothing is on its way to a register, as in the state the model is built with. *)
Record idle (w : sys) : Prop := mkIdle {
  id_idu : idu_valid (idu (core w)) = false;
  id_lsu : awvalid (lsu (core w)) = false;
}.

Lemma reset_idle w i : reset i = true -> idle (sys_step w i).
Proof.
  intros Hr. constructor; cbn [core sys_step cycle idu lsu].
  - unfold idu_edge, idu_out_edge, idu_fence_edge. rewrite Hr. by destruct (idu (core w)).
  - rewrite lsu_edge_eq. cbn. unfold lsu_aw_edge. rewrite Hr. by destruct (lsu (core w)).
Qed.

(** A reset leaves the registers, the control registers and the memory as they are. *)
Lemma reset_keeps w i : reset i = true -> idle w -> start (sys_step w i) = start w.
Proof.
  intros Hr [Hd Hl]. unfold start. cbn [core sys_step cycle rf csr dmem].
  assert (wbu_edge i (lsu (core w)) (rf (core w)) = rf (core w)) as -> by (unfold wbu_edge; by rewrite Hr).
  unfold exu_csr_edge. rewrite Hd, !andb_false_r. cbn [andb]. unfold store_fire, aw_fire. rewrite Hl. cbn [andb].
  rewrite andb_false_r. cbn [andb]. unfold csr_edge. by destruct (csr (core w)).
Qed.

Lemma held_keeps t n w : idle w -> start (held t n w) = start w /\ idle (held t n w).
Proof.
  intros Hw. induction n as [|n [IH1 IH2]]; [done|]. rewrite held_last.
  split; [by rewrite reset_keeps, IH1|by apply reset_idle].
Qed.

Context `{REF : DiffRef}.

Lemma posedge_reset s : posedge true s =
  Ok (tt, s <| top := sys_step (top s) (with_reset true (wires (time s))) |> <| time := S (time s) |>).
Proof. unfold posedge, gets, mbind, M_bind. by rewrite fatal_reset. Qed.

Lemma edges_run n : forall s, exists s', edges n true s = Ok (tt, s') /\ top s' = held (time s) n (top s) /\ time s' = (time s + n)%nat /\
  ref s' = ref s /\ cpu s' = cpu s /\ is_skip_ref s' = is_skip_ref s /\ npc_state s' = npc_state s /\ g_nr_guest_inst s' = g_nr_guest_inst s.
Proof.
  induction n as [|n IH]; intros s; cbn [edges]; [exists s; by rewrite Nat.add_0_r|].
  rewrite (bind_run _ _ _ _ _ (posedge_reset s)).
  match goal with |- context [edges n true ?s1] => destruct (IH s1) as (s' & E & Ht & ? & ?) end.
  exists s'. split; [exact E|]. split; [exact Ht|]. split; [cbn in *; lia|done].
Qed.

Lemma reset_runs w r : exists s, reset_top (sim_zero w r) = Ok (tt, s) /\ top s = reset_sys w /\ time s = 31%nat /\ ref s = r /\
  cpu s = cpu (sim_zero w r) /\ is_skip_ref s = false /\ npc_state s = mkNpcState NPC_STOP 0 0 /\ g_nr_guest_inst s = 0.
Proof.
  unfold reset_top. destruct (edges_run 30 (sim_zero w r)) as (s & E & Htop & Ht & Hr & Hc & Hk & Hst & Hn).
  rewrite (bind_run _ _ _ _ _ E). eexists. split; [apply posedge_reset|].
  change (top s = held 0 30 w) in Htop. change (time s = 30%nat) in Ht.
  split; [|split; [|exact (conj Hr (conj Hc (conj Hk (conj Hst Hn))))]].
  - change (sys_step (top s) (with_reset true (wires (time s))) = reset_sys w). unfold reset_sys. rewrite held_last, Htop, Ht. reflexivity.
  - change (S (time s) = 31%nat). by rewrite Ht.
Qed.
End Reset.

Section Runs.
Context `{ARCH : NpcArch} `{REF : DiffRef} `{BOARD : Board}.
Variables (code : Z -> Z) (w : sys) (r : RefState).
Local Abbreviation a0 := (start (reset_sys w)).
Context `{TR : !RefTracks code a0}.

(** A program that the processor supports, with memories that answer. Neither an instruction
    nor the word behind one is zero: both may be fetched, and the checks of the design take
    a zero for an error. *)
Definition fetchable (p : Z) : Prop := p <> 0 /\ code p <> 0.
Record board_ok : Prop := mkBoardOk {
  bo_arch : arch_ok a0;
  bo_supported : forall n, supported code (seq code a0 n);
  bo_fetch : forall n, fetchable (a_pc (seq code a0 n)) /\ fetchable (u32 (a_pc (seq code a0 n) + 4));
  bo_paired : forall t, (31 <= t)%nat -> paired (wires t);
  bo_obeys : forall k, obeys code (reset_sys w) (inputs 31 k);
}.

(** The processor [k] cycles after the reset. *)
Fixpoint after (k : nat) : sys :=
  match k with O => reset_sys w | S k => sys_step (after k) (with_reset false (wires (31 + k))) end.

Section Live.
Variable live : sys -> nat -> Prop.

Lemma reset_ready : (forall k, obeys code (reset_sys w) (inputs 31 k)) -> live (reset_sys w) 31 -> (DIFFTEST = true -> tracks code a0 0 r) ->
  exists s, reset_top (sim_zero w r) = Ok (tt, s) /\ sim_ok code a0 live 0 s /\ npc_state s = mkNpcState NPC_STOP 0 0 /\
    g_nr_guest_inst s = 0 /\ top s = reset_sys w /\ time s = 31%nat.
Proof.
  intros Ho Hl Ht. destruct (reset_runs w r) as (s & E & Htop & Htime & Hr & Hc & Hk & Hst & Hn).
  pose proof (held_last 0 30 w : reset_sys w = _) as Hv. exists s. split; [exact E|]. split; [|exact (conj Hst (conj Hn (conj Htop Htime)))].
  constructor; rewrite ?Htop, ?Htime, ?Hr, ?Hc; [rewrite Hv; by apply inv_reset| | | | |]; assumption || reflexivity.
Qed.
End Live.

(** What holds of the processor after its reset. *)
Record obedient (s : sys) (t : nat) : Prop := mkObedient {
  ob_after : exists k, t = (31 + k)%nat /\ s = after k;
  ob_inv : exists n, inv code a0 n s;
  ob_requests : requests (lsu (core s));
  ob_asked : asked fetchable (core s);
  ob_obeys : forall k, obeys code s (inputs t k);
}.

Section Obedient.
Hypothesis Hb : board_ok.

Lemma obedient_reset : obedient (reset_sys w) 31.
Proof.
  pose proof (held_last 0 30 w : reset_sys w = _) as Hv. constructor.
  - by exists 0%nat.
  - exists 0%nat. rewrite Hv at 2. by apply inv_reset.
  - rewrite Hv. by apply reset_requests.
  - rewrite Hv. unfold asked. cbn [sys_step core cycle ifu]. by rewrite reset_ifu.
  - apply (bo_obeys Hb).
Qed.

Lemma obedient_step s t : obedient s t -> obedient (sys_step s (with_reset false (wires t))) (S t).
Proof.
  intros [(k & -> & ->) (n & Hi) Hq Hk Ho]. destruct Hb as [B1 B2 B3 B4 _]. constructor.
  - exists (S k). split; [lia|done].
  - eexists. apply (inv_step code a0 n _ _ Hi); [apply (Ho 1%nat)|by apply seq_ok|done].
  - refine (requests_step (with_reset false (wires (31 + k))) _ _ _ eq_refl _ Hq). apply (B4 (31 + k)%nat). lia.
  - by apply (asked_step code a0 fetchable B3 n).
  - intros j. apply (Ho (S j)).
Qed.

Lemma obedient_safe s t : obedient s t -> fatal (core s) (with_reset false (wires t)) = false.
Proof.
  intros [_ (n & Hi) _ Hk Ho]. apply (no_fatal code a0 fetchable (bo_fetch Hb) n); try done. apply (Ho 1%nat).
Qed.

(** The cycles of [npc_keeps_committing]. *)
Lemma obedient_enough s t fuel m : (distance (core s) + 23 * m + stalls s (inputs t fuel) <= fuel)%nat -> obedient s t -> enough s t fuel m.
Proof.
  intros Hf [(k & -> & ->) (n & Hi) Hq _ Ho]. destruct Hb as [B1 B2 _ B4 _].
  assert (Forall paired (inputs (31 + k) fuel)) as Hp by (apply inputs_paired; intros t Ht; apply B4; lia).
  pose proof (run_live code a0 B1 B2 (inputs (31 + k) fuel) n (after k) Hi (Ho fuel) Hq Hp) as H'. rewrite inputs_length in H'.
  unfold enough. lia.
Qed.

Lemma reset_enough fuel m : (8 + 23 * m + stalls (reset_sys w) (inputs 31 fuel) <= fuel)%nat -> enough (reset_sys w) 31 fuel m.
Proof.
  intros Hf. apply obedient_enough; [|apply obedient_reset]. pose proof (held_last 0 30 w : reset_sys w = _) as Hv.
  assert (distance (core (reset_sys w)) = 8%nat) as Hd by (rewrite Hv; by apply reset_distance). by rewrite Hd.
Qed.

(** The simulator runs the program: after its reset, [cpu_exec n] returns once [n]
    instructions are committed or an [ebreak] is, whichever comes first. It has counted
    them, [cpu] holds the registers and the pc of the sequential machine after as many
    instructions, and the state is [NPC_STOP] or, after an [ebreak], [NPC_END] or
    [NPC_ABORT] by the value of [a0], with the pc of the [ebreak], which are printed. Under
    difftest a reference that follows the instructions raises no alarm, also when device
    accesses are skipped. *)
Lemma reset_exec fuel k m e : (DIFFTEST = true -> tracks code a0 0 r) -> ends code a0 0 k m e ->
  (8 + 23 * m + stalls (reset_sys w) (inputs 31 fuel) <= fuel)%nat ->
  exists s s', reset_top (sim_zero w r) = Ok (tt, s) /\ cpu_exec fuel k s = Ok (Some (if e then [trapped code a0 (m - 1)] else []), s') /\
    g_nr_guest_inst s' = u64 (Z.of_nat m) /\ ((0 < m)%nat -> regs_of (seq code a0 m) (cpu s')) /\
    npc_state s' = (if e then stopped code a0 (m - 1) else mkNpcState NPC_STOP 0 0).
Proof.
  assert (in_u 64 0) as H0 by (clear; done). intros Ht He Hf. pose proof (reset_enough fuel m Hf) as Hen.
  destruct (reset_ready obedient (bo_obeys Hb) obedient_reset Ht) as (s & E & Hs & Hst & Hn & Htop & Htime).
  exists s. destruct (cpu_exec_ends code a0 (bo_arch Hb) (bo_supported Hb) obedient obedient_step obedient_safe 0 k m e s fuel Hs) as (s' & E' & R1 & R2 & R3 & _).
  - rewrite Hst. reflexivity.
  - exact He.
  - rewrite Hn. exact H0.
  - rewrite Htop, Htime. exact Hen.
  - exists s'. rewrite Hn in R1. rewrite Hst in R3. exact (conj E (conj E' (conj R1 (conj R2 R3)))).
Qed.

(** The exit status of a run in batch mode. *)
Lemma batch_exit fuel m : (DIFFTEST = true -> tracks code a0 0 r) -> ends code a0 0 (2 ^ 64 - 1) m true ->
  (8 + 23 * m + stalls (reset_sys w) (inputs 31 fuel) <= fuel)%nat ->
  exists s', batch_main fuel (sim_zero w r) = Ok (Some ([trapped code a0 (m - 1)], if a_get (seq code a0 m) 10 =? 0 then 0 else 1), s') /\
    regs_of (seq code a0 m) (cpu s') /\ npc_state s' = stopped code a0 (m - 1).
Proof.
  intros Ht He Hf. destruct (reset_exec fuel _ m true Ht He Hf) as (s & s' & E & E' & H1 & H2 & H3).
  assert (0 < m)%nat as Hm by (inversion He; lia). exists s'. split; [|by split; [apply H2|]].
  unfold batch_main, cmd_c. rewrite (bind_run _ _ _ _ _ E). change (u64 (-1)) with (2 ^ 64 - 1). rewrite (bind_run _ _ _ _ _ E').
  unfold is_exit_status_bad, gets, mbind, M_bind, mret, M_ret. rewrite H3. unfold stopped.
  replace (S (m - 1)) with m by lia. cbn [state halt_ret]. destruct (a_get (seq code a0 m) 10 =? 0) eqn:E0; done.
Qed.
End Obedient.
End Runs.

(** A difference is not reported in an orderly way: the state is set to [NPC_ABORT], but
    [reg_display] then reads past the sixteen registers. *)
Lemma mismatch_overruns `{ARCH : NpcArch} `{REF : DiffRef} p np s r c :
  is_skip_ref s = false -> ref_difftest_exec 1 (ref s) = Ok r -> ref_difftest_getregs r ref_r_init = Ok c ->
  length (gpr (cpu s)) = 32%nat -> length (gpr c) = 32%nat ->
  take 16 (gpr (cpu s)) <> take 16 (gpr c) \/ pc (cpu s) <> pc c ->
  difftest_step p np s = Abort (AUndef "DUT_RF index").
Proof.
  intros Hk Er Ec Hl Hl' Hd. unfold difftest_step, gets, mbind, M_bind. rewrite Hk. unfold on_ref. rewrite Er.
  unfold ref_get. change (ref (s <| ref := r |>)) with r. rewrite Ec. unfold checkregs, isa_difftest_checkregs.
  change (cpu (s <| ref := r |>)) with (cpu s). rewrite check_gprs_spec by lia. rewrite !drop_0.
  destruct (decide (take 16 (gpr (cpu s)) = take 16 (gpr c))) as [E|E].
  - rewrite bool_decide_true by done. destruct (Z.eqb_spec (pc (cpu s)) (pc c)); [by destruct Hd|done].
  - by rewrite bool_decide_false by done.
Qed.
