(* ===== verification/NpcNemu.v ===== *)
(** The emulator as the reference of the processor: [nemu/src/cpu/difftest/ref.c] behind
    [npc/csrc/cpu/difftest/dut.cpp].

    NEMU and the processor execute the same program: [agree] relates the state of the
    emulator to that of the sequential machine, [rv_step_agrees] shows that one instruction
    of the specification that NEMU implements is one step of the machine that the
    processor implements, and [nemu_tracks] makes NEMU a reference in the sense of
    [NpcSimProof]. *)

From S2P Require Import Prelude Config AmBus Macro Decode Machine HostMem Region IoMap Paddr.
From S2P Require Import DevBasic Device Isa RvSpec IsaSelect IsaRefine Difftest Watchpoint Cpu.
From S2P Require Import NpcDatapath NpcCore NpcArch NpcExec NpcLanes NpcPipe NpcRefine NpcLive NpcCorrect NpcSim NpcSimProof.

Section Nemu.
Context `{CFG : Config} `{HOST : Host}.

(** The exported functions of [ref.c] on the state of the emulator. *)
Definition state_after {A} (m : M Machine A) (s : Machine) : result Machine :=
  match m s with Ok (_, s') => Ok s' | Abort e => Abort e end.
Definition value_of {A} (m : M Machine A) (s : Machine) : result A :=
  match m s with Ok (a, _) => Ok a | Abort e => Abort e end.

(** [buf] is what the caller's buffer holds before it is written. *)
Definition nemu_ref (buf : CPU_state) : DiffRef := {|
  RefState := Machine;
  NpcSim.ref_difftest_memcpy addr bs := state_after (difftest_memcpy addr bs DIFFTEST_TO_REF);
  NpcSim.ref_difftest_setregs c := state_after (difftest_regcpy c DIFFTEST_TO_REF);
  NpcSim.ref_difftest_getregs s c := value_of (difftest_regcpy c DIFFTEST_TO_DUT) s;
  NpcSim.ref_difftest_exec n := state_after (difftest_exec n);
  NpcSim.ref_r_init := buf;
|}.

(** * The relation *)

(** The control registers that both implement. *)
Definition shared_csr (c : Z) : Prop := c ∈ [0x300; 0x305; 0x341; 0x342; 0xF11; 0xF12].

(** The bytes [addr], ..., [addr + len - 1] lie in one object of the emulator. *)
Definition backed (addr len : Z) (p : ptr) : Prop :=
  (forall i, 0 <= i < len -> ram_ptr (addr + i) = Some (ptr_add p i)) /\ in_block p len = true /\ 0 <= addr /\ addr + len <= 2 ^ 32.

Record agree (a : arch) (s : Machine) : Prop := mkAgree {
  ag_reg : forall r, 0 <= r < 16 -> xval s r = a_get a r;
  ag_csr : forall c, shared_csr c -> nth (Z.to_nat c) (Machine.csr (Machine.cpu s)) 0 = a_csr_get (a_csr a) c;
  ag_mem : forall k p, in_u 32 k -> ram_ptr k = Some p -> peek (mem s) (blk p) (off p) = a_mem a k;
}.

(** What the emulator needs of an instruction beyond [supported]: accesses to memory that
    it has, or to devices where it has none, and control registers that both have. *)
Definition fits `{ARCH : NpcArch} (code : Z -> Z) (a : arch) : Prop :=
  (exists p, backed (a_pc a) 4 p) /\ code (a_pc a) = le_combine (get_bytes (a_mem a) (a_pc a) 4) /\
  match e_mem (a_eff code a) with
  | NoMem => True
  | Load len _ addr =>
      if is_mmio_addr addr then True else exists p, backed addr len p
  | Store len addr _ =>
      if is_mmio_addr addr then forall i, 0 <= i < len -> ram_ptr (addr + i) = None
      else exists p, backed addr len p /\ blk p <> BMrom
  end /\
  match a_instr code a with
  | I_csrrw _ _ c => c ∈ [0x300; 0x305; 0x341; 0x342]
  | I_csrrs _ rs1 c => c ∈ [0x300; 0x305; 0x341; 0x342] \/ rs1 = 0 /\ c ∈ [0xF11; 0xF12]
  | _ => True
  end.

(** * Memory *)

Lemma ram_ptr_0 k p i : ram_ptr (k + i) = Some (ptr_add p i) -> i = 0 -> ram_ptr k = Some p.
Proof. intros H ->. rewrite Z.add_0_r in H. rewrite H. destruct p. unfold ptr_add. cbn. by rewrite Z.add_0_r. Qed.

Lemma backed_ptr addr len p : 0 < len -> backed addr len p -> ram_ptr addr = Some p.
Proof. intros Hl [H _]. by apply (ram_ptr_0 addr p 0 (H 0 ltac:(lia))). Qed.

Lemma peek_get_bytes a s addr n p : agree a s -> 0 <= addr -> addr + Z.of_nat n <= 2 ^ 32 ->
  (forall i, 0 <= i < Z.of_nat n -> ram_ptr (addr + i) = Some (ptr_add p i)) ->
  peek_bytes (mem s) (blk p) (off p) n = get_bytes (a_mem a) addr n.
Proof.
  intros Ha. revert addr p. induction n as [|n IH]; intros addr p H0 Hl H; [done|].
  unfold get_bytes. rewrite Nat2Z.inj_succ. rewrite <- Z.add_1_l, seqZ_cons by lia. cbn [map peek_bytes].
  rewrite Z.add_0_r. f_equal.
  - apply (ag_mem a s Ha addr p); [unfold in_u; lia|]. by apply (ram_ptr_0 addr p 0 (H 0 ltac:(lia))).
  - change (blk p) with (blk (ptr_add p 1)). change (off p + 1) with (off (ptr_add p 1)).
    rewrite (IH (addr + 1)); [|lia|lia|].
    + unfold get_bytes. replace (Z.succ 0) with (0 + 1) by lia. replace (Z.pred (1 + Z.of_nat n)) with (Z.of_nat n) by lia.
      assert (seqZ (0 + 1) (Z.of_nat n) = map (Z.add 1) (seqZ 0 (Z.of_nat n))) as -> by (symmetry; apply (fmap_add_seqZ 1 0)).
      rewrite map_map. apply map_ext. intros k. f_equal. lia.
    + intros i Hi. replace (addr + 1 + i) with (addr + (i + 1)) by lia. rewrite H by lia. unfold ptr_add. cbn. do 2 f_equal. lia.
Qed.

Lemma read_agrees a s addr len p : agree a s -> width_ok len = true -> backed addr len p ->
  paddr_read addr len s = Ok (le_combine (get_bytes (a_mem a) addr (Z.to_nat len)), s).
Proof.
  intros Ha Hw Hb. assert (0 < len) as Hl by (unfold width_ok in Hw; lia).
  rewrite (paddr_read_ram addr p) by (by eapply backed_ptr). rewrite host_read_load by done.
  destruct Hb as (H1 & H2 & H3 & H4). unfold load. rewrite Z2Nat.id, H2 by lia.
  do 3 f_equal. apply peek_get_bytes; rewrite ?Z2Nat.id by lia; done.
Qed.

(** Bytes written at [addr], seen from the address [k]. *)
Lemma poke_peek h addr p bs k q : config_ok -> backed addr (Z.of_nat (length bs)) p -> (0 < length bs)%nat -> in_u 32 k -> ram_ptr k = Some q ->
  peek (poke_bytes h (blk p) (off p) bs) (blk q) (off q) =
    if (addr <=? k) && (k <? addr + Z.of_nat (length bs)) then nth (Z.to_nat (k - addr)) bs 0 else peek h (blk q) (off q).
Proof.
  intros Hc Hb Hl Hk Hq. pose proof (backed_ptr addr (Z.of_nat (length bs)) p ltac:(lia) Hb) as Hp. destruct Hb as (H1 & H2 & H3 & H4).
  destruct (decide (addr <= k < addr + Z.of_nat (length bs))) as [Hin|Hout].
  - replace (_ && _) with true by lia. assert (q = ptr_add p (k - addr)) as ->.
    { pose proof (H1 (k - addr) ltac:(lia)) as E. replace (addr + (k - addr)) with k in E by lia. congruence. }
    unfold ptr_add. cbn [blk off]. rewrite <- peek_poke_same with (h := h) (b := blk p) (o := off p) by lia. f_equal. lia.
  - replace (_ && _) with false by lia. apply peek_poke_other.
    destruct (ram_ptr_inside k q Hc Hk Hq) as (_ & Hq' & _). destruct (ram_ptr_inside addr p Hc ltac:(unfold in_u; lia) Hp) as (_ & Hp' & _).
    destruct (decide (blk p = blk q)) as [E|]; [right|by left]. rewrite Hp', Hq', E. lia.
Qed.

Lemma write_agrees a s addr len v p : config_ok -> agree a s -> width_ok len = true -> backed addr len p -> blk p <> BMrom ->
  exists h, paddr_write addr len v s = Ok (tt, s <| mem := h |>) /\
    forall k q, in_u 32 k -> ram_ptr k = Some q -> peek h (blk q) (off q) = set_bytes (a_mem a) addr (le_split (Z.to_nat len) v) k.
Proof.
  intros Hc Ha Hw Hb Hm. assert (0 < len) as Hl by (unfold width_ok in Hw; lia).
  rewrite (paddr_write_ram addr p) by (done || by eapply backed_ptr). rewrite host_write_store by done. unfold store.
  pose proof Hb as (_ & H2 & _ & _). rewrite Z2Nat.id, H2 by lia.
  eexists. split; [done|]. intros k q Hk Hq. unfold set_bytes. rewrite <- (ag_mem a s Ha k q Hk Hq).
  apply poke_peek; rewrite ?length_le_split, ?Z2Nat.id by lia; done || lia.
Qed.

(** * Registers *)

(** The state after [x_put]. *)
Definition put (s : Machine) (rd v : Z) : Machine :=
  if rd =? 0 then s else s <| Machine.cpu -> gpr := <[Z.to_nat rd := u32 v]> (gpr (Machine.cpu s)) |>.

Lemma agree_put a s rd v q : agree a s -> length (gpr (Machine.cpu s)) = 32%nat -> 0 <= rd < 16 ->
  agree (mkArch q (if rd =? 0 then a_reg a else rf_write (a_reg a) rd (u32 v)) (a_csr a) (a_mem a)) (put s rd v).
Proof.
  intros [A1 A2 A3] Hl Hr. unfold put. destruct (Z.eqb_spec rd 0) as [->|]; [by constructor|]. constructor; cbn; [|done|done].
  intros r Hr'. specialize (A1 r Hr'). unfold xval, a_get, rf_write in *. cbn in *. destruct (Z.eqb_spec r 0); [done|].
  destruct (Z.eqb_spec r rd) as [->|].
  - apply nth_lookup_Some. by rewrite list_lookup_insert_eq by lia.
  - rewrite <- A1. rewrite !nth_lookup. by rewrite list_lookup_insert_ne by lia.
Qed.

Lemma agree_csr a s c v q : agree a s -> length (Machine.csr (Machine.cpu s)) = 4096%nat -> c ∈ [0x300; 0x305; 0x341; 0x342] ->
  agree (mkArch q (a_reg a) (a_csr_put (a_csr a) c v) (a_mem a))
    (s <| Machine.cpu -> Machine.csr := <[Z.to_nat c := v]> (Machine.csr (Machine.cpu s)) |>).
Proof.
  intros [A1 A2 A3] Hl Hc. constructor; cbn; [done| |done]. intros d Hd. specialize (A2 d Hd).
  assert (0 <= c < 4096 /\ 0 <= d) as [? ?].
  { unfold shared_csr in Hd. rewrite !elem_of_cons, elem_of_nil in Hc. rewrite !elem_of_cons, elem_of_nil in Hd. lia. }
  destruct (decide (c = d)) as [<-|Hne].
  - rewrite (nth_lookup_Some _ _ _ v) by (apply list_lookup_insert_eq; lia).
    rewrite !elem_of_cons, elem_of_nil in Hc. destruct Hc as [-> | [-> | [-> | [-> | []]]]]; reflexivity.
  - rewrite nth_lookup, list_lookup_insert_ne by lia. rewrite <- nth_lookup, A2. clear A2 Hl.
    rewrite !elem_of_cons, elem_of_nil in Hc. unfold a_csr_put, a_csr_get. destruct Hc as [-> | [-> | [-> | [-> | []]]]]; cbn;
      repeat (case_match; cbn; try done; try lia).
Qed.

Lemma agree_frame a s s' q : agree a s -> Machine.cpu s' = Machine.cpu s -> mem s' = mem s ->
  agree (mkArch q (a_reg a) (a_csr a) (a_mem a)) s'.
Proof. intros [A1 A2 A3] Hc Hm. constructor; cbn; unfold xval in *; rewrite ?Hc, ?Hm; done. Qed.

(** * One instruction *)

Section Step.
Context `{ARCH : NpcArch}.
Variables (code : Z -> Z) (a : arch) (s : Machine).
Hypotheses (Hcfg : config_ok) (Hrve : CONFIG_RVE = false) (Hnodiff : CONFIG_DIFFTEST = false).
Hypotheses (Hs : machine_ok s) (Ha : arch_ok a) (Hsup : supported code a) (Hfit : fits code a).
Hypotheses (Hm : e_mmio (a_eff code a) = false) (Hag : agree a s).

Lemma fetched_u32 : in_u 32 (code (a_pc a)).
Proof.
  destruct Hfit as (_ & -> & _). change 32 with (8 * Z.of_nat (length (get_bytes (a_mem a) (a_pc a) 4))).
  apply le_combine_range. unfold get_bytes. apply Forall_forall. intros x Hx. apply list_elem_of_In, in_map_iff in Hx as (i & <- & _). apply Ha.
Qed.

(** What an instruction that is not a store leaves behind. *)
Definition stepped (s' : Machine) : Prop :=
  agree (a_step code a) s' /\ wps s' = wps s /\
  nemu_state s' = match a_instr code a with I_ebreak => mkNemu NEMU_END (a_pc a) (a_get a 10) | _ => nemu_state s end.

Lemma put_stepped rd v : e_rd (a_eff code a) = rd -> 0 <= rd < 16 -> e_result a (a_eff code a) = u32 v ->
  e_csr (a_eff code a) = a_csr a -> e_memory a (a_eff code a) = a_mem a -> a_instr code a <> I_ebreak -> stepped (put s rd v).
Proof.
  intros Hrd Hr Hv Hc Hmem Hb. split_and!.
  - unfold a_step. rewrite Hrd, Hv, Hc, Hmem. apply agree_put; [done| |done]. destruct Hs as [[(Hl & _) _] _].
    by rewrite (nr_gpr_32 Hrve) in Hl.
  - unfold put. by destruct (_ =? 0).
  - destruct (a_instr code a); unfold put; try done; by destruct (_ =? 0).
Qed.

Lemma same_stepped : e_rd (a_eff code a) = 0 -> e_csr (a_eff code a) = a_csr a -> e_memory a (a_eff code a) = a_mem a ->
  a_instr code a <> I_ebreak -> stepped s.
Proof.
  intros Hrd Hc Hmem Hb. split_and!; [|done|by destruct (a_instr code a)].
  unfold a_step. rewrite Hrd, Hc, Hmem. by apply (agree_frame a s).
Qed.

Lemma x_get_run {A} r (k : Z -> M Machine A) : 0 <= r < 16 -> (x_get r ≫= k) s = k (a_get a r) s.
Proof. intros Hr. rewrite <- (ag_reg a s Hag r Hr). reflexivity. Qed.

Lemma a_get_u32 r : u32 (a_get a r) = a_get a r.
Proof. apply wrap_id. by apply a_get_ok. Qed.

Lemma load_stepped len sg rd rs1 imm : a_instr code a = I_load len sg rd rs1 imm -> 0 <= rd < 16 -> 0 <= rs1 < 16 -> width_ok len = true ->
  exists s', rv_step (I_load len sg rd rs1 imm) (a_pc a) s = Ok (a_pc (a_step code a), s') /\ stepped s'.
Proof.
  intros Ei Hrd Hrs Hw. cbn [rv_step]. rewrite x_get_run by done.
  pose proof Hm as Hm'. pose proof Hfit as (_ & _ & Hf & _). unfold a_eff in Hm', Hf. rewrite Ei in Hm', Hf. cbn in Hm', Hf.
  unfold e_mmio in Hm'. cbn in Hm'. rewrite Hm' in Hf. destruct Hf as (p & Hb).
  rewrite (bind_run _ _ _ _ _ (read_agrees a s _ len p Hag Hw Hb)).
  eexists. split; [unfold a_step, a_eff; rewrite Ei; reflexivity|].
  apply put_stepped; unfold a_eff; rewrite ?Ei; try done. cbn [e_result effect e_mem]. unfold mem_load. destruct sg; [done|].
  symmetry. apply wrap_id. apply (mem_load_ok (a_mem a) len false); [apply Ha|]. unfold width_ok in Hw. lia.
Qed.

Lemma store_stepped len rs1 rs2 imm : a_instr code a = I_store len rs1 rs2 imm -> 0 <= rs1 < 16 -> 0 <= rs2 < 16 -> width_ok len = true ->
  exists s', rv_step (I_store len rs1 rs2 imm) (a_pc a) s = Ok (a_pc (a_step code a), s') /\ stepped s'.
Proof.
  intros Ei Hr1 Hr2 Hw. cbn [rv_step]. rewrite x_get_run by done. rewrite x_get_run by done.
  pose proof Hm as Hm'. pose proof Hfit as (_ & _ & Hf & _). unfold a_eff in Hm', Hf. rewrite Ei in Hm', Hf.
  unfold e_mmio in Hm'. cbn in Hm', Hf. rewrite Hm' in Hf. destruct Hf as (p & Hb & Hr).
  destruct (write_agrees a s _ len (a_get a rs2) p Hcfg Hag Hw Hb Hr) as (h & E & Hh). rewrite (bind_run _ _ _ _ _ E).
  eexists. unfold stepped, a_step, a_eff. rewrite Ei. split; [reflexivity|]. split_and!; [|done|done].
  constructor; [apply Hag|apply Hag|exact Hh].
Qed.

Lemma csr_value c : shared_csr c -> csr_get c s = Ok (a_csr_get (a_csr a) c, s) /\ u32 (a_csr_get (a_csr a) c) = a_csr_get (a_csr a) c.
Proof.
  intros Hc. rewrite <- (ag_csr a s Hag c Hc). split; [done|]. apply wrap_id. destruct Hs as [[(_ & _ & _ & _ & Hv) _] _].
  destruct (nth_in_or_default (Z.to_nat c) (Machine.csr (Machine.cpu s)) 0) as [Hin| ->]; [|done].
  rewrite Forall_forall in Hv. by apply Hv, list_elem_of_In.
Qed.

Lemma writable_shared c : c ∈ [0x300; 0x305; 0x341; 0x342] -> shared_csr c.
Proof. unfold shared_csr. rewrite !elem_of_cons. tauto. Qed.

(** Read a control register into [rd] and write it. *)
Lemma csr_stepped c rd v : a_instr code a <> I_ebreak -> e_rd (a_eff code a) = rd -> 0 <= rd < 16 ->
  e_result a (a_eff code a) = a_csr_get (a_csr a) c -> e_memory a (a_eff code a) = a_mem a ->
  c ∈ [0x300; 0x305; 0x341; 0x342] -> e_csr (a_eff code a) = a_csr_put (a_csr a) c v ->
  exists s', (w ← csr_get c; x_put rd w ;; csr_put c v ;; mret (e_npc (a_eff code a))) s = Ok (e_npc (a_eff code a), s') /\ stepped s'.
Proof.
  intros Hb Hrd Hr Hv Hmem Hc He. destruct (csr_value c (writable_shared c Hc)) as [E Hu].
  rewrite (bind_run _ _ _ _ _ E). set (w := a_csr_get (a_csr a) c) in *.
  eexists. split; [reflexivity|]. split_and!.
  - destruct Hs as [[(Hl & _ & _ & Hlc & _) _] _]. rewrite (nr_gpr_32 Hrve) in Hl.
    pose proof (agree_put a s rd w (a_pc a) Hag Hl Hr) as H. rewrite Hu in H.
    apply (agree_csr _ _ c v (e_npc (a_eff code a))) in H; [|unfold put; by destruct (rd =? 0)|done].
    unfold a_step. rewrite Hrd, Hv, Hmem, He. exact H.
  - unfold put. by destruct (rd =? 0).
  - destruct (a_instr code a); unfold put; try done; by destruct (rd =? 0).
Qed.

Lemma csr_read_stepped c rd : a_instr code a <> I_ebreak -> e_rd (a_eff code a) = rd -> 0 <= rd < 16 ->
  e_result a (a_eff code a) = a_csr_get (a_csr a) c -> e_memory a (a_eff code a) = a_mem a -> e_csr (a_eff code a) = a_csr a ->
  shared_csr c -> exists s', (w ← csr_get c; x_put rd w ;; csr_put c (Z.lor w 0) ;; mret (e_npc (a_eff code a))) s =
    Ok (e_npc (a_eff code a), s') /\ stepped s'.
Proof.
  intros Hb Hrd Hr Hv Hmem He Hc. destruct (csr_value c Hc) as [E Hu]. pose proof (ag_csr a s Hag c Hc) as Hn.
  rewrite (bind_run _ _ _ _ _ E). exists (put s rd (a_csr_get (a_csr a) c)). split.
  - unfold csr_put, x_put, modify, mbind, M_bind, mret, M_ret. fold (put s rd (a_csr_get (a_csr a) c)). do 2 f_equal. rewrite Z.lor_0_r.
    assert (Machine.csr (Machine.cpu (put s rd (a_csr_get (a_csr a) c))) = Machine.csr (Machine.cpu s)) as E' by (unfold put; by destruct (rd =? 0)).
    rewrite E', list_insert_id, <- E'; [by destruct (put _ _ _) as [[]]|].
    destruct Hs as [[(_ & _ & _ & Hlc & _) _] _]. rewrite <- Hn. unfold nr_csr in Hlc.
    unfold shared_csr in Hc. rewrite !elem_of_cons, elem_of_nil in Hc.
    destruct (nth_lookup_or_length (Machine.csr (Machine.cpu s)) (Z.to_nat c) 0) as [H|H]; [exact H|lia].
  - apply put_stepped; try done. by rewrite Hv, Hu.
Qed.

Lemma csrs_stepped rd rs1 c : a_instr code a = I_csrrw rd rs1 c \/ a_instr code a = I_csrrs rd rs1 c -> 0 <= rd < 16 -> 0 <= rs1 < 16 ->
  exists s', rv_step (a_instr code a) (a_pc a) s = Ok (a_pc (a_step code a), s') /\ stepped s'.
Proof.
  intros Hi Hrd Hrs. pose proof Hfit as (_ & _ & _ & Hf). assert (a_instr code a <> I_ebreak) as Hb by (by destruct Hi as [-> | ->]).
  change (a_pc (a_step code a)) with (e_npc (a_eff code a)). destruct Hi as [Ei|Ei]; rewrite Ei in Hf; rewrite Ei; cbn [rv_step]; rewrite x_get_run by done.
  - assert (u32 (a_pc a + 4) = e_npc (a_eff code a)) as -> by (unfold a_eff; by rewrite Ei).
    apply csr_stepped; try done; unfold a_eff; rewrite Ei; done.
  - assert (u32 (a_pc a + 4) = e_npc (a_eff code a)) as -> by (unfold a_eff; by rewrite Ei).
    destruct (decide (rs1 = 0)) as [->|Hne].
    + apply csr_read_stepped; try done; try (unfold a_eff; rewrite Ei; done).
      destruct Hf as [Hf|[_ Hf]]; [by apply writable_shared|]. revert Hf. unfold shared_csr. rewrite !elem_of_cons. tauto.
    + destruct Hf as [Hf|[? _]]; [|done]. destruct (csr_value c (writable_shared c Hf)) as [E _].
      destruct (csr_stepped c rd (Z.lor (a_csr_get (a_csr a) c) (a_get a rs1))) as (s' & H & Hst); try done.
      1-4: unfold a_eff; rewrite Ei; cbn; try done. { by destruct (Z.eqb_spec rs1 0). }
      exists s'. split; [|done]. rewrite <- H. by rewrite !(bind_run _ _ _ _ _ E).
Qed.

Lemma rv_decode_width w : match rv_decode w with I_load len _ _ _ _ | I_store len _ _ _ => width_ok len = true | _ => True end.
Proof. unfold rv_decode, rv_branch, rv_load, rv_store, rv_opimm, rv_system. repeat case_match; by simplify_eq. Qed.

Lemma rv_step_agrees : exists s', rv_step (a_instr code a) (a_pc a) s = Ok (a_pc (a_step code a), s') /\ stepped s'.
Proof.
  pose proof (rv_decode_ok _ fetched_u32) as Hok. pose proof Hsup as [_ Hu]. pose proof (rv_decode_width (code (a_pc a))) as Hlen.
  fold (a_instr code a) in Hok, Hlen. destruct (a_instr code a) eqn:Ei; cbn [instr_ok] in Hok.
  all: try (cbn [rv_step]; rewrite ?x_get_run by lia; eexists; split; [unfold a_step, a_eff; rewrite Ei; reflexivity|];
    apply put_stepped; unfold a_eff; rewrite ?Ei; try done; cbn; rewrite ?wrap_wrap; (done || lia)).
  - cbn [rv_step]. rewrite !x_get_run by lia. exists s. split; [unfold a_step, a_eff; by rewrite Ei|].
    apply same_stepped; unfold a_eff; by rewrite Ei.
  - apply load_stepped; lia || done.
  - apply store_stepped; lia || done.
  - exists s. split; [unfold a_step, a_eff; by rewrite Ei|]. apply same_stepped; unfold a_eff; by rewrite Ei.
  - pose proof (agree_csr a s 0x341 (a_pc a) 0 Hag) as H1. destruct Hs as [[(_ & _ & _ & Hlc & _) _] _].
    specialize (H1 Hlc ltac:(set_solver)). apply (agree_csr _ _ 0x342 11 (a_mtvec (a_csr a))) in H1; [|cbn; by rewrite length_insert|set_solver].
    eexists. split; [|split_and!; [unfold a_step, a_eff; rewrite Ei; exact H1|done|by rewrite Ei]].
    cbn [rv_step]. unfold csr_put, csr_get, modify, gets, mbind, M_bind. do 2 f_equal. unfold a_step, a_eff. rewrite Ei. cbn [a_pc effect e_npc].
    exact (ag_csr _ _ H1 0x305 ltac:(unfold shared_csr; set_solver)).
  - cbn [rv_step]. rewrite x_get_run by lia. unfold halt, IoMap.difftest_skip_ref. rewrite Hnodiff.
    eexists. split; [unfold a_step, a_eff; rewrite Ei; reflexivity|]. split_and!; [|done|rewrite Ei; exact (f_equal (mkNemu _ _) (a_get_u32 10))].
    unfold a_step, a_eff. rewrite Ei. by apply (agree_frame a s).
  - exists s. split; [|apply same_stepped; unfold a_eff; by rewrite Ei].
    unfold a_step, a_eff. rewrite Ei. cbn [rv_step]. destruct (csr_value 0x341) as [E _]; [unfold shared_csr; set_solver|]. exact E.
  - rewrite <- Ei. eapply csrs_stepped; [by left|lia|lia].
  - rewrite <- Ei. eapply csrs_stepped; [by right|lia|lia].
  - done.
Qed.
End Step.

(** * [difftest_exec(1)] *)

(** What the accesses of the emulator to its clock leave alone. *)
Definition same_core (s s' : Machine) : Prop :=
  Machine.cpu s' = Machine.cpu s /\ mem s' = mem s /\ wps s' = wps s /\ nemu_state s' = nemu_state s.

Lemma get_time_runs s : exists t s', get_time s = Ok (t, s') /\ same_core s s'.
Proof.
  unfold get_time, get_time_internal, gets, modify, mbind, M_bind, mret, M_ret, same_core.
  destruct (boot_time s =? 0); do 2 eexists; split; done.
Qed.

Lemma agree_ext a s s' : agree a s -> gpr (Machine.cpu s') = gpr (Machine.cpu s) -> Machine.csr (Machine.cpu s') = Machine.csr (Machine.cpu s) ->
  mem s' = mem s -> agree a s'.
Proof. intros [A1 A2 A3] Hg Hc Hm. constructor; unfold xval in *; rewrite ?Hg, ?Hc, ?Hm; done. Qed.

Lemma machine_ok_core s s' : same_core s s' -> machine_ok s -> machine_ok s'.
Proof. intros (Hc & Hm & _) [Hw Hh]. split; [unfold isa_wf|]; by rewrite ?Hc, ?Hm. Qed.

(** The build of the emulator that [make] produces as a reference. *)
Record share_config : Prop := mkShare {
  sh_ok : config_ok;
  sh_rve : CONFIG_RVE = false;
  sh_difftest : CONFIG_DIFFTEST = false;
  sh_device : CONFIG_DEVICE = false;
}.

Section Exec.
Context `{ARCH : NpcArch}.
Hypothesis Hcfg : share_config.
Variables (code : Z -> Z) (a : arch).
Hypotheses (Ha : arch_ok a) (Hsup : supported code a) (Hfit : fits code a) (Hm : e_mmio (a_eff code a) = false).

Definition running (s : Machine) : Prop :=
  machine_ok s /\ agree a s /\ Machine.pc (Machine.cpu s) = a_pc a /\ head (wps s) = None.

Lemma isa_step s : running s -> exists d s', isa_exec_once (Isa.mkDecode (a_pc a) (a_pc a) 0 0) s = Ok (d, s') /\
  dnpc d = a_pc (a_step code a) /\ stepped code a s s'.
Proof.
  intros (Hok & Hag & Hpc & _). destruct Hcfg as [C1 C2 C3 C4]. pose proof Hfit as ((p & Hb) & Hcode & _).
  rewrite (exec_once_spec C2) by (apply Hok || apply Ha). rewrite (bind_run _ _ _ _ _ (read_agrees a s (a_pc a) 4 p Hag eq_refl Hb)).
  change (Z.to_nat 4) with 4%nat. rewrite <- Hcode. fold (a_instr code a).
  destruct (rv_step_agrees code a s C1 C2 C3 Hok Ha Hsup Hfit Hm Hag) as (s' & E & Hst). rewrite (bind_run _ _ _ _ _ E).
  do 2 eexists. split; [done|]. done.
Qed.

Definition ebreak_at : bool := match a_instr code a with I_ebreak => true | _ => false end.

(** The state after the instruction. *)
Definition advanced (ns : NEMUState) (s : Machine) : Prop :=
  agree (a_step code a) s /\ Machine.pc (Machine.cpu s) = a_pc (a_step code a) /\ head (wps s) = None /\
  nemu_state s = if ebreak_at then mkNemu NEMU_END (a_pc a) (a_get a 10) else ns.

Lemma watch_nothing s : head (wps s) = None -> when CONFIG_WATCHPOINT (wp ← zoom find_head_wp; watch_loop NR_WP wp) s = Ok (tt, s).
Proof.
  intros Hh. unfold when. destruct CONFIG_WATCHPOINT; [|done]. unfold zoom, find_head_wp, gets, mbind, M_bind. rewrite Hh. by destruct s.
Qed.

Lemma body_advances s : running s -> Machine.state (nemu_state s) = NEMU_RUNNING ->
  exists b s', execute_body s = Ok (b, s') /\ advanced (nemu_state s) s'.
Proof.
  intros Hr Hst. pose proof Hr as (Hok & _ & Hpc & Hh). destruct (isa_step s Hr) as (d & s1 & E & Hd & Hag & Hw & Hns).
  destruct Hcfg as [C1 C2 C3 C4]. unfold execute_body. rewrite (bind_run _ _ s (a_pc a) s) by (unfold gets; by rewrite Hpc).
  unfold Cpu.exec_once. rewrite bind_assoc. rewrite (bind_run _ _ _ _ _ E).
  set (s2 := s1 <| Machine.cpu -> Machine.pc := dnpc d |>).
  assert (exists s3, ((_ ← modify (fun m => m <| Machine.cpu -> Machine.pc := dnpc d |>); _ ← when CONFIG_PC_TRACE (pc_trace_push (dpc d)); mret d) s1) =
    Ok (d, s3) /\ same_core s2 s3) as (s3 & E3 & Hc3 & Hm3 & Hw3 & Hn3).
  { unfold when, pc_trace_push, modify, mbind, M_bind. destruct CONFIG_PC_TRACE; eexists; by split. }
  rewrite (bind_run _ _ _ _ _ E3). set (s4 := s3 <| Machine.g_nr_guest_inst := u64 (Machine.g_nr_guest_inst s3 + 1) |>).
  rewrite (bind_run _ _ s3 tt s4) by done. rewrite (bind_run _ _ s4 (Machine.pc (Machine.cpu s4)) s4) by done.
  assert (head (wps s4) = None) as Hh4 by (change (head (wps s3) = None); by rewrite Hw3; change (head (wps s1) = None); rewrite Hw).
  assert (Cpu.trace_and_difftest d (Machine.pc (Machine.cpu s4)) s4 = Ok (tt, s4)) as E4
    by (unfold Cpu.trace_and_difftest; rewrite C3; by apply watch_nothing).
  rewrite (bind_run _ _ _ _ _ E4). unfold is_running. rewrite (bind_run _ _ s4 (bool_decide (Machine.state (nemu_state s4) = NEMU_RUNNING)) s4) by done.
  rewrite C4. exists (bool_decide (Machine.state (nemu_state s4) = NEMU_RUNNING)), s4. split; [by destruct (bool_decide _)|]. split_and!.
  - apply (agree_ext _ s1); [done| | |exact Hm3]; change (Machine.cpu s4) with (Machine.cpu s3); by rewrite Hc3.
  - change (Machine.cpu s4) with (Machine.cpu s3). rewrite Hc3. exact Hd.
  - exact Hh4.
  - change (nemu_state s4) with (nemu_state s3). rewrite Hn3. change (nemu_state s2) with (nemu_state s1). rewrite Hns.
    unfold ebreak_at. by destruct (a_instr code a).
Qed.

Lemma difftest_exec_advances s : running s -> Machine.state (nemu_state s) = NEMU_STOP ->
  exists s', difftest_exec 1 s = Ok (tt, s') /\ machine_ok s' /\ advanced (nemu_state s) s'.
Proof.
  intros Hr Hst. pose proof Hr as (Hok & Hag & Hpc & Hh).
  assert (exists s', difftest_exec 1 s = Ok (tt, s') /\ advanced (nemu_state s) s') as (s' & E & H).
  2: { exists s'. split; [done|]. split; [|done]. eapply (keeps_use machine_ok); [by apply (cpu_exec_keeps 1), Hcfg|exact Hok|exact E]. }
  unfold difftest_exec, Cpu.cpu_exec. set (s1 := s <| Machine.g_print_step := 1 <? Cpu.MAX_INST_TO_PRINT |>).
  rewrite (bind_run _ _ s tt s1) by done. rewrite (bind_run _ _ s1 NEMU_STOP s1) by (unfold gets; by rewrite <- Hst).
  set (s2 := s1 <| nemu_state -> Machine.state := NEMU_RUNNING |>). rewrite (bind_run _ _ s1 tt s2) by done.
  destruct (get_time_runs s2) as (t1 & s3 & E3 & Hc3). rewrite (bind_run _ _ _ _ _ E3).
  assert (running s3) as Hr3.
  { pose proof Hc3 as (Hc & Hm' & Hw & _). split_and!.
    - apply (machine_ok_core s2); [done|]. exact Hok.
    - apply (agree_ext _ s); rewrite ?Hc, ?Hm'; done.
    - rewrite Hc. exact Hpc.
    - rewrite Hw. exact Hh. }
  destruct Hc3 as (_ & _ & _ & Hn3).
  destruct (body_advances s3 Hr3) as (b & s4 & E4 & Hag4 & Hpc4 & Hh4 & Hn4); [by rewrite Hn3|].
  change (Cpu.execute 1) with (_ ← execute_body; mret ()). rewrite bind_assoc. rewrite (bind_run _ _ _ _ _ E4).
  rewrite (bind_run _ _ s4 tt s4) by done.
  destruct (get_time_runs s4) as (t2 & s5 & E5 & Hc5 & Hm5 & Hw5 & Hn5). rewrite (bind_run _ _ _ _ _ E5).
  set (s6 := s5 <| g_timer := u64 (g_timer s5 + u64 (t2 - t1)) |>). rewrite (bind_run _ _ s5 tt s6) by done.
  rewrite (bind_run _ _ s6 (Machine.state (nemu_state s6)) s6) by done. change (nemu_state s6) with (nemu_state s5). rewrite Hn5, Hn4.
  assert (agree (a_step code a) s6) as Hag6 by (apply (agree_ext _ s4); [done| | |exact Hm5]; change (Machine.cpu s6) with (Machine.cpu s5); by rewrite Hc5).
  unfold advanced. destruct ebreak_at; cbn [Machine.state].
  - exists s6. split; [done|]. split_and!; [done|exact (eq_trans (f_equal Machine.pc Hc5) Hpc4)|exact (eq_trans (f_equal head Hw5) Hh4)|].
    change (nemu_state s6) with (nemu_state s5). by rewrite Hn5, Hn4.
  - rewrite Hn3. cbn. eexists. split; [done|]. split_and!; [|exact (eq_trans (f_equal Machine.pc Hc5) Hpc4)|exact (eq_trans (f_equal head Hw5) Hh4)|].
    + by apply (agree_ext _ s6).
    + cbn. rewrite Hn5, Hn4, Hn3. cbn. rewrite <- Hst. by destruct (nemu_state s).
Qed.
End Exec.

(** * The emulator as a reference *)

Section Track.
Context `{ARCH : NpcArch}.
Hypothesis Hcfg : share_config.
Variables (code : Z -> Z) (a0 : arch).
Hypotheses (Hok0 : arch_ok a0) (Hsup : forall n, supported code (seq code a0 n)) (Hfit : forall n, fits code (seq code a0 n)).

Definition nemu_follows (n : nat) (s : Machine) : Prop :=
  running (seq code a0 n) s /\ Machine.state (nemu_state s) = NEMU_STOP.

Lemma gpr_of a s i : machine_ok s -> agree a s -> (i < 16)%nat -> gpr (Machine.cpu s) !! i = Some (a_get a (Z.of_nat i)).
Proof.
  intros [[(Hl & _) H0] _] Ha Hi. rewrite (nr_gpr_32 (sh_rve Hcfg)) in Hl. rewrite <- (ag_reg a s Ha (Z.of_nat i)) by lia.
  unfold xval. destruct i as [|i]; [done|]. change (Z.of_nat (S i) =? 0) with false. rewrite Nat2Z.id.
  destruct (nth_lookup_or_length (gpr (Machine.cpu s)) (S i) 0) as [H|H]; [exact H|lia].
Qed.

(** A device access changes no control register and no memory of the emulator. *)
Lemma mmio_frame a : fits code a -> e_mmio (a_eff code a) = true ->
  e_csr (a_eff code a) = a_csr a /\ forall k p, ram_ptr k = Some p -> e_memory a (a_eff code a) k = a_mem a k.
Proof.
  intros (_ & _ & Hf & _) Hm. unfold e_mmio, a_eff in *.
  destruct (a_instr code a); cbn in *; try done; (split; [done|]); intros k p Hp.
  rewrite Hm in Hf. unfold set_bytes. rewrite length_le_split. destruct (_ && _) eqn:E; [|done].
  apply andb_true_iff in E as [E1 E2]. rewrite Z.leb_le in E1. rewrite Z.ltb_lt in E2.
  match type of Hf with forall i, _ -> ram_ptr (?b + i) = None => specialize (Hf (k - b)); replace (b + (k - b)) with k in Hf by lia end.
  rewrite Hf in Hp; [done|lia].
Qed.

(** The registers of [c] given to the emulator. *)
Lemma setregs_running a s c : machine_ok s -> head (wps s) = None -> arch_ok a -> regs_of a c ->
  (forall d, shared_csr d -> nth (Z.to_nat d) (Machine.csr (Machine.cpu s)) 0 = a_csr_get (a_csr a) d) ->
  (forall k p, in_u 32 k -> ram_ptr k = Some p -> peek (mem s) (blk p) (off p) = a_mem a k) ->
  exists s', state_after (difftest_regcpy c DIFFTEST_TO_REF) s = Ok s' /\ running a s' /\ nemu_state s' = nemu_state s.
Proof.
  intros Hok Hh Ha (Hl' & Hg' & Hp') Hcsr Hmem. pose proof Hok as [[(Hl & Hg & Hpi & Hlc & Hc) _] Hhp]. rewrite (nr_gpr_32 (sh_rve Hcfg)) in Hl.
  unfold state_after, difftest_regcpy. rewrite copy_gprs_spec by lia. eexists. split; [done|]. split; [|done].
  rewrite take_0, drop_0. change ([] ++ ?x) with x. set (g := take 16 (gpr c) ++ drop (0 + 16) (gpr (Machine.cpu s))).
  assert (forall i, (i < 16)%nat -> g !! i = Some (a_get a (Z.of_nat i))) as Hgi.
  { intros i Hi. unfold g. rewrite lookup_app_l by (rewrite length_take; lia). rewrite lookup_take_lt by lia. by apply Hg'. }
  split_and!; [|constructor| |exact Hh]; cbn; [|  |exact Hcsr|exact Hmem|done].
  - split; [|exact Hhp]. split; [|exact (Hgi 0%nat ltac:(lia))]. split_and!; cbn; try done.
    + rewrite (nr_gpr_32 (sh_rve Hcfg)). unfold g. rewrite length_app, length_take, length_drop. lia.
    + unfold g. apply Forall_app. split; [|by apply Forall_drop]. apply Forall_lookup. intros i x. rewrite lookup_take_Some. intros [Hx Hi].
      rewrite Hg' in Hx by done. injection Hx as <-. by apply a_get_ok.
    + rewrite Hp'. apply Ha.
  - intros q Hq. unfold xval. cbn. destruct (Z.eqb_spec q 0) as [->|]; [done|].
    apply nth_lookup_Some. rewrite Hgi by lia. by rewrite Z2Nat.id by lia.
Qed.

Lemma setregs_follows n s c : nemu_follows n s -> e_mmio (a_eff code (seq code a0 n)) = true -> regs_of (seq code a0 (S n)) c ->
  exists s', state_after (difftest_regcpy c DIFFTEST_TO_REF) s = Ok s' /\ nemu_follows (S n) s'.
Proof.
  intros ((Hok & Ha & Hpc & Hh) & Hst) Hm Hc. destruct (mmio_frame _ (Hfit n) Hm) as [Hcsr Hmem].
  destruct (setregs_running (seq code a0 (S n)) s c) as (s' & E & Hr & Hn); try done.
  - apply (seq_ok code a0 Hok0 (S n)).
  - intros d Hd. rewrite (ag_csr _ _ Ha d Hd). f_equal. cbn [seq]. by rewrite <- Hcsr.
  - intros k p Hk Hp. rewrite (ag_mem _ _ Ha k p Hk Hp). symmetry. by apply (Hmem k p).
  - exists s'. split; [done|]. split; [done|]. by rewrite Hn.
Qed.

Variable buf : CPU_state.
Hypothesis Hbuf : length (gpr buf) = 32%nat.

Lemma getregs_of a s : machine_ok s -> agree a s -> Machine.pc (Machine.cpu s) = a_pc a ->
  exists c, value_of (difftest_regcpy buf DIFFTEST_TO_DUT) s = Ok c /\ regs_of a c.
Proof.
  intros Hok Ha Hpc. pose proof Hok as [[(Hl & _) _] _]. rewrite (nr_gpr_32 (sh_rve Hcfg)) in Hl.
  unfold value_of, difftest_regcpy. rewrite copy_gprs_spec by lia. rewrite take_0, drop_0. change ([] ++ ?x) with x.
  set (g := take 16 (gpr (Machine.cpu s)) ++ drop (0 + 16) (gpr buf)). eexists. split; [done|]. split_and!.
  - change (length g = 32%nat). unfold g. rewrite length_app, length_take, length_drop. lia.
  - intros i Hi. change (g !! i = Some (a_get a (Z.of_nat i))). unfold g.
    rewrite lookup_app_l by (rewrite length_take; lia). rewrite lookup_take_lt by lia. by apply gpr_of.
  - exact Hpc.
Qed.

#[global] Instance nemu_tracks : RefTracks (REF := nemu_ref buf) code a0.
Proof.
  refine (@Build_RefTracks _ (nemu_ref buf) code a0 nemu_follows _ _).
  - intros n s [Hr Hst] Hm. destruct (difftest_exec_advances Hcfg code (seq code a0 n) (seq_ok code a0 Hok0 n) (Hsup n) (Hfit n) Hm s Hr Hst)
      as (s' & E & Hok & Hag & Hpc & Hh & Hns). destruct (getregs_of (seq code a0 (S n)) s' Hok Hag Hpc) as (c & Ec & Hc).
    exists s', c. split_and!; [cbn; unfold state_after; by rewrite E|done|done|].
    intros Hb. split; [by split_and!|]. rewrite Hns. unfold ebreak_at, ebreaks in *. by rewrite Hb.
  - exact setregs_follows.
Defined.
End Track.
End Nemu.
