(* ===== verification/NpcDifftest.v ===== *)
(** The processor tested against the emulator, from the start of the simulator's [main]
    to its exit status: [difftest_init] of [nemu/src/cpu/difftest/ref.c], [init_difftest] of
    [npc/csrc/cpu/difftest/dut.cpp], the reset and the command [c] of batch mode. *)

From S2P Require Import Prelude Config AmBus Macro Decode Machine HostMem Region IoMap Paddr.
From S2P Require Import DevBasic Device Isa RvSpec IsaSelect IsaRefine Difftest Watchpoint Cpu Sdb Monitor.
From S2P Require Import NpcDatapath NpcCore NpcArch NpcExec NpcLanes NpcPipe NpcRefine NpcLive NpcCorrect NpcSim NpcSimProof NpcNemu.

Section Boot.
Context `{CFG : Config} `{HOST : Host}.

Definition difftest_init (rand_value : Z) : M Machine unit :=
  init_mem rand_value ;;
  init_isa ;;
  modify (fun s => s <| Machine.cpu -> Machine.csr := <[Z.to_nat 0xF11 := 0x79737978]> (Machine.csr (Machine.cpu s)) |>) ;;
  modify (fun s => s <| Machine.cpu -> Machine.csr := <[Z.to_nat 0xF12 := 0x017F4E2E]> (Machine.csr (Machine.cpu s)) |>).

Context `{ARCH : NpcArch} `{BOARD : Board}.

Definition image_base : Z := if ARCH_NPC then 0x80000000 else 0x30000000.

(** The two sides before [init_difftest]: the emulator [r] is initialised and agrees with
    the processor [w] except for the image and the general registers. *)
Record ready (w : sys) (img_size : Z) (r : Machine) : Prop := mkReady {
  rd_idle : idle w;
  rd_rf : forall k, 0 <= k < 16 -> rf (core w) k = 0;
  rd_ok : machine_ok r;
  rd_watch : head (wps r) = None;
  rd_state : Machine.state (nemu_state r) = NEMU_STOP;
  rd_csr : forall c, shared_csr c -> nth (Z.to_nat c) (Machine.csr (Machine.cpu r)) 0 = a_csr_get (a_csr (start w)) c;
  rd_size : 0 < img_size;
  rd_image : exists p, backed image_base img_size p;
  rd_bytes : bytes_ok (dmem w);
  rd_mem : forall k p, in_u 32 k -> ram_ptr k = Some p -> k < image_base \/ image_base + img_size <= k ->
    peek (mem r) (blk p) (off p) = dmem w k;
}.

Lemma guest_to_host_ram addr p s : ram_ptr addr = Some p -> guest_to_host addr s = Ok (p, s).
Proof.
  unfold ram_ptr, guest_to_host. intros H. repeat case_match; simplify_eq; done.
Qed.

Lemma length_get_bytes m addr n : length (get_bytes m addr n) = n.
Proof. unfold get_bytes. rewrite length_map, length_seqZ. lia. Qed.

Lemma nth_get_bytes m addr n k : (k < n)%nat -> nth k (get_bytes m addr n) 0 = m (addr + Z.of_nat k).
Proof.
  intros Hk. apply nth_lookup_Some. unfold get_bytes. rewrite list_lookup_fmap.
  by rewrite (proj2 (lookup_seqZ _ _ _ (Z.of_nat k))) by lia.
Qed.

Section Init.
Hypothesis Hcfg : share_config.
Variables (buf : CPU_state) (code : Z -> Z) (w : sys) (img_size : Z) (r : Machine).
Hypothesis Hrd : ready w img_size r.
Local Abbreviation a0 := (start (reset_sys w)).
Lemma start_reset : a0 = start w.
Proof. apply (held_keeps 0 31 w), Hrd. Qed.

(** The bytes of the image, then the registers. *)
Definition image_copied : Machine :=
  let p := default (Ptr BPmem 0) (ram_ptr image_base) in
  r <| mem := poke_bytes (mem r) (blk p) (off p) (get_bytes (dmem w) image_base (Z.to_nat img_size)) |>.

Lemma copy_image : state_after (difftest_memcpy image_base (get_bytes (dmem w) image_base (Z.to_nat img_size)) DIFFTEST_TO_REF) r = Ok image_copied.
Proof.
  destruct (rd_image _ _ _ Hrd) as (p & Hb). pose proof (backed_ptr _ _ _ (rd_size _ _ _ Hrd) Hb) as Hp. destruct Hb as (_ & H2 & _).
  unfold state_after, difftest_memcpy, image_copied. rewrite Hp. cbn [default from_option id].
  rewrite (bind_run _ _ _ _ _ (guest_to_host_ram _ _ r Hp)). unfold mem_copy.
  rewrite length_get_bytes, Z2Nat.id by (pose proof (rd_size _ _ _ Hrd); lia). by rewrite H2.
Qed.

Lemma image_mem k p : in_u 32 k -> ram_ptr k = Some p -> peek (mem image_copied) (blk p) (off p) = dmem w k.
Proof.
  intros Hk Hp. destruct (rd_image _ _ _ Hrd) as (b & Hb). pose proof (rd_size _ _ _ Hrd) as Hz.
  pose proof (backed_ptr _ _ _ Hz Hb) as Hbp. unfold image_copied. rewrite Hbp. cbn [default from_option id].
  change (mem (?x <| mem := ?h |>)) with h.
  rewrite (poke_peek _ image_base b _ k p); rewrite ?length_get_bytes, ?Z2Nat.id by lia; [|apply Hcfg|done|lia|done|done].
  destruct (_ && _) eqn:E; [|apply Hrd; try done; lia].
  rewrite nth_get_bytes by lia. f_equal. lia.
Qed.

Lemma image_ok : machine_ok image_copied.
Proof.
  destruct (rd_ok _ _ _ Hrd) as [Hw Hh]. split; [exact Hw|]. apply poke_bytes_ok; [done|].
  apply Forall_forall. intros x Hx. apply list_elem_of_In, in_map_iff in Hx as (j & <- & _). apply (rd_bytes _ _ _ Hrd).
Qed.

(** The registers that [init_difftest] sends: all zero, at the reset vector. *)
Lemma zero_regs : regs_of a0 (cpu (sim_zero (REF := nemu_ref buf) w r)).
Proof.
  rewrite start_reset. cbn [cpu sim_zero]. split_and!; [done| |done]. intros i Hi.
  change (replicate 32 0 !! i = Some (a_get (start w) (Z.of_nat i))). rewrite lookup_replicate_2 by lia. f_equal.
  unfold a_get, start. cbn [a_reg]. case_match; [done|]. symmetry. apply (rd_rf _ _ _ Hrd). lia.
Qed.

Lemma on_ref_zero (f : Machine -> result Machine) (r1 r2 : Machine) : f r1 = Ok r2 ->
  on_ref (REF := nemu_ref buf) f (sim_zero (REF := nemu_ref buf) w r1) = Ok (tt, sim_zero (REF := nemu_ref buf) w r2).
Proof. intros E. unfold on_ref. cbn. by rewrite E. Qed.

Lemma init_follows : arch_ok a0 -> exists r', init_difftest (REF := nemu_ref buf) img_size (sim_zero (REF := nemu_ref buf) w r) =
    Ok (tt, sim_zero (REF := nemu_ref buf) w r') /\ nemu_follows code a0 0 r'.
Proof.
  intros Ha. destruct (setregs_running Hcfg a0 image_copied (cpu (sim_zero (REF := nemu_ref buf) w r))) as (r' & E & Hr & Hn).
  - apply image_ok.
  - apply Hrd.
  - done.
  - apply zero_regs.
  - rewrite start_reset. apply Hrd.
  - rewrite start_reset. apply image_mem.
  - exists r'. split; [|split; [done|]; rewrite Hn; apply Hrd].
    unfold init_difftest. rewrite (bind_run _ _ _ (dmem w) _) by done.
    rewrite (bind_run _ _ _ _ _ (on_ref_zero _ r _ copy_image)).
    rewrite (bind_run _ _ _ (cpu (sim_zero (REF := nemu_ref buf) w r)) (sim_zero (REF := nemu_ref buf) w image_copied)) by done.
    by apply on_ref_zero.
Qed.

End Init.
End Boot.

(** * A program with a device access and a store *)

Module DifftestDemo.

#[local] Existing Instance npc_arch.
#[local] Instance cfg : Config := kconfig true false false.
#[local] Instance host : Host := null_host.

(** [auipc x5, 0; lui x4, 0x10000; sb x4, 0(x4); sw x4, 64(x5); ebreak; jal x0, -4; nop]; the
    last word is fetched behind the jump and may not be zero. *)
Definition prog : list Z := [0x00000297; 0x10000237; 0x00420023; 0x0442a023; 0x00100073; 0xffdff06f; 0x00000013].
Definition base : Z := 0x80000000.
Definition code (pc : Z) : Z := nth (Z.to_nat ((pc - base) / 4)) prog 0.
Definition memory (k : Z) : Z :=
  if (base <=? k) && (k <? base + 28) then nth (Z.to_nat (k - base)) (concat (map (le_split 4) prog)) 0 else 0.

Definition w0 : sys := mkSys (core zero_sys) memory.
Definition r0 : Machine := final (difftest_init 0) (machine_zero ∅ tt).
Definition buf : CPU_state := mkCPU (replicate 32 7) 0 [].

(** The memory map of the emulator at the addresses in use. *)
Lemma map_spec k : in_u 32 k -> ram_ptr k =
  if (0x0f000000 <=? k) && (k <? 0x0f002000) then Some (Ptr BSram (k - 0x0f000000))
  else if (0x20000000 <=? k) && (k <? 0x20001000) then Some (Ptr BMrom (k - 0x20000000))
  else if (0x30000000 <=? k) && (k <? 0x40000000) then Some (Ptr BFlash (k - 0x30000000))
  else if (base <=? k) && (k <? 0xa0000000) then Some (Ptr BPsram (k - base))
  else if (0xa0000000 <=? k) && (k <? 0xc0000000) then Some (Ptr BSdram (k - 0xa0000000))
  else if (base <=? k) && (k <? 0x82000000) then Some (Ptr BPmem (k - base))
  else None.
Proof.
  intros Hk. unfold ram_ptr. change soc_memory with true. cbv iota.
  unfold in_sram, in_mrom, in_flash, in_psram, in_sdram, in_pmem. rewrite !range_test by (done || (unfold region_ok; cbn; lia)). reflexivity.
Qed.

Lemma psram_ptr k : base <= k < 0xa0000000 -> ram_ptr k = Some (Ptr BPsram (k - base)).
Proof. unfold base. intros Hk. rewrite map_spec by (unfold in_u; lia). unfold base. repeat case_match; try done; lia. Qed.

Lemma uart_ptr k : 0x10000000 <= k < 0x10001000 -> ram_ptr k = None.
Proof. intros Hk. rewrite map_spec by (unfold in_u; lia). unfold base. repeat case_match; try done; lia. Qed.

Lemma psram_backed addr len : base <= addr -> addr + len <= 0xa0000000 -> 0 <= len -> backed addr len (Ptr BPsram (addr - base)).
Proof.
  unfold base. intros H1 H2 H3. split_and!; [|unfold in_block; cbn; lia|lia|lia].
  intros i Hi. rewrite psram_ptr by (unfold base; lia). unfold ptr_add, base. cbn [blk off]. do 2 f_equal. lia.
Qed.

(** ** The program *)

Definition touring (a : arch) : Prop :=
  (forall k, base <= k < base + 28 -> a_mem a k = memory k) /\
  (a_pc a = base \/ a_pc a = base + 4 /\ a_reg a 5 = base \/
   (a_pc a = base + 8 \/ a_pc a = base + 12) /\ a_reg a 5 = base /\ a_reg a 4 = 0x10000000 \/
   a_pc a = base + 16 \/ a_pc a = base + 20).

Lemma touring_fetch a n : touring a -> (n < 6)%nat -> a_pc a = base + 4 * Z.of_nat n ->
  (exists p, backed (a_pc a) 4 p) /\ code (a_pc a) = le_combine (get_bytes (a_mem a) (a_pc a) 4).
Proof.
  intros [Hm _] Hn ->. split; [eexists; apply psram_backed; unfold base; lia|].
  assert (get_bytes (a_mem a) (base + 4 * Z.of_nat n) 4 = get_bytes memory (base + 4 * Z.of_nat n) 4) as ->.
  { unfold get_bytes. apply map_ext_in. intros i Hi. apply list_elem_of_In, elem_of_seqZ in Hi. apply Hm. lia. }
  do 6 (destruct n as [|n]; [vm_compute; reflexivity|]). lia.
Qed.

(** The instruction at [base + 4 * n], decoded. *)
Definition instrs : list instr :=
  [I_auipc 5 0; I_lui 4 0x10000000; I_store 1 4 4 0; I_store 4 5 4 64; I_ebreak; I_jal 0 (-4)].

Lemma touring_instr a n : (n < 6)%nat -> a_pc a = base + 4 * Z.of_nat n -> a_instr code a = nth n instrs I_illegal.
Proof. intros Hn E. unfold a_instr. rewrite E. do 6 (destruct n as [|n]; [vm_compute; reflexivity|]). lia. Qed.

Lemma set_bytes_other m addr bs k : k < addr \/ addr + Z.of_nat (length bs) <= k -> set_bytes m addr bs k = m k.
Proof. intros H. unfold set_bytes. destruct (_ && _) eqn:E; [lia|done]. Qed.

Lemma touring_step a : touring a -> supported code a /\ fits code a /\ touring (a_step code a).
Proof.
  intros Ht. pose proof Ht as [Hm Hp].
  assert (exists n, (n < 6)%nat /\ a_pc a = base + 4 * Z.of_nat n) as (n & Hn & En).
  { destruct Hp as [E|[[E _]|[[[E|E] _]|[E|E]]]]; rewrite E; [exists 0%nat|exists 1%nat|exists 2%nat|exists 3%nat|exists 4%nat|exists 5%nat]; (split; [lia|done]). }
  assert ((n = 1%nat -> a_reg a 5 = base) /\ ((n = 2 \/ n = 3)%nat -> a_reg a 5 = base /\ a_reg a 4 = 0x10000000)) as [R1 R2]
    by (unfold base in *; lia).
  destruct (touring_fetch a n Ht Hn En) as [Hb Hc]. pose proof (touring_instr a n Hn En) as Ei.
  unfold supported, fits, touring, a_step, a_eff. rewrite Ei.
  destruct n as [|[|[|[|[|[|n]]]]]]; [..|lia].
  all: cbn [nth instrs effect e_npc e_rd e_val e_mem e_csr e_memory e_result a_pc a_reg a_mem Z.eqb Pos.eqb].
  all: rewrite En in *; split; [|split; [split; [exact Hb|split; [exact Hc|]]|]].
  all: try done.
  - split; [exact Hm|]. right. left. done.
  - split; [exact Hm|]. right. right. left. split; [by left|]. split; [by apply R1|done].
  - destruct (R2 (or_introl eq_refl)) as [R5 R4]. unfold a_get. cbn [Z.eqb]. rewrite R4. done.
  - destruct (R2 (or_introl eq_refl)) as [R5 R4]. unfold a_get. cbn [Z.eqb]. rewrite R4. split; [|done].
    change (is_mmio_addr (u32 (0x10000000 + 0))) with true. intros i Hi. apply uart_ptr. change (u32 (0x10000000 + 0)) with 0x10000000. lia.
  - destruct (R2 (or_introl eq_refl)) as [R5 R4]. split; [|right; right; left; split; [by right|done]].
    intros k Hk. unfold a_get. cbn [Z.eqb]. rewrite R4. change (u32 (0x10000000 + 0)) with 0x10000000.
    rewrite set_bytes_other by (rewrite length_le_split; unfold base in *; lia). by apply Hm.
  - destruct (R2 (or_intror eq_refl)) as [R5 R4]. unfold a_get. cbn [Z.eqb]. rewrite R5. done.
  - destruct (R2 (or_intror eq_refl)) as [R5 R4]. unfold a_get. cbn [Z.eqb]. rewrite R5. split; [|done].
    change (is_mmio_addr (u32 (base + 64))) with false. change (u32 (base + 64)) with (base + 64).
    eexists. split; [apply psram_backed; unfold base; lia|done].
  - destruct (R2 (or_intror eq_refl)) as [R5 R4]. split; [|right; right; right; by left].
    intros k Hk. unfold a_get. cbn [Z.eqb]. rewrite R5. change (u32 (base + 64)) with (base + 64).
    rewrite set_bytes_other by (rewrite length_le_split; unfold base in *; lia). by apply Hm.
  - split; [exact Hm|]. right. right. right. by right.
  - split; [exact Hm|]. right. right. right. by left.
Qed.

Lemma touring_run a n : touring a -> touring (seq code a n).
Proof. intros Ha. induction n as [|n IH]; [done|]. by apply touring_step. Qed.

(** ** The two sides at the start *)

Lemma memory_bytes k : in_u 8 (memory k).
Proof.
  unfold memory. destruct (_ && _); [|done]. generalize (Z.to_nat (k - base)). intros n.
  destruct (nth_in_or_default n (concat (map (le_split 4) prog)) 0) as [H| ->]; [|done].
  assert (Forall (in_u 8) (concat (map (le_split 4) prog))) as Hb by (apply (bool_decide_unpack _); vm_compute; exact I).
  rewrite Forall_forall in Hb. by apply Hb, list_elem_of_In.
Qed.

Lemma r0_mem : mem r0 = poke_bytes ∅ BPsram 0 img_bytes.
Proof. vm_compute. reflexivity. Qed.

Lemma demo_ready : ready w0 28 r0.
Proof.
  constructor; try done.
  - split; [split; [|reflexivity]|].
    + apply (bool_decide_unpack _). vm_compute. exact I.
    + rewrite r0_mem. apply poke_bytes_ok; [apply heap_ok_empty|apply img_bytes_ok].
  - intros c Hc. unfold shared_csr in Hc. rewrite !elem_of_cons, elem_of_nil in Hc.
    destruct Hc as [->|[->|[->|[->|[->|[->|[]]]]]]]; vm_compute; reflexivity.
  - eexists. apply psram_backed; unfold image_base, base; cbn; lia.
  - intros k. apply memory_bytes.
  - intros k p Hk Hp Ho. rewrite r0_mem.
    assert (backed base (Z.of_nat (length img_bytes)) (Ptr BPsram 0)) as Hb by (apply (psram_backed base); unfold base; cbn; lia).
    rewrite (poke_peek ∅ base (Ptr BPsram 0) img_bytes k p); [|by apply (bool_decide_unpack _)|done|cbn; lia|done|done].
    change (Z.of_nat (length img_bytes)) with 20. change image_base with base in Ho.
    clear Hb. change (dmem w0 k) with (memory k). unfold memory.
    assert ((base <=? k) = false \/ (k <? base + 20) = false /\ (k <? base + 28) = false) as [-> | [-> ->]] by lia; [|rewrite !andb_false_r];
      unfold peek; by rewrite lookup_empty.
Qed.

Lemma demo_share : share_config.
Proof. by constructor. Qed.

Lemma demo_start `{BOARD : Board} : start (reset_sys w0) = start w0.
Proof. apply (start_reset _ _ _ demo_ready). Qed.

Lemma demo_arch : arch_ok (start w0).
Proof. constructor; [done|done|exact memory_bytes|done]. Qed.

Lemma demo_touring : touring (start w0).
Proof. split; [done|]. by left. Qed.

(** No word that may be fetched is zero. *)
Lemma touring_fetchable a : touring a -> fetchable code (a_pc a) /\ fetchable code (u32 (a_pc a + 4)).
Proof. intros [_ Hp]. destruct Hp as [E|[[E _]|[[[E|E] _]|[E|E]]]]; rewrite E; by vm_compute. Qed.

Ltac ends_by := repeat (apply ends_step; [lia|vm_compute; reflexivity|]).
End DifftestDemo.
