(* ===== verification/NpcFabric.v ===== *)
(** What is behind the two ports of the processor in the build [ARCH_NPC]: [Arbiter.sv],
    [Xbar.sv], [MEM.sv], [UART.sv] and [CLINT.sv], connected as in [ysyx_25120302.v].

    The wires of an [AXI_IF] are two records, what the master drives ([req]) and what the
    slave drives ([resp]); bursts and response codes, which nothing in this build reads, are
    left out, and a wire that no module drives is 0. A clock edge is a function of the wires
    before it. The blocks of [Xbar.sv] that assign the same register are taken in their
    order. *)

From S2P Require Import Prelude AmBus RvSpec NpcDatapath NpcCore NpcArch NpcExec NpcLanes NpcPipe NpcMemory.

(** * [AXI_IF.sv] *)

Record req : Type := mkReq {
  q_arvalid : bool; q_araddr : Z; q_rready : bool;
  q_awvalid : bool; q_awaddr : Z; q_wvalid : bool; q_wdata : Z; q_wstrb : Z; q_bready : bool;
}.

Record resp : Type := mkResp {
  p_arready : bool; p_rvalid : bool; p_rdata : Z; p_rlast : bool;
  p_awready : bool; p_wready : bool; p_bvalid : bool;
}.

(** * [Arbiter.sv] *)

Inductive owner_t : Type := O_IDLE | O_LSU | O_IFU.
#[global] Instance owner_eq : EqDecision owner_t.
Proof. solve_decision. Defined.

Record arb_st : Type := mkArb { read_owner : owner_t; write_owner : owner_t; read_grant : owner_t }.
#[global] Instance eta_arb_st : Eta arb_st := fun s => mkArb (read_owner s) (write_owner s) (read_grant s).

Section Arbiter.
Variables (a : arb_st) (axi_ifu axi_lsu : req).

Definition arb_writes : bool := q_awvalid axi_lsu || bool_decide (write_owner a = O_LSU).

(** The wires that go on to the crossbar. *)
Definition arb_req : req :=
  let '(arvalid, araddr) := match read_grant a with
    | O_LSU => (q_arvalid axi_lsu, q_araddr axi_lsu)
    | O_IFU => (q_arvalid axi_ifu, q_araddr axi_ifu)
    | O_IDLE => (false, 0)
    end in
  let rready := match read_owner a with O_LSU => q_rready axi_lsu | O_IFU => q_rready axi_ifu | O_IDLE => false end in
  if arb_writes
  then mkReq arvalid araddr rready (q_awvalid axi_lsu) (q_awaddr axi_lsu) (q_wvalid axi_lsu) (q_wdata axi_lsu) (q_wstrb axi_lsu) (q_bready axi_lsu)
  else mkReq arvalid araddr rready false 0 false 0 0 false.

Variable p : resp.

(** The answers to the two masters. *)
Definition arb_ifu : resp :=
  let mine := bool_decide (read_owner a = O_IFU) in
  mkResp (bool_decide (read_grant a = O_IFU) && p_arready p) (mine && p_rvalid p) (if mine then p_rdata p else 0) (mine && p_rlast p)
    false false false.

Definition arb_lsu : resp :=
  let mine := bool_decide (read_owner a = O_LSU) in
  mkResp (bool_decide (read_grant a = O_LSU) && p_arready p) (mine && p_rvalid p) (if mine then p_rdata p else 0) false
    (arb_writes && p_awready p) (arb_writes && p_wready p) (arb_writes && p_bvalid p).

Definition arb_edge (rst : bool) : arb_st :=
  let q := arb_req in
  let ar := q_arvalid q && p_arready p in
  let r := p_rvalid p && q_rready q in
  mkArb
    (if rst then O_IDLE
     else if ar then (if bool_decide (read_owner a = O_IDLE) then read_grant a else read_owner a)
     else if r then
       (if bool_decide (read_owner a = O_LSU) then O_IDLE
        else if bool_decide (read_owner a = O_IFU) && p_rlast p then O_IDLE else read_owner a)
     else read_owner a)
    (if rst then O_IDLE
     else if q_awvalid q && p_awready p then
       (if q_awvalid axi_lsu then O_LSU else if q_awvalid axi_ifu then O_IFU else write_owner a)
     else if p_bvalid p && q_bready q then O_IDLE
     else write_owner a)
    (if rst then O_IDLE
     else if bool_decide (read_grant a = O_IDLE) && bool_decide (read_owner a = O_IDLE) then
       (if q_arvalid axi_lsu then O_LSU else if q_arvalid axi_ifu then O_IFU else read_grant a)
     else if ar then O_IDLE
     else read_grant a).
End Arbiter.

(** * [Xbar.sv] *)

Inductive slave_t : Type := X_IDLE | X_UART | X_SRAM | X_CLINT.
#[global] Instance slave_eq : EqDecision slave_t.
Proof. solve_decision. Defined.

Definition SRAM_BASE : Z := 0x80000000.
Definition SRAM_END : Z := 0x80ffffff.

Record xbar_st : Type := mkXbar {
  owner_rd : slave_t; owner_wr : slave_t; got_aw : bool; got_w : bool; sent_aw : bool; sent_w : bool; wdata_r : Z; wstrb_r : Z;
}.

Section Xbar.
Context `{ARCH : NpcArch}.

(** [sel_rd] and [sel_wr]. *)
Definition sel (addr : Z) : slave_t :=
  if (UART_BASE <=? addr) && (addr <=? UART_END) then X_UART
  else if (SRAM_BASE <=? addr) && (addr <=? SRAM_END) then X_SRAM
  else if (CLINT_BASE <=? addr) && (addr <=? CLINT_END) then X_CLINT
  else X_IDLE.

Definition base_of (k : slave_t) : Z :=
  match k with X_UART => UART_BASE | X_SRAM => SRAM_BASE | X_CLINT => CLINT_BASE | X_IDLE => 0 end.

Variables (x : xbar_st) (q : req) (mem uart clint : resp).

Definition slave {A} (f : resp -> A) (none : A) (k : slave_t) : A :=
  match k with X_UART => f uart | X_SRAM => f mem | X_CLINT => f clint | X_IDLE => none end.

Definition x_arready : bool := slave p_arready false (sel (q_araddr q)).
Definition x_awready : bool := slave p_awready false (sel (q_awaddr q)).
Definition fire_aw : bool := q_awvalid q && x_awready.
Definition x_wready : bool :=
  if fire_aw then slave p_wready false (sel (q_awaddr q))
  else if got_aw x then slave p_wready false (owner_wr x)
  else negb (got_w x).
Definition fire_w : bool := q_wvalid q && x_wready.
Definition x_rvalid : bool := slave p_rvalid false (owner_rd x).
Definition x_bvalid : bool := slave p_bvalid false (owner_wr x).

(** The answer to the arbiter. *)
Definition xbar_resp : resp :=
  mkResp x_arready x_rvalid (slave p_rdata 0 (owner_rd x)) (slave p_rlast false (owner_rd x)) x_awready x_wready x_bvalid.

(** The write data for slave [k]: valid, data, strobe. *)
Definition x_w (k : slave_t) : bool * Z * Z :=
  let pick b (v : bool) d s : bool * Z * Z := if b : bool then (v, d, s) else (false, 0, 0) in
  if fire_w then
    if got_aw x then pick (bool_decide (owner_wr x = k)) (q_wvalid q) (q_wdata q) (q_wstrb q)
    else if fire_aw then pick (bool_decide (sel (q_awaddr q) = k)) (q_wvalid q) (q_wdata q) (q_wstrb q)
    else (false, 0, 0)
  else if got_w x then
    if fire_aw then pick (bool_decide (sel (q_awaddr q) = k)) true (wdata_r x) (wstrb_r x)
    else if got_aw x then pick (bool_decide (owner_wr x = k)) (negb (sent_w x)) (wdata_r x) (wstrb_r x)
    else (false, 0, 0)
  else (false, 0, 0).

(** The wires to slave [k]. *)
Definition xbar_req (k : slave_t) : req :=
  let rd := bool_decide (sel (q_araddr q) = k) in
  let wr := bool_decide (sel (q_awaddr q) = k) in
  let '(wvalid, wdata, wstrb) := x_w k in
  mkReq (rd && q_arvalid q) (if rd then u32 (q_araddr q - base_of k) else 0) (bool_decide (owner_rd x = k) && q_rready q)
    (wr && q_awvalid q) (if wr then u32 (q_awaddr q - base_of k) else 0) wvalid wdata wstrb
    (bool_decide (owner_wr x = k) && q_bready q).

(** There is no reset. *)
Definition xbar_edge : xbar_st :=
  let ar := q_arvalid q && x_arready in
  let r := x_rvalid && q_rready q in
  let b := x_bvalid && q_bready q in
  let keep := fire_w && negb (got_aw x) && negb fire_aw && negb (got_w x) in
  let aw k := q_awvalid (xbar_req k) in
  let w k := q_wvalid (xbar_req k) in
  mkXbar
    (if r then X_IDLE else if ar then sel (q_araddr q) else owner_rd x)
    (if b then X_IDLE else if fire_aw then sel (q_awaddr q) else owner_wr x)
    (if b then false else if fire_aw then true else got_aw x)
    (if b then false else if fire_w then true else got_w x)
    (if b then false else if (aw X_UART && p_awready uart) || (aw X_SRAM && p_awready mem) then true else sent_aw x)
    (if b then false else if (w X_UART && p_wready uart) || (w X_SRAM && p_wready mem) then true else sent_w x)
    (if keep then q_wdata q else wdata_r x)
    (if keep then q_wstrb q else wstrb_r x).
End Xbar.

(** * [MEM.sv] *)

Record mem_st : Type := mkMem {
  is_busy_ar : bool; m_arready : bool; m_rvalid : bool; m_rdata : Z; m_rlast : bool;
  aw_got : bool; w_got : bool; mem_waddr : Z; mem_wdata : Z; mem_wmask : Z; m_bvalid : bool;
  m_words : words;
}.

Definition mem_resp (m : mem_st) : resp :=
  mkResp (m_arready m) (m_rvalid m) (m_rdata m) (m_rlast m) (negb (aw_got m)) (negb (w_got m)) (m_bvalid m).

(** Both accesses go through the functions of [memory.cpp]; [None]: the simulator has exited
    or left the array. *)
Definition mem_edge (rst : bool) (q : req) (m : mem_st) : option mem_st :=
  let take := q_arvalid q && negb (is_busy_ar m) in
  let aw := q_awvalid q && negb (aw_got m) in
  let w := q_wvalid q && negb (w_got m) in
  let b := m_bvalid m && q_bready q in
  let write := negb rst && aw_got m && w_got m in
  match (if take then pmem_read (m_words m) (q_araddr q) else Value (m_rdata m)),
        (if write then pmem_write (m_words m) (mem_waddr m) (mem_wdata m) (mem_wmask m) else Value (m_words m)) with
  | Value rdata, Value words =>
      Some (mkMem
        (if take then true else if q_rready q then false else is_busy_ar m)
        (negb (is_busy_ar m) && negb rst)
        (if take then true else if q_rready q then false else m_rvalid m)
        rdata
        (if take then true else if q_rready q then false else m_rlast m)
        (if rst then false else if b then false else if aw then true else aw_got m)
        (if rst then false else if b then false else if w then true else w_got m)
        (if negb rst && aw then u32 (q_awaddr q + 0x80000000) else mem_waddr m)
        (if negb rst && w then q_wdata q else mem_wdata m)
        (if negb rst && w then q_wstrb q else mem_wmask m)
        (if rst then false else if b then false else if write then true else m_bvalid m)
        words)
  | _, _ => None
  end.

(** * [UART.sv] *)

(** [printed] is what [$write] has put out, newest last. *)
Record uart_st : Type := mkUart {
  u_aw_got : bool; u_w_got : bool; u_wdata : Z; u_bvalid : bool; printed : list Z;
}.

(** The read channel is not driven; the assertion that nobody reads is switched off
    ([--noassert]). *)
Definition uart_resp (u : uart_st) : resp := mkResp false false 0 false (negb (u_aw_got u)) (negb (u_w_got u)) (u_bvalid u).

Definition uart_edge (rst : bool) (q : req) (u : uart_st) : uart_st :=
  let aw := q_awvalid q && negb (u_aw_got u) in
  let w := q_wvalid q && negb (u_w_got u) in
  let b := u_bvalid u && q_bready q in
  if rst then mkUart false false (u_wdata u) false (printed u)
  else mkUart
    (if b then false else if aw then true else u_aw_got u)
    (if b then false else if w then true else u_w_got u)
    (if w then q_wdata q else u_wdata u)
    (if b then false else if u_aw_got u && u_w_got u then true else u_bvalid u)
    (if b then printed u ++ [slice (u_wdata u) 7 0] else printed u).

(** * [CLINT.sv] *)

Record clint_st : Type := mkClint { mtime_lo : Z; mtime_hi : Z; c_arready : bool; c_rvalid : bool; c_rdata : Z }.

(** The write channels and [rlast] are not driven. *)
Definition clint_resp (c : clint_st) : resp := mkResp (c_arready c) (c_rvalid c) (c_rdata c) false false false false.

(** [None]: a read of another register ends the simulation ([$fatal]). *)
Definition clint_edge (rst : bool) (q : req) (c : clint_st) : option clint_st :=
  if rst then Some (mkClint 0 0 false false (c_rdata c))
  else
    let ar := q_arvalid q && c_arready c in
    let wraps := mtime_lo c =? 0xffffffff in
    if ar && negb (q_araddr q =? 0x48) && negb (q_araddr q =? 0x4c) then None
    else Some (mkClint (if wraps then 0 else u32 (mtime_lo c + 1)) (if wraps then u32 (mtime_hi c + 1) else mtime_hi c)
      (negb (c_rvalid c))
      (if ar then true else if c_rvalid c && q_rready q then false else c_rvalid c)
      (if ar then (if q_araddr q =? 0x48 then mtime_lo c else mtime_hi c) else c_rdata c)).

(** * [ysyx_25120302.v] *)

(** Everything behind the two ports. *)
Record fabric : Type := mkFabric { arb : arb_st; xbar : xbar_st; mem : mem_st; uart : uart_st; clint : clint_st }.

Section Top.
Context `{ARCH : NpcArch}.

(** The wires of the ports of the processor; [rready] of [IFU] looks at [reset] only. *)
Definition only_reset (rst : bool) : bus_in := mkBus rst false false 0 false false 0 false false false.

Definition ifu_port (rst : bool) (c : npc) : req :=
  mkReq (ifu_arvalid (ifu c)) (outstanding_pc (ifu c)) (ifu_rready (redirect c (only_reset rst)) (idu_ready c (only_reset rst)) (ifu c))
    false 0 false 0 0 false.

Definition lsu_port (c : npc) : req :=
  let l := lsu c in
  mkReq (arvalid l) (araddr l) (bool_decide (lsu_state l = LSU_WAIT_R)) (awvalid l) (awaddr l) (wvalid l) (wdata l) (wstrb l)
    (bool_decide (lsu_state l = LSU_WAIT_B)).

Variables (rst : bool) (c : npc) (f : fabric).

Definition to_xbar : req := arb_req (arb f) (ifu_port rst c) (lsu_port c).
Definition from_xbar : resp := xbar_resp (xbar f) to_xbar (mem_resp (mem f)) (uart_resp (uart f)) (clint_resp (clint f)).
Definition to_slave (k : slave_t) : req :=
  xbar_req (xbar f) to_xbar (mem_resp (mem f)) (uart_resp (uart f)) (clint_resp (clint f)) k.

(** What the processor sees in this cycle. *)
Definition fabric_in : bus_in :=
  let p := arb_ifu (arb f) from_xbar in
  let l := arb_lsu (arb f) (lsu_port c) from_xbar in
  mkBus rst (p_arready p) (p_rvalid p) (p_rdata p) (p_arready l) (p_rvalid l) (p_rdata l) (p_awready l) (p_wready l) (p_bvalid l).

Definition fabric_edge : option fabric :=
  m ← mem_edge rst (to_slave X_SRAM) (mem f);
  k ← clint_edge rst (to_slave X_CLINT) (clint f);
  Some (mkFabric (arb_edge (arb f) (ifu_port rst c) (lsu_port c) from_xbar rst)
    (xbar_edge (xbar f) to_xbar (mem_resp (mem f)) (uart_resp (uart f)) (clint_resp (clint f)))
    m (uart_edge rst (to_slave X_UART) (uart f)) k).
End Top.

Section Soc.
Context `{ARCH : NpcArch}.

(** The whole design. *)
Record soc : Type := mkSoc { cpu_core : npc; bus : fabric }.

Definition soc_step (rst : bool) (s : soc) : option soc :=
  f ← fabric_edge rst (cpu_core s) (bus s);
  Some (mkSoc (cycle (cpu_core s) (fabric_in rst (cpu_core s) (bus s))) f).

(** [n] cycles with their commits. *)
Fixpoint soc_run (n : nat) (s : soc) : option (list commit * soc) :=
  match n with
  | O => Some ([], s)
  | S n =>
      let i := fabric_in false (cpu_core s) (bus s) in
      s' ← soc_step false s;
      '(cs, s'') ← soc_run n s';
      Some (if commit_fire i (lsu (cpu_core s)) then wbu_commit (lsu (cpu_core s)) :: cs else cs, s'')
  end.

Fixpoint soc_reset (n : nat) (s : soc) : option soc :=
  match n with O => Some s | S n => s' ← soc_step true s; soc_reset n s' end.
End Soc.
