(* ===== verification/NpcFabricProof.v ===== *)
(** The processor with the bus fabric of [NpcFabric]: the arbiter, the crossbar and the
    memory answer every request with the right word, so the hypotheses of [NpcCorrect] about
    the memories are met by the design itself.

    The read side goes through four phases ([rd_phase]), the write side through three
    ([wr_phase]); this file follows them over one clock edge. The data memory of [NpcPipe] is a ghost: the
    words behind [MEM.sv] follow it one cycle later. *)

From S2P Require Import Prelude AmBus RvSpec NpcDatapath NpcCore NpcArch NpcExec NpcLanes NpcPipe NpcRefine NpcLive NpcCorrect NpcMemory NpcFabric.

(** * Memory *)

Definition in_sram (addr : Z) : Prop := SRAM_BASE <= addr <= SRAM_END.
Definition in_uart (addr : Z) : Prop := UART_BASE <= addr <= UART_END.

(** The words hold the bytes of [d]. *)
Definition view (m : words) (d : ram) : Prop :=
  words_ok m /\ forall k, in_sram k -> d k = bytes_of m (k - SRAM_BASE).

Lemma word_base_shift k : word_base (k - SRAM_BASE) = word_base k - SRAM_BASE.
Proof. unfold word_base, SRAM_BASE. dlia. Qed.

Lemma sram_word k j : in_sram k -> 0 <= j < 4 -> in_sram (word_base k + j).
Proof. unfold in_sram, word_base, SRAM_BASE, SRAM_END. dlia. Qed.

Lemma bus_word_moved m m' a a' : (forall j, 0 <= j < 4 -> m (word_base a + j) = m' (word_base a' + j)) -> bus_word m a = bus_word m' a'.
Proof.
  intros H. rewrite !bus_word_bytes. pose proof (H 0 ltac:(lia)) as H0. rewrite !Z.add_0_r in H0.
  by rewrite H0, (H 1), (H 2), (H 3) by lia.
Qed.

Lemma view_word m d addr : view m d -> in_sram addr -> bus_word (bytes_of m) (addr - SRAM_BASE) = bus_word d addr.
Proof.
  intros [_ Hv] Ha. apply bus_word_moved. intros j Hj. rewrite word_base_shift, (Hv (word_base addr + j)) by (by apply sram_word).
  f_equal. lia.
Qed.

Lemma sram_offset addr : in_sram addr -> u32 (addr - SRAM_BASE) = addr - SRAM_BASE /\ 0 <= addr - SRAM_BASE < 4 * N_WORDS.
Proof.
  unfold in_sram, SRAM_BASE, SRAM_END, N_WORDS. intros H. split; [|lia]. apply wrap_id. unfold in_u. lia.
Qed.

Lemma view_read m addr : words_ok m -> in_sram addr ->
  pmem_read m (u32 (addr - SRAM_BASE)) = Value (bus_word (bytes_of m) (addr - SRAM_BASE)).
Proof.
  intros Hm Ha. destruct (sram_offset addr Ha) as [-> Hr]. by apply pmem_read_is_bus_word.
Qed.

(** A write that is under way: the words before it, [d] after it. *)
Definition pending (m : words) (waddr wdata wmask : Z) (d : ram) : Prop :=
  in_sram waddr /\ in_u 32 wdata /\ exists d0, view m d0 /\ forall k, in_sram k -> d k = strobe_write d0 waddr wdata wmask k.

Lemma strobe_twice m a v b k : strobe_write (strobe_write m a v b) a v b k = strobe_write m a v b k.
Proof. unfold strobe_write. by case_match. Qed.

Lemma strobe_shift m m' a v b k : m k = m' (k - SRAM_BASE) ->
  strobe_write m a v b k = strobe_write m' (a - SRAM_BASE) v b (k - SRAM_BASE).
Proof.
  intros H. unfold strobe_write. rewrite word_base_shift. by replace (k - SRAM_BASE - (word_base a - SRAM_BASE)) with (k - word_base a) by lia; rewrite H.
Qed.

Lemma pending_written m a v b d : pending m a v b d ->
  exists m', pmem_write m a v b = Value m' /\ view m' d /\ pending m' a v b d /\
    forall p, word_base p <> word_base a -> bus_word (bytes_of m') (p - SRAM_BASE) = bus_word (bytes_of m) (p - SRAM_BASE).
Proof.
  intros (Ha & Hv & d0 & [Hw Hd0] & Hd).
  destruct (pmem_write_is_strobe_write m a v b Hw Hv) as (m' & E & Hw' & Hb).
  { change PSRAM_ADDR with SRAM_BASE. pose proof (sram_offset a Ha) as [_ H]. lia. }
  change PSRAM_ADDR with SRAM_BASE in Hb.
  assert (view m' d) as Hv'.
  { split; [done|]. intros k Hk. rewrite Hd, Hb by done. by apply strobe_shift, Hd0. }
  exists m'. split_and!; [done..| |].
  - split_and!; [apply Ha..|apply Hv|]. exists d. split; [done|]. intros k Hk. rewrite Hd by done.
    rewrite <- strobe_twice. unfold strobe_write at 1. unfold strobe_write at 2. case_match; [done|]. by rewrite Hd.
  - intros p Hp. apply bus_word_moved. intros j Hj. rewrite Hb. unfold strobe_write. rewrite !word_base_shift.
    destruct (Z.leb_spec 0 (word_base p - SRAM_BASE + j - (word_base a - SRAM_BASE))), (Z.ltb_spec (word_base p - SRAM_BASE + j - (word_base a - SRAM_BASE)) 4);
      try done. exfalso. apply Hp. unfold word_base in *. lia.
Qed.

Lemma lane_data_ok len addr v : in_u 32 v -> in_u 32 (lane_data (store_code len) addr v).
Proof.
  intros Hv. unfold lane_data. case_match; [|case_match; [by apply wrap_in_u|done]].
  unfold slice, cat, in_u in *. numerals. dlia.
Qed.

(** * Wires *)

Lemma sel_sram `{ARCH : NpcArch} addr : in_sram addr -> sel addr = X_SRAM.
Proof.
  unfold in_sram, SRAM_BASE, SRAM_END. intros H. unfold sel, UART_BASE, UART_END, SRAM_BASE, SRAM_END.
  rewrite (proj2 (Z.leb_gt addr _)), andb_false_r by lia. by rewrite !(proj2 (Z.leb_le _ _)) by lia.
Qed.

Lemma sel_uart `{ARCH : NpcArch} addr : in_uart addr -> sel addr = X_UART.
Proof. unfold in_uart, sel. intros H. by rewrite !(proj2 (Z.leb_le _ _)) by lia. Qed.

Lemma sel_none `{ARCH : NpcArch} : sel 0 = X_IDLE.
Proof. unfold sel, CLINT_BASE, CLINT_END. by destruct ARCH_NPC. Qed.

(** The masters that read: what they ask for, and whether they wait for an answer. *)
Definition addr_of (c : npc) (g : owner_t) : Z :=
  match g with O_IFU => outstanding_pc (ifu c) | O_LSU => araddr (lsu c) | O_IDLE => 0 end.
Definition asking (c : npc) (g : owner_t) : bool :=
  match g with O_IFU => ifu_arvalid (ifu c) | O_LSU => bool_decide (lsu_state (lsu c) = LSU_READ_ADDR) | O_IDLE => false end.
Definition waiting (c : npc) (g : owner_t) : bool :=
  match g with
  | O_IFU => bool_decide (axi_state (ifu c) = AXI_WAIT_R)
  | O_LSU => bool_decide (lsu_state (lsu c) = LSU_WAIT_R)
  | O_IDLE => false
  end.

(** What the fabric relies on at the ports. *)
Record ports_ok (c : npc) : Prop := mkPortsOk {
  po_ar : arvalid (lsu c) = asking c O_LSU;
  po_aw : awvalid (lsu c) = bool_decide (lsu_state (lsu c) = LSU_WRITE_REQ);
  po_w : wvalid (lsu c) = bool_decide (lsu_state (lsu c) = LSU_WRITE_REQ);
  po_read g : asking c g || waiting c g = true -> in_sram (addr_of c g);
  po_empty : waiting c O_IFU = true -> ifu_state (ifu c) = IFU_EMPTY;
  po_write : lsu_state (lsu c) = LSU_WRITE_REQ ->
    (in_sram (awaddr (lsu c)) \/ in_uart (awaddr (lsu c))) /\ in_u 32 (wdata (lsu c));
}.

Section Wires.
Context `{ARCH : NpcArch}.
Variables (rst : bool) (c : npc) (f : fabric).
Hypothesis Hp : ports_ok c.

Lemma to_xbar_read : q_arvalid (to_xbar rst c f) = asking c (read_grant (arb f)) /\
  q_araddr (to_xbar rst c f) = addr_of c (read_grant (arb f)) /\
  (waiting c (read_owner (arb f)) = true -> q_rready (to_xbar rst c f) = true) /\
  (read_owner (arb f) = O_IDLE -> q_rready (to_xbar rst c f) = false).
Proof.
  unfold to_xbar, arb_req. set (b := arb_writes _ _). split_and!.
  - destruct b, (read_grant (arb f)); cbn; try done; by rewrite (po_ar c Hp).
  - destruct b, (read_grant (arb f)); done.
  - intros Hw. assert (match read_owner (arb f) with O_LSU => q_rready (lsu_port c) | O_IFU => q_rready (ifu_port rst c) | O_IDLE => false end = true) as E.
    { destruct (read_owner (arb f)); cbn [waiting lsu_port ifu_port q_rready] in *; [done|done|].
      unfold ifu_rready, ifu_out_valid. rewrite (po_empty c Hp Hw), Hw. done. }
    destruct b, (read_grant (arb f)); exact E.
  - intros E. rewrite E. destruct b, (read_grant (arb f)); done.
Qed.

(** The request that has been granted goes to the memory. *)
Lemma granted_sel g : read_grant (arb f) = g -> asking c g = true -> sel (q_araddr (to_xbar rst c f)) = X_SRAM.
Proof.
  intros Hg Ha. destruct to_xbar_read as (_ & -> & _). rewrite Hg. apply sel_sram, (po_read c Hp). by rewrite Ha.
Qed.

Lemma idle_sel : read_grant (arb f) = O_IDLE -> sel (q_araddr (to_xbar rst c f)) = X_IDLE.
Proof. intros Hg. destruct to_xbar_read as (_ & -> & _). rewrite Hg. apply sel_none. Qed.

Lemma to_slave_read k : q_arvalid (to_slave rst c f k) = bool_decide (sel (q_araddr (to_xbar rst c f)) = k) && q_arvalid (to_xbar rst c f) /\
  q_araddr (to_slave rst c f k) = (if bool_decide (sel (q_araddr (to_xbar rst c f)) = k) then u32 (q_araddr (to_xbar rst c f) - base_of k) else 0) /\
  q_rready (to_slave rst c f k) = bool_decide (owner_rd (xbar f) = k) && q_rready (to_xbar rst c f).
Proof. unfold to_slave, xbar_req. destruct (x_w _ _ _ _ _ k) as [[? ?] ?]. done. Qed.

Lemma to_slave_write k : q_awvalid (to_slave rst c f k) = bool_decide (sel (q_awaddr (to_xbar rst c f)) = k) && q_awvalid (to_xbar rst c f) /\
  q_awaddr (to_slave rst c f k) = (if bool_decide (sel (q_awaddr (to_xbar rst c f)) = k) then u32 (q_awaddr (to_xbar rst c f) - base_of k) else 0) /\
  (q_wvalid (to_slave rst c f k), q_wdata (to_slave rst c f k), q_wstrb (to_slave rst c f k)) =
    x_w (xbar f) (to_xbar rst c f) (mem_resp (mem f)) (uart_resp (uart f)) (clint_resp (clint f)) k /\
  q_bready (to_slave rst c f k) = bool_decide (owner_wr (xbar f) = k) && q_bready (to_xbar rst c f).
Proof. unfold to_slave, xbar_req. destruct (x_w _ _ _ _ _ k) as [[? ?] ?]. done. Qed.
End Wires.

(** * Reads *)

Inductive rd_phase : Type := R_quiet | R_granted (g : owner_t) | R_taken (g : owner_t) | R_owned (g : owner_t).

(** The registers of a phase: nothing under way; a master has been granted the bus; the
    memory has its request, the master does not know; the answer is there. *)
Definition rd_regs (ph : rd_phase) (f : fabric) : Prop :=
  let a := arb f in
  let m := mem f in
  match ph with
  | R_quiet => read_grant a = O_IDLE /\ read_owner a = O_IDLE /\ owner_rd (xbar f) = X_IDLE /\
      is_busy_ar m = false /\ m_rvalid m = false
  | R_granted g => read_grant a = g /\ read_owner a = O_IDLE /\ owner_rd (xbar f) = X_IDLE /\
      is_busy_ar m = false /\ m_rvalid m = false /\ g <> O_IDLE
  | R_taken g => read_grant a = g /\ read_owner a = O_IDLE /\ owner_rd (xbar f) = X_IDLE /\
      is_busy_ar m = true /\ m_rvalid m = true /\ g <> O_IDLE /\ m_rlast m = true /\ m_arready m = true
  | R_owned g => read_grant a = O_IDLE /\ read_owner a = g /\ owner_rd (xbar f) = X_SRAM /\
      is_busy_ar m = true /\ m_rvalid m = true /\ g <> O_IDLE /\ m_rlast m = true
  end.

(** What the masters do in it. *)
Definition rd_core (ph : rd_phase) (c : npc) : Prop :=
  match ph with
  | R_quiet => True
  | R_granted g | R_taken g => asking c g = true
  | R_owned g => waiting c g = true
  end /\ forall g, ph <> R_owned g -> waiting c g = false.

Definition rd_next (ph : rd_phase) (ready : bool) (c : npc) : rd_phase :=
  match ph with
  | R_quiet => if asking c O_LSU then R_granted O_LSU else if asking c O_IFU then R_granted O_IFU else R_quiet
  | R_granted g => if ready then R_owned g else R_taken g
  | R_taken g => R_owned g
  | R_owned g => R_quiet
  end.

(** The handshakes of master [g]. *)
Definition g_arready (i : bus_in) (g : owner_t) : bool :=
  match g with O_IFU => i_arready i | O_LSU => l_arready i | O_IDLE => false end.
Definition g_rvalid (i : bus_in) (g : owner_t) : bool :=
  match g with O_IFU => i_rvalid i | O_LSU => l_rvalid i | O_IDLE => false end.
Definition g_rdata (i : bus_in) (g : owner_t) : Z :=
  match g with O_IFU => i_rdata i | O_LSU => l_rdata i | O_IDLE => 0 end.

Section Reads.
Context `{ARCH : NpcArch}.
Variables (c : npc) (f : fabric).
Hypothesis Hp : ports_ok c.

Local Abbreviation i := (fabric_in false c f).
Local Abbreviation q := (to_xbar false c f).
Local Abbreviation p := (from_xbar false c f).

Lemma from_xbar_read ph : rd_regs ph f -> rd_core ph c ->
  p_arready p = match ph with R_granted _ => m_arready (mem f) | R_taken _ => true | _ => false end /\
  p_rvalid p = match ph with R_owned _ => true | _ => false end /\
  (forall g, ph = R_owned g -> p_rdata p = m_rdata (mem f) /\ p_rlast p = true).
Proof.
  intros Hr [Hc _]. unfold from_xbar. cbn [xbar_resp p_arready p_rvalid p_rdata p_rlast]. unfold x_arready, x_rvalid.
  destruct ph as [|g|g|g]; cbn [rd_regs] in Hr.
  - destruct Hr as (E1 & E2 & E3 & E4 & E5). rewrite (idle_sel false c f Hp E1), E3. done.
  - destruct Hr as (E1 & E2 & E3 & E4 & E5 & E6). rewrite (granted_sel false c f Hp g E1 Hc), E3. done.
  - destruct Hr as (E1 & E2 & E3 & E4 & E5 & E6 & E7 & E8). rewrite (granted_sel false c f Hp g E1 Hc), E3. cbn. by rewrite E8.
  - destruct Hr as (E1 & E2 & E3 & E4 & E5 & E6 & E7). rewrite (idle_sel false c f Hp E1), E3. cbn. by rewrite E5, E7.
Qed.

(** What the masters see. *)
Lemma fabric_in_read ph g : rd_regs ph f -> rd_core ph c ->
  g_arready i g = match ph with
    | R_granted g' => bool_decide (g = g') && m_arready (mem f) | R_taken g' => bool_decide (g = g') | _ => false end /\
  g_rvalid i g = match ph with R_owned g' => bool_decide (g = g') | _ => false end /\
  (ph = R_owned g -> g_rdata i g = m_rdata (mem f)).
Proof.
  intros Hr Hc. destruct (from_xbar_read ph Hr Hc) as (E1 & E2 & E3). unfold fabric_in.
  destruct g; cbn [g_arready g_rvalid g_rdata i_arready i_rvalid i_rdata l_arready l_rvalid l_rdata arb_ifu arb_lsu p_arready p_rvalid p_rdata].
  all: rewrite ?E1, ?E2; destruct ph as [|g'|g'|g']; cbn [rd_regs] in Hr; destruct_and! Hr;
    repeat match goal with H : _ = _ :> owner_t |- _ => rewrite ?H; clear H end; rewrite ?andb_false_r; split_and!; try done.
  all: try (destruct g'; try done; by rewrite ?andb_true_r).
  all: intros [= ->]; by rewrite bool_decide_eq_true_2, (proj1 (E3 _ eq_refl)).
Qed.

(** The registers after the edge, and what the memory has read. *)
Lemma read_step ph f' : rd_regs ph f -> rd_core ph c -> words_ok (m_words (mem f)) -> fabric_edge false c f = Some f' ->
  rd_regs (rd_next ph (m_arready (mem f)) c) f' /\
  match ph with
  | R_granted g => m_rdata (mem f') = bus_word (bytes_of (m_words (mem f))) (addr_of c g - SRAM_BASE)
  | R_taken g => m_rdata (mem f') = m_rdata (mem f)
  | _ => True
  end.
Proof.
  intros Hr Hc Hw He. unfold fabric_edge in He. apply bind_Some in He as (m' & Hm & He). apply bind_Some in He as (k' & _ & [= <-]).
  destruct (from_xbar_read ph Hr Hc) as (E1 & E2 & E3). destruct (to_xbar_read false c f Hp) as (Q1 & Q2 & Q3 & Q4).
  destruct (to_slave_read false c f X_SRAM) as (S1 & S2 & S3).
  unfold mem_edge in Hm. rewrite S1, S2, S3 in Hm.
  set (wr := if negb false && aw_got (mem f) && w_got (mem f) then _ else _) in Hm.
  assert (x_arready q (mem_resp (mem f)) (uart_resp (uart f)) (clint_resp (clint f)) = p_arready p) as X1 by done.
  assert (x_rvalid (xbar f) (mem_resp (mem f)) (uart_resp (uart f)) (clint_resp (clint f)) = p_rvalid p) as X2 by done.
  destruct ph as [|g|g|g]; cbn [rd_regs] in Hr.
  - destruct Hr as (R1 & R2 & R3 & R4 & R5). rewrite R1 in Q1. cbn [asking] in Q1.
    rewrite (idle_sel false c f Hp R1), R3, R4, Q1 in Hm. cbn [andb negb bool_decide decide_rel] in Hm. destruct wr; [|done..]. injection Hm as <-.
    split; [|done]. unfold rd_next, rd_regs. cbn [arb xbar mem arb_edge xbar_edge read_grant read_owner owner_rd is_busy_ar m_rvalid].
    fold (to_xbar false c f). rewrite X1, X2, Q1, R1, R2, R3, R5, E1, E2. cbn. rewrite (po_ar c Hp). change (q_arvalid (ifu_port false c)) with (asking c O_IFU).
    cbn [asking]. by destruct (bool_decide (lsu_state (lsu c) = LSU_READ_ADDR)), (ifu_arvalid (ifu c)).
  - destruct Hr as (R1 & R2 & R3 & R4 & R5 & R6). pose proof (granted_sel false c f Hp g R1 (proj1 Hc)) as Hs.
    assert (in_sram (addr_of c g)) as Ha by (apply (po_read c Hp); by rewrite (proj1 Hc)).
    rewrite Hs, R3, R4, Q1, Q2, R1, (proj1 Hc) in Hm. cbn [andb negb bool_decide decide_rel base_of] in Hm.
    change (bool_decide (X_SRAM = X_SRAM)) with true in Hm. cbn [andb] in Hm. rewrite (view_read _ _ Hw Ha) in Hm.
    destruct wr; [|done..]. injection Hm as <-. split; [|done]. unfold rd_next, rd_regs.
    cbn [arb xbar mem arb_edge xbar_edge read_grant read_owner owner_rd is_busy_ar m_rvalid m_rlast m_arready].
    fold (to_xbar false c f). rewrite X1, X2, Q1, R1, R2, R3, (proj1 Hc), E1, E2, Hs. 
    rewrite (bool_decide_eq_false_2 (g = O_IDLE)) by done. destruct (m_arready (mem f)); cbn; done.
  - destruct Hr as (R1 & R2 & R3 & R4 & R5 & R6 & R7 & R8). pose proof (granted_sel false c f Hp g R1 (proj1 Hc)) as Hs.
    rewrite Hs, R3, R4, Q1, R1, (proj1 Hc) in Hm. cbn in Hm. destruct wr; [|done..]. injection Hm as <-. split; [|done].
    unfold rd_next, rd_regs. cbn [arb xbar mem arb_edge xbar_edge read_grant read_owner owner_rd is_busy_ar m_rvalid m_rlast m_arready].
    fold (to_xbar false c f). rewrite X1, X2, Q1, R1, R2, (proj1 Hc), E1, E2, Hs, R5, R7.
    rewrite (bool_decide_eq_false_2 (g = O_IDLE)) by done. done.
  - destruct Hr as (R1 & R2 & R3 & R4 & R5 & R6 & R7). rewrite R2 in Q3. destruct (E3 g eq_refl) as [_ E4].
    rewrite (idle_sel false c f Hp R1), R3, R4, (Q3 (proj1 Hc)) in Hm. cbn in Hm. destruct wr; [|done..]. injection Hm as <-. split; [|done].
    unfold rd_next, rd_regs. cbn [arb xbar mem arb_edge xbar_edge read_grant read_owner owner_rd is_busy_ar m_rvalid m_rlast m_arready].
    fold (to_xbar false c f). rewrite X1, X2, Q1, R1, R2, E1, E2, (Q3 (proj1 Hc)), E4. cbn [asking andb]. by destruct g.
Qed.
End Reads.

(** * The masters *)

Section Masters.
Context `{ARCH : NpcArch}.

Variables (c : npc) (i : bus_in).
Hypotheses (Hr : reset i = false) (Hp : ports_ok c).
Local Abbreviation c' := (cycle c i).

(** The address of a request is held until it is answered. *)
Lemma master_asks g : asking c g = true -> addr_of c' g = addr_of c g /\
  asking c' g = negb (g_arready i g) /\ waiting c' g = g_arready i g.
Proof.
  intros Ha. destruct g; [done| |].
  - cbn [asking] in Ha. apply bool_decide_eq_true in Ha. pose proof (po_ar c Hp) as Hv. cbn [asking] in Hv. rewrite Ha in Hv.
    cbn [addr_of asking waiting g_arready cycle lsu]. destruct (lsu c) as [st va reg wb arv ara awv awa wv wd ws].
    cbn [lsu_state arvalid] in Ha, Hv. subst st arv. lsu_registers Hr. unfold ar_fire. cbn [arvalid araddr andb].
    by destruct (l_arready i).
  - cbn [asking addr_of waiting g_arready cycle ifu] in *. unfold ifu_arvalid in *. apply bool_decide_eq_true in Ha.
    generalize (fencei_done i (lsu c)) (redirect_to c) (redirect c i) (idu_ready c i). intros fd to rd rdy.
    destruct (ifu_edge_port i fd to rd rdy (ifu c)) as [-> ->].
    unfold ifu_axi_edge, ifu_ar_fire, ifu_arvalid. rewrite Hr, Ha. decided. cbn [andb].
    destruct rd, (i_arready i); cbn; rewrite ?Ha; done.
Qed.

(** An answer is taken at once. *)
Lemma master_waits g : waiting c g = true -> g_rvalid i g = true -> waiting c' g = false.
Proof.
  intros Ha Hv. destruct g; [done| |].
  - cbn [waiting g_rvalid cycle lsu] in *. apply bool_decide_eq_true in Ha.
    destruct (lsu c) as [st va reg wb arv ara awv awa wv wd ws]. cbn [lsu_state] in Ha. subst st. lsu_registers Hr. by rewrite Hv.
  - pose proof (po_empty c Hp Ha) as He. cbn [waiting g_rvalid cycle ifu] in *. apply bool_decide_eq_true in Ha.
    generalize (fencei_done i (lsu c)) (redirect_to c) (redirect c i) (idu_ready c i). intros fd to rd rdy.
    destruct (ifu_edge_port i fd to rd rdy (ifu c)) as [-> _].
    unfold ifu_axi_edge, ifu_r_fire, ifu_rready, ifu_out_valid. rewrite Hr, Ha, Hv, He. decided. done.
Qed.

Lemma master_idle g : waiting c g = false -> asking c g = false -> waiting c' g = false.
Proof.
  intros Hw Ha. destruct g; [done| |].
  - cbn [waiting asking cycle lsu] in *. apply bool_decide_eq_false in Hw, Ha.
    destruct (lsu c) as [st va reg wb arv ara awv awa wv wd ws]. cbn [lsu_state] in Hw, Ha.
    destruct st; try done; lsu_registers Hr; repeat case_match; done.
  - cbn [waiting asking cycle ifu] in *. unfold ifu_arvalid in Ha. apply bool_decide_eq_false in Hw, Ha.
    generalize (fencei_done i (lsu c)) (redirect_to c) (redirect c i) (idu_ready c i). intros fd to rd rdy.
    destruct (ifu_edge_port i fd to rd rdy (ifu c)) as [-> _].
    unfold ifu_axi_edge. rewrite Hr. destruct (axi_state (ifu c)) eqn:E; [|done..]. repeat case_match; cbn; rewrite ?E; done.
Qed.
End Masters.

(** * Writes *)

Inductive wr_phase : Type := W_quiet | W_sent (k : slave_t) | W_done (k : slave_t).

(** A slave has the address and the data of a write, and answers. *)
Definition slave_regs (f : fabric) (k : slave_t) (got done : bool) : Prop :=
  match k with
  | X_SRAM => aw_got (mem f) = got /\ w_got (mem f) = got /\ m_bvalid (mem f) = done
  | X_UART => u_aw_got (uart f) = got /\ u_w_got (uart f) = got /\ u_bvalid (uart f) = done
  | _ => True
  end.

Definition wr_sent (k : slave_t) (done : bool) (f : fabric) : Prop :=
  write_owner (arb f) = O_LSU /\ owner_wr (xbar f) = k /\ got_aw (xbar f) = true /\ got_w (xbar f) = true /\ sent_w (xbar f) = true /\
  (k = X_SRAM \/ k = X_UART) /\ forall k', slave_regs f k' (bool_decide (k' = k)) (bool_decide (k' = k) && done).

Definition wr_regs (ph : wr_phase) (f : fabric) : Prop :=
  match ph with
  | W_quiet => write_owner (arb f) = O_IDLE /\ owner_wr (xbar f) = X_IDLE /\ got_aw (xbar f) = false /\ got_w (xbar f) = false /\
      forall k, slave_regs f k false false
  | W_sent k => wr_sent k false f
  | W_done k => wr_sent k true f
  end.

Definition wr_core `{ARCH : NpcArch} (ph : wr_phase) (c : npc) : Prop :=
  match ph with
  | W_quiet => lsu_state (lsu c) <> LSU_WAIT_B
  | W_sent k | W_done k => lsu_state (lsu c) = LSU_WAIT_B /\ sel (awaddr (lsu c)) = k
  end.

Section Writes.
Context `{ARCH : NpcArch}.
Variables (c : npc) (f : fabric).
Hypothesis Hp : ports_ok c.

Local Abbreviation i := (fabric_in false c f).
Local Abbreviation q := (to_xbar false c f).
Local Abbreviation l := (lsu c).

Lemma to_xbar_write : arb_writes (arb f) (lsu_port c) = true ->
  q_awvalid q = awvalid l /\ q_awaddr q = awaddr l /\ q_wvalid q = wvalid l /\ q_wdata q = wdata l /\ q_wstrb q = wstrb l /\
  q_bready q = bool_decide (lsu_state l = LSU_WAIT_B).
Proof. intros H. unfold to_xbar, arb_req. rewrite H. by destruct (read_grant (arb f)). Qed.

Lemma to_xbar_silent : arb_writes (arb f) (lsu_port c) = false ->
  q_awvalid q = false /\ q_awaddr q = 0 /\ q_wvalid q = false /\ q_bready q = false.
Proof. intros H. unfold to_xbar, arb_req. rewrite H. by destruct (read_grant (arb f)). Qed.

(** A request: both channels are taken by the slave it is for. *)
Lemma write_request k : wr_regs W_quiet f -> lsu_state l = LSU_WRITE_REQ -> sel (awaddr l) = k -> k = X_SRAM \/ k = X_UART ->
  l_awready i = true /\ l_wready i = true /\ l_bvalid i = false /\
  (forall k', q_awvalid (to_slave false c f k') = bool_decide (k' = k) /\ q_wvalid (to_slave false c f k') = bool_decide (k' = k) /\
    q_bready (to_slave false c f k') = false) /\
  q_awaddr (to_slave false c f k) = u32 (awaddr l - base_of k) /\ q_wdata (to_slave false c f k) = wdata l /\ q_wstrb (to_slave false c f k) = wstrb l /\
  q_awvalid q && p_awready (from_xbar false c f) = true /\ fire_w (xbar f) q (mem_resp (mem f)) (uart_resp (uart f)) (clint_resp (clint f)) = true.
Proof.
  intros (R1 & R2 & R3 & R4 & R5) Hs Hk Hsu. pose proof (po_aw c Hp) as Ha. pose proof (po_w c Hp) as Hw. rewrite Hs in Ha, Hw.
  change (bool_decide (LSU_WRITE_REQ = LSU_WRITE_REQ)) with true in Ha, Hw.
  assert (arb_writes (arb f) (lsu_port c) = true) as Hb by (unfold arb_writes; cbn; by rewrite Ha).
  destruct (to_xbar_write Hb) as (Q1 & Q2 & Q3 & Q4 & Q5 & Q6). rewrite Ha in Q1. rewrite Hw in Q3. rewrite Hs in Q6.
  assert (x_awready q (mem_resp (mem f)) (uart_resp (uart f)) (clint_resp (clint f)) = true /\
    slave (mem_resp (mem f)) (uart_resp (uart f)) (clint_resp (clint f)) p_wready false k = true) as [X1 X2].
  { unfold x_awready. rewrite Q2, Hk. pose proof (R5 X_SRAM) as (M1 & M2 & _). pose proof (R5 X_UART) as (U1 & U2 & _).
    destruct Hsu as [E|E]; rewrite E; cbn; rewrite ?M1, ?M2, ?U1, ?U2; done. }
  assert (fire_aw q (mem_resp (mem f)) (uart_resp (uart f)) (clint_resp (clint f)) = true) as X3 by (unfold fire_aw; by rewrite Q1, X1).
  assert (x_wready (xbar f) q (mem_resp (mem f)) (uart_resp (uart f)) (clint_resp (clint f)) = true) as X4 by (unfold x_wready; by rewrite X3, Q2, Hk).
  assert (fire_w (xbar f) q (mem_resp (mem f)) (uart_resp (uart f)) (clint_resp (clint f)) = true) as X5 by (unfold fire_w; by rewrite Q3, X4).
  assert (forall k', x_w (xbar f) q (mem_resp (mem f)) (uart_resp (uart f)) (clint_resp (clint f)) k' =
    if bool_decide (k = k') then (true, wdata l, wstrb l) else (false, 0, 0)) as Hxw.
  { intros k'. unfold x_w. rewrite X5, R3, X3, Q2, Hk, Q3, Q4, Q5. done. }
  unfold fabric_in. cbn [arb_lsu l_awready l_wready l_bvalid p_awready p_wready p_bvalid from_xbar xbar_resp].
  rewrite Hb, X1, X4, Q1. unfold x_bvalid. rewrite R2. split_and!; try done.
  - intros k'. destruct (to_slave_write false c f k') as (S1 & _ & S3 & S4). rewrite S1, S4, Q2, Hk, Q1, R2, Q6.
    rewrite Hxw in S3. rewrite andb_true_r. rewrite (bool_decide_ext (k = k') (k' = k)) in * by (split; congruence).
    change (bool_decide (LSU_WRITE_REQ = LSU_WAIT_B)) with false. rewrite andb_false_r.
    destruct (bool_decide (k' = k)); injection S3 as -> _ _; done.
  - destruct (to_slave_write false c f k) as (_ & S2 & _). rewrite S2, Q2, Hk. by rewrite bool_decide_eq_true_2.
  - destruct (to_slave_write false c f k) as (_ & _ & S3 & _). rewrite Hxw, bool_decide_eq_true_2 in S3 by done. by injection S3.
  - destruct (to_slave_write false c f k) as (_ & _ & S3 & _). rewrite Hxw, bool_decide_eq_true_2 in S3 by done. by injection S3.
Qed.

(** No request. *)
Lemma write_silent : wr_regs W_quiet f -> lsu_state l <> LSU_WRITE_REQ ->
  l_awready i = false /\ l_wready i = false /\ l_bvalid i = false /\
  (forall k', q_awvalid (to_slave false c f k') = false /\ q_wvalid (to_slave false c f k') = false /\ q_bready (to_slave false c f k') = false) /\
  q_awvalid q && p_awready (from_xbar false c f) = false /\ fire_w (xbar f) q (mem_resp (mem f)) (uart_resp (uart f)) (clint_resp (clint f)) = false.
Proof.
  intros (R1 & R2 & R3 & R4 & R5) Hs. pose proof (po_aw c Hp) as Ha. rewrite bool_decide_eq_false_2 in Ha by done.
  assert (arb_writes (arb f) (lsu_port c) = false) as Hb by (unfold arb_writes; cbn; by rewrite Ha, R1).
  destruct (to_xbar_silent Hb) as (Q1 & Q2 & Q3 & Q4). unfold fabric_in.
  cbn [arb_lsu l_awready l_wready l_bvalid p_awready p_wready p_bvalid from_xbar xbar_resp]. rewrite Hb, Q1.
  assert (fire_w (xbar f) q (mem_resp (mem f)) (uart_resp (uart f)) (clint_resp (clint f)) = false) as X5 by (unfold fire_w; by rewrite Q3).
  split_and!; try done. intros k'. destruct (to_slave_write false c f k') as (S1 & _ & S3 & S4). rewrite S1, S4, Q1, Q4, !andb_false_r.
  unfold x_w in S3. rewrite X5, R4 in S3. by injection S3 as ->.
Qed.

(** A write under way. *)
Lemma write_wait k d : wr_sent k d f -> lsu_state l = LSU_WAIT_B -> sel (awaddr l) = k ->
  l_awready i = false /\ l_wready i = false /\ l_bvalid i = d /\
  (forall k', q_awvalid (to_slave false c f k') = false /\ q_wvalid (to_slave false c f k') = false /\
    q_bready (to_slave false c f k') = bool_decide (k' = k)) /\
  q_awvalid q = false /\ q_bready q = true /\ p_bvalid (from_xbar false c f) = d /\
  fire_w (xbar f) q (mem_resp (mem f)) (uart_resp (uart f)) (clint_resp (clint f)) = false.
Proof.
  intros (R1 & R2 & R3 & R4 & R5 & R6 & R7) Hs Hk. pose proof (po_aw c Hp) as Ha. pose proof (po_w c Hp) as Hw. rewrite Hs in Ha, Hw.
  change (bool_decide (LSU_WAIT_B = LSU_WRITE_REQ)) with false in Ha, Hw.
  assert (arb_writes (arb f) (lsu_port c) = true) as Hb by (unfold arb_writes; rewrite R1; apply orb_true_r).
  destruct (to_xbar_write Hb) as (Q1 & Q2 & Q3 & Q4 & Q5 & Q6). rewrite Ha in Q1. rewrite Hw in Q3. rewrite Hs in Q6.
  change (bool_decide (LSU_WAIT_B = LSU_WAIT_B)) with true in Q6.
  assert (fire_w (xbar f) q (mem_resp (mem f)) (uart_resp (uart f)) (clint_resp (clint f)) = false) as X5 by (unfold fire_w; by rewrite Q3).
  assert (fire_aw q (mem_resp (mem f)) (uart_resp (uart f)) (clint_resp (clint f)) = false) as X3 by (unfold fire_aw; by rewrite Q1).
  pose proof (R7 X_SRAM) as (M1 & M2 & M3). pose proof (R7 X_UART) as (U1 & U2 & U3).
  unfold fabric_in. cbn [arb_lsu l_awready l_wready l_bvalid p_awready p_wready p_bvalid from_xbar xbar_resp]. rewrite Hb.
  unfold x_awready, x_wready, x_bvalid. rewrite X3, R3, R2, Q2, Hk. split_and!; try done.
  - destruct R6 as [-> | ->]; cbn; [by rewrite M1|by rewrite U1].
  - destruct R6 as [-> | ->]; cbn; [by rewrite M2|by rewrite U2].
  - destruct R6 as [-> | ->]; cbn; [by rewrite M3|by rewrite U3].
  - intros k'. destruct (to_slave_write false c f k') as (S1 & _ & S3 & S4). rewrite S1, S4, Q1, Q6, R2, andb_false_r, andb_true_r.
    unfold x_w in S3. rewrite X5, R4, X3, R3, R5 in S3. rewrite (bool_decide_ext (k = k') (k' = k)) by (split; congruence).
    split_and!; [done| |done]. destruct (bool_decide (owner_wr (xbar f) = k')); by injection S3 as -> _ _.
  - destruct R6 as [-> | ->]; cbn; [by rewrite M3|by rewrite U3].
Qed.
End Writes.

Lemma mem_edge_write q m m' : mem_edge false q m = Some m' ->
  let b := m_bvalid m && q_bready q in
  aw_got m' = (if b then false else if q_awvalid q && negb (aw_got m) then true else aw_got m) /\
  w_got m' = (if b then false else if q_wvalid q && negb (w_got m) then true else w_got m) /\
  m_bvalid m' = (if b then false else if aw_got m && w_got m then true else m_bvalid m) /\
  mem_waddr m' = (if q_awvalid q && negb (aw_got m) then u32 (q_awaddr q + 0x80000000) else mem_waddr m) /\
  mem_wdata m' = (if q_wvalid q && negb (w_got m) then q_wdata q else mem_wdata m) /\
  mem_wmask m' = (if q_wvalid q && negb (w_got m) then q_wstrb q else mem_wmask m) /\
  if aw_got m && w_got m then pmem_write (m_words m) (mem_waddr m) (mem_wdata m) (mem_wmask m) = Value (m_words m')
  else m_words m' = m_words m.
Proof.
  unfold mem_edge. cbn [negb andb]. intros H. destruct (if q_arvalid q && negb (is_busy_ar m) then _ else _); [|done..].
  destruct (aw_got m && w_got m).
  - destruct (pmem_write _ _ _ _) eqn:E; [|done..]. injection H as <-. cbn. split_and!; done.
  - injection H as <-. cbn. split_and!; done.
Qed.

(** Where the address of a write to the memory ends up. *)
Lemma waddr_back addr : in_sram addr -> u32 (u32 (addr - SRAM_BASE) + 0x80000000) = addr.
Proof.
  intros H. rewrite (proj1 (sram_offset addr H)). unfold in_sram, SRAM_BASE, SRAM_END in *. rewrite wrap_id; [lia|]. unfold in_u. lia.
Qed.

Section WriteStep.
Context `{ARCH : NpcArch}.
Variables (c : npc) (f f' : fabric).
Hypotheses (Hp : ports_ok c) (He : fabric_edge false c f = Some f').

Local Abbreviation l := (lsu c).

Lemma edge_parts : mem_edge false (to_slave false c f X_SRAM) (mem f) = Some (mem f') /\
  arb f' = arb_edge (arb f) (ifu_port false c) (lsu_port c) (from_xbar false c f) false /\
  xbar f' = xbar_edge (xbar f) (to_xbar false c f) (mem_resp (mem f)) (uart_resp (uart f)) (clint_resp (clint f)) /\
  uart f' = uart_edge false (to_slave false c f X_UART) (uart f).
Proof. unfold fabric_edge in He. apply bind_Some in He as (m' & Hm & He). apply bind_Some in He as (k' & _ & [= <-]). done. Qed.

Lemma request_step k : wr_regs W_quiet f -> lsu_state l = LSU_WRITE_REQ -> sel (awaddr l) = k -> k = X_SRAM \/ k = X_UART ->
  wr_sent k false f' /\ m_words (mem f') = m_words (mem f) /\ printed (uart f') = printed (uart f) /\
  (k = X_SRAM -> mem_waddr (mem f') = u32 (u32 (awaddr l - SRAM_BASE) + 0x80000000) /\ mem_wdata (mem f') = wdata l /\ mem_wmask (mem f') = wstrb l) /\
  (k = X_UART -> u_wdata (uart f') = wdata l).
Proof.
  intros Hr Hs Hk Hsu. destruct (write_request c f Hp k Hr Hs Hk Hsu) as (_ & _ & I3 & Hq & Q1 & Q2 & Q3 & Q4 & Q5).
  pose proof Hr as (R1 & R2 & R3 & R4 & R5). pose proof (R5 X_SRAM) as (M1 & M2 & M3). pose proof (R5 X_UART) as (U1 & U2 & U3).
  destruct edge_parts as (P1 & P2 & P3 & P4). apply mem_edge_write in P1. cbv zeta in P1. rewrite M1, M2, M3 in P1. cbn [andb negb] in P1.
  pose proof (Hq X_SRAM) as (A1 & A2 & A3). pose proof (Hq X_UART) as (B1 & B2 & B3). rewrite A1, A2 in P1. rewrite !andb_true_r in P1.
  destruct P1 as (N1 & N2 & N3 & N4 & N5 & N6 & N7).
  pose proof (po_aw c Hp) as Ha. rewrite Hs in Ha. change (bool_decide (LSU_WRITE_REQ = LSU_WRITE_REQ)) with true in Ha.
  assert (x_bvalid (xbar f) (mem_resp (mem f)) (uart_resp (uart f)) (clint_resp (clint f)) = false) as X1 by (unfold x_bvalid; by rewrite R2).
  assert (q_awaddr (to_xbar false c f) = awaddr l) as X2.
  { apply to_xbar_write. unfold arb_writes. cbn. by rewrite Ha. }
  split.
  - unfold wr_sent. rewrite P2, P3. cbn [arb_edge xbar_edge write_owner owner_wr got_aw got_w sent_w].
    fold (to_xbar false c f). rewrite Q4, Q5, X1, X2, Hk. cbn [andb]. change (fire_aw (to_xbar false c f) _ _ _) with
      (q_awvalid (to_xbar false c f) && p_awready (from_xbar false c f)). rewrite Q4. cbn [lsu_port q_awvalid]. rewrite Ha.
    fold (to_slave false c f X_UART) (to_slave false c f X_SRAM). rewrite A2, B2. cbn [mem_resp uart_resp p_wready]. rewrite M2, U2.
    split_and!; try done; [by destruct Hsu as [-> | ->]|]. intros k'. destruct k'; cbn [slave_regs]; try done.
    + rewrite P4. unfold uart_edge. cbn [u_aw_got u_w_got u_bvalid]. rewrite B1, B2, U1, U2, U3. cbn [andb negb]. rewrite !andb_false_r, !andb_true_r.
      by destruct (bool_decide (X_UART = k)).
    + rewrite N1, N2, N3, andb_false_r. by destruct (bool_decide (X_SRAM = k)).
  - split_and!; [done| | |].
    + rewrite P4. unfold uart_edge. cbn [printed]. by rewrite U3.
    + intros ->. change (bool_decide (X_SRAM = X_SRAM)) with true in *. rewrite N4, N5, N6, Q1, Q2, Q3. done.
    + intros ->. rewrite P4. unfold uart_edge. cbn [u_wdata]. rewrite B2, U2. cbn. done.
Qed.

Lemma silent_step : wr_regs W_quiet f -> lsu_state l <> LSU_WRITE_REQ ->
  wr_regs W_quiet f' /\ m_words (mem f') = m_words (mem f) /\ printed (uart f') = printed (uart f).
Proof.
  intros Hr Hs. destruct (write_silent c f Hp Hr Hs) as (_ & _ & _ & Hq & Q4 & Q5).
  pose proof Hr as (R1 & R2 & R3 & R4 & R5). pose proof (R5 X_SRAM) as (M1 & M2 & M3). pose proof (R5 X_UART) as (U1 & U2 & U3).
  destruct edge_parts as (P1 & P2 & P3 & P4). apply mem_edge_write in P1. cbv zeta in P1. rewrite M1, M2, M3 in P1. cbn [andb negb] in P1.
  pose proof (Hq X_SRAM) as (A1 & A2 & A3). pose proof (Hq X_UART) as (B1 & B2 & B3). rewrite A1, A2 in P1. destruct P1 as (N1 & N2 & N3 & _ & _ & _ & N7).
  assert (x_bvalid (xbar f) (mem_resp (mem f)) (uart_resp (uart f)) (clint_resp (clint f)) = false) as X1 by (unfold x_bvalid; by rewrite R2).
  split_and!; [|done|].
  - unfold wr_regs. rewrite P2, P3. cbn [arb_edge xbar_edge write_owner owner_wr got_aw got_w].
    fold (to_xbar false c f). rewrite Q4, Q5, X1. change (fire_aw (to_xbar false c f) _ _ _) with
      (q_awvalid (to_xbar false c f) && p_awready (from_xbar false c f)). rewrite Q4.
    change (p_bvalid (from_xbar false c f)) with (x_bvalid (xbar f) (mem_resp (mem f)) (uart_resp (uart f)) (clint_resp (clint f))). rewrite X1.
    cbn [andb]. split_and!; try done. intros k'. destruct k'; cbn [slave_regs]; try done.
    rewrite P4. unfold uart_edge. cbn [u_aw_got u_w_got u_bvalid]. by rewrite B1, B2, U1, U2, U3.
  - rewrite P4. unfold uart_edge. cbn [printed]. by rewrite U3.
Qed.

Lemma wait_step k d : wr_sent k d f -> lsu_state l = LSU_WAIT_B -> sel (awaddr l) = k ->
  wr_regs (if d then W_quiet else W_done k) f' /\
  (if decide (k = X_SRAM) then pmem_write (m_words (mem f)) (mem_waddr (mem f)) (mem_wdata (mem f)) (mem_wmask (mem f)) = Value (m_words (mem f'))
   else m_words (mem f') = m_words (mem f)) /\
  mem_waddr (mem f') = mem_waddr (mem f) /\ mem_wdata (mem f') = mem_wdata (mem f) /\ mem_wmask (mem f') = mem_wmask (mem f) /\
  u_wdata (uart f') = u_wdata (uart f) /\
  printed (uart f') = (if bool_decide (k = X_UART) && d then printed (uart f) ++ [slice (u_wdata (uart f)) 7 0] else printed (uart f)).
Proof.
  intros Hr Hs Hk. destruct (write_wait c f Hp k d Hr Hs Hk) as (_ & _ & _ & Hq & Q1 & Q2 & Q3 & Q4).
  pose proof Hr as (R1 & R2 & R3 & R4 & R5 & R6 & R7). pose proof (R7 X_SRAM) as (M1 & M2 & M3). pose proof (R7 X_UART) as (U1 & U2 & U3).
  destruct edge_parts as (P1 & P2 & P3 & P4). apply mem_edge_write in P1. cbv zeta in P1.
  pose proof (Hq X_SRAM) as (A1 & A2 & A3). pose proof (Hq X_UART) as (B1 & B2 & B3). rewrite A1, A2, A3, M1, M2, M3 in P1. cbn [andb] in P1.
  destruct P1 as (N1 & N2 & N3 & N4 & N5 & N6 & N7).
  split_and!; try done.
  - assert (forall k', slave_regs f' k' (bool_decide (k' = k) && negb d) (bool_decide (k' = k) && negb d)) as Hregs.
    { intros k'. destruct k'; cbn [slave_regs]; try done.
      - rewrite P4. unfold uart_edge. cbn [u_aw_got u_w_got u_bvalid]. rewrite B1, B2, B3, U1, U2, U3. by destruct (bool_decide (X_UART = k)), d.
      - rewrite N1, N2, N3. by destruct (bool_decide (X_SRAM = k)), d. }
    assert (x_bvalid (xbar f) (mem_resp (mem f)) (uart_resp (uart f)) (clint_resp (clint f)) = d) as X1 by exact Q3.
    destruct d; unfold wr_regs, wr_sent; rewrite P2, P3; cbn [arb_edge xbar_edge write_owner owner_wr got_aw got_w sent_w];
      fold (to_xbar false c f); rewrite Q1, Q2, Q3, Q4, X1; change (fire_aw (to_xbar false c f) _ _ _) with
      (q_awvalid (to_xbar false c f) && p_awready (from_xbar false c f)); rewrite Q1; cbn [andb].
    + split_and!; try done. intros k'. specialize (Hregs k'). by rewrite andb_false_r in Hregs.
    + fold (to_slave false c f X_UART) (to_slave false c f X_SRAM). rewrite A2, B2. cbn [andb orb]. split_and!; try done.
      intros k'. specialize (Hregs k'). by rewrite andb_true_r in *.
  - destruct (decide (k = X_SRAM)) as [->|Hne]; [exact N7|]. by rewrite bool_decide_eq_false_2 in N7 by congruence.
  - rewrite P4. unfold uart_edge. cbn [u_wdata]. by rewrite B2.
  - rewrite P4. unfold uart_edge. cbn [printed]. rewrite U3, B3. rewrite (bool_decide_ext (k = X_UART) (X_UART = k)) by (split; congruence).
    by destruct (bool_decide (X_UART = k)), d.
Qed.
End WriteStep.

(** Nobody reads the clock. *)
Lemma clint_silent `{ARCH : NpcArch} c f : ports_ok c -> exists k, clint_edge false (to_slave false c f X_CLINT) (clint f) = Some k.
Proof.
  intros Hp. destruct (to_xbar_read false c f Hp) as (Q1 & Q2 & _). destruct (to_slave_read false c f X_CLINT) as (S1 & _).
  assert (q_arvalid (to_slave false c f X_CLINT) = false) as Hq; [|unfold clint_edge; rewrite Hq; by eexists].
  rewrite S1, Q1, Q2. destruct (asking c (read_grant (arb f))) eqn:Ea; [|apply andb_false_r].
  by rewrite sel_sram by (apply (po_read c Hp); by rewrite Ea).
Qed.

(** The edge is defined: the memory is asked for addresses that it has. *)
Lemma edge_exists `{ARCH : NpcArch} c f ph : ports_ok c -> rd_regs ph f -> rd_core ph c -> words_ok (m_words (mem f)) ->
  (aw_got (mem f) && w_got (mem f) = true ->
   exists m', pmem_write (m_words (mem f)) (mem_waddr (mem f)) (mem_wdata (mem f)) (mem_wmask (mem f)) = Value m') ->
  exists f', fabric_edge false c f = Some f'.
Proof.
  intros Hp Hr Hc Hw Hwr. unfold fabric_edge, mem_edge. cbn [negb andb].
  destruct (to_xbar_read false c f Hp) as (Q1 & Q2 & _). destruct (to_slave_read false c f X_SRAM) as (S1 & S2 & _). rewrite S1, S2, Q1, Q2.
  assert (exists v, (if bool_decide (sel (addr_of c (read_grant (arb f))) = X_SRAM) && asking c (read_grant (arb f)) && negb (is_busy_ar (mem f))
    then pmem_read (m_words (mem f)) (if bool_decide (sel (addr_of c (read_grant (arb f))) = X_SRAM) then u32 (addr_of c (read_grant (arb f)) - base_of X_SRAM) else 0)
    else Value (m_rdata (mem f))) = Value v) as [v ->].
  { destruct (bool_decide (sel (addr_of c (read_grant (arb f))) = X_SRAM)); [|eexists; reflexivity]. cbn [andb]. destruct (asking c (read_grant (arb f))) eqn:Ea; [|eexists; reflexivity].
    cbn [andb]. destruct (negb _); [|eexists; reflexivity]. eexists. apply view_read; [done|]. apply (po_read c Hp). by rewrite Ea. }
  destruct (clint_silent c f Hp) as [k Hk]. destruct (aw_got (mem f) && w_got (mem f)).
  - destruct (Hwr eq_refl) as [m' E]. rewrite E. cbn [mbind option_bind]. rewrite Hk. eexists. reflexivity.
  - cbn [mbind option_bind]. rewrite Hk. eexists. reflexivity.
Qed.
