(* ===== verification/NpcFabricInv.v ===== *)
(** The invariant of the processor with its bus fabric. *)

From S2P Require Import Prelude AmBus RvSpec NpcDatapath NpcCore NpcArch NpcExec NpcLanes NpcPipe NpcRefine NpcLive NpcCorrect NpcMemory NpcFabric NpcFabricProof.

(** A store to [UART.sv]. *)

Lemma sram_not_uart addr : in_sram addr -> (UART_BASE <=? addr) && (addr <=? UART_END) = false.
Proof. unfold in_sram, SRAM_BASE, UART_END. intros H. rewrite (proj2 (Z.leb_gt addr _)) by lia. apply andb_false_r. Qed.

Lemma aligned_word p : p mod 4 = 0 -> word_base p = p.
Proof. unfold word_base. dlia. Qed.

Lemma uart_write_elsewhere m addr v b k : in_uart addr -> in_sram k -> strobe_write m addr v b k = m k.
Proof.
  unfold in_uart, in_sram, UART_BASE, UART_END, SRAM_BASE. intros Ha Hk. unfold strobe_write.
  rewrite (proj2 (Z.ltb_ge (k - word_base addr) 4)) by (unfold word_base; dlia). by rewrite andb_false_r.
Qed.

Lemma printed_byte addr v : in_u 32 v -> slice (lane_data (store_code 1) addr v) 7 0 = v mod 256.
Proof. unfold lane_data, store_code. cbn [Z.eqb Pos.eqb]. unfold slice, cat, in_u. numerals. intros H. dlia. Qed.

Section Inv.
Context `{ARCH : NpcArch}.
Variables (code : Z -> Z) (a0 : arch) (text : Z -> Prop).
Local Abbreviation arun := (seq code a0).

(** A program of this machine: [text] are the words it is fetched from, with the one behind
    each instruction, which may be fetched as well; it reads from the memory, writes to the
    memory outside of [text], and prints bytes. *)
Record program_ok : Prop := mkProgram {
  pg_arch : arch_ok a0;
  pg_supported : forall n, supported code (arun n);
  pg_fetch : forall n, text (a_pc (arun n)) /\ text (u32 (a_pc (arun n) + 4));
  pg_text : forall p, text p -> in_sram p /\ p mod 4 = 0;
  pg_code : forall p, text p -> bus_word (a_mem a0) p = code p;
  pg_mem : forall n, match e_mem (a_eff code (arun n)) with
    | NoMem => True
    | Load _ _ addr => in_sram addr
    | Store len addr v => in_sram addr /\ (forall p, text p -> word_base addr <> p) \/ in_uart addr /\ len = 1
    end;
}.

(** What the program prints. *)
Definition byte_out (a : arch) : list Z :=
  match e_mem (a_eff code a) with
  | Store _ addr v => if (UART_BASE <=? addr) && (addr <=? UART_END) then [v mod 256] else []
  | _ => []
  end.
Fixpoint uart_out (n : nat) : list Z := match n with O => [] | S n => uart_out n ++ byte_out (arun n) end.

(** The request wires of [LSU] follow its state. *)
Definition wires_ok (l : lsu_st) : Prop :=
  (arvalid l, awvalid l, wvalid l) =
  match lsu_state l with LSU_READ_ADDR => (true, false, false) | LSU_WRITE_REQ => (false, true, true) | _ => (false, false, false) end.

Lemma wires_are l : wires_ok l -> arvalid l = bool_decide (lsu_state l = LSU_READ_ADDR) /\
  awvalid l = bool_decide (lsu_state l = LSU_WRITE_REQ) /\ wvalid l = bool_decide (lsu_state l = LSU_WRITE_REQ).
Proof. unfold wires_ok. destruct (lsu_state l); by intros [= -> -> ->]. Qed.

Definition answer (c : npc) (d : ram) (g : owner_t) : Z :=
  match g with O_IFU => code (outstanding_pc (ifu c)) | O_LSU => bus_word d (araddr (lsu c)) | O_IDLE => 0 end.

Definition rd_data (ph : rd_phase) (c : npc) (d : ram) (f : fabric) : Prop :=
  match ph with R_taken g | R_owned g => m_rdata (mem f) = answer c d g | _ => True end.

Definition wr_data (ph : wr_phase) (nc : nat) (d : ram) (f : fabric) : Prop :=
  let m := mem f in
  match ph with
  | W_quiet => view (m_words m) d
  | W_sent k | W_done k =>
      if decide (k = X_SRAM) then
        pending (m_words m) (mem_waddr m) (mem_wdata m) (mem_wmask m) d /\ byte_out (arun nc) = [] /\
        (forall p, text p -> word_base p <> word_base (mem_waddr m))
      else view (m_words m) d /\ byte_out (arun nc) = [slice (u_wdata (uart f)) 7 0]
  end.

Record fab_inv (nc : nat) (c : npc) (f : fabric) (d : ram) : Prop := mkFabInv {
  fi_inv : inv code a0 nc (mkSys c d);
  fi_wires : wires_ok (lsu c);
  fi_text : axi_state (ifu c) <> AXI_IDLE -> text (outstanding_pc (ifu c));
  fi_read : exists ph, rd_regs ph f /\ rd_core ph c /\ rd_data ph c d f;
  fi_write : exists ph, wr_regs ph f /\ wr_core ph c /\ wr_data ph nc d f;
  fi_words : forall p, text p -> bus_word (bytes_of (m_words (mem f))) (p - SRAM_BASE) = code p;
  fi_out : printed (uart f) = uart_out (nc + nb (lsu_valid (lsu c)));
}.

Hypothesis Hpg : program_ok.

(** ** The ports *)

Section Ports.
Variables (nc : nat) (c : npc) (f : fabric) (d : ram).
Hypothesis Hi : fab_inv nc c f d.

Lemma store_target : lsu_state (lsu c) = LSU_WRITE_REQ -> exists len addr v,
  e_mem (a_eff code (arun nc)) = Store len addr v /\ awaddr (lsu c) = addr /\ wdata (lsu c) = lane_data (store_code len) addr v /\
  wstrb (lsu c) = lane_strb (store_code len) addr /\ in_u 32 v /\
  (in_sram addr /\ (forall p, text p -> word_base addr <> p) \/ in_uart addr /\ len = 1).
Proof.
  intros Hs. assert (lsu_busy (lsu c) = true) as Hb by (unfold lsu_busy; by rewrite Hs).
  destruct (iv_lsu _ _ _ _ (fi_inv _ _ _ _ Hi) Hb) as [_ _ _ _ _ _ _ Ho _]. cbn [core] in Ho. rewrite Hs in Ho. destruct Ho as [_ Ho].
  pose proof (pg_mem Hpg nc) as Hm. destruct (e_mem _) as [| |len addr v]; [done..|]. exists len, addr, v. by destruct_and! Ho.
Qed.

Lemma load_target : lsu_state (lsu c) = LSU_READ_ADDR \/ lsu_state (lsu c) = LSU_WAIT_R ->
  in_sram (araddr (lsu c)) /\ byte_out (arun nc) = [].
Proof.
  intros Hs. assert (lsu_busy (lsu c) = true) as Hb by (unfold lsu_busy; by destruct Hs as [-> | ->]).
  destruct (iv_lsu _ _ _ _ (fi_inv _ _ _ _ Hi) Hb) as [_ _ _ _ _ _ _ Ho _]. cbn [core] in Ho.
  assert (match e_mem (a_eff code (arun nc)) with Load _ _ addr => araddr (lsu c) = addr | _ => False end) as Ha.
  { destruct Hs as [E|E]; rewrite E in Ho; destruct Ho as [_ Ho]; destruct (e_mem _); try done; by destruct Ho. }
  pose proof (pg_mem Hpg nc) as Hm. unfold byte_out. destruct (e_mem _); [done| |done]. by rewrite Ha.
Qed.

Lemma ports : ports_ok c.
Proof.
  destruct (wires_are _ (fi_wires _ _ _ _ Hi)) as (W1 & W2 & W3). constructor; try done.
  - intros [] Ha; [done| |].
    + apply load_target. apply orb_true_iff in Ha as [Ha|Ha]; apply bool_decide_eq_true in Ha; auto.
    + apply (pg_text Hpg), (fi_text _ _ _ _ Hi). intros E. cbn in Ha. unfold ifu_arvalid in Ha. by rewrite E in Ha.
  - intros Hw. cbn in Hw. apply bool_decide_eq_true in Hw. pose proof (fo_state _ _ _ (iv_ifu _ _ _ _ (fi_inv _ _ _ _ Hi))) as Hs. cbn [core] in Hs.
    destruct (ifu_state (ifu c)); [done|]. destruct Hs as (_ & _ & _ & E). congruence.
  - intros Hs. destruct (store_target Hs) as (len & addr & v & _ & -> & -> & _ & Hv & Ht). split; [|by apply lane_data_ok]. tauto.
Qed.
End Ports.

(** ** Steps of the parts *)

Lemma wires_step i x rdy l : reset i = false -> paired i -> (exu_valid x = true -> x_is_load x = true -> x_is_store x = false) ->
  wires_ok l -> wires_ok (lsu_edge i x rdy l).
Proof.
  intros Hr Hp Hx Hw. destruct l as [st va reg wb arv ara awv awa wv wd ws]. unfold wires_ok, paired in *. cbn [lsu_state arvalid awvalid wvalid] in *.
  destruct st; injection Hw as -> -> ->; lsu_registers Hr; unfold ar_fire, aw_fire, w_fire; cbn [lsu_state arvalid awvalid wvalid andb].
  - destruct (exu_valid x), va; cbn [andb negb]; try done.
    destruct (x_is_load x); [by rewrite (Hx eq_refl eq_refl)|]. by destruct (x_is_store x).
  - by destruct (l_arready i).
  - by destruct (l_rvalid i).
  - rewrite Hp. by destruct (l_wready i).
  - by destruct (l_bvalid i).
  - by destruct (va && rdy).
Qed.

(** The states of a write. *)
Lemma lsu_write_step i x l : reset i = false -> wires_ok l -> (lsu_state l <> LSU_IDLE -> lsu_state l <> LSU_DONE -> lsu_valid l = false) ->
  let l' := lsu_edge i x true l in
  match lsu_state l with
  | LSU_WRITE_REQ => l_awready i = true -> l_wready i = true -> lsu_state l' = LSU_WAIT_B /\ awaddr l' = awaddr l /\ lsu_valid l' = false
  | LSU_WAIT_B => awaddr l' = awaddr l /\ lsu_valid l' = l_bvalid i /\ lsu_state l' = (if l_bvalid i then LSU_DONE else LSU_WAIT_B)
  | _ => lsu_state l' <> LSU_WAIT_B
  end.
Proof.
  intros Hr Hw Hv l'. unfold l'. clear l'. destruct l as [st va reg wb arv ara awv awa wv wd ws]. unfold wires_ok in *. cbn [lsu_state lsu_valid awaddr arvalid awvalid wvalid] in *.
  destruct st; injection Hw as -> -> ->; try (rewrite Hv by done); clear Hv.
  - lsu_registers Hr. destruct (exu_valid x && negb va), (x_is_load x), (x_is_store x); done.
  - lsu_registers Hr. by destruct (ar_fire _ _).
  - lsu_registers Hr. by destruct (l_rvalid i).
  - intros Ha Hb. lsu_registers Hr. unfold aw_fire, w_fire. cbn [awvalid wvalid awaddr]. rewrite Ha, Hb. done.
  - lsu_registers Hr. unfold aw_fire. cbn [awvalid andb awaddr lsu_state lsu_valid]. by destruct (l_bvalid i).
  - lsu_registers Hr. by destruct (va && true).
Qed.

Lemma idle_not_done i x l : reset i = false -> lsu_state l = LSU_IDLE -> lsu_state (lsu_edge i x true l) <> LSU_DONE.
Proof.
  intros Hr Hs. destruct l as [st va reg wb arv ara awv awa wv wd ws]. cbn in Hs. subst st. lsu_registers Hr.
  by destruct (exu_valid x && negb va), (x_is_load x), (x_is_store x).
Qed.

(** ** One cycle *)

Section Step.
Variables (nc : nat) (c : npc) (f : fabric) (d : ram).
Hypothesis Hi : fab_inv nc c f d.
Local Abbreviation i := (fabric_in false c f).
Local Abbreviation s := (mkSys c d).
Local Abbreviation c' := (cycle c i).
Local Abbreviation d' := (dmem (sys_step s i)).
Let Hp : ports_ok c := ports nc c f d Hi.

Lemma words_fine : words_ok (m_words (mem f)).
Proof.
  destruct (fi_write _ _ _ _ Hi) as (ph & _ & _ & Hd). destruct ph; cbn in Hd; [apply Hd|..]; case_decide; try apply Hd;
    destruct Hd as ((_ & _ & d0 & Hv & _) & _); apply Hv.
Qed.

Lemma edge_defined : exists f', fabric_edge false c f = Some f'.
Proof.
  destruct (fi_read _ _ _ _ Hi) as (ph & Hr & Hc & _). apply (edge_exists c f ph Hp Hr Hc words_fine). intros Hg.
  apply andb_true_iff in Hg as [Hg _]. destruct (fi_write _ _ _ _ Hi) as (pw & Hw & _ & Hd).
  assert (exists k, pw = W_sent k \/ pw = W_done k) as [k Hk].
  { destruct pw as [|k|k]; [|by exists k; auto..]. destruct Hw as (_ & _ & _ & _ & Hs). destruct (Hs X_SRAM) as [E _]. congruence. }
  assert (k = X_SRAM) as ->.
  { assert (exists b, wr_sent k b f) as [b (_ & _ & _ & _ & _ & _ & Hs)] by (destruct Hk as [-> | ->]; eexists; exact Hw).
    destruct (Hs X_SRAM) as [E _]. rewrite Hg in E. by symmetry in E; apply bool_decide_eq_true in E. }
  assert (pending (m_words (mem f)) (mem_waddr (mem f)) (mem_wdata (mem f)) (mem_wmask (mem f)) d) as Hpe by (destruct Hk as [-> | ->]; apply Hd).
  destruct (pending_written _ _ _ _ _ Hpe) as (m' & E & _). by exists m'.
Qed.

Lemma answers_right : answers code s i.
Proof.
  destruct (fi_read _ _ _ _ Hi) as (ph & Hr & Hc & Hd). split; [done|].
  assert (forall g, g_rvalid i g = true -> g_rdata i g = answer c d g) as Hg.
  { intros g Hv. destruct (fabric_in_read c f Hp ph g Hr Hc) as (_ & E & Ha). rewrite E in Hv. destruct ph as [| | |g']; try done.
    apply bool_decide_eq_true in Hv. subst g'. rewrite (Ha eq_refl). exact Hd. }
  split; intros Hv _; [exact (Hg O_IFU Hv)|exact (Hg O_LSU Hv)].
Qed.

Lemma writes_paired : paired i.
Proof.
  unfold paired. destruct (fi_write _ _ _ _ Hi) as (ph & Hr & Hc & _). destruct ph as [|k|k].
  - destruct (decide (lsu_state (lsu c) = LSU_WRITE_REQ)) as [E|E].
    + assert (sel (awaddr (lsu c)) = X_SRAM \/ sel (awaddr (lsu c)) = X_UART) as Hk.
      { destruct (po_write c Hp E) as [[H|H] _]; [left; by apply sel_sram|right; by apply sel_uart]. }
      destruct (write_request c f Hp _ Hr E eq_refl Hk) as (-> & -> & _). done.
    + destruct (write_silent c f Hp Hr E) as (-> & -> & _). done.
  - destruct Hc as [Hs Hk]. destruct (write_wait c f Hp k false Hr Hs Hk) as (-> & -> & _). done.
  - destruct Hc as [Hs Hk]. destruct (write_wait c f Hp k true Hr Hs Hk) as (-> & -> & _). done.
Qed.

Lemma write_idle : lsu_state (lsu c) <> LSU_WAIT_B -> wr_regs W_quiet f /\ view (m_words (mem f)) d.
Proof.
  intros Hs. destruct (fi_write _ _ _ _ Hi) as (ph & Hr & Hc & Hd). destruct ph as [|k|k]; [done|..]; by destruct Hc.
Qed.

Lemma dmem_same : lsu_state (lsu c) <> LSU_WRITE_REQ -> d' = d.
Proof. apply (no_store_fire s). Qed.

Lemma waiting_next g : (waiting c g = true -> g_rvalid i g = true) -> waiting c' g = asking c g && g_arready i g.
Proof.
  intros Hw. destruct (asking c g) eqn:Ea; [by apply (master_asks c i eq_refl Hp)|]. cbn [andb].
  destruct (waiting c g) eqn:Ew; [by apply (master_waits c i eq_refl Hp); auto|by apply master_idle].
Qed.

Variable f' : fabric.
Hypothesis He : fabric_edge false c f = Some f'.

(** A request that goes on has the same answer. *)
Lemma answer_same g : asking c g = true -> answer c' d' g = answer c d g.
Proof.
  intros Ha. destruct (master_asks c i eq_refl Hp g Ha) as [E _]. destruct g; [done| |]; cbn [answer addr_of] in *; [|by rewrite E].
  rewrite E, dmem_same; [done|]. cbn in Ha. apply bool_decide_eq_true in Ha. by rewrite Ha.
Qed.

Lemma asked_word g : asking c g = true -> bus_word (bytes_of (m_words (mem f))) (addr_of c g - SRAM_BASE) = answer c d g.
Proof.
  intros Ha. destruct g; [done| |]; cbn [answer addr_of].
  - apply view_word; [|apply (po_read c Hp O_LSU); by rewrite Ha]. cbn in Ha. apply bool_decide_eq_true in Ha. apply write_idle. by rewrite Ha.
  - apply (fi_words _ _ _ _ Hi), (fi_text _ _ _ _ Hi). intros E. cbn in Ha. unfold ifu_arvalid in Ha. by rewrite E in Ha.
Qed.

Lemma read_side : exists ph, rd_regs ph f' /\ rd_core ph c' /\ rd_data ph c' d' f'.
Proof.
  destruct (fi_read _ _ _ _ Hi) as (ph & Hr & Hc & Hd). destruct (read_step c f Hp ph f' Hr Hc words_fine He) as [Hr' Hm].
  exists (rd_next ph (m_arready (mem f)) c). split; [done|].
  assert (forall g, g_arready i g = match ph with
    | R_granted g' => bool_decide (g = g') && m_arready (mem f) | R_taken g' => bool_decide (g = g') | _ => false end /\
    g_rvalid i g = match ph with R_owned g' => bool_decide (g = g') | _ => false end) as Hg.
  { intros g. destruct (fabric_in_read c f Hp ph g Hr Hc) as (E1 & E2 & _). done. }
  destruct Hc as [Hc Hc2].
  assert (forall g, waiting c' g = asking c g && g_arready i g) as Hw.
  { intros g. apply waiting_next. intros Ew. destruct (Hg g) as [_ ->]. destruct ph as [| | |g']; try (by rewrite Hc2 in Ew).
    destruct (decide (g = g')) as [E|Hne]; [by apply bool_decide_eq_true|]. by rewrite Hc2 in Ew by congruence. }
  assert (forall g, asking c g = true -> g_arready i g = false -> asking c' g = true) as Ha.
  { intros g Ha Hn. destruct (master_asks c i eq_refl Hp g Ha) as (_ & -> & _). by rewrite Hn. }
  destruct ph as [|g|g|g]; cbn [rd_next rd_data].
  - assert (forall g, waiting c' g = false) as Hw' by (intros g; rewrite Hw; destruct (Hg g) as [-> _]; apply andb_false_r).
    destruct (asking c O_LSU) eqn:E1; [|destruct (asking c O_IFU) eqn:E2]; (split; [split; [|intros; apply Hw']|]); try done;
      apply Ha; by try apply Hg.
  - assert (m_rdata (mem f') = answer c' d' g) as Hm' by (by rewrite Hm, answer_same, asked_word).
    destruct (m_arready (mem f)) eqn:Er; (split; [split|done]).
    + rewrite Hw, Hc. destruct (Hg g) as [-> _]. by rewrite andb_true_r, bool_decide_eq_true_2.
    + intros g' Hne. rewrite Hw. destruct (Hg g') as [-> _]. rewrite bool_decide_eq_false_2 by congruence. apply andb_false_r.
    + apply Ha; [done|]. destruct (Hg g) as [-> _]. apply andb_false_r.
    + intros g' _. rewrite Hw. destruct (Hg g') as [-> _]. by rewrite !andb_false_r.
  - split; [split|].
    + rewrite Hw, Hc. destruct (Hg g) as [-> _]. by rewrite bool_decide_eq_true_2.
    + intros g' Hne. rewrite Hw. destruct (Hg g') as [-> _]. rewrite bool_decide_eq_false_2 by congruence. apply andb_false_r.
    + cbn [rd_data] in Hd. by rewrite Hm, Hd, answer_same.
  - split; [split; [done|]|done]. intros g' _. rewrite Hw. destruct (Hg g') as [-> _]. apply andb_false_r.
Qed.

Local Abbreviation nc' := ((nc + nb (lsu_valid (lsu c)))%nat).
Let Hok n : arch_ok (arun n) := seq_ok code a0 (pg_arch Hpg) n.
Let Hinv : inv code a0 nc s := fi_inv _ _ _ _ Hi.

Lemma lsu_valid_off : lsu_state (lsu c) <> LSU_IDLE -> lsu_state (lsu c) <> LSU_DONE -> lsu_valid (lsu c) = false.
Proof.
  intros H1 H2. assert (lsu_busy (lsu c) = true) as Hb by (unfold lsu_busy; by rewrite bool_decide_eq_false_2).
  destruct (iv_lsu _ _ _ _ Hinv Hb) as [_ _ _ _ _ _ _ Ho _]. cbn [core] in Ho. destruct (lsu_state (lsu c)); try done; apply Ho.
Qed.

Lemma write_step : let l' := lsu (cycle c i) in
  match lsu_state (lsu c) with
  | LSU_WRITE_REQ => l_awready i = true -> l_wready i = true -> lsu_state l' = LSU_WAIT_B /\ awaddr l' = awaddr (lsu c) /\ lsu_valid l' = false
  | LSU_WAIT_B => awaddr l' = awaddr (lsu c) /\ lsu_valid l' = l_bvalid i /\ lsu_state l' = (if l_bvalid i then LSU_DONE else LSU_WAIT_B)
  | _ => lsu_state l' <> LSU_WAIT_B
  end.
Proof. exact (lsu_write_step i (exu c) (lsu c) eq_refl (fi_wires _ _ _ _ Hi) lsu_valid_off). Qed.

(** An instruction that is no store does not print. *)
Lemma quiet_out : lsu_state (lsu c) <> LSU_WRITE_REQ -> lsu_state (lsu c) <> LSU_WAIT_B ->
  uart_out (nc' + nb (lsu_valid (lsu c'))) = uart_out nc'.
Proof.
  intros H1 H2. destruct (step_lsu code a0 nc s i Hinv answers_right Hok) as (Hb & Hl & _). cbn [core] in *.
  destruct (lsu_valid (lsu c')) eqn:Ev; cbn [nb]; [|by rewrite Nat.add_0_r].
  assert (lsu_busy (lsu c') = true) as Hb' by (unfold lsu_busy; rewrite Ev; apply orb_true_r). specialize (Hl Hb'). rewrite Hb' in Hb.
  assert (lsu_valid (lsu c) = false) as Hv.
  { destruct (lsu_valid (lsu c)) eqn:E; [|done]. unfold lsu_busy in Hb at 1 2. rewrite E, orb_true_r, !andb_false_r in Hb. done. }
  rewrite Hv in *. cbn [nb] in *. rewrite Nat.add_0_r, Nat.add_1_r in *. cbn [uart_out].
  assert (byte_out (arun nc) = []) as ->; [|apply app_nil_r].
  destruct (lsu_state (lsu c)) eqn:Es; try done.
  - destruct Hl as [_ _ _ _ _ _ _ Ho _]. unfold byte_out.
    destruct (lsu_state (lsu c')) eqn:Es'; try (by destruct Ho; congruence); [by destruct Ho as [_ ->]|].
    exfalso. revert Es'. apply (idle_not_done i (exu c) (lsu c) eq_refl Es).
  - apply (load_target nc c f d Hi). auto.
  - apply (load_target nc c f d Hi). auto.
  - assert (lsu_busy (lsu c) = true) as Hbb by (unfold lsu_busy; by rewrite Es).
    destruct (iv_lsu _ _ _ _ Hinv Hbb) as [_ _ _ _ _ _ _ Ho _]. cbn [core] in Ho. rewrite Es in Ho. congruence.
Qed.

Local Abbreviation write_ok := ((exists ph, wr_regs ph f' /\ wr_core ph c' /\ wr_data ph nc' d' f') /\
  (forall p, text p -> bus_word (bytes_of (m_words (mem f'))) (p - SRAM_BASE) = code p) /\
  printed (uart f') = uart_out (nc' + nb (lsu_valid (lsu c')))).

Lemma silent_side : wr_regs W_quiet f -> view (m_words (mem f)) d -> lsu_state (lsu c) <> LSU_WRITE_REQ -> lsu_state (lsu c) <> LSU_WAIT_B -> write_ok.
Proof.
  intros Hr Hv H1 H2. destruct (silent_step c f f' Hp He Hr H1) as (S1 & S2 & S3). rewrite S2, S3, quiet_out by done.
  split; [|split; [apply Hi|apply (fi_out _ _ _ _ Hi)]]. exists W_quiet. split; [done|].
  split; [|cbn [wr_data]; by rewrite S2, dmem_same]. pose proof write_step as Hw. cbv zeta in Hw. unfold wr_core. by destruct (lsu_state (lsu c)).
Qed.

Lemma request_side : wr_regs W_quiet f -> view (m_words (mem f)) d -> lsu_state (lsu c) = LSU_WRITE_REQ -> write_ok.
Proof.
  intros Hr Hv Hs. destruct (store_target nc c f d Hi Hs) as (len & addr & v & Em & Ea & Ed & Eb & Hv32 & Ht).
  pose proof (fi_wires _ _ _ _ Hi) as Hwi. unfold wires_ok in Hwi. rewrite Hs in Hwi. injection Hwi as _ Wa Ww.
  assert (exists k, sel (awaddr (lsu c)) = k /\ (k = X_SRAM \/ k = X_UART) /\ (if decide (k = X_SRAM) then in_sram addr /\ (forall p, text p -> word_base addr <> p) else in_uart addr /\ len = 1)) as (k & Hk & Hsu & Hm).
  { rewrite Ea. destruct Ht as [[H1 H2]|[H1 H2]]; [exists X_SRAM|exists X_UART]; (split; [first [by apply sel_sram|by apply sel_uart]|]); split; auto; done. }
  destruct (write_request c f Hp k Hr Hs Hk Hsu) as (I1 & I2 & _). pose proof write_step as Hw. cbv zeta in Hw. rewrite Hs in Hw. destruct (Hw I1 I2) as (L1 & L2 & L3).
  destruct (request_step c f f' Hp He k Hr Hs Hk Hsu) as (S1 & S2 & S3 & S4 & S5).
  assert (lsu_valid (lsu c) = false) as Hva by (apply lsu_valid_off; by rewrite Hs). rewrite L3, Hva in *. cbn [nb]. rewrite !Nat.add_0_r.
  assert (d' = strobe_write d addr (wdata (lsu c)) (wstrb (lsu c))) as Ed'.
  { cbn [sys_step dmem core]. unfold store_fire, aw_fire, w_fire. by rewrite Hs, Wa, Ww, I1, I2, Ea. }
  rewrite S2, S3. split; [|split; [apply Hi|]]; [|pose proof (fi_out _ _ _ _ Hi) as Ho; rewrite Hva in Ho; cbn [nb] in Ho; by rewrite Nat.add_0_r in Ho].
  exists (W_sent k). split; [exact S1|]. split; [by split; [|rewrite L2]|]. cbn [wr_data]. rewrite S2, Ed'. case_decide as Ek.
  - destruct (S4 Ek) as (-> & -> & ->). destruct Hm as [Hm1 Hm2]. rewrite Ea, waddr_back by done. split_and!.
    + split; [done|]. split; [rewrite Ed; by apply lane_data_ok|]. by exists d.
    + unfold byte_out. rewrite Em. by rewrite sram_not_uart.
    + intros p Hpt E. apply (Hm2 p Hpt). rewrite <- E. apply aligned_word. by apply (pg_text Hpg).
  - destruct Hsu as [?| ->]; [done|]. rewrite (S5 eq_refl). destruct Hm as [Hm1 ->]. split.
    + split; [apply Hv|]. intros j Hj. rewrite uart_write_elsewhere by done. by apply Hv.
    + unfold byte_out. rewrite Em, (proj2 (Z.leb_le _ _)), (proj2 (Z.leb_le _ _)) by apply Hm1. cbn [andb]. rewrite Ed. by rewrite printed_byte.
Qed.

Lemma wait_side k b : wr_sent k b f -> lsu_state (lsu c) = LSU_WAIT_B -> sel (awaddr (lsu c)) = k -> wr_data (W_sent k) nc d f -> write_ok.
Proof.
  intros Hr Hs Hk Hd. destruct (write_wait c f Hp k b Hr Hs Hk) as (_ & _ & I3 & _).
  pose proof write_step as Hw. cbv zeta in Hw. rewrite Hs, I3 in Hw. destruct Hw as (L1 & L2 & L3).
  destruct (wait_step c f f' Hp He k b Hr Hs Hk) as (S1 & S2 & S3 & S4 & S5 & S6 & S7).
  assert (lsu_valid (lsu c) = false) as Hva by (apply lsu_valid_off; by rewrite Hs). rewrite L2, Hva, dmem_same in * by (by rewrite Hs).
  cbn [nb]. rewrite !Nat.add_0_r. pose proof (fi_out _ _ _ _ Hi) as Ho. rewrite Hva in Ho. cbn [nb] in Ho. rewrite Nat.add_0_r in Ho.
  assert (view (m_words (mem f')) d /\ wr_data (W_sent k) nc d f' /\ forall p, text p -> bus_word (bytes_of (m_words (mem f'))) (p - SRAM_BASE) = code p) as (V1 & V2 & V3).
  { cbn [wr_data] in *. rewrite S3, S4, S5, S6. case_decide as Ek.
    - destruct Hd as (Hpe & Hby & Hte). destruct (pending_written _ _ _ _ _ Hpe) as (m' & E & P1 & P2 & P3). rewrite S2 in E. injection E as <-.
      split_and!; [done..|]. intros p Hpt. rewrite P3 by (by apply Hte). by apply Hi.
    - rewrite S2. destruct Hd as [Hd1 Hd2]. split_and!; try done. apply Hi. }
  split; [|split; [done|]].
  - exists (if b then W_quiet else W_done k). split; [done|]. destruct b; (split; [|done]).
    + cbn [wr_core]. by rewrite L3.
    + split; [done|by rewrite L1].
  - rewrite S7, Ho. cbn [wr_data] in Hd. destruct b; [|by rewrite andb_false_r, Nat.add_0_r]. rewrite andb_true_r, Nat.add_1_r. cbn [uart_out].
    destruct Hr as (_ & _ & _ & _ & _ & [-> | ->] & _); decided; cbn in Hd.
    + destruct Hd as (_ & -> & _). by rewrite app_nil_r.
    + by destruct Hd as [_ ->].
Qed.

Lemma write_side : write_ok.
Proof.
  destruct (fi_write _ _ _ _ Hi) as (ph & Hr & Hc & Hd). destruct ph as [|k|k].
  - destruct (decide (lsu_state (lsu c) = LSU_WRITE_REQ)); [by apply request_side|by apply silent_side].
  - destruct Hc as [Hs Hk]. by apply (wait_side k false).
  - destruct Hc as [Hs Hk]. by apply (wait_side k true).
Qed.

(** One cycle of the design is one of the processor with memories that keep their promise. *)
Lemma fab_step : fab_inv nc' c' f' d'.
Proof.
  destruct write_side as (W1 & W2 & W3). constructor; try done.
  - exact (inv_step code a0 nc s i Hinv answers_right Hok (pg_supported Hpg)).
  - apply wires_step; [done|apply writes_paired| |apply Hi]. intros Hv Hl.
    pose proof (xo_mem _ _ _ (iv_exu _ _ _ _ Hinv Hv)) as Hx. cbn [core] in Hx. destruct (e_mem _); destruct_and! Hx; congruence.
  - exact (asked_step code a0 text (pg_fetch Hpg) nc s i Hinv eq_refl (fi_text _ _ _ _ Hi)).
  - apply read_side.
Qed.
End Step.
End Inv.
