(* ===== verification/NpcFabricRun.v ===== *)
(** The whole design of the build [ARCH_NPC], processor and bus fabric: after a reset it runs
    the program that is in its memory ([soc_runs_program]) without ever waiting for more than
    a few cycles ([soc_keeps_committing]), up to the first [fence.i], behind which it commits
    nothing any more ([fencei_stops_soc]). *)

From S2P Require Import Prelude AmBus RvSpec NpcDatapath NpcCore NpcArch NpcExec NpcLanes NpcPipe NpcRefine NpcLive NpcCorrect NpcMemory NpcFabric NpcFabricProof NpcFabricInv.

Section Run.
Context `{ARCH : NpcArch}.

(** * Reset *)

(** The registers as the simulator starts with them ([--x-initial fast]), as far as nothing
    resets them: no request on the ports, crossbar and read channel of the memory idle. *)
Record powered_up (s : soc) : Prop := mkPoweredUp {
  pu_fetch : axi_state (ifu (cpu_core s)) = AXI_IDLE;
  pu_lsu : arvalid (lsu (cpu_core s)) = false /\ awvalid (lsu (cpu_core s)) = false /\ wvalid (lsu (cpu_core s)) = false;
  pu_xbar : owner_rd (xbar (bus s)) = X_IDLE /\ owner_wr (xbar (bus s)) = X_IDLE /\ got_aw (xbar (bus s)) = false /\ got_w (xbar (bus s)) = false;
  pu_mem : is_busy_ar (mem (bus s)) = false /\ m_rvalid (mem (bus s)) = false /\ words_ok (m_words (mem (bus s)));
  pu_uart : printed (uart (bus s)) = [];
}.

Lemma silent_wires rst s : powered_up s ->
  q_arvalid (to_xbar rst (cpu_core s) (bus s)) = false /\ q_awvalid (to_xbar rst (cpu_core s) (bus s)) = false /\
  q_wvalid (to_xbar rst (cpu_core s) (bus s)) = false.
Proof.
  intros [H1 (H2 & H3 & H4) _ _ _]. unfold to_xbar, arb_req, ifu_port, lsu_port. rewrite H2, H3, H4. unfold ifu_arvalid. rewrite H1.
  destruct (read_grant (arb (bus s))), (arb_writes _ _); done.
Qed.

Lemma reset_cycle s : powered_up s -> exists s', soc_step true s = Some s' /\ powered_up s' /\
  cpu_core s' = cycle (cpu_core s) (fabric_in true (cpu_core s) (bus s)) /\
  m_words (mem (bus s')) = m_words (mem (bus s)) /\ rd_regs R_quiet (bus s') /\ wr_regs W_quiet (bus s').
Proof.
  intros Hs. pose proof (silent_wires true s Hs) as (Q1 & Q2 & Q3). destruct Hs as [H1 (H2 & H3 & H4) (X1 & X2 & X3 & X4) (M1 & M2 & M3) Hu].
  destruct s as [c f]. cbn [cpu_core bus] in *.
  destruct (to_slave_read true c f X_SRAM) as (S1 & _ & S3). rewrite Q1, andb_false_r in S1. rewrite X1 in S3. change (bool_decide (X_IDLE = X_SRAM)) with false in S3. cbn [andb] in S3.
  set (m' := mkMem false false false (m_rdata (mem f)) (m_rlast (mem f)) false false
    (mem_waddr (mem f)) (mem_wdata (mem f)) (mem_wmask (mem f)) false (m_words (mem f))).
  assert (mem_edge true (to_slave true c f X_SRAM) (mem f) = Some m') as Hm by (unfold mem_edge; by rewrite S1, S3, M1, M2).
  unfold soc_step, fabric_edge. cbn [cpu_core bus]. rewrite Hm. eexists. split; [reflexivity|]. cbn [cpu_core bus].
  set (f' := mkFabric _ _ _ _ _).
  assert (owner_rd (xbar f') = X_IDLE /\ owner_wr (xbar f') = X_IDLE /\ got_aw (xbar f') = false /\ got_w (xbar f') = false) as HX.
  { unfold f'. cbn [xbar xbar_edge owner_rd owner_wr got_aw got_w]. unfold x_rvalid, x_bvalid, fire_aw, fire_w. rewrite Q1, Q2, Q3, X1, X2, X3, X4. done. }
  split; [|split; [done|split; [done|split]]].
  - constructor; try done. cbn [cpu_core cycle lsu]. rewrite lsu_edge_eq. cbn [arvalid awvalid wvalid].
    unfold lsu_ar_edge, lsu_aw_edge, lsu_w_edge. by destruct (lsu c).
  - by destruct HX as (E1 & _).
  - destruct HX as (_ & E2 & E3 & E4). split_and!; try done. by intros [].
Qed.

Lemma reset_cycles n s : powered_up s -> exists s', soc_reset n s = Some s' /\ powered_up s'.
Proof.
  revert s. induction n as [|n IH]; intros s Hs; [by exists s|]. destruct (reset_cycle s Hs) as (s' & E & Hs' & _).
  cbn. rewrite E. by apply IH.
Qed.

Lemma soc_started s s0 r : powered_up s -> soc_reset (S r) s = Some s0 -> exists s', powered_up s' /\ soc_step true s' = Some s0.
Proof.
  revert s. induction r as [|r IH]; intros s Hs Hr; cbn [soc_reset] in Hr; apply bind_Some in Hr as (s' & E & Hr).
  - injection Hr as <-. by exists s.
  - apply (IH s'); [|exact Hr]. destruct (reset_cycle s Hs) as (s2 & E2 & H2 & _). rewrite E in E2. by injection E2 as ->.
Qed.

(** What the program finds. *)
Definition boot_with (s : soc) (d : ram) : arch :=
  let c := cpu_core s in
  mkArch RESET_PC (rf c) (mkCsrs (mstatus (csr c)) (mtvec (csr c)) (mepc (csr c)) (mcause (csr c))) d.
Definition boot (s : soc) : arch := boot_with s (fun k => bytes_of (m_words (mem (bus s))) (k - SRAM_BASE)).

Variables (code : Z -> Z) (text : Z -> Prop).

Lemma boots_with s s0 d : powered_up s -> soc_step true s = Some s0 -> view (m_words (mem (bus s0))) d -> program_ok code (boot_with s0 d) text ->
  fab_inv code (boot_with s0 d) text 0 (cpu_core s0) (bus s0) d.
Proof.
  intros Hs Hb Hvw Hp. destruct (reset_cycle s Hs) as (s' & E & Hs' & Ec & Ew & Hr & Hw). rewrite Hb in E. injection E as <-.
  set (i := fabric_in true (cpu_core s) (bus s)) in *.
  assert (lsu_busy (lsu (cpu_core s0)) = false) as Hbu by (rewrite Ec; by apply reset_lsu).
  assert (lsu_state (lsu (cpu_core s0)) = LSU_IDLE /\ lsu_valid (lsu (cpu_core s0)) = false) as [Hst Hv].
  { unfold lsu_busy in Hbu. apply orb_false_iff in Hbu as [H1 H2]. by apply negb_false_iff, bool_decide_eq_true in H1. }
  destruct Hs' as [P1 P2 P3 P4 P5]. constructor.
  - assert (sys_step (mkSys (cpu_core s) d) i = mkSys (cpu_core s0) d) as E.
    { unfold sys_step, store_fire, aw_fire. cbn [core dmem]. destruct Hs as [_ (_ & -> & _) _ _ _]. cbn [andb]. by rewrite andb_false_r, <- Ec. }
    pose proof (inv_reset code (mkSys (cpu_core s) d) i eq_refl) as Hi. by rewrite E in Hi.
  - unfold wires_ok. rewrite Hst. by destruct P2 as (-> & -> & ->).
  - by rewrite P1.
  - exists R_quiet. split; [done|]. split; [split; [done|]|done]. intros [] _; cbn; [done|by rewrite Hst|by rewrite P1].
  - exists W_quiet. split; [done|]. by split; [cbn; rewrite Hst|].
  - intros p Ht. rewrite <- (pg_code _ _ _ Hp p Ht). apply view_word; [done|by apply (pg_text _ _ _ Hp)].
  - by rewrite Hv, P5.
Qed.

Lemma boots s s0 : powered_up s -> soc_step true s = Some s0 -> program_ok code (boot s0) text ->
  fab_inv code (boot s0) text 0 (cpu_core s0) (bus s0) (a_mem (boot s0)).
Proof.
  intros Hs Hb Hp. apply (boots_with s); [done|done| |done]. destruct (reset_cycle s Hs) as (s' & E & Hs' & _). rewrite Hb in E. injection E as <-.
  split; [apply Hs'|done].
Qed.

(** * Runs *)

Section From.
Variable a0 : arch.
Hypothesis Hpg : program_ok code a0 text.

Local Abbreviation holds := (fun nc s d => fab_inv code a0 text nc (cpu_core s) (bus s) d).
Local Abbreviation next nc s := ((nc + nb (lsu_valid (lsu (cpu_core s))))%nat).

Lemma soc_cycle nc s d : holds nc s d -> exists s', soc_step false s = Some s' /\
  (exists d', holds (next nc s) s' d') /\ (lsu_valid (lsu (cpu_core s)) = true -> commits_as code (seq code a0 nc) (wbu_commit (lsu (cpu_core s)))).
Proof.
  intros Hi. destruct (edge_defined code a0 text Hpg nc _ _ d Hi) as [f' He]. unfold soc_step. rewrite He. eexists. split; [reflexivity|]. split.
  - eexists. exact (fab_step code a0 text Hpg nc _ _ d Hi f' He).
  - exact (step_commit code a0 nc (mkSys (cpu_core s) d) (fi_inv _ _ _ _ _ _ _ Hi)).
Qed.

(** [Q] is an invariant of the cycles, the commits and the state. *)
Lemma soc_run_inv (Q : nat -> nat -> soc -> Prop) :
  (forall t nc s d s', holds nc s d -> Q t nc s -> soc_step false s = Some s' -> Q (S t) (next nc s) s') ->
  forall n t nc s d, holds nc s d -> Q t nc s ->
  exists cs s1 d1, soc_run n s = Some (cs, s1) /\ (forall k c, cs !! k = Some c -> commits_as code (seq code a0 (nc + k)) c) /\
    holds (nc + length cs)%nat s1 d1 /\ Q (t + n)%nat (nc + length cs)%nat s1.
Proof.
  intros Hq n. induction n as [|n IH]; intros t nc s d Hi H; cbn [soc_run].
  { exists [], s, d. rewrite !Nat.add_0_r. split; [done|]. split; [by intros []|done]. }
  destruct (soc_cycle nc s d Hi) as (s' & E & (d' & Hi') & Hc). rewrite E. cbn [mbind option_bind].
  destruct (IH (S t) _ s' d' Hi' (Hq t nc s d s' Hi H E)) as (cs & s1 & d1 & -> & H1 & H2 & H3). cbn [mbind option_bind].
  assert (commit_fire (fabric_in false (cpu_core s) (bus s)) (lsu (cpu_core s)) = lsu_valid (lsu (cpu_core s))) as -> by apply andb_true_r.
  replace (t + S n)%nat with (S t + n)%nat by lia. destruct (lsu_valid (lsu (cpu_core s))) eqn:Ev; cbn [nb] in *.
  - eexists _, s1, d1. split; [reflexivity|]. cbn [length]. rewrite Nat.add_1_r in *. replace (nc + S (length cs))%nat with (S nc + length cs)%nat by lia.
    split; [|done]. intros [|k] c; cbn; [intros [= <-]; rewrite Nat.add_0_r; by apply Hc|]. intros Hk. rewrite <- Nat.add_succ_comm. by apply H1.
  - eexists _, s1, d1. split; [reflexivity|]. by rewrite Nat.add_0_r in *.
Qed.
End From.

(** * The instruction fence *)

(** [IFU] waits for [arready] without a request; the arbiter shows it to nobody. *)
Lemma fence_waits a0 nc c f d : program_ok code a0 text -> fab_inv code a0 text nc c f d -> fencei_state (ifu c) = FENCEI_WAIT ->
  lsu_valid (lsu c) = false /\ fencei_state (ifu (cycle c (fabric_in false c f))) = FENCEI_WAIT.
Proof.
  intros Hpg Hi Hf. pose proof (ports code a0 text Hpg nc c f d Hi) as Hp. split.
  - destruct (iv_flush _ _ _ _ (fi_inv _ _ _ _ _ _ _ Hi)) as [_ Hn]; [left; cbn [core]; by rewrite Hf|].
    apply (busy_valid (mkSys c d)). cbn [core]. unfold at_ifu, at_idu, at_exu in Hn. cbn [core] in Hn. destruct (lsu_busy (lsu c)); [cbn in Hn; lia|done].
  - cbn [cycle ifu]. set (i := fabric_in false c f).
    destruct (ifu_edge_fence i (fencei_done i (lsu c)) (redirect_to c) (redirect c i) (idu_ready c i) (ifu c) eq_refl) as [-> _].
    rewrite Hf. destruct (bool_decide (axi_state (ifu c) = AXI_IDLE)) eqn:Ea; [|done]. apply bool_decide_eq_true in Ea. cbn [andb].
    destruct (fi_read _ _ _ _ _ _ _ Hi) as (ph & Hr & Hc & _). destruct (fabric_in_read c f Hp ph O_IFU Hr Hc) as (E & _).
    change (i_arready i) with (g_arready (fabric_in false c f) O_IFU). rewrite E.
    assert (asking c O_IFU = false) as Hn by (cbn; unfold ifu_arvalid; by rewrite Ea). destruct Hc as [Hc _].
    destruct ph as [|[]|[]|]; cbn [bool_decide decide_rel owner_eq andb]; try done; congruence.
Qed.

Lemma valid_no_fence a0 nc c f d : fab_inv code a0 text nc c f d -> lsu_valid (lsu c) = true -> fencei_state (ifu c) = FENCEI_IDLE.
Proof.
  intros Hi Hv. destruct (fencei_state (ifu c)) eqn:E; [done|..]; exfalso;
    (destruct (iv_flush _ _ _ _ (fi_inv _ _ _ _ _ _ _ Hi)) as [_ Hn]; [left; cbn [core]; by rewrite E|]);
    unfold at_ifu, at_idu, at_exu, lsu_busy in Hn; cbn [core] in Hn; rewrite Hv, orb_true_r in Hn; cbn in Hn; lia.
Qed.

Lemma fence_commits a0 nc c f d : fab_inv code a0 text nc c f d -> lsu_valid (lsu c) = true ->
  fencei_done (fabric_in false c f) (lsu c) = fence (a_instr code (seq code a0 nc)).
Proof.
  intros Hi Hv. assert (lsu_busy (lsu c) = true) as Hb by (unfold lsu_busy; rewrite Hv; apply orb_true_r).
  destruct (iv_lsu _ _ _ _ (fi_inv _ _ _ _ _ _ _ Hi) Hb) as [_ _ _ _ _ L6 _ _ _]. cbn [core] in L6.
  unfold fencei_done, commit_fire. by rewrite Hv, L6.
Qed.

(** C4. The whole design runs the program in its memory: after a power-up and any number of
    cycles of reset, in any number of cycles, the simulator never reads or writes out of its
    array, the commits are the instructions of the sequential run, in order and with the right
    results, the registers are those of the sequential machine, the terminal shows the bytes
    that the program has stored to the UART, and the memory is the one of the sequential
    machine whenever no access is under way. There is no assumption on the memory or on when
    it answers: arbiter, crossbar and memory of the design take that part. *)
Theorem soc_runs_program (s s0 : soc) (r n : nat) :
  powered_up s -> soc_reset (S r) s = Some s0 -> program_ok code (boot s0) text ->
  exists cs s1, soc_run n s0 = Some (cs, s1) /\
    let k := length cs in
    let c := cpu_core s1 in
    (forall j x, cs !! j = Some x -> commits_as code (seq code (boot s0) j) x) /\
    (forall x, rf c x = a_reg (seq code (boot s0) k) x) /\
    printed (uart (bus s1)) = uart_out code (boot s0) (k + nb (lsu_valid (lsu c))) /\
    (lsu_busy (lsu c) = false -> forall a, in_sram a -> bytes_of (m_words (mem (bus s1))) (a - SRAM_BASE) = a_mem (seq code (boot s0) k) a).
Proof.
  intros Hs Hr Hp. destruct (soc_started s s0 r Hs Hr) as (s' & Hs' & E).
  destruct (soc_run_inv (boot s0) Hp (fun _ _ _ => True) ltac:(done) n 0 0 s0 _ (boots s' s0 Hs' E Hp) I) as (cs & s1 & d1 & -> & H1 & H2 & _).
  exists cs, s1. split; [done|]. cbn [Nat.add] in *. pose proof (fi_inv _ _ _ _ _ _ _ H2) as Hi. split_and!; [exact H1|apply Hi|apply H2|].
  intros Hb a Ha. destruct (write_idle code (boot s0) text _ _ _ _ H2) as [_ [_ Hv]].
  { intros E'. unfold lsu_busy in Hb. by rewrite E' in Hb. }
  pose proof (iv_mem _ _ _ _ Hi) as Hm. cbn [core dmem] in Hm. rewrite Hb in Hm. by rewrite <- Hm, (Hv a Ha).
Qed.

(** C35. A [fence.i] is the last instruction that the design commits: when instruction [k] of
    the run is one, then no number of cycles gives more than [k + 1] commits. *)
Theorem fencei_stops_soc (s s0 : soc) (r k n : nat) :
  powered_up s -> soc_reset (S r) s = Some s0 -> program_ok code (boot s0) text ->
  a_instr code (seq code (boot s0) k) = I_fence_i ->
  exists cs s1, soc_run n s0 = Some (cs, s1) /\ (length cs <= S k)%nat.
Proof.
  intros Hs Hr Hp Hk. destruct (soc_started s s0 r Hs Hr) as (s' & Hs' & E).
  destruct (soc_run_inv (boot s0) Hp (fun _ nc s => (nc <= S k)%nat /\ (nc = S k -> fencei_state (ifu (cpu_core s)) = FENCEI_WAIT)))
    with (n := n) (t := 0%nat) (nc := 0%nat) (s := s0) (d := a_mem (boot s0)) as (cs & s1 & d1 & H1 & _ & _ & H2 & _);
    [|by apply (boots s')|split; lia|by exists cs, s1].
  clear s r n Hs Hr s' Hs' E. intros t nc s d s' Hi [Hle Hw] E.
  apply bind_Some in E as (f' & _ & [= <-]). cbn [cpu_core]. destruct (decide (nc = S k)) as [En|Hne].
  - destruct (fence_waits _ _ _ _ _ Hp Hi (Hw En)) as [-> H]. cbn [nb]. split; [lia|done].
  - destruct (lsu_valid (lsu (cpu_core s))) eqn:Ev; cbn [nb]; (split; [lia|]); [|lia]. intros En.
    replace k with nc in Hk by lia. pose proof (fence_commits _ _ _ _ _ Hi Ev) as Hd. rewrite Hk in Hd.
    cbn [cycle ifu]. set (i := fabric_in false (cpu_core s) (bus s)) in *.
    destruct (ifu_edge_fence i (fencei_done i (lsu (cpu_core s))) (redirect_to (cpu_core s)) (redirect (cpu_core s) i) (idu_ready (cpu_core s) i) (ifu (cpu_core s)) eq_refl) as [-> _].
    by rewrite (valid_no_fence _ _ _ _ _ Hi Ev), Hd.
Qed.
End Run.

(** * Progress

    [patience] bounds how long a master waits for its request to be taken, [stall] how long
    the processor waits for a handshake, and [remaining] the cycles until the next commit. *)

(** Cycles until the memory takes the request of [g]. *)
Definition patience (g : owner_t) (f : fabric) : nat :=
  let busy := is_busy_ar (mem f) in
  if decide (read_owner (arb f) = O_IDLE) then
    if decide (read_grant (arb f) = O_IDLE) then 2
    else if decide (read_grant (arb f) = g) then (if busy then 0 else 1)
    else (if busy then 4 else 5)
  else 3.

(** The pipeline is empty and a fetch has been asked for. *)
Definition fetching (c : npc) : bool :=
  negb (lsu_busy (lsu c)) && negb (exu_valid (exu c) || idu_valid (idu c)) && asking c O_IFU.

Definition stall (c : npc) (f : fabric) : nat :=
  match lsu_state (lsu c) with
  | LSU_READ_ADDR => patience O_LSU f
  | LSU_WAIT_B => if m_bvalid (mem f) || u_bvalid (uart f) then 0 else 1
  | _ => if fetching c then patience O_IFU f else 0
  end.

Lemma patience_le g f : (patience g f <= 5)%nat.
Proof. unfold patience. repeat case_match; lia. Qed.

Lemma stall_le c f : (stall c f <= 5)%nat.
Proof. unfold stall. pose proof (patience_le O_LSU f). pose proof (patience_le O_IFU f). repeat case_match; lia. Qed.

Definition remaining (c : npc) (f : fabric) : nat := 6 * distance c + stall c f.

Lemma remaining_le c f : fencei_state (ifu c) = FENCEI_IDLE -> (remaining c f <= 65)%nat.
Proof.
  intros Hf. unfold remaining. pose proof (stall_le c f). assert (distance c <= 10)%nat; [|lia].
  unfold distance, fetch_distance. rewrite Hf. repeat case_match; lia.
Qed.

Section Live.
Context `{ARCH : NpcArch}.
Variables (code : Z -> Z) (a0 : arch) (text : Z -> Prop).
Hypothesis Hpg : program_ok code a0 text.

Section Cycle.
Variables (nc : nat) (c : npc) (f f' : fabric) (d : ram).
Hypotheses (Hi : fab_inv code a0 text nc c f d) (He : fabric_edge false c f = Some f').
Local Abbreviation i := (fabric_in false c f).
Local Abbreviation c' := (cycle c i).
Let Hp : ports_ok c := ports code a0 text Hpg nc c f d Hi.

Lemma asks_not_waits g : asking c g = true -> waiting c g = false.
Proof.
  destruct g; [done|..]; cbn; unfold ifu_arvalid; intros H%bool_decide_eq_true; apply bool_decide_eq_false; by rewrite H.
Qed.

Lemma patience_step g : asking c g = true -> (g = O_IFU -> asking c O_LSU = false) -> g_arready i g = false ->
  (patience g f' < patience g f)%nat.
Proof.
  intros Ha Hl Hr. destruct (fi_read _ _ _ _ _ _ _ Hi) as (ph & R & Hc & _).
  pose proof (read_step c f Hp ph f' R Hc (words_fine code a0 text nc c f d Hi) He) as [R' _].
  destruct (fabric_in_read c f Hp ph g R Hc) as (E & _). rewrite Hr in E. destruct Hc as [Hc _].
  destruct ph as [|g'|g'|g']; cbn [rd_next] in R'.
  - assert (rd_regs (R_granted g) f') as R1.
    { destruct g; [done|by rewrite Ha in R'|]. by rewrite (Hl eq_refl), Ha in R'. }
    destruct R as (E1 & E2 & _). destruct R1 as (F1 & F2 & _ & F4 & _ & F6). unfold patience. rewrite E1, E2, F1, F2, F4.
    by repeat case_decide; try done; lia.
  - destruct R as (E1 & E2 & _ & E4 & _ & E6). destruct (decide (g' = g)) as [->|Hne].
    + rewrite bool_decide_eq_true_2 in E by done. cbn [andb] in E. rewrite <- E in R'. destruct R' as (F1 & F2 & _ & F4 & _ & F6).
      unfold patience. rewrite E1, E2, E4, F1, F2, F4. repeat case_decide; try done; lia.
    + unfold patience at 2. rewrite E1, E2, E4. repeat case_decide; try done. 
      destruct (m_arready (mem f)); [destruct R' as (F1 & F2 & _ & F4 & _ & F6)|destruct R' as (F1 & F2 & _ & F4 & _ & F6 & _)];
        unfold patience; rewrite F1, F2, F4; repeat case_decide; try done; lia.
  - destruct R as (E1 & E2 & _ & E4 & _ & E6 & _). destruct R' as (F1 & F2 & _ & F4 & _ & F6).
    assert (g <> g') as Hne by (intros ->; by rewrite bool_decide_eq_true_2 in E).
    unfold patience. rewrite E1, E2, E4, F1, F2, F4. repeat case_decide; try done; lia.
  - destruct R as (E1 & E2 & _ & E4 & _ & E6 & _). destruct R' as (F1 & F2 & _).
    unfold patience. rewrite E1, E2, F1, F2. repeat case_decide; try done; lia.
Qed.

(** A master that waits is answered. *)
Lemma waits_served g : waiting c g = true -> g_rvalid i g = true.
Proof.
  intros Hw. destruct (fi_read _ _ _ _ _ _ _ Hi) as (ph & R & Hc & _). destruct (fabric_in_read c f Hp ph g R Hc) as (_ & -> & _).
  destruct Hc as [_ Hc]. destruct ph as [| | |g']; try (by rewrite Hc in Hw).
  apply bool_decide_eq_true. destruct (decide (g = g')) as [|Hne]; [done|]. by rewrite Hc in Hw by congruence.
Qed.

Lemma lsu_stall : lsu_busy (lsu c) = true -> serves c i = false -> (stall c' f' < stall c f)%nat.
Proof.
  intros Hb Hs. unfold serves in Hs. rewrite Hb in Hs. unfold stall at 2.
  destruct (lsu_state (lsu c)) eqn:Es; try done.
  - assert (asking c O_LSU = true) as Ha by (cbn; by rewrite Es).
    destruct (master_asks c i eq_refl Hp O_LSU Ha) as (_ & Ha' & _). cbn [g_arready] in Ha'. rewrite Hs in Ha'. cbn [asking negb] in Ha'. apply bool_decide_eq_true in Ha'.
    unfold stall. rewrite Ha'. by apply patience_step.
  - assert (waiting c O_LSU = true) as Hw by (cbn; by rewrite Es). apply waits_served in Hw. change (l_rvalid i = true) in Hw. congruence.
  - destruct (write_idle code a0 text nc c f d Hi) as [Hr _]; [by rewrite Es|]. exfalso.
    assert (sel (awaddr (lsu c)) = X_SRAM \/ sel (awaddr (lsu c)) = X_UART) as Hk.
    { destruct (po_write c Hp Es) as [[H|H] _]; [left; by apply sel_sram|right; by apply sel_uart]. }
    destruct (write_request c f Hp _ Hr Es eq_refl Hk) as (E1 & E2 & _). by rewrite E1, E2 in Hs.
  - destruct (fi_write _ _ _ _ _ _ _ Hi) as (ph & Hr & Hc & _). destruct ph as [|k|k]; [done|..].
    + destruct Hc as [_ Hk]. pose proof (write_step code a0 text nc c f d Hi) as Hw. cbv zeta in Hw. rewrite Es, Hs in Hw. destruct Hw as (_ & _ & Es').
      destruct (wait_step c f f' Hp He k false Hr Es Hk) as (Hr' & _). cbn in Hr'.
      pose proof Hr as (_ & _ & _ & _ & _ & Hsu & Hg). pose proof Hr' as (_ & _ & _ & _ & _ & _ & Hg').
      destruct (Hg X_SRAM) as (_ & _ & M). destruct (Hg X_UART) as (_ & _ & U). destruct (Hg' X_SRAM) as (_ & _ & M'). destruct (Hg' X_UART) as (_ & _ & U').
      unfold stall. rewrite Es', M, U, M', U'. destruct Hsu as [-> | ->]; decided; cbn; lia.
    + destruct Hc as [_ Hk]. destruct (write_wait c f Hp k true Hr Es Hk) as (_ & _ & E & _). congruence.
Qed.

Let Hok n : arch_ok (seq code a0 n) := seq_ok code a0 (pg_arch _ _ _ Hpg) n.
Let Hinv : inv code a0 nc (mkSys c d) := fi_inv _ _ _ _ _ _ _ Hi.
Let Hans : answers code (mkSys c d) i := answers_right code a0 text Hpg nc c f d Hi.

Lemma fetch_stall : lsu_busy (lsu c) = false -> fencei_state (ifu c) = FENCEI_IDLE -> serves c i = false -> (stall c' f' < stall c f)%nat.
Proof.
  intros Hb Hf Hs. unfold serves in Hs. rewrite Hb in Hs. destruct (exu_valid (exu c) || idu_valid (idu c)) eqn:Ex; [done|].
  pose proof Ex as Hxd. apply orb_false_iff in Hxd as [Hx Hd].
  assert (lsu_state (lsu c) = LSU_IDLE) as Es by (unfold lsu_busy in Hb; apply orb_false_iff in Hb as [H _]; by apply negb_false_iff, bool_decide_eq_true in H).
  assert (asking c O_IFU = true /\ i_arready i = false) as [Ha Hr].
  { unfold fetch_serves in Hs. rewrite Hf in Hs. destruct (ifu_state (ifu c)); [|done]. cbn [asking]. unfold ifu_arvalid.
    destruct (axi_state (ifu c)) eqn:Ea; [done|done|]. assert (waiting c O_IFU = true) as Hw by (cbn; by rewrite Ea).
    apply waits_served in Hw. change (i_rvalid i = true) in Hw. congruence. }
  destruct (master_asks c i eq_refl Hp O_IFU Ha) as (_ & Ha' & _). cbn [g_arready] in Ha'. rewrite Hr in Ha'. cbn [negb] in Ha'.
  destruct (step_lsu code a0 nc (mkSys c d) i Hinv Hans Hok) as (Hb' & _).
  destruct (step_exu code a0 nc (mkSys c d) i Hinv Hans Hok (pg_supported _ _ _ Hpg)) as (Hx' & _).
  pose proof (step_idu_valid code (mkSys c d) i Hans) as Hd'. pose proof (fire_is (mkSys c d)) as Hfi.
  pose proof (redirect_is code (mkSys c d) i Hans) as Hre. cbn [core] in *.
  rewrite Hd in Hfi. cbn [andb] in Hfi. rewrite Hfi in *. cbn [andb] in Hre. rewrite Hx in *. rewrite Hb in *. rewrite Hre, Hd in Hd'. cbn [andb orb negb] in *.
  assert (idu_valid (idu c') = false) as Hd''.
  { rewrite Hd', orb_false_r. destruct (taken (mkSys c d) i) eqn:Et; [|done]. apply taken_facts in Et as (_ & Ev & _). cbn [core] in Ev.
    unfold fetch_serves in Hs. by rewrite Ev in Hs. }
  assert (fetching c' = true) as Hg by (unfold fetching; by rewrite Hb', Hx', Hd'', Ha').
  assert (lsu_state (lsu c') = LSU_IDLE) as Es'.
  { unfold lsu_busy in Hb'. apply orb_false_iff in Hb' as [H _]; by apply negb_false_iff, bool_decide_eq_true in H. }
  unfold stall. rewrite Es, Es', Hg. unfold fetching. rewrite Hb, Hx, Hd, Ha. cbn [andb orb negb]. apply patience_step; [done| |done]. intros _. cbn. by rewrite Es.
Qed.

Lemma closer_commit : lsu_valid (lsu c) = false -> fencei_state (ifu c) = FENCEI_IDLE -> (remaining c' f' < remaining c f)%nat.
Proof.
  intros Hv Hf. pose proof (stall_le c' f'). unfold remaining.
  assert (requests (lsu c)) as Hq by (intros E; pose proof (fi_wires _ _ _ _ _ _ _ Hi) as Hw; unfold wires_ok in Hw; rewrite E in Hw; by injection Hw).
  destruct (progress code a0 nc (mkSys c d) i Hinv Hans Hok (pg_supported _ _ _ Hpg) Hq Hv) as [Hlt|[Hs Hle]]; cbn [core] in *; [lia|].
  assert (stall c' f' < stall c f)%nat; [|lia]. destruct (lsu_busy (lsu c)) eqn:Eb; [by apply lsu_stall|by apply fetch_stall].
Qed.

(** The unit stays out of a fence that the program does not contain. *)
Lemma no_fence_step : fencei_state (ifu c) = FENCEI_IDLE -> (lsu_valid (lsu c) = true -> fence (a_instr code (seq code a0 nc)) = false) ->
  fencei_state (ifu c') = FENCEI_IDLE.
Proof.
  intros Hf Hn. cbn [cycle ifu]. destruct (ifu_edge_fence i (fencei_done i (lsu c)) (redirect_to c) (redirect c i) (idu_ready c i) (ifu c) eq_refl) as [-> _].
  rewrite Hf. destruct (lsu_valid (lsu c)) eqn:Ev; [by rewrite (fence_commits _ _ _ _ _ _ _ Hi Ev), Hn|].
  unfold fencei_done, commit_fire. by rewrite Ev.
Qed.
End Cycle.
End Live.

Section Keeps.
Context `{ARCH : NpcArch}.
Variables (code : Z -> Z) (text : Z -> Prop).

Lemma boot_remaining s s0 : powered_up s -> soc_step true s = Some s0 ->
  fencei_state (ifu (cpu_core s0)) = FENCEI_IDLE /\ (remaining (cpu_core s0) (bus s0) <= 48)%nat.
Proof.
  intros Hs E. destruct (reset_cycle s Hs) as (s' & E' & [Ha _ _ _ _] & Ec & _). rewrite E in E'. injection E' as <-.
  set (i := fabric_in true (cpu_core s) (bus s)) in *. split.
  { rewrite Ec. cbn [cycle ifu]. by rewrite reset_ifu. }
  pose proof (reset_distance (mkSys (cpu_core s) (fun _ => 0)) i eq_refl) as Hd. cbn [core sys_step] in Hd. rewrite <- Ec in Hd.
  pose proof (reset_lsu i (exu (cpu_core s)) (wbu_out_ready i) (lsu (cpu_core s)) eq_refl) as Hb.
  assert (lsu_state (lsu (cpu_core s0)) = LSU_IDLE) as Hl.
  { rewrite Ec. cbn [cycle lsu]. unfold lsu_busy in Hb. apply orb_false_iff in Hb as [H _]. by apply negb_false_iff, bool_decide_eq_true in H. }
  unfold remaining, stall, fetching. cbn [asking]. unfold ifu_arvalid. rewrite Hd, Hl, Ha. decided. lia.
Qed.

(** C5. The whole design keeps committing, with no assumption on its memories: as long as no
    [fence.i] has been committed, there are never more than 66 cycles per commit, and 48 to
    begin with. So [48 + 66 * k] cycles are enough for the first [k] instructions when only
    the last of them may be a [fence.i]. *)
Theorem soc_keeps_committing (s s0 : soc) (r k n : nat) :
  powered_up s -> soc_reset (S r) s = Some s0 -> program_ok code (boot s0) text ->
  (forall j, (S j < k)%nat -> a_instr code (seq code (boot s0) j) <> I_fence_i) ->
  exists cs s1, soc_run n s0 = Some (cs, s1) /\ (k <= length cs \/ n <= 48 + 66 * length cs)%nat.
Proof.
  intros Hs Hr Hp Hk. destruct (soc_started s s0 r Hs Hr) as (s' & Hs' & E). pose proof (boots code text s' s0 Hs' E Hp) as Hi.
  destruct (soc_run_inv code text (boot s0) Hp (fun t nc s => (k <= nc)%nat \/
      fencei_state (ifu (cpu_core s)) = FENCEI_IDLE /\ (remaining (cpu_core s) (bus s) + t <= 48 + 66 * nc)%nat))
    with (n := n) (t := 0%nat) (nc := 0%nat) (s := s0) (d := a_mem (boot s0)) as (cs & s1 & d1 & H1 & _ & _ & H2); [|exact Hi| |].
  - clear s r n Hs Hr s' Hs' E Hi. intros t nc s d s' Hi [Hle|[Hf Hm]] E; [left; lia|].
    apply bind_Some in E as (f' & He & [= <-]). cbn [cpu_core bus].
    destruct (decide (k <= nc + nb (lsu_valid (lsu (cpu_core s))))%nat) as [|Hlt]; [by left|]. right.
    pose proof (no_fence_step code (boot s0) text nc _ _ d Hi Hf) as Hf'. destruct (lsu_valid (lsu (cpu_core s))) eqn:Ev; cbn [nb] in *.
    + assert (fence (a_instr code (seq code (boot s0) nc)) = false) as Hn.
      { specialize (Hk nc ltac:(lia)). by destruct (a_instr _ _). }
      split; [by apply Hf'|]. pose proof (remaining_le _ f' (Hf' (fun _ => Hn))). lia.
    + split; [by apply Hf'|]. pose proof (closer_commit code (boot s0) text Hp nc _ _ f' d Hi He Ev Hf). lia.
  - right. rewrite Nat.add_0_r. by apply (boot_remaining s').
  - exists cs, s1. split; [done|]. cbn [Nat.add] in H2. destruct H2 as [|[_ H]]; [by left|right; lia].
Qed.
End Keeps.
