(* ===== verification/NpcSdb.v ===== *)
(** The debugger and the main program of the simulator: [npc/csrc/monitor/sdb/sdb.cpp], what
    [expr.cpp] and [watchpoint.cpp] of the same directory do differently from nemu,
    [monitor.cpp], and [main] of [sim_main.cpp].

    The two expression evaluators are one text apart from how they read a register and a
    word of memory, which is the class [Debuggee] of [Expr]; [npc_debuggee] is the instance of
    this program. The watchpoint pool is the same code, so the operations of [Watchpoint] are
    used on a pool of its own. The array [memory] is the memory behind the data port
    ([dmem] of [NpcPipe]), as in the build [ARCH_NPC]. Commands that run the processor take
    fuel, one unit per cycle, and stop with [out of fuel] when it does not suffice. *)

From S2P Require Import Prelude Machine Watchpoint Expr Sdb Monitor.
From S2P Require Import AmBus NpcDatapath NpcCore NpcArch NpcLanes NpcPipe NpcMemory NpcSim.
From Stdlib Require Import Ascii.

Local Open Scope Z_scope.

Definition SDRAM_ADDR : Z := 0xA0000000.
Definition SDRAM_SIZE : Z := 0x20000000.

(** [const char *regs[]] of [reg.cpp]. *)
Definition npc_regs : list string := [
  "$0"; "ra"; "sp"; "gp"; "tp"; "t0"; "t1"; "t2";
  "s0"; "s1"; "a0"; "a1"; "a2"; "a3"; "a4"; "a5";
  "a6"; "a7"; "s2"; "s3"; "s4"; "s5"; "s6"; "s7";
  "s8"; "s9"; "s10"; "s11"; "t3"; "t4"; "t5"; "t6"]%string.

(** What a command prints. *)
Inductive out : Type :=
| OWpHeader
| ONoWatchpoint
| OWatch (cnt : Z) (addr_expr : string) (last_val : Z)
| ORegs (vals : list Z)
| OMem (addr b3 b2 b1 b0 : Z)
| OOutOfBound
| OValue (v : Z)
| ONewWatch (cnt : Z) (args : chars)
| ONoSuch
| ODeleted (num : Z)
| OHelp (name : string)
| OReport (r : report)
| OUnknown (cmd : chars).

Section NpcSdb.
Context `{ARCH : NpcArch} `{REF : DiffRef} `{BOARD : Board}.

(** The simulator and the watchpoint pool. *)
Record dbg : Type := mkDbg { dut : sim; wpool : WpState }.
#[global] Instance eta_dbg : Eta dbg := fun x => mkDbg (dut x) (wpool x).

Definition on_dut {A} (m : M sim A) : M dbg A := fun d =>
  match m (dut d) with Ok (a, s) => Ok (a, d <| dut := s |>) | Abort e => Abort e end.
Definition on_pool {A} (m : M WpState A) : M dbg A := fun d =>
  match m (wpool d) with Ok (a, w) => Ok (a, d <| wpool := w |>) | Abort e => Abort e end.

(** A run of the processor has to end within the fuel; what it prints. *)
Definition to_end (m : M sim (option (list report))) : M dbg (list out) :=
  r ← on_dut m; match r with Some ls => mret (map OReport ls) | None => undef "out of fuel" end.

(** * Expressions *)

(** [DUT_RF[i]]. *)
Definition DUT_RF (i : nat) : M dbg Z :=
  if (i <? 16)%nat then gets (fun d => rf (core (top (dut d))) (Z.of_nat i)) else undef "DUT_RF index".

(** [for(int i = 0; i < 32; i ++)] over the names from [i] on; [0] when none fits. *)
Fixpoint rf_search (names : list string) (i : nat) (name : string) : M dbg Z :=
  match names with
  | [] => mret 0
  | n :: names => if String.eqb name n then DUT_RF i else rf_search names (S i) name
  end.

(** [DUT_PC] is the pc of the instruction in the decoder. *)
Definition npc_reg_value (name : string) : M dbg Z :=
  if String.eqb name "pc" then gets (fun d => idu_pc (idu (core (top (dut d)))))
  else rf_search npc_regs 0 name.

Definition memory (d : dbg) : words := fun idx => bus_word (dmem (top (dut d))) (PSRAM_ADDR + 4 * idx).

(** [memory[val2>>2]]. *)
Definition npc_deref (val2 : Z) : M dbg Z :=
  let idx := Z.shiftr val2 2 in
  if in_memory idx then gets (fun d => memory d idx) else undef "memory index".

#[global] Instance npc_debuggee : Debuggee dbg := {| reg_value := npc_reg_value; deref := npc_deref |}.

(** [pmem_read]; [exit(1)] ends the program. *)
Definition read_word (addr : Z) : M dbg Z :=
  m ← gets memory;
  match pmem_read m addr with
  | Value v => mret v
  | OutOfBounds => undef "memory index"
  | ExitCode _ => panic "OOB READ"
  end.

(** * Commands *)

(** A command: its return value and what it prints. *)
Abbreviation cmd := (M dbg (Z * list out)).

Definition npc_cmd_c (fuel : nat) (args : option chars) : cmd :=
  ls ← to_end (cmd_c fuel); mret (0, ls).

Definition npc_cmd_q (args : option chars) : cmd := on_dut cmd_q ;; mret (-1, []).

Definition npc_cmd_si (fuel : nat) (args : option chars) : cmd :=
  ls ← to_end (cmd_si fuel (strtol_any <$> args)); mret (0, ls).

(** [while(wp != NULL)] of [info w]. *)
Fixpoint npc_info_loop (fuel : nat) (wp : option nat) : M WpState (list out) :=
  match wp with
  | None => mret []
  | Some i =>
      match fuel with
      | O => undef "the list does not end"
      | S fuel =>
          n ← wp_node (Some i);
          ls ← npc_info_loop fuel (next n);
          mret (OWatch (cnt n) (addr_expr n) (last_val n) :: ls)
      end
  end.

Definition npc_info_w : M WpState (list out) :=
  wp ← find_head_wp;
  ls ← npc_info_loop NR_WP wp;
  mret ((match wp with Some _ => OWpHeader | None => ONoWatchpoint end) :: ls).

(** [strcmp(NULL, ...)] is undefined. *)
Definition npc_cmd_info (args : option chars) : cmd :=
  match args with
  | None => undef "strcmp(NULL)"
  | Some a =>
      r ← (if decide (a = ["r"%char]) then v ← on_dut reg_display; mret [ORegs v] else mret []);
      w ← (if decide (a = ["w"%char]) then on_pool npc_info_w else mret []);
      mret (0, r ++ w)
  end.

(** [for(int i = 0; i < n; i ++)] of [x]. *)
Fixpoint npc_x_loop (rounds : nat) (addr : Z) : M dbg (list out) :=
  match rounds with
  | O => mret []
  | S rounds =>
      if (SDRAM_ADDR <=? addr) && (addr <? SDRAM_ADDR + SDRAM_SIZE) then
        v3 ← read_word addr;
        v2 ← read_word addr;
        v1 ← read_word addr;
        v0 ← read_word addr;
        let l := OMem addr (Z.land (Z.shiftr v3 24) 0xff) (Z.land (Z.shiftr v2 16) 0xff)
                   (Z.land (Z.shiftr v1 8) 0xff) (Z.land v0 0xff) in
        ls ← npc_x_loop rounds (u32 (addr + 4));
        mret (l :: ls)
      else
        ls ← npc_x_loop rounds addr;
        mret (OOutOfBound :: ls)
  end.

(** The [int] counter of the loop overflows when [n] is above its range. *)
Definition npc_cmd_x (args : option chars) : cmd :=
  match args with
  | None => mret (0, [])
  | Some a =>
      match strtok a with
      | None => undef "strlen(NULL)"
      | Some (first_para, None) => undef "past the end of the line"
      | Some (first_para, Some second_para) =>
          let n := strtol_any first_para in
          '(addr, _) ← expr (string_of_list_ascii second_para);
          ls ← npc_x_loop (Z.to_nat (Z.min n (2 ^ 31 - 1))) addr;
          if n <? 2 ^ 31 then mret (0, ls) else undef "signed overflow"
      end
  end.

Definition npc_cmd_p (args : option chars) : cmd :=
  match args with
  | None => mret (0, [])
  | Some a => '(v, _) ← expr (string_of_list_ascii a); mret (0, [OValue v])
  end.

(** The number of a new watchpoint. *)
Definition next_cnt (wp : nat) : M WpState Z :=
  n ← wp_node (Some wp);
  match next n with
  | None => mret 1
  | nx =>
      m ← wp_node nx;
      if cnt m =? 2 ^ 31 - 1 then undef "signed overflow" else mret (cnt m + 1)
  end.

Definition npc_cmd_w (args : option chars) : cmd :=
  match args with
  | None => mret (0, [])
  | Some a =>
      wp ← on_pool new_wp;
      on_pool (upd_wp wp (fun n => n <| addr_expr := string_of_list_ascii (take ADDR_EXPR_LEN a) |>)) ;;
      '(v, _) ← expr (string_of_list_ascii a);
      on_pool (upd_wp wp (fun n => n <| last_val := v |>)) ;;
      c ← on_pool (next_cnt wp);
      on_pool (upd_wp wp (fun n => n <| cnt := c |>)) ;;
      mret (0, [ONewWatch c a])
  end.

(** [for(; tmp != NULL; tmp = tmp->next)] of [d]. *)
Fixpoint npc_d_loop (fuel : nat) (num : Z) (tmp : option nat) : M WpState (list out) :=
  match tmp with
  | None => mret []
  | Some i =>
      match fuel with
      | O => undef "the list does not end"
      | S fuel =>
          n ← wp_node (Some i);
          if cnt n =? num then free_wp i ;; mret [ODeleted num]
          else npc_d_loop fuel num (next n)
      end
  end.

Definition delete_wp (num : Z) : M WpState (list out) :=
  tmp ← find_head_wp;
  match tmp with
  | None => mret [ONoSuch]
  | Some h =>
      n ← wp_node (Some h);
      if cnt n <? num then mret [ONoSuch] else npc_d_loop NR_WP num tmp
  end.

Definition npc_cmd_d (args : option chars) : cmd :=
  match args with
  | None => mret (0, [])
  | Some a => ls ← on_pool (delete_wp (s32 (strtol_any a))); mret (0, ls)
  end.

(** * The command table *)

Definition npc_cmd_names : list string := ["help"; "c"; "q"; "si"; "info"; "x"; "p"; "w"; "d"]%string.

(** The argument is what [strtok(NULL, " ")] goes on with. *)
Definition npc_cmd_help (rest : option chars) : cmd :=
  match rest ≫= strtok with
  | None => mret (0, map OHelp npc_cmd_names)
  | Some (arg, _) =>
      let name := string_of_list_ascii arg in
      if decide (name ∈ npc_cmd_names) then mret (0, [OHelp name]) else mret (0, [OUnknown arg])
  end.

Definition npc_handler (fuel : nat) (name : string) : option (option chars -> cmd) :=
  if String.eqb name "help" then Some npc_cmd_help
  else if String.eqb name "c" then Some (npc_cmd_c fuel)
  else if String.eqb name "q" then Some npc_cmd_q
  else if String.eqb name "si" then Some (npc_cmd_si fuel)
  else if String.eqb name "info" then Some npc_cmd_info
  else if String.eqb name "x" then Some npc_cmd_x
  else if String.eqb name "p" then Some npc_cmd_p
  else if String.eqb name "w" then Some npc_cmd_w
  else if String.eqb name "d" then Some npc_cmd_d
  else None.

(** One line; [args >= str_end] makes the argument [NULL]. *)
Definition npc_run_line (fuel : nat) (str : chars) : cmd :=
  match strtok str with
  | None => mret (0, [])
  | Some (c, rest) =>
      match npc_handler fuel (string_of_list_ascii c) with
      | Some h => h (args_of rest)
      | None => mret (0, [OUnknown c])
      end
  end.

(** [for (char *str; (str = rl_gets()) != NULL; )]: the list ends when [readline]
    returns [NULL]. *)
Fixpoint npc_sdb_loop (fuel : nat) (input : list chars) : M dbg (list out) :=
  match input with
  | [] => mret []
  | str :: input =>
      '(r, ls) ← npc_run_line fuel str;
      if r <? 0 then mret ls
      else
        ls' ← npc_sdb_loop fuel input;
        mret (ls ++ ls')
  end.

Definition npc_sdb_mainloop (fuel : nat) (is_batch_mode : bool) (input : list chars) : M dbg (list out) :=
  if is_batch_mode then '(_, ls) ← npc_cmd_c fuel None; mret ls else npc_sdb_loop fuel input.

(** [init_regex] compiles the rules of [Expr]. *)
Definition npc_init_sdb : M dbg unit := on_pool init_wp_pool.

(** [main] from [init_sdb] on: the output of the session and the exit status. *)
Definition session_main (fuel : nat) (is_batch_mode : bool) (input : list chars) : M dbg (list out * Z) :=
  npc_init_sdb ;;
  on_dut reset_top ;;
  ls ← npc_sdb_mainloop fuel is_batch_mode input;
  r ← on_dut is_exit_status_bad;
  mret (ls, r).

(** * Start-up *)

(** The files of the host by name; [None] when [fopen] fails. *)
Variable files : string -> option (list Z).

Definition img_base : Z := if ARCH_NPC then PSRAM_ADDR else 0x30000000.

(** [fread(memory, size, 1, fp)], or [flash] on the SoC; nothing is read of an empty file. *)
Definition npc_load_img (img_file : option string) : M sim Z :=
  match img_file with
  | None => mret 4096
  | Some f =>
      match files f with
      | None => panic "Can not open"
      | Some data =>
          let size := Z.of_nat (length data) in
          c_assert (size <=? Z.shiftl 1 24) "size <= 1<<24" ;;
          let ret := if size =? 0 then 0 else 1 in
          modify (fun s => s <| top := mkSys (core (top s)) (set_bytes (dmem (top s)) img_base data) |>) ;;
          c_assert (ret =? 1) "ret == 1" ;;
          mret size
      end
  end.

(** [main] from the results of [getopt_long] on, whose treatment is that of nemu; [None] after
    the usage text. The log file, the disassembler and the function trace have no state here. *)
Definition npc_main (fuel : nat) (os : list opt) (input : list chars) : M dbg (option (list out * Z)) :=
  match parse_args os args_zero with
  | None => mret None
  | Some a =>
      img_size ← on_dut (npc_load_img (img_file a));
      on_dut (when DIFFTEST (init_difftest img_size)) ;;
      r ← session_main fuel (is_batch_mode a) input;
      mret (Some r)
  end.

End NpcSdb.
