(* ===== verification/NpcSdbProof.v ===== *)
(** Sessions with the debugger of the simulator against the sequential machine.

    A session is a list of typed lines ([item], [text]). Its specification ([session]) knows
    no pipeline, no linked pool and no text: it has the number of instructions executed so
    far, the list of watchpoints, and reads registers from the sequential machine. *)

From S2P Require Import Prelude Machine Difftest Watchpoint Expr ExprSpec Sdb Monitor.
From S2P Require Import AmBus RvSpec NpcDatapath NpcCore NpcArch NpcExec NpcLanes NpcPipe NpcRefine NpcLive NpcCorrect NpcMemory.
From S2P Require Import NpcSim NpcSimProof NpcSdb.
From Stdlib Require Import Ascii.

Local Open Scope Z_scope.

(** * Watchpoints as a list *)

(** Number, text and last value. *)
Definition entry : Type := Z * string * Z.
Definition number_of (e : entry) : Z := e.1.1.

Definition datum (w : WpState) (i : nat) : entry := default (0, ""%string, 0) (wp_data <$> wp_pool w !! i).

(** The pool holds the watchpoints [ws], newest first. *)
Definition watches (w : WpState) (ws : list entry) : Prop :=
  exists used free, wp_rep w used free /\ map (datum w) used = ws /\ descending (map number_of ws).

(** Node [f] has been taken from the free list and holds [n]; the others are [ws]. *)
Definition taken (f : nat) (n : WP) (w : WpState) (ws : list entry) : Prop :=
  exists used free, wp_rep w (f :: used) free /\ map (datum w) used = ws /\ descending (map number_of ws) /\
    wp_pool w !! f = Some n.

Definition new_number (ws : list entry) : Z := match ws with [] => 1 | e :: _ => number_of e + 1 end.

Lemma datum_same w w' i : same_cnt w w' -> datum w' i = datum w i.
Proof. intros H%(same_data _ _ i). unfold datum. by rewrite H. Qed.

Lemma new_wp_taken w ws : watches w ws -> (length ws < NR_WP)%nat ->
  exists f n w', new_wp w = Ok (f, w') /\ taken f n w' ws.
Proof.
  intros (used & free & Hr & Hw & Hd) Hl. destruct free as [|f free].
  { pose proof (Permutation_length (rep_all _ _ _ Hr)) as E. rewrite app_nil_r, length_seq in E.
    rewrite <- Hw, length_map in Hl. lia. }
  destruct (new_wp_run _ _ _ _ Hr) as (w' & E & Hr'). pose proof (rep_used _ _ _ Hr') as (_ & n & Hn & _).
  exists f, n, w'. split; [done|]. exists used, free. split_and!; try done.
  rewrite <- Hw. apply map_ext. intros i. apply datum_same. by eapply new_wp_cnt.
Qed.

Lemma datum_insert w f m used : f ∉ used ->
  map (datum (w <| wp_pool := <[f := m]> (wp_pool w) |>)) used = map (datum w) used.
Proof.
  intros Hf. apply map_ext_in. intros j Hj%list_elem_of_In. unfold datum. cbn.
  rewrite list_lookup_insert_ne; [done|]. by intros ->.
Qed.

Lemma upd_taken f n w ws g : taken f n w ws -> next (g n) = next n -> NO (g n) = NO n ->
  exists w', upd_wp f g w = Ok (tt, w') /\ taken f (g n) w' ws.
Proof.
  intros (used & free & Hr & Hw & Hd & Hn) Hx HN. unfold upd_wp. rewrite Hn. eexists. split; [done|].
  exists used, free. split_and!.
  - by eapply upd_rep.
  - rewrite <- Hw. apply datum_insert. by eapply rep_fresh.
  - done.
  - cbn. rewrite list_lookup_insert_eq; [done|]. by eapply lookup_lt_Some.
Qed.

Lemma next_cnt_run f n w ws : taken f n w ws -> new_number ws < 2 ^ 31 -> next_cnt f w = Ok (new_number ws, w).
Proof.
  intros (used & free & Hr & <- & Hd & Hn) Hlt. unfold next_cnt. rewrite (wp_node_run f n) by done.
  pose proof (rep_used _ _ _ Hr) as (_ & n' & Hn' & Hc). assert (n' = n) as -> by congruence.
  destruct used as [|i used]; cbn [chain] in Hc; [by rewrite Hc|]. destruct Hc as (-> & m & Hm & _).
  rewrite (wp_node_run i m) by done.
  assert (datum w i = wp_data m) as Ei by (unfold datum; by rewrite Hm).
  cbn [map new_number] in *. rewrite Ei in *. cbn [number_of wp_data fst] in *.
  destruct (Z.eqb_spec (cnt m) (2 ^ 31 - 1)); [lia|done].
Qed.

Lemma number_taken f n w ws : taken f n w ws -> cnt n = new_number ws -> watches w (wp_data n :: ws).
Proof.
  intros (used & free & Hr & Hw & Hd & Hn) Hc. exists (f :: used), free. split_and!; [done| |].
  - cbn [map]. rewrite Hw. f_equal. unfold datum. by rewrite Hn.
  - cbn [map]. unfold number_of at 1. cbn. rewrite Hc. destruct ws as [|e ws].
    + split; repeat constructor. cbn. lia.
    + apply descending_cons; [done| |].
      * intros x Hx. cbn [map] in Hx. cbn [new_number]. apply elem_of_cons in Hx as [->|Hx]; [lia|].
        pose proof (descending_head _ _ Hd x Hx). lia.
      * destruct Hd as [_ Hp]. inversion Hp. cbn [new_number]. lia.
Qed.

(** What [info w] prints. *)
Definition info_lines (ws : list entry) : list out :=
  match ws with
  | [] => [ONoWatchpoint]
  | _ => OWpHeader :: map (fun e => OWatch (e.1.1) (e.1.2) (e.2)) ws
  end.

Lemma datum_node w i n : wp_pool w !! i = Some n -> datum w i = (cnt n, addr_expr n, last_val n).
Proof. intros H. unfold datum. by rewrite H. Qed.

Lemma npc_info_loop_run w l : forall fuel p, chain (wp_pool w) p l -> (length l <= fuel)%nat ->
  npc_info_loop fuel p w = Ok (map (fun e => OWatch (e.1.1) (e.1.2) (e.2)) (map (datum w) l), w).
Proof.
  induction l as [|i l IH]; intros fuel p Hc Hf; cbn [chain] in Hc; [subst p; by destruct fuel|].
  destruct Hc as (-> & n & Hn & Hc). destruct fuel as [|fuel]; cbn [length] in Hf; [lia|]. cbn [npc_info_loop].
  rewrite (wp_node_run i n) by done. rewrite (bind_run _ _ _ _ _ (IH fuel (next n) Hc ltac:(lia))).
  cbn [map]. by rewrite (datum_node w i n).
Qed.

Lemma npc_info_w_run w ws : watches w ws -> npc_info_w w = Ok (info_lines ws, w).
Proof.
  intros (used & free & Hr & <- & _). unfold npc_info_w. rewrite (bind_run _ _ w (head w) w) by done.
  rewrite (bind_run _ _ _ _ _ (npc_info_loop_run w used NR_WP _ (rep_used _ _ _ Hr) (rep_length _ _ _ Hr))).
  pose proof (rep_used _ _ _ Hr) as Hc. destruct used as [|i used]; cbn [chain] in Hc; [by rewrite Hc|].
  by destruct Hc as (-> & _).
Qed.

(** What [d] prints. *)
Definition delete_lines (num : Z) (ws : list entry) : list out :=
  match ws with
  | [] => [ONoSuch]
  | e :: _ =>
      if number_of e <? num then [ONoSuch]
      else if decide (num ∈ map number_of ws) then [ODeleted num] else []
  end.

Definition remove (num : Z) (ws : list entry) : list entry := filter (fun e => number_of e <> num) ws.

Lemma remove_absent num ws : num ∉ map number_of ws -> remove num ws = ws.
Proof.
  intros H. unfold remove. induction ws as [|e ws IH]; [done|]. cbn [map] in H.
  apply not_elem_of_cons in H as [H1 H2]. rewrite filter_cons, decide_True by done. by rewrite IH.
Qed.

Lemma wp_cnt_number w i n : wp_pool w !! i = Some n -> wp_cnt w i = number_of (datum w i).
Proof. intros H. unfold wp_cnt. by rewrite H, (datum_node w i n). Qed.

Lemma npc_d_loop_run w used free num l : wp_rep w used free -> (forall i, i ∈ l -> i ∈ used) ->
  forall fuel p, chain (wp_pool w) p l -> (length l <= fuel)%nat ->
  if decide (num ∈ map number_of (map (datum w) l)) then
    exists i w', npc_d_loop fuel num p w = Ok ([ODeleted num], w') /\ free_wp i w = Ok (true, w') /\
      i ∈ used /\ number_of (datum w i) = num
  else npc_d_loop fuel num p w = Ok ([], w).
Proof.
  intros Hr. induction l as [|i l IH]; intros Hl fuel p Hc Hf; cbn [chain] in Hc; [subst p; by destruct fuel|].
  destruct Hc as (-> & n & Hn & Hc). destruct fuel as [|fuel]; cbn [length] in Hf; [lia|]. cbn [npc_d_loop].
  rewrite (wp_node_run i n) by done. cbn [map]. pose proof (datum_node w i n Hn) as Ei.
  assert (number_of (datum w i) = cnt n) as Ec by (by rewrite Ei).
  destruct (Z.eqb_spec (cnt n) num) as [E|E].
  - rewrite decide_True by (apply elem_of_cons; left; congruence). exists i.
    destruct (free_wp_found _ _ _ i Hr) as (w' & E' & _); [set_solver|]. exists w'.
    rewrite (bind_run _ _ _ _ _ E'). split_and!; [done|done|set_solver|congruence].
  - specialize (IH ltac:(set_solver) fuel (next n) Hc ltac:(lia)).
    rewrite (decide_ext _ (num ∈ map number_of (map (datum w) l))); [exact IH|].
    rewrite elem_of_cons. split; [|auto]. intros [?|?]; [congruence|done].
Qed.

Lemma remove_map w num l : remove num (map (datum w) l) = map (datum w) (filter (fun i => number_of (datum w i) <> num) l).
Proof.
  unfold remove. induction l as [|i l IH]; [done|]. cbn [map]. rewrite !filter_cons. case_decide; cbn [map]; by rewrite IH.
Qed.

(** Only node [i] has the number [num]. *)
Lemma without_remove w num i used : NoDup (map number_of (map (datum w) used)) -> i ∈ used -> number_of (datum w i) = num ->
  map (datum w) (without i used) = remove num (map (datum w) used).
Proof.
  intros Hn Hi <-. rewrite remove_map. f_equal. apply filter_in_ext. intros j Hj. split; [|congruence].
  intros Hne E. apply Hne. rewrite map_map in Hn. by apply (map_inj_in _ _ _ _ Hn Hj Hi).
Qed.

Lemma descending_remove num ws : descending (map number_of ws) -> descending (map number_of (remove num ws)).
Proof.
  unfold remove. induction ws as [|e ws IH]; [done|]. intros Hd. rewrite filter_cons. cbn [map] in Hd.
  pose proof (IH (descending_tail _ _ Hd)) as Hd'. case_decide; [|done]. cbn [map]. apply descending_cons; [done| |].
  - intros x Hx. apply (descending_head _ _ Hd). apply list_elem_of_In, in_map_iff in Hx as (y & <- & Hy).
    apply list_elem_of_In, list_elem_of_filter in Hy as [_ Hy]. by apply list_elem_of_In, in_map, list_elem_of_In.
  - destruct Hd as [_ Hp]. by inversion Hp.
Qed.

Lemma delete_run num w ws : watches w ws ->
  exists w', delete_wp num w = Ok (delete_lines num ws, w') /\ watches w' (remove num ws).
Proof.
  intros (used & free & Hr & <- & Hd). unfold delete_wp. rewrite (bind_run _ _ w (head w) w) by done.
  pose proof (rep_used _ _ _ Hr) as Hc.
  pose proof (npc_d_loop_run w used free num used Hr ltac:(done) NR_WP _ Hc (rep_length _ _ _ Hr)) as Hrun.
  assert (watches w (map (datum w) used)) as Hw by (exists used, free; done).
  destruct used as [|h used]; cbn [chain] in Hc; [rewrite Hc; exists w; done|]. destruct Hc as (Hh & n & Hn & _).
  rewrite Hh in Hrun |- *. rewrite (wp_node_run h n) by done.
  assert (number_of (datum w h) = cnt n) as Ec by (by rewrite (datum_node w h n)).
  assert (forall x, x ∈ map number_of (map (datum w) (h :: used)) -> x <= cnt n) as Hmax.
  { intros x. cbn [map] in Hd |- *. rewrite elem_of_cons. intros [->|Hx]; [lia|]. pose proof (descending_head _ _ Hd x Hx). lia. }
  assert (delete_lines num (map (datum w) (h :: used)) = if cnt n <? num then [ONoSuch]
    else if decide (num ∈ map number_of (map (datum w) (h :: used))) then [ODeleted num] else []) as -> by (by rewrite <- Ec).
  destruct (Z.ltb_spec (cnt n) num) as [Hlt|Hge].
  { exists w. split; [done|]. rewrite remove_absent; [done|]. intros Hx%Hmax. lia. }
  destruct (decide (num ∈ map number_of (map (datum w) (h :: used)))) as [Hin|Hin].
  - destruct Hrun as (i & w' & Hrun & Hf & Hi & Ei). exists w'. split; [exact Hrun|].
    destruct (free_wp_found _ _ _ i Hr Hi) as (w2 & Hf2 & Hr'). assert (w2 = w') as -> by congruence.
    exists (without i (h :: used)), (i :: free). split_and!; [done| |by apply descending_remove].
    rewrite <- (without_remove w num i) by (try done; by apply descending_NoDup). apply map_ext. intros j. apply datum_same. by eapply free_wp_cnt.
  - exists w. rewrite remove_absent by done. by split.
Qed.

(** * Expressions *)

(** Registers by name: the processor has sixteen, unknown names read as zero. *)
Definition a_named (x : arch) (name : string) : option Z :=
  if String.eqb name "pc" then None
  else match list_find (fun n => name = n) npc_regs with
  | Some (i, _) => if (i <? 16)%nat then Some (a_get x (Z.of_nat i)) else None
  | None => Some 0
  end.

(** The value of an expression on the sequential machine. [None]: the pc of the pipeline and
    the memory array are no part of it, and sixteen registers do not exist. *)
Fixpoint a_value (x : arch) (a : ast) : option Z :=
  match a with
  | Dec n | Hex n => Some n
  | Reg name => a_named x name
  | Deref _ => None
  | Bin o l r => v ← a_value x l; v' ← a_value x r; Some (bin_sem o v v')
  | Paren a => a_value x a
  end.

Section Values.
Context `{ARCH : NpcArch} `{REF : DiffRef} `{BOARD : Board}.
Variables (code : Z -> Z) (a0 : arch).

Lemma rf_search_find d name : forall names i, rf_search names i name d =
  match list_find (fun n => name = n) names with Some (j, _) => DUT_RF (i + j) d | None => Ok (0, d) end.
Proof.
  induction names as [|m names IH]; intros i; [done|]. cbn [rf_search list_find].
  destruct (String.eqb_spec name m) as [E|E].
  - rewrite decide_True by done. by rewrite Nat.add_0_r.
  - rewrite decide_False by done. rewrite IH. destruct (list_find _ names) as [[j x]|]; [|done]. cbn. f_equal. lia.
Qed.

Lemma named_run n d name v : inv code a0 n (top (dut d)) -> reg_name_ok name = true -> a_named (seq code a0 n) name = Some v ->
  npc_reg_value name d = Ok (v, d).
Proof.
  intros Hi Hn H. unfold npc_reg_value, a_named in *. destruct (String.eqb name "pc"); [done|]. rewrite rf_search_find.
  destruct (list_find _ npc_regs) as [[j x]|] eqn:E; [|by injection H as <-]. cbn [Nat.add]. unfold DUT_RF.
  destruct (j <? 16)%nat; [|done]. injection H as <-. unfold gets. rewrite (iv_rf _ _ _ _ Hi).
  assert (j <> 0%nat) as Hj.
  { intros ->. apply list_find_Some in E as (E & -> & _). injection E as <-. by vm_compute in Hn. }
  unfold a_get. destruct (Z.eqb_spec (Z.of_nat j) 0); [lia|done].
Qed.

Lemma value_run n d a : inv code a0 n (top (dut d)) -> forall v, wf a -> a_value (seq code a0 n) a = Some v -> sem a d = Ok (v, d).
Proof.
  intros Hi. induction a as [k|k|name|a IH|o l IHl r IHr|a IH]; intros v Hwf H; cbn [a_value sem] in *.
  1, 2: by injection H as <-.
  - by eapply named_run.
  - done.
  - destruct Hwf as (Hl & Hr & _). apply bind_Some in H as (x & Hx & H). apply bind_Some in H as (y & Hy & [= <-]).
    rewrite (bind_run _ _ _ _ _ (IHl x Hl Hx)). by rewrite (bind_run _ _ _ _ _ (IHr y Hr Hy)).
  - destruct Hwf as [Hwf _]. by apply IH.
Qed.

Lemma expr_run n d a v : inv code a0 n (top (dut d)) -> wf a -> Z.of_nat (length (tokens a)) <= MAX_TOKENS ->
  a_value (seq code a0 n) a = Some v -> expr (print 1 a) d = Ok ((v, None), d).
Proof.
  intros Hi Hwf Hl Hv. rewrite expr_print by (done || lia). by rewrite (bind_run _ _ _ _ _ (value_run n d a Hi v Hwf Hv)).
Qed.

End Values.

(** * Lines *)

(** What is typed; the other lines ([x], [info r], unknown words) are treated below. *)
Inductive item : Type :=
| ISi (k : option Z) | ICont | IPrint (a : ast) | IWatch (a : ast) | IDelete (num : Z) | IInfo | IHelp | IQuit.

Local Abbreviation str := list_ascii_of_string.

Definition rendered (a : ast) : chars := render 1 (tokens a).

Definition text (i : item) : chars :=
  match i with
  | ISi None => str "si"
  | ISi (Some k) => str "si " ++ digits 10 k
  | ICont => str "c"
  | IPrint a => str "p " ++ rendered a
  | IWatch a => str "w " ++ rendered a
  | IDelete num => str "d " ++ digits 10 num
  | IInfo => str "info w"
  | IHelp => str "help"
  | IQuit => str "q"
  end.

Definition item_ok (i : item) : Prop :=
  match i with
  | ISi (Some k) => in_u 32 k
  | IPrint a | IWatch a => wf a /\ Z.of_nat (length (tokens a)) <= MAX_TOKENS
  | IDelete num => 0 <= num < 2 ^ 31
  | _ => True
  end.

Lemma digits_cons k : in_u 32 k -> exists d l, digits 10 k = digit_char d :: l /\ 0 <= d < 10.
Proof.
  intros Hk. destruct (digits_spec 10 k (or_introl eq_refl) Hk) as (Hd & Hne & _).
  destruct (digits 10 k) as [|c l]; [done|]. apply Forall_cons in Hd as [(d & Hd & ->) _]. eauto.
Qed.

(** A decimal number is read back. *)
Lemma strtol_any_digits k : in_u 32 k -> strtol_any (digits 10 k) = k.
Proof.
  intros Hk. rewrite <- (strtol_dec k) at 2 by done. unfold strtol. rewrite list_ascii_of_string_of_list_ascii.
  destruct (digits_cons k Hk) as (d & l & -> & Hd).
  assert (d = 0 \/ d = 1 \/ d = 2 \/ d = 3 \/ d = 4 \/ d = 5 \/ d = 6 \/ d = 7 \/ d = 8 \/ d = 9) as Hc by lia.
  by repeat destruct Hc as [-> | Hc]; subst.
Qed.

Lemma rendered_cons a : exists c l, rendered a = c :: l.
Proof.
  unfold rendered. pose proof (tokens_nonempty a). destruct (tokens a) as [|t ts]; [done|].
  cbn [render]. destruct (ExprSpec.text t) as [|c l]; cbn; eauto.
Qed.

Section Lines.
Context `{ARCH : NpcArch} `{REF : DiffRef} `{BOARD : Board}.

(** How the loop takes a line apart. *)
Lemma line_args fuel name h c l : npc_handler fuel name = Some h -> name ∈ ["si"; "p"; "w"; "d"]%string ->
  npc_run_line fuel (str name ++ " "%char :: c :: l) = h (Some (c :: l)).
Proof. intros Hh Hn. repeat (apply elem_of_cons in Hn as [->|Hn]); [by injection Hh as <-..|]. by apply elem_of_nil in Hn. Qed.

Lemma line_si fuel k : in_u 32 k -> npc_run_line fuel (text (ISi (Some k))) = (ls ← to_end (cmd_si fuel (Some k)); mret (0, ls)).
Proof.
  intros Hk. cbn [text]. destruct (digits_cons k Hk) as (d & l & E & _). pose proof (strtol_any_digits k Hk) as Hs. rewrite E in *.
  change (str "si " ++ digit_char d :: l) with (str "si" ++ " "%char :: digit_char d :: l).
  rewrite (line_args fuel "si" (npc_cmd_si fuel)) by (done || set_solver). unfold npc_cmd_si. cbn [fmap option_fmap option_map]. by rewrite Hs.
Qed.

Lemma line_d fuel num : 0 <= num < 2 ^ 31 -> npc_run_line fuel (text (IDelete num)) = (ls ← on_pool (delete_wp num); mret (0, ls)).
Proof.
  intros Hn. assert (in_u 32 num) as Hk by (unfold in_u; lia). cbn [text]. destruct (digits_cons num Hk) as (d & l & E & _).
  pose proof (strtol_any_digits num Hk) as Hs. rewrite E in *.
  change (str "d " ++ digit_char d :: l) with (str "d" ++ " "%char :: digit_char d :: l).
  rewrite (line_args fuel "d" npc_cmd_d) by (done || set_solver). cbn [npc_cmd_d]. rewrite Hs.
  assert (s32 num = num) as -> by (apply sgn_small; lia). done.
Qed.

Lemma line_p fuel a : npc_run_line fuel (text (IPrint a)) = ('(v, _) ← expr (print 1 a); mret (0, [OValue v])).
Proof.
  cbn [text]. unfold print. fold (rendered a). destruct (rendered_cons a) as (c & l & E). rewrite E.
  exact (line_args fuel "p" npc_cmd_p c l eq_refl ltac:(set_solver)).
Qed.

Lemma line_w fuel a : npc_run_line fuel (text (IWatch a)) = npc_cmd_w (Some (rendered a)).
Proof.
  cbn [text]. destruct (rendered_cons a) as (c & l & E). rewrite E.
  exact (line_args fuel "w" npc_cmd_w c l eq_refl ltac:(set_solver)).
Qed.
End Lines.

(** * The specification of a session *)

Inductive phase : Type := AtPrompt | Ended | Left.

Record astate : Type := mkAState { a_done : nat; a_phase : phase; a_watch : list entry }.

Section Spec.
Variables (code : Z -> Z) (a0 : arch).
Local Abbreviation arun := (seq code a0).

(** The count that is given to [cpu_exec]. *)
Definition count (i : item) : option Z :=
  match i with
  | ISi k => Some (default 1 k)
  | ICont => Some (2 ^ 64 - 1)
  | _ => None
  end.

Inductive item_step : astate -> item -> astate -> list out -> Prop :=
| step_run n ws i k m e : count i = Some k -> ends code a0 n k m e ->
    item_step (mkAState n AtPrompt ws) i (mkAState (n + m) (if e then Ended else AtPrompt) ws)
      (if e then [OReport (trapped code a0 (n + m - 1))] else [])
| step_over n ws i k : count i = Some k -> item_step (mkAState n Ended ws) i (mkAState n Ended ws) [OReport HasEnded]
| step_print st a v : a_value (arun (a_done st)) a = Some v -> item_step st (IPrint a) st [OValue v]
| step_watch n p ws a v : a_value (arun n) a = Some v -> (length ws < NR_WP)%nat -> new_number ws < 2 ^ 31 ->
    item_step (mkAState n p ws) (IWatch a)
      (mkAState n p ((new_number ws, string_of_list_ascii (take ADDR_EXPR_LEN (rendered a)), v) :: ws))
      [ONewWatch (new_number ws) (rendered a)]
| step_delete n p ws num : item_step (mkAState n p ws) (IDelete num) (mkAState n p (remove num ws)) (delete_lines num ws)
| step_info st : item_step st IInfo st (info_lines (a_watch st))
| step_help st : item_step st IHelp st (map OHelp npc_cmd_names).

(** The lines after [q] are not read. *)
Inductive session : astate -> list item -> astate -> list out -> Prop :=
| session_end st : session st [] st []
| session_quit st rest : session st (IQuit :: rest) (mkAState (a_done st) Left (a_watch st)) []
| session_item st i st' o rest st'' o' : item_step st i st' o -> session st' rest st'' o' ->
    session st (i :: rest) st'' (o ++ o').

Lemma item_step_done st i st' o : item_step st i st' o -> (a_done st <= a_done st')%nat.
Proof. destruct 1; cbn; lia. Qed.
Lemma session_done st items st' o : session st items st' o -> (a_done st <= a_done st')%nat.
Proof. induction 1 as [| |? ? ? ? ? ? ? ?%item_step_done]; cbn; lia. Qed.

(** The exit status of the simulator. *)
Definition status (st : astate) : Z :=
  match a_phase st with
  | AtPrompt => 1
  | Ended => if a_get (arun (a_done st)) 10 =? 0 then 0 else 1
  | Left => 0
  end.

Context `{ARCH : NpcArch} `{REF : DiffRef} `{BOARD : Board} `{TR : !RefTracks code a0}.
Hypotheses (Hok0 : arch_ok a0) (Hsup : forall n, supported code (arun n)).
Variable live : sys -> nat -> Prop.
Hypothesis Hlive : forall s t, live s t -> live (sys_step s (with_reset false (wires t))) (S t).
Hypothesis Hsafe : forall s t, live s t -> fatal (core s) (with_reset false (wires t)) = false.

(** The processor, the simulator and the pool behind a state of the specification. *)
Record agrees (st : astate) (d : dbg) : Prop := mkAgrees {
  ag_inv : inv code a0 (a_done st) (top (dut d));
  ag_count : g_nr_guest_inst (dut d) = u64 (Z.of_nat (a_done st));
  ag_watch : watches (wpool d) (a_watch st);
  ag_phase :
    match a_phase st with
    | AtPrompt => sim_ok code a0 live (a_done st) (dut d) /\ npc_state (dut d) = mkNpcState NPC_STOP 0 0
    | Ended => (0 < a_done st)%nat /\ npc_state (dut d) = stopped code a0 (a_done st - 1)
    | Left => state (npc_state (dut d)) = NPC_QUIT
    end;
}.

Lemma to_end_run (m : M sim (option (list report))) d ls s : m (dut d) = Ok (Some ls, s) ->
  (ls ← to_end m; mret (0, ls)) d = Ok ((0, map OReport ls), d <| dut := s |>).
Proof. intros H. unfold to_end, on_dut, mbind, M_bind. by rewrite H. Qed.

Lemma on_pool_run {A B} (m : M WpState A) (k : A -> M dbg B) d a w :
  m (wpool d) = Ok (a, w) -> (on_pool m ≫= k) d = k a (d <| wpool := w |>).
Proof. intros H. apply bind_run. unfold on_pool. by rewrite H. Qed.

(** The pool may change behind the processor's back. *)
Lemma agrees_pool st d w ws : agrees st d -> watches w ws ->
  agrees (mkAState (a_done st) (a_phase st) ws) (d <| wpool := w |>).
Proof. intros [H1 H2 _ H4] Hw. by constructor. Qed.

Lemma run_at_prompt n ws k m e d fuel : agrees (mkAState n AtPrompt ws) d -> ends code a0 n k m e ->
  (forall s t, live s t -> enough s t fuel m) ->
  exists s, cpu_exec fuel k (dut d) = Ok (Some (if e then [trapped code a0 (n + m - 1)] else []), s) /\
    agrees (mkAState (n + m) (if e then Ended else AtPrompt) ws) (d <| dut := s |>).
Proof.
  intros [Hi Hn Hw [Hs Hst]] He Hf. cbn [a_done a_phase a_watch] in *.
  destruct (cpu_exec_ends code a0 Hok0 Hsup live Hlive Hsafe n k m e (dut d) fuel Hs) as (s & E & R1 & _ & R3 & R4 & R5).
  - by rewrite Hst.
  - done.
  - rewrite Hn. by apply wrap_in_u.
  - apply Hf, Hs.
  - exists s. split; [done|]. constructor; cbn [a_done a_phase a_watch]; [done| |done|].
    + change (dut (d <| dut := s |>)) with s. rewrite R1, Hn, wrap_add_l. f_equal. lia.
    + change (dut (d <| dut := s |>)) with s. destruct e; [|by rewrite <- Hst, R3; auto].
      split; [|done]. assert (0 < m)%nat by (clear -He; remember true as b; induction He; lia || done). lia.
Qed.

Lemma run_ended n ws k d fuel : agrees (mkAState n Ended ws) d ->
  exists s, cpu_exec fuel k (dut d) = Ok (Some [HasEnded], s) /\ agrees (mkAState n Ended ws) (d <| dut := s |>).
Proof.
  intros [Hi Hn Hw [Hp Hst]]. cbn [a_done a_phase a_watch] in *.
  exists ((dut d) <| g_print_step := k <? MAX_INST_TO_PRINT |>). split; [|by constructor].
  unfold cpu_exec, modify, gets, mbind, M_bind. cbn. rewrite Hst. unfold stopped. cbn. by destruct (_ =? 0).
Qed.

(** Any run command, whatever the phase. *)
Lemma run_command n p ws i k d fuel st' o : agrees (mkAState n p ws) d -> count i = Some k ->
  item_step (mkAState n p ws) i st' o -> (forall s t, live s t -> enough s t fuel (a_done st')) ->
  exists ls s, o = map OReport ls /\ cpu_exec fuel k (dut d) = Ok (Some ls, s) /\ agrees st' (d <| dut := s |>).
Proof.
  intros Ha Hk Hst Hf. inversion Hst; subst; try discriminate Hk.
  - assert (k0 = k) as -> by congruence. destruct (run_at_prompt n ws k m e d fuel) as (s & E & Ha'); [done|done| |].
    { intros s t Hl. specialize (Hf s t Hl). unfold enough in *. cbn [a_done] in Hf. lia. }
    eexists _, s. split; [|split; [exact E|exact Ha']]. by destruct e.
  - destruct (run_ended n ws k d fuel Ha) as (s & E & Ha'). by exists [HasEnded], s.
Qed.

Lemma watch_run n p ws a v d : agrees (mkAState n p ws) d -> item_ok (IWatch a) -> a_value (arun n) a = Some v ->
  (length ws < NR_WP)%nat -> new_number ws < 2 ^ 31 ->
  exists w, npc_cmd_w (Some (rendered a)) d = Ok ((0, [ONewWatch (new_number ws) (rendered a)]), d <| wpool := w |>) /\
    watches w ((new_number ws, string_of_list_ascii (take ADDR_EXPR_LEN (rendered a)), v) :: ws).
Proof.
  intros Ha [Hwf Hlen] Hv Hl Hc. destruct (new_wp_taken _ _ (ag_watch _ _ Ha) Hl) as (f & nd & w1 & E1 & T1).
  set (txt := string_of_list_ascii (take ADDR_EXPR_LEN (rendered a))).
  pose (g1 := fun n : WP => n <| addr_expr := txt |>). pose (g2 := fun n : WP => n <| last_val := v |>).
  pose (g3 := fun n : WP => n <| cnt := new_number ws |>).
  destruct (upd_taken f nd w1 ws g1 T1 eq_refl eq_refl) as (w2 & E2 & T2).
  destruct (upd_taken f _ w2 ws g2 T2 eq_refl eq_refl) as (w3 & E3 & T3).
  destruct (upd_taken f _ w3 ws g3 T3 eq_refl eq_refl) as (w4 & E4 & T4).
  exists w4. split; [|exact (number_taken _ _ _ _ T4 eq_refl)]. cbn [npc_cmd_w].
  rewrite (on_pool_run _ _ d f w1 E1). rewrite (on_pool_run _ _ _ tt w2) by exact E2.
  erewrite bind_run by (eapply (expr_run code a0 n _ a v); [apply Ha|done..]). cbn beta iota. rewrite (on_pool_run _ _ _ tt w3) by exact E3.
  rewrite (on_pool_run _ _ _ (new_number ws) w3) by exact (next_cnt_run _ _ _ _ T3 Hc).
  rewrite (on_pool_run _ _ _ tt w4) by exact E4. by destruct d.
Qed.

(** One line does what the specification says. *)
Lemma item_refines st i st' o d fuel : agrees st d -> item_step st i st' o -> item_ok i ->
  (forall s t, live s t -> enough s t fuel (a_done st')) ->
  exists d', npc_run_line fuel (text i) d = Ok ((0, o), d') /\ agrees st' d'.
Proof.
  intros Ha Hst Hok Hf. destruct st as [n p ws].
  assert (forall k, count i = Some k -> cpu_exec fuel (u64 k) = cpu_exec fuel k) as Hu.
  { intros k E. f_equal. apply wrap_id. destruct i as [[]| | | | | | |]; try discriminate E; injection E as <-; cbn in *; unfold in_u in *; lia. }
  destruct i as [[k|]| |a|a|num| | |].
  - destruct (run_command n p ws (ISi (Some k)) k d fuel st' o Ha eq_refl Hst Hf) as (ls & s & -> & E & Ha').
    rewrite line_si by done. eexists. split; [|exact Ha']. apply to_end_run. unfold cmd_si. cbn [default from_option id]. by rewrite (Hu k).
  - destruct (run_command n p ws (ISi None) 1 d fuel st' o Ha eq_refl Hst Hf) as (ls & s & -> & E & Ha').
    eexists. split; [|exact Ha']. by apply (to_end_run (cmd_si fuel None)).
  - destruct (run_command n p ws ICont (2 ^ 64 - 1) d fuel st' o Ha eq_refl Hst Hf) as (ls & s & -> & E & Ha').
    eexists. split; [|exact Ha']. by apply (to_end_run (cmd_c fuel)).
  - inversion Hst; subst; [discriminate..|]. destruct Hok. exists d. split; [|done]. rewrite line_p. cbn [a_done] in *.
    by erewrite bind_run by (by eapply (expr_run code a0 n); [apply Ha|..]).
  - inversion Hst; subst; [discriminate..|]. edestruct (watch_run n p ws a v d) as (w & E & Hw); try done.
    eexists. rewrite line_w. split; [exact E|]. by apply (agrees_pool (mkAState n p ws)).
  - inversion Hst; subst; [discriminate..|]. destruct (delete_run num _ _ (ag_watch _ _ Ha)) as (w & E & Hw).
    rewrite line_d by done. eexists. split; [by rewrite (on_pool_run _ _ d _ w E)|]. by apply (agrees_pool (mkAState n p ws)).
  - inversion Hst; subst; [discriminate..|]. exists d. split; [|done].
    change (npc_run_line fuel (text IInfo)) with (npc_cmd_info (Some ["w"%char])). unfold npc_cmd_info. cbn [decide].
    rewrite (decide_False (P := ["w"%char] = ["r"%char])), decide_True by done. rewrite (bind_run _ _ d [] d) by done.
    rewrite (on_pool_run _ _ d _ _ (npc_info_w_run _ _ (ag_watch _ _ Ha))). by destruct d.
  - inversion Hst; subst; [discriminate..|]. by exists d.
  - inversion Hst; subst; discriminate.
Qed.

Lemma quit_run st d fuel : agrees st d ->
  exists d', npc_run_line fuel (text IQuit) d = Ok ((-1, []), d') /\ agrees (mkAState (a_done st) Left (a_watch st)) d'.
Proof. intros [H1 H2 H3 _]. by eexists. Qed.

(** The loop over the lines. *)
Lemma session_refines st items st' o : session st items st' o -> Forall item_ok items -> forall d fuel, agrees st d ->
  (forall s t, live s t -> enough s t fuel (a_done st')) ->
  exists d', npc_sdb_loop fuel (map text items) d = Ok (o, d') /\ agrees st' d'.
Proof.
  induction 1 as [st|st rest|st i st' o rest st'' o' Hi Hs IH]; intros Hok d fuel Ha Hf; cbn [map npc_sdb_loop].
  - by exists d.
  - destruct (quit_run st d fuel Ha) as (d' & E & Ha'). exists d'. by rewrite (bind_run _ _ _ _ _ E).
  - apply Forall_cons in Hok as [Hi' Hok]. destruct (item_refines st i st' o d fuel Ha Hi Hi') as (d1 & E1 & Ha1).
    { pose proof (session_done _ _ _ _ Hs). intros s t Hl. specialize (Hf s t Hl). unfold enough in *. lia. }
    destruct (IH Hok d1 fuel Ha1 Hf) as (d2 & E2 & Ha2). exists d2.
    rewrite (bind_run _ _ _ _ _ E1). change (0 <? 0) with false. cbn iota. by rewrite (bind_run _ _ _ _ _ E2).
Qed.

Lemma status_run st d : agrees st d -> is_exit_status_bad (dut d) = Ok (status st, dut d).
Proof.
  intros [_ _ _ Hp]. unfold is_exit_status_bad, gets, status. destruct (a_phase st).
  - by destruct Hp as [_ ->].
  - destruct Hp as [Hp ->]. unfold stopped. replace (S (a_done st - 1)) with (a_done st) by lia. cbn [state halt_ret].
    by destruct (a_get _ _ =? 0) eqn:E; rewrite ?E.
  - by rewrite Hp.
Qed.
End Spec.

(** * Sessions from the reset *)

Section Sessions.
Context `{ARCH : NpcArch} `{REF : DiffRef} `{BOARD : Board}.
Variables (code : Z -> Z) (w : sys) (r : RefState).
Local Abbreviation a0 := (start (reset_sys w)).
Context `{TR : !RefTracks code a0}.

(** Batch mode is the session [c]. *)
Lemma mainloop_run fuel (b : bool) items d o d' :
  npc_sdb_loop fuel (map text (if b then [ICont] else items)) d = Ok (o, d') ->
  npc_sdb_mainloop fuel b (map text items) d = Ok (o, d').
Proof.
  destruct b; [|done]. cbn [npc_sdb_mainloop map npc_sdb_loop]. intros H. apply bind_Ok in H as ((x & ls) & d1 & E & H).
  change (npc_cmd_c fuel None d = Ok ((x, ls), d1)) in E. rewrite (bind_run _ _ _ _ _ E).
  unfold npc_cmd_c in E. apply bind_Ok in E as (u & d2 & _ & [= <- <- <-]).
  change (0 <? 0) with false in H. cbn in H. injection H as <- <-. by rewrite app_nil_r.
Qed.

Section Live.
Variable live : sys -> nat -> Prop.
Hypothesis Hlive : forall s t, live s t -> live (sys_step s (with_reset false (wires t))) (S t).
Hypothesis Hsafe : forall s t, live s t -> fatal (core s) (with_reset false (wires t)) = false.

Lemma session_runs (b : bool) items st o fuel :
  arch_ok a0 -> (forall n, supported code (seq code a0 n)) -> (forall k, obeys code (reset_sys w) (inputs 31 k)) ->
  live (reset_sys w) 31 -> (DIFFTEST = true -> tracks code a0 0 r) ->
  session code a0 (mkAState 0 AtPrompt []) (if b then [ICont] else items) st o -> Forall item_ok items ->
  (forall s t, live s t -> enough s t fuel (a_done st)) ->
  exists d, session_main fuel b (map text items) (mkDbg (sim_zero w r) wps_zero) = Ok ((o, status code a0 st), d) /\
    agrees code a0 live st d.
Proof.
  intros B1 B2 Ho Hl Ht Hs Hok Hf. destruct (reset_ready code w r live Ho Hl Ht) as (s & E & Hsim & Hst & Hn & _).
  set (d := mkDbg s (final init_wp_pool wps_zero)). assert (agrees code a0 live (mkAState 0 AtPrompt []) d) as Ha.
  { constructor; cbn [a_done a_phase a_watch]; [apply Hsim|exact Hn| |exact (conj Hsim Hst)].
    exists [], (List.seq 0 NR_WP). split_and!; [by apply (init_wp_pool_rep wps_zero)|done|split; constructor]. }
  assert (Forall item_ok (if b then [ICont] else items)) as Hok' by (destruct b; [by repeat constructor|done]).
  destruct (session_refines code a0 B1 B2 live Hlive Hsafe _ _ _ _ Hs Hok' d fuel Ha Hf) as (d' & E' & Ha'). exists d'. split; [|done].
  unfold session_main. rewrite (bind_run _ _ _ tt (mkDbg (sim_zero w r) (final init_wp_pool wps_zero))) by done.
  rewrite (bind_run _ _ _ tt d) by (unfold on_dut; cbn [dut]; by rewrite E).
  rewrite (bind_run _ _ _ _ _ (mainloop_run _ _ _ _ _ _ E')). rewrite (bind_run _ _ _ (status code a0 st) d'); [done|].
  unfold on_dut. rewrite (status_run code a0 live st d' Ha'). by destruct d'.
Qed.
End Live.
End Sessions.

(** * The main program *)

Section Main.
Context `{ARCH : NpcArch} `{REF : DiffRef} `{BOARD : Board}.
Variables (files : string -> option (list Z)) (code : Z -> Z) (w0 : sys) (data : list Z).

(** The memory with the image in place. *)
Definition with_image : sys := mkSys (core w0) (set_bytes (dmem w0) img_base data).
Local Abbreviation a0 := (start (reset_sys with_image)).
Context `{TR : !RefTracks code a0}.

Lemma load_img_run f r : files f = Some data -> (0 < length data)%nat -> Z.of_nat (length data) <= 2 ^ 24 ->
  npc_load_img files (Some f) (sim_zero w0 r) = Ok (Z.of_nat (length data), sim_zero with_image r).
Proof.
  intros Hf H0 Hl. unfold npc_load_img. rewrite Hf. cbv zeta. rewrite (proj2 (Z.leb_le _ _)) by done.
  rewrite (proj2 (Z.eqb_neq _ 0)) by lia. done.
Qed.

(** What [main] does before the loop and behind it. *)
Lemma main_runs os a f items st o fuel r r' d :
  parse_args os args_zero = Some a -> img_file a = Some f -> files f = Some data ->
  (0 < length data)%nat -> Z.of_nat (length data) <= 2 ^ 24 ->
  when DIFFTEST (init_difftest (Z.of_nat (length data))) (sim_zero with_image r) = Ok (tt, sim_zero with_image r') ->
  session_main fuel (is_batch_mode a) (map text items) (mkDbg (sim_zero with_image r') wps_zero) = Ok ((o, status code a0 st), d) ->
  npc_main files fuel os (map text items) (mkDbg (sim_zero w0 r) wps_zero) = Ok (Some (o, status code a0 st), d).
Proof.
  intros Hos Hi Hf H0 Hl Hd E. unfold npc_main. rewrite Hos, Hi.
  rewrite (bind_run _ _ _ (Z.of_nat (length data)) (mkDbg (sim_zero with_image r) wps_zero)).
  - rewrite (bind_run _ _ _ tt (mkDbg (sim_zero with_image r') wps_zero)); [by rewrite (bind_run _ _ _ _ _ E)|].
    unfold on_dut. cbn [dut]. by rewrite Hd.
  - unfold on_dut. cbn [dut]. by rewrite (load_img_run f r Hf H0 Hl).
Qed.

(** C8. A session with the simulator is a session with the sequential machine. The program
    given on the command line is loaded, the reference is prepared, the processor is reset;
    then, whatever sequence of [si], [c], [p], [w], [d], [info w], [help] and [q] is
    typed, each line prints what the specification prints: the values of expressions over the
    registers after as many instructions as have been asked for, the watchpoints in order
    with their numbers, the verdict and the pc when a run reaches an [ebreak], that the
    program has ended when it is to be run any further. The lines after [q] are ignored, and
    the exit status is 0 exactly after [q] or an [ebreak] with [a0 = 0]. In batch mode the
    session is [c]. The conditions are those of [board_ok]: the memories answer with the
    words of the program and the data in any time they like and take the two halves of a
    write together, the program keeps to what the processor supports, and no word that may
    be fetched is zero, so that no check of the design ends the simulation. The fuel of a
    command are the cycles of its instructions and those that the memories let it wait. *)
Theorem npc_session_correct os a f items st o fuel r r' :
  parse_args os args_zero = Some a -> img_file a = Some f -> files f = Some data ->
  (0 < length data)%nat -> Z.of_nat (length data) <= 2 ^ 24 ->
  board_ok code with_image ->
  when DIFFTEST (init_difftest (Z.of_nat (length data))) (sim_zero with_image r) = Ok (tt, sim_zero with_image r') ->
  (DIFFTEST = true -> tracks code a0 0 r') ->
  session code a0 (mkAState 0 AtPrompt []) (if is_batch_mode a then [ICont] else items) st o -> Forall item_ok items ->
  (forall k, (22 + 23 * a_done st + stalls (after with_image k) (inputs (31 + k) fuel) <= fuel)%nat) ->
  exists d, npc_main files fuel os (map text items) (mkDbg (sim_zero w0 r) wps_zero) = Ok (Some (o, status code a0 st), d) /\
    agrees code a0 (obedient code with_image) st d.
Proof.
  intros Hos Hi Hf H0 Hl Hb Hd Ht Hs Hok Hfuel.
  destruct (session_runs code with_image r' (obedient code with_image) (obedient_step code with_image Hb) (obedient_safe code with_image Hb)
    (is_batch_mode a) items st o fuel (bo_arch _ _ Hb) (bo_supported _ _ Hb) (bo_obeys _ _ Hb) (obedient_reset code with_image Hb) Ht Hs Hok) as (d & E & Ha).
  - intros s t Hl'. destruct (ob_after _ _ _ _ Hl') as (k & -> & ->). apply (obedient_enough code with_image Hb); [|done].
    specialize (Hfuel k). pose proof (distance_le (core (after with_image k))). lia.
  - exists d. split; [|done]. by apply (main_runs os a f items st o fuel r r').
Qed.
End Main.

(** * What the debugger cannot show *)

Section Unreadable.
Context `{ARCH : NpcArch} `{REF : DiffRef} `{BOARD : Board}.

(** [x] never prints a word: inside the window it accepts, the first read ends the program,
    because [pmem_read] knows no SDRAM; outside it prints [out of bound] as often as asked,
    also for the memory that the program runs in. *)
Lemma npc_x_loop_shows_nothing rounds addr d : in_u 32 addr ->
  npc_x_loop rounds addr d =
    if (SDRAM_ADDR <=? addr) && (addr <? SDRAM_ADDR + SDRAM_SIZE) && negb (rounds =? 0)%nat
    then Abort (APanic "OOB READ") else Ok (replicate rounds OOutOfBound, d).
Proof.
  intros Ha. destruct ((SDRAM_ADDR <=? addr) && (addr <? SDRAM_ADDR + SDRAM_SIZE)) eqn:E; cbn [andb].
  - destruct rounds as [|rounds]; [done|]. cbn [npc_x_loop Nat.eqb negb]. rewrite E. apply bind_abort.
    unfold read_word, gets, mbind, M_bind. unfold SDRAM_ADDR, SDRAM_SIZE, in_u in *.
    apply andb_prop in E as [E1%Z.leb_le E2%Z.ltb_lt]. unfold pmem_read, in_psram, PSRAM_ADDR, PSRAM_SIZE.
    rewrite (proj2 (Z.ltb_ge addr _)), andb_false_r by lia.
    rewrite (proj2 (Z.leb_le _ _)); [done|]. rewrite Z.shiftr_div_pow2 by lia.
    change (vnot 3) with (Z.shiftl (Z.ones 30) 2). apply Z.div_le_lower_bound; [lia|].
    assert (Z.land addr (Z.shiftl (Z.ones 30) 2) = Z.shiftl (Z.shiftr addr 2) 2) as ->.
    { apply Z.bits_inj'. intros k Hk. rewrite Z.land_spec. destruct (decide (k < 2)).
      - rewrite !Z.shiftl_spec_low by lia. by rewrite andb_false_r.
      - rewrite !Z.shiftl_spec, Z.shiftr_spec by lia. replace (k - 2 + 2) with k by lia.
        destruct (decide (k < 32)); [rewrite Z.ones_spec_low by lia; by rewrite andb_true_r|].
        rewrite Z.ones_spec_high by lia. by rewrite (testbit_above addr 32) by (done || lia). }
    change (Z.shiftl 1 24) with 16777216. rewrite Z.shiftl_mul_pow2, Z.shiftr_div_pow2 by lia. change (2 ^ 2) with 4. dlia.
  - induction rounds as [|rounds IH]; [done|]. cbn [npc_x_loop]. rewrite E. by rewrite (bind_run _ _ _ _ _ IH).
Qed.

(** Dereferencing takes an index, not an address: where the program and its data are, it
    leaves the array. *)
Lemma npc_deref_outside addr d : PSRAM_ADDR <= addr -> npc_deref addr d = Abort (AUndef "memory index").
Proof.
  intros Ha. unfold npc_deref, in_memory. rewrite Z.shiftr_div_pow2 by lia.
  rewrite (proj2 (Z.ltb_ge _ _)); [by rewrite andb_false_r|]. unfold PSRAM_ADDR, N_WORDS in *. change (2 ^ 2) with 4. dlia.
Qed.

(** [info r] reads past the sixteen registers. *)
Lemma npc_info_r_overruns d : npc_cmd_info (Some ["r"%char]) d = Abort (AUndef "DUT_RF index").
Proof. done. Qed.

(** So the three ways to look at the machine fail, while [p] shows the registers. *)
Theorem npc_debugger_blind d addr rounds : PSRAM_ADDR <= addr < 2 ^ 32 -> (0 < rounds)%nat ->
  npc_deref addr d = Abort (AUndef "memory index") /\
  npc_cmd_info (Some ["r"%char]) d = Abort (AUndef "DUT_RF index") /\
  npc_x_loop rounds addr d =
    (if addr <? 0xA0000000 then Ok (replicate rounds OOutOfBound, d)
     else if addr <? 0xC0000000 then Abort (APanic "OOB READ") else Ok (replicate rounds OOutOfBound, d)).
Proof.
  intros Ha Hr. split; [apply npc_deref_outside; lia|]. split; [apply npc_info_r_overruns|].
  rewrite npc_x_loop_shows_nothing by (unfold in_u, PSRAM_ADDR in *; lia). destruct rounds as [|rounds]; [lia|].
  cbn [Nat.eqb negb]. rewrite andb_true_r. unfold SDRAM_ADDR, SDRAM_SIZE.
  destruct (Z.ltb_spec addr 0xA0000000).
  - by rewrite (proj2 (Z.leb_gt _ _)) by lia.
  - rewrite (proj2 (Z.leb_le _ _)) by lia. done.
Qed.
End Unreadable.
