(* ===== verification/NpcSdbDemo.v ===== *)
(** A session with the debugger of the simulator on the program of [NpcDifftest], with the
    emulator as reference, and what its debugger cannot show. *)

From S2P Require Import Prelude Machine Difftest Watchpoint Expr ExprSpec Sdb Monitor.
From S2P Require Import AmBus RvSpec NpcDatapath NpcCore NpcArch NpcExec NpcLanes NpcPipe NpcRefine NpcLive NpcCorrect NpcMemory.
From S2P Require Import NpcSim NpcSimProof NpcNemu NpcDifftest NpcSdb NpcSdbProof.
From Stdlib Require Import Ascii.

Local Open Scope Z_scope.

Module NpcSdbDemo.
Import DifftestDemo.
#[local] Existing Instances npc_arch DifftestDemo.cfg DifftestDemo.host.

Local Abbreviation a0 := (start w0).

(** [w $t0], [si 2], [p $tp + 1], [w 7], [d 1], [info w], [c], [si], [p $t0], [q], [p 1]. *)
Definition demo_items : list item :=
  [IWatch (Reg "t0"); ISi (Some 2); IPrint (Bin Add (Reg "tp") (Dec 1)); IWatch (Dec 7); IDelete 1; IInfo;
   ICont; ISi None; IPrint (Reg "t0"); IQuit; IPrint (Dec 1)].

Definition demo_out : list out :=
  [ONewWatch 1 (list_ascii_of_string "$t0 "); OValue 0x10000001; ONewWatch 2 (list_ascii_of_string "7 ");
   ODeleted 1; OWpHeader; OWatch 2 "7 " 7; OReport (EndedAt HIT_GOOD_TRAP 0x80000010); OReport HasEnded; OValue 0x80000000].

(** Evaluate the state between two lines. *)
Ltac settle := match goal with |- session _ _ ?st _ _ _ => let st' := eval vm_compute in st in
  replace st with st' by (vm_compute; reflexivity) end.

Lemma demo_session : session code a0 (mkAState 0 AtPrompt []) demo_items (mkAState 5 Left [(2, "7 "%string, 7)]) demo_out.
Proof.
  unfold demo_items, demo_out.
  eapply (session_item _ _ _ _ _ [_]); [eapply step_watch; [vm_compute; reflexivity|apply (bool_decide_unpack _); vm_compute; exact I..]|]; settle.
  eapply (session_item _ _ _ _ _ []); [eapply (step_run _ _ _ _ _ 2 2 false); [reflexivity|ends_by; apply ends_count]|]; settle.
  eapply (session_item _ _ _ _ _ [_]); [eapply step_print; vm_compute; reflexivity|]; settle.
  eapply (session_item _ _ _ _ _ [_]); [eapply step_watch; [vm_compute; reflexivity|apply (bool_decide_unpack _); vm_compute; exact I..]|]; settle.
  eapply (session_item _ _ _ _ _ [_]); [eapply step_delete|]; settle.
  eapply (session_item _ _ _ _ _ [_; _]); [exact (step_info _ _ _)|]; settle.
  replace (EndedAt HIT_GOOD_TRAP 0x80000010) with (trapped code a0 4) by (vm_compute; reflexivity).
  eapply (session_item _ _ _ _ _ [_]); [eapply (step_run _ _ 2 _ _ (2 ^ 64 - 1) 3 true); [reflexivity|ends_by; apply ends_ebreak; [lia|vm_compute; reflexivity]]|]; settle.
  eapply (session_item _ _ _ _ _ [_]); [eapply (step_over _ _ _ _ _ 1); reflexivity|]; settle.
  eapply (session_item _ _ _ _ _ [_]); [eapply step_print; vm_compute; reflexivity|]; settle.
  apply session_quit.
Qed.

Lemma demo_items_ok : Forall item_ok demo_items.
Proof. unfold demo_items. repeat constructor; cbn; unfold MAX_TOKENS, in_u; try lia. Qed.

(** The program as a file, and the memory before it is loaded. *)
Definition demo_data : list Z := concat (map (le_split 4) prog).
Definition demo_files (f : string) : option (list Z) := if String.eqb f "demo.bin" then Some demo_data else None.
Definition blank : sys := mkSys (core zero_sys) (fun _ => 0).

(** A board that answers nothing. *)
#[local] Instance board : Board := {| wires _ := reset_in; DIFFTEST := false |}.
Definition demo_dbg : dbg (REF := nemu_ref buf) := mkDbg (sim_zero (REF := nemu_ref buf) w0 r0) wps_zero.

Lemma npc_debugger_blind_witness :
  npc_deref 0x80000010 demo_dbg = Abort (AUndef "memory index") /\
  npc_x_loop 2 0x80000010 demo_dbg = Ok ([OOutOfBound; OOutOfBound], demo_dbg) /\
  npc_x_loop 2 0xA0000000 demo_dbg = Abort (APanic "OOB READ").
Proof.
  destruct (npc_debugger_blind demo_dbg 0x80000010 2) as (H1 & _ & H2); [unfold PSRAM_ADDR; lia|lia|].
  destruct (npc_debugger_blind demo_dbg 0xA0000000 2) as (_ & _ & H3); [unfold PSRAM_ADDR; lia|lia|].
  split; [exact H1|]. split; [exact H2|exact H3].
Defined.
End NpcSdbDemo.
