(* ===== verification/NpcFabricSim.v ===== *)
(** The simulator with the whole design: the bus fabric is a board of the simulator
    ([fabric_board]), and its debugger runs sessions on it ([soc_session_correct]). *)

From S2P Require Import Prelude Machine Difftest Watchpoint Expr ExprSpec Sdb Monitor.
From S2P Require Import AmBus RvSpec NpcDatapath NpcCore NpcArch NpcExec NpcLanes NpcPipe NpcRefine NpcLive NpcCorrect NpcMemory.
From S2P Require Import NpcSim NpcSimProof NpcSdb NpcSdbProof.
From S2P Require Import NpcFabric NpcFabricProof NpcFabricInv NpcFabricRun.

Local Open Scope Z_scope.

Section Board.
Context `{ARCH : NpcArch}.

(** The design after [t] cycles, of which the first thirty-one are those of [reset]. *)
Fixpoint soc_at (s : soc) (t : nat) : soc :=
  match t with O => s | S t => default (soc_at s t) (soc_step (t <? 31)%nat (soc_at s t)) end.

Definition fabric_board (s : soc) (difftest : bool) : Board :=
  {| wires t := fabric_in (t <? 31)%nat (cpu_core (soc_at s t)) (bus (soc_at s t)); DIFFTEST := difftest |}.

Lemma soc_at_S s t : soc_at s (S t) = default (soc_at s t) (soc_step (t <? 31)%nat (soc_at s t)).
Proof. done. Qed.
End Board.

#[local] Opaque soc_at held.

Section Fabric.
Context `{ARCH : NpcArch}.
Variables (on : soc) (difftest : bool) (w : sys).
Hypotheses (Hon : powered_up on) (Hcore : core w = cpu_core on) (Hview : view (m_words (mem (bus on))) (dmem w)).
#[local] Instance board : Board := fabric_board on difftest.

(** The processor and the data memory that the simulator has are those of the design. *)
Lemma held_soc n : (n <= 31)%nat ->
  powered_up (soc_at on n) /\ held 0 n w = mkSys (cpu_core (soc_at on n)) (dmem w) /\ m_words (mem (bus (soc_at on n))) = m_words (mem (bus on)).
Proof.
  induction n as [|n IH]; intros Hn; [split; [done|]; split; [|done]; change (w = mkSys (cpu_core on) (dmem w)); rewrite <- Hcore; by destruct w|].
  destruct IH as (Hp & Hh & Hm); [lia|]. destruct (reset_cycle _ Hp) as (s' & E & Hp' & Ec & Ew & _).
  rewrite soc_at_S, (proj2 (Nat.ltb_lt n 31)) by lia. rewrite E. cbn [default from_option id]. split_and!; [done| |congruence].
  rewrite held_last, Hh. cbn [Nat.add]. unfold wires, board, fabric_board. rewrite (proj2 (Nat.ltb_lt n 31)) by lia.
  change (with_reset true (fabric_in true ?c ?f)) with (fabric_in true c f).
  unfold sys_step, store_fire, aw_fire. cbn [core dmem]. destruct Hp as [_ (_ & -> & _) _ _ _]. cbn [andb]. by rewrite andb_false_r, <- Ec.
Qed.

Variables (code : Z -> Z) (text : Z -> Prop).
Local Abbreviation a0 := (start (reset_sys w)).
Hypotheses (Hpg : program_ok code a0 text) (Hnf : forall n, a_instr code (seq code a0 n) <> I_fence_i).

(** The state of the simulator is the one of the design. *)
Definition in_step (s : sys) (t : nat) : Prop :=
  (31 <= t)%nat /\ core s = cpu_core (soc_at on t) /\ fencei_state (ifu (core s)) = FENCEI_IDLE /\
  exists nc, fab_inv code a0 text nc (core s) (bus (soc_at on t)) (dmem s).

Lemma in_step_reset : in_step (reset_sys w) 31.
Proof.
  destruct (held_soc 30) as (Hp & _ & Hm); [lia|]. destruct (held_soc 31) as (_ & Hh & Hm'); [lia|].
  destruct (reset_cycle _ Hp) as (s' & E & _).
  assert (soc_at on 31 = s') as Es by (rewrite soc_at_S; change (30 <? 31)%nat with true; by rewrite E).
  fold (reset_sys w) in Hh. rewrite Es in Hh, Hm'.
  assert (core (reset_sys w) = cpu_core s' /\ dmem (reset_sys w) = dmem w) as [Ec Ed] by (by rewrite Hh).
  assert (a0 = boot_with s' (dmem w)) as Ea by (unfold start, boot_with; by rewrite Ec, Ed).
  destruct (boot_remaining _ s' Hp E) as [Hf _].
  assert (fab_inv code (boot_with s' (dmem w)) text 0 (cpu_core s') (bus s') (dmem w)) as Hi.
  { apply (boots_with code text (soc_at on 30)); [done|done|by rewrite Hm'|by rewrite <- Ea]. }
  rewrite <- Ea in Hi. unfold in_step. rewrite Es, Ec, Ed. split; [lia|]. split; [done|]. split; [done|]. by exists 0%nat.
Qed.

(** A cycle of the simulator is one of the design. *)
Lemma in_step_cycle s t : in_step s t -> exists nc f',
  fab_inv code a0 text nc (core s) (bus (soc_at on t)) (dmem s) /\ fabric_edge false (core s) (bus (soc_at on t)) = Some f' /\
  with_reset false (wires t) = fabric_in false (core s) (bus (soc_at on t)) /\
  soc_at on (S t) = mkSoc (cycle (core s) (fabric_in false (core s) (bus (soc_at on t)))) f'.
Proof.
  intros (Ht & Hc & _ & nc & Hi). destruct (edge_defined code a0 text Hpg nc _ _ _ Hi) as [f' He]. exists nc, f'.
  assert ((t <? 31)%nat = false) as Hb by (apply Nat.ltb_ge; lia).
  split_and!; [done|done| |].
  - unfold wires, board, fabric_board. rewrite Hb, Hc. done.
  - rewrite soc_at_S, Hb. unfold soc_step. by rewrite <- Hc, He.
Qed.

Lemma in_step_next s t : in_step s t -> in_step (sys_step s (with_reset false (wires t))) (S t).
Proof.
  intros H. destruct (in_step_cycle s t H) as (nc & f' & Hi & He & Hw & Hs). destruct H as (Ht & _ & Hf & _). unfold in_step. rewrite Hw, Hs.
  split; [lia|]. split; [done|]. cbn [sys_step core bus]. split.
  - apply (no_fence_step code a0 text nc _ _ _ Hi Hf). intros _. specialize (Hnf nc). by destruct (a_instr _ _).
  - exists (nc + nb (lsu_valid (lsu (core s))))%nat. pose proof (fab_step code a0 text Hpg nc _ _ _ Hi f' He) as H. by destruct s.
Qed.

Lemma in_step_obeys k : forall s t, in_step s t -> obeys code s (inputs t k).
Proof.
  induction k as [|k IH]; intros s t H; [done|]. rewrite inputs_cons. split; [|by apply IH, in_step_next].
  destruct (in_step_cycle s t H) as (nc & f' & Hi & _ & -> & _). pose proof (answers_right code a0 text Hpg nc _ _ _ Hi) as Ha. by destruct s.
Qed.

(** The pace of [soc_keeps_committing]. *)
Lemma in_step_pace fuel : forall s t, in_step s t ->
  (fuel <= remaining (core s) (bus (soc_at on t)) + 66 * length (fst (run s (inputs t fuel))))%nat.
Proof.
  induction fuel as [|fuel IH]; intros s t H; [lia|]. pose proof (IH _ _ (in_step_next s t H)) as IH'.
  pose proof (in_step_next s t H) as (_ & _ & Hf' & _). rewrite inputs_cons. cbn [run].
  destruct (run _ (inputs (S t) fuel)) as [cs s']. cbn [fst] in *.
  destruct (in_step_cycle s t H) as (nc & f' & Hi & He & Hw & Hs). destruct H as (_ & _ & Hf & _). rewrite Hw, Hs in *. cbn [bus sys_step core] in *.
  assert (commit_fire (fabric_in false (core s) (bus (soc_at on t))) (lsu (core s)) = lsu_valid (lsu (core s))) as -> by apply andb_true_r.
  destruct (lsu_valid (lsu (core s))) eqn:Ev; cbn [length].
  - pose proof (remaining_le _ f' Hf'). lia.
  - pose proof (closer_commit code a0 text Hpg nc _ _ f' _ Hi He Ev Hf). lia.
Qed.

Lemma in_step_enough s t fuel m : (66 * S m <= fuel)%nat -> in_step s t -> enough s t fuel m.
Proof.
  intros Hf H. pose proof (in_step_pace fuel s t H). destruct H as (_ & _ & Hn & _). pose proof (remaining_le _ (bus (soc_at on t)) Hn). unfold enough. lia.
Qed.

(** How long it waits: at most five of six cycles. *)
Lemma in_step_stalls fuel : forall s t, in_step s t ->
  (6 * stalls s (inputs t fuel) <= 5 * fuel + stall (core s) (bus (soc_at on t)))%nat.
Proof.
  induction fuel as [|fuel IH]; intros s t H; [cbn; lia|]. specialize (IH _ _ (in_step_next s t H)). rewrite inputs_cons. cbn [stalls].
  destruct (in_step_cycle s t H) as (nc & f' & Hi & He & Hw & Hs). destruct H as (_ & _ & Hf & _). rewrite Hw, Hs in *. cbn [bus sys_step core] in *.
  pose proof (stall_le (cycle (core s) (fabric_in false (core s) (bus (soc_at on t)))) f').
  destruct (waits _ _) eqn:Ew; cbn [nb]; [|lia]. apply waits_not_served in Ew.
  assert (stall (cycle (core s) (fabric_in false (core s) (bus (soc_at on t)))) f' < stall (core s) (bus (soc_at on t)))%nat; [|lia].
  destruct (lsu_busy (lsu (core s))) eqn:Eb; [by eapply lsu_stall|by eapply fetch_stall].
Qed.

Hypothesis Hz : forall p, text p -> code p <> 0.

Lemma text_fetchable p : text p -> fetchable code p.
Proof. intros Hp. split; [|by apply Hz]. destruct (pg_text _ _ _ Hpg p Hp) as [Hs _]. unfold in_sram, SRAM_BASE in Hs. lia. Qed.

Lemma in_step_safe s t : in_step s t -> fatal (core s) (with_reset false (wires t)) = false.
Proof.
  intros H. destruct (in_step_cycle s t H) as (nc & f' & Hi & He & -> & _).
  pose proof (answers_right code a0 text Hpg nc _ _ _ Hi) as Ha.
  apply (no_fatal code a0 text (pg_fetch _ _ _ Hpg) nc (mkSys (core s) (dmem s))); [apply text_fetchable|apply (fi_inv _ _ _ _ _ _ _ Hi)|exact Ha|exact (fi_text _ _ _ _ _ _ _ Hi)].
Qed.

(** The conditions of [NpcSimProof] are met. *)
Lemma after_in_step k : in_step (after w k) (31 + k).
Proof. induction k as [|k IH]; [apply in_step_reset|]. rewrite Nat.add_succ_r. by apply in_step_next. Qed.

Lemma fabric_board_ok : board_ok code w.
Proof.
  constructor.
  - apply (pg_arch _ _ _ Hpg).
  - apply (pg_supported _ _ _ Hpg).
  - intros n. split; apply text_fetchable, (pg_fetch _ _ _ Hpg).
  - intros t Ht. replace t with (31 + (t - 31))%nat by lia. destruct (in_step_cycle _ _ (after_in_step (t - 31))) as (nc & f' & Hi & _ & E & _).
    pose proof (writes_paired code a0 text Hpg nc _ _ _ Hi) as H. rewrite <- E in H. exact H.
  - intros k. apply in_step_obeys, in_step_reset.
Qed.

(** Fuel that is enough for [m] instructions with [d] cycles to begin with. *)
Lemma fabric_fuel d m k fuel : (6 * d + 138 * m + 5 <= fuel)%nat -> (d + 23 * m + stalls (after w k) (inputs (31 + k) fuel) <= fuel)%nat.
Proof.
  intros Hf. pose proof (in_step_stalls fuel _ _ (after_in_step k)) as H.
  pose proof (stall_le (core (after w k)) (bus (soc_at on (31 + k)))). lia.
Qed.
End Fabric.

Section Main.
Context `{ARCH : NpcArch} `{REF : DiffRef}.
Variables (files : string -> option (list Z)) (code : Z -> Z) (insts : Z -> Prop) (w0 : sys) (data : list Z) (on : soc) (difftest : bool).
#[local] Instance main_board : Board := fabric_board on difftest.
Local Abbreviation w := (with_image w0 data).
Local Abbreviation a0 := (start (reset_sys w)).
Context `{TR : !RefTracks code a0}.

(** C7. A session with the simulator of the whole design is a session with the sequential
    machine, from the command line to the exit status, as in [npc_session_correct], but
    without any assumption on memories: the wires of the processor are those of the arbiter,
    the crossbar and the memory, which holds the image. 66 cycles for each instruction of
    the session and 66 more are enough for every command. The design starts powered up, the
    program reads and writes the memory outside of its instructions and prints bytes
    ([program_ok]), it never executes a [fence.i], behind which the design would stop
    ([fencei_stops_soc]), and no word that may be fetched is zero, which the checks of the
    design would take for an error. *)
Theorem soc_session_correct os a f items st o fuel r r' :
  parse_args os args_zero = Some a -> img_file a = Some f -> files f = Some data ->
  (0 < length data)%nat -> Z.of_nat (length data) <= 2 ^ 24 ->
  powered_up on -> core w0 = cpu_core on -> view (m_words (mem (bus on))) (dmem w) ->
  program_ok code a0 insts -> (forall n, a_instr code (seq code a0 n) <> I_fence_i) -> (forall p, insts p -> code p <> 0) ->
  when difftest (init_difftest (Z.of_nat (length data))) (sim_zero w r) = Ok (tt, sim_zero w r') ->
  (difftest = true -> tracks code a0 0 r') ->
  session code a0 (mkAState 0 AtPrompt []) (if is_batch_mode a then [ICont] else items) st o -> Forall item_ok items ->
  (66 * S (a_done st) <= fuel)%nat ->
  exists d, npc_main files fuel os (map text items) (mkDbg (sim_zero w0 r) wps_zero) = Ok (Some (o, status code a0 st), d) /\
    agrees code a0 (in_step on difftest w code insts) st d.
Proof.
  intros Hos Hi Hf H0 Hl Hon Hc Hv Hpg Hnf Hz Hd Ht Hs Hok Hfuel.
  pose proof (in_step_reset on difftest w Hon Hc Hv code insts Hpg) as Hr.
  pose proof (in_step_next on difftest w code insts Hpg Hnf) as Hn.
  pose proof (in_step_obeys on difftest w code insts Hpg Hnf) as Hob.
  destruct (session_runs code w r' (in_step on difftest w code insts) Hn (in_step_safe on difftest w code insts Hpg Hz) (is_batch_mode a) items st o fuel
    (pg_arch _ _ _ Hpg) (pg_supported _ _ _ Hpg) (fun k => Hob k _ _ Hr) Hr Ht Hs Hok) as (d & E & Ha).
  - intros s t. by apply in_step_enough.
  - exists d. split; [|done]. exact (main_runs files code w0 data os a f items st o fuel r r' d Hos Hi Hf H0 Hl Hd E).
Qed.
End Main.
