(* ===== verification/NpcFabricDemo.v ===== *)
(** Programs for the whole design: one that writes a letter to the memory, reads it back,
    prints it and ends in a [fence.i] and a loop, and the session of [NpcSdbDemo] with the
    simulator, compared with the emulator. *)

From S2P Require Import Prelude Machine Difftest Watchpoint Expr ExprSpec Sdb Monitor.
From S2P Require Import AmBus RvSpec NpcDatapath NpcCore NpcArch NpcExec NpcLanes NpcPipe NpcRefine NpcLive NpcCorrect NpcMemory.
From S2P Require Import NpcSim NpcSimProof NpcNemu NpcDifftest NpcSdb NpcSdbProof NpcSdbDemo.
From S2P Require Import NpcFabric NpcFabricProof NpcFabricInv NpcFabricRun NpcFabricSim.
From Stdlib Require Import Ascii.

Local Open Scope Z_scope.

Section Demo.
Local Existing Instance npc_arch.

(** [lui x4, 0x10000; lui x2, 0x80001; addi x1, x0, 65; sw x1, 0(x2); lw x3, 0(x2); sb x3, 0(x4); fence.i; jal x0, 0] *)
Definition letter_words : words := fun k =>
  if k =? 0 then 0x10000237 else if k =? 1 then 0x80001137 else if k =? 2 then 0x04100093 else if k =? 3 then 0x00112023
  else if k =? 4 then 0x00012183 else if k =? 5 then 0x00320023 else if k =? 6 then 0x0000100f else if k =? 7 then 0x0000006f else 0.
Definition letter (p : Z) : Z := letter_words ((p - SRAM_BASE) / 4).
Definition letter_text (p : Z) : Prop := p mod 4 = 0 /\ 0x80000000 <= p <= 0x80000020.

(** Everything at zero but the memory. *)
Definition zero_fabric : fabric := mkFabric (mkArb O_IDLE O_IDLE O_IDLE) (mkXbar X_IDLE X_IDLE false false false false 0 0)
  (mkMem false false false 0 false false false 0 0 0 false letter_words) (mkUart false false 0 false []) (mkClint 0 0 false false 0).
Definition letter_on : soc := mkSoc (core zero_sys) zero_fabric.
Definition letter_soc : soc := default letter_on (soc_reset 2 letter_on).
Local Abbreviation at_ n := (seq letter (boot letter_soc) n).

Lemma letter_words_ok : words_ok letter_words.
Proof. intros k. unfold letter_words, in_u. repeat case_match; lia. Qed.

Lemma letter_powered : powered_up letter_on.
Proof. constructor; try done. split; [done|]. split; [done|apply letter_words_ok]. Qed.

Lemma letter_reset : soc_reset 2 letter_on = Some letter_soc.
Proof. unfold letter_soc. destruct (reset_cycles 2 letter_on letter_powered) as (s & -> & _). done. Qed.

Lemma letter_boot : m_words (mem (bus letter_soc)) = letter_words /\ forall r, rf (cpu_core letter_soc) r = 0.
Proof. split; reflexivity. Qed.

Lemma letter_pc n : (n <= 7)%nat -> a_pc (at_ n) = 0x80000000 + 4 * Z.of_nat n.
Proof. intros H. do 8 (destruct n as [|n]; [vm_compute; reflexivity|]). lia. Qed.

Lemma letter_mem n : (n < 7)%nat -> e_mem (a_eff letter (at_ n)) =
  nth n [NoMem; NoMem; NoMem; Store 4 0x80001000 65; Load 4 true 0x80001000; Store 1 0x10000000 65] NoMem.
Proof. intros H. do 7 (destruct n as [|n]; [vm_compute; reflexivity|]). lia. Qed.

Lemma letter_supported n : (n < 7)%nat -> supported letter (at_ n).
Proof. intros H. do 7 (destruct n as [|n]; [vm_compute; split_and!; done|]). lia. Qed.

Lemma letter_loop a : a_pc a = 0x8000001c -> a_pc (a_step letter a) = 0x8000001c /\ supported letter a /\ e_mem (a_eff letter a) = NoMem.
Proof.
  intros E. assert (a_instr letter a = I_jal 0 0) as Ei by (unfold a_instr; rewrite E; vm_compute; reflexivity).
  unfold supported, a_step, a_eff. rewrite Ei. cbn [effect e_npc e_mem a_pc]. rewrite E. by vm_compute.
Qed.

Lemma letter_end n : (7 <= n)%nat -> a_pc (at_ n) = 0x8000001c.
Proof.
  induction 1 as [|n Hn IH]; [by rewrite letter_pc by lia|]. rewrite seq_S. by apply letter_loop.
Qed.

Lemma letter_ok : program_ok letter (boot letter_soc) letter_text.
Proof.
  destruct letter_boot as [Hw Hr]. constructor.
  - constructor; [done|intros r; cbn [a_reg boot boot_with]; by rewrite Hr| |split_and!; done].
    intros k. cbn [a_mem boot boot_with]. unfold bytes_of. set (o := 8 * ((k - SRAM_BASE) mod 4)).
    pose proof (slice_range (m_words (mem (bus letter_soc)) ((k - SRAM_BASE) / 4)) (o + 7) o) as Hs. replace (o + 7 - o + 1) with 8 in Hs by lia.
    apply Hs; unfold o; dlia.
  - intros n. destruct (decide (n < 7)%nat); [by apply letter_supported|]. apply letter_loop, letter_end. lia.
  - intros n. assert (0x80000000 <= a_pc (at_ n) <= 0x8000001c /\ a_pc (at_ n) mod 4 = 0) as [H1 H2].
    { destruct (decide (n <= 7)%nat); [rewrite letter_pc by done; split; [lia|dlia]|]. by rewrite letter_end by lia. }
    unfold letter_text, wrap. numerals. dlia.
  - intros p [H1 H2]. unfold in_sram, SRAM_BASE, SRAM_END. lia.
  - intros p [H1 H2]. unfold boot. cbn [a_mem boot_with]. rewrite Hw. unfold letter.
    rewrite <- word_of_bytes by apply letter_words_ok. apply bus_word_moved. intros j Hj. rewrite word_base_shift. f_equal. lia.
  - intros n. destruct (decide (n < 7)%nat) as [Hn|Hn].
    + rewrite letter_mem by done. unfold in_sram, in_uart, letter_text, word_base, SRAM_BASE, SRAM_END, UART_BASE, UART_END.
      do 7 (destruct n as [|n]; [cbn [nth]; first [done|lia|left; split; [lia|intros p [_ Hp]; dlia]|right; split; [lia|done]]|]). lia.
    + destruct (letter_loop (at_ n)) as (_ & _ & ->); [apply letter_end; lia|done].
Qed.

(** In a hundred cycles seven commits and the letter on the terminal. *)
Lemma soc_runs_program_witness :
  (exists cs s1, soc_run 100 letter_soc = Some (cs, s1) /\ forall j x, cs !! j = Some x -> commits_as letter (at_ j) x) /\
  (r ← soc_run 100 letter_soc; Some (map commit_pc (fst r), printed (uart (bus (snd r))))) =
    Some ([0x80000000; 0x80000004; 0x80000008; 0x8000000c; 0x80000010; 0x80000014; 0x80000018], [65]).
Proof.
  split; [|vm_compute; reflexivity].
  destruct (soc_runs_program letter letter_text letter_on letter_soc 1 100 letter_powered letter_reset letter_ok) as (cs & s1 & E & H & _).
  exists cs, s1. exact (conj E H).
Defined.

Lemma soc_keeps_committing_witness : exists cs s1, soc_run 511 letter_soc = Some (cs, s1) /\ (7 <= length cs \/ 511 <= 48 + 66 * length cs)%nat.
Proof.
  apply (soc_keeps_committing letter letter_text letter_on letter_soc 1 7 511 letter_powered letter_reset letter_ok).
  intros j Hj. do 6 (destruct j as [|j]; [vm_compute; discriminate|]). lia.
Defined.

Lemma fencei_stops_soc_witness : exists cs s1, soc_run 1000 letter_soc = Some (cs, s1) /\ (length cs <= 7)%nat.
Proof.
  apply (fencei_stops_soc letter letter_text letter_on letter_soc 1 6 1000 letter_powered letter_reset letter_ok). vm_compute. reflexivity.
Defined.
End Demo.

(** * A session *)

Module FabricSession.
Import DifftestDemo NpcSdbDemo.
#[local] Existing Instances npc_arch DifftestDemo.cfg DifftestDemo.host.

(** The program in the array of [memory.cpp], everything else at zero. *)
Definition prog_words : words := fun k => if (0 <=? k) && (k <? 7) then nth (Z.to_nat k) prog 0 else 0.
Definition prog_soc : soc := mkSoc (core zero_sys)
  (mkFabric (mkArb O_IDLE O_IDLE O_IDLE) (mkXbar X_IDLE X_IDLE false false false false 0 0)
    (mkMem false false false 0 false false false 0 0 0 false prog_words) (mkUart false false 0 false []) (mkClint 0 0 false false 0)).
#[local] Instance board : Board := fabric_board prog_soc true.

Definition prog_text (p : Z) : Prop := p mod 4 = 0 /\ base <= p <= base + 24.

Lemma prog_words_ok : words_ok prog_words.
Proof.
  intros k. unfold prog_words. destruct ((0 <=? k) && (k <? 7)) eqn:E; [|done].
  assert (exists n, k = Z.of_nat n /\ (n < 7)%nat) as (n & -> & Hn) by (exists (Z.to_nat k); lia).
  rewrite Nat2Z.id. do 7 (destruct n as [|n]; [done|]). lia.
Qed.

Lemma prog_powered : powered_up prog_soc.
Proof. constructor; try done. split; [done|]. split; [done|apply prog_words_ok]. Qed.

Lemma prog_view : view prog_words (dmem w0).
Proof.
  split; [apply prog_words_ok|]. intros k Hk. change (dmem w0 k) with (memory k).
  destruct (decide (k < base + 28)) as [Hlt|Hge].
  - assert (exists n, k = base + Z.of_nat n /\ (n < 28)%nat) as (n & -> & Hn).
    { exists (Z.to_nat (k - base)). unfold NpcFabricProof.in_sram, SRAM_BASE, base in *. lia. }
    do 28 (destruct n as [|n]; [vm_compute; reflexivity|]). lia.
  - unfold memory, bytes_of, prog_words. rewrite (proj2 (Z.ltb_ge k (base + 28))) by lia. rewrite andb_false_r.
    rewrite (proj2 (Z.ltb_ge ((k - SRAM_BASE) / 4) 7)) by (unfold base, SRAM_BASE in *; dlia). rewrite andb_false_r. done.
Qed.

Lemma touring_at a : touring a -> exists n, (n < 6)%nat /\ a_pc a = base + 4 * Z.of_nat n /\
  ((n = 2 \/ n = 3)%nat -> a_reg a 5 = base /\ a_reg a 4 = 0x10000000).
Proof.
  intros [_ Hp]. unfold base in *.
  destruct Hp as [E|[[E _]|[[[E|E] Hr]|[E|E]]]]; rewrite E; [exists 0%nat|exists 1%nat|exists 2%nat|exists 3%nat|exists 4%nat|exists 5%nat]; (split; [lia|]; split; [done|]); lia || (by intros _).
Qed.

Lemma prog_ok : program_ok code (start w0) prog_text.
Proof.
  assert (forall n, touring (seq code (start w0) n)) as Ht by (intros n; apply touring_run, demo_touring).
  constructor.
  - apply demo_arch.
  - intros n. apply touring_step, Ht.
  - intros n. destruct (touring_at _ (Ht n)) as (j & Hj & -> & _). unfold prog_text, base, wrap. numerals. dlia.
  - intros p [H1 H2]. unfold NpcFabricProof.in_sram, SRAM_BASE, SRAM_END, base in *. lia.
  - intros p [H1 H2]. assert (exists n, p = base + 4 * Z.of_nat n /\ (n < 7)%nat) as (n & -> & Hn).
    { exists (Z.to_nat ((p - base) / 4)). unfold base in *. dlia. }
    do 7 (destruct n as [|n]; [vm_compute; reflexivity|]). lia.
  - intros n. destruct (touring_at _ (Ht n)) as (j & Hj & E & Hr). pose proof (touring_instr _ j Hj E) as Ei. unfold a_eff. rewrite Ei.
    destruct j as [|[|[|[|[|[|j]]]]]]; [..|lia]; cbn [nth instrs effect e_mem]; try done; unfold a_get; cbn [Z.eqb].
    + destruct (Hr (or_introl eq_refl)) as [_ ->]. right. done.
    + destruct (Hr (or_intror eq_refl)) as [-> _]. left. split; [done|]. intros p [_ Hp].
      change (word_base (u32 (base + 64))) with (base + 64). unfold base in *. lia.
Qed.

Lemma prog_no_fence n : a_instr code (seq code (start w0) n) <> I_fence_i.
Proof.
  destruct (touring_at _ (touring_run _ n demo_touring)) as (j & Hj & E & _). rewrite (touring_instr _ j Hj E).
  do 6 (destruct j as [|j]; [done|]). lia.
Qed.

Lemma prog_nonzero p : prog_text p -> code p <> 0.
Proof.
  intros [H1 H2]. assert (exists n, p = base + 4 * Z.of_nat n /\ (n < 7)%nat) as (n & -> & Hn).
  { exists (Z.to_nat ((p - base) / 4)). unfold base in *. dlia. }
  do 7 (destruct n as [|n]; [vm_compute; discriminate|]). lia.
Qed.

Lemma prog_fits n : fits code (seq code (start (reset_sys w0)) n).
Proof. rewrite demo_start. apply touring_step, touring_run, demo_touring. Qed.

Lemma prog_started : program_ok code (start (reset_sys w0)) prog_text /\ forall n, a_instr code (seq code (start (reset_sys w0)) n) <> I_fence_i.
Proof. rewrite demo_start. split; [apply prog_ok|apply prog_no_fence]. Qed.

Lemma prog_board : board_ok code w0.
Proof. destruct prog_started as [Hp Hn]. exact (fabric_board_ok prog_soc true w0 prog_powered eq_refl prog_view code prog_text Hp Hn prog_nonzero). Qed.

Lemma prog_fuel d m k fuel : (6 * d + 138 * m + 5 <= fuel)%nat -> (d + 23 * m + stalls (after w0 k) (inputs (31 + k) fuel) <= fuel)%nat.
Proof. destruct prog_started as [Hp Hn]. exact (fabric_fuel prog_soc true w0 prog_powered eq_refl prog_view code prog_text Hp Hn d m k fuel). Qed.


(** The session against the conditions of a board. *)
Lemma npc_session_correct_witness : exists r d,
  npc_main (REF := nemu_ref buf) demo_files 827 [Opt "p" "1234"; OptArg "demo.bin"] (map NpcSdbProof.text demo_items)
    (mkDbg (sim_zero (REF := nemu_ref buf) blank r) wps_zero) = Ok (Some (demo_out, 0), d).
Proof.
  destruct (init_follows demo_share buf code w0 28 r0 demo_ready (bo_arch _ _ prog_board)) as (r' & Hd & Hr).
  exists r0.
  destruct (npc_session_correct (TR := nemu_tracks demo_share code _ (bo_arch _ _ prog_board) (bo_supported _ _ prog_board) prog_fits buf eq_refl)
    demo_files code blank demo_data
    [Opt "p" "1234"; OptArg "demo.bin"] (args_zero <| img_file := Some "demo.bin"%string |>) "demo.bin" demo_items
    (mkAState 5 Left [(2, "7 "%string, 7)]) demo_out 827 r0 r') as (d & H & _).
  - reflexivity.
  - reflexivity.
  - reflexivity.
  - vm_compute. lia.
  - vm_compute. discriminate.
  - exact prog_board.
  - exact Hd.
  - intros _. exact Hr.
  - pose proof demo_session as Hs. rewrite <- demo_start in Hs. exact Hs.
  - exact demo_items_ok.
  - intros k. apply (prog_fuel 22 5 k 827). lia.
  - exists d. exact H.
Defined.

(** The image is loaded, compared with the emulator and run by the commands of the session;
    396 cycles are enough for its five instructions. *)
Lemma soc_session_correct_witness : exists r d,
  npc_main (REF := nemu_ref buf) demo_files 396 [Opt "p" "1234"; OptArg "demo.bin"] (map NpcSdbProof.text demo_items)
    (mkDbg (sim_zero (REF := nemu_ref buf) blank r) wps_zero) = Ok (Some (demo_out, 0), d).
Proof.
  destruct prog_started as [Hp Hn]. destruct (init_follows demo_share buf code w0 28 r0 demo_ready (pg_arch _ _ _ Hp)) as (r' & Hd & Hr).
  exists r0.
  destruct (soc_session_correct (TR := nemu_tracks demo_share code _ (pg_arch _ _ _ Hp) (pg_supported _ _ _ Hp) prog_fits buf eq_refl)
    demo_files code prog_text blank demo_data prog_soc true
    [Opt "p" "1234"; OptArg "demo.bin"] (args_zero <| img_file := Some "demo.bin"%string |>) "demo.bin" demo_items
    (mkAState 5 Left [(2, "7 "%string, 7)]) demo_out 396 r0 r') as (d & H & _).
  - reflexivity.
  - reflexivity.
  - reflexivity.
  - vm_compute. lia.
  - vm_compute. discriminate.
  - exact prog_powered.
  - reflexivity.
  - exact prog_view.
  - exact Hp.
  - exact Hn.
  - exact prog_nonzero.
  - exact Hd.
  - intros _. exact Hr.
  - pose proof demo_session as Hs. rewrite <- demo_start in Hs. exact Hs.
  - exact demo_items_ok.
  - cbn [a_done]. lia.
  - exists d. exact H.
Defined.
End FabricSession.
