(* ===== verification/NpcCacheSim.v ===== *)
(** The cache simulator [npc/tools/cachesim/cachesim.cpp] and the instruction cache of the
    processor.

    The tool reads a trace of addresses and counts the hits of a set-associative cache with
    random replacement. [cachesim_refines] relates its arrays to one finite set of tags per
    set; [cachesim_predicts_icache] shows that with the geometry of [ICACHE.sv] it counts
    exactly the hits of the hardware as long as no flush comes, and an upper bound
    otherwise. *)

From S2P Require Import Prelude AmBus RvSpec NpcDatapath NpcCore NpcArch NpcExec NpcLanes NpcPipe NpcRefine NpcLive NpcCorrect NpcCache.

(** The macros that the build passes, and the values that [rand()] returns. *)
Class CacheSim : Type := { S_OFFSET_WIDTH : Z; S_INDEX_WIDTH : Z; SET_WIDTH : Z; rand : nat -> Z }.

Section CacheSim.
Context `{CS : CacheSim}.

Definition WAY_WIDTH : Z := S_INDEX_WIDTH - SET_WIDTH.
Definition CACHE_NUM_SETS : Z := Z.shiftl 1 SET_WIDTH.
Definition CACHE_NUM_WAYS : Z := Z.shiftl 1 WAY_WIDTH.

(** The globals; [rands] counts the calls of [rand]. *)
Record csim : Type := mkCsim {
  valids : Z -> Z -> Z;
  tags : Z -> Z -> Z;
  cache_access_count : Z;
  cache_hit_count : Z;
  cache_miss_count : Z;
  rands : nat;
}.
#[global] Instance eta_csim : Eta csim := fun x =>
  mkCsim (valids x) (tags x) (cache_access_count x) (cache_hit_count x) (cache_miss_count x) (rands x).
Definition csim_zero : csim := mkCsim (fun _ _ => 0) (fun _ _ => 0) 0 0 0 0.

Definition find_set (addr : Z) : Z := Z.land (Z.shiftr addr S_OFFSET_WIDTH) (Z.shiftl 1 SET_WIDTH - 1).
Definition find_tag (addr : Z) : Z := Z.shiftr addr (S_OFFSET_WIDTH + SET_WIDTH).

(** [a[set][i] = v]. *)
Definition put2 (a : Z -> Z -> Z) (set i v : Z) : Z -> Z -> Z := fun x y => if (x =? set) && (y =? i) then v else a x y.

(** The first loop, from way [i] on with [n] ways left. *)
Fixpoint lookup_loop (s : csim) (set tag : Z) (n : nat) (i : Z) : bool :=
  match n with
  | O => false
  | S n => if negb (valids s set i =? 0) && (tags s set i =? tag) then true else lookup_loop s set tag n (i + 1)
  end.

Definition fill (s : csim) (set tag way : Z) : csim :=
  s <| valids := put2 (valids s) set way 1 |> <| tags := put2 (tags s) set way tag |>.

(** The second loop. *)
Fixpoint fill_loop (s : csim) (set tag : Z) (n : nat) (i : Z) : csim :=
  match n with
  | O => s
  | S n =>
      if valids s set i =? 0 then fill s set tag i
      else if i =? CACHE_NUM_WAYS - 1 then
        let way := Z.rem (rand (rands s)) CACHE_NUM_WAYS in
        fill_loop ((fill s set tag way) <| rands := S (rands s) |>) set tag n (i + 1)
      else fill_loop s set tag n (i + 1)
  end.

(** One round of the loop of [main]; the result is [hit]. *)
Definition access (s : csim) (pc : Z) : bool * csim :=
  let s := s <| cache_access_count := u64 (cache_access_count s + 1) |> in
  let set := find_set pc in
  let tag := find_tag pc in
  let hit := lookup_loop s set tag (Z.to_nat CACHE_NUM_WAYS) 0 in
  let s := if hit then s else fill_loop s set tag (Z.to_nat CACHE_NUM_WAYS) 0 in
  (hit, if hit then s <| cache_hit_count := u64 (cache_hit_count s + 1) |>
        else s <| cache_miss_count := u64 (cache_miss_count s + 1) |>).

(** The trace; the results of the rounds are kept for the statements. *)
Fixpoint accesses (s : csim) (pcs : list Z) : list bool * csim :=
  match pcs with
  | [] => ([], s)
  | pc :: pcs => let '(h, s) := access s pc in let '(hs, s) := accesses s pcs in (h :: hs, s)
  end.

(** [main] up to the report. *)
Definition cachesim_main (pcs : list Z) : result csim :=
  let '(_, s) := accesses csim_zero pcs in
  if cache_access_count s =? u64 (cache_hit_count s + cache_miss_count s) then Ok s
  else Abort (AAssert "cache_access_count == cache_hit_count + cache_miss_count").

(** * What the arrays hold *)

(** The tags of the valid ways among [n] from way [i] on. *)
Fixpoint live (s : csim) (set : Z) (n : nat) (i : Z) : list Z :=
  match n with
  | O => []
  | S n => (if valids s set i =? 0 then [] else [tags s set i]) ++ live s set n (i + 1)
  end.

Lemma lookup_live s set tag n : forall i, lookup_loop s set tag n i = bool_decide (tag ∈ live s set n i).
Proof.
  induction n as [|n IH]; intros i; cbn [lookup_loop live]; [by rewrite bool_decide_false by apply not_elem_of_nil|].
  rewrite IH. destruct (valids s set i =? 0); cbn [negb andb app]; [done|].
  destruct (Z.eqb_spec (tags s set i) tag) as [->|].
  - by rewrite bool_decide_true by (rewrite elem_of_cons; by left).
  - apply bool_decide_ext. rewrite elem_of_cons. split; [by right|]. by intros [E|].
Qed.

(** The counters do not matter. *)
Lemma live_ext s s' x n : valids s' = valids s -> tags s' = tags s -> forall i, live s' x n i = live s x n i.
Proof. intros Hv Ht. induction n as [|n IH]; intros i; [done|]. cbn [live]. by rewrite Hv, Ht, IH. Qed.

Lemma put2_other a set j v x i : x <> set \/ i <> j -> put2 a set j v x i = a x i.
Proof. intros H. unfold put2. destruct (Z.eqb_spec x set), (Z.eqb_spec i j); cbn; try done. by destruct H. Qed.

Lemma put2_same a set j v : put2 a set j v set j = v.
Proof. unfold put2. by rewrite !Z.eqb_refl. Qed.

Lemma live_other s set tag j x n : forall i, x <> set \/ j < i \/ i + Z.of_nat n <= j -> live (fill s set tag j) x n i = live s x n i.
Proof.
  induction n as [|n IH]; intros i Hd; [done|]. cbn [live]. rewrite IH by lia. cbn [fill valids tags update].
  change (valids (fill s set tag j)) with (put2 (valids s) set j 1). change (tags (fill s set tag j)) with (put2 (tags s) set j tag).
  by rewrite !put2_other by lia.
Qed.

(** Filling a way puts the tag in its place. *)
Lemma live_fill s set tag j n : forall i, i <= j < i + Z.of_nat n ->
  exists a b, live s set n i = a ++ (if valids s set j =? 0 then [] else [tags s set j]) ++ b /\ live (fill s set tag j) set n i = a ++ tag :: b.
Proof.
  induction n as [|n IH]; intros i Hj; [lia|]. cbn [live].
  change (valids (fill s set tag j)) with (put2 (valids s) set j 1). change (tags (fill s set tag j)) with (put2 (tags s) set j tag).
  destruct (decide (i = j)) as [->|Hne].
  - exists [], (live s set n (j + 1)). split; [done|]. rewrite !put2_same, live_other by lia. done.
  - rewrite !put2_other by lia. destruct (IH (i + 1)) as (a & b & -> & ->); [lia|].
    exists ((if valids s set i =? 0 then [] else [tags s set i]) ++ a), b. by rewrite <- !app_assoc.
Qed.

Lemma live_length s set n : forall i, (length (live s set n i) <= n)%nat /\
  (length (live s set n i) = n <-> forall j, i <= j < i + Z.of_nat n -> valids s set j <> 0).
Proof.
  induction n as [|n IH]; intros i; cbn [live]; [split; [done|]; split; [lia|done]|].
  destruct (IH (i + 1)) as [H1 H2]. rewrite length_app. destruct (Z.eqb_spec (valids s set i) 0) as [E|E]; cbn [length].
  - split; [lia|]. split; [lia|]. intros H. destruct (H i); [lia|done].
  - split; [lia|]. split.
    + intros H j Hj. destruct (decide (j = i)) as [->|]; [done|]. apply H2; lia.
    + intros H. f_equal. apply H2. intros j Hj. apply H. lia.
Qed.

(** ** The second loop *)

Local Abbreviation ways := (Z.to_nat CACHE_NUM_WAYS).

Lemma fill_loop_spec s set tag n : forall i, 0 <= i -> i + Z.of_nat n = CACHE_NUM_WAYS -> (0 < n)%nat ->
  (exists j, i <= j < CACHE_NUM_WAYS /\ valids s set j = 0 /\ fill_loop s set tag n i = fill s set tag j) \/
  (forall j, i <= j < CACHE_NUM_WAYS -> valids s set j <> 0) /\
    fill_loop s set tag n i = (fill s set tag (Z.rem (rand (rands s)) CACHE_NUM_WAYS)) <| rands := S (rands s) |>.
Proof.
  induction n as [|n IH]; intros i Hi Hw Hn; [lia|]. cbn [fill_loop]. destruct (Z.eqb_spec (valids s set i) 0) as [E|E].
  { left. exists i. split; [lia|done]. }
  destruct (Z.eqb_spec i (CACHE_NUM_WAYS - 1)) as [Hl|Hl].
  - right. assert (n = 0%nat) as -> by lia. split; [|done]. intros j Hj. by replace j with i by lia.
  - destruct (IH (i + 1)) as [(j & Hj & Hv & ->)|[Hv ->]]; [lia|lia|lia| |].
    + left. exists j. split; [lia|done].
    + right. split; [|done]. intros j Hj. destruct (decide (j = i)) as [->|]; [done|]. apply Hv. lia.
Qed.

(** * The cache as sets of tags *)

Hypotheses (Hset : 0 <= SET_WIDTH <= S_INDEX_WIDTH) (Hrand : forall n, 0 <= rand n).

Definition contents (s : csim) (set : Z) : gset Z := list_to_set (live s set ways 0).

(** One access to a set that holds [A]: with a miss the line comes in, and when there was no
    room some other line goes. *)
Inductive serves (A : gset Z) (t : Z) : bool -> gset Z -> Prop :=
| sv_hit : t ∈ A -> serves A t true A
| sv_room : t ∉ A -> Z.of_nat (size A) < CACHE_NUM_WAYS -> serves A t false ({[t]} ∪ A)
| sv_evict v : t ∉ A -> Z.of_nat (size A) = CACHE_NUM_WAYS -> v ∈ A -> serves A t false ({[t]} ∪ A ∖ {[v]}).

(** A trace of accesses, one set at a time. *)
Inductive replay : (Z -> gset Z) -> list Z -> list bool -> (Z -> gset Z) -> Prop :=
| replay_nil A : replay A [] [] A
| replay_cons A A' A'' pc pcs h hs :
    serves (A (find_set pc)) (find_tag pc) h (A' (find_set pc)) -> (forall x, x <> find_set pc -> A' x = A x) ->
    replay A' pcs hs A'' -> replay A (pc :: pcs) (h :: hs) A''.

Lemma ways_pos : 0 < CACHE_NUM_WAYS.
Proof. unfold CACHE_NUM_WAYS. rewrite Z.shiftl_1_l. apply Z.pow_pos_nonneg; unfold WAY_WIDTH; lia. Qed.

Definition distinct (s : csim) : Prop := forall x, NoDup (live s x ways 0).

Lemma same_arrays s s' : valids s' = valids s -> tags s' = tags s ->
  (forall x, contents s' x = contents s x) /\ (distinct s -> distinct s').
Proof.
  intros Hv Ht. split; [intros x; unfold contents; by rewrite (live_ext s s')|].
  intros Hd x. rewrite (live_ext s s') by done. apply Hd.
Qed.

Lemma size_contents s x : distinct s -> size (contents s x) = length (live s x ways 0).
Proof. intros Hd. unfold contents. by rewrite size_list_to_set. Qed.

(** The filled way, in terms of the sets. *)
Lemma filled s set tag j : distinct s -> 0 <= j < CACHE_NUM_WAYS -> tag ∉ contents s set ->
  distinct (fill s set tag j) /\ (forall x, x <> set -> contents (fill s set tag j) x = contents s x) /\
  contents (fill s set tag j) set =
    {[tag]} ∪ (if valids s set j =? 0 then contents s set else contents s set ∖ {[tags s set j]}) /\
  ((valids s set j =? 0) = false -> tags s set j ∈ contents s set).
Proof.
  intros Hd Hj Ht. destruct (live_fill s set tag j ways 0) as (a & b & E1 & E2); [lia|].
  pose proof (Hd set) as Hn. unfold contents in *. rewrite E1 in Ht, Hn. rewrite !list_to_set_app_L in Ht.
  assert (tag ∉ a /\ tag ∉ b) as [Ha Hb] by set_solver. split_and!.
  - intros x. destruct (decide (x = set)) as [->|Hx]; [|rewrite live_other by (by left); apply Hd]. rewrite E2.
    apply NoDup_app in Hn as (N1 & N2 & N3). apply NoDup_app in N3 as (_ & _ & N4).
    apply NoDup_app. split; [done|]. split; [|by apply NoDup_cons]. intros y Hy. rewrite elem_of_cons. intros [->|Hyb]; [done|].
    apply (N2 y Hy). rewrite elem_of_app. by right.
  - intros x Hx. by rewrite live_other by (by left).
  - rewrite E1, E2. rewrite !list_to_set_app_L. cbn [list_to_set]. destruct (valids s set j =? 0); cbn [list_to_set] in *; [set_solver|].
    apply NoDup_app in Hn as (_ & N2 & N3). apply NoDup_cons in N3 as [N3 _].
    assert (tags s set j ∉ a) by (intros Hin; apply (N2 _ Hin); set_solver). set_solver.
  - rewrite E1. destruct (valids s set j =? 0); [done|]. set_solver.
Qed.

Lemma fill_loop_serves s set tag : distinct s -> tag ∉ contents s set ->
  let s' := fill_loop s set tag ways 0 in
  distinct s' /\ serves (contents s set) tag false (contents s' set) /\ (forall x, x <> set -> contents s' x = contents s x) /\
  cache_access_count s' = cache_access_count s /\ cache_hit_count s' = cache_hit_count s /\ cache_miss_count s' = cache_miss_count s.
Proof.
  intros Hd Ht s'. pose proof ways_pos as Hw. pose proof (live_length s set ways 0) as [L1 L2]. rewrite Z2Nat.id in L2 by lia.
  destruct (fill_loop_spec s set tag ways 0) as [(j & Hj & Hv & E)|[Hv E]]; [lia|lia|lia| |]; subst s'; rewrite E.
  - destruct (filled s set tag j Hd ltac:(lia) Ht) as (F1 & F2 & F3 & _). split_and!; try done. rewrite F3, Hv. change (0 =? 0) with true. cbv iota.
    apply sv_room; [done|]. rewrite size_contents by done.
    assert (length (live s set ways 0) <> ways) by (intros El; destruct (proj1 L2 El j); [lia|done]). lia.
  - set (j := Z.rem (rand (rands s)) CACHE_NUM_WAYS).
    assert (0 <= j < CACHE_NUM_WAYS) as Hj by (apply Z.rem_bound_pos; [apply Hrand|lia]).
    destruct (filled s set tag j Hd Hj Ht) as (F1 & F2 & F3 & F4). rewrite (proj2 (Z.eqb_neq _ _) (Hv j ltac:(lia))) in F3, F4.
    destruct (same_arrays (fill s set tag j) ((fill s set tag j) <| rands := S (rands s) |>)) as [A1 A2]; [done..|].
    split; [by apply A2|]. split; [|split; [intros x Hx; rewrite A1; by apply F2|by split_and!]].
    rewrite A1, F3. apply sv_evict; [done| |by apply F4]. rewrite size_contents by done. rewrite (proj2 L2); [lia|]. intros k Hk. apply Hv. lia.
Qed.

Lemma access_serves s pc : distinct s -> let '(h, s') := access s pc in
  distinct s' /\ serves (contents s (find_set pc)) (find_tag pc) h (contents s' (find_set pc)) /\
  (forall x, x <> find_set pc -> contents s' x = contents s x) /\
  cache_access_count s' = u64 (cache_access_count s + 1) /\
  cache_hit_count s' = (if h then u64 (cache_hit_count s + 1) else cache_hit_count s) /\
  cache_miss_count s' = (if h then cache_miss_count s else u64 (cache_miss_count s + 1)).
Proof.
  intros Hd. unfold access. set (s1 := s <| cache_access_count := u64 (cache_access_count s + 1) |>).
  destruct (same_arrays s s1) as [A1 A2]; [done..|]. rewrite lookup_live, (live_ext s s1) by done. case_bool_decide as Hin.
  - destruct (same_arrays s (s1 <| cache_hit_count := u64 (cache_hit_count s1 + 1) |>)) as [B1 B2]; [done..|].
    split; [by apply B2|]. split; [|split; [intros x _; apply B1|by split_and!]].
    rewrite B1. apply sv_hit. unfold contents. by rewrite elem_of_list_to_set.
  - destruct (fill_loop_serves s1 (find_set pc) (find_tag pc)) as (F1 & F2 & F3 & F4 & F5 & F6).
    + by apply A2.
    + rewrite A1. unfold contents. by rewrite elem_of_list_to_set.
    + set (s2 := fill_loop s1 _ _ _ _) in *.
      destruct (same_arrays s2 (s2 <| cache_miss_count := u64 (cache_miss_count s2 + 1) |>)) as [B1 B2]; [done..|].
      split; [by apply B2|]. rewrite B1. split; [by rewrite <- A1|].
      split; [intros x Hx; rewrite B1, <- A1; by apply F3|]. cbn. by rewrite F4, F5, F6.
Qed.

(** Numbers of hits and misses. *)
Definition hits (hs : list bool) : Z := Z.of_nat (length (List.filter id hs)).
Definition misses (hs : list bool) : Z := Z.of_nat (length (List.filter negb hs)).

Lemma hits_misses hs : hits hs + misses hs = Z.of_nat (length hs).
Proof. unfold hits, misses. induction hs as [|[] hs IH]; cbn [List.filter id negb length] in *; lia. Qed.

Lemma accesses_replay pcs : forall s, distinct s -> in_u 64 (cache_access_count s) -> in_u 64 (cache_hit_count s) -> in_u 64 (cache_miss_count s) ->
  let '(hs, s') := accesses s pcs in
  replay (contents s) pcs hs (contents s') /\ cache_access_count s' = u64 (cache_access_count s + Z.of_nat (length hs)) /\
  cache_hit_count s' = u64 (cache_hit_count s + hits hs) /\ cache_miss_count s' = u64 (cache_miss_count s + misses hs).
Proof.
  induction pcs as [|pc pcs IH]; intros s Hd Ha Hh Hm; cbn [accesses].
  { split; [constructor|]. rewrite !Z.add_0_r. by rewrite !wrap_id. }
  pose proof (access_serves s pc Hd) as H. destruct (access s pc) as [h s1]. destruct H as (H1 & H2 & H3 & H4 & H5 & H6).
  specialize (IH s1 H1). destruct (accesses s1 pcs) as [hs s2].
  destruct IH as (I1 & I2 & I3 & I4).
  - rewrite H4. by apply wrap_in_u.
  - rewrite H5. destruct h; [by apply wrap_in_u|done].
  - rewrite H6. destruct h; [done|by apply wrap_in_u].
  - split; [by apply (replay_cons _ (contents s1))|]. rewrite I2, I3, I4, H4, H5, H6. unfold hits, misses.
    destruct h; cbn [List.filter id negb length]; rewrite ?wrap_add_l; split_and!; f_equal; lia.
Qed.

(** C34. The tool counts the hits of a cache that is a set of at most [CACHE_NUM_WAYS] tags for
    each index: every access hits exactly when its tag is in its set, a miss brings the tag
    in, at the cost of one other when the set is full, and the closing assertion on the
    three counters holds. *)
Theorem cachesim_refines pcs : exists s hs, cachesim_main pcs = Ok s /\
  replay (contents csim_zero) pcs hs (contents s) /\ (forall x, contents csim_zero x = ∅) /\
  cache_hit_count s = u64 (hits hs) /\ cache_miss_count s = u64 (misses hs).
Proof.
  assert (forall x n i, live csim_zero x n i = []) as Hz by (intros x n; induction n as [|n IH]; intros i; [done|]; apply IH).
  pose proof (accesses_replay pcs csim_zero) as H. unfold cachesim_main. destruct (accesses csim_zero pcs) as [hs s].
  destruct H as (H1 & H2 & H3 & H4); try done. { intros x. rewrite Hz. constructor. }
  exists s, hs. split_and!; try done; [|intros x; unfold contents; by rewrite Hz].
  rewrite H2, H3, H4. cbn [cache_access_count cache_hit_count cache_miss_count csim_zero]. rewrite !Z.add_0_l.
  rewrite wrap_add_l, wrap_add_r, hits_misses, Z.eqb_refl. done.
Qed.
End CacheSim.

(** * The cache of the processor *)

Section Icache.
Variable r : nat -> Z.

(** The geometry of [ICACHE.sv]: one way. *)
#[local] Instance geometry : CacheSim := {| S_OFFSET_WIDTH := OFFSET_WIDTH; S_INDEX_WIDTH := INDEX_WIDTH; SET_WIDTH := INDEX_WIDTH; rand := r |}.

(** What the two ports and the fence bring in one cycle. *)
Record ic_in : Type := mkIcIn { q_flush : bool; q_arvalid : bool; q_araddr : Z; q_rready : bool; q_burst : burst_in }.

Definition ic_step (k : icache) (q : ic_in) : icache :=
  icache_edge false (q_flush q) (q_arvalid q) (q_araddr q) (q_rready q) (q_burst q) k.

(** The requests that the cache serves, each with whether it hits. In a cycle with a flush
    there is none. *)
Definition ic_takes (k : icache) (q : ic_in) : list (Z * bool) :=
  if negb (q_flush q) && (q_arvalid q && in_arready k) then
    [(q_araddr q, valid_array k (index_of (q_araddr q)) && (tag_array k (index_of (q_araddr q)) =? tag_of (q_araddr q)))]
  else [].
Fixpoint ic_trace (k : icache) (qs : list ic_in) : list (Z * bool) :=
  match qs with [] => [] | q :: qs => ic_takes k q ++ ic_trace (ic_step k q) qs end.

(** Addresses of 32 bits, and bursts of four beats. *)
Fixpoint ic_obeys (k : icache) (qs : list ic_in) : Prop :=
  match qs with
  | [] => True
  | q :: qs =>
      (in_u 32 (q_araddr q) /\ (ic_state k = IC_WAIT_R -> out_rvalid (q_burst q) = true -> out_rlast (q_burst q) = (refill_cnt k =? 3))) /\
      ic_obeys (ic_step k q) qs
  end.

Lemma find_index a : in_u 32 a -> find_set a = index_of a /\ find_tag a = tag_of a.
Proof.
  intros Ha. unfold find_set, find_tag. cbn [S_OFFSET_WIDTH SET_WIDTH geometry].
  change (Z.shiftl 1 INDEX_WIDTH - 1) with (Z.ones 2). rewrite Z.land_ones, !Z.shiftr_div_pow2 by (unfold OFFSET_WIDTH, INDEX_WIDTH; lia).
  split; addresses.
Qed.

(** A line of the hardware is one of the tool; and the other way round, when nothing has been
    flushed. *)
Definition same_line (exact v : bool) (t : Z) (s : csim) (i : Z) : Prop :=
  (v = true -> (valids s i 0 =? 0) = false /\ tags s i 0 = t) /\ (exact = true -> v = false -> (valids s i 0 =? 0) = true).

(** The arrays of the tool hold those of the hardware, a line that is on its way counted in. *)
Definition mirrors (exact : bool) (k : icache) (s : csim) : Prop :=
  match ic_state k with
  | IC_IDLE | IC_RESP => forall i, 0 <= i < 4 -> same_line exact (valid_array k i) (tag_array k i) s i
  | IC_SEND_AR | IC_WAIT_R => exists a, in_u 32 a /\ 0 <= refill_cnt k < 4 /\ refill_addr k = line_of a + 4 * refill_cnt k /\
      forall i, 0 <= i < 4 -> same_line exact (put (valid_array k) (index_of a) true i) (put (tag_array k) (index_of a) (tag_of a) i) s i
  end.

(** With one way an access either finds its line or replaces it. *)
Lemma access_one s a : in_u 32 a ->
  let '(h, s') := access s a in h = negb (valids s (index_of a) 0 =? 0) && (tags s (index_of a) 0 =? tag_of a) /\
    (valids s' (index_of a) 0 =? 0) = false /\ tags s' (index_of a) 0 = tag_of a /\
    (forall i, i <> index_of a -> valids s' i 0 = valids s i 0 /\ tags s' i 0 = tags s i 0).
Proof.
  intros Ha. destruct (find_index a Ha) as [Ei Et]. unfold access. rewrite Ei, Et. change (Z.to_nat CACHE_NUM_WAYS) with 1%nat.
  cbn [lookup_loop]. set (s1 := s <| cache_access_count := _ |>). change (valids s1) with (valids s). change (tags s1) with (tags s).
  destruct (valids s (index_of a) 0 =? 0) eqn:Ev; cbn [negb andb].
  - cbn [fill_loop]. change (valids s1) with (valids s). rewrite Ev.
    split; [done|]. cbn. rewrite !put2_same. split; [done|]. split; [done|]. intros i Hi. by rewrite !put2_other by (by left).
  - destruct (Z.eqb_spec (tags s (index_of a) 0) (tag_of a)) as [E|Hn]; [by split_and!|].
    cbn [fill_loop]. change (valids s1) with (valids s). rewrite Ev. change (0 =? CACHE_NUM_WAYS - 1) with true.
    change (rand (rands s1)) with (r (rands s)). replace (Z.rem (r (rands s)) CACHE_NUM_WAYS) with 0 by (symmetry; apply Z.rem_1_r).
    split; [done|]. cbn. rewrite !put2_same. split; [done|]. split; [done|]. intros i Hi. by rewrite !put2_other by (by left).
Qed.

(** What the hardware finds, the tool finds. *)
Definition predicted (exact hw tool : bool) : Prop := (hw = true -> tool = true) /\ (exact = true -> tool = hw).

Lemma line_predicted exact v t s a : same_line exact v t s (index_of a) ->
  predicted exact (v && (t =? tag_of a)) (negb (valids s (index_of a) 0 =? 0) && (tags s (index_of a) 0 =? tag_of a)).
Proof.
  intros [S1 S2]. destruct v; cbn [andb].
  - destruct (S1 eq_refl) as [-> ->]. by split.
  - split; [done|]. intros E. by rewrite S2.
Qed.

(** One cycle of the hardware is an access of the tool when a request is served, and nothing
    otherwise. *)
Lemma mirrors_step exact k s q : mirrors exact k s -> in_u 32 (q_araddr q) -> (exact = true -> q_flush q = false) ->
  (ic_state k = IC_WAIT_R -> out_rvalid (q_burst q) = true -> out_rlast (q_burst q) = (refill_cnt k =? 3)) ->
  let '(hs, s') := accesses s (map fst (ic_takes k q)) in
  Forall2 (predicted exact) (map snd (ic_takes k q)) hs /\ mirrors exact (ic_step k q) s'.
Proof.
  intros Hm Ha Hf Hb. unfold ic_takes, ic_step, icache_edge, in_arready. destruct (q_flush q) eqn:Eq; cbn [negb andb].
  { destruct exact; [by specialize (Hf eq_refl)|]. cbn [map accesses]. split; [constructor|]. unfold mirrors in *. cbn [ic_state refill_cnt refill_addr].
    change (ic_state (k <| valid_array := fun _ => false |>)) with (ic_state k). destruct (ic_state k).
    1, 2: intros i _; by split.
    all: destruct Hm as (a & M1 & M2 & M3 & M4); exists a; (split_and!; [done|apply M2|apply M2|done|]); intros i Hi;
      specialize (M4 i Hi); revert M4; cbn; unfold put; by destruct (i =? index_of a). }
  clear Eq Hf. unfold mirrors in *. destruct (ic_state k) eqn:Ek; decided.
  - rewrite andb_true_r. destruct (q_arvalid q); cbn [map accesses]; [|split; [constructor|]; rewrite Ek; done].
    destruct (line_parts _ Ha) as [_ Hi]. pose proof (access_one s _ Ha) as A.
    cbn [fst]. destruct (access s (q_araddr q)) as [h s']. destruct A as (-> & A2 & A3 & A4). cbn [accesses map snd].
    set (a := q_araddr q) in *. split; [constructor; [by apply line_predicted, Hm|constructor]|].
    assert (forall i v t, i <> index_of a -> same_line exact v t s i -> same_line exact v t s' i) as A5
      by (intros i v t Hn; unfold same_line; by destruct (A4 i Hn) as [-> ->]).
    destruct (valid_array k (index_of a) && (tag_array k (index_of a) =? tag_of a)) eqn:Eh; cbn.
    + intros i Hi'. destruct (decide (i = index_of a)) as [->|Hn]; [|by apply A5, Hm].
      apply andb_true_iff in Eh as [-> ->%Z.eqb_eq]. by split.
    + exists a. split_and!; [done|done|done|lia|]. intros i Hi'. unfold put. destruct (Z.eqb_spec i (index_of a)) as [->|Hn]; [by split|by apply A5, Hm].
  - cbn [map accesses]. split; [constructor|]. destruct (in_rvalid k && q_rready q); [done|]. by rewrite Ek.
  - cbn [map accesses]. split; [constructor|]. destruct (out_arvalid k && out_arready (q_burst q)); [done|]. by rewrite Ek.
  - cbn [map accesses]. split; [constructor|]. unfold out_rready. rewrite Ek. decided. rewrite andb_true_r.
    destruct (out_rvalid (q_burst q)); [|by rewrite Ek]. specialize (Hb eq_refl eq_refl). rewrite Hb.
    destruct Hm as (a & M1 & M2 & M3 & M4). destruct (in_line a (refill_cnt k) M1 M2) as (L1 & L2 & _ & L3). rewrite M3.
    destruct (Z.eqb_spec (refill_cnt k) 3); cbn.
    + rewrite L1, L2. exact M4.
    + rewrite Ek. exists a. rewrite L3 by lia. rewrite Z.mod_small by lia. split_and!; try done; lia.
Qed.

Lemma accesses_app l1 : forall s l2, accesses s (l1 ++ l2) =
  let '(h1, s1) := accesses s l1 in let '(h2, s2) := accesses s1 l2 in (h1 ++ h2, s2).
Proof.
  induction l1 as [|a l1 IH]; intros s l2; cbn [accesses app]; [by destruct (accesses s l2)|].
  destruct (access s a) as [h s1]. rewrite IH. destruct (accesses s1 l1) as [h1 s2]. by destruct (accesses s2 l2).
Qed.

Lemma mirrors_run exact qs : (exact = true -> Forall (fun q => q_flush q = false) qs) -> forall k s, mirrors exact k s -> ic_obeys k qs ->
  Forall2 (predicted exact) (map snd (ic_trace k qs)) (fst (accesses s (map fst (ic_trace k qs)))).
Proof.
  induction qs as [|q qs IH]; intros Hf k s Hm Ho; [constructor|]. destruct Ho as [[H1 H2] Ho]. cbn [ic_trace]. rewrite !map_app, accesses_app.
  assert (exact = true -> q_flush q = false) as Hq by (intros E; by specialize (Hf E); inversion Hf).
  pose proof (mirrors_step exact k s q Hm H1 Hq H2) as H. destruct (accesses s (map fst (ic_takes k q))) as [hs s']. destruct H as [Hp Hm'].
  assert (exact = true -> Forall (fun q => q_flush q = false) qs) as Hf' by (intros E; by specialize (Hf E); inversion Hf).
  specialize (IH Hf' _ s' Hm' Ho). destruct (accesses s' _) as [h2 s2]. cbn [fst] in *. by apply Forall2_app.
Qed.

(** C33. With the geometry of [ICACHE.sv] the tool predicts the hardware. On the addresses that
    the cache serves after a reset, in their order, whatever the timing of the core and of
    the memory behind: when no flush comes, each access hits in the tool exactly when it hits
    in the cache; with flushes, which the tool does not know, each hit of the cache is still
    one of the tool, so that the tool's number of hits is an upper bound. *)
Theorem cachesim_predicts_icache k b qs : let k0 := icache_edge true false false 0 false b k in
  let hw := map snd (ic_trace k0 qs) in
  let tool := fst (accesses csim_zero (map fst (ic_trace k0 qs))) in
  ic_obeys k0 qs ->
  (Forall (fun q => q_flush q = false) qs -> tool = hw) /\
  Forall2 (fun h t => h = true -> t = true) hw tool /\ hits hw <= hits tool.
Proof.
  intros k0 hw tool Ho.
  assert (forall exact, (exact = true -> Forall (fun q => q_flush q = false) qs) -> Forall2 (predicted exact) hw tool) as H
    by (intros exact Hf; apply mirrors_run; [done| |done]; intros i _; by split).
  split; [|assert (Forall2 (fun h t => h = true -> t = true) hw tool) as Hi by (eapply Forall2_impl; [by apply (H false)|by intros ? ? []]); split; [done|]].
  - intros Hf. specialize (H true (fun _ => Hf)). clear -H. induction H as [|h t hw tool [_ E] _ IH]; [done|]. by rewrite E, IH.
  - clear -Hi. unfold hits. induction Hi as [|h t hw tool E _ IH]; [done|]. destruct h, t; cbn [List.filter id length] in *; try lia; by specialize (E eq_refl).
Qed.
End Icache.

(** * Examples *)
Module CacheSimDemo.

Definition lcg (n : nat) : Z := (1103515245 * Z.of_nat n + 12345) mod 32768.
(** Two sets of two ways, with lines of sixteen bytes. *)
#[local] Instance two_by_two : CacheSim := {| S_OFFSET_WIDTH := 4; S_INDEX_WIDTH := 2; SET_WIDTH := 1; rand := lcg |}.

Definition trace : list Z := [0; 4; 32; 0; 64; 32; 16; 0; 20].

Lemma cachesim_refines_witness : fst (accesses csim_zero trace) = [false; true; false; true; false; false; false; false; true] /\
  exists s hs, cachesim_main trace = Ok s /\ replay (contents csim_zero) trace hs (contents s) /\
    (forall x, contents csim_zero x = ∅) /\ cache_hit_count s = u64 (hits hs) /\ cache_miss_count s = u64 (misses hs).
Proof.
  split; [vm_compute; reflexivity|]. apply (cachesim_refines (CS := two_by_two)); [cbn; lia|].
  intros n. cbn. unfold lcg. apply Z.mod_pos_bound. lia.
Defined.

Definition cold : icache := mkIcache IC_IDLE 0 0 0 (fun _ => 0) (fun _ => 0) (fun _ => false) false 0 false 0 0 0 0.
(** A request at [a], answered at once: a hit takes two cycles and a miss seven. *)
Definition beat (last : bool) : burst_in := mkBurst true true 0 last.
Definition quick (a : Z) (hit : bool) : list ic_in :=
  mkIcIn false true a true (beat false) ::
  (if hit then [] else map (fun l => mkIcIn false false 0 true (beat l)) [false; false; false; false; true]) ++ [mkIcIn false false 0 true (beat false)].
Definition session : list ic_in := quick 0x30000000 false ++ quick 0x30000004 true ++ quick 0x30000040 false ++ quick 0x30000000 false.

(** The same line again behind a flush: the hardware misses, the tool does not. *)
Definition fenced : list ic_in := session ++ mkIcIn true false 0 true (beat false) :: quick 0x30000004 false.

Lemma cachesim_predicts_icache_witness :
  let k0 := icache_edge true false false 0 false (beat false) cold in
  let hw qs := map snd (ic_trace k0 qs) in
  let tool qs := fst (accesses (CS := geometry lcg) csim_zero (map fst (ic_trace k0 qs))) in
  (tool session = hw session /\ hw session = [false; true; false; false]) /\
  (hits (hw fenced) <= hits (tool fenced) /\ hw fenced = [false; true; false; false; false] /\ tool fenced = [false; true; false; false; true]).
Proof.
  cbv zeta. split; (split; [|vm_compute; auto]).
  - apply (cachesim_predicts_icache lcg cold (beat false) session); [|repeat constructor].
    unfold session, quick, beat. cbn [app map]. repeat (split; [split; [unfold in_u; cbn; lia|vm_compute; congruence]|]). exact I.
  - apply (cachesim_predicts_icache lcg cold (beat false) fenced).
    unfold fenced, session, quick, beat. cbn [app map]. repeat (split; [split; [unfold in_u; cbn; lia|vm_compute; congruence]|]). exact I.
Defined.
End CacheSimDemo.
