(* ===== verification/X86Vme.v ===== *)
(** The virtual memory of the x86 platform, [abstract-machine/am/src/x86/qemu/vme.c].

    The page tables are in the memory of the machine, which the model keeps by words; the
    allocator of pages is the one that the caller of [vme_init] passes in, a class of
    operations here ([PageOps]), with what the code relies on in a second class ([Pager]).
    [translate] is what the processor does with the tables. *)

From S2P Require Import Prelude.

(** * Constants *)

Definition PTE_P : Z := 0x001.
Definition PTE_W : Z := 0x002.
Definition PTE_U : Z := 0x004.
Definition FL_IF : Z := 0x00000200.
Definition DPL_USER : Z := 0x3.
Definition USEL (seg : Z) : Z := Z.lor (Z.shiftl seg 3) DPL_USER.
Definition SEG_UCODE : Z := 3.
Definition SEG_UDATA : Z := 4.
Definition CR0_PG : Z := 0x80000000.
Definition PML4_ADDR : Z := 0x1000.
Definition MMAP_NONE : Z := 0.
Definition MMAP_WRITE : Z := 2.

Record ptinfo : Type := mkPtinfo { mask : Z; shift : Z; bits : Z }.
Record Area : Type := mkArea { start : Z; end_ : Z }.
Record vm_area : Type := mkVma { area : Area; kernel : bool }.

(** What [__x86_64__] decides. *)
Class Mmu : Type := { x86_64 : bool; sizeof_uintptr : Z; pgtables : list ptinfo; vm_areas : list vm_area }.

Definition pgsize : Z := 4096.

Definition mmu64 : Mmu := {|
  x86_64 := true;
  sizeof_uintptr := 8;
  pgtables := [mkPtinfo 0x000000000000 0 0; mkPtinfo 0xff8000000000 39 9; mkPtinfo 0x007fc0000000 30 9;
               mkPtinfo 0x00003fe00000 21 9; mkPtinfo 0x0000001ff000 12 9];
  vm_areas := [mkVma (mkArea 0x100000000000 0x108000000000) false; mkVma (mkArea 0x000000000000 0x008000000000) true];
|}.

Definition mmu32 : Mmu := {|
  x86_64 := false;
  sizeof_uintptr := 4;
  pgtables := [mkPtinfo 0x00000000 0 0; mkPtinfo 0xffc00000 22 10; mkPtinfo 0x003ff000 12 10];
  vm_areas := [mkVma (mkArea 0x40000000 0x80000000) false; mkVma (mkArea 0x00000000 0x40000000) true;
               mkVma (mkArea 0xfd000000 0x00000000) true];
|}.

(** * The state *)

(** The callbacks: they keep a state of their own and may use the free pages. *)
Class PageOps : Type := {
  pages_st : Type;
  pgalloc : Z -> pages_st * (Z -> Z) -> Z * (pages_st * (Z -> Z));
  pgfree : Z -> pages_st * (Z -> Z) -> pages_st * (Z -> Z);
}.

Section Vme.
Context `{MMU : Mmu} `{PO : PageOps}.

(** [mem a] is the word at the aligned address [a]. *)
Record vm : Type := mkVm { mem : Z -> Z; pool : pages_st; kpt : Z; cr3 : Z; cr0 : Z }.
#[global] Instance eta_vm : Eta vm := fun x => mkVm (mem x) (pool x) (kpt x) (cr3 x) (cr0 x).

Definition word_bits : Z := 8 * sizeof_uintptr.
Definition uvm_area : Area := match vm_areas with v :: _ => area v | [] => mkArea 0 0 end.

Definition panic_on (cond : bool) (s : string) : M vm unit := if cond then panic s else mret tt.
Definition load (a : Z) : M vm Z := gets (fun s => mem s a).
Definition store (a v : Z) : M vm unit := modify (fun s => s <| mem := fun x => if x =? a then v else mem s x |>).

(** [&pt[i]]. *)
Definition slot (pt i : Z) : Z := pt + i * sizeof_uintptr.
(** A bit of an entry as a truth value. *)
Definition flag (e b : Z) : bool := negb (Z.land e b =? 0).

Definition call_pgalloc (size : Z) : M vm Z := fun s =>
  let '(p, (st, m)) := pgalloc size (pool s, mem s) in Ok (p, s <| pool := st |> <| mem := m |>).
Definition call_pgfree (p : Z) : M vm unit := fun s =>
  let '(st, m) := pgfree p (pool s, mem s) in Ok (tt, s <| pool := st |> <| mem := m |>).

(** * The operations *)

(** The loop of [pgallocz], with [n] words left. *)
Fixpoint clear_words (base : Z) (n : nat) (i : Z) : M vm unit :=
  match n with
  | O => mret tt
  | S n => store (slot base i) 0 ≫= fun _ => clear_words base n (i + 1)
  end.

Definition pgallocz : M vm Z :=
  base ← call_pgalloc pgsize;
  panic_on (base =? 0) "cannot allocate page" ≫= fun _ =>
  clear_words base (Z.to_nat (pgsize / sizeof_uintptr)) 0 ≫= fun _ =>
  mret base.

Definition indexof (addr : Z) (info : ptinfo) : Z := Z.shiftr (Z.land addr (mask info)) (shift info).
Definition baseof (addr : Z) : Z := Z.land addr (Z.lnot (pgsize - 1)).

(** The loop of [ptwalk]; the last element of the list is level [ptlevels]. *)
Fixpoint ptwalk_loop (infos : list ptinfo) (cur addr flags : Z) : M vm Z :=
  match infos with
  | [] => panic "internal error (likely a bug in AM)"
  | info :: rest =>
      let pte := slot cur (indexof addr info) in
      match rest with
      | [] => mret pte
      | _ =>
          e ← load pte;
          if negb (flag e PTE_P) then
            next_page ← pgallocz;
            store pte (Z.lor (Z.lor next_page PTE_P) flags) ≫= fun _ =>
            ptwalk_loop rest next_page addr flags
          else ptwalk_loop rest (baseof e) addr flags
      end
  end.

(** [asp] is [&as->ptr]. *)
Definition ptwalk (asp addr flags : Z) : M vm Z := ptwalk_loop pgtables asp addr flags.

(** [for (int index = i; index < i + n; index++)]. *)
Fixpoint for_range (n : nat) (i : Z) (f : Z -> M vm unit) : M vm unit :=
  match n with O => mret tt | S n => f i ≫= fun _ => for_range n (i + 1) f end.

(** [level] counts from 0; past [ptlevels] there is nothing to do. *)
Fixpoint teardown_from (infos : list ptinfo) (level : nat) (pt : Z) : M vm unit :=
  match infos with
  | [] => mret tt
  | info :: rest =>
      for_range (Z.to_nat (Z.shiftl 1 (bits info))) 0 (fun index =>
        e ← load (slot pt index);
        when (flag e PTE_P && flag e PTE_U) (teardown_from rest (S level) (baseof e))) ≫= fun _ =>
      when (1 <=? level)%nat (call_pgfree pt)
  end.
Definition teardown (level : nat) (pt : Z) : M vm unit := teardown_from (drop level pgtables) level pt.

(** [for (cur = start; cur != end; cur += step)]; [n] bounds the rounds. *)
Fixpoint area_loop (n : nat) (cur last step : Z) (f : Z -> M vm unit) : M vm unit :=
  if cur =? last then mret tt
  else match n with
  | O => undef "endless loop"
  | S n => f cur ≫= fun _ => area_loop n (wrap word_bits (cur + step)) last step f
  end.

Definition for_kernel_areas (fuel : nat) (step : Z) (f : Z -> M vm unit) : M vm unit :=
  foldr (fun vma next => when (kernel vma) (area_loop fuel (start (area vma)) (end_ (area vma)) step f) ≫= fun _ => next)
    (mret tt) vm_areas.

(** [asp] is the address of the pointer in the local [as]; [cpu] is [cpu_current()]. *)
Definition vme_init (cpu asp : Z) : M vm bool :=
  panic_on (negb (cpu =? 0)) "init VME in non-bootstrap CPU" ≫= fun _ =>
  (if x86_64 then modify (fun s => s <| kpt := PML4_ADDR |>)
   else
     store asp 0 ≫= fun _ =>
     for_kernel_areas (Z.to_nat (2 ^ 20)) pgsize (fun cur =>
       pte ← ptwalk asp cur PTE_W;
       store pte (Z.lor (Z.lor cur PTE_P) PTE_W)) ≫= fun _ =>
     p ← load asp;
     modify (fun s => s <| kpt := baseof p |>)) ≫= fun _ =>
  modify (fun s => s <| cr3 := kpt s |>) ≫= fun _ =>
  modify (fun s => s <| cr0 := Z.lor (cr0 s) CR0_PG |>) ≫= fun _ =>
  mret true.

(** The fields of an address space in memory. *)
Definition as_pgsize (as_ : Z) : Z := slot as_ 0.
Definition as_start (as_ : Z) : Z := slot as_ 1.
Definition as_end (as_ : Z) : Z := slot as_ 2.
Definition as_ptr (as_ : Z) : Z := slot as_ 3.

Definition level1 : ptinfo := nth 1 pgtables (mkPtinfo 0 0 0).

Definition protect (as_ : Z) : M vm unit :=
  upt ← pgallocz;
  for_kernel_areas (Z.to_nat (2 ^ bits level1)) (Z.shiftl 1 (shift level1)) (fun cur =>
    let index := indexof cur level1 in
    k ← gets kpt;
    e ← load (slot k index);
    store (slot upt index) e) ≫= fun _ =>
  store (as_pgsize as_) pgsize ≫= fun _ =>
  store (as_start as_) (start uvm_area) ≫= fun _ =>
  store (as_end as_) (end_ uvm_area) ≫= fun _ =>
  store (as_ptr as_) (Z.lor (Z.lor upt PTE_P) PTE_U).

Definition unprotect (as_ : Z) : M vm unit := teardown 0 (as_ptr as_).

Definition IN_RANGE (p : Z) (a : Area) : bool := (start a <=? p) && (p <? end_ a).
Definition ROUNDDOWN (a sz : Z) : Z := Z.land a (Z.lnot (sz - 1)).

Definition map (as_ va pa prot : Z) : M vm unit :=
  panic_on (negb (IN_RANGE va uvm_area)) "mapping an invalid address" ≫= fun _ =>
  panic_on (negb (va =? ROUNDDOWN va pgsize) || negb (pa =? ROUNDDOWN pa pgsize)) "non-page-boundary address" ≫= fun _ =>
  ptentry ← ptwalk (as_ptr as_) va (Z.lor PTE_W PTE_U);
  e ← load ptentry;
  (if prot =? MMAP_NONE then
     panic_on (negb (flag e PTE_P)) "unmapping a non-mapped page" ≫= fun _ =>
     store ptentry 0
   else
     panic_on (flag e PTE_P) "remapping a mapped page" ≫= fun _ =>
     let pte := Z.lor (Z.lor (Z.lor pa PTE_P) PTE_U) (if flag prot MMAP_WRITE then PTE_W else 0) in
     store ptentry pte) ≫= fun _ =>
  ptwalk (as_ptr as_) va (Z.lor PTE_W PTE_U) ≫= fun _ =>
  mret tt.


(** The words of a [Context], [cr3] first; every field has the size of a pointer. *)
Definition Context_words : Z := if x86_64 then 22 else 15.

Definition ucontext (as_ kstack_end entry : Z) : M vm Z :=
  let ctx := kstack_end - Context_words * sizeof_uintptr in
  clear_words ctx (Z.to_nat Context_words) 0 ≫= fun _ =>
  (if x86_64 then
     store (slot ctx 17) (USEL SEG_UCODE) ≫= fun _ =>          (* cs *)
     store (slot ctx 20) (USEL SEG_UDATA) ≫= fun _ =>          (* ss *)
     store (slot ctx 16) entry ≫= fun _ =>                     (* rip *)
     store (slot ctx 18) FL_IF ≫= fun _ =>                     (* rflags *)
     store (slot ctx 19) (end_ uvm_area) ≫= fun _ =>           (* rsp *)
     store (slot ctx 21) kstack_end                             (* rsp0 *)
   else
     store (slot ctx 11) (USEL SEG_UCODE) ≫= fun _ =>          (* cs *)
     store (slot ctx 1) (USEL SEG_UDATA) ≫= fun _ =>           (* ds *)
     store (slot ctx 14) (USEL SEG_UDATA) ≫= fun _ =>          (* ss3 *)
     store (slot ctx 10) entry ≫= fun _ =>                     (* eip *)
     store (slot ctx 12) FL_IF ≫= fun _ =>                     (* eflags *)
     store (slot ctx 13) (end_ uvm_area) ≫= fun _ =>           (* esp *)
     store (slot ctx 6) kstack_end) ≫= fun _ =>                (* esp0 *)
  p ← load (as_ptr as_);
  store (slot ctx 0) p ≫= fun _ =>
  mret ctx.

End Vme.
