(* ===== verification/X86VmeTree.v ===== *)
(** The page tables of [X86Vme] as a tree: what the processor reads from them, what the
    allocator of pages promises, and the tree that the tables of an address space are. *)

From S2P Require Import Prelude X86Vme.

(** * The processor *)

Section Hardware.
Context `{MMU : Mmu}.

(** Bits of a virtual address that index the tables, from the root on (Intel SDM 3A, 4.3 and 4.5). *)
Definition hw_shifts : list Z := if x86_64 then [39; 30; 21; 12] else [22; 12].
Definition hw_bits : Z := if x86_64 then 9 else 10.

(** The physical address, and whether the program of the user may write or access it. A
    set bit 7 above the last level is a large page. *)
Fixpoint hw_walk (shifts : list Z) (m : Z -> Z) (table va : Z) (w u : bool) : option (Z * bool * bool) :=
  match shifts with
  | [] => Some (table + va mod 4096, w, u)
  | sh :: rest =>
      let e := m (table + va / 2 ^ sh mod 2 ^ hw_bits * sizeof_uintptr) in
      if Z.testbit e 0 then
        let w := w && Z.testbit e 1 in
        let u := u && Z.testbit e 2 in
        if Z.testbit e 7 && (12 <? sh) then Some (e / 2 ^ sh * 2 ^ sh + va mod 2 ^ sh, w, u)
        else hw_walk rest m (e / 4096 * 4096) va w u
      else None
  end.

Definition translate (m : Z -> Z) (cr3 va : Z) : option (Z * bool * bool) := hw_walk hw_shifts m (cr3 / 4096 * 4096) va true true.
End Hardware.

(** * The allocator *)

Definition in_page (q a : Z) : Prop := q <= a < q + pgsize.
Definition is_page `{Mmu} (q : Z) : Prop := 0 < q /\ q mod pgsize = 0 /\ q + pgsize <= 2 ^ word_bits.

(** The words of the free pages belong to the allocator, and the rest of the memory does not. *)
Class Pager `{Mmu} (PO : PageOps) : Type := {
  owned : pages_st -> gset Z;
  region : Z -> bool;
  capacity : nat;
  free (st : pages_st) (a : Z) : Prop := region a = true /\ baseof a ∉ owned st;
  owned_region : forall st q a, q ∈ owned st -> in_page q a -> region a = true;
  alloc_spec : forall st m p st' m', pgalloc pgsize (st, m) = (p, (st', m')) ->
    (forall a, ~ free st a -> m' a = m a) /\
    ((size (owned st) < capacity)%nat -> p <> 0) /\
    (p <> 0 -> is_page p /\ p ∉ owned st /\ owned st' = {[p]} ∪ owned st);
  free_spec : forall st m p st' m', p ∈ owned st -> pgfree p (st, m) = (st', m') ->
    owned st' = owned st ∖ {[p]} /\ (forall a, ~ free st' a -> m' a = m a);
}.

(** * Pages and slots *)

(** The two layouts are made of levels of equal size. *)
Class MmuOk (MMU : Mmu) : Type := {
  IB : Z;
  levels : nat;
  level_info (k : nat) : ptinfo := mkPtinfo (Z.shiftl (Z.ones IB) (12 + IB * Z.of_nat k)) (12 + IB * Z.of_nat k) IB;
  mo_ib : 0 < IB;
  mo_levels : (0 < levels)%nat;
  mo_size : sizeof_uintptr * 2 ^ IB = pgsize;
  mo_hw : hw_bits = IB;
  mo_tables : pgtables = mkPtinfo 0 0 0 :: List.map level_info (rev (List.seq 0 levels));
  mo_shifts : hw_shifts = List.map (fun k => 12 + IB * Z.of_nat k) (rev (List.seq 0 levels));
  mo_width : word_bits = 8 * sizeof_uintptr /\ 12 + IB * Z.of_nat levels <= word_bits;
}.

Definition mmu32_ok : MmuOk mmu32.
Proof. refine {| IB := 10; levels := 2 |}; first [lia | by vm_compute | split; by vm_compute]. Defined.
Definition mmu64_ok : MmuOk mmu64.
Proof. refine {| IB := 9; levels := 4 |}; first [lia | by vm_compute | split; by vm_compute]. Defined.


Section Slots.
Context `{MO : MmuOk}.

Lemma size_pos : 0 < sizeof_uintptr.
Proof.
  pose proof mo_size as H1. pose proof mo_ib as H2. assert (0 < 2 ^ IB) by (apply Z.pow_pos_nonneg; lia). unfold pgsize in H1. nia.
Qed.

Lemma baseof_eq a : baseof a = a / pgsize * pgsize.
Proof.
  unfold baseof, pgsize. change (4096 - 1) with (Z.ones 12). rewrite <- Z.ldiff_land, Z.ldiff_ones_r by lia.
  by rewrite Z.shiftl_mul_pow2, Z.shiftr_div_pow2 by lia.
Qed.

Lemma baseof_page q a : q mod pgsize = 0 -> in_page q a -> baseof a = q.
Proof. rewrite baseof_eq. unfold in_page, pgsize. intros. dlia. Qed.

Lemma page_eq q q' a : q mod pgsize = 0 -> q' mod pgsize = 0 -> in_page q a -> in_page q' a -> q = q'.
Proof. intros H1 H2 H3 H4. rewrite <- (baseof_page q a), <- (baseof_page q' a) by done. done. Qed.

(** An entry made of a page and flags. *)
Lemma lor_flags q f : q mod pgsize = 0 -> 0 <= f < pgsize -> Z.lor q f = q + f.
Proof.
  unfold pgsize. intros Hq Hf. rewrite (Z.div_mod q 4096) by lia. rewrite Hq, Z.add_0_r, Z.mul_comm.
  apply (lor_add _ _ 12); lia.
Qed.

Lemma baseof_flags q f : q mod pgsize = 0 -> 0 <= f < pgsize -> baseof (Z.lor q f) = q.
Proof. intros. rewrite lor_flags by done. apply baseof_page; unfold in_page; lia. Qed.

Lemma flags_bits q f k : q mod pgsize = 0 -> 0 <= f < pgsize -> 0 <= k < 12 -> Z.testbit (Z.lor q f) k = Z.testbit f k.
Proof.
  intros Hq Hf Hk. rewrite Z.lor_spec. replace (Z.testbit q k) with false; [done|]. symmetry.
  rewrite <- (Z.mod_pow2_bits_low q 12) by lia. change (2 ^ 12) with pgsize. by rewrite Hq, Z.bits_0.
Qed.

Lemma flag_bit e k : 0 <= k -> flag e (2 ^ k) = Z.testbit e k.
Proof.
  intros Hk. unfold flag. destruct (Z.testbit e k) eqn:E.
  - apply negb_true_iff, Z.eqb_neq. intros H. apply (f_equal (fun z => Z.testbit z k)) in H.
    rewrite Z.land_spec, E, Z.pow2_bits_true, Z.bits_0 in H by done. done.
  - apply negb_false_iff, Z.eqb_eq, Z.bits_inj'. intros j Hj. rewrite Z.land_spec, Z.bits_0, Z.pow2_bits_eqb by done.
    destruct (Z.eqb_spec k j) as [<-|]; [by rewrite E|apply andb_false_r].
Qed.

Lemma flag_0 b : flag 0 b = false.
Proof. done. Qed.

Lemma slot_page q i : 0 <= i < 2 ^ IB -> in_page q (slot q i).
Proof. pose proof size_pos. pose proof mo_size. unfold in_page, slot. nia. Qed.

Lemma slot_inj q i j : slot q i = slot q j -> i = j.
Proof. pose proof size_pos. unfold slot. nia. Qed.

(** The index at a level is a digit of the address. *)
Definition digit (va : Z) (k : nat) : Z := va / 2 ^ (12 + IB * Z.of_nat k) mod 2 ^ IB.

Lemma indexof_digit va k : indexof va (level_info k) = digit va k.
Proof.
  pose proof mo_ib. unfold indexof, digit, level_info. cbn [mask shift]. rewrite Z.shiftr_land, Z.shiftr_shiftl_l by lia.
  by rewrite Z.sub_diag, Z.shiftl_0_r, Z.land_ones, Z.shiftr_div_pow2 by lia.
Qed.

Lemma digit_range va k : 0 <= digit va k < 2 ^ IB.
Proof. pose proof mo_ib. apply Z.mod_pos_bound, Z.pow_pos_nonneg; lia. Qed.
End Slots.

(** * The tree of an address space *)

Section Tree.
Context `{MO : MmuOk}.

(** The paths of indices that a tree serves: one root, then the entries [lo] to [hi - 1] of
    the root table, then any. *)
Variables (lo hi : Z).
Hypotheses (Hlo : 0 <= lo) (Hhi : hi <= 2 ^ IB).

Definition fits (k : nat) (i : Z) : Prop :=
  match k with O => i = 0 | 1%nat => lo <= i < hi | _ => 0 <= i < 2 ^ IB end.
Definition ok (p : list Z) : Prop := (length p <= S levels)%nat /\ forall k i, p !! k = Some i -> fits k i.

(** Flags of the entry for the root table and of the entries between tables. *)
Variables (fl0 fl1 : Z).
Definition fl (p : list Z) : Z := if (length p =? 1)%nat then fl0 else fl1.
Definition link (f : Z) : Prop := 0 <= f < 128 /\ Z.testbit f 0 = true.
Hypotheses (Hf0 : link fl0) (Hf1 : link fl1).

(** [T] gives the table at the end of each path; the root pointer is the table of no indices. *)
Record tree (m : Z -> Z) (asp : Z) (T : gmap (list Z) Z) : Prop := mkTree {
  t_root : T !! [] = Some asp;
  t_path : forall p q, T !! p = Some q -> p <> [] -> ok p /\ (length p <= levels)%nat /\ is_page q /\ ~ in_page q asp;
  t_entry : forall p q i, T !! p = Some q -> ok (p ++ [i]) -> (length p < levels)%nat ->
    m (slot q i) = match T !! (p ++ [i]) with Some c => Z.lor c (fl (p ++ [i])) | None => 0 end;
  t_up : forall p i, is_Some (T !! (p ++ [i])) -> is_Some (T !! p);
  t_inj : forall p p' q, p <> [] -> p' <> [] -> T !! p = Some q -> T !! p' = Some q -> p = p';
}.

Lemma ok_app p q : ok (p ++ q) -> ok p.
Proof. intros [H1 H2]. rewrite length_app in H1. split; [lia|]. intros k i Hk. apply H2. by apply lookup_app_l_Some. Qed.

Lemma ok_last p i : ok (p ++ [i]) -> fits (length p) i.
Proof. intros [_ H]. apply H. by rewrite lookup_app_r, Nat.sub_diag by lia. Qed.

Lemma ok_index p i : ok (p ++ [i]) -> p <> [] -> 0 <= i < 2 ^ IB.
Proof. intros H%ok_last Hp. destruct p as [|x [|y p]]; [done|cbn in H; lia|done]. Qed.

Lemma ok_root i : ok ([] ++ [i]) -> i = 0.
Proof. apply ok_last. Qed.

Lemma slot_0 q : slot q 0 = q.
Proof. unfold slot. lia. Qed.

Lemma snoc_ne {A} (p : list A) i : p ++ [i] <> [].
Proof. by destruct p. Qed.

Section OneTree.
Context {m : Z -> Z} {asp : Z} {T : gmap (list Z) Z} (HT : tree m asp T).

(** The entries of the tables are apart. *)
Lemma slots_apart p p' q q' i i' : T !! p = Some q -> T !! p' = Some q' -> ok (p ++ [i]) -> ok (p' ++ [i']) ->
  slot q i = slot q' i' -> p = p' /\ i = i'.
Proof.
  intros Hp Hp' Ho Ho' E. pose proof (t_root _ _ _ HT) as Hr.
  destruct (decide (p = [])) as [->|Hn], (decide (p' = [])) as [->|Hn'].
  - by rewrite (ok_root _ Ho), (ok_root _ Ho').
  - exfalso. apply (t_path _ _ _ HT) in Hp' as (_ & _ & _ & Hx); [|done]. apply Hx. simplify_eq.
    rewrite (ok_root _ Ho), slot_0 in E. rewrite E. apply slot_page. by apply (ok_index p').
  - exfalso. apply (t_path _ _ _ HT) in Hp as (_ & _ & _ & Hx); [|done]. apply Hx. simplify_eq.
    rewrite (ok_root _ Ho'), slot_0 in E. rewrite <- E. apply slot_page. by apply (ok_index p).
  - pose proof (t_path _ _ _ HT _ _ Hp Hn) as (_ & _ & (_ & Hm & _) & _).
    pose proof (t_path _ _ _ HT _ _ Hp' Hn') as (_ & _ & (_ & Hm' & _) & _).
    assert (q = q') as <-.
    { apply (page_eq q q' (slot q i) Hm Hm'); [|rewrite E]; apply slot_page; [by apply (ok_index p)|by apply (ok_index p')]. }
    split; [by apply (t_inj _ _ _ HT p p' q)|]. by apply slot_inj in E.
Qed.

(** An entry between tables says whether there is a table. *)
Lemma entry_present p q i : T !! p = Some q -> ok (p ++ [i]) -> (length p < levels)%nat ->
  match T !! (p ++ [i]) with
  | Some c => flag (m (slot q i)) PTE_P = true /\ baseof (m (slot q i)) = c
  | None => flag (m (slot q i)) PTE_P = false
  end.
Proof.
  intros Hp Ho Hl. rewrite (t_entry _ _ _ HT p q i Hp Ho Hl). destruct (T !! (p ++ [i])) as [c|] eqn:Ec; [|done].
  pose proof (t_path _ _ _ HT _ _ Ec (snoc_ne p i)) as (_ & _ & (_ & Hm & _) & _).
  assert (link (fl (p ++ [i]))) as [Hf Hb] by (unfold fl; by destruct (_ =? _)%nat). assert (0 <= fl (p ++ [i]) < pgsize) by (unfold pgsize; lia).
  split; [|by apply baseof_flags]. unfold PTE_P. rewrite (flag_bit _ 0), flags_bits by (done || lia). done.
Qed.
End OneTree.

(** Two memories that agree on the entries between tables. *)
Lemma tree_ext m m' asp T : tree m asp T ->
  (forall p q i, T !! p = Some q -> ok (p ++ [i]) -> (length p < levels)%nat -> m' (slot q i) = m (slot q i)) -> tree m' asp T.
Proof. intros [H1 H2 H3 H4 H5] Hm. constructor; try done. intros p q i Hp Ho Hl. rewrite (Hm p) by done. by apply H3. Qed.

(** The entry of the last level at the end of the path [p ++ [i]]; 0 without a table. *)
Definition leaf (m : Z -> Z) (T : gmap (list Z) Z) (p : list Z) (i : Z) : Z :=
  match T !! p with Some q => m (slot q i) | None => 0 end.

(** A new table [c] below [p]. *)
Lemma tree_grow m m' asp T p q i c : tree m asp T -> T !! p = Some q -> ok (p ++ [i]) -> (length p < levels)%nat ->
  T !! (p ++ [i]) = None -> is_page c -> ~ in_page c asp -> (forall p' q', p' <> [] -> T !! p' = Some q' -> q' <> c) ->
  m' (slot q i) = Z.lor c (fl (p ++ [i])) -> (forall j, 0 <= j < 2 ^ IB -> m' (slot c j) = 0) ->
  (forall p' q' i', T !! p' = Some q' -> ok (p' ++ [i']) -> p' <> p \/ i' <> i -> m' (slot q' i') = m (slot q' i')) ->
  tree m' asp (<[p ++ [i] := c]> T) /\
  forall p' i', length p' = levels -> ok (p' ++ [i']) -> leaf m' (<[p ++ [i] := c]> T) p' i' = leaf m T p' i'.
Proof.
  intros HT Hp Ho Hl Hno Hc Hasp Hnew Hi Hz Hk. pose proof HT as [H1 H2 H3 H4 H5]. split; [constructor|].
  - rewrite lookup_insert_ne by apply snoc_ne. done.
  - intros p' q' [[<- <-]|[Hn Hp']]%lookup_insert_Some Hne; [|by apply H2]. rewrite length_app. cbn. split_and!; try done; try apply Hc. lia.
  - intros p' q' i' [[<- <-]|[Hn Hp']]%lookup_insert_Some Ho' Hl'.
    + rewrite Hz by (apply (ok_index (p ++ [i])); [done|apply snoc_ne]).
      rewrite lookup_insert_ne by (intros E%(f_equal length); rewrite !length_app in E; cbn in E; lia).
      destruct (T !! ((p ++ [i]) ++ [i'])) eqn:E; [|done]. destruct (H4 (p ++ [i]) i') as [? ?]; [by rewrite E|congruence].
    + destruct (decide (p' = p /\ i' = i)) as [[-> ->]|Hd].
      * rewrite lookup_insert_eq. by simplify_eq.
      * rewrite lookup_insert_ne by (intros [-> [= ->]]%app_inj_2; [by apply Hd|done]). rewrite (Hk p') by (done || by apply not_and_l in Hd). by apply H3.
  - intros p' i' [c' [[E <-]|[Hn Hp']]%lookup_insert_Some]; apply lookup_insert_is_Some'; right.
    + apply app_inj_2 in E as [-> _]; [|done]. by rewrite Hp.
    + by apply (H4 p' i').
  - intros p1 p2 q' Hn1 Hn2 [[<- <-]|[Hd1 Hp1]]%lookup_insert_Some [[<- E]|[Hd2 Hp2]]%lookup_insert_Some; subst; try done.
    + by destruct (Hnew _ _ Hn2 Hp2).
    + by destruct (Hnew _ _ Hn1 Hp1).
    + by apply (H5 _ _ q').
  - intros p' i' Hl' Ho'. unfold leaf. destruct (decide (p' = p ++ [i])) as [->|Hn].
    + rewrite lookup_insert_eq, Hno. apply Hz. apply (ok_index (p ++ [i])); [done|apply snoc_ne].
    + rewrite lookup_insert_ne by done. destruct (T !! p') as [q'|] eqn:E; [|done]. apply (Hk p'); [done|done|]. left. intros ->. lia.
Qed.

(** A store to an entry of the last level. *)
Lemma tree_leaf m m' asp T p q i v : tree m asp T -> T !! p = Some q -> ok (p ++ [i]) -> length p = levels -> m' (slot q i) = v ->
  (forall a, a <> slot q i -> m' a = m a) ->
  tree m' asp T /\
  forall p' i', length p' = levels -> ok (p' ++ [i']) ->
    leaf m' T p' i' = if bool_decide (p' = p /\ i' = i) then v else leaf m T p' i'.
Proof.
  intros HT Hp Ho Hl Hv Hk. split.
  - apply (tree_ext m); [done|]. intros p' q' i' Hp' Ho' Hl'. apply Hk. intros E.
    destruct (slots_apart HT p' p q' q i' i) as [-> _]; try done. lia.
  - intros p' i' Hl' Ho'. unfold leaf. case_bool_decide as Hd; [destruct Hd as [-> ->]; by rewrite Hp|].
    destruct (T !! p') as [q'|] eqn:E; [|done]. apply Hk. intros Es. apply Hd. by apply (slots_apart HT p' p q' q i' i).
Qed.
End Tree.
