(* ===== verification/X86VmeWalk.v ===== *)
(** The operations of [X86Vme] on the tree of an address space: allocation of a table,
    [ptwalk], and the translation that the processor makes of the tree. *)

From S2P Require Import Prelude X86Vme X86VmeTree.

Section Walk.
Context `{MO : MmuOk} `{PG : Pager (H := MMU) (PO := PO)}.

(** * Allocation *)

(** Out of pages, with at least [k] of them asked for. *)
Definition oom (s : vm) (k : nat) (e : abort) : Prop :=
  e = APanic "cannot allocate page" /\ (capacity < size (owned (pool s)) + k)%nat.

Lemma oom_le s k k' e : oom s k e -> (k <= k')%nat -> oom s k' e.
Proof. intros [-> H] Hk. split; [done|lia]. Qed.

(** The registers and globals other than the memory and the pool. *)
Definition same_regs (s s' : vm) : Prop := kpt s' = kpt s /\ cr3 s' = cr3 s /\ cr0 s' = cr0 s.

Lemma clear_words_spec base n : forall i s, 0 <= i -> exists s', clear_words base n i s = Ok (tt, s') /\ pool s' = pool s /\ same_regs s s' /\
  (forall j, i <= j < i + Z.of_nat n -> mem s' (slot base j) = 0) /\
  (forall a, (forall j, i <= j < i + Z.of_nat n -> a <> slot base j) -> mem s' a = mem s a).
Proof.
  induction n as [|n IH]; intros i s Hi; cbn [clear_words].
  { exists s. split_and!; try done. intros. lia. }
  destruct (IH (i + 1) (s <| mem := fun x => if x =? slot base i then 0 else mem s x |>)) as (s' & E & H1 & H2 & H3 & H4); [lia|].
  exists s'. split; [exact E|]. split; [exact H1|]. split; [exact H2|]. split.
  - intros j Hj. destruct (decide (j = i)) as [->|]; [|apply H3; lia].
    rewrite H4; [cbn; by rewrite Z.eqb_refl|]. intros k Hk Es. apply slot_inj in Es. lia.
  - intros a Ha. rewrite H4 by (intros j Hj; apply Ha; lia). cbn. rewrite (proj2 (Z.eqb_neq _ _)); [done|]. apply Ha. lia.
Qed.

Lemma page_words : Z.of_nat (Z.to_nat (pgsize / sizeof_uintptr)) = 2 ^ IB.
Proof.
  pose proof size_pos. pose proof mo_size as E. assert (0 < 2 ^ IB) by (apply Z.pow_pos_nonneg; pose proof mo_ib; lia).
  rewrite <- E, Z.mul_comm, Z.div_mul by lia. lia.
Qed.

Lemma fresh_free st p i : p mod pgsize = 0 -> p ∉ owned st -> 0 <= i < 2 ^ IB -> region (slot p i) = true -> free st (slot p i).
Proof. intros Hp Ho Hi Hr. split; [done|]. by rewrite (baseof_page p _ Hp) by (by apply slot_page). Qed.

(** [pgallocz] takes a page that nobody has and clears it. *)
Lemma pgallocz_spec s :
  match pgallocz s with
  | Ok (p, s') => is_page p /\ p ∉ owned (pool s) /\ owned (pool s') = {[p]} ∪ owned (pool s) /\ same_regs s s' /\
      (forall j, 0 <= j < 2 ^ IB -> mem s' (slot p j) = 0) /\ (forall a, ~ free (pool s) a -> mem s' a = mem s a)
  | Abort e => oom s 1 e
  end.
Proof.
  unfold pgallocz, mbind, M_bind, call_pgalloc. destruct (pgalloc pgsize (pool s, mem s)) as [p [st m]] eqn:Ea.
  destruct (alloc_spec _ _ _ _ _ Ea) as (A1 & A2 & A3). unfold panic_on. destruct (Z.eqb_spec p 0) as [->|Hp].
  { split; [done|]. destruct (decide (size (owned (pool s)) < capacity)%nat) as [H|H]; [exfalso; by apply (A2 H)|lia]. }
  destruct (A3 Hp) as (P1 & P2 & P3). cbn.
  destruct (clear_words_spec p (Z.to_nat (pgsize / sizeof_uintptr)) 0 (s <| pool := st |> <| mem := m |>)) as (s' & E & H1 & H2 & H3 & H4); [lia|].
  cbn in E. rewrite E. rewrite page_words in H3, H4. split; [exact P1|]. split; [exact P2|].
  split; [by rewrite H1|]. split; [exact H2|]. split.
  - intros j Hj. apply H3. lia.
  - intros a Ha. rewrite H4; [by apply A1|]. intros j Hj ->. apply Ha. destruct P1 as (_ & P1 & _). apply fresh_free; try done.
    apply (owned_region st p); [set_solver|]. by apply slot_page.
Qed.

(** * Trees in a state *)

Variables (lo hi : Z) (fl0 flags : Z).
Definition fl1 : Z := Z.lor PTE_P flags.
Hypotheses (Hlo : 0 <= lo) (Hhi : hi <= 2 ^ IB) (Hf0 : link fl0) (Hf1 : link fl1).

Local Abbreviation ok := (ok lo hi).
Local Abbreviation tree := (tree lo hi fl0 fl1).
Local Abbreviation fl := (fl fl0 fl1).

Record holds (s : vm) (asp : Z) (T : gmap (list Z) Z) : Prop := mkHolds {
  h_tree : tree (mem s) asp T;
  h_owned : forall p q, p <> [] -> T !! p = Some q -> q ∈ owned (pool s);
  h_asp : region asp = false;
}.

Lemma slot_not_free s asp T p q i : holds s asp T -> T !! p = Some q -> ok (p ++ [i]) -> ~ free (pool s) (slot q i).
Proof.
  intros [Ht Ho Ha] Hp Hi [F1 F2]. destruct (decide (p = [])) as [->|Hn].
  - rewrite (t_root _ _ _ _ _ _ _ Ht) in Hp. simplify_eq. rewrite (ok_root lo hi _ Hi), slot_0 in F1. congruence.
  - apply F2. pose proof (t_path _ _ _ _ _ _ _ Ht _ _ Hp Hn) as (_ & _ & (_ & Hm & _) & _).
    rewrite (baseof_page q) by (try apply slot_page; try apply (ok_index lo hi Hlo Hhi p); done). by apply (Ho p).
Qed.

(** A tree that has grown: new tables only, no entry of the last level changed, and no word
    outside the tree. *)
Record grows (s : vm) (T : gmap (list Z) Z) (s' : vm) (T' : gmap (list Z) Z) : Prop := mkGrows {
  g_sub : T ⊆ T';
  g_owned : owned (pool s) ⊆ owned (pool s');
  g_new : forall p q, T' !! p = Some q -> T !! p = Some q \/ p <> [] /\ is_page q /\ q ∉ owned (pool s) /\ q ∈ owned (pool s');
  g_pages : forall q, q ∈ owned (pool s') -> q ∈ owned (pool s) \/ exists p, T' !! p = Some q;
  g_leaf : forall p i, length p = levels -> ok (p ++ [i]) -> leaf (mem s') T' p i = leaf (mem s) T p i;
  g_frame : forall a, ~ free (pool s) a -> (forall p q i, T !! p = Some q -> ok (p ++ [i]) -> a <> slot q i) -> mem s' a = mem s a;
  g_regs : same_regs s s';
}.

Lemma grows_refl s T : grows s T s T.
Proof. constructor; try done; intros; auto. Qed.

Lemma grows_trans s T s1 T1 s2 T2 : grows s T s1 T1 -> grows s1 T1 s2 T2 -> grows s T s2 T2.
Proof.
  intros [A1 A2 A3 A4 A5 A6 A7] [B1 B2 B3 B4 B5 B6 B7]. constructor.
  - by transitivity T1.
  - set_solver.
  - intros p q [H|(H1 & H2 & H3 & H4)]%B3; [|right; split_and!; set_solver].
    apply A3 in H as [H|(H1 & H2 & H3 & H4)]; [by left|right; split_and!; set_solver].
  - intros q [H|H]%B4; [|by right]. apply A4 in H as [H|[p H]]; [by left|right]. exists p. by apply (lookup_weaken _ T2) in H.
  - intros p i Hl Ho. by rewrite B5, A5 by done.
  - intros a Hf Hs. rewrite B6; [by apply A6| |].
    + intros [F1 F2]. apply Hf. split; [done|]. set_solver.
    + intros p q i Hp Ho. apply A3 in Hp as [Hp|(N1 & (_ & N2 & _) & N3 & N4)]; [by apply (Hs p)|]. intros ->. apply Hf.
      pose proof (ok_index lo hi Hlo Hhi p i Ho N1) as Hi. apply fresh_free; try done.
      apply (owned_region (pool s1) q); [done|]. by apply slot_page.
  - destruct A7 as (? & ? & ?), B7 as (? & ? & ?). split_and!; congruence.
Qed.

(** A new table below [p]. *)
Lemma holds_grow s asp T p q i : holds s asp T -> T !! p = Some q -> ok (p ++ [i]) -> (length p < levels)%nat ->
  T !! (p ++ [i]) = None -> fl (p ++ [i]) = fl1 ->
  match (next_page ← pgallocz; store (slot q i) (Z.lor (Z.lor next_page PTE_P) flags) ≫= fun _ => mret next_page) s with
  | Ok (c, s') => let T' := <[p ++ [i] := c]> T in
      holds s' asp T' /\ grows s T s' T' /\ size (owned (pool s')) = S (size (owned (pool s)))
  | Abort e => oom s 1 e
  end.
Proof.
  intros Hh Hp Ho Hl Hn Hfl. pose proof (pgallocz_spec s) as Hs. destruct (pgallocz s) as [[c s1]|e] eqn:E; [|by rewrite (bind_abort _ _ _ _ E)].
  rewrite (bind_run _ _ _ _ _ E). destruct Hs as (P1 & P2 & P3 & P4 & P5 & P6). cbn. pose proof Hh as [Ht Hw Ha].
  set (m' := fun x => if x =? slot q i then Z.lor (Z.lor c PTE_P) flags else mem s1 x).
  assert (forall j, 0 <= j < 2 ^ IB -> region (slot c j) = true) as Hreg.
  { intros j Hj. apply (owned_region (pool s1) c); [set_solver|]. by apply slot_page. }
  assert (forall j, 0 <= j < 2 ^ IB -> slot c j <> slot q i) as Hne.
  { intros j Hj E'. apply (slot_not_free s asp T p q i Hh Hp Ho). rewrite <- E'. destruct P1 as (_ & P1 & _). apply fresh_free; auto. }
  assert (~ in_page c asp) as Hasp.
  { intros Hi. rewrite (owned_region (pool s1) c asp) in Ha; [done|set_solver|done]. }
  destruct (tree_grow lo hi Hlo Hhi fl0 fl1 (mem s) m' asp T p q i c Ht Hp Ho Hl Hn P1 Hasp) as [G1 G2].
  - intros p' q' Hp' Hq' ->. apply P2. by apply (Hw p').
  - unfold m'. by rewrite Z.eqb_refl, Hfl, <- Z.lor_assoc.
  - intros j Hj. unfold m'. rewrite (proj2 (Z.eqb_neq _ _)) by auto. by apply P5.
  - intros p' q' i' Hp' Ho' Hd. unfold m'. rewrite (proj2 (Z.eqb_neq _ _)); [apply P6; by apply (slot_not_free s asp T p')|].
    intros E'. destruct (slots_apart lo hi Hlo Hhi fl0 fl1 Ht p' p q' q i' i) as [-> ->]; try done. by destruct Hd.
  - split_and!; [constructor|constructor|].
    + exact G1.
    + intros p' q' Hp' [[<- <-]|[_ Hq']]%lookup_insert_Some; cbn; rewrite P3; [set_solver|]. apply (Hw p') in Hq'; [|done]. set_solver.
    + done.
    + by apply insert_subseteq.
    + cbn. rewrite P3. set_solver.
    + intros p' q' [[<- <-]|[_ Hq']]%lookup_insert_Some; [right|by left]. split_and!; try done; [apply snoc_ne|cbn; rewrite P3; set_solver].
    + cbn. intros q'. rewrite P3. intros [->%elem_of_singleton|Hq']%elem_of_union; [right|by left]. exists (p ++ [i]). by rewrite lookup_insert_eq.
    + exact G2.
    + intros a Hf Hs. cbn. rewrite (proj2 (Z.eqb_neq _ _)) by (by apply (Hs p)). by apply P6.
    + exact P4.
    + cbn. rewrite P3, size_union, size_singleton by set_solver. done.
Qed.

(** * [ptwalk] *)

Definition path (va : Z) : list Z := List.map (indexof va) pgtables.

(** The walk ends at the entry of the last level, below tables that are there or are made.
    The flags are those of the tree, unless the root table itself has to be made with others. *)
Lemma ptwalk_loop_spec asp va infos : forall p cur s T, infos <> [] -> holds s asp T -> T !! p = Some cur ->
  ok (p ++ List.map (indexof va) infos) -> (length p + length infos = S levels)%nat -> (p = [] -> is_Some (T !! [0]) \/ fl0 = fl1) ->
  match ptwalk_loop infos cur va flags s with
  | Ok (a, s') => exists T' p' q i, p' ++ [i] = p ++ List.map (indexof va) infos /\ T' !! p' = Some q /\ a = slot q i /\
      holds s' asp T' /\ grows s T s' T' /\ (size (owned (pool s')) < size (owned (pool s)) + length infos)%nat
  | Abort e => oom s (length infos - 1) e
  end.
Proof.
  induction infos as [|info rest IH]; intros p cur s T Hne Hh Hp Ho Hlen Hfl; [done|]. cbn [ptwalk_loop List.map] in *. cbn [length] in Hlen.
  destruct rest as [|info2 rest2].
  { exists T, p, cur, (indexof va info). split_and!; try done; [apply grows_refl|cbn; lia]. }
  set (rest := info2 :: rest2) in *. set (i := indexof va info) in *. rewrite cons_middle, app_assoc in Ho.
  pose proof (ok_app lo hi _ _ Ho) as Hoi. assert (length p < levels)%nat as Hl by (subst rest; cbn in Hlen; lia).
  pose proof (entry_present lo hi fl0 fl1 Hf0 Hf1 (h_tree _ _ _ Hh) p cur i Hp Hoi Hl) as Hent.
  rewrite (bind_run (load (slot cur i)) _ s (mem s (slot cur i)) s eq_refl). destruct (T !! (p ++ [i])) as [c|] eqn:Ec.
  - destruct Hent as [-> ->]. cbn [negb]. specialize (IH (p ++ [i]) c s T ltac:(done) Hh Ec Ho).
    rewrite length_app in IH. cbn [length] in IH.
    specialize (IH ltac:(lia) ltac:(by destruct p)). destruct (ptwalk_loop rest c va flags s) as [[a s']|e].
    + destruct IH as (T' & p' & q & j & E1 & E2 & E3 & E4 & E5 & E6). exists T', p', q, j. rewrite E1, <- app_assoc.
      split_and!; try done. cbn [length]. lia.
    + apply (oom_le _ _ _ _ IH). cbn [length]. lia.
  - rewrite Hent. cbn [negb].
    assert (fl (p ++ [i]) = fl1) as Hfi.
    { unfold X86VmeTree.fl. rewrite length_app. cbn [length]. destruct p; cbn; [|by rewrite Nat.add_comm].
      rewrite (ok_root lo hi _ Hoi) in Ec. destruct (Hfl eq_refl) as [[? H]|H]; [cbn in Ec; congruence|done]. }
    pose proof (holds_grow s asp T p cur i Hh Hp Hoi Hl Ec Hfi) as G.
    destruct (pgallocz s) as [[c s1]|e] eqn:E.
    2: { rewrite !(bind_abort _ _ _ _ E) in *. apply (oom_le _ _ _ _ G). subst rest. cbn [length]. lia. }
    rewrite !(bind_run _ _ _ _ _ E) in *. cbn in G. destruct G as (G1 & G2 & G3). set (s2 := s1 <| mem := _ |>) in *.
    erewrite bind_run by reflexivity. fold s2.
    specialize (IH (p ++ [i]) c s2 (<[p ++ [i] := c]> T) ltac:(done) G1 (lookup_insert_eq _ _ _) Ho).
    rewrite length_app in IH. cbn [length] in IH. specialize (IH ltac:(lia) ltac:(by destruct p)).
    destruct (ptwalk_loop rest c va flags s2) as [[a s']|e].
    + destruct IH as (T' & p' & q & j & E1 & E2 & E3 & E4 & E5 & E6). exists T', p', q, j. rewrite E1, <- app_assoc.
      split_and!; try done; [by apply (grows_trans _ _ s2 (<[p ++ [i] := c]> T))|cbn [length]; lia].
    + destruct IH as [-> IH]. split; [done|]. cbn [length] in *. lia.
Qed.

Lemma length_pgtables : length pgtables = S levels.
Proof. rewrite mo_tables. cbn. by rewrite length_map, length_rev, length_seq. Qed.

Lemma ptwalk_spec asp va s T : holds s asp T -> ok (path va) -> is_Some (T !! [0]) \/ fl0 = fl1 ->
  match ptwalk asp va flags s with
  | Ok (a, s') => exists T' p q i, path va = p ++ [i] /\ T' !! p = Some q /\ a = slot q i /\ holds s' asp T' /\ grows s T s' T' /\
      (size (owned (pool s')) <= size (owned (pool s)) + levels)%nat
  | Abort e => oom s levels e
  end.
Proof.
  intros Hh Ho Hfl. unfold ptwalk. pose proof length_pgtables as Hl.
  pose proof (ptwalk_loop_spec asp va pgtables [] asp s T ltac:(intros E; by rewrite E in Hl) Hh (t_root _ _ _ _ _ _ _ (h_tree _ _ _ Hh)) Ho ltac:(cbn; lia) (fun _ => Hfl)) as H.
  destruct (ptwalk_loop pgtables asp va flags s) as [[a s']|e].
  - destruct H as (T' & p & q & i & E1 & E2 & E3 & E4 & E5 & E6). exists T', p, q, i. split_and!; try done. lia.
  - apply (oom_le _ _ _ _ H). lia.
Qed.

(** * The translation of a tree *)

Definition digits (va : Z) (n : nat) : list Z := List.map (digit va) (rev (List.seq 0 n)).

Lemma path_digits va : path va = 0 :: digits va levels.
Proof.
  unfold path, digits. rewrite mo_tables. cbn [List.map]. f_equal; [unfold indexof; cbn; by rewrite Z.land_0_r|].
  rewrite map_map. apply map_ext. intros k. apply indexof_digit.
Qed.

Lemma digits_S va n : digits va (S n) = digit va n :: digits va n.
Proof. unfold digits. by rewrite List.seq_S, rev_app_distr. Qed.

Lemma tree_none m asp T p l : tree m asp T -> T !! p = None -> T !! (p ++ l) = None.
Proof.
  intros Ht Hp. induction l as [|i l IH] using rev_ind; [by rewrite app_nil_r|]. rewrite app_assoc.
  destruct (T !! ((p ++ l) ++ [i])) eqn:E; [|done]. destruct (t_up _ _ _ _ _ _ _ Ht (p ++ l) i) as [? ?]; [by rewrite E|congruence].
Qed.

(** The entry of the last level decides, as long as its rights are among those of the tables. *)
Definition leaf_translation (e va : Z) (w u : bool) : option (Z * bool * bool) :=
  if Z.testbit e 0 then Some (e / 4096 * 4096 + va mod 4096, w && Z.testbit e 1, u && Z.testbit e 2) else None.
Definition rights (e : Z) : Prop := Z.testbit fl1 1 = true /\ (Z.testbit fl1 2 = true \/ Z.testbit e 2 = false).

Lemma hw_walk_spec m asp T va n : forall p table w u, tree m asp T -> T !! p = Some table -> p <> [] -> (length p + S n = S levels)%nat ->
  ok (p ++ digits va (S n)) ->
  exists p' i, p' ++ [i] = p ++ digits va (S n) /\
    (rights (leaf m T p' i) -> hw_walk (List.map (fun k => 12 + IB * Z.of_nat k) (rev (List.seq 0 (S n)))) m table va w u = leaf_translation (leaf m T p' i) va w u).
Proof.
  induction n as [|n IH]; intros p table w u Ht Hp Hne Hl Ho.
  - exists p, (digit va 0). split; [done|]. intros _. cbn [List.seq rev List.map app hw_walk]. unfold leaf. rewrite Hp.
    change (12 + IB * Z.of_nat 0) with (12 + IB * 0). rewrite Z.mul_0_r, mo_hw, Z.ltb_irrefl, andb_false_r.
    unfold leaf_translation, digit, slot. change (12 + IB * Z.of_nat 0) with (12 + IB * 0). rewrite Z.mul_0_r. done.
  - rewrite (digits_S va (S n)) in Ho |- *. set (d := digit va (S n)) in *. rewrite cons_middle, app_assoc in Ho. pose proof (ok_app lo hi _ _ Ho) as Hod.
    assert (length p < levels)%nat as Hlt by lia. pose proof (t_entry _ _ _ _ _ _ _ Ht p table d Hp Hod Hlt) as He.
    rewrite List.seq_S, rev_app_distr. cbn [rev app List.map hw_walk]. rewrite Nat.add_0_l, mo_hw.
    change (table + va / 2 ^ (12 + IB * Z.of_nat (S n)) mod 2 ^ IB * sizeof_uintptr) with (slot table d). rewrite He.
    destruct (T !! (p ++ [d])) as [c|] eqn:Ec.
    + pose proof (t_path _ _ _ _ _ _ _ Ht _ _ Ec (snoc_ne p d)) as (_ & _ & (_ & Hc & _) & _).
      assert (fl (p ++ [d]) = fl1) as Hfl by (unfold X86VmeTree.fl; rewrite length_app; destruct p; [done|]; cbn; by rewrite Nat.add_comm).
      rewrite Hfl. destruct Hf1 as [Hr Hb]. assert (0 <= fl1 < pgsize) as Hr' by (unfold pgsize; lia).
      rewrite !(flags_bits c fl1) by (done || lia). rewrite Hb, (testbit_above fl1 7 7) by lia. cbn [andb].
      rewrite <- (baseof_eq (Z.lor c fl1) : _ = _ / 4096 * 4096), baseof_flags by done.
      destruct (IH (p ++ [d]) c (w && Z.testbit fl1 1) (u && Z.testbit fl1 2) Ht Ec (snoc_ne p d)) as (p' & i & E1 & E2);
        [rewrite length_app; cbn; lia|done|].
      exists p', i. split; [by rewrite E1, <- app_assoc|]. intros R. rewrite E2 by done. destruct R as [-> R]. rewrite andb_true_r.
      unfold leaf_translation. destruct (Z.testbit _ 0); [|done]. destruct R as [-> | ->]; [by rewrite andb_true_r|by rewrite !andb_false_r].
    + exists (p ++ d :: removelast (digits va (S n))), (List.last (digits va (S n)) 0).
      assert (digits va (S n) <> []) as Hd by (by rewrite digits_S).
      split; [rewrite <- app_assoc; cbn; by rewrite <- app_removelast_last|]. intros _. unfold leaf.
      rewrite cons_middle, app_assoc, (tree_none m asp T _ _ Ht Ec). done.
Qed.

Lemma translate_spec m asp T va : tree m asp T -> is_Some (T !! [0]) -> ok (path va) ->
  exists p i, path va = p ++ [i] /\ length p = levels /\
    (rights (leaf m T p i) -> translate m (m asp) va = leaf_translation (leaf m T p i) va true true).
Proof.
  intros Ht [root Hr] Ho. rewrite path_digits in *. pose proof mo_levels as Hlev. destruct levels as [|n] eqn:El; [lia|].
  destruct (hw_walk_spec m asp T va n [0] root true true Ht Hr ltac:(done) ltac:(cbn; lia) Ho) as (p & i & E1 & E2).
  exists p, i. split; [done|]. split.
  { apply (f_equal length) in E1. rewrite !length_app in E1. unfold digits in E1. rewrite length_map, length_rev, length_seq in E1. cbn in E1. lia. }
  intros R. rewrite <- E2 by done. unfold translate. rewrite mo_shifts, El. f_equal.
  pose proof (t_entry _ _ _ _ _ _ _ Ht [] asp 0 (t_root _ _ _ _ _ _ _ Ht)) as He. cbn [app] in He. rewrite slot_0, Hr in He.
  rewrite He by (rewrite ?El; cbn; try lia; apply (ok_app lo hi [0] _ Ho)).
  rewrite <- (baseof_eq (Z.lor root _) : _ = _ / 4096 * 4096). apply baseof_flags.
  - apply (t_path _ _ _ _ _ _ _ Ht _ _ Hr). done.
  - destruct Hf0 as [? _]. unfold X86VmeTree.fl, pgsize. cbn. lia.
Qed.

(** A walk along tables that are all there changes nothing. *)
Lemma ptwalk_loop_there s asp va pf q i infos : forall p cur T, holds s asp T -> T !! p = Some cur -> infos <> [] ->
  ok (pf ++ [i]) -> length pf = levels -> p ++ List.map (indexof va) infos = pf ++ [i] -> T !! pf = Some q ->
  ptwalk_loop infos cur va flags s = Ok (slot q i, s).
Proof.
  induction infos as [|info rest IH]; intros p cur T Hh Hp Hne Ho Hl E Hq; [done|]. cbn [ptwalk_loop List.map] in *.
  destruct rest as [|info2 rest2]. { apply app_inj_tail in E as [-> <-]. by simplify_eq. }
  set (rest := info2 :: rest2) in *. set (d := indexof va info) in *. rewrite cons_middle, app_assoc in E.
  assert (exists l, pf = (p ++ [d]) ++ l) as [l El].
  { exists (removelast (List.map (indexof va) rest)). rewrite (app_removelast_last 0 (l := List.map (indexof va) rest)), app_assoc in E by done.
    by apply app_inj_tail in E as [-> _]. }
  assert (ok (p ++ [d])) as Hod by (apply (ok_app lo hi _ (l ++ [i])); by rewrite app_assoc, <- El).
  assert (length p < levels)%nat as Hlt by (rewrite <- Hl, El, !length_app; cbn; lia).
  pose proof (entry_present lo hi fl0 fl1 Hf0 Hf1 (h_tree _ _ _ Hh) p cur d Hp Hod Hlt) as Hent.
  rewrite (bind_run (load (slot cur d)) _ s (mem s (slot cur d)) s eq_refl).
  destruct (T !! (p ++ [d])) as [c|] eqn:Ec; [|rewrite El, (tree_none _ _ _ _ l (h_tree _ _ _ Hh) Ec) in Hq; done].
  destruct Hent as [-> ->]. cbn [negb]. by apply (IH (p ++ [d]) c T).
Qed.

Lemma ptwalk_there s asp va p q i T : holds s asp T -> ok (path va) -> path va = p ++ [i] -> T !! p = Some q ->
  ptwalk asp va flags s = Ok (slot q i, s).
Proof.
  intros Hh Ho E Hq. pose proof length_pgtables as Hl. rewrite E in Ho.
  apply (ptwalk_loop_there s asp va p q i pgtables [] asp T); try done.
  - exact (t_root _ _ _ _ _ _ _ (h_tree _ _ _ Hh)).
  - intros E'. by rewrite E' in Hl.
  - apply (f_equal length) in E. unfold path in E. rewrite length_map, length_app, Hl in E. cbn in E. lia.
Qed.

(** Another tree, with other tables, sees nothing of the growth. *)
Definition apart (asp : Z) (T : gmap (list Z) Z) (asp' : Z) (T' : gmap (list Z) Z) : Prop :=
  asp <> asp' /\ forall p p' q, p <> [] -> p' <> [] -> T !! p = Some q -> T' !! p' = Some q -> False.
End Walk.

(** The slots of trees that are apart. *)
Section Apart.
Context `{MO : MmuOk} `{PG : Pager (H := MMU) (PO := PO)}.
Variables (lo hi f g lo' hi' f' g' : Z) (s : vm) (asp asp' : Z) (T T' : gmap (list Z) Z).
Hypotheses (L1 : 0 <= lo) (L2 : hi <= 2 ^ IB) (L3 : 0 <= lo') (L4 : hi' <= 2 ^ IB).
Hypotheses (H : holds lo hi f g s asp T) (H' : holds lo' hi' f' g' s asp' T') (Ha : apart asp T asp' T').

Lemma outside_slot a q i : q ∈ owned (pool s) -> 0 <= i < 2 ^ IB -> region a = false -> a <> slot q i.
Proof. intros Hc Hj Hr ->. rewrite (owned_region (pool s) q) in Hr; [done..|by apply slot_page]. Qed.

(** A whole table of the other tree. *)
Lemma apart_table p q i p' q' i' : T !! p = Some q -> ok lo hi (p ++ [i]) -> p' <> [] -> T' !! p' = Some q' -> 0 <= i' < 2 ^ IB -> slot q i <> slot q' i'.
Proof.
  intros Hp Ho Hn' Hp' Hi' E. destruct (decide (p = [])) as [->|Hn].
  - rewrite (t_root _ _ _ _ _ _ _ (h_tree _ _ _ _ _ _ _ H)) in Hp. simplify_eq. rewrite (ok_root _ _ _ Ho), slot_0 in E. revert E.
    apply outside_slot; [by apply (h_owned _ _ _ _ _ _ _ H' p')|done|apply H].
  - pose proof (t_path _ _ _ _ _ _ _ (h_tree _ _ _ _ _ _ _ H) _ _ Hp Hn) as (_ & _ & (_ & Hm & _) & _).
    pose proof (t_path _ _ _ _ _ _ _ (h_tree _ _ _ _ _ _ _ H') _ _ Hp' Hn') as (_ & _ & (_ & Hm' & _) & _).
    apply (proj2 Ha p p' q); try done. rewrite (page_eq q q' (slot q i)); try done; [|rewrite E; by apply slot_page].
    apply slot_page. by apply (ok_index lo hi L1 L2 p).
Qed.

Lemma apart_slots p q i p' q' i' : T !! p = Some q -> ok lo hi (p ++ [i]) -> T' !! p' = Some q' -> ok lo' hi' (p' ++ [i']) -> slot q i <> slot q' i'.
Proof.
  intros Hp Ho Hp' Ho'. destruct (decide (p' = [])) as [->|Hn']; [|apply (apart_table p q i p'); try done; by apply (ok_index lo' hi' L3 L4 p')].
  rewrite (t_root _ _ _ _ _ _ _ (h_tree _ _ _ _ _ _ _ H')) in Hp'. simplify_eq. rewrite (ok_root _ _ _ Ho'), slot_0.
  destruct (decide (p = [])) as [->|Hn].
  - rewrite (t_root _ _ _ _ _ _ _ (h_tree _ _ _ _ _ _ _ H)) in Hp. simplify_eq. rewrite (ok_root _ _ _ Ho), slot_0. apply Ha.
  - intros E. symmetry in E. revert E. apply outside_slot; [by apply (h_owned _ _ _ _ _ _ _ H p)|by apply (ok_index lo hi L1 L2 p)|apply H'].
Qed.
End Apart.
