(* ===== verification/X86VmeMap.v ===== *)
(** [map] of [X86Vme]: the tables hold one partial function from the pages of the user area to
    physical pages and rights, each call changes it at one page, and no other address space
    notices. *)

From S2P Require Import Prelude X86Vme X86VmeTree X86VmeWalk.

(** The user area is a range of entries of the root table. *)
Class UserOk (MMU : Mmu) {MO : MmuOk MMU} : Type := {
  ulo : Z;
  uhi : Z;
  uo_range : 0 <= ulo < uhi /\ uhi <= 2 ^ IB;
  uo_start : start uvm_area = ulo * 2 ^ (12 + IB * Z.of_nat (levels - 1));
  uo_end : end_ uvm_area = uhi * 2 ^ (12 + IB * Z.of_nat (levels - 1));
}.

Definition user32_ok : UserOk mmu32 (MO := mmu32_ok).
Proof. refine {| ulo := 256; uhi := 512 |}; first [by vm_compute | split; [split|]; by vm_compute]. Defined.
Definition user64_ok : UserOk mmu64 (MO := mmu64_ok).
Proof. refine {| ulo := 32; uhi := 33 |}; first [by vm_compute | split; [split|]; by vm_compute]. Defined.

Section Map.
Context {MMU : Mmu} {MO : MmuOk MMU} {UO : UserOk MMU} `{PG : Pager (H := MMU) (PO := PO)}.

(** * Paths of user addresses *)

Definition user (va : Z) : Prop := IN_RANGE va uvm_area = true.

Lemma pow_pos k : 0 <= k -> 0 < 2 ^ k.
Proof. intros. apply Z.pow_pos_nonneg; lia. Qed.

(** The path of an address is its page number. *)
Lemma digits_page va vb n : digits va n = digits vb n <-> (va / 4096) mod 2 ^ (IB * Z.of_nat n) = (vb / 4096) mod 2 ^ (IB * Z.of_nat n).
Proof.
  pose proof mo_ib as Hib. induction n as [|n IH]; [cbn; rewrite Z.mul_0_r; cbn; by rewrite !Z.mod_1_r|]. rewrite !digits_S.
  assert (0 < 2 ^ (IB * Z.of_nat n)) by (apply pow_pos; lia). assert (0 < 2 ^ IB) by (apply pow_pos; lia).
  assert (forall v, (v / 4096) mod 2 ^ (IB * Z.of_nat (S n)) = (v / 4096) mod 2 ^ (IB * Z.of_nat n) + 2 ^ (IB * Z.of_nat n) * digit v n) as Hd.
  { intros v. replace (IB * Z.of_nat (S n)) with (IB * Z.of_nat n + IB) by lia. rewrite Z.pow_add_r by lia.
    rewrite Z.rem_mul_r by lia. unfold digit. rewrite Z.pow_add_r by lia. rewrite <- Z.div_div by lia. done. }
  rewrite !Hd. assert (forall v, 0 <= (v / 4096) mod 2 ^ (IB * Z.of_nat n) < 2 ^ (IB * Z.of_nat n)) as Hm by (intros v; apply Z.mod_pos_bound; lia).
  pose proof (Hm va). pose proof (Hm vb). split.
  - intros [= E1 E2%IH]. by rewrite E1, E2.
  - intros E. assert (digit va n = digit vb n) as E1 by nia. rewrite E1 in *. f_equal. apply IH. lia.
Qed.

Lemma user_range va : user va -> 0 <= va < 2 ^ (12 + IB * Z.of_nat levels) /\ ulo <= digit va (levels - 1) < uhi.
Proof.
  unfold user, IN_RANGE. intros [H1%Z.leb_le H2%Z.ltb_lt]%andb_true_iff. rewrite uo_start in H1. rewrite uo_end in H2.
  pose proof uo_range. pose proof mo_ib. pose proof mo_levels. set (k := 12 + IB * Z.of_nat (levels - 1)) in *.
  assert (0 < 2 ^ k) by (apply pow_pos; subst k; nia). assert (0 < 2 ^ IB) by (apply pow_pos; lia).
  replace (12 + IB * Z.of_nat levels) with (IB + k) by (subst k; nia). rewrite Z.pow_add_r by (subst k; nia).
  split; [nia|]. unfold digit. fold k. assert (ulo <= va / 2 ^ k < uhi) as Hq.
  { split; [apply Z.div_le_lower_bound; lia|apply Z.div_lt_upper_bound; lia]. }
  rewrite Z.mod_small by lia. done.
Qed.

Lemma digits_lookup va n k i : digits va n !! k = Some i -> (k < n)%nat /\ i = digit va (n - 1 - k).
Proof.
  revert k. induction n as [|n IH]; intros k; [done|]. rewrite digits_S. destruct k as [|k]; cbn.
  - intros [= <-]. split; [lia|]. f_equal. lia.
  - intros [H ->]%IH. split; [lia|]. f_equal. lia.
Qed.

Lemma user_path va : user va -> ok ulo uhi (path va).
Proof.
  intros Hu. apply user_range in Hu as [_ Hu]. rewrite path_digits. split.
  - unfold digits. cbn. by rewrite length_map, length_rev, length_seq.
  - intros [|k] i; cbn; [by intros [= <-]|]. intros [Hk ->]%digits_lookup. destruct k; cbn; [by rewrite Nat.sub_0_r|]. apply digit_range.
Qed.

Lemma path_page va vb : 0 <= va < 2 ^ (12 + IB * Z.of_nat levels) -> 0 <= vb < 2 ^ (12 + IB * Z.of_nat levels) ->
  path va = path vb <-> va / 4096 = vb / 4096.
Proof.
  intros Ha Hb. rewrite !path_digits. pose proof mo_ib.
  assert (forall v, 0 <= v < 2 ^ (12 + IB * Z.of_nat levels) -> (v / 4096) mod 2 ^ (IB * Z.of_nat levels) = v / 4096) as Hs.
  { intros v Hv. rewrite Z.pow_add_r in Hv by lia. apply Z.mod_small. split; [apply Z.div_pos; lia|apply Z.div_lt_upper_bound; lia]. }
  split; [intros [= E%digits_page]|intros E; f_equal; apply digits_page]; rewrite !Hs in * by done; done.
Qed.

Lemma path_eq va vb : user va -> user vb -> path va = path vb <-> va / 4096 = vb / 4096.
Proof. intros [Ha _]%user_range [Hb _]%user_range. by apply path_page. Qed.

(** Every path fits a tree for the whole root table. *)
Lemma all_path va : ok 0 (2 ^ IB) (path va).
Proof.
  rewrite path_digits. split.
  - unfold digits. cbn. by rewrite length_map, length_rev, length_seq.
  - intros [|k] i; cbn; [by intros [= <-]|]. intros [Hk ->]%digits_lookup. destruct k; apply digit_range.
Qed.

(** * An address space *)

Definition uroot : Z := Z.lor PTE_P PTE_U.
Definition uflags : Z := Z.lor PTE_W PTE_U.
Local Abbreviation ok := (ok ulo uhi).

Lemma link_root : link uroot. Proof. by split; vm_compute. Qed.
Lemma link_flags : link (fl1 uflags). Proof. by split; vm_compute. Qed.

(** The tables of the address space at [as_], and what its programs see. The entries of the
    root table outside the user area are not for the user. *)
Record space (s : vm) (as_ : Z) (T : gmap (list Z) Z) : Prop := mkSpace {
  sp_holds : holds ulo uhi uroot uflags s (as_ptr as_) T;
  sp_root : is_Some (T !! [0]);
  sp_kernel : forall r i, T !! [0] = Some r -> 0 <= i < 2 ^ IB -> ~ ulo <= i < uhi -> flag (mem s (slot r i)) PTE_P && flag (mem s (slot r i)) PTE_U = false;
}.
Definition sees (s : vm) (as_ va : Z) : option (Z * bool * bool) := translate (mem s) (mem s (as_ptr as_)) va.

(** The translation is the entry of the last level. *)
Lemma sees_leaf s as_ T va : space s as_ T -> user va ->
  exists p i, path va = p ++ [i] /\ length p = levels /\ sees s as_ va = leaf_translation (leaf (mem s) T p i) va true true.
Proof.
  intros [Hh Hr _] Hu. pose proof uo_range as [? ?].
  destruct (translate_spec ulo uhi uroot uflags link_root link_flags _ _ _ va (h_tree _ _ _ _ _ _ _ Hh) Hr (user_path va Hu)) as (p & i & E1 & E2 & E3).
  exists p, i. split_and!; try done. apply E3. by split; [|left].
Qed.

(** Equal entries are equal translations. *)
Lemma sees_same s s' as_ T T' : space s as_ T -> space s' as_ T' ->
  (forall p i, length p = levels -> ok (p ++ [i]) -> leaf (mem s') T' p i = leaf (mem s) T p i) ->
  forall va, user va -> sees s' as_ va = sees s as_ va.
Proof.
  intros H1 H2 Hl va Hu. destruct (sees_leaf s as_ T va H1 Hu) as (p & i & E1 & E2 & ->), (sees_leaf s' as_ T' va H2 Hu) as (p' & i' & E1' & E2' & ->).
  rewrite E1 in E1'. apply app_inj_tail in E1' as [<- <-]. rewrite Hl; [done..|]. rewrite <- E1. by apply user_path.
Qed.

(** * One call *)

(** What an operation on the tree [T] may change. *)
Record touches (s : vm) (T : gmap (list Z) Z) (s' : vm) (T' : gmap (list Z) Z) : Prop := mkTouches {
  to_sub : T ⊆ T';
  to_owned : owned (pool s) ⊆ owned (pool s');
  to_new : forall p q, T' !! p = Some q -> T !! p = Some q \/ q ∉ owned (pool s);
  to_pages : forall q, q ∈ owned (pool s') -> q ∈ owned (pool s) \/ exists p, T' !! p = Some q;
  to_frame : forall a, ~ free (pool s) a -> (forall p q i, T !! p = Some q -> ok (p ++ [i]) -> a <> slot q i) -> mem s' a = mem s a;
  to_regs : same_regs s s';
}.

(** The entries of the root table outside the user area are none of the tree's. *)
Lemma kernel_slot s as_ T r i p q j : space s as_ T -> T !! [0] = Some r -> 0 <= i < 2 ^ IB -> ~ ulo <= i < uhi ->
  T !! p = Some q -> ok (p ++ [j]) -> slot r i <> slot q j.
Proof.
  intros [[Ht _ _] _ _] Hr Hi Hn Hp Ho E. pose proof uo_range as [[U1 U2] U3].
  pose proof (t_path _ _ _ _ _ _ _ Ht _ _ Hr ltac:(done)) as (_ & _ & (_ & Hm & _) & Ha). destruct (decide (p = [])) as [->|Hne].
  - rewrite (t_root _ _ _ _ _ _ _ Ht) in Hp. simplify_eq. apply Ha. rewrite (ok_root _ _ _ Ho), slot_0 in E. rewrite <- E. by apply slot_page.
  - pose proof (t_path _ _ _ _ _ _ _ Ht _ _ Hp Hne) as (_ & _ & (_ & Hm' & _) & _).
    assert (r = q) as <-.
    { apply (page_eq r q (slot r i)); [done..|by apply slot_page|]. rewrite E. apply slot_page. by apply (ok_index ulo uhi U1 U3 p). }
    apply slot_inj in E as <-. assert (p = [0]) as -> by (by apply (t_inj _ _ _ _ _ _ _ Ht _ _ r)). apply Hn. exact (ok_last _ _ _ _ Ho).
Qed.

Lemma kernel_slot_not_free s as_ T r i : space s as_ T -> T !! [0] = Some r -> 0 <= i < 2 ^ IB -> ~ free (pool s) (slot r i).
Proof.
  intros [[Ht Hw _] _ _] Hr Hi [_ F]. apply F. pose proof (t_path _ _ _ _ _ _ _ Ht _ _ Hr ltac:(done)) as (_ & _ & (_ & Hm & _) & _).
  rewrite (baseof_page r) by (try apply slot_page; done). by apply (Hw [0]).
Qed.

Lemma grown_space s T s1 T1 as_ : space s as_ T -> holds ulo uhi uroot uflags s1 (as_ptr as_) T1 -> grows ulo uhi s T s1 T1 -> space s1 as_ T1.
Proof.
  intros Hs H1 G. pose proof Hs as [_ [r Hr] Hk]. assert (T1 !! [0] = Some r) as Hr1 by (by apply (lookup_weaken _ _ _ _ Hr), G).
  split; [done|by rewrite Hr1|]. intros r' i Hr' Hi Hn. assert (r' = r) as -> by congruence.
  rewrite (g_frame _ _ _ _ _ _ G); [by apply Hk|by apply (kernel_slot_not_free s as_ T)|]. intros p q j Hp Ho. by apply (kernel_slot s as_ T r i p q j).
Qed.

(** A walk, then a store to the entry that it has found. *)
Lemma walk_store s T s1 T1 as_ p q i v : space s as_ T -> space s1 as_ T1 -> grows ulo uhi s T s1 T1 ->
  T1 !! p = Some q -> ok (p ++ [i]) -> length p = levels ->
  let s2 := s1 <| mem := fun x => if x =? slot q i then v else mem s1 x |> in
  space s2 as_ T1 /\ touches s T s2 T1 /\
  forall p' i', length p' = levels -> ok (p' ++ [i']) -> leaf (mem s2) T1 p' i' = if bool_decide (p' = p /\ i' = i) then v else leaf (mem s) T p' i'.
Proof.
  intros Hs0 Hs1 G Hp Ho Hl s2. pose proof Hs1 as [H1 R1 K1]. pose proof uo_range as [[U1 U2] U3]. pose proof H1 as [HT HW HA].
  assert (mem s2 (slot q i) = v) as Hv by (cbn; by rewrite Z.eqb_refl).
  assert (forall a, a <> slot q i -> mem s2 a = mem s1 a) as Hne by (intros a Ha; cbn; by rewrite (proj2 (Z.eqb_neq _ _) Ha)).
  destruct (tree_leaf ulo uhi U1 U3 uroot (fl1 uflags) (mem s1) (mem s2) _ T1 p q i v HT Hp Ho Hl Hv Hne) as [L1 L2].
  destruct G as [G1 G2 G3 G4 G5 G6 G7]. split; [constructor; [by constructor|done|]|split].
  - intros r j Hr Hj Hn. rewrite Hne by (by apply (kernel_slot s1 as_ T1 r j p q i)). by apply K1.
  - constructor; try done.
    + intros p' q' [H|(_ & _ & H & _)]%G3; [by left|by right].
    + intros a Hf Hs. rewrite Hne; [by apply G6|]. apply G3 in Hp as [Hp|(N1 & (_ & N2 & _) & N3 & N4)]; [by apply (Hs p)|].
      intros ->. apply Hf. pose proof (ok_index ulo uhi U1 U3 p i Ho N1) as Hi. apply fresh_free; try done.
      apply (owned_region (pool s1) q); [done|]. by apply slot_page.
  - intros p' i' Hl' Ho'. rewrite L2 by done. case_bool_decide; [done|]. by apply G5.
Qed.

Lemma rounddown_eq a : (a =? ROUNDDOWN a pgsize) = (a mod 4096 =? 0).
Proof.
  change (ROUNDDOWN a pgsize) with (baseof a). rewrite baseof_eq. unfold pgsize.
  destruct (Z.eqb_spec (a mod 4096) 0); [apply Z.eqb_eq|apply Z.eqb_neq]; Z.to_euclidean_division_equations; lia.
Qed.

(** The entry that [map] writes. *)
Definition user_pte (pa prot : Z) : Z := Z.lor (Z.lor (Z.lor pa PTE_P) PTE_U) (if flag prot MMAP_WRITE then PTE_W else 0).

Lemma user_pte_translation pa prot va : pa mod 4096 = 0 ->
  leaf_translation (user_pte pa prot) va true true = Some (pa + va mod 4096, flag prot MMAP_WRITE, true).
Proof.
  intros Hp. unfold user_pte. rewrite <- !Z.lor_assoc. set (f := Z.lor PTE_P _).
  assert (0 <= f < pgsize /\ Z.testbit f 0 = true /\ Z.testbit f 1 = flag prot MMAP_WRITE /\ Z.testbit f 2 = true) as (F0 & F1 & F2 & F3).
  { subst f. by destruct (flag prot MMAP_WRITE); vm_compute. }
  unfold leaf_translation. rewrite !flags_bits, F1, F2, F3 by (done || lia). cbn [andb].
  by rewrite <- (baseof_eq (Z.lor pa f) : _ = _ / 4096 * 4096), baseof_flags.
Qed.

Lemma present_sees e va : flag e PTE_P = true <-> is_Some (leaf_translation e va true true).
Proof. change PTE_P with (2 ^ 0). unfold leaf_translation. rewrite (flag_bit e 0) by lia. destruct (Z.testbit e 0); split; try done; by intros [? ?]. Qed.

(** The page at [va] after a call. *)
Definition mapped (pa prot va : Z) : option (Z * bool * bool) :=
  if prot =? MMAP_NONE then None else Some (pa + va mod 4096, flag prot MMAP_WRITE, true).

(** Where a call ends: it changes the one page, or it stops because the page was mapped
    already (or was not), or because there are no pages for the tables. *)
Definition maps (s : vm) (as_ : Z) (T : gmap (list Z) Z) (va pa prot : Z) (r : result (unit * vm)) : Prop :=
  match r with
  | Ok (_, s') => exists T', space s' as_ T' /\ touches s T s' T' /\ (size (owned (pool s')) <= size (owned (pool s)) + levels)%nat /\
      (prot = MMAP_NONE <-> is_Some (sees s as_ va)) /\
      forall vb, user vb -> sees s' as_ vb = if vb / 4096 =? va / 4096 then mapped pa prot vb else sees s as_ vb
  | Abort e => oom s levels e \/
      e = APanic "unmapping a non-mapped page" /\ prot = MMAP_NONE /\ sees s as_ va = None \/
      e = APanic "remapping a mapped page" /\ prot <> MMAP_NONE /\ is_Some (sees s as_ va)
  end.


(** The store and the closing walk. *)
Lemma store_entry s T s1 T1 as_ va p q i v : space s as_ T -> space s1 as_ T1 -> grows ulo uhi s T s1 T1 -> user va ->
  path va = p ++ [i] -> T1 !! p = Some q ->
  exists s2, (store (slot q i) v ≫= fun _ => ptwalk (as_ptr as_) va uflags ≫= fun _ => mret tt) s1 = Ok (tt, s2) /\ pool s2 = pool s1 /\
    space s2 as_ T1 /\ touches s T s2 T1 /\
    forall vb, user vb -> sees s2 as_ vb = if vb / 4096 =? va / 4096 then leaf_translation v vb true true else sees s as_ vb.
Proof.
  intros Hs Hs1 G Hu Ep Hq. pose proof uo_range as [[U1 U2] U3]. pose proof (user_path va Hu) as Ho.
  assert (length p = levels) as Hl.
  { apply (f_equal length) in Ep. unfold path in Ep. rewrite length_map, length_pgtables, length_app in Ep. cbn in Ep. lia. }
  pose proof Ho as Ho'. rewrite Ep in Ho'. destruct (walk_store s T s1 T1 as_ p q i v Hs Hs1 G Hq Ho' Hl) as (S1 & S2 & S3).
  set (s2 := s1 <| mem := _ |>) in *. exists s2. split_and!; try done.
  - rewrite (bind_run (store (slot q i) v) _ s1 tt s2 eq_refl).
    rewrite (bind_run _ _ _ _ _ (ptwalk_there ulo uhi uroot uflags link_root link_flags s2 _ va p q i T1 (sp_holds _ _ _ S1) Ho Ep Hq)). done.
  - intros vb Hb. destruct (sees_leaf s2 as_ T1 vb S1 Hb) as (p' & i' & Ep' & Hl' & ->), (sees_leaf s as_ T vb Hs Hb) as (p'' & i'' & Ep'' & _ & ->).
    rewrite Ep' in Ep''. apply app_inj_tail in Ep'' as [<- <-]. rewrite S3; [|done|rewrite <- Ep'; by apply user_path].
    pose proof (path_eq vb va Hb Hu) as Hpe. rewrite Ep, Ep' in Hpe. case_bool_decide as Hd.
    + destruct Hd as [-> ->]. by rewrite (proj2 (Z.eqb_eq _ _) (proj1 Hpe eq_refl)).
    + rewrite (proj2 (Z.eqb_neq _ _)); [done|]. intros [-> ->]%Hpe%app_inj_tail. by apply Hd.
Qed.

Lemma map_guarded s as_ T va pa prot : space s as_ T -> user va -> va mod 4096 = 0 -> pa mod 4096 = 0 ->
  maps s as_ T va pa prot (map as_ va pa prot s).
Proof.
  intros Hs Hu Hva Hpa. pose proof uo_range as [[U1 U2] U3]. pose proof (user_path va Hu) as Ho.
  unfold map. rewrite Hu. cbn [negb panic_on]. erewrite bind_run by reflexivity. rewrite !rounddown_eq, Hva, Hpa. cbn [Z.eqb negb orb panic_on].
  erewrite bind_run by reflexivity. change (Z.lor PTE_W PTE_U) with uflags.
  pose proof (ptwalk_spec ulo uhi uroot uflags U1 U3 link_root link_flags (as_ptr as_) va s T (sp_holds _ _ _ Hs) Ho (or_introl (sp_root _ _ _ Hs))) as W.
  destruct (ptwalk (as_ptr as_) va uflags s) as [[a s1]|e] eqn:E; [|rewrite (bind_abort _ _ _ _ E); by left].
  destruct W as (T1 & p & q & i & Ep & Hq & -> & H1 & G & Hsz).
  pose proof (grown_space s T s1 T1 as_ Hs H1 G) as Hs1.
  destruct (sees_leaf s as_ T va Hs Hu) as (p' & i' & Ep' & Hl & Hsee). pose proof Ep' as E2. rewrite Ep in E2. apply app_inj_tail in E2 as [<- <-].
  rewrite (bind_run _ _ _ _ _ E), (bind_run (load (slot q i)) _ s1 (mem s1 (slot q i)) s1 eq_refl).
  assert (mem s1 (slot q i) = leaf (mem s) T p i) as ->.
  { rewrite <- (g_leaf _ _ _ _ _ _ G p i Hl); [unfold leaf; by rewrite Hq|]. by rewrite <- Ep. }
  pose proof (present_sees (leaf (mem s) T p i) va) as Hpr. rewrite <- Hsee in Hpr.
  destruct (Z.eqb_spec prot MMAP_NONE) as [Hz|Hz].
  - destruct (flag _ PTE_P); cbn [negb panic_on].
    + destruct (store_entry s T s1 T1 as_ va p q i 0 Hs Hs1 G Hu Ep Hq) as (s2 & R & Pe & S1 & S2 & S3). rewrite bind_assoc. erewrite bind_run by reflexivity.
      rewrite R. exists T1. split_and!; try done; [by rewrite Pe|tauto|]. unfold mapped. rewrite Hz. exact S3.
    + right. left. split_and!; try done. destruct (sees s as_ va); [|done]. assert (false = true) by (by apply Hpr). done.
  - destruct (flag _ PTE_P); cbn [negb panic_on].
    + right. right. split_and!; [done|done|tauto].
    + destruct (store_entry s T s1 T1 as_ va p q i (user_pte pa prot) Hs Hs1 G Hu Ep Hq) as (s2 & R & Pe & S1 & S2 & S3). rewrite bind_assoc. erewrite bind_run by reflexivity.
      unfold user_pte in R. rewrite R. exists T1. split_and!; try done.
      * by rewrite Pe.
      * split; [done|]. intros Hi%Hpr. done.
      * intros vb Hb. rewrite S3 by done. unfold mapped. rewrite (proj2 (Z.eqb_neq _ _) Hz), user_pte_translation by done. done.
Qed.

(** * Two address spaces *)

(** Words that an operation on another address space leaves alone. *)
Lemma touches_other s T s' T' as_ as2 T2 : space s as_ T -> space s as2 T2 -> apart (as_ptr as_) T (as_ptr as2) T2 -> touches s T s' T' ->
  forall p q i, T2 !! p = Some q -> ok (p ++ [i]) -> mem s' (slot q i) = mem s (slot q i).
Proof.
  intros [H1 _ _] [H2 _ _] Ha [_ _ _ _ Hf _] p q i Hp Ho. pose proof uo_range as [[U1 U2] U3]. apply Hf.
  - by apply (slot_not_free ulo uhi uroot uflags U1 U3 s (as_ptr as2) T2 p).
  - intros p' q' i' Hp' Ho' E. symmetry in E. revert E. by apply (apart_slots ulo uhi uroot uflags ulo uhi uroot uflags s (as_ptr as_) (as_ptr as2) T T2 U1 U3 U1 U3 H1 H2 Ha p' q' i' p q i).
Qed.

Lemma other_space s T s' T' as_ as2 T2 : space s as_ T -> space s as2 T2 -> apart (as_ptr as_) T (as_ptr as2) T2 -> touches s T s' T' ->
  (forall p q, p <> [] -> T2 !! p = Some q -> q ∈ owned (pool s')) ->
  space s' as2 T2 /\ forall vb, user vb -> sees s' as2 vb = sees s as2 vb.
Proof.
  intros H1 H2 Ha Ht Hw. pose proof (touches_other s T s' T' as_ as2 T2 H1 H2 Ha Ht) as Hm. pose proof H2 as [[G1 G2 G3] G4 G5].
  assert (space s' as2 T2) as H2'.
  { split; [split; [|done|done]|done|].
    - apply (tree_ext _ _ _ _ (mem s)); [done|]. intros. by apply (Hm p).
    - intros r j Hr Hj Hn. rewrite (to_frame _ _ _ _ Ht); [by apply G5|by apply (kernel_slot_not_free s as2 T2)|].
      pose proof uo_range as [[U1 U2] U3]. intros p q i Hp Ho E. symmetry in E. revert E.
      by apply (apart_table ulo uhi uroot uflags ulo uhi uroot uflags s (as_ptr as_) (as_ptr as2) T T2 U1 U3 (sp_holds _ _ _ H1) (sp_holds _ _ _ H2) Ha p q i [0]). }
  split; [done|]. apply (sees_same s s' as2 T2 T2 H2 H2'). intros p i Hl Ho. unfold leaf. destruct (T2 !! p) as [q|] eqn:E; [|done]. by apply (Hm p).
Qed.

(** C30. [map] updates one page of the address space: outside the user area and for addresses
    that are not at a page boundary it panics; a page that is mapped already is not mapped
    again, one that is not mapped is not unmapped; otherwise afterwards the processor
    translates exactly the addresses of that page to [pa] with the rights of [prot] (or not
    at all), every other user address as before, and the tables are again those of an
    address space. It stops for want of pages only when fewer than one page per level is left. *)
Theorem map_refines s as_ T va pa prot : space s as_ T ->
  if negb (IN_RANGE va uvm_area) then map as_ va pa prot s = Abort (APanic "mapping an invalid address")
  else if negb (va mod 4096 =? 0) || negb (pa mod 4096 =? 0) then map as_ va pa prot s = Abort (APanic "non-page-boundary address")
  else maps s as_ T va pa prot (map as_ va pa prot s).
Proof.
  intros Hs. destruct (IN_RANGE va uvm_area) eqn:Hu; cbn [negb]; [|unfold map; by rewrite Hu].
  destruct (Z.eqb_spec (va mod 4096) 0) as [Hv|Hv]; cbn [negb orb].
  2: { unfold map. rewrite Hu, rounddown_eq, (proj2 (Z.eqb_neq _ _) Hv). done. }
  destruct (Z.eqb_spec (pa mod 4096) 0) as [Hp|Hp]; cbn [negb orb].
  2: { unfold map. rewrite Hu, !rounddown_eq, Hv, (proj2 (Z.eqb_neq _ _) Hp). done. }
  by apply map_guarded.
Qed.

(** C31. [map] in one address space is not seen in another: if the two have no table in common,
    then after the call they still have none, the other is still well formed and every user
    address is translated there as before. *)
Theorem map_isolates s s' as_ T as2 T2 va pa prot : space s as_ T -> space s as2 T2 -> apart (as_ptr as_) T (as_ptr as2) T2 ->
  map as_ va pa prot s = Ok (tt, s') ->
  exists T', space s' as_ T' /\ space s' as2 T2 /\ apart (as_ptr as_) T' (as_ptr as2) T2 /\ forall vb, user vb -> sees s' as2 vb = sees s as2 vb.
Proof.
  intros H1 H2 Ha E.
  assert (maps s as_ T va pa prot (map as_ va pa prot s)) as Hm.
  { destruct (IN_RANGE va uvm_area) eqn:Hu; [|unfold map in E; by rewrite Hu in E].
    destruct (Z.eqb_spec (va mod 4096) 0) as [Hv|Hv]; [|unfold map in E; by rewrite Hu, rounddown_eq, (proj2 (Z.eqb_neq _ _) Hv) in E].
    destruct (Z.eqb_spec (pa mod 4096) 0) as [Hp|Hp]; [|unfold map in E; by rewrite Hu, !rounddown_eq, Hv, (proj2 (Z.eqb_neq _ _) Hp) in E].
    by apply map_guarded. }
  rewrite E in Hm. destruct Hm as (T' & S1 & S2 & _ & _ & _). exists T'. split; [done|].
  assert (forall p q, p <> [] -> T2 !! p = Some q -> q ∈ owned (pool s)) as Hw by apply (sp_holds _ _ _ H2).
  destruct (other_space s T s' T' as_ as2 T2 H1 H2 Ha S2) as [O1 O2].
  { intros p q Hp Hq. apply (to_owned _ _ _ _ S2). by apply (Hw p). }
  split; [done|]. split; [|done]. destruct Ha as [A1 A2]. split; [done|]. intros p p' q Hp Hp' Hq Hq'.
  apply (to_new _ _ _ _ S2) in Hq as [Hq|Hq]; [by apply (A2 p p' q)|]. apply Hq. by apply (Hw p').
Qed.
End Map.
