(* ===== verification/X86VmeFree.v ===== *)
(** [unprotect] of [X86Vme]: it gives back the tables of the address space, each once, and
    nothing else. *)

From S2P Require Import Prelude X86Vme X86VmeTree X86VmeWalk X86VmeMap.

Section Free.
Context {MMU : Mmu} {MO : MmuOk MMU} {UO : UserOk MMU} `{PG : Pager (H := MMU) (PO := PO)}.

(** A loop whose body moves an invariant on. *)
Lemma for_range_inv (P : Z -> vm -> Prop) f n : forall i s, P i s ->
  (forall j s, i <= j < i + Z.of_nat n -> P j s -> exists s', f j s = Ok (tt, s') /\ P (j + 1) s') ->
  exists s', for_range n i f s = Ok (tt, s') /\ P (i + Z.of_nat n) s'.
Proof.
  induction n as [|n IH]; intros i s Hi Hf; cbn [for_range].
  { exists s. split; [done|]. by rewrite Z.add_0_r. }
  destruct (Hf i s) as (s1 & E & H1); [lia|done|]. rewrite (bind_run _ _ _ _ _ E).
  destruct (IH (i + 1) s1 H1) as (s' & E' & H'); [intros j s2 Hj; apply Hf; lia|].
  exists s'. split; [done|]. by replace (i + Z.of_nat (S n)) with (i + 1 + Z.of_nat n) by lia.
Qed.

(** The number of entries of a table. *)
Lemma table_bits k info rest : drop k pgtables = info :: rest ->
  rest = drop (S k) pgtables /\ Z.of_nat (Z.to_nat (Z.shiftl 1 (bits info))) = if (k =? 0)%nat then 1 else 2 ^ IB.
Proof.
  intros E. split; [by rewrite <- Nat.add_1_r, <- drop_drop, E|].
  assert (pgtables !! k = Some info) as Hk by (rewrite <- (Nat.add_0_r k), <- lookup_drop, E; done).
  rewrite mo_tables in Hk. pose proof mo_ib. destruct k as [|k]; cbn in Hk; [simplify_eq; done|].
  apply list_lookup_fmap_Some in Hk as (j & -> & _). cbn. rewrite Z.shiftl_1_l. rewrite Z2Nat.id; [done|]. apply Z.pow_nonneg. lia.
Qed.

Section Teardown.
Variables (as_ : Z) (T : gmap (list Z) Z) (m0 : Z -> Z).
Local Abbreviation ok := (ok ulo uhi).
Local Abbreviation asp := (as_ptr as_).
Hypotheses (HT : tree ulo uhi uroot (fl1 uflags) m0 asp T) (Hasp : region asp = false).
Hypothesis Hker : forall r i, T !! [0] = Some r -> 0 <= i < 2 ^ IB -> ~ ulo <= i < uhi -> flag (m0 (slot r i)) PTE_P && flag (m0 (slot r i)) PTE_U = false.

(** The tables from [p] on; the memory is as it was where it has not been given back. *)
Definition below (p : list Z) (x : Z) : Prop := exists p', p `prefix_of` p' /\ p' <> [] /\ T !! p' = Some x.
Definition intact (s : vm) : Prop := forall a, ~ free (pool s) a -> mem s a = m0 a.

Lemma entry_user p q i : T !! p = Some q -> ok (p ++ [i]) -> (length p < levels)%nat ->
  match T !! (p ++ [i]) with
  | Some c => flag (m0 (slot q i)) PTE_P && flag (m0 (slot q i)) PTE_U = true /\ baseof (m0 (slot q i)) = c
  | None => flag (m0 (slot q i)) PTE_P = false
  end.
Proof.
  intros Hp Ho Hl. pose proof (entry_present ulo uhi uroot (fl1 uflags) link_root link_flags HT p q i Hp Ho Hl) as He.
  pose proof (t_entry _ _ _ _ _ _ _ HT p q i Hp Ho Hl) as Hm. destruct (T !! (p ++ [i])) as [c|] eqn:Ec; [|done]. destruct He as [-> He].
  split; [|done]. rewrite Hm. cbn [andb]. change PTE_U with (2 ^ 2).
  pose proof (t_path _ _ _ _ _ _ _ HT _ _ Ec (snoc_ne p i)) as (_ & _ & (_ & Hc & _) & _).
  rewrite flag_bit, flags_bits by (done || lia || (unfold fl; destruct (_ =? _)%nat; done)). unfold fl. by destruct (_ =? _)%nat.
Qed.

(** An index of a table is on a path of the tree or one of the kernel's. *)
Lemma ok_or_kernel p q i : T !! p = Some q -> 0 <= i < (if (length p =? 0)%nat then 1 else 2 ^ IB) -> ok (p ++ [i]) \/ p = [0] /\ ~ ulo <= i < uhi.
Proof.
  intros Hp Hi. pose proof mo_levels. destruct p as [|x p].
  { left. split; [cbn; lia|]. cbn in Hi. intros [|k] j; cbn; [intros [= <-]; lia|done]. }
  destruct (t_path _ _ _ _ _ _ _ HT _ _ Hp ltac:(done)) as (Ho & Hl & _).
  assert (fits ulo uhi (length (x :: p)) i -> ok ((x :: p) ++ [i])) as Hf.
  { intros Hf. split; [rewrite length_app; cbn in *; lia|]. intros k j Hk.
    apply lookup_app_Some in Hk as [Hk|[Hk Hj]]; [by apply Ho|]. apply list_lookup_singleton_Some in Hj as [Hj <-].
    replace k with (length (x :: p)) by lia. done. }
  destruct p as [|y p]; [|by left; apply Hf]. destruct (decide (ulo <= i < uhi)) as [Hr|Hr]; [by left; apply Hf|right].
  split; [|done]. f_equal. by apply (proj2 Ho 0%nat).
Qed.

Lemma below_none p : T !! p = None -> forall x, ~ below p x.
Proof. intros Hn x (p' & [l ->] & _ & Hx). rewrite (tree_none ulo uhi uroot uflags _ _ _ _ l HT Hn) in Hx. done. Qed.

(** The table [q] at [p], before its entry [k]. *)
Definition part (p : list Z) (s : vm) (k : Z) (s' : vm) : Prop :=
  same_regs s s' /\ intact s' /\
  forall x, x ∈ owned (pool s') <-> x ∈ owned (pool s) /\ ~ exists j, 0 <= j < k /\ below (p ++ [j]) x.

Lemma part_skip p s k s' : part p s k s' -> (forall x, ~ below (p ++ [k]) x) -> part p s (k + 1) s'.
Proof.
  intros (H1 & H2 & H3) Hn. split_and!; try done; [apply H1..|]. intros x. rewrite H3. split; intros [Hx Hj]; (split; [done|]); intros (j & Hj' & Hb); apply Hj; exists j.
  - split; [|done]. destruct (decide (j = k)) as [->|]; [by destruct (Hn x)|lia].
  - split; [lia|done].
Qed.

Lemma part_step p s k s1 s2 : part p s k s1 -> same_regs s1 s2 -> intact s2 -> 0 <= k ->
  (forall x, x ∈ owned (pool s2) <-> x ∈ owned (pool s1) /\ ~ below (p ++ [k]) x) -> part p s (k + 1) s2.
Proof.
  intros ((R1 & R2 & R3) & H2 & H3) (Q1 & Q2 & Q3) Hi Hk Hx. split; [split_and!; congruence|]. split; [done|]. intros x. rewrite Hx, H3. split.
  - intros [[Ho Hn] Hb]. split; [done|]. intros (j & Hj & Hb'). destruct (decide (j = k)) as [->|]; [done|]. apply Hn. exists j. split; [lia|done].
  - intros [Ho Hn]. split_and!; [done| |].
    + intros (j & Hj & Hb). apply Hn. exists j. split; [lia|done].
    + intros Hb. apply Hn. exists k. split; [lia|done].
Qed.

Lemma part_intro p s : intact s -> part p s 0 s.
Proof. intros Hi. split; [done|]. split; [done|]. intros x. split; [|by intros [? _]]. intros Hx. split; [done|]. intros (j & Hj & _). lia. Qed.

(** What is below a table: itself and what is below its entries. *)
Lemma below_split p q x : T !! p = Some q ->
  below p x <-> (p <> [] /\ x = q) \/ exists j, 0 <= j < (if (length p =? 0)%nat then 1 else 2 ^ IB) /\ below (p ++ [j]) x.
Proof.
  intros Hp. pose proof uo_range as [[U1 U2] U3]. split.
  - intros (p' & [[|j l] ->] & Hn & Hx); [rewrite app_nil_r in *; left; split; congruence|]. right. exists j.
    rewrite cons_middle, app_assoc in Hn, Hx. destruct (t_path _ _ _ _ _ _ _ HT _ _ Hx Hn) as (Ho & _ & _). apply ok_app in Ho. split.
    + destruct p as [|y p]; [rewrite (ok_root _ _ _ Ho); cbn; lia|]. by apply (ok_index ulo uhi U1 U3 (y :: p)).
    + exists ((p ++ [j]) ++ l). split; [by exists l|done].
  - intros [[Hn ->]|(j & _ & p' & [l ->] & Hn & Hx)]; [exists p; by split_and!|]. exists ((p ++ [j]) ++ l). split; [|done]. exists ([j] ++ l). by rewrite app_assoc.
Qed.

(** A table is not below its entries. *)
Lemma table_not_below p q j : T !! p = Some q -> p <> [] -> ~ below (p ++ [j]) q.
Proof.
  intros Hp Hn (p' & [l ->] & Hn' & Hx). assert (p = (p ++ [j]) ++ l) as E by (by apply (t_inj _ _ _ _ _ _ _ HT _ _ q)).
  apply (f_equal length) in E. rewrite !length_app in E. cbn in E. lia.
Qed.

Lemma slot_intact p q i s k s' : T !! p = Some q -> 0 <= i < (if (length p =? 0)%nat then 1 else 2 ^ IB) ->
  (forall x, below p x -> x ∈ owned (pool s)) -> part p s k s' -> mem s' (slot q i) = m0 (slot q i).
Proof.
  intros Hp Hi Hb (_ & Hin & Hx). apply Hin. intros [F1 F2]. destruct (decide (p = [])) as [->|Hn].
  - rewrite (t_root _ _ _ _ _ _ _ HT) in Hp. simplify_eq. replace i with 0 in F1 by (cbn in Hi; lia). rewrite slot_0 in F1. congruence.
  - destruct (t_path _ _ _ _ _ _ _ HT _ _ Hp Hn) as (_ & _ & (_ & Hm & _) & _).
    assert (length p <> 0%nat) as Hl by (by destruct p). rewrite (proj2 (Nat.eqb_neq _ _) Hl) in Hi.
    rewrite (baseof_page q) in F2 by (try apply slot_page; done). apply F2, Hx. split; [apply Hb, (below_split p q); [done|by left]|].
    intros (j & _ & Hj). by apply (table_not_below p q j).
Qed.

(** One entry, given the spec [sub] of the call for the table behind it. *)
Lemma teardown_entry p q s j s' (sub : Z -> M vm unit) : T !! p = Some q -> 0 <= j < (if (length p =? 0)%nat then 1 else 2 ^ IB) ->
  (forall x, below p x -> x ∈ owned (pool s)) -> part p s j s' ->
  (length p = levels -> forall c, sub c = mret tt) ->
  (forall c s, T !! (p ++ [j]) = Some c -> (forall x, below (p ++ [j]) x -> x ∈ owned (pool s)) -> intact s ->
    exists s', sub c s = Ok (tt, s') /\ same_regs s s' /\ intact s' /\ forall x, x ∈ owned (pool s') <-> x ∈ owned (pool s) /\ ~ below (p ++ [j]) x) ->
  let e := m0 (slot q j) in
  exists s'', when (flag e PTE_P && flag e PTE_U) (sub (baseof e)) s' = Ok (tt, s'') /\ part p s (j + 1) s''.
Proof.
  intros Hp Hj Hb Hpart Hleaf Hsub e. destruct (ok_or_kernel p q j Hp Hj) as [Ho|[-> Hn]].
  - destruct (decide (length p = levels)) as [Hl|Hl].
    + exists s'. split; [rewrite (Hleaf Hl); by destruct (_ && _)|]. apply part_skip; [done|]. apply below_none.
      destruct (T !! (p ++ [j])) eqn:E; [|done]. apply (t_path _ _ _ _ _ _ _ HT) in E as (_ & E & _); [|apply snoc_ne]. rewrite length_app in E. cbn in E. lia.
    + assert (length p < levels)%nat as Hlt by (destruct Ho as [Ho _]; rewrite length_app in Ho; cbn in Ho; lia).
      pose proof (entry_user p q j Hp Ho Hlt) as He. fold e in He. destruct (T !! (p ++ [j])) as [c|] eqn:Ec.
      * destruct He as [-> ->]. cbn [when]. destruct Hpart as (P1 & P2 & P3). destruct (Hsub c s' eq_refl) as (s'' & E & Q1 & Q2 & Q3); [|done|].
        { intros x Hx. apply P3. split; [apply Hb, (below_split p q x Hp); right; by exists j|].
          intros (k & Hk & y1 & [l1 E1] & _ & Hy1). destruct Hx as (y2 & [l2 E2] & _ & Hy2).
          assert (y1 = y2) as Ey by (apply (t_inj _ _ _ _ _ _ _ HT _ _ x); [subst; by destruct p..|done|done]). subst. rewrite <- !app_assoc in Ey.
          apply app_inv_head in Ey. injection Ey. lia. }
        exists s''. split; [done|]. apply (part_step p s j s'); try done. lia.
      * rewrite He. exists s'. split; [done|]. apply part_skip; [done|]. by apply below_none.
  - exists s'. split; [unfold e; rewrite (Hker q j) by (done || cbn in Hj; lia); done|]. apply part_skip; [done|]. apply below_none.
    destruct (T !! ([0] ++ [j])) eqn:E; [|done]. apply (t_path _ _ _ _ _ _ _ HT) in E as (E & _); [|done]. by destruct Hn; apply (proj2 E 1%nat).
Qed.

Lemma teardown_sub infos : forall p q s, T !! p = Some q -> infos = drop (length p) pgtables ->
  (forall x, below p x -> x ∈ owned (pool s)) -> intact s ->
  exists s', teardown_from infos (length p) q s = Ok (tt, s') /\ same_regs s s' /\ intact s' /\
    forall x, x ∈ owned (pool s') <-> x ∈ owned (pool s) /\ ~ below p x.
Proof.
  induction infos as [|info rest IH]; intros p q s Hp Hinf Hb Hin.
  { exfalso. apply (f_equal length) in Hinf. rewrite length_drop, length_pgtables in Hinf. cbn in Hinf.
    assert (length p <= levels)%nat by (destruct (decide (p = [])) as [->|Hn]; [cbn; lia|apply (t_path _ _ _ _ _ _ _ HT _ _ Hp Hn)]). lia. }
  symmetry in Hinf. destruct (table_bits _ _ _ Hinf) as [Hrest Hcnt]. cbn [teardown_from]. set (count := Z.to_nat _) in *.
  match goal with |- context [for_range count 0 ?f] => set (body := f) end.
  destruct (for_range_inv (fun k s' => 0 <= k /\ part p s k s') body count 0 s) as (s1 & E1 & _ & P1).
  { split; [done|]. by apply part_intro. }
  - intros j s' Hj [_ Hpart]. rewrite Z.add_0_l, Hcnt in Hj. unfold body.
    rewrite (bind_run (load (slot q j)) _ s' (mem s' (slot q j)) s' eq_refl), (slot_intact p q j s j s' Hp Hj Hb Hpart).
    destruct (teardown_entry p q s j s' (teardown_from rest (S (length p))) Hp Hj Hb Hpart) as (s'' & E & Hs'').
    + intros Hl c. replace rest with (@nil ptinfo); [done|]. rewrite Hrest, Hl. symmetry. apply drop_ge. by rewrite length_pgtables.
    + intros c s2 Hc Hb2 Hi2. rewrite <- (Nat.add_1_r (length p)), <- (length_app p [j] : _ = (length p + 1)%nat).
      apply IH; try done. by rewrite length_app, Nat.add_1_r.
    + exists s''. split; [done|]. split; [lia|done].
  - rewrite (bind_run _ _ _ _ _ E1). destruct P1 as (Q1 & Q2 & Q3). rewrite Z.add_0_l, Hcnt in Q3. destruct (decide (p = [])) as [->|Hn].
    + exists s1. split_and!; try done; [apply Q1..|]. intros x. rewrite Q3, (below_split [] q x Hp). naive_solver.
    + replace (1 <=? length p)%nat with true by (by destruct p). cbn [when]. unfold call_pgfree.
      destruct (pgfree q (pool s1, mem s1)) as [st m] eqn:Ef.
      assert (q ∈ owned (pool s1)) as Hq.
      { apply Q3. split; [apply Hb, (below_split p q q Hp); by left|]. intros (j & _ & Hj). by apply (table_not_below p q j). }
      destruct (free_spec _ _ _ _ _ Hq Ef) as [F1 F2]. eexists. split; [done|]. cbn. split; [exact Q1|]. split.
      * intros a Ha. cbn in *. rewrite F2 by done. apply Q2. intros [Fa Fb]. apply Ha. split; [done|]. set_solver.
      * intros x. rewrite F1, (below_split p q x Hp), elem_of_difference, Q3, elem_of_singleton. naive_solver.
Qed.
End Teardown.

(** [unprotect] gives back the tables of the address space, every one of them and each
    once, and no other page; the rest of the memory and the other allocated pages keep their
    contents, whatever the allocator does with the pages it gets back. *)
Theorem unprotect_frees s as_ T : space s as_ T ->
  exists s', unprotect as_ s = Ok (tt, s') /\ same_regs s s' /\
    (forall x, x ∈ owned (pool s') <-> x ∈ owned (pool s) /\ ~ exists p, p <> [] /\ T !! p = Some x) /\
    forall a, ~ free (pool s') a -> mem s' a = mem s a.
Proof.
  intros [[Ht Hw Ha] Hr Hk]. unfold unprotect, teardown.
  destruct (teardown_sub as_ T (mem s) Ht Ha Hk (drop 0 pgtables) [] (as_ptr as_) s (t_root _ _ _ _ _ _ _ Ht) eq_refl) as (s' & E & R & I & O).
  - intros x (p & _ & Hn & Hx). by apply (Hw p).
  - done.
  - exists s'. split_and!; try done; [apply R..|]. intros x. rewrite O. split; intros [Hx Hn]; (split; [done|]).
    + intros (p & Hp & Hq). apply Hn. exists p. split_and!; [apply prefix_nil|done|done].
    + intros (p & _ & Hp & Hq). apply Hn. by exists p.
Qed.
End Free.
