(* ===== verification/X86VmeInit.v ===== *)
(** [protect] and [vme_init] of [X86Vme]: a new address space has no user pages and the
    kernel's translations, and on the 32-bit machine the kernel's are the identity. *)

From S2P Require Import Prelude X86Vme X86VmeTree X86VmeWalk X86VmeMap.

(** * Loops over the kernel areas *)

Section Loops.
Context {MMU : Mmu} {PO : PageOps}.

Fixpoint for_each (l : list Z) (f : Z -> M vm unit) : M vm unit :=
  match l with [] => mret tt | x :: l => f x ≫= fun _ => for_each l f end.

Lemma for_each_app l1 l2 f s : for_each (l1 ++ l2) f s = (for_each l1 f ≫= fun _ => for_each l2 f) s.
Proof.
  revert s. induction l1 as [|x l1 IH]; intros s; [done|]. cbn [app for_each]. rewrite bind_assoc. unfold mbind, M_bind.
  destruct (f x s) as [[[] s1]|e]; [|done]. apply IH.
Qed.

(** An area is the multiples [a * step] to [(b - 1) * step], up to the end of the address
    space if the sum wraps. *)
Definition multiples (step a b : Z) : list Z := List.map (fun j => j * step) (seqZ a (b - a)).
Definition covers (step : Z) (ar : Area) (a b : Z) : Prop :=
  start ar = a * step /\ end_ ar = wrap word_bits (b * step) /\ 0 <= a < b /\ b * step <= 2 ^ word_bits /\ (b * step = 2 ^ word_bits -> 0 < a).

Lemma area_loop_each step b last f : 0 < step -> last = wrap word_bits (b * step) -> b * step <= 2 ^ word_bits ->
  forall n cur s, 0 <= cur <= b -> (b * step = 2 ^ word_bits -> 0 < cur) -> b - cur <= Z.of_nat n ->
  area_loop n (wrap word_bits (cur * step)) last step f s = for_each (multiples step cur b) f s.
Proof.
  intros Hst -> Hb n. induction n as [|n IH]; intros cur s Hc Hw Hn.
  - replace cur with b by lia. unfold multiples. rewrite Z.sub_diag. cbn. by rewrite Z.eqb_refl.
  - cbn [area_loop]. destruct (decide (cur = b)) as [->|Hne].
    { unfold multiples. rewrite Z.sub_diag, Z.eqb_refl. done. }
    assert (0 <= cur * step < 2 ^ word_bits) as Hr by nia. rewrite (wrap_id _ (cur * step)) by done.
    assert (cur * step <> wrap word_bits (b * step)) as Hd.
    { destruct (decide (b * step = 2 ^ word_bits)) as [E|E].
      - rewrite E. unfold wrap. rewrite Z_mod_same_full. specialize (Hw E). nia.
      - rewrite wrap_id by (unfold in_u; nia). nia. }
    rewrite (proj2 (Z.eqb_neq _ _) Hd). unfold multiples. rewrite seqZ_cons by lia. cbn [List.map for_each].
    unfold mbind, M_bind. destruct (f (cur * step) s) as [[[] s1]|e]; [|done].
    replace (cur * step + step) with (Z.succ cur * step) by lia. rewrite IH by lia. unfold multiples. do 3 f_equal; lia.
Qed.

Lemma area_loop_covers step ar a b n f s : 0 < step -> covers step ar a b -> b - a <= Z.of_nat n ->
  area_loop n (start ar) (end_ ar) step f s = for_each (multiples step a b) f s.
Proof.
  intros Hst (H1 & H2 & H3 & H4 & H5) Hn. rewrite H1, <- (wrap_id word_bits (a * step)) by (unfold in_u; nia).
  apply area_loop_each; (done || lia).
Qed.

(** All kernel areas, as ranges of multiples. *)
Definition kaddrs (step : Z) (rs : list (Z * Z)) : list Z := flat_map (fun r => multiples step (fst r) (snd r)) rs.

Lemma elem_of_kaddrs step rs x : x ∈ kaddrs step rs <-> exists r j, r ∈ rs /\ fst r <= j < snd r /\ x = j * step.
Proof.
  rewrite list_elem_of_In. unfold kaddrs, multiples. rewrite in_flat_map. split.
  - intros (r & Hr & Hx). apply in_map_iff in Hx as (j & <- & Hj). apply list_elem_of_In in Hr, Hj. apply elem_of_seqZ in Hj. exists r, j. split_and!; [done|lia|lia|done].
  - intros (r & j & Hr & Hj & ->). exists r. split; [by apply list_elem_of_In|]. apply in_map_iff. exists j. split; [done|].
    apply list_elem_of_In, elem_of_seqZ. lia.
Qed.

Lemma kernel_areas_each step rs fuel f s : 0 < step -> Forall2 (fun v r => covers step (area v) (fst r) (snd r)) (List.filter kernel vm_areas) rs ->
  (forall r, r ∈ rs -> snd r - fst r <= Z.of_nat fuel) -> for_kernel_areas fuel step f s = for_each (kaddrs step rs) f s.
Proof.
  intros Hst. unfold for_kernel_areas. revert rs s. induction vm_areas as [|v vs IH]; intros rs s Hc Hf; cbn [List.filter foldr] in *.
  { by inversion Hc. }
  destruct (kernel v); cbn [when].
  - inversion Hc as [|? [a b] ? rs' Hc1 Hc2]; subst. cbn [kaddrs flat_map fst snd]. rewrite for_each_app. unfold mbind, M_bind.
    rewrite (area_loop_covers step (area v) a b fuel f s Hst Hc1) by (apply (Hf (a, b)); rewrite elem_of_cons; by left).
    destruct (for_each _ f s) as [[[] s1]|e]; [|done]. apply IH; [done|]. intros r Hr. apply Hf. rewrite elem_of_cons. by right.
  - by apply IH.
Qed.

(** A loop whose body moves an invariant on, or stops. *)
Lemma for_each_inv (P : list Z -> vm -> Prop) (Q : abort -> Prop) f l : forall done s, P done s ->
  (forall d x s, x ∈ l -> P d s -> match f x s with Ok (_, s') => P (d ++ [x]) s' | Abort e => Q e end) ->
  match for_each l f s with Ok (_, s') => P (done ++ l) s' | Abort e => Q e end.
Proof.
  induction l as [|x l IH]; intros d s Hs Hf; cbn [for_each]; [by rewrite app_nil_r|].
  pose proof (Hf d x s ltac:(rewrite elem_of_cons; by left) Hs) as H1. unfold mbind, M_bind. destruct (f x s) as [[u s1]|e]; [|done].
  rewrite cons_middle, app_assoc. apply IH; [done|]. intros d' y s' Hy. apply Hf. rewrite elem_of_cons. by right.
Qed.
End Loops.

(** The kernel areas are ranges of entries of the root table, apart from the user area. *)
Class KernelOk (MMU : Mmu) {MO : MmuOk MMU} {UO : UserOk MMU} : Type := {
  kranges : list (Z * Z);
  top : Z := 12 + IB * Z.of_nat (levels - 1);
  ko_areas : Forall2 (fun v r => covers (2 ^ top) (area v) (fst r) (snd r)) (List.filter kernel vm_areas) kranges;
  ko_index : Forall (fun r => 0 <= fst r < snd r /\ snd r <= 2 ^ IB /\ (snd r <= ulo \/ uhi <= fst r)) kranges;
}.

Definition kernel32_ok : KernelOk mmu32 (MO := mmu32_ok) (UO := user32_ok).
Proof.
  refine {| kranges := [(0, 256); (1012, 1024)] |}; repeat constructor; vm_compute; try done; try tauto; intros; (done || congruence || tauto).
Defined.
Definition kernel64_ok : KernelOk mmu64 (MO := mmu64_ok) (UO := user64_ok).
Proof.
  refine {| kranges := [(0, 1)] |}; repeat constructor; vm_compute; try done; try tauto; intros; (done || congruence || tauto).
Defined.

Section Init.
Context {MMU : Mmu} {MO : MmuOk MMU} {UO : UserOk MMU} {KO : KernelOk MMU} `{PG : Pager (H := MMU) (PO := PO)}.

(** * [protect] *)

(** The entries of the root table that are the kernel's. *)
Definition kernel_index (i : Z) : Prop := exists r, r ∈ kranges /\ fst r <= i < snd r.

Lemma kernel_index_range i : kernel_index i -> 0 <= i < 2 ^ IB /\ ~ ulo <= i < uhi.
Proof. intros (r & Hr & Hi). pose proof ko_index as Hk. rewrite Forall_forall in Hk. specialize (Hk r Hr). lia. Qed.

Lemma level1_eq : level1 = level_info (levels - 1).
Proof.
  unfold level1. rewrite mo_tables. pose proof mo_levels. destruct levels as [|n]; [lia|].
  rewrite List.seq_S, rev_app_distr. cbn. by rewrite Nat.sub_0_r.
Qed.

Lemma top_pos : 12 <= top.
Proof. unfold top. pose proof mo_ib. nia. Qed.

(** The index of the [j]th stretch of the address space. *)
Lemma digit_multiple j : 0 <= j < 2 ^ IB -> digit (j * 2 ^ top) (levels - 1) = j.
Proof.
  intros Hj. unfold digit. fold top. pose proof top_pos. rewrite Z.div_mul by (apply Z.pow_nonzero; lia). by apply Z.mod_small.
Qed.

(** The tables that every address space shares: the entries for the kernel are not for the
    user, and nobody else writes the root table. *)
Record kernel_tables (s : vm) : Prop := mkKernelTables {
  kt_page : kpt s mod pgsize = 0;
  kt_free : forall i, 0 <= i < 2 ^ IB -> ~ free (pool s) (slot (kpt s) i);
  kt_user : forall i, kernel_index i -> flag (mem s (slot (kpt s) i)) PTE_P && flag (mem s (slot (kpt s) i)) PTE_U = false;
}.

(** The loop that copies them. *)
Definition copied (s : vm) (upt : Z) (l : list Z) (s' : vm) : Prop :=
  pool s' = pool s /\ same_regs s s' /\ (forall i, i * 2 ^ top ∈ l -> kernel_index i) /\
  (forall i, i * 2 ^ top ∈ l -> mem s' (slot upt i) = mem s (slot (kpt s) i)) /\
  (forall a, (forall i, i * 2 ^ top ∈ l -> a <> slot upt i) -> mem s' a = mem s a).

Definition copy_entry (upt cur : Z) : M vm unit :=
  let index := indexof cur level1 in
  k ← gets kpt; e ← load (slot k index); store (slot upt index) e.

Lemma copied_step s upt d j s1 : (forall i j, 0 <= i < 2 ^ IB -> 0 <= j < 2 ^ IB -> slot (kpt s) i <> slot upt j) -> kernel_index j ->
  copied s upt d s1 -> match copy_entry upt (j * 2 ^ top) s1 with Ok (_, s') => copied s upt (d ++ [j * 2 ^ top]) s' | Abort _ => False end.
Proof.
  intros Hd Hk (C1 & C2 & C3 & C4 & C5). pose proof (kernel_index_range j Hk) as [Hj _]. pose proof top_pos.
  assert (0 < 2 ^ top) as Hp by (apply Z.pow_pos_nonneg; lia).
  assert (forall i, i * 2 ^ top ∈ d ++ [j * 2 ^ top] <-> i * 2 ^ top ∈ d \/ i = j) as Hin.
  { intros i. rewrite elem_of_app, list_elem_of_singleton. split; intros [E|E]; auto; right; [by apply Z.mul_cancel_r in E; [|lia]|by subst]. }
  unfold copy_entry. rewrite level1_eq, indexof_digit, digit_multiple by done. cbn. split; [exact C1|]. split; [exact C2|].
  assert (mem s1 (slot (kpt s1) j) = mem s (slot (kpt s) j)) as ->.
  { destruct C2 as [-> _]. apply C5. intros i Hi. apply Hd; [done|]. by apply kernel_index_range, C3. }
  cbn [mem update eta_vm]. split; [|split].
  - intros i [Hi | ->]%Hin; [by apply C3|done].
  - intros i [Hi | ->]%Hin; [|by rewrite Z.eqb_refl]. destruct (Z.eqb_spec (slot upt i) (slot upt j)) as [E|]; [by apply slot_inj in E as ->|by apply C4].
  - intros a Ha. rewrite (proj2 (Z.eqb_neq _ _)) by (apply Ha, Hin; by right). apply C5. intros i Hi. apply Ha, Hin. by left.
Qed.

Lemma copy_loop s upt : (forall i j, 0 <= i < 2 ^ IB -> 0 <= j < 2 ^ IB -> slot (kpt s) i <> slot upt j) ->
  exists s', for_kernel_areas (Z.to_nat (2 ^ bits level1)) (Z.shiftl 1 (shift level1)) (copy_entry upt) s = Ok (tt, s') /\ pool s' = pool s /\ same_regs s s' /\
    (forall i, kernel_index i -> mem s' (slot upt i) = mem s (slot (kpt s) i)) /\
    (forall a, (forall i, kernel_index i -> a <> slot upt i) -> mem s' a = mem s a).
Proof.
  intros Hd. pose proof mo_ib. pose proof top_pos. pose proof ko_index as Hk. rewrite Forall_forall in Hk.
  assert (0 < 2 ^ top) as Htop by (apply Z.pow_pos_nonneg; lia).
  assert (forall i, i * 2 ^ top ∈ kaddrs (2 ^ top) kranges <-> kernel_index i) as Hin.
  { intros i. rewrite elem_of_kaddrs. unfold kernel_index. split; [intros (r & j & Hr & Hj & E)|intros (r & Hr & Hj); by exists r, i].
    apply Z.mul_cancel_r in E; [|lia]. subst. by exists r. }
  assert (shift level1 = top /\ bits level1 = IB) as [-> ->] by (by rewrite level1_eq). rewrite Z.shiftl_1_l.
  rewrite (kernel_areas_each _ kranges); [|done|apply ko_areas|intros r Hr; specialize (Hk r Hr); rewrite Z2Nat.id; lia].
  pose proof (for_each_inv (copied s upt) (fun _ => False) (copy_entry upt) (kaddrs (2 ^ top) kranges) [] s) as H1.
  assert (copied s upt [] s) as Hz by (split_and!; try done; intros i Hi; by apply not_elem_of_nil in Hi). specialize (H1 Hz).
  destruct (for_each _ (copy_entry upt) s) as [[[] s']|e].
  - destruct H1 as (C1 & C2 & C3 & C4 & C5).
    { intros d x s1 Hx. apply elem_of_kaddrs in Hx as (r & j & Hr & Hj & ->). apply copied_step; [done|]. by exists r. }
    exists s'. split_and!; try done; [apply C2..|intros i Hi; by apply C4, Hin|]. intros a Ha. apply C5. intros i Hi. by apply Ha, Hin.
  - exfalso. apply H1. intros d x s1 Hx. apply elem_of_kaddrs in Hx as (r & j & Hr & Hj & ->). apply copied_step; [done|]. by exists r.
Qed.

(** The addresses of the kernel areas. *)
Definition kernel_addr (va : Z) : Prop := exists r, r ∈ kranges /\ fst r * 2 ^ top <= va < snd r * 2 ^ top.

Lemma kernel_addr_index va : kernel_addr va -> kernel_index (digit va (levels - 1)).
Proof.
  intros (r & Hr & Hva). exists r. split; [done|]. pose proof ko_index as Hk. rewrite Forall_forall in Hk. specialize (Hk r Hr).
  pose proof top_pos. assert (0 < 2 ^ top) by (apply Z.pow_pos_nonneg; lia). unfold digit. fold top.
  assert (fst r <= va / 2 ^ top < snd r) by (split; [apply Z.div_le_lower_bound; lia|apply Z.div_lt_upper_bound; lia]).
  rewrite Z.mod_small by lia. done.
Qed.

(** Translations whose first entries agree. *)
Lemma translate_first m c c' va q q' : q mod pgsize = 0 -> q' mod pgsize = 0 -> baseof c = q -> baseof c' = q' ->
  m (slot q (digit va (levels - 1))) = m (slot q' (digit va (levels - 1))) -> translate m c va = translate m c' va.
Proof.
  intros Hq Hq' Hc Hc' He. unfold translate. rewrite <- (baseof_eq c : _ = _ / 4096 * 4096), <- (baseof_eq c' : _ = _ / 4096 * 4096), Hc, Hc', mo_shifts.
  pose proof mo_levels. destruct levels as [|n]; [lia|]. rewrite List.seq_S, rev_app_distr. cbn [rev app List.map hw_walk]. rewrite Nat.add_0_l, mo_hw.
  cbn [Nat.sub] in He. rewrite Nat.sub_0_r in He. unfold slot, digit in He. by rewrite He.
Qed.

(** The fields of the address space at [as_] are outside the pages of the allocator and
    outside the kernel's root table. *)
Record placed (s : vm) (as_ : Z) : Prop := mkPlaced {
  pl_region : forall k, 0 <= k < 4 -> region (slot as_ k) = false;
  pl_kpt : forall k i, 0 <= k < 4 -> 0 <= i < 2 ^ IB -> slot as_ k <> slot (kpt s) i;
}.

(** The tree of a root table alone. *)
Definition root_tree (asp upt : Z) : gmap (list Z) Z := <[ [0] := upt ]> {[ [] := asp ]}.

Lemma root_tree_lookup asp upt p q : root_tree asp upt !! p = Some q <-> p = [0] /\ q = upt \/ p = [] /\ q = asp.
Proof.
  unfold root_tree. rewrite lookup_insert_Some, lookup_singleton_Some. split.
  - intros [[<- <-]|(Hn & <- & <-)]; auto.
  - intros [[-> ->]|[-> ->]]; auto.
Qed.

Lemma root_tree_space s as_ upt : is_page upt -> upt ∈ owned (pool s) -> region (as_ptr as_) = false ->
  mem s (as_ptr as_) = Z.lor upt uroot -> (forall i, ulo <= i < uhi -> mem s (slot upt i) = 0) ->
  (forall i, 0 <= i < 2 ^ IB -> ~ ulo <= i < uhi -> flag (mem s (slot upt i)) PTE_P && flag (mem s (slot upt i)) PTE_U = false) ->
  space s as_ (root_tree (as_ptr as_) upt) /\ forall va, user va -> sees s as_ va = None.
Proof.
  intros Hp Ho Hr Hptr Hz Hk. pose proof mo_levels. set (asp := as_ptr as_) in *. set (T := root_tree asp upt).
  assert (space s as_ T) as Hs.
  { split; [split; [constructor|..]|..].
    - apply root_tree_lookup. by right.
    - intros p q [[-> ->]|[-> ->]]%root_tree_lookup Hn; [|done]. split; [split; [cbn; lia|]; intros [|k] i; cbn; by intros [= <-]|].
      split; [cbn; lia|]. split; [done|]. intros Hi. pose proof (owned_region _ _ _ Ho Hi : region asp = true). congruence.
    - intros p q i [[-> ->]|[-> ->]]%root_tree_lookup Hok Hl.
      + destruct (T !! ([0] ++ [i])) as [c|] eqn:E; [by apply root_tree_lookup in E as [[? ?]|[? ?]]|]. apply Hz. exact (ok_last _ _ _ _ Hok).
      + rewrite (ok_root _ _ _ Hok), slot_0. assert (T !! ([] ++ [0]) = Some upt) as -> by (apply root_tree_lookup; by left). exact Hptr.
    - intros p i [c Hc]. apply root_tree_lookup in Hc as [[E ->]|[E ->]]; [|by destruct p]. destruct p as [|x [|? ?]]; [|done|done].
      exists asp. apply root_tree_lookup. by right.
    - intros p p' q Hn Hn' [[-> ->]|[-> ->]]%root_tree_lookup [[-> ?]|[-> ?]]%root_tree_lookup; done.
    - intros p q Hn [[-> ->]|[-> ->]]%root_tree_lookup; done.
    - done.
    - exists upt. apply root_tree_lookup. by left.
    - intros r i [[_ ->]|[? _]]%root_tree_lookup; [|done]. apply Hk. }
  split; [done|]. intros va Hu. destruct (sees_leaf s as_ T va Hs Hu) as (p & i & Ep & Hl & ->).
  assert (leaf (mem s) T p i = 0) as ->; [|done]. unfold leaf. destruct (T !! p) as [q|] eqn:E; [|done].
  apply root_tree_lookup in E as [[-> ->]|[-> ->]]; [|cbn in Hl; lia]. apply Hz. pose proof (user_path va Hu) as Hok. rewrite Ep in Hok.
  exact (ok_last _ _ _ _ Hok).
Qed.

(** The stores to the fields. *)
Definition fields_done (s : vm) (as_ upt : Z) (s' : vm) : Prop :=
  pool s' = pool s /\ same_regs s s' /\ mem s' (as_pgsize as_) = pgsize /\ mem s' (as_start as_) = start uvm_area /\
  mem s' (as_end as_) = end_ uvm_area /\ mem s' (as_ptr as_) = Z.lor upt uroot /\
  forall a, (forall k, 0 <= k < 4 -> a <> slot as_ k) -> mem s' a = mem s a.

Lemma store_fields s as_ upt : exists s',
  (store (as_pgsize as_) pgsize ≫= fun _ => store (as_start as_) (start uvm_area) ≫= fun _ =>
   store (as_end as_) (end_ uvm_area) ≫= fun _ => store (as_ptr as_) (Z.lor (Z.lor upt PTE_P) PTE_U)) s = Ok (tt, s') /\ fields_done s as_ upt s'.
Proof.
  pose proof size_pos as Hsz. eexists. split; [reflexivity|]. split; [done|]. split; [done|]. unfold as_pgsize, as_start, as_end, as_ptr.
  assert (forall j k, (slot as_ j =? slot as_ k) = (j =? k)) as Hs.
  { intros j k. destruct (Z.eqb_spec j k) as [->|Hn]; [apply Z.eqb_refl|]. apply Z.eqb_neq. by intros ->%slot_inj. }
  cbn [mem update eta_vm]. rewrite !Hs. cbn. split_and!; try done; [by rewrite <- Z.lor_assoc|].
  intros a Ha. by rewrite !(proj2 (Z.eqb_neq _ _)) by (apply Ha; lia).
Qed.

(** The words that [protect] writes. *)
Record protected (s : vm) (as_ upt : Z) (s' : vm) : Prop := mkProtected {
  pr_page : is_page upt;
  pr_new : upt ∉ owned (pool s);
  pr_owned : owned (pool s') = {[upt]} ∪ owned (pool s);
  pr_kpt : kpt s' = kpt s;
  pr_fields : mem s' (as_pgsize as_) = pgsize /\ mem s' (as_start as_) = start uvm_area /\ mem s' (as_end as_) = end_ uvm_area;
  pr_ptr : mem s' (as_ptr as_) = Z.lor upt uroot;
  pr_kernel : forall i, 0 <= i < 2 ^ IB -> mem s' (slot (kpt s) i) = mem s (slot (kpt s) i);
  pr_copy : forall i, kernel_index i -> mem s' (slot upt i) = mem s (slot (kpt s) i);
  pr_zero : forall i, 0 <= i < 2 ^ IB -> ~ kernel_index i -> mem s' (slot upt i) = 0;
}.

Lemma protect_words s as_ : kernel_tables s -> placed s as_ ->
  match protect as_ s with Ok (_, s') => exists upt, protected s as_ upt s' | Abort e => oom s 1 e end.
Proof.
  intros [K0 K1 K2] [L1 L2]. unfold protect. pose proof (pgallocz_spec s) as A. destruct (pgallocz s) as [[upt s1]|e] eqn:E; [|by rewrite (bind_abort _ _ _ _ E)].
  rewrite (bind_run _ _ _ _ _ E). destruct A as (A1 & A2 & A3 & (A4 & A4' & A4'') & A5 & A6). pose proof A1 as (_ & Aupt & _).
  assert (forall j, 0 <= j < 2 ^ IB -> region (slot upt j) = true) as Hreg.
  { intros j Hj. apply (owned_region (pool s1) upt); [set_solver|]. by apply slot_page. }
  assert (forall i j, 0 <= i < 2 ^ IB -> 0 <= j < 2 ^ IB -> slot (kpt s) i <> slot upt j) as Hku.
  { intros i j Hi Hj Es. apply (K1 i Hi). rewrite Es. by apply fresh_free; auto. }
  change (fun cur => let index := indexof cur level1 in k ← gets kpt; e ← load (slot k index); store (slot upt index) e) with (copy_entry upt).
  destruct (copy_loop s1 upt) as (s2 & E2 & C1 & (C2 & C2' & C2'') & C3 & C4); [by rewrite A4|]. rewrite (bind_run _ _ _ _ _ E2).
  destruct (store_fields s2 as_ upt) as (s3 & E3 & F1 & (F2 & F2' & F2'') & F3 & F4 & F5 & F6 & F7). rewrite E3. exists upt.
  assert (forall i, 0 <= i < 2 ^ IB -> mem s3 (slot upt i) = mem s2 (slot upt i)) as Hupt.
  { intros i Hi. apply F7. intros k Hk Es. pose proof (L1 k Hk) as Hr. rewrite <- Es, (Hreg i Hi) in Hr. done. }
  constructor; try done.
  - by rewrite F1, C1, A3.
  - congruence.
  - intros i Hi. rewrite F7 by (intros k Hk Es; by apply (L2 k i Hk Hi)). rewrite C4; [by apply A6, K1|]. intros j [Hj _]%kernel_index_range. by apply Hku.
  - intros i Hi. pose proof (kernel_index_range i Hi) as [Hr _]. rewrite Hupt, C3, A4 by done. by apply A6, K1.
  - intros i Hi Hn. rewrite Hupt, C4, A5 by (done || intros j Hj Es; apply slot_inj in Es; by subst). done.
Qed.

(** An address space in use, made in the state [s0]: its pages are the only new ones, the
    kernel's entries are shared, and the program sees [f]. *)
Record live (s0 : vm) (as_ : Z) (f : Z -> option (Z * bool * bool)) (s : vm) (T : gmap (list Z) Z) : Prop := mkLive {
  lv_space : space s as_ T;
  lv_new : forall p q, p <> [] -> T !! p = Some q -> q ∉ owned (pool s0);
  lv_owned : forall q, q ∈ owned (pool s) <-> q ∈ owned (pool s0) \/ exists p, p <> [] /\ T !! p = Some q;
  lv_tables : kernel_tables s;
  lv_kpt : kpt s = kpt s0;
  lv_kernel : forall r i, T !! [0] = Some r -> kernel_index i -> mem s (slot r i) = mem s (slot (kpt s) i);
  lv_user : forall va, user va -> sees s as_ va = f va;
}.

Lemma kernel_index_dec i : kernel_index i \/ ~ kernel_index i.
Proof. destruct (decide (Exists (fun r => fst r <= i < snd r) kranges)) as [Hx|Hx]; rewrite Exists_exists in Hx; [by left|by right]. Qed.

Lemma protected_live s as_ upt s' : kernel_tables s -> placed s as_ -> protected s as_ upt s' ->
  live s as_ (fun _ => None) s' (root_tree (as_ptr as_) upt).
Proof.
  intros [K0 K1 K2] [L1 L2] [P1 P2 P3 P4 _ P6 P7 P8 P9].
  destruct (root_tree_space s' as_ upt P1) as [S1 S2].
  - rewrite P3. set_solver.
  - apply L1. lia.
  - done.
  - pose proof uo_range. intros i Hi. apply P9; [lia|]. by intros [_ Hn]%kernel_index_range.
  - intros i Hi _. destruct (kernel_index_dec i) as [Hk|Hk]; [rewrite P8 by done; by apply K2|by rewrite P9].
  - constructor; try done.
    + intros p q Hn [[_ ->]|[? _]]%root_tree_lookup; done.
    + intros q. rewrite P3, elem_of_union, elem_of_singleton. split.
      * intros [->|Hq]; [right|by left]. exists [0]. split; [done|]. apply root_tree_lookup. by left.
      * intros [Hq|(p & Hn & [[_ ->]|[? _]]%root_tree_lookup)]; [by right|by left|done].
    + constructor; rewrite P4; [done| |].
      * intros i Hi [Fr Fo]. apply (K1 i Hi). split; [done|]. rewrite P3 in Fo. set_solver.
      * intros i Hi. rewrite P7 by (by apply kernel_index_range). by apply K2.
    + intros r i [[_ ->]|[? _]]%root_tree_lookup Hi; [|done]. rewrite P4, P8, P7 by (done || by apply kernel_index_range). done.
Qed.

(** The kernel's addresses in an address space in use. *)
Lemma live_kernel s0 as_ f s T va : live s0 as_ f s T -> kernel_addr va -> sees s as_ va = translate (mem s) (kpt s) va.
Proof.
  intros [[[Ht _ _] [r Hr] _] _ _ [K0 _ _] _ Hk _] Hva%kernel_addr_index. pose proof mo_levels.
  pose proof (t_path _ _ _ _ _ _ _ Ht _ _ Hr ltac:(done)) as (Hok & _ & (_ & Hm & _) & _).
  pose proof (t_entry _ _ _ _ _ _ _ Ht [] _ 0 (t_root _ _ _ _ _ _ _ Ht) Hok ltac:(cbn; lia)) as Hptr.
  rewrite slot_0 in Hptr. change ([] ++ [0]) with [0] in Hptr. rewrite Hr in Hptr. unfold sees.
  apply (translate_first _ _ _ va r (kpt s)); try done; [| |by apply Hk].
  - rewrite Hptr. apply baseof_flags; [done|by vm_compute].
  - rewrite baseof_eq. unfold pgsize in *. Z.to_euclidean_division_equations; lia.
Qed.

(** [protect] makes an empty address space: its tables are one fresh page, no user address
    is translated, every address of the kernel is translated as by the kernel's own tables,
    and the fields say where the user area is. It stops only when there is no page left. *)
Theorem protect_fresh s as_ : kernel_tables s -> placed s as_ ->
  match protect as_ s with
  | Ok (_, s') => exists T, space s' as_ T /\ (forall p q, p <> [] -> T !! p = Some q -> q ∉ owned (pool s)) /\ kernel_tables s' /\
      (forall va, user va -> sees s' as_ va = None) /\
      (forall va, kernel_addr va -> sees s' as_ va = translate (mem s') (kpt s') va) /\
      mem s' (as_pgsize as_) = pgsize /\ mem s' (as_start as_) = start uvm_area /\ mem s' (as_end as_) = end_ uvm_area
  | Abort e => oom s 1 e
  end.
Proof.
  intros Hk Hp. pose proof (protect_words s as_ Hk Hp) as H. destruct (protect as_ s) as [[u s']|e]; [|done]. destruct H as [upt H].
  pose proof (protected_live s as_ upt s' Hk Hp H) as L. exists (root_tree (as_ptr as_) upt). pose proof L as [L1 L2 _ L4 _ _ L7].
  do 4 (split; [done|]). split; [intros va Hva; by apply (live_kernel _ _ _ _ _ va L)|apply H].
Qed.

(** * [vme_init] on the 32-bit machine *)

Section Identity.
Hypotheses (H32 : x86_64 = false) (Hlev : levels = 2%nat) (Hib : IB * Z.of_nat levels <= 20).

Definition kfl : Z := fl1 PTE_W.
Local Abbreviation okk := (ok 0 (2 ^ IB)).
Local Abbreviation kholds := (holds 0 (2 ^ IB) kfl PTE_W).

Lemma link_kernel : link kfl. Proof. by split; vm_compute. Qed.

(** The pages of the kernel areas. *)
Definition page_addr (x : Z) : Prop := x mod 4096 = 0 /\ 0 <= x < 2 ^ (12 + IB * Z.of_nat levels).
Definition pranges : list (Z * Z) := List.map (fun r => (fst r * 2 ^ (top - 12), snd r * 2 ^ (top - 12))) kranges.

Lemma top_split n : n * 2 ^ top = n * 2 ^ (top - 12) * pgsize.
Proof. pose proof top_pos. replace top with (top - 12 + 12) at 1 by lia. rewrite Z.pow_add_r by lia. unfold pgsize. lia. Qed.

Lemma top_width : 2 ^ (12 + IB * Z.of_nat levels) = 2 ^ IB * 2 ^ top.
Proof. pose proof top_pos. pose proof mo_ib. rewrite <- Z.pow_add_r by lia. f_equal. unfold top. rewrite Hlev. lia. Qed.

Lemma pranges_cover : Forall2 (fun v r => covers pgsize (area v) (fst r) (snd r)) (List.filter kernel vm_areas) pranges.
Proof.
  unfold pranges. apply Forall2_fmap_r. pose proof top_pos. assert (0 < 2 ^ (top - 12)) by (apply Z.pow_pos_nonneg; lia).
  eapply Forall2_impl; [apply ko_areas|]. intros v [a b] (C1 & C2 & C3 & C4 & C5). cbn [fst snd] in *. unfold covers, compose. cbn [fst snd]. rewrite <- !top_split.
  split_and!; try done; [nia|nia|]. intros E. specialize (C5 E). nia.
Qed.

Lemma pranges_page x : x ∈ kaddrs pgsize pranges -> page_addr x /\ kernel_addr x.
Proof.
  intros (r' & j & Hr & Hj & ->)%elem_of_kaddrs. apply list_elem_of_In, in_map_iff in Hr as (r & <- & Hr%list_elem_of_In). cbn [fst snd] in Hj.
  pose proof ko_index as Hk. rewrite Forall_forall in Hk. specialize (Hk r Hr). pose proof top_pos.
  assert (0 < 2 ^ top) by (apply Z.pow_pos_nonneg; lia). assert (0 < 2 ^ (top - 12)) by (apply Z.pow_pos_nonneg; lia).
  pose proof (top_split (fst r)) as E1. pose proof (top_split (snd r)) as E2. unfold page_addr. rewrite top_width. unfold pgsize in *. split.
  - split; [apply Z_mod_mult|]. nia.
  - exists r. split; [done|]. lia.
Qed.

Lemma kernel_page va : kernel_addr va -> va / 4096 * 4096 ∈ kaddrs pgsize pranges.
Proof.
  intros (r & Hr & Hva). apply elem_of_kaddrs. exists (fst r * 2 ^ (top - 12), snd r * 2 ^ (top - 12)), (va / 4096).
  pose proof (top_split (fst r)) as E1. pose proof (top_split (snd r)) as E2. unfold pgsize in *. cbn [fst snd]. split_and!.
  - apply list_elem_of_In, in_map_iff. exists r. split; [done|]. by apply list_elem_of_In.
  - Z.to_euclidean_division_equations; lia.
  - Z.to_euclidean_division_equations; lia.
  - done.
Qed.

Definition kernel_pte (x : Z) : Z := Z.lor (Z.lor x PTE_P) PTE_W.

Lemma kernel_pte_translation x va : x mod 4096 = 0 ->
  leaf_translation (kernel_pte x) va true true = Some (x + va mod 4096, true, false) /\ Z.testbit (kernel_pte x) 2 = false.
Proof.
  intros Hx. unfold kernel_pte, leaf_translation. rewrite <- Z.lor_assoc. assert (0 <= Z.lor PTE_P PTE_W < pgsize) by done.
  assert (forall k, 0 <= k < 12 -> Z.testbit (Z.lor x (Z.lor PTE_P PTE_W)) k = Z.testbit 3 k) as Hb by (intros k Hk; by apply flags_bits).
  rewrite !Hb by lia. split; [|done]. by rewrite <- (baseof_eq (Z.lor x _) : _ = _ / 4096 * 4096), baseof_flags.
Qed.

(** The tables after the pages [d] have been entered, in a run from [s0]. *)
Record identity (s0 : vm) (asp : Z) (d : list Z) (s : vm) (T : gmap (list Z) Z) : Prop := mkIdentity {
  id_holds : kholds s asp T;
  id_pages : Forall page_addr d;
  id_root : d <> [] -> is_Some (T !! [0]);
  id_leaf : forall x p i, x ∈ d -> path x = p ++ [i] -> leaf (mem s) T p i = kernel_pte x;
  id_none : forall p i, length p = levels -> okk (p ++ [i]) -> (forall x, x ∈ d -> path x <> p ++ [i]) -> leaf (mem s) T p i = 0;
  id_owned : owned (pool s0) ⊆ owned (pool s);
  id_new : forall p q, p <> [] -> T !! p = Some q -> q ∉ owned (pool s0);
  id_tables : forall q, q ∈ owned (pool s) -> q ∈ owned (pool s0) \/ exists p, T !! p = Some q;
  id_frame : forall a, ~ free (pool s0) a -> a <> asp -> mem s a = mem s0 a;
  id_regs : same_regs s0 s;
}.

Lemma identity_start s0 asp : region asp = false -> identity s0 asp [] (s0 <| mem := fun x => if x =? asp then 0 else mem s0 x |>) {[ [] := asp ]}.
Proof.
  intros Hr. constructor; try done.
  - constructor; [constructor|..].
    + by rewrite lookup_singleton_eq.
    + intros p q [<- <-]%lookup_singleton_Some Hn. done.
    + intros p q i [<- <-]%lookup_singleton_Some Ho _. rewrite (ok_root _ _ _ Ho), slot_0. cbn. rewrite Z.eqb_refl.
      by rewrite lookup_singleton_ne.
    + intros p i [c [E _]%lookup_singleton_Some]. by destruct p.
    + intros p p' q Hn _ [<- <-]%lookup_singleton_Some. done.
    + intros p q Hn [<- <-]%lookup_singleton_Some. done.
    + done.
  - intros x p i Hx. by apply not_elem_of_nil in Hx.
  - intros p i Hl _ _. unfold leaf. rewrite lookup_singleton_ne; [done|]. intros <-. rewrite Hlev in Hl. done.
  - intros p q Hn [<- <-]%lookup_singleton_Some. done.
  - intros q Hq. by left.
  - intros a _ Ha. cbn. by rewrite (proj2 (Z.eqb_neq _ _) Ha).
Qed.

Lemma size_list_le {A} `{Countable A} (l : list A) : (size (list_to_set l : gset A) <= length l)%nat.
Proof.
  induction l as [|x l IH]; cbn; [by rewrite size_empty|]. rewrite size_union_alt, size_singleton.
  assert (size (list_to_set l ∖ {[x]} : gset A) <= size (list_to_set l : gset A))%nat by (apply subseteq_size; set_solver). lia.
Qed.

Lemma size_union_le (X Y : gset Z) : (size (X ∪ Y) <= size X + size Y)%nat.
Proof. rewrite size_union_alt. pose proof (subseteq_size (Y ∖ X) Y ltac:(set_solver)). lia. Qed.

(** There are never more tables than entries of the root table, and the root table. *)
Lemma identity_size s0 asp d s T : identity s0 asp d s T -> (size (owned (pool s)) <= size (owned (pool s0)) + (2 + Z.to_nat (2 ^ IB)))%nat.
Proof.
  intros I. set (D := list_to_set ([] :: [0] :: List.map (fun i => [0; i]) (seqZ 0 (2 ^ IB))) : gset (list Z)).
  assert (dom T ⊆ D) as HD.
  { intros p Hp. apply elem_of_dom in Hp as [q Hq]. subst D. apply elem_of_list_to_set. destruct (decide (p = [])) as [->|Hn]; [by left|].
    destruct (t_path _ _ _ _ _ _ _ (h_tree _ _ _ _ _ _ _ (id_holds _ _ _ _ _ I)) _ _ Hq Hn) as ([_ Hok] & Hl & _). rewrite Hlev in Hl.
    destruct p as [|a [|b [|? ?]]]; [done| | |cbn in Hl; lia]; pose proof (Hok 0%nat a eq_refl) as Ha; cbn in Ha; subst a; right; [by left|right].
    pose proof (Hok 1%nat b eq_refl) as Hb. cbn in Hb. apply list_elem_of_In, in_map_iff. exists b. split; [done|]. apply list_elem_of_In, elem_of_seqZ. lia. }
  assert (size (dom T) <= 2 + Z.to_nat (2 ^ IB))%nat as Hs.
  { etransitivity; [by apply subseteq_size|]. subst D. etransitivity; [apply size_list_le|]. cbn. rewrite length_map, length_seqZ. lia. }
  set (img := list_to_set (snd <$> map_to_list T) : gset Z).
  assert (size img <= 2 + Z.to_nat (2 ^ IB))%nat as Hi.
  { subst img. etransitivity; [apply size_list_le|]. rewrite length_fmap, length_map_to_list, <- size_dom. done. }
  assert (owned (pool s) ⊆ owned (pool s0) ∪ img) as Hsub.
  { intros q [Hq|[p Hp]]%(id_tables _ _ _ _ _ I); [by apply elem_of_union_l|]. apply elem_of_union_r. subst img.
    apply elem_of_list_to_set, list_elem_of_fmap. exists (p, q). split; [done|]. by apply elem_of_map_to_list. }
  apply subseteq_size in Hsub. etransitivity; [exact Hsub|]. etransitivity; [apply size_union_le|]. lia.
Qed.

Definition identity_entry (asp cur : Z) : M vm unit := pte ← ptwalk asp cur PTE_W; store pte (kernel_pte cur).

Lemma slots_free s0 asp d s T p q i : identity s0 asp d s T -> T !! p = Some q -> okk (p ++ [i]) -> slot q i = asp \/ free (pool s0) (slot q i).
Proof.
  intros I Hp Ho. pose proof (id_holds _ _ _ _ _ I) as [Ht Hw _]. destruct (decide (p = [])) as [->|Hn].
  - left. rewrite (t_root _ _ _ _ _ _ _ Ht) in Hp. simplify_eq. by rewrite (ok_root _ _ _ Ho), slot_0.
  - right. pose proof (t_path _ _ _ _ _ _ _ Ht _ _ Hp Hn) as (_ & _ & (_ & Hm & _) & _).
    assert (0 <= i < 2 ^ IB) as Hi by (by apply (ok_index 0 (2 ^ IB) (Z.le_refl _) (Z.le_refl _) p)).
    apply fresh_free; [done|by apply (id_new _ _ _ _ _ I p)|done|]. apply (owned_region (pool s) q); [by apply (Hw p)|]. by apply slot_page.
Qed.

(** The walk of a step, before its store. *)
Lemma identity_grows s0 asp d s T s1 T1 : identity s0 asp d s T -> kholds s1 asp T1 -> grows 0 (2 ^ IB) s T s1 T1 -> identity s0 asp d s1 T1.
Proof.
  intros I H1 G. pose proof I as [I1 I2 I3 I4 I5 I6 I7 I8 I9 I10]. pose proof G as [G1 G2 G3 G4 G5 G6 G7]. constructor; try done.
  - intros Hd. destruct (I3 Hd) as [r Hr]. exists r. by apply (lookup_weaken _ _ _ _ Hr).
  - intros x p i Hx E. rewrite G5; [by apply I4|..].
    + apply (f_equal length) in E. unfold path in E. rewrite length_map, length_pgtables, length_app in E. cbn in E. lia.
    + rewrite <- E. apply all_path.
  - intros p i Hl Ho Hn. rewrite G5 by done. by apply I5.
  - set_solver.
  - intros p q Hn [Hq|(_ & _ & Hq & _)]%G3; [by apply (I7 p)|]. set_solver.
  - intros q [Hq|Hq]%G4; [|by right]. apply I8 in Hq as [Hq|[p Hp]]; [by left|]. right. exists p. by apply (lookup_weaken _ _ _ _ Hp).
  - intros a Ha Hne. rewrite G6; [by apply I9| |].
    + intros [F1 F2]. apply Ha. split; [done|]. set_solver.
    + intros p q i Hp Ho ->. destruct (slots_free s0 asp d s T p q i I Hp Ho); done.
  - destruct I10 as (? & ? & ?), G7 as (? & ? & ?). split_and!; congruence.
Qed.

Lemma identity_store s0 asp d s T p q i x : identity s0 asp d s T -> page_addr x -> path x = p ++ [i] -> T !! p = Some q ->
  identity s0 asp (d ++ [x]) (s <| mem := fun a => if a =? slot q i then kernel_pte x else mem s a |>) T.
Proof.
  intros I Hx Ep Hq. pose proof I as [I1 I2 I3 I4 I5 I6 I7 I8 I9 I10]. set (s2 := s <| mem := _ |>).
  assert (length p = levels) as Hl.
  { apply (f_equal length) in Ep. unfold path in Ep. rewrite length_map, length_pgtables, length_app in Ep. cbn in Ep. lia. }
  assert (okk (p ++ [i])) as Ho by (rewrite <- Ep; apply all_path).
  assert (mem s2 (slot q i) = kernel_pte x) as Hv by (cbn; by rewrite Z.eqb_refl).
  assert (forall a, a <> slot q i -> mem s2 a = mem s a) as Hne by (intros a Ha; cbn; by rewrite (proj2 (Z.eqb_neq _ _) Ha)).
  destruct (tree_leaf 0 (2 ^ IB) (Z.le_refl _) (Z.le_refl _) kfl (fl1 PTE_W) (mem s) (mem s2) _ T p q i (kernel_pte x) (h_tree _ _ _ _ _ _ _ I1) Hq Ho Hl Hv Hne) as [L1 L2].
  constructor; try done.
  - constructor; [exact L1|apply I1|apply I1].
  - apply Forall_app. split; [done|by apply Forall_singleton].
  - intros _. assert (p <> []) as Hp by (intros ->; rewrite Hlev in Hl; done). pose proof (path_digits x) as Hd. rewrite Ep in Hd.
    destruct p as [|z p]; [done|]. injection Hd as -> _. destruct (T !! [0]) eqn:E; [done|].
    pose proof (tree_none _ _ _ _ _ _ _ [0] p (h_tree _ _ _ _ _ _ _ I1) E) as Hx'. cbn in Hx'. congruence.
  - intros y p' i' Hy E. assert (length p' = levels) as Hl'.
    { apply (f_equal length) in E. unfold path in E. rewrite length_map, length_pgtables, length_app in E. cbn in E. lia. }
    rewrite L2 by (done || rewrite <- E; apply all_path). apply elem_of_app in Hy as [Hy|Hy%list_elem_of_singleton].
    + case_bool_decide as Hd; [|by apply I4]. destruct Hd as [-> ->]. rewrite <- Ep in E. rewrite Forall_forall in I2. destruct (I2 y Hy) as [Y1 Y2], Hx as [X1 X2].
      apply path_page in E; [|done|done]. replace y with x; [done|]. Z.to_euclidean_division_equations; lia.
    + subst y. rewrite Ep in E. apply app_inj_tail in E as [<- <-]. by rewrite bool_decide_true.
  - intros p' i' Hl' Ho' Hn. rewrite L2 by done. rewrite bool_decide_false.
    + apply I5; [done..|]. intros y Hy. apply Hn. rewrite elem_of_app. by left.
    + intros [-> ->]. apply (Hn x); [|done]. rewrite elem_of_app, list_elem_of_singleton. by right.
  - intros a Ha Hna. rewrite Hne; [by apply I9|]. intros ->. destruct (slots_free s0 asp d s T p q i I Hq Ho); done.
Qed.

Lemma identity_step s0 asp d x s T : identity s0 asp d s T -> page_addr x ->
  match identity_entry asp x s with Ok (_, s') => exists T', identity s0 asp (d ++ [x]) s' T' | Abort e => oom s levels e end.
Proof.
  intros I Hx. unfold identity_entry.
  pose proof (ptwalk_spec 0 (2 ^ IB) kfl PTE_W (Z.le_refl _) (Z.le_refl _) link_kernel link_kernel asp x s T (id_holds _ _ _ _ _ I) (all_path x) (or_intror eq_refl)) as W.
  destruct (ptwalk asp x PTE_W s) as [[a s1]|e] eqn:E; [|by rewrite (bind_abort _ _ _ _ E)]. rewrite (bind_run _ _ _ _ _ E).
  destruct W as (T1 & p & q & i & Ep & Hq & -> & H1 & G & _). exists T1.
  apply (identity_store s0 asp d s1 T1 p q i x); [by apply (identity_grows s0 asp d s T)|done..].
Qed.

(** The whole loop, with room for the tables. *)
Lemma identity_loop s0 asp : region asp = false -> (size (owned (pool s0)) + (2 + Z.to_nat (2 ^ IB)) + levels <= capacity)%nat ->
  exists s T, (store asp 0 ≫= fun _ => for_kernel_areas (Z.to_nat (2 ^ 20)) pgsize (identity_entry asp)) s0 = Ok (tt, s) /\
    identity s0 asp (kaddrs pgsize pranges) s T.
Proof.
  intros Hr Hc. rewrite (bind_run (store asp 0) _ s0 tt (s0 <| mem := fun x => if x =? asp then 0 else mem s0 x |>) eq_refl).
  rewrite (kernel_areas_each pgsize pranges); [|done|apply pranges_cover|].
  - pose proof (for_each_inv (fun d s => exists T, identity s0 asp d s T) (fun _ => False) (identity_entry asp) (kaddrs pgsize pranges) []
      (s0 <| mem := fun x => if x =? asp then 0 else mem s0 x |>) (ex_intro _ _ (identity_start s0 asp Hr))) as L.
    assert (forall d x s, x ∈ kaddrs pgsize pranges -> (exists T, identity s0 asp d s T) ->
      match identity_entry asp x s with Ok (_, s') => exists T, identity s0 asp (d ++ [x]) s' T | Abort _ => False end) as Hstep.
    { intros d x s [Hx _]%pranges_page [T I]. pose proof (identity_step s0 asp d x s T I Hx) as St. destruct (identity_entry asp x s); [done|].
      destruct St as [_ St]. pose proof (identity_size s0 asp d s T I). lia. }
    specialize (L Hstep). destruct (for_each _ _ _) as [[[] s]|e]; [|done]. destruct L as [T I]. by exists s, T.
  - intros r Hr'. apply list_elem_of_In, in_map_iff in Hr' as (r0 & <- & Hr0%list_elem_of_In). cbn [fst snd].
    pose proof ko_index as Hk. rewrite Forall_forall in Hk. specialize (Hk r0 Hr0). pose proof top_pos. pose proof mo_ib.
    rewrite Z2Nat.id by lia. assert (2 ^ IB * 2 ^ (top - 12) <= 2 ^ 20).
    { rewrite <- Z.pow_add_r by lia. apply Z.pow_le_mono_r; [lia|]. unfold top. rewrite Hlev in *. cbn. lia. }
    assert (0 < 2 ^ (top - 12)) by (apply Z.pow_pos_nonneg; lia). nia.
Qed.

(** What the processor makes of the tables. *)
Lemma identity_translate s0 asp s T va : identity s0 asp (kaddrs pgsize pranges) s T -> is_Some (T !! [0]) -> 0 <= va < 2 ^ (12 + IB * Z.of_nat levels) ->
  (kernel_addr va -> translate (mem s) (mem s asp) va = Some (va, true, false)) /\
  (~ kernel_addr va -> translate (mem s) (mem s asp) va = None).
Proof.
  intros I Hr Hva. pose proof (id_holds _ _ _ _ _ I) as [Ht _ _].
  destruct (translate_spec 0 (2 ^ IB) kfl PTE_W link_kernel link_kernel (mem s) asp T va Ht Hr (all_path va)) as (p & i & Ep & Hl & Hx).
  assert (page_addr (va / 4096 * 4096)) as Hpg.
  { split; [apply Z_mod_mult|]. Z.to_euclidean_division_equations; lia. }
  assert (path (va / 4096 * 4096) = path va) as Epg by (apply path_page; [apply Hpg|done|by rewrite Z.div_mul]).
  split; intros Hk.
  - assert (leaf (mem s) T p i = kernel_pte (va / 4096 * 4096)) as E by (apply (id_leaf _ _ _ _ _ I); [by apply kernel_page|by rewrite Epg]).
    destruct (kernel_pte_translation (va / 4096 * 4096) va (proj1 Hpg)) as [K1 K2]. rewrite E in Hx. rewrite Hx by (split; [done|by right]).
    rewrite K1. do 3 f_equal. pose proof (Z.div_mod va 4096). lia.
  - assert (leaf (mem s) T p i = 0) as E.
    { apply (id_none _ _ _ _ _ I); [done|rewrite <- Ep; apply all_path|]. intros x Hx' Exp. apply pranges_page in Hx' as [Hp Hkx]. apply Hk.
      rewrite <- Ep in Exp. apply path_page in Exp; [|apply Hp|done]. destruct Hkx as (r & Hr' & Hb). exists r. split; [done|].
      pose proof (top_split (fst r)) as E1. pose proof (top_split (snd r)) as E2. destruct Hp as [Hp _]. unfold pgsize in *.
      Z.to_euclidean_division_equations; lia. }
    rewrite E in Hx. rewrite Hx; [done|]. split; [done|by right].
Qed.

(** The root table as the kernel's. *)
Lemma identity_tables s0 asp d s T root s' : identity s0 asp d s T -> T !! [0] = Some root -> mem s' = mem s -> pool s' = pool s -> kpt s' = root -> kernel_tables s'.
Proof.
  intros I Hroot Em Ep Ek. pose proof (id_holds _ _ _ _ _ I) as [Ht Hw _].
  pose proof (t_path _ _ _ _ _ _ _ Ht _ _ Hroot ltac:(done)) as (Hok & _ & (_ & Hm & _) & _). constructor; rewrite ?Ek, ?Em, ?Ep.
  - done.
  - intros i Hi [_ F]. apply F. rewrite (baseof_page root) by (try apply slot_page; done). by apply (Hw [0]).
  - intros i Hi. apply kernel_index_range in Hi as [Hi _].
    assert (okk ([0] ++ [i])) as Hoi by (split; [rewrite Hlev; cbn; lia|]; intros [|[|k]] j; cbn; intros [= <-]; done).
    pose proof (t_entry _ _ _ _ _ _ _ Ht [0] root i Hroot Hoi) as He. rewrite Hlev in He. rewrite He by (cbn; lia).
    destruct (T !! ([0] ++ [i])) as [c|] eqn:Ec; [|done].
    pose proof (t_path _ _ _ _ _ _ _ Ht _ _ Ec ltac:(done)) as (_ & _ & (_ & Hcm & _) & _).
    assert (flag (Z.lor c kfl) PTE_U = false) as Hu by (change PTE_U with (2 ^ 2); rewrite flag_bit, flags_bits by (done || lia); done).
    unfold fl. cbn [length Nat.eqb app]. change (fl1 PTE_W) with kfl. by rewrite Hu, andb_false_r.
Qed.

Lemma vme_init_tables s0 asp : region asp = false -> (size (owned (pool s0)) + (2 + Z.to_nat (2 ^ IB)) + levels <= capacity)%nat -> kranges <> [] ->
  exists s', vme_init 0 asp s0 = Ok (true, s') /\ kernel_tables s' /\ cr3 s' = kpt s' /\ cr0 s' = Z.lor (cr0 s0) CR0_PG /\
    owned (pool s0) ⊆ owned (pool s') /\ (forall a, ~ free (pool s0) a -> a <> asp -> mem s' a = mem s0 a) /\
    forall va, 0 <= va < 2 ^ (12 + IB * Z.of_nat levels) ->
      (kernel_addr va -> translate (mem s') (cr3 s') va = Some (va, true, false)) /\ (~ kernel_addr va -> translate (mem s') (cr3 s') va = None).
Proof.
  intros Hr Hc Hk. destruct (identity_loop s0 asp Hr Hc) as (s & T & E & I).
  assert (kaddrs pgsize pranges <> []) as Hne.
  { destruct kranges as [|r rs] eqn:Er; [done|]. pose proof ko_index as Hx. rewrite Er in Hx. inversion Hx as [|? ? Hx1 _]; subst.
    pose proof top_pos. assert (0 < 2 ^ top) by (apply Z.pow_pos_nonneg; lia). intros Hn.
    assert (fst r * 2 ^ top / 4096 * 4096 ∈ kaddrs pgsize pranges) as Hin by (apply kernel_page; exists r; rewrite Er; split; [by left|nia]).
    rewrite Hn in Hin. by apply not_elem_of_nil in Hin. }
  destruct (id_root _ _ _ _ _ I Hne) as [root Hroot]. pose proof (id_holds _ _ _ _ _ I) as [Ht Hw _].
  pose proof (t_path _ _ _ _ _ _ _ Ht _ _ Hroot ltac:(done)) as (Hok & _ & (_ & Hm & _) & _).
  pose proof (t_entry _ _ _ _ _ _ _ Ht [] asp 0 (t_root _ _ _ _ _ _ _ Ht) Hok) as Hptr. rewrite Hlev in Hptr. specialize (Hptr ltac:(cbn; lia)).
  rewrite slot_0 in Hptr. change ([] ++ [0]) with [0] in Hptr. rewrite Hroot in Hptr.
  assert (baseof (mem s asp) = root) as Hb by (rewrite Hptr; apply baseof_flags; [done|by vm_compute]).
  destruct (id_regs _ _ _ _ _ I) as (R1 & R2 & R3).
  exists (s <| kpt := root |> <| cr3 := root |> <| cr0 := Z.lor (cr0 s) CR0_PG |>). split.
  { unfold vme_init. rewrite H32. cbn [Z.eqb negb panic_on]. erewrite bind_run by reflexivity. rewrite bind_assoc.
    change (fun cur => pte ← ptwalk asp cur PTE_W; store pte (Z.lor (Z.lor cur PTE_P) PTE_W)) with (identity_entry asp).
    unfold mbind, M_bind in E |- *. destruct (store asp 0 s0) as [[[] s1]|e]; [|done]. rewrite E. cbn. by rewrite Hb. }
  split.
  - by apply (identity_tables s0 asp (kaddrs pgsize pranges) s T root).
  - split; [done|]. split; [cbn; by rewrite R3|]. split; [apply (id_owned _ _ _ _ _ I)|]. split; [apply (id_frame _ _ _ _ _ I)|].
    intros va Hva. cbn. assert (translate (mem s) root va = translate (mem s) (mem s asp) va) as ->.
    { apply (translate_first _ _ _ va root root); try done. rewrite baseof_eq. unfold pgsize in *. Z.to_euclidean_division_equations; lia. }
    apply (identity_translate s0 asp s T va I); [by rewrite Hroot|done].
Qed.
End Identity.
End Init.
