(* ===== verification/X86VmeLife.v ===== *)
(** The life of an address space of [X86Vme], from [protect] over any calls of [map] to
    [unprotect], against a partial function on addresses; and the 32-bit kernel tables. *)

From S2P Require Import Prelude X86Vme X86VmeTree X86VmeWalk X86VmeMap X86VmeFree X86VmeInit.

Section Life.
Context {MMU : Mmu} {MO : MmuOk MMU} {UO : UserOk MMU} {KO : KernelOk MMU} `{PG : Pager (H := MMU) (PO := PO)}.

(** * The abstract address space *)

Definition view : Type := Z -> option (Z * bool * bool).
Record call : Type := mkCall { c_va : Z; c_pa : Z; c_prot : Z }.

Definition apply_call (f : view) (c : call) : view :=
  fun vb => if vb / 4096 =? c_va c / 4096 then mapped (c_pa c) (c_prot c) vb else f vb.
(** A call that the code accepts. *)
Definition legal (f : view) (c : call) : Prop :=
  user (c_va c) /\ c_va c mod 4096 = 0 /\ c_pa c mod 4096 = 0 /\ (c_prot c = MMAP_NONE <-> is_Some (f (c_va c))).
Fixpoint all_legal (f : view) (cs : list call) : Prop :=
  match cs with [] => True | c :: cs => legal f c /\ all_legal (apply_call f c) cs end.

Fixpoint map_all (as_ : Z) (cs : list call) : M vm unit :=
  match cs with [] => mret tt | c :: cs => map as_ (c_va c) (c_pa c) (c_prot c) ≫= fun _ => map_all as_ cs end.

(** * One call in an address space in use *)

Section Calls.
Variables (s0 : vm) (as_ : Z).
Hypotheses (Hk0 : kernel_tables s0) (Hp0 : placed s0 as_).

(** The kernel's root table is none of the words that a call may write. *)
Lemma kernel_words f s T s' T' i : live s0 as_ f s T -> touches s T s' T' -> 0 <= i < 2 ^ IB ->
  mem s' (slot (kpt s) i) = mem s (slot (kpt s) i).
Proof.
  intros [L1 L2 L3 [_ L4 _] L5 L6 L7] Ht Hi. apply (to_frame _ _ _ _ Ht); [by apply L4|]. pose proof uo_range as [[U1 U2] U3].
  pose proof L1 as [[H1 H2 H3] _ _]. intros p q j Hp Ho E. destruct (decide (p = [])) as [->|Hn].
  - rewrite (t_root _ _ _ _ _ _ _ H1) in Hp. simplify_eq. rewrite (ok_root _ _ _ Ho), slot_0, L5 in E. symmetry in E.
    by apply (pl_kpt _ _ Hp0 3 i ltac:(lia) Hi).
  - apply (kt_free _ Hk0 i Hi). rewrite <- L5, E. pose proof (t_path _ _ _ _ _ _ _ H1 _ _ Hp Hn) as (_ & _ & (_ & Hm & _) & _).
    assert (0 <= j < 2 ^ IB) as Hj by (by apply (ok_index ulo uhi U1 U3 p)).
    apply fresh_free; [done|by apply (L2 p)|done|]. apply (owned_region (pool s) q); [by apply (H2 p)|]. by apply slot_page.
Qed.

Lemma live_call f s T c : live s0 as_ f s T -> legal f c ->
  match map as_ (c_va c) (c_pa c) (c_prot c) s with
  | Ok (_, s') => exists T', live s0 as_ (apply_call f c) s' T' /\ (size (owned (pool s')) <= size (owned (pool s)) + levels)%nat
  | Abort e => oom s levels e
  end.
Proof.
  intros L (C1 & C2 & C3 & C4). pose proof L as [L1 L2 L3 L4 L5 L6 L7]. pose proof (map_guarded s as_ T _ _ (c_prot c) L1 C1 C2 C3) as H.
  rewrite <- (L7 _ C1) in C4. destruct (map as_ (c_va c) (c_pa c) (c_prot c) s) as [[u s']|e]; cbn in H.
  2: { destruct H as [H|[(_ & Hz & Hn)|(_ & Hz & Hn)]]; [done| |tauto]. apply C4 in Hz as [? ?]. congruence. }
  destruct H as (T' & S1 & S2 & S3 & _ & S5). exists T'. split; [|done]. pose proof S2 as [Q1 Q2 Q3 Q4 Q5 (Q6 & _)].
  assert (forall i, 0 <= i < 2 ^ IB -> mem s' (slot (kpt s) i) = mem s (slot (kpt s) i)) as Hkw by (intros i Hi; by apply (kernel_words f s T s' T')).
  constructor; try done.
  - intros p q Hn [Hq|Hq]%Q3; [by apply (L2 p)|]. intros Hq'. apply Hq, L3. by left.
  - intros q. split.
    + intros Hq0. apply Q4 in Hq0 as Hq1. destruct Hq1 as [Hq|[p Hp]].
      * apply L3 in Hq as [Hq|(p & Hn & Hp)]; [by left|]. right. exists p. split; [done|]. by apply (lookup_weaken _ _ _ _ Hp).
      * destruct (decide (p = [])) as [->|Hn]; [|right; by exists p]. exfalso.
        pose proof S1 as [[H1 _ H3] _ _]. rewrite (t_root _ _ _ _ _ _ _ H1) in Hp. simplify_eq.
        rewrite (owned_region (pool s') (as_ptr as_)) in H3; [done|done|]. unfold in_page, pgsize. lia.
    + intros [Hq|(p & Hn & Hp)]; [apply Q2, L3; by left|]. by apply (h_owned _ _ _ _ _ _ _ (sp_holds _ _ _ S1) p).
  - destruct L4 as [K0 K1 K2]. constructor; rewrite Q6; [done| |].
    + intros i Hi [F1 F2]. apply (K1 i Hi). split; [done|]. set_solver.
    + intros i Hi. rewrite Hkw by (by apply kernel_index_range). by apply K2.
  - congruence.
  - intros r i Hr Hi. pose proof (kernel_index_range i Hi) as [Hir Hin]. rewrite Q6, Hkw by done.
    destruct (sp_root _ _ _ L1) as [r0 Hr0]. assert (r = r0) as -> by (apply (lookup_weaken _ T') in Hr0; [congruence|done]).
    rewrite (to_frame _ _ _ _ S2); [by apply L6|by apply (kernel_slot_not_free s as_ T)|]. intros p q j Hp Ho. by apply (kernel_slot s as_ T r0 i p q j).
  - intros va Hva. rewrite S5 by done. unfold apply_call. by rewrite L7.
Qed.

Lemma live_calls cs : forall f s T, live s0 as_ f s T -> all_legal f cs -> (size (owned (pool s)) + levels * length cs <= capacity)%nat ->
  exists s' T', map_all as_ cs s = Ok (tt, s') /\ live s0 as_ (fold_left apply_call cs f) s' T'.
Proof.
  induction cs as [|c cs IH]; intros f s T L Hl Hc; [by exists s, T|]. destruct Hl as [H1 H2]. cbn [map_all fold_left length] in *.
  pose proof (live_call f s T c L H1) as St. unfold mbind, M_bind. destruct (map as_ (c_va c) (c_pa c) (c_prot c) s) as [[[] s1]|e].
  - destruct St as (T1 & L1 & Hs). apply (IH _ s1 T1 L1 H2). lia.
  - destruct St as [_ St]. lia.
Qed.
End Calls.

(** C29. The life of an address space: [protect], then any sequence of calls of [map] that are
    legal for the partial function they build (with a page left for every table), all
    return; then the processor translates the user area exactly as that function says and
    the kernel's addresses as the kernel's tables do; and [unprotect] gives back every page
    that was taken since, so that the allocator is where it was. *)
Theorem address_space_life s0 as_ cs : kernel_tables s0 -> placed s0 as_ -> all_legal (fun _ => None) cs ->
  (size (owned (pool s0)) + 1 + levels * length cs <= capacity)%nat ->
  exists s1 s2, (protect as_ ≫= fun _ => map_all as_ cs) s0 = Ok (tt, s1) /\
    (forall va, user va -> sees s1 as_ va = fold_left apply_call cs (fun _ => None) va) /\
    (forall va, kernel_addr va -> sees s1 as_ va = translate (mem s1) (kpt s0) va) /\
    unprotect as_ s1 = Ok (tt, s2) /\ owned (pool s2) = owned (pool s0).
Proof.
  intros Hk Hp Hl Hc. pose proof (protect_words s0 as_ Hk Hp) as H. unfold mbind at 1, M_bind at 1.
  destruct (protect as_ s0) as [[[] s]|e]; [|destruct H as [_ H]; lia]. destruct H as [upt H]. pose proof (protected_live s0 as_ upt s Hk Hp H) as L.
  destruct (live_calls s0 as_ Hk Hp cs _ s _ L Hl) as (s1 & T1 & E1 & L1).
  { rewrite (pr_owned _ _ _ _ H), size_union, size_singleton by (apply disjoint_singleton_l; apply H). lia. }
  destruct (unprotect_frees s1 as_ T1 (lv_space _ _ _ _ _ L1)) as (s2 & E2 & _ & O2 & _). exists s1, s2. split_and!; try done.
  - apply (lv_user _ _ _ _ _ L1).
  - intros va Hva. rewrite (live_kernel s0 as_ _ s1 T1 va L1 Hva). by rewrite (lv_kpt _ _ _ _ _ L1).
  - apply set_eq. intros x. rewrite O2, (lv_owned _ _ _ _ _ L1). split; [tauto|]. intros Hx. split; [by left|].
    intros (p & Hn & Hq). by apply (lv_new _ _ _ _ _ L1 p x).
Qed.
End Life.

(** * [ucontext] *)

Section Context.
Context {MMU : Mmu} {MO : MmuOk MMU} {PO : PageOps}.

(** The fields of a thread that is about to enter the user program. *)
Definition user_word (root entry kstack_end k : Z) : Z :=
  if k =? 0 then root
  else if k =? (if x86_64 then 17 else 11) then USEL SEG_UCODE
  else if k =? (if x86_64 then 20 else 14) then USEL SEG_UDATA
  else if k =? (if x86_64 then 16 else 10) then entry
  else if k =? (if x86_64 then 18 else 12) then FL_IF
  else if k =? (if x86_64 then 19 else 13) then end_ uvm_area
  else if k =? (if x86_64 then 21 else 6) then kstack_end
  else if negb x86_64 && (k =? 1) then USEL SEG_UDATA
  else 0.

(** The context at the top of the kernel stack enters [entry] in user mode with interrupts on,
    the stack at the end of the user area and the tables of the address space; every other
    register is 0, and no other word is written. *)
Theorem ucontext_words s as_ kstack_end entry : let ctx := kstack_end - Context_words * sizeof_uintptr in
  (forall k, 0 <= k < Context_words -> as_ptr as_ <> slot ctx k) ->
  exists s', ucontext as_ kstack_end entry s = Ok (ctx, s') /\ pool s' = pool s /\
    (forall k, 0 <= k < Context_words -> mem s' (slot ctx k) = user_word (mem s (as_ptr as_)) entry kstack_end k) /\
    forall a, (forall k, 0 <= k < Context_words -> a <> slot ctx k) -> mem s' a = mem s a.
Proof.
  intros ctx Ha. unfold ucontext. fold ctx.
  destruct (clear_words_spec ctx (Z.to_nat Context_words) 0 s) as (s1 & E & P & _ & C1 & C2); [lia|]. rewrite (bind_run _ _ _ _ _ E).
  assert (Z.of_nat (Z.to_nat Context_words) = Context_words) as Ew by (unfold Context_words; by destruct x86_64). rewrite Ew in C1, C2.
  assert (forall j k, (slot ctx j =? slot ctx k) = (j =? k)) as Hs.
  { intros j k. destruct (Z.eqb_spec j k) as [->|Hn]; [apply Z.eqb_refl|]. apply Z.eqb_neq. by intros ->%slot_inj. }
  assert (forall j, 0 <= j < Context_words -> (as_ptr as_ =? slot ctx j) = false) as Hp by (intros j Hj; by apply Z.eqb_neq, Ha).
  assert (mem s1 (as_ptr as_) = mem s (as_ptr as_)) as Hroot by (apply C2; intros k Hk; apply Ha; lia).
  unfold Context_words, user_word in *. destruct x86_64.
  all: eexists; split; [reflexivity|]; cbn [mem pool update eta_vm]; split; [exact P|]; rewrite !Hp, Hroot by lia; split.
  all: try (intros k Hk; rewrite !Hs; repeat (zcase; [by subst|]); cbn [negb andb]; rewrite ?C1 by lia; done).
  all: intros a Hk; rewrite !(proj2 (Z.eqb_neq _ _)) by (apply Hk; lia); apply C2; intros k Hk'; apply Hk; lia.
Qed.
End Context.

(** * The kernel tables of the 32-bit machine *)

Section Boot.
Local Existing Instances mmu32 mmu32_ok user32_ok kernel32_ok.
Context `{PG : Pager (H := mmu32) (PO := PO)}.

Lemma kernel_addr32 va : kernel_addr va <-> 0 <= va < 0x40000000 \/ 0xfd000000 <= va < 2 ^ 32.
Proof.
  unfold kernel_addr. change (2 ^ top) with 0x400000. change kranges with [(0, 256); (1012, 1024)]. split.
  - intros (r & Hr & Hva). rewrite !elem_of_cons in Hr. destruct Hr as [-> | [-> | Hr%not_elem_of_nil]]; [| |done]; cbn in *; lia.
  - intros [H|H]; [exists (0, 256)|exists (1012, 1024)]; (split; [set_solver|cbn in *; lia]).
Qed.

(** C32. On the 32-bit machine [vme_init] builds the identity: with 1028 pages left it returns,
    pages below one gigabyte and the mapped devices from 0xfd000000 to the end of the
    address space are translated to themselves, for the kernel only, and nothing else is;
    the wrapping end of the last area does not make the loop run on. The tables are in the
    state that [protect] relies on. On another processor it panics. *)
Theorem vme_init_identity cpu asp s : region asp = false -> (size (owned (pool s)) + 1028 <= capacity)%nat ->
  if cpu =? 0 then
    exists s', vme_init cpu asp s = Ok (true, s') /\ kernel_tables s' /\ cr3 s' = kpt s' /\ cr0 s' = Z.lor (cr0 s) CR0_PG /\
      forall va, 0 <= va < 2 ^ 32 -> translate (mem s') (cr3 s') va =
        if (va <? 0x40000000) || (0xfd000000 <=? va) then Some (va, true, false) else None
  else vme_init cpu asp s = Abort (APanic "init VME in non-bootstrap CPU").
Proof.
  intros Hr Hc. destruct (Z.eqb_spec cpu 0) as [->|Hn]; [|unfold vme_init; by rewrite (proj2 (Z.eqb_neq _ _) Hn)].
  destruct (vme_init_tables (MMU := mmu32) (MO := mmu32_ok) (UO := user32_ok) (KO := kernel32_ok) eq_refl eq_refl ltac:(by vm_compute) s asp Hr) as (s' & E & K & C3 & C0 & _ & _ & Ht); [|done|].
  { change (Z.to_nat (2 ^ IB)) with 1024%nat. change levels with 2%nat. lia. }
  exists s'. split_and!; try done; [apply K..|]. intros va Hva. specialize (Ht va Hva). rewrite kernel_addr32 in Ht.
  destruct (Z.ltb_spec va 0x40000000), (Z.leb_spec 0xfd000000 va); cbn [orb]; apply Ht; lia.
Qed.
End Boot.
