(* ===== verification/X86VmeDemo.v ===== *)
(** A page allocator that keeps the promises of [Pager], and the theorems of [X86VmeMap] and
    [X86VmeLife] at concrete states of both machines. *)

From S2P Require Import Prelude X86Vme X86VmeTree X86VmeWalk X86VmeMap X86VmeFree X86VmeInit X86VmeLife.

(** * An allocator *)

Definition first_page : Z := 0x100000.
Definition npages : Z := 2048.
Definition page_no (k : Z) : Z := first_page + k * pgsize.

(** The state lists the pages in use; a page that comes back is overwritten. *)
#[local] Instance bump : PageOps := {|
  pages_st := list Z;
  pgalloc := fun _ '(used, m) =>
    match List.find (fun p => negb (existsb (Z.eqb p) used)) (List.map page_no (seqZ 0 npages)) with
    | Some p => (p, (p :: used, m))
    | None => (0, (used, m))
    end;
  pgfree := fun p '(used, m) =>
    (List.filter (fun q => negb (q =? p)) used, fun a => if baseof a =? p then 0xdeadbeef else m a);
|}.

(** The list restricted to the pages of the pool. *)
Definition in_pool (p : Z) : bool := (first_page <=? p) && (p <? first_page + npages * pgsize) && (p mod pgsize =? 0).
Definition used_pages (l : list Z) : gset Z := list_to_set (List.filter in_pool l).

Lemma elem_of_used l p : p ∈ used_pages l <-> p ∈ l /\ in_pool p = true.
Proof. unfold used_pages. rewrite elem_of_list_to_set, !list_elem_of_In, filter_In. done. Qed.

Lemma in_pool_no p : in_pool p = true <-> exists k, 0 <= k < npages /\ p = page_no k.
Proof.
  unfold in_pool, page_no, first_page, npages, pgsize. rewrite !andb_true_iff, Z.leb_le, Z.ltb_lt, Z.eqb_eq. split.
  - intros [[H1 H2] H3]. exists ((p - 0x100000) / 4096). Z.to_euclidean_division_equations; lia.
  - intros (k & Hk & ->). Z.to_euclidean_division_equations; lia.
Qed.

Lemma existsb_used l p : existsb (Z.eqb p) l = true <-> p ∈ l.
Proof. rewrite existsb_exists, list_elem_of_In. split; [intros (x & Hx & ->%Z.eqb_eq); done|]. intros H. exists p. by rewrite Z.eqb_refl. Qed.

Lemma full_pool l : (forall k, 0 <= k < npages -> page_no k ∈ l) -> (Z.to_nat npages <= size (used_pages l))%nat.
Proof.
  intros H. assert (list_to_set (List.map page_no (seqZ 0 npages)) ⊆ used_pages l) as Hs.
  { intros p. rewrite elem_of_list_to_set, list_elem_of_In, in_map_iff. intros (k & <- & Hk). apply list_elem_of_In, elem_of_seqZ in Hk.
    apply elem_of_used. split; [apply H; lia|]. apply in_pool_no. exists k. split; [lia|done]. }
  apply subseteq_size in Hs. rewrite size_list_to_set in Hs.
  - by rewrite length_map, length_seqZ in Hs.
  - apply (NoDup_fmap_2_strong page_no); [|apply NoDup_seqZ]. intros x y _ _. unfold page_no, pgsize. lia.
Qed.

Section Promise.
Context {MMU : Mmu} (Hwide : 32 <= word_bits).

Definition bump_pager : Pager bump.
Proof.
  refine {| owned := used_pages; region := fun a => (first_page <=? a) && (a <? first_page + npages * pgsize); capacity := Z.to_nat npages |}.
  - intros st q a [_ Hq%in_pool_no]%elem_of_used Ha. destruct Hq as (k & Hk & ->). unfold in_page, page_no, first_page, npages, pgsize in *. lia.
  - intros st m p st' m' E. cbn in E. destruct (List.find _ _) as [q|] eqn:Ef; injection E as <- <- <-.
    + apply find_some in Ef as [Hin Hnew%negb_true_iff]. apply in_map_iff in Hin as (k & <- & Hk%list_elem_of_In%elem_of_seqZ).
      assert (page_no k ∉ st) as Hst by (rewrite <- existsb_used; by rewrite Hnew).
      assert (2 ^ 32 <= 2 ^ word_bits) as Hw by (apply Z.pow_le_mono_r; lia).
      split_and!; try done.
      * unfold page_no, first_page, npages, pgsize in *. lia.
      * intros _. split; [unfold is_page, page_no, first_page, npages, pgsize in *; split_and!; [lia| |lia]; Z.to_euclidean_division_equations; lia|].
        split; [rewrite elem_of_used; tauto|]. apply set_eq. intros x. rewrite elem_of_union, elem_of_singleton, !elem_of_used, elem_of_cons.
        split; [tauto|]. intros [->|]; [|tauto]. split; [by left|]. apply in_pool_no. exists k. split; [lia|done].
    + split_and!; try done. intros Hsz. exfalso.
      assert (forall k, 0 <= k < npages -> page_no k ∈ st) as Hall.
      { intros k Hk. rewrite <- existsb_used. apply negb_false_iff. apply (find_none _ _ Ef). apply in_map_iff. exists k. split; [done|].
        apply list_elem_of_In, elem_of_seqZ. lia. }
      apply full_pool in Hall. lia.
  - intros st m p st' m' [Hp Hpool]%elem_of_used E. cbn in E. injection E as <- <-. split.
    + apply set_eq. intros x. rewrite elem_of_difference, elem_of_singleton, !elem_of_used, !list_elem_of_In, filter_In, negb_true_iff, Z.eqb_neq. tauto.
    + intros a Ha. destruct (Z.eqb_spec (baseof a) p) as [E|]; [|done]. destruct Ha. split.
      * apply in_pool_no in Hpool as (k & Hk & Ek). assert (baseof a = a / 4096 * 4096) as Eb.
        { unfold baseof, pgsize. change (4096 - 1) with (Z.ones 12). rewrite <- Z.ldiff_land, Z.ldiff_ones_r, Z.shiftl_mul_pow2, Z.shiftr_div_pow2 by lia. done. }
        rewrite Eb in E. unfold page_no, first_page, npages, pgsize in *. Z.to_euclidean_division_equations; lia.
      * rewrite E, elem_of_used, list_elem_of_In, filter_In, Z.eqb_refl. by intros [[_ ?] _].
Defined.
End Promise.

(** * The 64-bit machine *)

Module Vme64.
#[local] Existing Instances mmu64 mmu64_ok user64_ok kernel64_ok.
#[local] Instance pager64 : Pager bump := bump_pager (MMU := mmu64) ltac:(by vm_compute).

(** The state that [start64.S] leaves: the root table at [PML4_ADDR] has one entry. *)
Definition boot : vm := mkVm (fun a => if a =? PML4_ADDR then 0x2003 else 0) [] PML4_ADDR 0 0.
Definition proc : Z := 0x9000.

Lemma boot_tables : kernel_tables boot.
Proof.
  constructor.
  - done.
  - intros i Hi [F _]. cbn in F. change (2 ^ IB) with 512 in Hi. unfold first_page, npages, pgsize, slot, PML4_ADDR in F. cbn in F. lia.
  - intros i (r & Hr & Hi). change kranges with [(0, 1)] in Hr. apply list_elem_of_singleton in Hr as ->. cbn in Hi. by replace i with 0 by lia.
Qed.

Lemma boot_placed : placed boot proc.
Proof.
  constructor.
  - intros k Hk. cbn. unfold first_page, npages, pgsize, slot, proc. cbn. lia.
  - intros k i Hk Hi. change (2 ^ IB) with 512 in Hi. unfold slot, proc. cbn. unfold PML4_ADDR. lia.
Qed.

(** Two pages, one of them writable; the first is taken out again. *)
Definition calls : list call :=
  [mkCall 0x100000000000 0x300000 3; mkCall 0x100000001000 0x301000 1; mkCall 0x100000000000 0 MMAP_NONE].

Lemma calls_legal : all_legal (fun _ => None) calls.
Proof.
  unfold calls, all_legal, legal. split_and!; try (by vm_compute).
  - split; [done|]. vm_compute. by intros [? ?].
  - split; [done|]. vm_compute. by intros [? ?].
  - split; [|done]. vm_compute. by eexists.
Qed.

Lemma address_space_life_witness :
  fold_left apply_call calls (fun _ => None) 0x100000001234 = Some (0x301234, false, true) /\
  exists s1 s2, (protect proc ≫= fun _ => map_all proc calls) boot = Ok (tt, s1) /\
    (forall va, user va -> sees s1 proc va = fold_left apply_call calls (fun _ => None) va) /\
    (forall va, kernel_addr va -> sees s1 proc va = translate (mem s1) (kpt boot) va) /\
    unprotect proc s1 = Ok (tt, s2) /\ owned (pool s2) = owned (pool boot).
Proof.
  split; [reflexivity|]. apply (address_space_life boot proc calls).
  - exact boot_tables.
  - exact boot_placed.
  - exact calls_legal.
  - change (owned (pool boot)) with (∅ : gset Z). rewrite size_empty. change capacity with 2048%nat. change levels with 4%nat. cbn. lia.
Defined.
End Vme64.

(** * The 32-bit machine *)

Module Vme32.
#[local] Existing Instances mmu32 mmu32_ok user32_ok kernel32_ok.
#[local] Instance pager32 : Pager bump := bump_pager (MMU := mmu32) ltac:(by vm_compute).

Definition cold : vm := mkVm (fun _ => 0) [] 0 0 1.

Lemma vme_init_identity_witness : exists s', vme_init 0 0x8ffc cold = Ok (true, s') /\ kernel_tables s' /\
  cr3 s' = kpt s' /\ cr0 s' = 0x80000001 /\
  forall va, 0 <= va < 2 ^ 32 -> translate (mem s') (cr3 s') va = if (va <? 0x40000000) || (0xfd000000 <=? va) then Some (va, true, false) else None.
Proof.
  apply (vme_init_identity 0 0x8ffc cold); [reflexivity|].
  change (owned (pool cold)) with (∅ : gset Z). rewrite size_empty. change capacity with 2048%nat. lia.
Defined.

(** Two empty address spaces. *)
Definition as1 : Z := 0x9000.
Definition as2 : Z := 0xa000.
Definition root1 : Z := page_no 0.
Definition root2 : Z := page_no 1.
Definition two : vm :=
  mkVm (fun a => if a =? as_ptr as1 then Z.lor root1 uroot else if a =? as_ptr as2 then Z.lor root2 uroot else 0) [root1; root2] 0 0 0.

Lemma two_space as_ r : (as_ = as1 /\ r = root1) \/ (as_ = as2 /\ r = root2) ->
  space two as_ (root_tree (as_ptr as_) r) /\ forall va, user va -> sees two as_ va = None.
Proof.
  intros H. assert (forall i, 0 <= i < 1024 -> mem two (slot r i) = 0) as Hz.
  { intros i Hi. destruct H as [[_ ->]|[_ ->]]; cbn; unfold as_ptr, as1, as2, root1, root2, slot, page_no, first_page, pgsize; cbn;
      by rewrite !(proj2 (Z.eqb_neq _ _)) by lia. }
  apply root_tree_space.
  - destruct H as [[_ ->]|[_ ->]]; repeat split; by vm_compute.
  - destruct H as [[_ ->]|[_ ->]]; apply elem_of_used; (split; [set_solver|reflexivity]).
  - by destruct H as [[-> ->]|[-> ->]].
  - by destruct H as [[-> ->]|[-> ->]].
  - intros i Hi. change ulo with 256 in Hi. change uhi with 512 in Hi. apply Hz. lia.
  - intros i Hi _. change (2 ^ IB) with 1024 in Hi. by rewrite Hz.
Qed.

Lemma two_apart : apart (as_ptr as1) (root_tree (as_ptr as1) root1) (as_ptr as2) (root_tree (as_ptr as2) root2).
Proof.
  split; [done|]. intros p p' q Hn Hn' [[_ ->]|[? _]]%root_tree_lookup [[_ ?]|[? _]]%root_tree_lookup; done.
Qed.

Lemma map_refines_witness : let va := 0x40001000 in let pa := 0x7000 in
  IN_RANGE va uvm_area = true /\ va mod 4096 = 0 /\ pa mod 4096 = 0 /\
  if negb (IN_RANGE va uvm_area) then map as1 va pa 3 two = Abort (APanic "mapping an invalid address")
  else if negb (va mod 4096 =? 0) || negb (pa mod 4096 =? 0) then map as1 va pa 3 two = Abort (APanic "non-page-boundary address")
  else maps two as1 (root_tree (as_ptr as1) root1) va pa 3 (map as1 va pa 3 two).
Proof.
  intros va pa. split; [reflexivity|]. split; [reflexivity|]. split; [reflexivity|].
  exact (map_refines two as1 (root_tree (as_ptr as1) root1) va pa 3 (proj1 (two_space as1 root1 (or_introl (conj eq_refl eq_refl))))).
Defined.

(** The call returns. *)
Lemma two_maps : exists s', map as1 0x40001000 0x7000 3 two = Ok (tt, s').
Proof.
  destruct (two_space as1 root1 ltac:(by left)) as [Hs Hn]. pose proof (map_guarded two as1 _ 0x40001000 0x7000 3 Hs eq_refl eq_refl eq_refl) as H.
  destruct (map as1 0x40001000 0x7000 3 two) as [[[] s']|e]; [by exists s'|]. exfalso.
  destruct H as [[_ H]|[(_ & H & _)|(_ & _ & H)]]; [|discriminate H|rewrite Hn in H by reflexivity; destruct H as [? H]; discriminate H].
  assert (size (owned (pool two)) = 2%nat) as E by (by vm_compute). rewrite E in H. change capacity with 2048%nat in H. change levels with 2%nat in H. lia.
Qed.

Lemma map_isolates_witness : exists s' T', map as1 0x40001000 0x7000 3 two = Ok (tt, s') /\ space s' as1 T' /\
  space s' as2 (root_tree (as_ptr as2) root2) /\ forall vb, user vb -> sees s' as2 vb = sees two as2 vb.
Proof.
  destruct two_maps as [s' E].
  destruct (map_isolates two s' as1 (root_tree (as_ptr as1) root1) as2 (root_tree (as_ptr as2) root2) 0x40001000 0x7000 3) as (T' & H1 & H2 & _ & H4).
  - exact (proj1 (two_space as1 root1 (or_introl (conj eq_refl eq_refl)))).
  - exact (proj1 (two_space as2 root2 (or_intror (conj eq_refl eq_refl)))).
  - exact two_apart.
  - exact E.
  - exists s', T'. split; [exact E|]. split; [exact H1|]. split; [exact H2|exact H4].
Defined.
End Vme32.
